(* ===== verification/_CoqProject ===== *)
-Q . S2P
Prelude.v
Programs.v
PyText.v
PyTime.v
PyDict.v
PyJson.v
PyIso.v
JsonText.v
Sql.v
TextSplit.v
PyRegex.v
Contracts.v
Requests.v
ChannelContract.v
Applications.v
StateContracts.v
Idempotency.v
RequestCorrelation.v
Bindings.v
ProjectionRoutes.v
Submissions.v
Identities.v
QueuedInputs.v
DeliveryPlanning.v
PlanningTheorems.v
Concurrency.v
Coordination.v
CoordinationTheorems.v
ReceiptTheorems.v
DeliveryProperties.v
CoordinatorTheorems.v
DeliveryExamples.v
ProactiveContracts.v
ProactiveDelivery.v
ProactiveTheorems.v
ProactiveProperties.v
ProactiveOutcomes.v
ProactiveExamples.v
Effects.v
MemoryStore.v
StoreSpec.v
StoreRefinement.v
StoreTheorems.v
StoreExamples.v
StoreProperties.v
StoreSession.v
EffectExecution.v
SessionLaws.v
ExecutionTheorems.v
ExecutionProperties.v
Witnesses.v
InputDispatch.v
Inbound.v
InboundStores.v
InboundProtocol.v
InboundTheorems.v
InboundProperties.v
InboundExamples.v
RowMapping.v
RowMappingTheorems.v
SqliteState.v
SqlTheorems.v
SqliteBindings.v
SqliteRoutes.v
SqliteClaims.v
SqliteAtomicity.v
SqliteProperties.v
SqliteExamples.v
ProjectionRecovery.v
ProjectionDelivery.v
ProjectionOrder.v
ProjectionLoop.v
ProjectionTheorems.v
ProjectionCheckpoints.v
ProjectionExamples.v
Routing.v
RoutingLoop.v
RoutingProperties.v
RouteAuthority.v
RoutingExamples.v
