(* ===== verification/Prelude.v ===== *)
(** * The durable core of the instant-messaging gateway

    [imagent] connects chat Conversations to coding agents.  What a Gateway
    promises over crashes, retries, duplicate messages and competing workers
    rests on its persistence and on the parts that drive it: one store with a
    renewable lease, compare-and-set repositories and receipts of every effect;
    an executor of effects; and the delivery of messages to chat platforms.
    This development models that core as pure functions, small state monads,
    program trees and step relations, translated from the Python under
    [src/src/imagent], and proves what it promises.

    ** Parts, files and code (paths are below [src/src/imagent])

    The language:
    - [Prelude]: exceptions, fallible code [res], stateful code [M] with its
      weakest preconditions [wp], automation, list lemmas.  [Programs]: coroutines
      as program trees, an event loop that interleaves, cancels and crashes them,
      protocols of what a program may call ([keeps]) and a discipline of tokens
      for what tasks may do together ([follows]).
    - [PyText], [PyTime], [PyDict], [PyJson], [PyRegex]: the Python
      the code uses: strings and their UTF-8, JSON text, SHA-256; naive and aware
      times, floats; dictionaries with their insertion order; free JSON values;
      character classes, UTF-16 lengths and the regular expressions of the
      planner.

    Data and repositories:
    - [Contracts] ([applications/contract.py], [interaction/operations.py]),
      [Requests] ([applications/requests.py]), [Applications]
      ([applications/contract.py], [capabilities.py], [operations.py]: operations
      and their results), [ChannelContract]
      ([interaction/channels/contract.py], media and messages),
      [StateContracts] ([gateway/persistence/state_contracts.py],
      [queue_receipts.py]), [Effects] ([gateway/persistence/effects.py]): the
      data and every validator, in the order the code checks.
    - [Idempotency] ([idempotency.py]), [RequestCorrelation], [Bindings],
      [ProjectionRoutes], [Submissions] ([memory.py], with the rules of
      [gateway/projection/request_correlation.py]): the repositories, a record
      of dictionaries each, one definition per method.
    - [Identities]: the derived identifiers of delivery, input, projection and
      routing.  [QueuedInputs]: the merge of queued-input evidence.

    The store and the executor:
    - [MemoryStore]: [MemoryGatewayStore] of [memory_store.py] with the lease of
      [store.py], all locked operations.  [StoreSession]: the sessions it hands
      out, all methods.
    - [StoreSpec]: the abstract store, [store_step], a relation on the data
      without fences, error paths or call structure, and the invariant.
      [StoreRefinement]: each operation is a sequence of its steps.
      [StoreTheorems]: lemmas on runs.  [StoreExamples]: concrete stores.
    - [EffectExecution]: the durable executor of [gateway/effect_execution.py]
      over the interface of a session, the class [EffectSession];
      [SessionLaws]: what it relies on, and that the in-memory session keeps it;
      [ExecutionTheorems]: each path of it, under any schedule of other calls
      and any cancellation.

    Delivery ([gateway/delivery], [gateway/concurrency.py]):
    - [TextSplit], [DeliveryPlanning] ([planning.py]): a message as numbered
      segments a Channel takes.  [PlanningTheorems]: the plan carries it.
    - [Concurrency]: the keyed locks, with the order of those that wait.
    - [Coordination] ([coordination.py]): sending with retries, the aggregation
      of receipts, and the coordinator with its tasks as a transition system.
      [CoordinationTheorems], [ReceiptTheorems], [CoordinatorTheorems]: what is
      sent, what the receipt says, what the coordinator counts.
    - [ProactiveContracts] ([proactive.py], [submissions.py],
      [proactive_authorization.py]) and [ProactiveDelivery]
      ([proactive_runtime.py]): submissions from outside and from the Gateway,
      as program trees run by an event loop, [pool_step], that interleaves,
      cancels and crashes them.  [ProactiveTheorems]: the discipline of tokens
      its programs keep to.  [ProactiveProperties]: what that gives any run.
      [ProactiveOutcomes]: what is recorded, and who may deliver.

    The SQLite store ([gateway/persistence/sqlite.py], [row_mapping.py]):
    - [PyIso], [JsonText]: ISO texts of times, with their calendar, and the parser of
      JSON.  [Sql]: the [sqlite3] module as the store uses it: values and what can be
      bound, rows, tables with their keys, a connection with its transaction, and the
      tables as declared.
    - [RowMapping]: the row of every record and its decoder, with the JSON columns.
      [RowMappingTheorems]: their round trips.
    - [SqliteState]: every operation of [SQLiteGatewayState] as its statements in its
      transaction.  [SqlTheorems]: transactions, and tables that hold the entries of a
      dictionary.  [SqliteBindings], [SqliteRoutes], [SqliteClaims],
      [SqliteProperties]: the simulation of the process-local repositories, rows and
      claims.
      [SqliteAtomicity]: what any call leaves of its transaction.
      [SqliteExamples]: concrete databases.

    Inbound messages ([gateway/admission.py], [gateway/input],
    [gateway/orchestration.py]):
    - [InputDispatch] ([input/dispatch.py], [_process_message]): from a claimed
      message to the native input; Controllers and adapters are any programs.
    - [Inbound] ([admission.py], [input/failure_presentation.py], the startup
      buffer of [lifecycle.py], the entries of [orchestration.py]): claims,
      leases, the effect fence, settlement, start and stop.  [InboundStores]:
      what the Gateway relies on of a store of claims, as a class with laws, and
      the two stores that keep them.  [InboundProtocol], [InboundTheorems]: the
      protocol of a message and the discipline of claims.

    What an Application says, to the routes of a Thread ([gateway/projection]):
    - [ProjectionRecovery] ([recovery.py]): what a route misses, read from the history
      and the catch-up of its Application; one attempt of a recovery and what a failure
      records; what is read and what a gap means.
    - [ProjectionDelivery] ([observation.py]: the coordinator of routes and
      [deliver_projected_message]; [checkpoints.py]): barriers, locks, leases of actions,
      live and recovered delivery, the checkpoint.  [ProjectionOrder]: the walk over the
      messages of a recovery.  [ProjectionLoop]: the coordinator among other tasks and
      its invariant.  [ProjectionTheorems], [ProjectionCheckpoints],
      [ProjectionExamples]: live output and barriers, checkpoints, concrete runs.

    Operations on Conversations ([gateway/routing], [gateway/orchestration.py]):
    - [Routing] ([routing/operations.py], [routing/bindings.py], the delegates of
      [orchestration.py]): operations and results with their validators, the changes of
      a binding, the delegates, and the dispatch under the lock of the Conversation.
      [RouteAuthority] ([routing/projection_routes.py]): active routes and their refresh.
    - [RoutingLoop]: executions among other tasks; what one may rely on while it holds
      the lock.  [RoutingProperties]: what each delegate does, and what holds in every
      run.  [RoutingExamples]: concrete runs.

    [StoreProperties], [ExecutionProperties], [DeliveryProperties],
    [InboundProperties], [DeliveryExamples],
    [ProactiveExamples], [InboundExamples], [Witnesses]: the
    guarantees, the flaws, and the theorems at concrete inputs.

    The parts interact through the store: a repository is a component of its
    state ([on_repo]), an operation asserts the fence of its session, may read
    the clock, stages new dictionaries and publishes them; the executor calls a
    session and the native application in turn; the proactive service calls the
    submission repository and the coordinator, which plans, takes the lock of
    the destination and sends.

    ** What the theorems show

    - Refinement: the calls of the store implement [store_step]; a call that
      raises writes nothing (an acquisition may bind the namespace and use an
      epoch).  Sending a plan implements [delivery_run].  The SQLite store answers
      as the process-local repositories do: bindings, routes and claims, the last
      but for a stale claim, which is taken over.
    - Storage: every call of the SQLite store ends its transaction, one that raises
      changes nothing, and every record is read back from its rows as it was written.
    - Exactly once: a mutation is applied with its receipt or not at all, and
      replayed; the permission for a native side effect is given once; a
      message is fenced as a queued input once; the executor invokes the native
      application at most once an action; a destination is sent to again only
      after a failure that permits it, and never once it is settled; the effect
      and the native input of an inbound message happen at most once in every
      run, and the claim of a handled message is not left in flight.
    - Fencing: an overtaken or released session writes nothing; keyed locks serve in order.
    - Compare-and-set: bindings, workflow bindings, checkpoints, delivery
      destinations; monotone lifecycles of receipts, claims and request
      correlations.
    - Truth of receipts: the receipt of a delivery accounts for the whole
      message and claims no more than the platform did, and neither does what is
      recorded of it; nothing is written or sent for an unauthorized principal.
    - Projection: a recovery that reports no gap has all that follows the checkpoint;
      messages are tried in order and none after one that failed, so that what an
      interrupted recovery left is found by the next; live output waits for its
      baseline; a checkpoint names a message that was delivered.
    - Routing: the answer of an operation tells what became of the binding, written at
      the expected generation or there already; the barrier of a prepared route is opened
      only while the Conversation is not bound to its Thread.
    - Invariants of every reachable store and coordinator, bounds of accepted
      payloads, unambiguous identifiers up to SHA-256 collisions, round trips,
      the exact set of results the validators accept, and the plan of a message.
    - Flaws: a command can take effect twice, when the fence of queued input is
      rejected after it; the claim key of an inbound message is ambiguous; a workflow's
      binding is published before its receipt is validated; a workflow can raise
      after it created its object; a delivery cancelled before its first step is
      never released; two retries that read the clock at once both send; a retry
      without its Channel is stranded; an upsert of the SQLite store overwrites the
      correlation of another request; a claim that cannot be encoded leaves its
      transaction open; an aborted action opens a barrier that others rely on and lets a
      route go on past a message that failed.

    ** Modelling choices

    - A Python [str] is its list of code points; a [datetime] is naive or aware
      with its microseconds; a [float] is a rational or not finite.  Integers
      are unbounded, as in Python, and their bounds are those the code checks.
    - Exceptions are told apart by class; of messages only those of
      [ContractViolation] are kept.  Checks of the dynamic type of an argument
      ([isinstance]) are discharged by the types.  Metadata of messages and
      attachments are JSON values; the free mappings of other records, which no
      modelled code reads, are left out.
    - An operation under the store's lock is one atomic step; what other tasks
      do between the steps of a caller is arbitrary.  An exception keeps the
      writes made before it, so that atomicity is a theorem.
    - A task that is cancelled before its first step never runs its body, a lock
      of [asyncio] serves in the order of arrival, and a cancelled wait may come
      before or after what was awaited took place.
    - The clocks are functions of the number of readings, or any reading a given
      relation allows; theorems that compare times assume that the clock does
      not go back, or moves on, and say so.
    - A Controller and an adapter are any trees of the few operations they are
      given; what the theorems ask of them is stated as a protocol.  Operations
      of other owners have any outcome.
    - Recursions are structural, but for these, whose fuel is proved or seen to
      be enough: the retry of the executor (two), the search for the longest
      prefix (the length of its interval), the splitting of a text (its length),
      the attempts of a segment ([max_attempts]), and the draining of the startup
      buffer, which raises when its bound is used up: the bound is an argument,
      and the theorems hold for every one.  So are the rounds of a live delivery that
      finds its barrier replaced, of which the theorems say nothing but what is safe;
      the pages of a history are bounded by the code.

    - The SQL of the store is read as functions of tables: a table is the list of its
      rows, [SELECT] without an order finds them in an order that is an argument, and
      the text of a float is a parameter with the law that it is read back.

    ** Not modelled

    The opening, closing and migration of a database, and the coherent SQLite store
    ([sqlite_store.py]): its contract is the one the in-memory store is proved
    against, its fences are SQL triggers.  Of the SQLite store, requests, submissions
    and Turn correlations are modelled and shown atomic and read back; their simulation
    is left out, for where it fails see [SqliteExamples].  The order of Turns in
    [gateway/input], the observation of outcomes, and of the projection the workers that subscribe to events,
    the retries of request deliveries and live activity are left out.
    Adapters of chat platforms and agent servers, HTTP ingress, controllers and
    diagnostics are input, output and presentation and stay outside. *)

From stdpp Require Export base decidable option relations strings numbers sets list.
From stdpp Require Import gmap.

(** * Exceptions

    One constructor per exception class the modelled code raises.  The text of
    a message is not modelled, other than the one of [ContractViolation], kept
    as the label that tells which check failed. *)
Inductive exn : Type :=
| ContractViolation (msg : string)
| ValueError
| TypeError
| KeyError
| RuntimeError
| OverflowError
| UnicodeEncodeError
| BindingConflict
| IdempotencyCapacityError
| ProjectionCheckpointConflict
| ProjectionRouteConflict
| RequestCorrelationConflict
| TurnReplyCorrelationConflict
| DeliverySubmissionConflict
| DeliverySubmissionCapacityError
| GatewayNamespaceConflict
| RuntimeLeaseUnavailable
| StaleRuntimeFence
| EffectReceiptConflict
| EffectReceiptCapacityError
| QueuedInputFenceConflict
| QueuedInputReceiptConflict
| WorkspaceIdentityConflict
| DeliveryPlanningError
| CancelledError
| RecursionError
| KeyboardInterrupt
| SystemExit
| IndexError
| NotImplementedError
| KeyedLockCapacityError
| DeliveryRouteError
| DeliveryAuthorizationError
| MissingBindingError
| StaleBindingError
| BindingPreflightError (code : string)
| InputDispatchRejected
| ApplicationInputRejected (thread_busy : bool)
| ApplicationInputOutcomeUnknown (cause : exn)
| InputPostAcceptanceError (cause : exn)
| TurnAcceptanceBufferOverflow
| GatewayStartupOverflow
| GatewayNotRunning
| DestinationDecisionError
| RetryableDeliveryError
| ProjectionRecoveryUnavailable
| ProjectionRuntimeUnavailableError
| EventStreamGap (gap_code : string)
| EventBufferOverflow (gap_code : string)
| ProjectionWorkerCapacityError
| GatewayActionError (code message : list N) (retryable : bool)
(* of the [sqlite3] module *)
| IntegrityError
| OperationalError
(* an exception of a parameter: an adapter, a Channel *)
| ForeignError (label : string).

#[export] Instance exn_eq_dec : EqDecision exn.
Proof. solve_decision. Defined.

(** [isinstance(error, Exception)]: not an exit of the task or the process. *)
Definition is_exception (e : exn) : bool :=
  match e with CancelledError | KeyboardInterrupt | SystemExit => false | _ => true end.

(** [isinstance(error, ValueError)]. *)
Definition is_value_error (e : exn) : bool :=
  match e with
  | ValueError | ContractViolation _ | UnicodeEncodeError | DeliveryPlanningError => true
  | _ => false
  end.

(** * Fallible pure code *)

Inductive res (A : Type) : Type :=
| Ok (a : A)
| Err (e : exn).
Arguments Ok {A} a.
Arguments Err {A} e.

#[export] Instance res_eq_dec `{EqDecision A} : EqDecision (res A).
Proof. solve_decision. Defined.

#[export] Instance Ok_inj {A} : Inj (=) (=) (@Ok A).
Proof. by intros ?? [=]. Qed.

#[export] Instance res_ret : MRet res := λ A a, Ok a.
#[export] Instance res_bind : MBind res := λ A B f m,
  match m with Ok a => f a | Err e => Err e end.

(** Code that raises: the pure [res] and the stateful [M] below. *)
Class MRaise (M : Type → Type) := mraise : ∀ {A}, exn → M A.
#[export] Instance res_raise : MRaise res := λ A e, Err e.

(** [raise_if P e] is the statement [if P: raise e]. *)
Definition raise_if {M : Type → Type} `{MRet M, MRaise M}
    (P : Prop) `{Decision P} (e : exn) : M unit :=
  if decide P then mraise e else mret ().

(** [for x in l: f x], for a body that returns nothing but may raise. *)
Fixpoint for_each {M : Type → Type} `{MRet M, MBind M} {A}
    (l : list A) (f : A → M unit) : M unit :=
  match l with
  | [] => mret ()
  | x :: l' => f x ;; for_each l' f
  end.

(** [[f(x) for x in l]], for an [f] that may raise. *)
Fixpoint map_res {A B} (f : A → res B) (l : list A) : res (list B) :=
  match l with
  | [] => Ok []
  | x :: l' => y ← f x ; ys ← map_res f l' ; Ok (y :: ys)
  end.

(** [if x is not None: f x]. *)
Definition when_some {M : Type → Type} `{MRet M} {A}
    (o : option A) (f : A → M unit) : M unit :=
  match o with Some x => f x | None => mret () end.

Definition is_ok {A} (r : res A) : bool :=
  match r with Ok _ => true | Err _ => false end.

(** [filter] by a test that may raise, as in a generator expression. *)
Fixpoint filter_res {A} (f : A → res bool) (l : list A) : res (list A) :=
  match l with
  | [] => Ok []
  | x :: l' =>
      b ← f x ;
      rest ← filter_res f l' ;
      Ok (if (b : bool) then x :: rest else rest)
  end.

(** * Stateful code

    An exception leaves the writes made before it in place, as in Python: that
    a failing operation changes nothing is a theorem, not a convention. *)

Definition M (S A : Type) : Type := S → res A * S.

#[export] Instance M_ret {S} : MRet (M S) := λ A a s, (Ok a, s).
#[export] Instance M_bind {S} : MBind (M S) := λ A B f m s,
  match m s with
  | (Ok a, s') => f a s'
  | (Err e, s') => (Err e, s')
  end.
#[export] Instance M_raise {S} : MRaise (M S) := λ A e s, (Err e, s).

Definition lift {S A} (r : res A) : M S A := λ s, (r, s).
Definition get_st {S} : M S S := λ s, (Ok s, s).
Definition gets {S A} (f : S → A) : M S A := λ s, (Ok (f s), s).
Definition modify {S} (f : S → S) : M S unit := λ s, (Ok (), f s).

(** [try: m], with what it returned or raised. *)
Definition mcatch {S A} (m : M S A) : M S (res A) := λ s, let '(r, s') := m s in (Ok r, s').

(** Run [m] on a component of the state. *)
Definition zoom {S T A} (view : S → T) (upd : T → S → S) (m : M T A) : M S A :=
  λ s, let '(r, t) := m (view s) in (r, upd t s).

(** * Weakest preconditions of stateful code *)

Definition wp {S A} (m : M S A) (Q : res A → S → Prop) (s : S) : Prop :=
  Q (m s).1 (m s).2.

Section wp_rules.
Context {S : Type}.

Lemma wp_intro {A} (m : M S A) (Q : res A → S → Prop) s r s' :
  m s = (r, s') → wp m Q s → Q r s'.
Proof. unfold wp. by intros ->. Qed.

Lemma wp_mono {A} (m : M S A) (P Q : res A → S → Prop) s :
  wp m P s → (∀ r s', P r s' → Q r s') → wp m Q s.
Proof. unfold wp. eauto. Qed.

Lemma wp_ret {A} (a : A) (Q : res A → S → Prop) s :
  Q (Ok a) s → wp (mret a) Q s.
Proof. done. Qed.

Lemma wp_raise {A} e (Q : res A → S → Prop) s :
  Q (Err e) s → wp (mraise e) Q s.
Proof. done. Qed.

Lemma wp_lift {A} (r : res A) (Q : res A → S → Prop) s :
  Q r s → wp (lift r) Q s.
Proof. done. Qed.

Lemma wp_get (Q : res S → S → Prop) s : Q (Ok s) s → wp get_st Q s.
Proof. done. Qed.

Lemma wp_gets {A} (f : S → A) (Q : res A → S → Prop) s :
  Q (Ok (f s)) s → wp (gets f) Q s.
Proof. done. Qed.

Lemma wp_modify (f : S → S) (Q : res unit → S → Prop) s :
  Q (Ok ()) (f s) → wp (modify f) Q s.
Proof. done. Qed.

Lemma wp_bind {A B} (m : M S A) (k : A → M S B) (Q : res B → S → Prop) s :
  wp m (λ r s', match r with Ok a => wp (k a) Q s' | Err e => Q (Err e) s' end) s →
  wp (m ≫= k) Q s.
Proof.
  unfold wp, mbind, M_bind. destruct (m s) as [[a|e] s']; simpl; done.
Qed.

Lemma wp_raise_if P `{Decision P} e (Q : res unit → S → Prop) s :
  (P → Q (Err e) s) → (¬ P → Q (Ok ()) s) → wp (raise_if P e) Q s.
Proof.
  unfold raise_if. intros Ht Hf.
  case_decide; [apply wp_raise|apply wp_ret]; auto.
Qed.

Lemma wp_catch {A} (m : M S A) (Q : res (res A) → S → Prop) s :
  wp m (λ r s', Q (Ok r) s') s → wp (mcatch m) Q s.
Proof. unfold wp, mcatch. by destruct (m s). Qed.

Lemma wp_if {A} P `{Decision P} (m1 m2 : M S A) (Q : res A → S → Prop) s :
  (P → wp m1 Q s) → (¬ P → wp m2 Q s) → wp (if decide P then m1 else m2) Q s.
Proof. case_decide; auto. Qed.

Lemma wp_zoom {T A} (view : S → T) (upd : T → S → S) (m : M T A)
    (Q : res A → S → Prop) s :
  wp m (λ r t, Q r (upd t s)) (view s) → wp (zoom view upd m) Q s.
Proof. unfold wp, zoom. by destruct (m (view s)). Qed.
End wp_rules.

(** A pure computation lifted before a continuation. *)
Lemma wp_bind_lift {S A B} (r : res A) (k : A → M S B) (Q : res B → S → Prop) s :
  (∀ a, r = Ok a → wp (k a) Q s) → (∀ e, r = Err e → Q (Err e) s) →
  wp (lift r ≫= k) Q s.
Proof. intros Hok Herr. apply wp_bind, wp_lift. destruct r; eauto. Qed.

(** * Inversion of successful pure code *)

Lemma res_bind_ok {A B} (m : res A) (f : A → res B) b :
  m ≫= f = Ok b ↔ ∃ a, m = Ok a ∧ f a = Ok b.
Proof.
  unfold mbind, res_bind. destruct m as [a|e]; split; intros H.
  - by exists a.
  - by destruct H as (? & [= <-] & ?).
  - done.
  - by destruct H as (? & [=] & ?).
Qed.

(** A check before a value. *)
Lemma then_ok {A} (m1 : res unit) (m2 : res A) a :
  (m1 ;; m2) = Ok a ↔ m1 = Ok () ∧ m2 = Ok a.
Proof. rewrite res_bind_ok. split; [intros ([] & ? & ?)|intros [? ?]]; eauto. Qed.

Lemma res_bind_err {A B} (m : res A) (f : A → res B) e :
  m ≫= f = Err e ↔ m = Err e ∨ ∃ a, m = Ok a ∧ f a = Err e.
Proof.
  unfold mbind, res_bind. destruct m as [a|e']; split; intros H.
  - right. by exists a.
  - by destruct H as [[=]|(? & [= <-] & ?)].
  - left. congruence.
  - destruct H as [[= ->]|(? & [=] & ?)]; done.
Qed.

Lemma raise_if_ok P `{Decision P} e (u : unit) :
  (raise_if P e : res unit) = Ok u ↔ ¬ P.
Proof.
  unfold raise_if, mraise, res_raise, mret, res_ret. destruct u.
  by case_decide; split.
Qed.

Lemma raise_if_err P `{Decision P} e e' :
  (raise_if P e : res unit) = Err e' ↔ P ∧ e' = e.
Proof.
  unfold raise_if, mraise, res_raise, mret, res_ret.
  case_decide; split; [by intros [= <-]|by intros [_ ->]|done|by intros [??]].
Qed.

Lemma for_each_ok {A} (l : list A) (f : A → res unit) u :
  for_each l f = Ok u ↔ Forall (λ x, f x = Ok ()) l.
Proof.
  destruct u. induction l as [|x l IH]; simpl; [by split|].
  rewrite Forall_cons, <- IH, res_bind_ok. split; [intros ([] & ? & ?)|intros [??]]; eauto.
Qed.

Lemma map_res_fmap {A B} (f : B → res A) (g : A → B) (l : list A) :
  Forall (λ x, f (g x) = Ok x) l → map_res f (g <$> l) = Ok l.
Proof. induction 1 as [|x l Hx _ IH]; [done|]. cbn. rewrite Hx. cbn. by rewrite IH. Qed.

Lemma when_some_ok {A} (o : option A) (f : A → res unit) u :
  when_some o f = Ok u ↔ ∀ x, o = Some x → f x = Ok ().
Proof. destruct u, o; simpl; naive_solver. Qed.

Lemma filter_res_ok {A} (f : A → res bool) (l l' : list A) :
  filter_res f l = Ok l' →
  l' = filter (λ x, f x = Ok true) l ∧ Forall (λ x, is_ok (f x)) l.
Proof.
  revert l'. induction l as [|x l IH]; simpl; intros l'.
  - intros [= <-]. by rewrite filter_nil.
  - rewrite res_bind_ok. intros (b & Hb & Hr).
    apply res_bind_ok in Hr as (rest & Hrest & [= <-]).
    destruct (IH _ Hrest) as [-> ?]. rewrite filter_cons.
    split; [|constructor; [by rewrite Hb|done]].
    destruct b; case_decide; congruence.
Qed.

(** * Automation *)

Create HintDb gateway.
#[export] Hint Resolve wp_ret wp_raise wp_lift wp_get wp_gets wp_modify : gateway.

(** Split a success of [res] code into the success of each of its statements. *)
Ltac inv_ok :=
  repeat match goal with
  | H : _ ≫= _ = Ok _ |- _ => apply res_bind_ok in H as (? & ? & ?)
  | H : raise_if _ _ = Ok _ |- _ => apply raise_if_ok in H
  | H : mret _ = Ok _ |- _ => injection H as H
  | H : Ok _ = Ok _ |- _ => injection H as H
  | H : mraise _ = Ok _ |- _ => discriminate H
  | H : Err _ = Ok _ |- _ => discriminate H
  | H : Ok _ = Err _ |- _ => discriminate H
  | x : unit |- _ => destruct x
  end.

(** One step of symbolic execution of an [M] program in a [wp] goal. *)
Ltac wp_step :=
  lazymatch goal with
  | |- wp (lift _ ≫= _) _ _ => apply wp_bind_lift; intros ? ?
  | |- wp (_ ≫= _) _ _ => apply wp_bind
  | |- wp (mret _) _ _ => apply wp_ret
  | |- wp (mraise _) _ _ => apply wp_raise
  | |- wp (lift _) _ _ => apply wp_lift
  | |- wp get_st _ _ => apply wp_get
  | |- wp (gets _) _ _ => apply wp_gets
  | |- wp (modify _) _ _ => apply wp_modify
  | |- wp (raise_if _ _) _ _ => apply wp_raise_if; intros ?
  | |- wp (zoom _ _ _) _ _ => apply wp_zoom
  | |- wp (mcatch _) _ _ => apply wp_catch
  | |- wp (if decide _ then _ else _) _ _ => apply wp_if; intros ?
  | |- wp (match ?x with _ => _ end) _ _ => destruct x eqn:?
  end; simpl.
Ltac wp_run := repeat wp_step.

(** The second conjuncts of an equivalence may be compared under the first. *)
Lemma and_under_l (A B C : Prop) : (A → B ↔ C) → (A ∧ B ↔ A ∧ C).
Proof. tauto. Qed.

Lemma and_iff (A B C D : Prop) : (A ↔ C) → (B ↔ D) → (A ∧ B ↔ C ∧ D).
Proof. tauto. Qed.

(** * Lists *)

Section lists.
Context {A : Type}.

Lemma existsb_decide (P : A → Prop) `{∀ x, Decision (P x)} (l : list A) :
  existsb (λ x, bool_decide (P x)) l = true ↔ Exists P l.
Proof.
  rewrite Exists_exists, existsb_exists. setoid_rewrite bool_decide_eq_true.
  by setoid_rewrite list_elem_of_In.
Qed.
End lists.

(** [len(set(l)) == len(l)]. *)
Definition all_distinct {A} `{EqDecision A} (l : list A) : bool := bool_decide (NoDup l).

(** Python's [len]. *)
Definition len {A} (l : list A) : Z := Z.of_nat (length l).
