(* ===== verification/Programs.v ===== *)
(** Coroutines on one event loop.

    A coroutine is a program tree: code that runs without a pause on the memory
    the tasks share, and awaited operations with what the coroutine does with the
    outcome.  Tasks run in any order and are cancelled at any awaited operation;
    when the process ends, memory and tasks are lost and the environment stays.

    What a program may call, in what order, is stated as a protocol ([keeps]).  What
    tasks may do together is stated as a discipline of tokens: each task, and the
    memory, holds a part of one finite map, and [follows] says that a program is
    safe with the part it holds. *)

From S2P Require Export Prelude.
From stdpp Require Import gmap.
From stdpp Require Import list.
#[local] Open Scope stdpp_scope.

Inductive prog (S : Type) (E : Type → Type) (A : Type) : Type :=
| Done (r : res A)
| Sync {X : Type} (m : M S X) (k : res X → prog S E A)
| Await {X : Type} (e : E X) (k : res X → prog S E A).
Arguments Done {S E A} _.
Arguments Sync {S E A X} _ _.
Arguments Await {S E A X} _ _.

(** What follows a program, whatever it returned or raised. *)
Fixpoint andthen {S E A B} (p : prog S E A) (f : res A → prog S E B) : prog S E B :=
  match p with
  | Done r => f r
  | Sync m k => Sync m (λ r, andthen (k r) f)
  | Await e k => Await e (λ r, andthen (k r) f)
  end.

#[export] Instance prog_ret {S E} : MRet (prog S E) := λ A a, Done (Ok a).
#[export] Instance prog_bind {S E} : MBind (prog S E) := λ A B f p,
  andthen p (λ r, match r with Ok a => f a | Err e => Done (Err e) end).
#[export] Instance prog_raise {S E} : MRaise (prog S E) := λ A e, Done (Err e).

(** [try: p], with what it returned or raised. *)
Definition try {S E A} (p : prog S E A) : prog S E (res A) := andthen p (λ r, Done (Ok r)).
Definition sync {S E A} (m : M S A) : prog S E A := Sync m Done.
Definition await {S E A} (e : E A) : prog S E A := Await e Done.
Definition returns {S E A} (r : res A) : prog S E A := Done r.

(** A program whose operations are programs themselves, which keep a state of
    their own: the closures a caller passes down, with the variables they share. *)
Fixpoint interpret {S S' E E' L A} (h : ∀ X, E' X → L → prog S E (res X * L)) (s' : S')
    (p : prog S' E' A) (l : L) : prog S E (res A * L) :=
  match p with
  | Done r => mret (r, l)
  | Sync m k => interpret h (m s').2 (k (m s').1) l
  | Await e k => andthen (h _ e l) (λ out,
      match out with
      | Ok (r, l') => interpret h s' (k r) l'
      | Err x => interpret h s' (k (Err x)) l
      end)
  end.

(** * Protocols *)

(** A program keeps a protocol: from each state, [rule] says which operations may be
    called and what has to hold of what follows. *)
Section protocol.
Context {E : Type → Type} {C : Type}.
Context (rule : ∀ X, E X → C → (res X → C → Prop) → Prop).
Arguments rule {X} _ _ _.

Fixpoint keeps {S A} (c : C) (p : prog S E A) (Q : res A → C → Prop) : Prop :=
  match p with
  | Done r => Q r c
  | Sync m k => ∀ r, keeps c (k r) Q
  | Await e k => rule e c (λ r c', keeps c' (k r) Q)
  end.

(** A rule says more when more holds of what follows. *)
Definition monotone_rule : Prop :=
  ∀ X (e : E X) c (P Q : res X → C → Prop),
    rule e c P → (∀ r c', P r c' → Q r c') → rule e c Q.

Context (Hmono : monotone_rule).

Lemma keeps_mono {S A} c (p : prog S E A) (P Q : res A → C → Prop) :
  keeps c p P → (∀ r c', P r c' → Q r c') → keeps c p Q.
Proof.
  intros Hp HPQ. revert c Hp. induction p as [r|X m k IH|X e k IH]; intros c; cbn; [auto|..].
  - intros Hm r. apply IH, Hm.
  - intros He. eapply Hmono; [exact He|]. intros r c'. apply IH.
Qed.

Lemma keeps_andthen {S A B} c (p : prog S E A) (f : res A → prog S E B) Q :
  keeps c p (λ r c', keeps c' (f r) Q) → keeps c (andthen p f) Q.
Proof.
  revert c. induction p as [r|X m k IH|X e k IH]; intros c; cbn; [done|..].
  - intros Hm r. apply IH, Hm.
  - intros He. eapply Hmono; [exact He|]. intros r c'. apply IH.
Qed.

Lemma keeps_bind {S A B} c (p : prog S E A) (f : A → prog S E B) Q :
  keeps c p (λ r c', match r with Ok a => keeps c' (f a) Q | Err e => Q (Err e) c' end) →
  keeps c (p ≫= f) Q.
Proof. intros Hp. apply keeps_andthen. eapply keeps_mono; [exact Hp|]. by intros [a|e] c'. Qed.

Lemma keeps_try {S A} c (p : prog S E A) Q :
  keeps c p (λ r c', Q (Ok r) c') → keeps c (try p) Q.
Proof. intros Hp. by apply keeps_andthen. Qed.
End protocol.

(** An inner program that keeps its protocol, with handlers that turn each step of it
    into steps of an outer one. *)
Lemma keeps_interpret {S S' E E' C C' L A} (rule : ∀ X, E X → C → (res X → C → Prop) → Prop)
    (rule' : ∀ X, E' X → C' → (res X → C' → Prop) → Prop)
    (h : ∀ X, E' X → L → prog S E (res X * L)) (I : C' → L → C → Prop)
    (s' : S') (p : prog S' E' A) (l : L) c' c (P : res A → C' → Prop) Q :
  monotone_rule rule →
  (∀ X (e : E' X) c' l c Post, I c' l c → rule' X e c' Post →
     keeps rule c (h X e l) (λ out c1, match out with
       | Ok (r, l') => ∃ c1', I c1' l' c1 ∧ Post r c1'
       | Err x => ∃ c1', I c1' l c1 ∧ Post (Err x) c1' end)) →
  (∀ r c' l c, I c' l c → P r c' → Q (Ok (r, l)) c) →
  I c' l c → keeps rule' c' p P → keeps rule c (interpret h s' p l) Q.
Proof.
  intros Hmono Hh HQ. revert s' l c' c.
  induction p as [r|X m k IH|X e k IH]; intros s' l c' c HI Hp; cbn in *.
  - by eapply HQ.
  - by eapply IH.
  - apply keeps_andthen; [done|]. eapply keeps_mono; [done|by eapply Hh|].
    intros [[r l']|x] c1 (c1' & HI' & Hk); by eapply IH.
Qed.

(** * The event loop *)

Section loop.
Context {S W : Type} {E : Type → Type}.
(** An operation takes place in the environment, with an outcome. *)
Context (perform : ∀ X, E X → W → res X → W → Prop).
(** Operations that are no pause: their task cannot be cancelled there. *)
Context (immediate : ∀ X, E X → bool).
(** What others do to the environment. *)
Context (others : W → W → Prop).
(** The programs tasks are started with, and the memory of a new process. *)
Context (entry : prog S E unit → Prop) (boot : S → Prop).
Arguments perform {X} _ _ _ _.
Arguments immediate {X} _.

(** The outcomes of an awaited operation: a cancellation may come before or after
    it took place. *)
Definition outcome {X} (e : E X) (w : W) (r : res X) (w' : W) : Prop :=
  perform e w r w' ∨
  immediate e = false ∧ r = Err CancelledError ∧ (w' = w ∨ ∃ r0, perform e w r0 w').

Record loop := { lp_memory : S; lp_world : W; lp_tasks : list (prog S E unit) }.

Inductive loop_step : loop → loop → Prop :=
| task_starts s w tasks p :
    entry p →
    loop_step {| lp_memory := s; lp_world := w; lp_tasks := tasks |}
              {| lp_memory := s; lp_world := w; lp_tasks := tasks ++ [p] |}
| task_computes s w tasks i X (m : M S X) k :
    tasks !! i = Some (Sync m k) →
    loop_step {| lp_memory := s; lp_world := w; lp_tasks := tasks |}
              {| lp_memory := (m s).2; lp_world := w; lp_tasks := <[i := k (m s).1]> tasks |}
| task_awaits s w tasks i X (e : E X) k r w' :
    tasks !! i = Some (Await e k) → outcome e w r w' →
    loop_step {| lp_memory := s; lp_world := w; lp_tasks := tasks |}
              {| lp_memory := s; lp_world := w'; lp_tasks := <[i := k r]> tasks |}
| others_act s w tasks w' :
    others w w' →
    loop_step {| lp_memory := s; lp_world := w; lp_tasks := tasks |}
              {| lp_memory := s; lp_world := w'; lp_tasks := tasks |}
| process_ends s w tasks s' :
    boot s' →
    loop_step {| lp_memory := s; lp_world := w; lp_tasks := tasks |}
              {| lp_memory := s'; lp_world := w; lp_tasks := [] |}.

(** ** One task, run for some steps with given answers *)

Fixpoint drive (answer : ∀ X, E X → W → res X * W) (n : nat) (s : S) (w : W) (p : prog S E unit)
    : S * W * prog S E unit :=
  match n, p with
  | Datatypes.S n', Sync m k => drive answer n' (m s).2 w (k (m s).1)
  | Datatypes.S n', Await e k => let '(r, w') := answer _ e w in drive answer n' s w' (k r)
  | _, _ => (s, w, p)
  end.

Lemma drive_steps answer n s w p tasks i :
  (∀ X (e : E X) w, outcome e w (answer X e w).1 (answer X e w).2) →
  tasks !! i = Some p →
  let '(s', w', p') := drive answer n s w p in
  rtc loop_step {| lp_memory := s; lp_world := w; lp_tasks := tasks |}
                {| lp_memory := s'; lp_world := w'; lp_tasks := <[i := p']> tasks |}.
Proof.
  intros Ha. revert s w p tasks. induction n as [|n IH]; intros s w p tasks Hi; [|destruct p as [r|X m k|X e k]]; cbn.
  - by rewrite list_insert_id.
  - by rewrite list_insert_id.
  - specialize (IH (m s).2 w (k (m s).1) (<[i := k (m s).1]> tasks)).
    rewrite list_lookup_insert_eq in IH by by eapply lookup_lt_Some. specialize (IH eq_refl).
    destruct (drive answer n _ _ _) as [[s' w'] p']. rewrite list_insert_insert_eq in IH.
    eapply rtc_l; [by apply task_computes|]. done.
  - pose proof (Ha X e w) as Hp. destruct (answer X e w) as [r w1].
    specialize (IH s w1 (k r) (<[i := k r]> tasks)).
    rewrite list_lookup_insert_eq in IH by by eapply lookup_lt_Some. specialize (IH eq_refl).
    destruct (drive answer n _ _ _) as [[s' w'] p']. rewrite list_insert_insert_eq in IH.
    eapply rtc_l; [by eapply task_awaits|]. done.
Qed.

(** A task is started and run. *)
Lemma drive_started answer n s w p tasks :
  (∀ X (e : E X) w, outcome e w (answer X e w).1 (answer X e w).2) → entry p →
  let '(s', w', p') := drive answer n s w p in
  rtc loop_step {| lp_memory := s; lp_world := w; lp_tasks := tasks |}
                {| lp_memory := s'; lp_world := w'; lp_tasks := tasks ++ [p'] |}.
Proof.
  intros Ha He. pose proof (drive_steps answer n s w p (tasks ++ [p]) (length tasks) Ha) as Hd.
  rewrite lookup_app_r, Nat.sub_diag in Hd by done. specialize (Hd eq_refl).
  destruct (drive answer n s w p) as [[s' w'] p'].
  rewrite insert_app_r_alt, Nat.sub_diag in Hd by done.
  eapply rtc_l; [by apply task_starts|]. exact Hd.
Qed.

(** Tasks that are started and run one after the other. *)
Definition run_tasks (answer : ∀ X, E X → W → res X * W) (n : nat) (ps : list (prog S E unit)) (s : S) (w : W) : S * W :=
  fold_left (λ sw p, (drive answer n sw.1 sw.2 p).1) ps (s, w).

Lemma run_tasks_reach answer n ps s w tasks :
  (∀ X (e : E X) w, outcome e w (answer X e w).1 (answer X e w).2) → Forall entry ps →
  ∃ tasks', rtc loop_step {| lp_memory := s; lp_world := w; lp_tasks := tasks |}
    {| lp_memory := (run_tasks answer n ps s w).1; lp_world := (run_tasks answer n ps s w).2; lp_tasks := tasks' |}.
Proof.
  intros Ha Hps. unfold run_tasks. revert s w tasks.
  induction Hps as [|p ps Hp Hps IH]; intros s w tasks; cbn [fold_left fst snd]; [exists tasks; apply rtc_refl|].
  pose proof (drive_started answer n s w p tasks Ha Hp) as Hd. destruct (drive answer n s w p) as [[s1 w1] p1].
  destruct (IH s1 w1 (tasks ++ [p1])) as [tasks' Ht]. exists tasks'. etrans; [exact Hd|exact Ht].
Qed.

(** * The discipline of tokens *)

Context {K V : Type} `{Countable K}.
Abbreviation tokens := (gmap K V).
(** The tokens the memory holds, what holds of the memory, and what holds of the
    environment with all tokens. *)
Context (memory_tokens : S → tokens) (memory_ok : S → Prop) (world_ok : W → tokens → Prop).

(** A step without a pause leaves the task and the memory with tokens they had. *)
Definition computes {X} (own : tokens) (m : M S X) (Q : tokens → res X → Prop) : Prop :=
  ∀ s, memory_ok s → own ##ₘ memory_tokens s →
    memory_ok (m s).2 ∧ ∃ own', own' ##ₘ memory_tokens (m s).2 ∧
      own' ∪ memory_tokens (m s).2 ⊆ own ∪ memory_tokens s ∧ Q own' (m s).1.

(** An outcome of an operation leaves the environment sound, whatever tokens are
    elsewhere. *)
Definition performs {X} (own : tokens) (e : E X) (Q : tokens → res X → Prop) : Prop :=
  ∀ w r w' (rest : tokens), own ##ₘ rest → world_ok w (own ∪ rest) → outcome e w r w' →
    ∃ own', own' ##ₘ rest ∧ world_ok w' (own' ∪ rest) ∧ Q own' r.

Fixpoint follows {A} (own : tokens) (p : prog S E A) (Q : tokens → res A → Prop) : Prop :=
  match p with
  | Done r => Q own r
  | Sync m k => computes own m (λ own' r, follows own' (k r) Q)
  | Await e k => performs own e (λ own' r, follows own' (k r) Q)
  end.

Lemma computes_mono {X} own (m : M S X) (P Q : tokens → res X → Prop) :
  computes own m P → (∀ own' r, P own' r → Q own' r) → computes own m Q.
Proof. intros Hm HPQ s Hs Hd. destruct (Hm s Hs Hd) as (? & own' & ? & ? & ?). eauto 8. Qed.

Lemma performs_mono {X} own (e : E X) (P Q : tokens → res X → Prop) :
  performs own e P → (∀ own' r, P own' r → Q own' r) → performs own e Q.
Proof.
  intros He HPQ w r w' rest Hd Hw Ho. destruct (He w r w' rest Hd Hw Ho) as (own' & ? & ? & ?). eauto 8.
Qed.

Lemma follows_mono {A} own (p : prog S E A) (P Q : tokens → res A → Prop) :
  follows own p P → (∀ own' r, P own' r → Q own' r) → follows own p Q.
Proof.
  intros Hp HPQ. revert own Hp. induction p as [r|X m k IH|X e k IH]; intros own; cbn; [auto|..].
  - intros Hm. eapply computes_mono; [exact Hm|]. intros own' r. apply IH.
  - intros He. eapply performs_mono; [exact He|]. intros own' r. apply IH.
Qed.

Lemma follows_andthen {A B} own (p : prog S E A) (f : res A → prog S E B) Q :
  follows own p (λ own' r, follows own' (f r) Q) → follows own (andthen p f) Q.
Proof.
  revert own. induction p as [r|X m k IH|X e k IH]; intros own; cbn; [done|..].
  - intros Hm. eapply computes_mono; [exact Hm|]. intros own' r. apply IH.
  - intros He. eapply performs_mono; [exact He|]. intros own' r. apply IH.
Qed.

Lemma follows_bind {A B} own (p : prog S E A) (f : A → prog S E B) Q :
  follows own p (λ own' r, match r with Ok a => follows own' (f a) Q | Err e => Q own' (Err e) end) →
  follows own (p ≫= f) Q.
Proof.
  intros Hp. apply follows_andthen. eapply follows_mono; [exact Hp|]. by intros own' [a|e].
Qed.

Lemma follows_try {A} own (p : prog S E A) Q :
  follows own p (λ own' r, Q own' (Ok r)) → follows own (try p) Q.
Proof. intros Hp. by apply follows_andthen. Qed.

(** An inner program that keeps its protocol, with handlers that are safe with the
    tokens its state stands for. *)
Lemma follows_interpret {S' E' C L A} (rule : ∀ X, E' X → C → (res X → C → Prop) → Prop)
    (h : ∀ X, E' X → L → prog S E (res X * L)) (I : C → L → tokens → Prop)
    (s' : S') (p : prog S' E' A) (l : L) c own (P : res A → C → Prop) Q :
  (∀ X (e : E' X) c l own Post, I c l own → rule X e c Post →
     follows own (h X e l) (λ own' out, match out with
       | Ok (r, l') => ∃ c', I c' l' own' ∧ Post r c'
       | Err x => ∃ c', I c' l own' ∧ Post (Err x) c' end)) →
  (∀ r c l own', I c l own' → P r c → Q own' (Ok (r, l))) →
  I c l own → keeps rule c p P → follows own (interpret h s' p l) Q.
Proof.
  intros Hh HQ. revert s' l c own. induction p as [r|X m k IH|X e k IH]; intros s' l c own HI Hp; cbn in *.
  - by eapply HQ.
  - by eapply IH.
  - apply follows_andthen. eapply follows_mono; [by eapply Hh|].
    intros own' [[r l']|x] (c' & HI' & Hk); by eapply IH.
Qed.

(** * The loop keeps the discipline *)

(** Who holds a token: the memory, or a task. *)
Inductive holder : Type := InMemory | Task (i : nat).
#[local] Instance holder_eq_dec : EqDecision holder.
Proof. solve_decision. Defined.

Definition held_by (x : holder) (hold : gmap K (holder * V)) : tokens :=
  omap (λ '(y, v), if decide (y = x) then Some v else None) hold.
Definition all_tokens (hold : gmap K (holder * V)) : tokens := snd <$> hold.
Definition but (x : holder) (hold : gmap K (holder * V)) : gmap K (holder * V) :=
  filter (λ kv, kv.2.1 ≠ x) hold.
Definition regive (x : holder) (own : tokens) (hold : gmap K (holder * V)) : gmap K (holder * V) :=
  (pair x <$> own) ∪ but x hold.

Lemma lookup_held x hold k v : held_by x hold !! k = Some v ↔ hold !! k = Some (x, v).
Proof.
  unfold held_by. rewrite lookup_omap. destruct (hold !! k) as [[y v']|]; cbn; [|naive_solver].
  case_decide; naive_solver.
Qed.

Lemma lookup_but x hold k y v : but x hold !! k = Some (y, v) ↔ hold !! k = Some (y, v) ∧ y ≠ x.
Proof. unfold but. by rewrite map_lookup_filter_Some. Qed.

Lemma lookup_all hold k v : all_tokens hold !! k = Some v ↔ ∃ x, hold !! k = Some (x, v).
Proof.
  unfold all_tokens. rewrite lookup_fmap. destruct (hold !! k) as [[y v']|]; cbn; naive_solver.
Qed.

Lemma held_disjoint x hold : held_by x hold ##ₘ all_tokens (but x hold).
Proof.
  apply map_disjoint_spec. intros k v1 v2 H1%lookup_held [y H2%lookup_but]%lookup_all. naive_solver.
Qed.

Lemma held_others_disjoint x y hold : x ≠ y → held_by x hold ##ₘ held_by y hold.
Proof. intros. apply map_disjoint_spec. intros k v1 v2 H1%lookup_held H2%lookup_held. congruence. Qed.

Lemma all_split x hold : all_tokens hold = held_by x hold ∪ all_tokens (but x hold).
Proof.
  apply map_eq. intros k. apply option_eq. intros v.
  rewrite lookup_union_Some by apply held_disjoint. rewrite lookup_held, !lookup_all.
  setoid_rewrite lookup_but. split.
  - intros [y Hy]. destruct (decide (y = x)) as [->|]; eauto.
  - intros [?|(y & ? & ?)]; eauto.
Qed.

Lemma held_by_empty x : held_by x ∅ = ∅.
Proof. apply map_eq. intros k. apply option_eq. intros v. by rewrite lookup_held, !lookup_empty. Qed.

Section regive.
Context (x : holder) (own : tokens) (hold : gmap K (holder * V)).
Hypothesis Hdisj : own ##ₘ all_tokens (but x hold).

Lemma regive_disjoint : (pair x <$> own) ##ₘ but x hold.
Proof.
  apply map_disjoint_spec. intros k [? v1] [y v2] H1 H2.
  rewrite lookup_fmap_Some in H1. destruct H1 as (v & ? & Hv).
  eapply map_disjoint_spec in Hdisj; [|exact Hv|]; [done|]. apply lookup_all. eauto.
Qed.

Lemma lookup_regive k y v :
  regive x own hold !! k = Some (y, v) ↔ (y = x ∧ own !! k = Some v) ∨ (hold !! k = Some (y, v) ∧ y ≠ x).
Proof.
  unfold regive. rewrite lookup_union_Some by apply regive_disjoint.
  rewrite lookup_fmap_Some, lookup_but. naive_solver.
Qed.

Lemma regive_self : held_by x (regive x own hold) = own.
Proof.
  apply map_eq. intros k. apply option_eq. intros v. rewrite lookup_held, lookup_regive. naive_solver.
Qed.

Lemma regive_other y : y ≠ x → held_by y (regive x own hold) = held_by y hold.
Proof.
  intros. apply map_eq. intros k. apply option_eq. intros v. rewrite !lookup_held, lookup_regive.
  naive_solver.
Qed.

Lemma regive_all : all_tokens (regive x own hold) = own ∪ all_tokens (but x hold).
Proof.
  apply map_eq. intros k. apply option_eq. intros v.
  rewrite lookup_union_Some by done. rewrite !lookup_all.
  setoid_rewrite lookup_regive. setoid_rewrite lookup_but. naive_solver.
Qed.
End regive.

(** The part of a loop the discipline speaks of. *)
Definition disciplined (p : loop) : Prop :=
  memory_ok (lp_memory p) ∧ ∃ hold,
    held_by InMemory hold = memory_tokens (lp_memory p) ∧
    world_ok (lp_world p) (all_tokens hold) ∧
    (∀ i q, lp_tasks p !! i = Some q → follows (held_by (Task i) hold) q (λ _ _, True)) ∧
    ∀ i, (length (lp_tasks p) ≤ i)%nat → held_by (Task i) hold = ∅.

Section keeps.
Hypothesis world_drop : ∀ w m m', world_ok w m → m' ⊆ m → world_ok w m'.
Hypothesis world_others : ∀ w w' m, world_ok w m → others w w' → world_ok w' m.
Hypothesis entry_follows : ∀ p, entry p → follows ∅ p (λ _ _, True).
Hypothesis boot_ok : ∀ s, boot s → memory_ok s ∧ memory_tokens s = ∅.

(** A program is safe with more tokens than it needs. *)
Lemma follows_drop {A} (own own' : tokens) (p : prog S E A) (Q : tokens → res A → Prop) :
  follows own' p Q → own' ⊆ own → (∀ own own' r, Q own' r → own' ⊆ own → Q own r) → follows own p Q.
Proof.
  intros Hp Hsub HQ. revert own own' Hp Hsub.
  induction p as [r|X m k IH|X e k IH]; intros own own' Hp Hsub; cbn in *; [by eapply HQ|..].
  - intros s Hs Hd. assert (own' ##ₘ memory_tokens s) as Hd' by by eapply map_disjoint_weaken_l.
    destruct (Hp s Hs Hd') as (Hs' & own1 & Hd1 & Hsub1 & Hk). split; [done|]. exists own1.
    split_and!; [done| |done]. etrans; [exact Hsub1|]. by apply map_union_mono_r.
  - intros w r w' rest Hd Hw Ho.
    assert (own' ##ₘ rest) as Hd' by by eapply map_disjoint_weaken_l.
    apply (Hp w r w' rest Hd'); [|done]. eapply world_drop; [exact Hw|]. by apply map_union_mono_r.
Qed.

(** The task [i] goes on with other tokens. *)
Lemma disciplined_task (s' : S) (w' : W) tasks i q q' (hold : gmap K (holder * V)) own' :
  tasks !! i = Some q → memory_ok s' →
  held_by InMemory hold = memory_tokens s' → world_ok w' (own' ∪ all_tokens (but (Task i) hold)) →
  own' ##ₘ all_tokens (but (Task i) hold) →
  follows own' q' (λ _ _, True) →
  (∀ j q, j ≠ i → tasks !! j = Some q → follows (held_by (Task j) hold) q (λ _ _, True)) →
  (∀ j, (length tasks ≤ j)%nat → held_by (Task j) hold = ∅) →
  disciplined {| lp_memory := s'; lp_world := w'; lp_tasks := <[i := q']> tasks |}.
Proof.
  intros Hi Hs Hmem Hw Hd Hq Hothers Hnone. split; [done|]. exists (regive (Task i) own' hold).
  cbn. rewrite regive_other, regive_all by done. split_and!; [done..| |].
  - intros j q'' Hj. destruct (decide (i = j)) as [<-|Hne].
    + rewrite list_lookup_insert_eq in Hj by by eapply lookup_lt_Some. injection Hj as <-.
      by rewrite regive_self.
    + rewrite list_lookup_insert_ne in Hj by done.
      rewrite regive_other by (done || congruence). by apply Hothers.
  - intros j. rewrite length_insert. intros Hj. assert (j ≠ i) by (apply lookup_lt_Some in Hi; lia).
    rewrite regive_other by (done || congruence). by apply Hnone.
Qed.

Lemma loop_step_disciplined p p' : disciplined p → loop_step p p' → disciplined p'.
Proof.
  intros [Hs (hold & Hmem & Hw & Htasks & Hnone)] Hstep.
  destruct Hstep as [s w tasks p He|s w tasks i X m k Hi|s w tasks i X e k r w' Hi Ho
    |s w tasks w' Ho|s w tasks s' Hb]; cbn in *.
  - split; [done|]. exists hold. cbn. split_and!; [done..| |].
    + intros i q [Hq|[Hlen Hq]]%lookup_app_Some; [by apply Htasks|].
      apply list_lookup_singleton_Some in Hq as [Hi <-]. rewrite Hnone by lia. by apply entry_follows.
    + intros i Hi. apply Hnone. rewrite length_app in Hi. lia.
  - pose proof (Htasks i _ Hi) as Hf. cbn in Hf.
    destruct (Hf s Hs) as (Hs' & own' & Hd' & Hsub & Hq).
    { rewrite <- Hmem. by apply held_others_disjoint. }
    set (hold1 := regive InMemory (memory_tokens (m s).2) (but (Task i) hold)).
    assert (∀ k v, but (Task i) hold !! k = Some (InMemory, v) → memory_tokens s !! k = Some v) as Hin.
    { intros k' v' [Hk _]%lookup_but. by rewrite <- Hmem, lookup_held. }
    assert (own' ∪ memory_tokens (m s).2 ##ₘ all_tokens (but InMemory (but (Task i) hold))) as Hrest.
    { apply map_disjoint_spec. intros k' v1 v2 H1 [y [[H2 Hy]%lookup_but Hy']%lookup_but]%lookup_all.
      eapply lookup_weaken in H1; [|exact Hsub].
      apply lookup_union_Some in H1; [|rewrite <- Hmem; by apply held_others_disjoint].
      rewrite <- Hmem, !lookup_held in H1. naive_solver. }
    apply map_disjoint_union_l in Hrest as [Hr1 Hr2].
    assert (but (Task i) hold1 = hold1) as Hbut.
    { apply map_eq. intros k'. apply option_eq. intros [y v]. unfold hold1.
      rewrite lookup_but, lookup_regive by done. rewrite lookup_but. naive_solver. }
    apply (disciplined_task (m s).2 w tasks i (Sync m k) (k (m s).1) hold1 own'); try done.
    + unfold hold1. by rewrite regive_self.
    + rewrite Hbut. unfold hold1. rewrite regive_all by done. rewrite map_union_assoc.
      apply (world_drop _ _ _ Hw).
      apply map_subseteq_spec. intros k' v Hv.
      apply lookup_union_Some in Hv; [|by apply map_disjoint_union_l].
      apply lookup_all. destruct Hv as [Hv|Hv].
      * eapply lookup_weaken in Hv; [|exact Hsub].
        apply lookup_union_Some in Hv; [|rewrite <- Hmem; by apply held_others_disjoint].
        rewrite <- Hmem, !lookup_held in Hv. naive_solver.
      * apply lookup_all in Hv as [y Hv]. rewrite !lookup_but in Hv. naive_solver.
    + rewrite Hbut. unfold hold1. rewrite regive_all by done. by apply map_disjoint_union_r.
    + intros j q Hj Hq'. replace (held_by (Task j) hold1) with (held_by (Task j) hold); [by apply Htasks|].
      unfold hold1. rewrite regive_other by done. apply map_eq. intros k'. apply option_eq. intros v.
      rewrite !lookup_held, lookup_but. naive_solver.
    + intros j Hj. unfold hold1. rewrite regive_other by done. apply map_eq. intros k'. apply option_eq.
      intros v. rewrite lookup_held, lookup_but. specialize (Hnone j Hj). rewrite <- lookup_held, Hnone.
      split; [naive_solver|]. by rewrite lookup_empty.
  - pose proof (Htasks i _ Hi) as Hf. cbn in Hf.
    destruct (Hf w r w' (all_tokens (but (Task i) hold))) as (own' & Hd' & Hw' & Hq); [| |done|].
    + apply held_disjoint.
    + by rewrite <- all_split.
    + apply (disciplined_task s w' tasks i (Await e k) (k r) hold own'); try done.
      intros j q _. by apply Htasks.
  - split; [done|]. exists hold. cbn. split_and!; eauto.
  - destruct (boot_ok _ Hb) as [Hok Hnil]. split; [done|]. exists ∅. cbn. split_and!.
    + by rewrite Hnil, held_by_empty.
    + apply (world_drop _ _ _ Hw). unfold all_tokens. rewrite fmap_empty. apply map_empty_subseteq.
    + done.
    + intros. apply held_by_empty.
Qed.

Lemma disciplined_start s w :
  memory_ok s → memory_tokens s = ∅ → world_ok w ∅ →
  disciplined {| lp_memory := s; lp_world := w; lp_tasks := [] |}.
Proof.
  intros Hs Hnil Hw. split; [done|]. exists ∅. cbn. split_and!.
  - by rewrite Hnil, held_by_empty.
  - unfold all_tokens. by rewrite fmap_empty.
  - done.
  - intros. apply held_by_empty.
Qed.

Lemma loop_steps_disciplined p p' : disciplined p → rtc loop_step p p' → disciplined p'.
Proof. intros Hp Hsteps. induction Hsteps; [done|]. eauto using loop_step_disciplined. Qed.

(** Every loop reached is disciplined. *)
Lemma loop_disciplined s w p :
  boot s → world_ok w ∅ →
  rtc loop_step {| lp_memory := s; lp_world := w; lp_tasks := [] |} p → disciplined p.
Proof. intros [Hs Hnil]%boot_ok Hw. by apply loop_steps_disciplined, disciplined_start. Qed.
End keeps.
End loop.
