(* ===== verification/PyText.v ===== *)
(** Python text: a [str] is the list of its code points.  UTF-8 encoding,
    [json.dumps] of the identity documents the gateway hashes (compact
    separators, [ensure_ascii=False]), SHA-256 and the lowercase hexadecimal
    digest, all executable, with the injectivity of the encodings: two
    different identities never produce the same hashed text. *)

From Stdlib Require Import Ascii String.
From stdpp Require Import pretty sorting list.
#[local] Open Scope stdpp_scope.
From S2P Require Export Prelude.

Abbreviation pystr := (list N).

(** A literal: [py "abc"]. *)
Definition py (s : string) : pystr := N_of_ascii <$> list_ascii_of_string s.
Definition chr (a : ascii) : N := N_of_ascii a.

(** * Lowercase hexadecimal *)

Definition hex_digit (n : N) : N := if decide (n < 10)%N then (48 + n)%N else (87 + n)%N.
(** [character in "0123456789abcdef"]. *)
Definition is_hex_char (c : N) : bool :=
  bool_decide ((48 ≤ c ∧ c ≤ 57) ∨ (97 ≤ c ∧ c ≤ 102))%N.
(** [len(v) == 64] and every character lowercase hexadecimal. *)
Definition is_sha256_hex (s : pystr) : bool :=
  bool_decide (len s = 64%Z) && forallb is_hex_char s.

(** [str.lower] on ASCII letters.  The one place that calls it also requires
    every character to be lowercase hexadecimal, so no other case is reachable
    with a different answer. *)
Definition ascii_lower (s : pystr) : pystr :=
  (λ c : N, if decide (65 ≤ c ∧ c ≤ 90)%N then (c + 32)%N else c) <$> s.

(** [str.isspace] of one character: the whitespace [str.strip] removes. *)
Definition is_space (c : N) : bool :=
  bool_decide ((9 ≤ c ∧ c ≤ 13) ∨ (28 ≤ c ∧ c ≤ 32) ∨ c = 133 ∨ c = 160 ∨ c = 5760
    ∨ (8192 ≤ c ∧ c ≤ 8202) ∨ c = 8232 ∨ c = 8233 ∨ c = 8239 ∨ c = 8287 ∨ c = 12288)%N.

Fixpoint lstrip (s : pystr) : pystr :=
  match s with
  | [] => []
  | c :: s' => if is_space c then lstrip s' else s
  end.
Definition rstrip (s : pystr) : pystr := rev (lstrip (rev s)).
(** [s.strip()]. *)
Definition strip (s : pystr) : pystr := rstrip (lstrip s).

(** * UTF-8 *)

Definition utf8_char (c : N) : res (list N) :=
  if decide (c < 128)%N then Ok [c]
  else if decide (c < 2048)%N then Ok [192 + c / 64; 128 + c mod 64]%N
  else if decide (55296 ≤ c ∧ c < 57344)%N then Err UnicodeEncodeError
  else if decide (c < 65536)%N then
    Ok [224 + c / 4096; 128 + (c / 64) mod 64; 128 + c mod 64]%N
  else if decide (c < 1114112)%N then
    Ok [240 + c / 262144; 128 + (c / 4096) mod 64; 128 + (c / 64) mod 64; 128 + c mod 64]%N
  else Err UnicodeEncodeError.

(** [s.encode("utf-8")]: surrogates are refused. *)
Fixpoint utf8 (s : pystr) : res (list N) :=
  match s with
  | [] => Ok []
  | c :: s' => b ← utf8_char c ; bs ← utf8 s' ; Ok (b ++ bs)
  end.

(** * JSON documents of identities *)

Inductive json : Type :=
| JNull
| JBool (b : bool)
| JInt (z : Z)
| JStr (s : pystr)
| JArr (l : list json).

Section json_ind.
Variable P : json → Prop.
Hypothesis Hnull : P JNull.
Hypothesis Hbool : ∀ b, P (JBool b).
Hypothesis Hint : ∀ z, P (JInt z).
Hypothesis Hstr : ∀ s, P (JStr s).
Hypothesis Harr : ∀ l, Forall P l → P (JArr l).
Fixpoint json_ind' (j : json) : P j :=
  match j with
  | JNull => Hnull
  | JBool b => Hbool b
  | JInt z => Hint z
  | JStr s => Hstr s
  | JArr l => Harr l ((fix go l : Forall P l :=
      match l with
      | [] => List.Forall_nil P
      | x :: l' => List.Forall_cons P x l' (json_ind' x) (go l')
      end) l)
  end.
End json_ind.

(** One character of a JSON string: the two-character escapes, [\u00XX] for
    the other control characters, the character itself otherwise. *)
Definition json_char (c : N) : pystr :=
  if decide (c = 34)%N then [92; 34]%N
  else if decide (c = 92)%N then [92; 92]%N
  else if decide (c = 10)%N then [92; 110]%N
  else if decide (c = 13)%N then [92; 114]%N
  else if decide (c = 9)%N then [92; 116]%N
  else if decide (c = 12)%N then [92; 102]%N
  else if decide (c = 8)%N then [92; 98]%N
  else if decide (c < 32)%N then
    [92; 117; 48; 48; hex_digit (c / 16); hex_digit (c mod 16)]%N
  else [c].

Definition json_string (s : pystr) : pystr := [34%N] ++ concat (json_char <$> s) ++ [34%N].

(** Joined with [","]. *)
Fixpoint comma_join (l : list pystr) : pystr :=
  match l with
  | [] => []
  | [x] => x
  | x :: l' => x ++ [44%N] ++ comma_join l'
  end.

(** [json.dumps(j, ensure_ascii=False, separators=(",", ":"))]. *)
Fixpoint dumps (j : json) : pystr :=
  match j with
  | JNull => py "null"
  | JBool true => py "true"
  | JBool false => py "false"
  | JInt z => py (pretty z)
  | JStr s => json_string s
  | JArr l => [91%N] ++ comma_join (map dumps l) ++ [93%N]
  end.

(** * SHA-256 *)

Definition mask32 (x : N) : N := (x mod 2 ^ 32)%N.
Definition rotr (n x : N) : N := N.lor (N.shiftr x n) (mask32 (N.shiftl x (32 - n))).
Definition add32 (l : list N) : N := mask32 (foldr N.add 0%N l).
Definition not32 (x : N) : N := N.lxor x 4294967295%N.

(** The constants of the algorithm by their definition: the first 32 bits of the
    fractional parts of the roots of the first primes. *)
Definition is_prime (n : N) : bool :=
  forallb (λ d, negb (n mod d =? 0)%N) (map N.of_nat (seq 2 (N.to_nat n - 2))).
Definition sha_primes : list N :=
  List.filter is_prime (map N.of_nat (seq 2 310)).

(** The largest [r] with [r ^ 3 <= n], bit by bit. *)
Fixpoint cube_root_from (bits : nat) (r n : N) : N :=
  match bits with
  | O => r
  | S bits' =>
      let r' := (r + 2 ^ N.of_nat bits')%N in
      cube_root_from bits' (if (r' ^ 3 <=? n)%N then r' else r) n
  end.

Definition sha_k : list N := Eval vm_compute in
  map (λ p, mask32 (cube_root_from 40 0 (p * 2 ^ 96)%N)) sha_primes.
Definition sha_h0 : list N := Eval vm_compute in
  map (λ p, mask32 (N.sqrt (p * 2 ^ 64)%N)) (take 8 sha_primes).

(** [n.to_bytes(k, "big")], for [n] in range. *)
Fixpoint be_bytes (k : nat) (n : N) : list N :=
  match k with
  | O => []
  | S k' => be_bytes k' (n / 256)%N ++ [(n mod 256)%N]
  end.

Definition sha_pad (msg : list N) : list N :=
  let n := length msg in
  let z := ((119 - n mod 64) mod 64)%nat in
  msg ++ [128%N] ++ replicate z 0%N ++ be_bytes 8 (8 * N.of_nat n)%N.

Fixpoint sha_words (n : nat) (l : list N) : list N :=
  match n, l with
  | S n', a :: b :: c :: d :: l' =>
      (((a * 256 + b) * 256 + c) * 256 + d)%N :: sha_words n' l'
  | _, _ => []
  end.

(** The message schedule, latest word first. *)
Fixpoint sha_schedule (n : nat) (rw : list N) : list N :=
  match n with
  | O => rw
  | S n' =>
      let w k := nth k rw 0%N in
      let s0 := N.lxor (N.lxor (rotr 7 (w 14%nat)) (rotr 18 (w 14%nat))) (N.shiftr (w 14%nat) 3) in
      let s1 := N.lxor (N.lxor (rotr 17 (w 1%nat)) (rotr 19 (w 1%nat))) (N.shiftr (w 1%nat) 10) in
      sha_schedule n' (add32 [w 15%nat; s0; w 6%nat; s1] :: rw)
  end.

Definition sha_round (st : list N) (kw : N * N) : list N :=
  match st with
  | [a; b; c; d; e; f; g; h] =>
      let s1 := N.lxor (N.lxor (rotr 6 e) (rotr 11 e)) (rotr 25 e) in
      let ch := N.lxor (N.land e f) (N.land (not32 e) g) in
      let t1 := add32 [h; s1; ch; kw.1; kw.2] in
      let s0 := N.lxor (N.lxor (rotr 2 a) (rotr 13 a)) (rotr 22 a) in
      let mj := N.lxor (N.lxor (N.land a b) (N.land a c)) (N.land b c) in
      let t2 := add32 [s0; mj] in
      [add32 [t1; t2]; a; b; c; add32 [d; t1]; e; f; g]
  | _ => st
  end.

Definition sha_block (st block : list N) : list N :=
  let ws := rev (sha_schedule 48 (rev (sha_words 16 block))) in
  let st' := foldl sha_round st (zip sha_k ws) in
  zip_with (λ x y, add32 [x; y]) st st'.

Fixpoint sha_blocks (fuel : nat) (st l : list N) : list N :=
  match fuel with
  | O => st
  | S fuel' =>
      match l with
      | [] => st
      | _ => sha_blocks fuel' (sha_block st (take 64 l)) (drop 64 l)
      end
  end.

(** The digest as eight 32-bit words; the fuel covers every block, since each
    one consumes at least one byte. *)
Definition sha256_words (msg : list N) : list N :=
  let p := sha_pad msg in sha_blocks (length p) sha_h0 p.

Definition hex_byte (b : N) : pystr := [hex_digit (b / 16 mod 16); hex_digit (b mod 16)]%N.

(** [hashlib.sha256(msg).hexdigest()]. *)
Definition sha256_hex (msg : list N) : pystr :=
  concat (hex_byte <$> concat (be_bytes 4 <$> sha256_words msg)).

(** The idiom of every identity the gateway derives:
    [prefix + sha256(json.dumps(identity).encode()).hexdigest()]. *)
Definition sha256_of_json (prefix : pystr) (identity : json) : res pystr :=
  bytes ← utf8 (dumps identity) ;
  Ok (prefix ++ sha256_hex bytes).

Example sha256_abc : sha256_hex (py "abc") =
  py "ba7816bf8f01cfea414140de5dae2223b00361a396177a9cb410ff61f20015ad".
Proof. vm_compute. reflexivity. Qed.

Example sha256_two_blocks :
  sha256_hex (py "abcdbcdecdefdefgefghfghighijhijkijkljklmklmnlmnomnopnopq") =
  py "248d6a61d20638b8e5c026930c3e6039a33ce45964ff2167f6ecedd419db06c1".
Proof. vm_compute. reflexivity. Qed.

(** * The digest is 64 lowercase hexadecimal characters *)

Lemma length_be_bytes k n : length (be_bytes k n) = k.
Proof. revert n. induction k as [|k IH]; intros n; simpl; [done|]. rewrite length_app, IH. simpl. lia. Qed.

Lemma length_sha_round st kw : length st = 8%nat → length (sha_round st kw) = 8%nat.
Proof. unfold sha_round. intros H. do 9 (destruct st as [|? st]; try done). Qed.

Lemma length_sha_block st block : length st = 8%nat → length (sha_block st block) = 8%nat.
Proof.
  intros H. unfold sha_block. rewrite length_zip_with.
  assert (∀ l st0, length st0 = 8%nat → length (foldl sha_round st0 l) = 8%nat) as Hf.
  { intros l. induction l as [|x l IH]; intros st0 H0; simpl; [done|]. by apply IH, length_sha_round. }
  rewrite Hf by done. lia.
Qed.

Lemma length_sha_blocks fuel st l :
  length st = 8%nat → length (sha_blocks fuel st l) = 8%nat.
Proof.
  revert st l. induction fuel as [|fuel IH]; intros st l H; simpl; [done|].
  destruct l; [done|]. by apply IH, length_sha_block.
Qed.

Lemma length_concat_fmap {A B} (f : A → list B) (k : nat) (l : list A) :
  (∀ x, length (f x) = k) → length (concat (f <$> l)) = (k * length l)%nat.
Proof.
  intros Hf. induction l as [|x l IH]; [simpl; lia|].
  rewrite fmap_cons. cbn [concat length]. rewrite length_app, Hf, IH. lia.
Qed.

Lemma hex_digit_is_hex n : (n < 16)%N → is_hex_char (hex_digit n) = true.
Proof. intros H. unfold is_hex_char, hex_digit. apply bool_decide_eq_true. case_decide; lia. Qed.

Lemma sha256_hex_is_sha256_hex msg : is_sha256_hex (sha256_hex msg) = true.
Proof.
  unfold is_sha256_hex, sha256_hex. apply andb_true_intro. split.
  - apply bool_decide_eq_true. unfold len.
    rewrite (length_concat_fmap _ 2), (length_concat_fmap _ 4)
      by (try apply length_be_bytes; done).
    unfold sha256_words. by rewrite length_sha_blocks.
  - apply forallb_forall. intros c Hc. apply in_concat in Hc as (x & Hx & Hc).
    apply list_elem_of_In, list_elem_of_fmap in Hx as (b & -> & _).
    destruct Hc as [<-|[<-|[]]]; apply hex_digit_is_hex.
    + by apply N.mod_lt.
    + by apply N.mod_lt.
Qed.

(** * Injectivity of the encodings *)

Lemma py_inj s1 s2 : py s1 = py s2 → s1 = s2.
Proof.
  intros H. unfold py in H.
  assert (list_ascii_of_string s1 = list_ascii_of_string s2) as Hl.
  { revert H. generalize (list_ascii_of_string s1) as l1, (list_ascii_of_string s2) as l2.
    induction l1 as [|a l1 IH]; intros [|b l2]; try done.
    intros [= Hab Hl]. f_equal; [|by apply IH].
    by rewrite <- (ascii_N_embedding a), <- (ascii_N_embedding b), Hab. }
  by rewrite <- (string_of_list_ascii_of_string s1), <- (string_of_list_ascii_of_string s2), Hl.
Qed.

Lemma py_app s1 s2 : py (s1 +:+ s2) = py s1 ++ py s2.
Proof. unfold py. induction s1 as [|a s1 IH]; simpl; [done|]. by f_equal. Qed.

Lemma utf8_char_cons c l : utf8_char c = Ok l → ∃ b l', l = b :: l'.
Proof. unfold utf8_char. intros H. repeat case_decide; naive_solver. Qed.

#[local] Ltac Zify.zify_post_hook ::= Z.to_euclidean_division_equations.

Lemma utf8_char_prefix c1 c2 b1 b2 r1 r2 :
  utf8_char c1 = Ok b1 → utf8_char c2 = Ok b2 → b1 ++ r1 = b2 ++ r2 → c1 = c2 ∧ r1 = r2.
Proof.
  unfold utf8_char. intros H1 H2 Heq.
  repeat case_decide; simplify_eq/=; split; (congruence || lia).
Qed.

(** UTF-8 encoding is injective. *)
Lemma utf8_inj s1 s2 b : utf8 s1 = Ok b → utf8 s2 = Ok b → s1 = s2.
Proof.
  revert s2 b. induction s1 as [|c1 s1 IH]; intros [|c2 s2] b; cbn [utf8]; intros H1 H2; [done|..].
  - injection H1 as <-. apply res_bind_ok in H2 as (x & Hx & H2).
    apply res_bind_ok in H2 as (y & _ & H2).
    apply utf8_char_cons in Hx as (? & ? & ->). discriminate.
  - injection H2 as <-. apply res_bind_ok in H1 as (x & Hx & H1).
    apply res_bind_ok in H1 as (y & _ & H1).
    apply utf8_char_cons in Hx as (? & ? & ->). discriminate.
  - apply res_bind_ok in H1 as (x1 & Hx1 & H1), H2 as (x2 & Hx2 & H2).
    apply res_bind_ok in H1 as (y1 & Hy1 & H1), H2 as (y2 & Hy2 & H2).
    injection H1 as <-. injection H2 as H2.
    destruct (utf8_char_prefix _ _ _ _ _ _ Hx2 Hx1 H2) as [-> <-].
    f_equal. by eapply IH.
Qed.

Lemma hex_digit_inj a b : (a < 16)%N → (b < 16)%N → hex_digit a = hex_digit b → a = b.
Proof. unfold hex_digit. intros. repeat case_decide; lia. Qed.

Lemma json_char_prefix c1 c2 r1 r2 :
  json_char c1 ++ r1 = json_char c2 ++ r2 → c1 = c2 ∧ r1 = r2.
Proof.
  unfold json_char. intros H.
  repeat case_decide; simplify_eq/=; try done.
  match goal with
  | H1 : hex_digit (_ / 16) = _, H2 : hex_digit (_ mod 16) = _ |- _ =>
      apply hex_digit_inj in H1, H2; [|lia..]
  end.
  split; [lia|done].
Qed.

(** No escape starts with a quotation mark, so the closing one is found. *)
Lemma json_char_not_quote c r l : json_char c ++ r ≠ 34%N :: l.
Proof. unfold json_char. intros H. repeat case_decide; simplify_eq/=. Qed.

Lemma json_string_prefix s1 s2 r1 r2 :
  json_string s1 ++ r1 = json_string s2 ++ r2 → s1 = s2 ∧ r1 = r2.
Proof.
  unfold json_string. rewrite <- !(assoc_L (++)). cbn [app].
  intros [= H]. revert s2 H. induction s1 as [|c1 s1 IH]; intros [|c2 s2]; cbn [fmap list_fmap concat app].
  - by intros [= ->].
  - rewrite <- (assoc_L (++)). intros H. symmetry in H. by apply json_char_not_quote in H.
  - rewrite <- (assoc_L (++)). intros H. by apply json_char_not_quote in H.
  - rewrite <- !(assoc_L (++)). intros [-> H]%json_char_prefix.
    by destruct (IH _ H) as [-> ->].
Qed.

(** Numbers end where a character that is no part of a number starts. *)
Definition is_num_char (c : N) : bool := bool_decide (c = 45 ∨ (48 ≤ c ∧ c ≤ 57))%N.
Definition num_end (r : pystr) : Prop :=
  match r with [] => True | c :: _ => is_num_char c = false end.

Lemma span_unique (P : N → bool) x1 x2 r1 r2 :
  Forall (λ c, P c = true) x1 → Forall (λ c, P c = true) x2 →
  match r1 with [] => True | c :: _ => P c = false end →
  match r2 with [] => True | c :: _ => P c = false end →
  x1 ++ r1 = x2 ++ r2 → x1 = x2 ∧ r1 = r2.
Proof.
  intros H1. revert x2. induction H1 as [|a x1 Ha H1 IH]; intros x2 H2 Hr1 Hr2 Heq.
  - destruct H2 as [|b x2 Hb H2]; [done|]. simpl in Heq. subst. congruence.
  - destruct H2 as [|b x2 Hb H2]; simpl in Heq.
    + subst. congruence.
    + injection Heq as -> Heq. by destruct (IH x2 H2 Hr1 Hr2 Heq) as [-> ->].
Qed.

Lemma pretty_N_char_num x : is_num_char (N_of_ascii (pretty_N_char x)) = true.
Proof. unfold pretty_N_char. by repeat case_match. Qed.

Lemma pretty_N_go_num x s :
  Forall (λ c, is_num_char c = true) (py s) →
  Forall (λ c, is_num_char c = true) (py (pretty_N_go x s)).
Proof.
  revert s. induction (N.lt_wf_0 x) as [x _ IH]; intros s Hs.
  assert (x = 0 ∨ 0 < x)%N as [->|Hx] by lia; [by rewrite pretty_N_go_0|].
  rewrite pretty_N_go_step by done. apply IH; [by apply N.div_lt|].
  constructor; [apply pretty_N_char_num|done].
Qed.

Lemma pretty_Z_num (z : Z) : Forall (λ c, is_num_char c = true) (py (pretty z)).
Proof.
  assert (∀ n : N, Forall (λ c, is_num_char c = true) (py (pretty n))) as Hn.
  { intros n. unfold pretty, pretty_N. case_decide; [by repeat constructor|].
    apply pretty_N_go_num. constructor. }
  destruct z as [|p|p]; [by repeat constructor|apply (Hn (Npos p))|].
  unfold pretty, pretty_Z. rewrite py_app. constructor; [done|]. apply (Hn (Npos p)).
Qed.

Lemma pretty_N_ne_nil (n : N) : py (pretty n) ≠ [].
Proof.
  assert (∀ x s, s ≠ ""%string → pretty_N_go x s ≠ ""%string) as Hne.
  { intros x. induction (N.lt_wf_0 x) as [x _ IH]; intros s Hs.
    assert (x = 0 ∨ 0 < x)%N as [->|Hx] by lia; [by rewrite pretty_N_go_0|].
    rewrite pretty_N_go_step by done. apply IH; [by apply N.div_lt|done]. }
  intros E. apply (py_inj _ "") in E. revert E. unfold pretty, pretty_N.
  case_decide; [done|]. rewrite pretty_N_go_step by lia. by apply Hne.
Qed.

Lemma pretty_Z_head (z : Z) : ∃ c l, py (pretty z) = c :: l ∧ is_num_char c = true.
Proof.
  pose proof (pretty_Z_num z) as H. destruct (py (pretty z)) as [|c l] eqn:E.
  - exfalso. destruct z as [|p|p]; [done|by apply (pretty_N_ne_nil (Npos p))|done].
  - inversion H; subst. eauto.
Qed.

(** A document starts with a character no other place of an array starts
    with: never a bracket that closes, never a comma. *)
Definition value_head (c : N) : Prop := c ≠ 93%N ∧ c ≠ 44%N.

Lemma dumps_head j : ∃ c l, dumps j = c :: l ∧ value_head c.
Proof.
  unfold value_head. destruct j as [|[]|z|s|l]; cbn; eauto.
  destruct (pretty_Z_head z) as (c & l & -> & Hc). exists c, l. split; [done|].
  apply bool_decide_eq_true in Hc. lia.
Qed.

Definition dumps_prefix_at (j1 : json) : Prop := ∀ j2 r1 r2,
  num_end r1 → num_end r2 → dumps j1 ++ r1 = dumps j2 ++ r2 → j1 = j2 ∧ r1 = r2.

(** The elements of two arrays, up to the closing bracket. *)
Lemma comma_join_prefix l1 l2 r1 r2 :
  Forall dumps_prefix_at l1 →
  comma_join (map dumps l1) ++ 93%N :: r1 = comma_join (map dumps l2) ++ 93%N :: r2 →
  l1 = l2 ∧ r1 = r2.
Proof.
  intros H1. revert l2. induction H1 as [|j1 l1 Hj H1 IH]; intros l2 Heq.
  - destruct l2 as [|j2 l2]; [by injection Heq as ->|].
    destruct (dumps_head j2) as (c & l & E & [Hc _]).
    destruct l2; simpl in Heq; rewrite E in Heq; simpl in Heq; congruence.
  - destruct l2 as [|j2 l2].
    { destruct (dumps_head j1) as (c & l & E & [Hc _]).
      destruct l1; simpl in Heq; rewrite E in Heq; simpl in Heq; congruence. }
    assert (∀ j l r, ∃ t, comma_join (map dumps (j :: l)) ++ 93%N :: r = dumps j ++ t ∧
      match l with
      | [] => t = 93%N :: r
      | _ => t = 44%N :: comma_join (map dumps l) ++ 93%N :: r
      end) as Hsplit.
    { intros j [|j' l] r; simpl; eexists; (split; [|reflexivity]); [done|].
      by rewrite <- (assoc_L (++)). }
    destruct (Hsplit j1 l1 r1) as (t1 & E1 & T1), (Hsplit j2 l2 r2) as (t2 & E2 & T2).
    rewrite E1, E2 in Heq.
    apply Hj in Heq as [-> Ht].
    2,3: destruct l1, l2; subst; done.
    destruct l1 as [|a1 l1], l2 as [|a2 l2]; subst; simplify_eq/=; [done|].
    match goal with H : _ ++ 93%N :: r1 = _ |- _ => apply (IH (a2 :: l2)) in H as [[= -> ->] ->] end.
    done.
Qed.

Lemma num_not_head z j r1 r2 :
  (∀ z', j ≠ JInt z') → dumps (JInt z) ++ r1 ≠ dumps j ++ r2.
Proof.
  intros Hj Heq. simpl in Heq. destruct (pretty_Z_head z) as (c & l & E & Hc). rewrite E in Heq.
  destruct j as [|[]|z'|s|l']; cbn in Heq; simplify_eq/=; by eapply Hj.
Qed.

Lemma dumps_prefix j1 : dumps_prefix_at j1.
Proof.
  induction j1 as [|b|z|s|l IH] using json_ind'; intros j2 r1 r2 H1 H2 Heq.
  - destruct j2 as [|[]|z'|s'|l']; cbn in Heq; simplify_eq/=; [done|].
    symmetry in Heq. by apply (num_not_head z' JNull r2 r1) in Heq.
  - destruct j2 as [|b'|z'|s'|l'].
    + destruct b; cbn in Heq; discriminate.
    + destruct b, b'; cbn in Heq; simplify_eq; done.
    + symmetry in Heq. by apply num_not_head in Heq.
    + destruct b; cbn in Heq; discriminate.
    + destruct b; cbn in Heq; discriminate.
  - destruct j2 as [|b'|z'|s'|l']; try by apply num_not_head in Heq.
    simpl in Heq.
    destruct (span_unique is_num_char _ _ _ _ (pretty_Z_num z) (pretty_Z_num z') H1 H2 Heq) as [E ->].
    apply py_inj, (inj pretty) in E. by subst.
  - destruct j2 as [|[]|z'|s'|l']; [done|done|done| |..].
    + symmetry in Heq. by apply num_not_head in Heq.
    + change (json_string s ++ r1 = json_string s' ++ r2) in Heq.
      by apply json_string_prefix in Heq as [-> ->].
    + done.
  - destruct j2 as [|[]|z'|s'|l']; [done|done|done| |done|].
    + symmetry in Heq. by apply num_not_head in Heq.
    + cbn [dumps app] in Heq. rewrite <- !(assoc_L (++)) in Heq. cbn [app] in Heq.
      injection Heq as Heq. by apply comma_join_prefix in Heq as [-> ->].
Qed.

(** Distinct identities have distinct JSON texts. *)
Lemma dumps_inj j1 j2 : dumps j1 = dumps j2 → j1 = j2.
Proof.
  intros H. apply (dumps_prefix j1 j2 [] []); [done|done|]. by rewrite !app_nil_r.
Qed.

#[export] Instance dumps_Inj : Inj (=) (=) dumps := dumps_inj.

(** A derived identity only fails on text that is not valid Unicode. *)
Lemma sha256_of_json_ok prefix j id :
  sha256_of_json prefix j = Ok id →
  ∃ b, utf8 (dumps j) = Ok b ∧ id = prefix ++ sha256_hex b.
Proof. unfold sha256_of_json. intros H. inv_ok. subst. eauto. Qed.

(** * Order *)

(** [str] comparison, by code points. *)
Fixpoint str_le (a b : pystr) : bool :=
  match a, b with
  | [], _ => true
  | _ :: _, [] => false
  | x :: a', y :: b' => bool_decide (x < y)%N || (bool_decide (x = y) && str_le a' b')
  end.

Lemma str_le_total a b : str_le a b = true ∨ str_le b a = true.
Proof.
  revert b. induction a as [|x a IH]; intros [|y b]; cbn [str_le]; auto.
  repeat case_bool_decide; subst; cbn; auto; try lia.
Qed.

Lemma str_le_antisym a b : str_le a b = true → str_le b a = true → a = b.
Proof.
  revert b. induction a as [|x a IH]; intros [|y b]; cbn [str_le]; try done.
  repeat case_bool_decide; subst; cbn; try done; try lia. intros. f_equal. by apply IH.
Qed.

Lemma str_le_trans a b c : str_le a b = true → str_le b c = true → str_le a c = true.
Proof.
  revert b c. induction a as [|x a IH]; intros [|y b] [|z c]; cbn [str_le]; try done.
  repeat case_bool_decide; subst; cbn; try done; try lia. apply IH.
Qed.
