(* ===== verification/PyTime.v ===== *)
(** Python [datetime] and [float] values as the gateway uses them.

    A [datetime] counts microseconds from 0001-01-01T00:00:00: a UTC instant
    when it carries a timezone ([Aware]), wall-clock time otherwise ([Naive]).
    Every tzinfo of the standard library returns an offset, so
    [tzinfo is not None] and [utcoffset() is not None] agree.  Ordering a naive
    and an aware value raises [TypeError]; comparing them for equality does
    not.  A finite [float] is the rational number it denotes. *)

From Stdlib Require Import QArith Qcanon.
From stdpp Require Import numbers.
From S2P Require Export Prelude.
#[local] Open Scope Z_scope.
#[local] Open Scope stdpp_scope.

Inductive datetime : Type :=
| Naive (us : Z)
| Aware (us : Z).

#[export] Instance datetime_eq_dec : EqDecision datetime.
Proof. solve_decision. Defined.

(** [value.tzinfo is None]. *)
Definition tz_is_none (d : datetime) : Prop :=
  match d with Naive _ => True | Aware _ => False end.
#[export] Instance tz_is_none_dec d : Decision (tz_is_none d).
Proof. destruct d; solve_decision. Defined.

Definition dt_us (d : datetime) : Z := match d with Naive u | Aware u => u end.

(** [a < b]. *)
Definition dt_ltb (a b : datetime) : res bool :=
  match a, b with
  | Naive x, Naive y | Aware x, Aware y => Ok (bool_decide (x < y))
  | _, _ => Err TypeError
  end.

(** [a <= b]. *)
Definition dt_leb (a b : datetime) : res bool :=
  match a, b with
  | Naive x, Naive y | Aware x, Aware y => Ok (bool_decide (x ≤ y))
  | _, _ => Err TypeError
  end.

(** [max(a, b)]: the first of two equal values. *)
Definition dt_max (a b : datetime) : res datetime :=
  gt ← dt_ltb a b ; Ok (if (gt : bool) then b else a).

(** [if a < b: raise e]. *)
Definition raise_if_lt (a b : datetime) (e : exn) : res unit :=
  lt ← dt_ltb a b ; raise_if (lt = true) e.

(** 9999-12-31T23:59:59.999999, the largest [datetime]. *)
Definition max_datetime_us : Z := 3652059 * 86400 * 10 ^ 6 - 1.
(** The largest [timedelta], 999999999 days and a day less a microsecond. *)
Definition max_timedelta_us : Z := 1000000000 * 86400 * 10 ^ 6 - 1.
Definition min_timedelta_us : Z := -999999999 * 86400 * 10 ^ 6.

(** [d + timedelta]. *)
Definition dt_add (d : datetime) (delta : Z) : res datetime :=
  let u := dt_us d + delta in
  raise_if (¬ (0 ≤ u ≤ max_datetime_us)) OverflowError ;;
  Ok (match d with Naive _ => Naive u | Aware _ => Aware u end).

Inductive pyfloat : Type :=
| Finite (q : Qc)
| PosInf
| NegInf
| NaN.

#[export] Instance pyfloat_eq_dec : EqDecision pyfloat.
Proof. solve_decision. Defined.

(** [math.isfinite]. *)
Definition isfinite (f : pyfloat) : Prop :=
  match f with Finite _ => True | _ => False end.
#[export] Instance isfinite_dec f : Decision (isfinite f).
Proof. destruct f; solve_decision. Defined.

(** [f < 0] and [f <= 0]; both false on a NaN. *)
Definition float_neg (f : pyfloat) : Prop :=
  match f with Finite q => (q < 0)%Qc | NegInf => True | _ => False end.
#[export] Instance float_neg_dec f : Decision (float_neg f).
Proof. destruct f; simpl; apply _. Defined.
Definition float_nonpos (f : pyfloat) : Prop :=
  match f with Finite q => (q ≤ 0)%Qc | NegInf => True | _ => False end.
#[export] Instance float_nonpos_dec f : Decision (float_nonpos f).
Proof. destruct f; simpl; apply _. Defined.

(** [a < b], false on a NaN, and [min(a, b)], which is [a] unless [b < a]. *)
Definition float_lt (a b : pyfloat) : Prop :=
  match a, b with
  | Finite p, Finite q => (p < q)%Qc
  | NegInf, Finite _ | NegInf, PosInf | Finite _, PosInf => True
  | _, _ => False
  end.
#[export] Instance float_lt_dec a b : Decision (float_lt a b).
Proof. destruct a, b; simpl; apply _. Defined.
Definition float_min (a b : pyfloat) : pyfloat := if decide (float_lt b a) then b else a.

(** [f * n] for a finite [f]; a product too large for a float is one that any
    finite bound replaces, so that it stays the rational. *)
Definition float_scale (f : pyfloat) (n : Z) : pyfloat :=
  match f with Finite q => Finite (q * Q2Qc (inject_Z n))%Qc | _ => f end.

(** An integral number of seconds. *)
Definition seconds (n : Z) : pyfloat := Finite (Q2Qc (inject_Z n)).

(** Round to the nearest integer, ties to even. *)
Definition round_half_even (q : Qc) : Z :=
  let n := Qnum (this q) in
  let d := Zpos (Qden (this q)) in
  let f := n / d in
  let r := n mod d in
  if decide (2 * r < d) then f
  else if decide (d < 2 * r) then f + 1
  else if decide (Z.even f) then f else f + 1.

(** [timedelta(seconds=f)] in microseconds. *)
Definition timedelta_us (f : pyfloat) : res Z :=
  match f with
  | Finite q =>
      let u := round_half_even (q * Q2Qc (inject_Z (10 ^ 6)))%Qc in
      raise_if (¬ (min_timedelta_us ≤ u ≤ max_timedelta_us)) OverflowError ;; Ok u
  | NaN => Err ValueError
  | _ => Err OverflowError
  end.

(** * Lemmas *)

Lemma dt_add_ok d delta d' :
  dt_add d delta = Ok d' → dt_us d' = dt_us d + delta ∧ (tz_is_none d' ↔ tz_is_none d).
Proof. unfold dt_add. intros H. inv_ok. destruct d; subst; done. Qed.

Lemma raise_if_lt_ok a b e u :
  raise_if_lt a b e = Ok u → ¬ (dt_us a < dt_us b) ∧ (tz_is_none a ↔ tz_is_none b).
Proof.
  unfold raise_if_lt. intros H. inv_ok. subst.
  destruct a, b; simplify_eq/=; split; try done;
    intros ?; eauto using bool_decide_eq_true_2.
Qed.

Lemma raise_if_lt_aware a b e :
  ¬ tz_is_none a → ¬ tz_is_none b → dt_us b ≤ dt_us a → raise_if_lt a b e = Ok ().
Proof.
  unfold raise_if_lt. destruct a as [x|x], b as [y|y]; simpl; try tauto. intros _ _ H.
  apply raise_if_ok. rewrite bool_decide_eq_true. lia.
Qed.

Lemma dt_max_aware a b :
  ¬ tz_is_none a → ¬ tz_is_none b →
  ∃ m, dt_max a b = Ok m ∧ ¬ tz_is_none m ∧ dt_us m = dt_us a `max` dt_us b ∧ (m = a ∨ m = b).
Proof.
  destruct a as [x|x], b as [y|y]; simpl; try tauto. intros _ _.
  unfold dt_max. simpl. unfold mbind, res_bind. eexists. split; [done|].
  case_bool_decide; simpl; (split; [tauto|]); (split; [lia|]); eauto.
Qed.
