(* ===== verification/PyDict.v ===== *)
(** Python [dict]: an association list in insertion order.  Assigning to a key
    that is present keeps its position, assigning to a new one appends, [pop]
    removes; the values are enumerated in that order, which is what decides
    the first match of a search through [dict.values()].  [well_formed]
    dictionaries have distinct keys; every operation keeps them so. *)

From S2P Require Export Prelude.
From stdpp Require Import list sets.

Abbreviation dict K V := (list (K * V)).

Section dict.
Context {K V : Type} `{EqDecision K}.
Implicit Types (d : dict K V) (k : K) (v : V).

(** [d.get(k)]. *)
Fixpoint d_get d k : option V :=
  match d with
  | [] => None
  | (k', v) :: d' => if decide (k' = k) then Some v else d_get d' k
  end.

(** [d[k] = v]. *)
Fixpoint d_set d k v : dict K V :=
  match d with
  | [] => [(k, v)]
  | (k', v') :: d' => if decide (k' = k) then (k', v) :: d' else (k', v') :: d_set d' k v
  end.

(** [d.pop(k, None)], the dictionary after it. *)
Definition d_pop d k : dict K V := filter (λ kv, kv.1 ≠ k) d.

Definition d_keys d : list K := d.*1.
Definition d_values d : list V := d.*2.
Definition well_formed d : Prop := NoDup (d_keys d).

(** [{key(x): value(x) for x in l}]. *)
Definition d_of_list {A} (key : A → K) (value : A → V) (l : list A) : dict K V :=
  foldl (λ d x, d_set d (key x) (value x)) [] l.

(** Pop every key of [ks], as the bulk deletions do. *)
Definition d_pop_all d (ks : list K) : dict K V := foldl d_pop d ks.

Lemma d_get_set d k k' v :
  d_get (d_set d k v) k' = if decide (k = k') then Some v else d_get d k'.
Proof. induction d as [|[a x] d IH]; simpl; repeat (case_decide; simpl; simplify_eq); done. Qed.

Lemma d_get_set_eq d k v : d_get (d_set d k v) k = Some v.
Proof. rewrite d_get_set. by case_decide. Qed.

Lemma d_get_set_ne d k k' v : k ≠ k' → d_get (d_set d k v) k' = d_get d k'.
Proof. intros. rewrite d_get_set. by case_decide. Qed.

Lemma d_pop_cons a x d k :
  d_pop ((a, x) :: d) k = if decide (a = k) then d_pop d k else (a, x) :: d_pop d k.
Proof. unfold d_pop. rewrite filter_cons. cbn [fst]. repeat case_decide; done. Qed.

Lemma d_get_pop d k k' : d_get (d_pop d k) k' = if decide (k = k') then None else d_get d k'.
Proof.
  induction d as [|[a x] d IH]; [simpl; by case_decide|]. rewrite d_pop_cons.
  destruct (decide (a = k)) as [->|Hne]; cbn [d_get]; rewrite IH; repeat case_decide; congruence.
Qed.

Lemma d_keys_set d k v :
  d_keys (d_set d k v) = if decide (k ∈ d_keys d) then d_keys d else d_keys d ++ [k].
Proof.
  unfold d_keys. induction d as [|[a x] d IH].
  - done.
  - cbn [d_set]. destruct (decide (a = k)) as [->|Ha]; rewrite !fmap_cons; cbn [fst].
    + by rewrite decide_True by set_solver.
    + rewrite IH. repeat case_decide; try done; set_solver.
Qed.

Lemma d_keys_pop d k : d_keys (d_pop d k) = filter (λ a, a ≠ k) (d_keys d).
Proof.
  unfold d_keys. induction d as [|[a x] d IH]; [done|].
  rewrite d_pop_cons, fmap_cons, filter_cons. cbn [fst].
  repeat case_decide; try done. by rewrite fmap_cons, IH.
Qed.

Lemma well_formed_nil : well_formed [].
Proof. constructor. Qed.

Lemma well_formed_set d k v : well_formed d → well_formed (d_set d k v).
Proof.
  unfold well_formed. intros H. rewrite d_keys_set. case_decide; [done|].
  apply NoDup_app. split; [done|]. split; [|apply NoDup_singleton]. set_solver.
Qed.

Lemma well_formed_pop d k : well_formed d → well_formed (d_pop d k).
Proof. unfold well_formed. rewrite d_keys_pop. intros. by apply NoDup_filter. Qed.

Lemma d_get_elem d k v : d_get d k = Some v → (k, v) ∈ d.
Proof.
  induction d as [|[a x] d IH]; simpl; [done|]. case_decide; intros; simplify_eq; set_solver.
Qed.

Lemma d_elem_get d k v : well_formed d → (k, v) ∈ d → d_get d k = Some v.
Proof.
  unfold well_formed, d_keys. induction d as [|[a x] d IH]; simpl; [set_solver|].
  rewrite NoDup_cons. intros [Hn Hd] [[= -> ->]|Hin]%elem_of_cons; [by case_decide|].
  case_decide; [|by apply IH]. subst. exfalso. apply Hn. apply list_elem_of_fmap. by exists (k, v).
Qed.

Lemma d_get_values d k v : d_get d k = Some v → v ∈ d_values d.
Proof. intros H%d_get_elem. apply list_elem_of_fmap. by exists (k, v). Qed.

Lemma d_get_keys d k : is_Some (d_get d k) ↔ k ∈ d_keys d.
Proof.
  unfold d_keys. induction d as [|[a x] d IH]; simpl.
  - split; [by intros [? [=]]|set_solver].
  - rewrite elem_of_cons, <- IH. case_decide; subst; split; naive_solver.
Qed.

Lemma d_get_None d k : d_get d k = None ↔ k ∉ d_keys d.
Proof. rewrite eq_None_not_Some. by rewrite d_get_keys. Qed.

(** A value of an update is the new one or an old one. *)
Lemma d_values_set d k v x : x ∈ d_values (d_set d k v) → x = v ∨ x ∈ d_values d.
Proof.
  unfold d_values. induction d as [|[a y] d IH]; simpl; [set_solver|].
  case_decide; simpl; rewrite !elem_of_cons; naive_solver.
Qed.

Lemma d_set_elem d k v kv : kv ∈ d_set d k v → kv = (k, v) ∨ kv ∈ d.
Proof.
  induction d as [|[a y] d IH]; simpl; [set_solver|].
  case_decide; simpl; rewrite !elem_of_cons; subst; naive_solver.
Qed.

Lemma d_pop_elem d k kv : kv ∈ d_pop d k → kv ∈ d ∧ kv.1 ≠ k.
Proof. unfold d_pop. rewrite list_elem_of_filter. tauto. Qed.

Lemma length_d_set d k v :
  length (d_set d k v) = if decide (k ∈ d_keys d) then length d else S (length d).
Proof.
  assert (∀ d, length d = length (d_keys d)) as Hl by (intros; unfold d_keys; by rewrite length_fmap).
  rewrite !Hl, d_keys_set. case_decide; [done|]. rewrite length_app. simpl. lia.
Qed.

Lemma length_d_set_present d k v v' : d_get d k = Some v' → length (d_set d k v) = length d.
Proof.
  intros H. rewrite length_d_set, decide_True; [done|]. apply d_get_keys. by exists v'.
Qed.

Lemma length_d_set_absent d k v : d_get d k = None → length (d_set d k v) = S (length d).
Proof. intros H. rewrite length_d_set, decide_False; [done|]. by apply d_get_None. Qed.

Lemma length_d_pop d k : (length (d_pop d k) ≤ length d)%nat.
Proof. unfold d_pop. apply length_filter. Qed.

(** Writing back what is there changes nothing. *)
Lemma d_set_id d k v : d_get d k = Some v → d_set d k v = d.
Proof.
  induction d as [|[a y] d IH]; simpl; [done|]. case_decide; intros; simplify_eq; [done|].
  by rewrite IH.
Qed.

Lemma d_set_set d k v v' : d_set (d_set d k v) k v' = d_set d k v'.
Proof.
  induction d as [|[a y] d IH]; simpl; [by rewrite decide_True|].
  case_decide; simpl; [by rewrite decide_True|]. rewrite decide_False by done. by rewrite IH.
Qed.

(** Assigning to a new key appends. *)
Lemma d_set_absent d k v : k ∉ d_keys d → d_set d k v = d ++ [(k, v)].
Proof.
  unfold d_keys. induction d as [|[a y] d IH]; [done|]. rewrite fmap_cons. cbn [fst d_set app].
  intros Hk. rewrite decide_False by set_solver. rewrite IH by set_solver. done.
Qed.

(** With distinct keys a dictionary comprehension lists its entries in order. *)
Lemma d_of_list_distinct {A} (key : A → K) (value : A → V) (l : list A) :
  NoDup (key <$> l) → d_of_list key value l = (λ x, (key x, value x)) <$> l.
Proof.
  intros Hl. unfold d_of_list.
  enough (∀ acc, NoDup (d_keys acc ++ (key <$> l)) →
    foldl (λ d x, d_set d (key x) (value x)) acc l = acc ++ ((λ x, (key x, value x)) <$> l)) as H
    by by apply (H []).
  clear Hl. induction l as [|x l IH]; intros acc Hnd; cbn [foldl fmap list_fmap].
  - by rewrite (right_id_L [] (++)).
  - apply NoDup_app in Hnd as (H1 & H2 & H3). rewrite fmap_cons, NoDup_cons in H3.
    rewrite d_set_absent by (intros Hin; apply (H2 _ Hin); set_solver).
    rewrite IH; [by rewrite <- (assoc_L (++))|].
    unfold d_keys in *. rewrite fmap_app. apply NoDup_app. repeat split; [|set_solver|by apply H3].
    apply NoDup_app. repeat split; [done|set_solver|apply NoDup_singleton].
Qed.

Lemma d_get_pop_all d ks k :
  d_get (d_pop_all d ks) k = if decide (k ∈ ks) then None else d_get d k.
Proof.
  unfold d_pop_all. revert d. induction ks as [|a ks IH]; intros d; cbn [foldl].
  - done.
  - rewrite IH, d_get_pop. repeat case_decide; try done; set_solver.
Qed.

Lemma well_formed_pop_all d ks : well_formed d → well_formed (d_pop_all d ks).
Proof.
  unfold d_pop_all. revert d. induction ks as [|a ks IH]; intros d Hd; simpl; [done|].
  by apply IH, well_formed_pop.
Qed.

Lemma d_pop_all_elem d ks kv : kv ∈ d_pop_all d ks → kv ∈ d.
Proof.
  unfold d_pop_all. revert d. induction ks as [|a ks IH]; intros d; simpl; [done|].
  intros H%IH. by apply d_pop_elem in H as [? _].
Qed.

(** [for x in l: d[key(x)] = x]. *)
Definition d_update_all (key : V → K) (d : dict K V) (l : list V) : dict K V :=
  foldl (λ d x, d_set d (key x) x) d l.

Lemma d_update_all_other key d l k :
  k ∉ key <$> l → d_get (d_update_all key d l) k = d_get d k.
Proof.
  unfold d_update_all. revert d. induction l as [|x l IH]; intros d; cbn [foldl]; [done|].
  rewrite fmap_cons, not_elem_of_cons. intros [Hk Hl]. by rewrite IH, d_get_set_ne.
Qed.

Lemma d_update_all_get key d l x :
  NoDup (key <$> l) → x ∈ l → d_get (d_update_all key d l) (key x) = Some x.
Proof.
  unfold d_update_all. revert d. induction l as [|y l IH]; intros d; cbn [foldl]; [set_solver|].
  rewrite fmap_cons, NoDup_cons. intros [Hy Hl] [->|Hx]%elem_of_cons; [|by apply IH].
  etrans; [by apply d_update_all_other|]. apply d_get_set_eq.
Qed.

Lemma well_formed_update_all key d l : well_formed d → well_formed (d_update_all key d l).
Proof.
  unfold d_update_all. revert d. induction l as [|x l IH]; intros d Hd; cbn [foldl]; [done|].
  by apply IH, well_formed_set.
Qed.

Lemma d_values_elem d v : v ∈ d_values d ↔ ∃ k, (k, v) ∈ d.
Proof.
  unfold d_values. rewrite list_elem_of_fmap. split.
  - intros ([k v'] & -> & ?). eauto.
  - intros [k ?]. by exists (k, v).
Qed.

Lemma d_values_get d v : well_formed d → v ∈ d_values d ↔ ∃ k, d_get d k = Some v.
Proof.
  intros Hd. rewrite d_values_elem. split; intros [k H]; exists k.
  - by apply d_elem_get.
  - by apply d_get_elem.
Qed.
End dict.

Arguments well_formed {K V} d.
#[export] Hint Resolve well_formed_nil well_formed_set well_formed_pop well_formed_pop_all well_formed_update_all : gateway.

(** A property of every entry, and its preservation. *)
Section dict_all.
Context {K V : Type} `{EqDecision K} (P : K → V → Prop).

Definition d_all (d : dict K V) : Prop := Forall (λ kv, P kv.1 kv.2) d.

Lemma d_all_nil : d_all [].
Proof. constructor. Qed.

Lemma d_all_get d k v : d_all d → d_get d k = Some v → P k v.
Proof. intros Hall H%d_get_elem. unfold d_all in Hall. rewrite Forall_forall in Hall. by apply (Hall (k, v)). Qed.

Lemma d_all_set d k v : d_all d → P k v → d_all (d_set d k v).
Proof.
  unfold d_all. rewrite !Forall_forall. intros Hall Hkv x Hx.
  apply d_set_elem in Hx as [->|Hx]; [done|by apply Hall].
Qed.

Lemma d_all_pop d k : d_all d → d_all (d_pop d k).
Proof. unfold d_all. rewrite !Forall_forall. intros Hall x [Hx _]%d_pop_elem. by apply Hall. Qed.

Lemma d_all_pop_all d ks : d_all d → d_all (d_pop_all d ks).
Proof. unfold d_all. rewrite !Forall_forall. intros Hall x Hx%d_pop_all_elem. by apply Hall. Qed.
End dict_all.

(** With distinct keys [d_all] is about what the lookups return. *)
Lemma d_all_lookup {K V} `{EqDecision K} (P : K → V → Prop) (d : dict K V) :
  well_formed d → d_all P d ↔ ∀ k v, d_get d k = Some v → P k v.
Proof.
  intros Hd. split; [intros H k v Hk; by apply (d_all_get P d)|].
  intros H. unfold d_all. rewrite Forall_forall. intros [k v] Hin. by apply H, d_elem_get.
Qed.

#[export] Hint Resolve d_all_nil d_all_set d_all_pop d_all_pop_all : gateway.
