(* ===== verification/PyJson.v ===== *)
(** The values of a free-form mapping, as [json] reads and prints them: with
    objects, floats, and values JSON has no text for. *)

From S2P Require Export PyText PyTime PyDict.
From Stdlib Require Import Qcanon.
From stdpp Require Import pretty list sorting.
#[local] Open Scope stdpp_scope.

Inductive jvalue : Type :=
| VNull
| VBool (b : bool)
| VInt (z : Z)
| VFloat (f : pyfloat)
| VStr (s : pystr)
| VArr (l : list jvalue)
| VObj (d : list (pystr * jvalue))
(* an object [json] cannot encode *)
| VOther (label : nat).

#[export] Instance jvalue_eq_dec : EqDecision jvalue.
Proof.
  refine (fix go (x y : jvalue) {struct x} : Decision (x = y) :=
    let _ : EqDecision jvalue := go in
    match x, y with
    | VNull, VNull => left _
    | VBool a, VBool b => cast_if (decide (a = b))
    | VInt a, VInt b => cast_if (decide (a = b))
    | VFloat a, VFloat b => cast_if (decide (a = b))
    | VStr a, VStr b => cast_if (decide (a = b))
    | VArr a, VArr b => cast_if (decide (a = b))
    | VObj a, VObj b => cast_if (decide (a = b))
    | VOther a, VOther b => cast_if (decide (a = b))
    | _, _ => right _
    end); abstract congruence.
Defined.

(** A mapping of free metadata. *)
Abbreviation Metadata := (dict pystr jvalue).

Definition key_le {A} (a b : pystr * A) : Prop := str_le a.1 b.1 = true.
#[export] Instance key_le_dec {A} (a b : pystr * A) : Decision (key_le a b).
Proof. unfold key_le. apply _. Defined.

(** With the keys of every object in order, as [sort_keys] prints them and
    [json.loads] reads them back. *)
Fixpoint sorted_keys (v : jvalue) : jvalue :=
  match v with
  | VArr l => VArr (map sorted_keys l)
  | VObj d => VObj (merge_sort key_le (map (λ kv, (kv.1, sorted_keys kv.2)) d))
  | _ => v
  end.

(** Whether [json.dumps] has a text for it. *)
Fixpoint json_compatible (v : jvalue) : bool :=
  match v with
  | VArr l => forallb json_compatible l
  | VObj d => forallb (λ kv, json_compatible kv.2) d
  | VOther _ => false
  | _ => true
  end.

Section dumps.
(** [float.__repr__] of the language. *)
Context (float_repr : Qc → pystr).

Definition float_text (f : pyfloat) : pystr :=
  match f with
  | Finite q => float_repr q
  | PosInf => py "Infinity"
  | NegInf => py "-Infinity"
  | NaN => py "NaN"
  end.

(** The text of a value, with the keys in the order they have. *)
Fixpoint value_text (v : jvalue) : pystr :=
  match v with
  | VNull => py "null"
  | VBool true => py "true"
  | VBool false => py "false"
  | VInt z => py (pretty z)
  | VFloat f => float_text f
  | VStr s => json_string s
  | VArr l => [91%N] ++ comma_join (map value_text l) ++ [93%N]
  | VObj d => [123%N] ++ comma_join (map (λ kv, json_string kv.1 ++ [58%N] ++ value_text kv.2) d) ++ [125%N]
  | VOther _ => []
  end.

(** [json.dumps(v, ensure_ascii=False, separators=(",", ":"), sort_keys=True)]. *)
Definition dumps_sorted (v : jvalue) : res pystr :=
  raise_if (json_compatible v = false) TypeError ;;
  Ok (value_text (sorted_keys v)).
End dumps.
