(* ===== verification/PyIso.v ===== *)
(** [datetime.isoformat] and [datetime.fromisoformat]: the calendar of the language,
    and the texts of times as the SQLite tables hold them.

    A naive time is written without an offset, an aware one at the offset zero that
    [datetime.now(UTC)] has: an aware time of this development is an instant.  Of the
    texts [fromisoformat] reads, those [isoformat] writes are read. *)

From S2P Require Export PyText PyTime.
From stdpp Require Import list.
#[local] Open Scope Z_scope.
#[local] Open Scope stdpp_scope.

(** * The proleptic Gregorian calendar *)

Definition is_leap (y : Z) : bool :=
  bool_decide (y mod 4 = 0) && (negb (bool_decide (y mod 100 = 0)) || bool_decide (y mod 400 = 0)).
Definition days_before_year (y : Z) : Z := let p := y - 1 in p * 365 + p / 4 - p / 100 + p / 400.
Definition month_start (leap : bool) (m : Z) : Z :=
  nth (Z.to_nat m) [0; 0; 31; 59; 90; 120; 151; 181; 212; 243; 273; 304; 334; 365] 0
  + if leap && bool_decide (2 < m) then 1 else 0.
Definition days_in_month (y m : Z) : Z := month_start (is_leap y) (m + 1) - month_start (is_leap y) m.

(** Days since 0001-01-01. *)
Definition day_of_ymd (y m d : Z) : Z := days_before_year y + month_start (is_leap y) m + (d - 1).
Definition valid_ymd (y m d : Z) : bool :=
  bool_decide (1 ≤ y ≤ 9999 ∧ 1 ≤ m ≤ 12 ∧ 1 ≤ d ≤ days_in_month y m).

(** The month a day of the year falls in, counted down. *)
Fixpoint month_of (n : nat) (leap : bool) (day : Z) : Z :=
  match n with
  | O => 1
  | S n' => if decide (month_start leap (Z.of_nat n) ≤ day) then Z.of_nat n else month_of n' leap day
  end.

(** The year, month and day of a day, by cycles of 400, 100, 4 years and one. *)
Definition ymd_of_day (n : Z) : Z * Z * Z :=
  let n400 := n / 146097 in let n := n mod 146097 in
  let n100 := Z.min 3 (n / 36524) in let n := n - n100 * 36524 in
  let n4 := n / 1461 in let n := n mod 1461 in
  let n1 := Z.min 3 (n / 365) in let n := n - n1 * 365 in
  let y := n400 * 400 + n100 * 100 + n4 * 4 + n1 + 1 in
  let m := month_of 12 (is_leap y) n in
  (y, m, n - month_start (is_leap y) m + 1).

(** ** The calendar is consistent *)

Fixpoint all_from (f : Z → bool) (n : nat) (z : Z) : bool :=
  match n with O => true | S n' => f z && all_from f n' (Z.succ z) end.

Lemma all_from_spec f n z x : all_from f n z = true → z ≤ x < z + Z.of_nat n → f x = true.
Proof.
  revert z. induction n as [|n IH]; intros z; cbn [all_from]; [lia|].
  intros [Hz Hn]%andb_prop Hx. destruct (decide (x = z)) as [->|]; [done|]. apply (IH (Z.succ z)); [done|lia].
Qed.

(** The months of a year, day by day. *)
Definition month_ok (leap : bool) (n : Z) : bool :=
  let m := month_of 12 leap n in
  bool_decide (1 ≤ m ≤ 12 ∧ month_start leap m ≤ n < month_start leap (m + 1)).

Lemma month_of_spec leap n :
  0 ≤ n < 365 + Z.b2z leap →
  let m := month_of 12 leap n in 1 ≤ m ≤ 12 ∧ month_start leap m ≤ n < month_start leap (m + 1).
Proof.
  intros Hn m. assert (month_ok leap n = true) as Hok%bool_decide_eq_true; [|done].
  apply (all_from_spec (month_ok leap) (if leap then 366 else 365) 0 n);
    [by destruct leap; vm_compute|destruct leap; cbn in *; lia].
Qed.

(** A year by its cycles. *)
Lemma days_before_cycles k a b c :
  0 ≤ a ≤ 3 → 0 ≤ b ≤ 24 → 0 ≤ c ≤ 3 →
  days_before_year (k * 400 + a * 100 + b * 4 + c + 1) = k * 146097 + a * 36524 + b * 1461 + c * 365.
Proof.
  intros Ha Hb Hc. unfold days_before_year. cbv zeta.
  replace (k * 400 + a * 100 + b * 4 + c + 1 - 1) with (c + (k * 100 + a * 25 + b) * 4) by lia.
  rewrite Z.div_add, (Z.div_small c) by lia.
  replace (c + (k * 100 + a * 25 + b) * 4) with (b * 4 + c + (k * 4 + a) * 100) by lia.
  rewrite Z.div_add, (Z.div_small (b * 4 + c)) by lia.
  replace (b * 4 + c + (k * 4 + a) * 100) with (a * 100 + b * 4 + c + k * 400) by lia.
  rewrite Z.div_add, (Z.div_small (a * 100 + b * 4 + c)) by lia. lia.
Qed.

Lemma mod_last m x : 0 ≤ x < m → (x + 1) mod m = 0 ↔ x = m - 1.
Proof.
  intros Hx. split; [|intros ->; replace (m - 1 + 1) with m by lia; apply Z.mod_same; lia].
  intros Hm. destruct (decide (x = m - 1)); [done|]. rewrite Z.mod_small in Hm; lia.
Qed.

Lemma is_leap_cycles k a b c :
  0 ≤ a ≤ 3 → 0 ≤ b ≤ 24 → 0 ≤ c ≤ 3 →
  is_leap (k * 400 + a * 100 + b * 4 + c + 1) = bool_decide (c = 3 ∧ (b < 24 ∨ a = 3)).
Proof.
  intros Ha Hb Hc. unfold is_leap.
  replace (k * 400 + a * 100 + b * 4 + c + 1) with (c + 1 + (k * 100 + a * 25 + b) * 4) by lia.
  rewrite Z.mod_add by done.
  replace (c + 1 + (k * 100 + a * 25 + b) * 4) with (b * 4 + c + 1 + (k * 4 + a) * 100) by lia.
  rewrite Z.mod_add by done.
  replace (b * 4 + c + 1 + (k * 4 + a) * 100) with (a * 100 + b * 4 + c + 1 + k * 400) by lia.
  rewrite Z.mod_add by done.
  assert ((c + 1) mod 4 = 0 ↔ c = 3) as H4 by (apply mod_last; lia).
  assert ((b * 4 + c + 1) mod 100 = 0 ↔ b * 4 + c = 99) as H100 by (apply mod_last; lia).
  assert ((a * 100 + b * 4 + c + 1) mod 400 = 0 ↔ a * 100 + b * 4 + c = 399) as H400 by (apply mod_last; lia).
  rewrite (bool_decide_ext _ _ H4), (bool_decide_ext _ _ H100), (bool_decide_ext _ _ H400).
  repeat case_bool_decide; cbn; try done; exfalso; lia.
Qed.

Lemma div_spec n u : 0 < u → ∃ k r, n / u = k ∧ n mod u = r ∧ n = k * u + r ∧ 0 ≤ r < u.
Proof.
  intros Hu. exists (n / u), (n mod u). pose proof (Z.div_mod n u ltac:(lia)). pose proof (Z.mod_pos_bound n u Hu).
  lia.
Qed.

Lemma ymd_of_day_spec n :
  0 ≤ n ≤ 3652058 →
  let '(y, m, d) := ymd_of_day n in valid_ymd y m d = true ∧ day_of_ymd y m d = n.
Proof.
  intros Hn. unfold ymd_of_day. cbv zeta.
  destruct (div_spec n 146097 ltac:(lia)) as (k & n' & -> & -> & Hk & Hn').
  assert (0 ≤ k ≤ 24) as Hkb by lia.
  destruct (div_spec n' 36524 ltac:(lia)) as (a' & r & -> & _ & Ha' & Hr).
  set (a := Z.min 3 a'). set (n'' := n' - a * 36524).
  assert (0 ≤ a ≤ 3 ∧ 0 ≤ n'' ∧ (a < 3 → n'' < 36524) ∧ n'' < 36525) as (Ha & Hn'' & Hn3 & Hn4)
    by (unfold n'', a; lia).
  assert (n' = a * 36524 + n'') as Hn'a by (unfold n''; lia). clearbody a n''.
  destruct (div_spec n'' 1461 ltac:(lia)) as (b & q & -> & -> & Hb & Hq).
  assert (0 ≤ b ≤ 24) as Hbb by lia.
  destruct (div_spec q 365 ltac:(lia)) as (c' & r' & -> & _ & Hc' & Hr').
  set (c := Z.min 3 c'). set (d := q - c * 365).
  assert (0 ≤ c ≤ 3 ∧ 0 ≤ d ∧ (c < 3 → d < 365) ∧ d < 366) as (Hc & Hd & Hd3 & Hd4) by (unfold d, c; lia).
  assert (q = c * 365 + d) as Hqd by (unfold d; lia). clearbody c d.
  pose proof (days_before_cycles k a b c Ha Hbb Hc) as Hbefore.
  pose proof (is_leap_cycles k a b c Ha Hbb Hc) as Hleap.
  set (y := k * 400 + a * 100 + b * 4 + c + 1) in *.
  assert (0 ≤ d < 365 + Z.b2z (is_leap y)) as Hday.
  { rewrite Hleap. case_bool_decide; cbn [Z.b2z]; lia. }
  destruct (month_of_spec (is_leap y) d Hday) as [Hm Hs].
  set (m := month_of 12 (is_leap y) d) in *. split.
  - unfold valid_ymd, days_in_month. apply bool_decide_eq_true. unfold y in *. lia.
  - unfold day_of_ymd. lia.
Qed.

(** * Texts *)

(** A number with leading zeros. *)
Fixpoint digits (k : nat) (n : Z) : pystr :=
  match k with
  | O => []
  | S k' => Z.to_N (48 + n / 10 ^ Z.of_nat k') :: digits k' (n mod 10 ^ Z.of_nat k')
  end.

Definition us_per_day : Z := 86400 * 10 ^ 6.

(** [datetime.isoformat] *)
Definition isoformat (d : datetime) : pystr :=
  let '(y, m, day) := ymd_of_day (dt_us d / us_per_day) in
  let t := dt_us d mod us_per_day in
  let f := t mod 10 ^ 6 in
  digits 4 y ++ py "-" ++ digits 2 m ++ py "-" ++ digits 2 day ++ py "T"
  ++ digits 2 (t / (3600 * 10 ^ 6)) ++ py ":" ++ digits 2 (t / (60 * 10 ^ 6) mod 60) ++ py ":"
  ++ digits 2 (t / 10 ^ 6 mod 60)
  ++ (if decide (f = 0) then [] else py "." ++ digits 6 f)
  ++ (match d with Naive _ => [] | Aware _ => py "+00:00" end).

Fixpoint read_digits (k : nat) (acc : Z) (s : pystr) : option (Z * pystr) :=
  match k, s with
  | O, _ => Some (acc, s)
  | S k', c :: s' =>
      if decide (48 ≤ c ∧ c ≤ 57)%N then read_digits k' (acc * 10 + (Z.of_N c - 48)) s' else None
  | S _, [] => None
  end.
Definition read_char (c : string) (s : pystr) : option pystr :=
  match s with x :: s' => if decide ([x] = py c) then Some s' else None | [] => None end.

(** [datetime.fromisoformat] of what [isoformat] writes. *)
Definition fromisoformat (s : pystr) : res datetime :=
  match (
    '(y, s) ← read_digits 4 0 s; s ← read_char "-" s; '(m, s) ← read_digits 2 0 s; s ← read_char "-" s;
    '(day, s) ← read_digits 2 0 s; s ← read_char "T" s; '(h, s) ← read_digits 2 0 s; s ← read_char ":" s;
    '(mi, s) ← read_digits 2 0 s; s ← read_char ":" s; '(sec, s) ← read_digits 2 0 s;
    '(f, s) ← (match read_char "." s with Some s' => read_digits 6 0 s' | None => Some (0, s) end);
    let us := day_of_ymd y m day * us_per_day + ((h * 60 + mi) * 60 + sec) * 10 ^ 6 + f in
    if valid_ymd y m day && bool_decide (h < 24 ∧ mi < 60 ∧ sec < 60) then
      if decide (s = []) then Some (Naive us)
      else if decide (s = py "+00:00") then Some (Aware us) else None
    else None)%stdpp
  with Some d => Ok d | None => Err ValueError end.

Arguments digits : simpl never.
Arguments read_digits : simpl never.
Arguments read_char : simpl never.

Definition in_range (d : datetime) : Prop := 0 ≤ dt_us d ≤ max_datetime_us.

(** ** Reading what was written *)

Lemma read_digits_digits k n acc r :
  0 ≤ n < 10 ^ Z.of_nat k →
  read_digits k acc (digits k n ++ r) = Some (acc * 10 ^ Z.of_nat k + n, r).
Proof.
  revert n acc. induction k as [|k IH]; intros n acc Hn; unfold digits, read_digits; fold digits; fold read_digits; cbn [app].
  - change (10 ^ Z.of_nat 0) with 1 in *. do 2 f_equal. lia.
  - rewrite Nat2Z.inj_succ, Z.pow_succ_r in * by lia.
    set (u := 10 ^ Z.of_nat k) in *. assert (0 < u) as Hu by (unfold u; lia).
    destruct (div_spec n u Hu) as (q & m & -> & -> & Hq & Hm).
    assert (0 ≤ q ≤ 9) as Hqb by nia.
    rewrite decide_True by lia. rewrite IH by (fold u; lia). fold u. do 2 f_equal.
    rewrite Z2N.id by lia. lia.
Qed.

Lemma read_digits_0 k n r : 0 ≤ n < 10 ^ Z.of_nat k → read_digits k 0 (digits k n ++ r) = Some (n, r).
Proof. intros Hn. by rewrite read_digits_digits. Qed.

Lemma read_char_char (a : Ascii.ascii) (s : pystr) : read_char (String a EmptyString) (py (String a EmptyString) ++ s) = Some s.
Proof. unfold read_char. cbn. by rewrite decide_True. Qed.

Lemma clock_parts t :
  0 ≤ t < us_per_day →
  let h := t / (3600 * 10 ^ 6) in let mi := t / (60 * 10 ^ 6) mod 60 in let sec := t / 10 ^ 6 mod 60 in
  let f := t mod 10 ^ 6 in
  t = ((h * 60 + mi) * 60 + sec) * 10 ^ 6 + f ∧
  0 ≤ h < 24 ∧ 0 ≤ mi < 60 ∧ 0 ≤ sec < 60 ∧ 0 ≤ f < 10 ^ 6.
Proof.
  unfold us_per_day. intros Ht. cbv zeta. change (10 ^ 6) with 1000000 in *.
  destruct (div_spec t 1000000 ltac:(lia)) as (s & f & Hs & -> & Hst & Hf).
  destruct (div_spec s 60 ltac:(lia)) as (m & sec & Hm & Hsec & Hmt & Hsb).
  destruct (div_spec m 60 ltac:(lia)) as (h & mi & Hh & Hmi & Hht & Hmb).
  replace (t / (60 * 1000000)) with m by (rewrite Z.mul_comm, <- Z.div_div, Hs, Hm by lia; done).
  replace (t / (3600 * 1000000)) with h
    by (replace (3600 * 1000000) with (1000000 * 60 * 60) by lia; rewrite <- !Z.div_div, Hs, Hm, Hh by lia; done).
  rewrite Hs, Hsec, Hmi. lia.
Qed.

Definition short_month (leap : bool) (m : Z) : bool :=
  bool_decide (month_start leap (m + 1) - month_start leap m ≤ 31).
Lemma days_in_month_le y m : 1 ≤ m ≤ 12 → days_in_month y m ≤ 31.
Proof.
  intros Hm. assert (short_month (is_leap y) m = true) as Hok%bool_decide_eq_true; [|done].
  apply (all_from_spec _ 12 1); [by destruct (is_leap y); vm_compute|lia].
Qed.

Lemma fromisoformat_isoformat d : in_range d → fromisoformat (isoformat d) = Ok d.
Proof.
  intros Hr. unfold isoformat, in_range, max_datetime_us in *.
  destruct (div_spec (dt_us d) us_per_day ltac:(done)) as (n & t & -> & -> & Hd & Ht).
  assert (0 ≤ n ≤ 3652058) as Hn by (unfold us_per_day in *; lia).
  pose proof (ymd_of_day_spec n Hn) as Hspec. destruct (ymd_of_day n) as [[y m] day].
  destruct Hspec as [Hv Hday]. pose proof Hv as Hvb.
  unfold valid_ymd in Hvb. apply bool_decide_eq_true in Hvb.
  destruct (clock_parts t Ht) as (Hclock & Hh & Hmi & Hsec & Hf).
  set (h := t / (3600 * 10 ^ 6)) in *. set (mi := t / (60 * 10 ^ 6) mod 60) in *.
  set (sec := t / 10 ^ 6 mod 60) in *. set (f := t mod 10 ^ 6) in *. clearbody h mi sec f.
  pose proof (days_in_month_le y m ltac:(lia)).
  unfold fromisoformat.
  repeat (rewrite <- ?app_assoc, read_digits_0 by (cbn; lia); cbn [mbind option_bind];
    rewrite ?read_char_char; cbn [mbind option_bind]).
  set (tz := match d with Naive _ => [] | Aware _ => py "+00:00" end).
  assert (read_char "." tz = None) as Htz by (unfold tz; by destruct d).
  assert ((match read_char "." ((if decide (f = 0) then [] else py "." ++ digits 6 f) ++ tz) with
    | Some s' => read_digits 6 0 s'
    | None => Some (0, (if decide (f = 0) then [] else py "." ++ digits 6 f) ++ tz) end) = Some (f, tz)) as ->.
  { destruct (decide (f = 0)) as [->|]; [cbn [app]; by rewrite Htz|].
    by rewrite <- app_assoc, read_char_char, read_digits_0 by (cbn; lia). }
  cbn [mbind option_bind]. rewrite Hv, bool_decide_true by lia. cbn [andb].
  assert (day_of_ymd y m day * us_per_day + ((h * 60 + mi) * 60 + sec) * 10 ^ 6 + f = dt_us d) as -> by lia.
  unfold tz. by destruct d.
Qed.

(** ** Texts of times in order *)

Lemma digits_le k m n r s :
  0 ≤ m < 10 ^ Z.of_nat k → 0 ≤ n < 10 ^ Z.of_nat k →
  str_le (digits k m ++ r) (digits k n ++ s) = bool_decide (m < n) || (bool_decide (m = n) && str_le r s).
Proof.
  revert m n. induction k as [|k IH]; intros m n Hm Hn.
  - change (10 ^ Z.of_nat 0) with 1 in *. assert (m = 0) as -> by lia. assert (n = 0) as -> by lia. done.
  - unfold digits; fold digits. cbn [app str_le].
    rewrite Nat2Z.inj_succ, Z.pow_succ_r in Hm, Hn by lia.
    set (u := 10 ^ Z.of_nat k) in *. assert (0 < u) as Hu by (unfold u; lia).
    destruct (div_spec m u Hu) as (q & a & -> & -> & Hq & Ha).
    destruct (div_spec n u Hu) as (p & b & -> & -> & Hp & Hb).
    assert (0 ≤ q ≤ 9 ∧ 0 ≤ p ≤ 9) as [Hqb Hpb] by nia.
    rewrite IH by done. clear IH.
    destruct (decide (q < p)) as [Hlt|Hge].
    + assert (m < n) by nia. rewrite !(bool_decide_true (_ < _)%N), (bool_decide_true (m < n)) by lia. done.
    + rewrite (bool_decide_false (Z.to_N _ < _)%N) by lia. cbn [orb].
      destruct (decide (q = p)) as [->|Hne].
      * rewrite bool_decide_true by done. cbn [andb].
        rewrite (bool_decide_ext (m < n) (a < b)), (bool_decide_ext (m = n) (a = b)) by lia. done.
      * assert (p + 1 ≤ q) as Hpq by lia. assert (n < m) by (pose proof (Z.mul_le_mono_nonneg_r _ _ u ltac:(lia) Hpq); lia). rewrite (bool_decide_false (Z.to_N _ = _)) by lia.
        rewrite (bool_decide_false (m < n)), (bool_decide_false (m = n)) by lia. done.
Qed.

Lemma str_le_app (p r s : pystr) : str_le (p ++ r) (p ++ s) = str_le r s.
Proof.
  induction p as [|c p IH]; [done|]. cbn [app str_le].
  by rewrite (bool_decide_false (c < c)%N), bool_decide_true, IH by lia.
Qed.

Lemma year_cycles y : ∃ k a b c,
  y = k * 400 + a * 100 + b * 4 + c + 1 ∧ 0 ≤ a ≤ 3 ∧ 0 ≤ b ≤ 24 ∧ 0 ≤ c ≤ 3.
Proof.
  destruct (div_spec (y - 1) 400 ltac:(lia)) as (k & r & _ & _ & Hk & Hr).
  destruct (div_spec r 100 ltac:(lia)) as (a & q & _ & _ & Ha & Hq).
  destruct (div_spec q 4 ltac:(lia)) as (b & c & _ & _ & Hb & Hc). exists k, a, b, c. lia.
Qed.

(** A year begins after all the days of those before it. *)
Lemma days_before_later y y' : y < y' → days_before_year y + 365 + Z.b2z (is_leap y) ≤ days_before_year y'.
Proof.
  intros Hy. destruct (year_cycles y) as (k & a & b & c & -> & Ha & Hb & Hc).
  destruct (year_cycles y') as (k' & a' & b' & c' & -> & Ha' & Hb' & Hc').
  rewrite !days_before_cycles, is_leap_cycles by done. case_bool_decide; cbn [Z.b2z]; lia.
Qed.

Definition month_later (leap : bool) (m : Z) : bool :=
  all_from (λ m', bool_decide (month_start leap (m + 1) ≤ month_start leap m')) (Z.to_nat (13 - m)) (m + 1).
Lemma month_start_later leap m m' : 1 ≤ m → m < m' ≤ 13 → month_start leap (m + 1) ≤ month_start leap m'.
Proof.
  intros Hm Hm'. assert (month_later leap m = true) as Hok.
  { apply (all_from_spec (month_later leap) 12 1); [by destruct leap; vm_compute|lia]. }
  apply (all_from_spec _ _ _ m') in Hok; [by apply bool_decide_eq_true in Hok|lia].
Qed.

(** Days in the order of their year, month and day. *)
Lemma day_of_ymd_lt y m d y' m' d' :
  valid_ymd y m d = true → valid_ymd y' m' d' = true →
  y < y' ∨ (y = y' ∧ (m < m' ∨ (m = m' ∧ d < d'))) → day_of_ymd y m d < day_of_ymd y' m' d'.
Proof.
  unfold valid_ymd, day_of_ymd, days_in_month. rewrite !bool_decide_eq_true.
  intros (Hy & Hm & Hd) (Hy' & Hm' & Hd') Hlt.
  assert (∀ leap n, 1 ≤ n ≤ 12 → 0 ≤ month_start leap n) as Hpos.
  { intros leap n Hn. destruct (decide (n = 1)) as [->|]; [by destruct leap|].
    pose proof (month_start_later leap 1 n ltac:(lia) ltac:(lia)).
    assert (31 ≤ month_start leap (1 + 1)) by by destruct leap. lia. }
  pose proof (Hpos (is_leap y') m' Hm'). destruct Hlt as [Hlt|[-> [Hlt|[-> Hlt]]]]; [| |lia].
  - pose proof (days_before_later y y' Hlt).
    assert (month_start (is_leap y) (m + 1) ≤ 365 + Z.b2z (is_leap y)); [|lia].
    assert (month_start (is_leap y) 13 = 365 + Z.b2z (is_leap y)) as <- by by destruct (is_leap y).
    by apply month_start_later; lia.
  - pose proof (month_start_later (is_leap y') m m' ltac:(lia) ltac:(lia)). lia.
Qed.

Lemma fraction_le f f' :
  0 ≤ f < 10 ^ 6 → 0 ≤ f' < 10 ^ 6 →
  str_le ((if decide (f = 0) then [] else py "." ++ digits 6 f) ++ py "+00:00")
    ((if decide (f' = 0) then [] else py "." ++ digits 6 f') ++ py "+00:00") = bool_decide (f ≤ f').
Proof.
  intros Hf Hf'. destruct (decide (f = 0)) as [->|Hne], (decide (f' = 0)) as [->|Hne'].
  - done.
  - symmetry. apply bool_decide_eq_true. lia.
  - symmetry. apply bool_decide_eq_false. lia.
  - rewrite <- !app_assoc, str_le_app, digits_le by done.
    destruct (Z.lt_trichotomy f f') as [Hlt|[->|Hlt]].
    + by rewrite (bool_decide_true (f < f')), (bool_decide_true (f ≤ f')) by lia.
    + rewrite (bool_decide_true (f' = f')), orb_comm by done. symmetry. by apply bool_decide_eq_true.
    + rewrite (bool_decide_false (f < f')), (bool_decide_false (f = f')), (bool_decide_false (f ≤ f')) by lia. done.
Qed.

Lemma lex_step (x x' : Z) (rest total : bool) :
  (x < x' → total = true) → (x' < x → total = false) → (x = x' → rest = total) →
  bool_decide (x < x') || (bool_decide (x = x') && rest) = total.
Proof.
  intros Hlt Hgt Heq. destruct (Z.lt_trichotomy x x') as [Hc|[Hc|Hc]].
  - rewrite (bool_decide_true (x < x')) by done. by rewrite Hlt.
  - rewrite (bool_decide_false (x < x')), (bool_decide_true (x = x')) by lia. cbn. auto.
  - rewrite (bool_decide_false (x < x')), (bool_decide_false (x = x')) by lia. by rewrite Hgt.
Qed.

(** The texts of two instants are in the order of the instants. *)
Lemma isoformat_le a b :
  in_range (Aware a) → in_range (Aware b) →
  str_le (isoformat (Aware a)) (isoformat (Aware b)) = bool_decide (a ≤ b).
Proof.
  unfold in_range, max_datetime_us, isoformat; cbn [dt_us]. intros Ha Hb.
  destruct (div_spec a us_per_day ltac:(done)) as (n & t & -> & -> & Had & Ht).
  destruct (div_spec b us_per_day ltac:(done)) as (n' & t' & -> & -> & Hbd & Ht').
  assert (0 ≤ n ≤ 3652058 ∧ 0 ≤ n' ≤ 3652058) as [Hn Hn'] by (unfold us_per_day in *; lia).
  pose proof (ymd_of_day_spec n Hn) as Hspec. destruct (ymd_of_day n) as [[y m] d]. destruct Hspec as [Hv Hday].
  pose proof (ymd_of_day_spec n' Hn') as Hspec'. destruct (ymd_of_day n') as [[y' m'] d']. destruct Hspec' as [Hv' Hday'].
  pose proof (day_of_ymd_lt _ _ _ _ _ _ Hv Hv') as Hlt. pose proof (day_of_ymd_lt _ _ _ _ _ _ Hv' Hv) as Hgt.
  rewrite Hday, Hday' in Hlt, Hgt.
  pose proof (days_in_month_le y m). pose proof (days_in_month_le y' m').
  unfold valid_ymd in Hv, Hv'. apply bool_decide_eq_true in Hv as Hvb, Hv' as Hvb'.
  destruct (clock_parts t Ht) as (Hclock & Hh & Hmi & Hsec & Hf).
  destruct (clock_parts t' Ht') as (Hclock' & Hh' & Hmi' & Hsec' & Hf').
  set (h := t / (3600 * 10 ^ 6)) in *. set (mi := t / (60 * 10 ^ 6) mod 60) in *.
  set (sec := t / 10 ^ 6 mod 60) in *. set (f := t mod 10 ^ 6) in *.
  set (h' := t' / (3600 * 10 ^ 6)) in *. set (mi' := t' / (60 * 10 ^ 6) mod 60) in *.
  set (sec' := t' / 10 ^ 6 mod 60) in *. set (f' := t' mod 10 ^ 6) in *.
  clearbody h mi sec f h' mi' sec' f'.
  rewrite digits_le by (cbn; lia). repeat (rewrite str_le_app, digits_le by (cbn; lia)).
  rewrite (fraction_le f f') by done. change (10 ^ 6) with 1000000 in *. unfold us_per_day in *.
  assert (n < n' → bool_decide (a ≤ b) = true) as Hday1 by (intros ?; apply bool_decide_eq_true; lia).
  assert (n' < n → bool_decide (a ≤ b) = false) as Hday2 by (intros ?; apply bool_decide_eq_false; lia).
  apply lex_step; [intros; apply Hday1, Hlt; lia|intros; apply Hday2, Hgt; lia|intros ->].
  apply lex_step; [intros; apply Hday1, Hlt; lia|intros; apply Hday2, Hgt; lia|intros ->].
  apply lex_step; [intros; apply Hday1, Hlt; lia|intros; apply Hday2, Hgt; lia|intros ->].
  assert (n = n') as -> by lia.
  do 3 (apply lex_step; [intros; apply bool_decide_eq_true; lia|intros; apply bool_decide_eq_false; lia|intros ->]).
  apply bool_decide_ext. lia.
Qed.
