(* ===== verification/JsonText.v ===== *)
(** [json.loads] of the language: a parser of the whole grammar, and the round trip
    of the texts [json.dumps] prints. *)

From S2P Require Export PyText PyTime PyDict PyJson.
From Stdlib Require Import Qcanon Ascii String.
From stdpp Require Import pretty list.
#[local] Open Scope N_scope.
#[local] Open Scope stdpp_scope.

(** * The parser *)

Definition is_ws (c : N) : bool := bool_decide (c = 32 ∨ c = 9 ∨ c = 10 ∨ c = 13).
Fixpoint skip_ws (s : pystr) : pystr :=
  match s with
  | [] => []
  | c :: s' => if is_ws c then skip_ws s' else s
  end.

(** A hexadecimal digit of either case. *)
Definition hex_val (c : N) : option N :=
  if decide (48 ≤ c ∧ c ≤ 57) then Some (c - 48)
  else if decide (97 ≤ c ∧ c ≤ 102) then Some (c - 87)
  else if decide (65 ≤ c ∧ c ≤ 70) then Some (c - 55)
  else None.
Definition hex4 (a b c d : N) : option N :=
  x ← hex_val a; y ← hex_val b; z ← hex_val c; t ← hex_val d; Some (((x * 16 + y) * 16 + z) * 16 + t).

(** The character of an escape of two characters. *)
Definition escaped (c : N) : option N :=
  if decide (c = 34 ∨ c = 92 ∨ c = 47) then Some c
  else if decide (c = 98) then Some 8
  else if decide (c = 102) then Some 12
  else if decide (c = 110) then Some 10
  else if decide (c = 114) then Some 13
  else if decide (c = 116) then Some 9
  else None.

Definition cons_char (c : N) (rest : option (pystr * pystr)) : option (pystr * pystr) :=
  '(t, r) ← rest; Some (c :: t, r).

(** The text of a string, after its quotation mark, and what follows it: no control
    character, and two surrogate escapes in order are one character. *)
Fixpoint scan_string (s : pystr) : option (pystr * pystr) :=
  match s with
  | [] => None
  | c :: s' =>
      if decide (c = 34) then Some ([], s')
      else if decide (c < 32) then None
      else if decide (c = 92) then
        match s' with
        | e :: s1 =>
            if decide (e = 117) then
              match s1 with
              | a :: b :: c :: d :: s2 =>
                  u ← hex4 a b c d;
                  if decide (55296 ≤ u ∧ u ≤ 56319) then
                    match s2 with
                    | k :: l :: a' :: b' :: c' :: d' :: s3 =>
                        if decide (k = 92 ∧ l = 117) then
                          v ← hex4 a' b' c' d';
                          if decide (56320 ≤ v ∧ v ≤ 57343)
                          then cons_char (65536 + (u - 55296) * 1024 + (v - 56320)) (scan_string s3)
                          else cons_char u (scan_string s2)
                        else cons_char u (scan_string s2)
                    | _ => cons_char u (scan_string s2)
                    end
                  else cons_char u (scan_string s2)
              | _ => None
              end
            else x ← escaped e; cons_char x (scan_string s1)
        | [] => None
        end
      else cons_char c (scan_string s')
  end.

Definition is_digit (c : N) : bool := bool_decide (48 ≤ c ∧ c ≤ 57).
Fixpoint span_digits (s : pystr) : pystr * pystr :=
  match s with
  | c :: s' => if is_digit c then let '(a, b) := span_digits s' in (c :: a, b) else ([], s)
  | [] => ([], [])
  end.
(** A character, if the text begins with it. *)
Definition eat (c : N) (s : pystr) : option pystr :=
  match s with x :: s' => if decide (x = c) then Some s' else None | [] => None end.

(** [0|[1-9][0-9]*] *)
Definition scan_int (s : pystr) : option (pystr * pystr) :=
  match s with
  | c :: s' =>
      if decide (c = 48) then Some ([48], s')
      else if is_digit c then Some (span_digits s) else None
  | [] => None
  end.
(** [(\.[0-9]+)?] *)
Definition scan_fraction (s : pystr) : pystr * pystr :=
  match eat 46 s with
  | Some s' => match span_digits s' with ([], _) => ([], s) | (ds, r) => (46 :: ds, r) end
  | None => ([], s)
  end.
(** [([eE][-+]?[0-9]+)?] *)
Definition scan_exponent (s : pystr) : pystr * pystr :=
  match s with
  | c :: s' =>
      if decide (c = 101 ∨ c = 69) then
        let '(sign, s'') := match s' with
          | d :: t => if decide (d = 43 ∨ d = 45) then ([d], t) else ([], s') | [] => ([], s') end in
        match span_digits s'' with ([], _) => ([], s) | (ds, r) => (c :: sign ++ ds, r) end
      else ([], s)
  | [] => ([], s)
  end.

(** The text of a number, whether it is one of a float, and what follows. *)
Definition number_parts (s : pystr) : option (pystr * bool * pystr) :=
  let '(sign, s1) := match eat 45 s with Some s' => ([45], s') | None => ([], s) end in
  '(i, s2) ← scan_int s1;
  let '(f, s3) := scan_fraction s2 in
  let '(e, s4) := scan_exponent s3 in
  Some (sign ++ i ++ f ++ e, negb (bool_decide (f = [] ∧ e = [])), s4).

(** [int(text)] of an optional sign and digits. *)
Definition dec_value (acc : N) (s : pystr) : N := foldl (λ n c, n * 10 + (c - 48)) acc s.
Definition int_of_text (t : pystr) : Z :=
  match eat 45 t with Some t' => - Z.of_N (dec_value 0 t') | None => Z.of_N (dec_value 0 t) end.

(** A literal, if the text begins with it. *)
Fixpoint eat_all (w s : pystr) : option pystr :=
  match w with [] => Some s | c :: w' => s' ← eat c s; eat_all w' s' end.

Section parser.
(** [float(text)] of the language. *)
Context (float_of_text : pystr → pyfloat).

Definition scan_number (s : pystr) : option (jvalue * pystr) :=
  '(t, b, r) ← number_parts s;
  Some (if (b : bool) then VFloat (float_of_text t) else VInt (int_of_text t), r).

(** The constants, and the numbers. *)
Definition scan_atom (s : pystr) : option (jvalue * pystr) :=
  match eat_all (py "null") s, eat_all (py "true") s, eat_all (py "false") s with
  | Some r, _, _ => Some (VNull, r)
  | _, Some r, _ => Some (VBool true, r)
  | _, _, Some r => Some (VBool false, r)
  | None, None, None =>
      match eat_all (py "NaN") s, eat_all (py "Infinity") s, eat_all (py "-Infinity") s with
      | Some r, _, _ => Some (VFloat NaN, r)
      | _, Some r, _ => Some (VFloat PosInf, r)
      | _, _, Some r => Some (VFloat NegInf, r)
      | None, None, None => scan_number s
      end
  end.

(** The fuel bounds the depth and the number of elements. *)
Fixpoint scan_value (n : nat) (s : pystr) {struct n} : option (jvalue * pystr) :=
  match n with
  | O => None
  | S n =>
      match s with
      | [] => None
      | c :: s' =>
          if decide (c = 34) then '(t, r) ← scan_string s'; Some (VStr t, r)
          else if decide (c = 91) then
            match eat 93 (skip_ws s') with
            | Some r => Some (VArr [], r)
            | None => '(l, r) ← scan_elements n (skip_ws s'); Some (VArr l, r)
            end
          else if decide (c = 123) then
            match eat 125 (skip_ws s') with
            | Some r => Some (VObj [], r)
            | None => '(d, r) ← scan_members n (skip_ws s'); Some (VObj (d_of_list fst snd d), r)
            end
          else scan_atom s
      end
  end
with scan_elements (n : nat) (s : pystr) {struct n} : option (list jvalue * pystr) :=
  match n with
  | O => None
  | S n =>
      '(v, r) ← scan_value n s;
      match eat 93 (skip_ws r), eat 44 (skip_ws r) with
      | Some r', _ => Some ([v], r')
      | None, Some r' => '(l, r'') ← scan_elements n (skip_ws r'); Some (v :: l, r'')
      | None, None => None
      end
  end
with scan_members (n : nat) (s : pystr) {struct n} : option (list (pystr * jvalue) * pystr) :=
  match n with
  | O => None
  | S n =>
      s ← eat 34 s; '(k, r) ← scan_string s; r ← eat 58 (skip_ws r);
      '(v, r) ← scan_value n (skip_ws r);
      match eat 125 (skip_ws r), eat 44 (skip_ws r) with
      | Some r', _ => Some ([(k, v)], r')
      | None, Some r' => '(l, r'') ← scan_members n (skip_ws r'); Some ((k, v) :: l, r'')
      | None, None => None
      end
  end.

(** [json.loads]: [JSONDecodeError] is a [ValueError]. *)
Definition loads (s : pystr) : res jvalue :=
  match (
    _ ← match s with c :: _ => if decide (c = 65279) then None else Some () | [] => Some () end;
    '(v, r) ← scan_value (2 * List.length s) (skip_ws s);
    if decide (skip_ws r = []) then Some v else None)
  with Some v => Ok v | None => Err ValueError end.
End parser.

(** * The round trip *)

Arguments skip_ws : simpl never.
Arguments eat : simpl never.
Arguments scan_string : simpl never.

(** ** Strings *)

Lemma hex_val_digit n : n < 16 → hex_val (hex_digit n) = Some n.
Proof.
  intros Hn. unfold hex_val, hex_digit. destruct (decide (n < 10)).
  - rewrite decide_True by lia. f_equal. lia.
  - rewrite decide_False, decide_True by lia. f_equal. lia.
Qed.

Lemma scan_string_char c s : scan_string (json_char c ++ s) = cons_char c (scan_string s).
Proof.
  unfold json_char. repeat (case_decide; [subst; done|]). case_decide as Hc.
  - cbn [app]. unfold scan_string at 1; fold scan_string.
    rewrite (decide_False (P := 92 = 34)), (decide_False (P := 92 < 32)), (decide_True (P := 92 = 92)),
      (decide_True (P := 117 = 117)) by lia.
    unfold hex4. change (hex_val 48) with (Some 0). cbn [mbind option_bind].
    pose proof (N.div_mod c 16 ltac:(lia)). pose proof (N.mod_lt c 16 ltac:(lia)).
    assert (c `div` 16 < 16) by (apply N.Div0.div_lt_upper_bound; lia).
    rewrite (hex_val_digit (c `div` 16)), (hex_val_digit (c `mod` 16)) by done. cbn [mbind option_bind].
    replace (((0 * 16 + 0) * 16 + c / 16) * 16 + c mod 16) with c by lia.
    by rewrite decide_False by lia.
  - cbn [app]. unfold scan_string at 1; fold scan_string. by rewrite !decide_False by lia.
Qed.

Lemma scan_json_string s r : scan_string (concat (json_char <$> s) ++ 34 :: r) = Some (s, r).
Proof.
  induction s as [|c s IH]; [done|]. rewrite fmap_cons. cbn [concat].
  by rewrite <- (assoc_L (++)), scan_string_char, IH.
Qed.

Lemma json_string_app s r : json_string s ++ r = 34 :: concat (json_char <$> s) ++ 34 :: r.
Proof. unfold json_string. cbn. by rewrite <- (assoc_L (++)). Qed.

(** ** Numbers *)

(** What may follow a number. *)
Definition stops (r : pystr) : Prop :=
  match r with [] => True | c :: _ => is_digit c = false ∧ c ∉ [46; 101; 69; 43; 45] end.

Lemma eat_app c s s' r : eat c s = Some s' → eat c (s ++ r) = Some (s' ++ r).
Proof. unfold eat. destruct s as [|x s]; [done|]. cbn. case_decide; [|done]. by intros [= ->]. Qed.

Lemma eat_none_app c s r : eat c s = None → s ≠ [] → eat c (s ++ r) = None.
Proof. unfold eat. destruct s as [|x s]; [done|]. cbn. by case_decide. Qed.

Section stops.
Context (r : pystr) (Hr : stops r).

Lemma eat_stops c : c ∈ [46; 101; 69; 43; 45] → eat c r = None.
Proof.
  intros Hc. unfold eat, stops in *. destruct r as [|x ?]; [done|]. destruct Hr as [_ Hx].
  rewrite decide_False; [done|]. by intros ->.
Qed.

Lemma span_digits_app s a b : span_digits s = (a, b) → span_digits (s ++ r) = (a, b ++ r).
Proof.
  revert a b. induction s as [|c s IH]; intros a b; cbn [span_digits app].
  - intros [= <- <-]. unfold stops in Hr. destruct r as [|c ?]; [done|].
    destruct Hr as [Hd _]. cbn. by rewrite Hd.
  - destruct (is_digit c); [|by intros [= <- <-]]. destruct (span_digits s) as [a' b'].
    intros [= <- <-]. by rewrite (IH _ _ eq_refl).
Qed.

Lemma scan_int_app s a b : scan_int s = Some (a, b) → scan_int (s ++ r) = Some (a, b ++ r).
Proof.
  unfold scan_int. destruct s as [|c s]; [done|]. cbn [app]. case_decide; [by intros [= <- <-]|].
  destruct (is_digit c) eqn:Hd; [|done]. intros [= Hs].
  pose proof (span_digits_app (c :: s) a b Hs) as E. cbn [app] in E. by rewrite E.
Qed.

Lemma scan_fraction_app s a b : scan_fraction s = (a, b) → scan_fraction (s ++ r) = (a, b ++ r).
Proof.
  unfold scan_fraction. destruct (decide (s = [])) as [->|Hs].
  - cbn [app]. intros [= <- <-]. by rewrite eat_stops by set_solver.
  - destruct (eat 46 s) as [s'|] eqn:He.
    + rewrite (eat_app _ _ _ r He). destruct (span_digits s') as [ds b'] eqn:Hd.
      rewrite (span_digits_app s' ds b' Hd). by destruct ds; intros; simplify_eq.
    + rewrite (eat_none_app _ _ r He Hs). by intros [= <- <-].
Qed.

(** The optional sign of an exponent. *)
Definition exponent_sign (s : pystr) : pystr * pystr :=
  match s with d :: t => if decide (d = 43 ∨ d = 45) then ([d], t) else ([], s) | [] => ([], s) end.

Lemma exponent_sign_app s a b : exponent_sign s = (a, b) → exponent_sign (s ++ r) = (a, b ++ r).
Proof.
  unfold exponent_sign. destruct s as [|d t]; cbn [app].
  - intros [= <- <-]. unfold stops in Hr. destruct r as [|c ?]; [done|]. destruct Hr as [_ Hx].
    rewrite decide_False by set_solver. done.
  - case_decide; by intros [= <- <-].
Qed.

Lemma scan_exponent_app s a b : scan_exponent s = (a, b) → scan_exponent (s ++ r) = (a, b ++ r).
Proof.
  unfold scan_exponent. destruct s as [|c s']; cbn [app].
  - intros [= <- <-]. unfold stops in Hr. destruct r as [|c ?]; [done|]. destruct Hr as [_ Hx].
    rewrite decide_False by set_solver. done.
  - case_decide as Hc; [|by intros [= <- <-]].
    change (match s' with d :: t => if decide (d = 43 ∨ d = 45) then ([d], t) else ([], s') | [] => ([], s') end)
      with (exponent_sign s').
    change (match s' ++ r with d :: t => if decide (d = 43 ∨ d = 45) then ([d], t) else ([], s' ++ r)
      | [] => ([], s' ++ r) end) with (exponent_sign (s' ++ r)).
    destruct (exponent_sign s') as [sign t] eqn:Ht. rewrite (exponent_sign_app _ _ _ Ht).
    destruct (span_digits t) as [ds b'] eqn:Hd. rewrite (span_digits_app t ds b' Hd).
    by destruct ds; intros; simplify_eq.
Qed.

(** A number that is the whole of a text is found before what may follow it. *)
Lemma number_parts_app s t b s' :
  s ≠ [] → number_parts s = Some (t, b, s') → number_parts (s ++ r) = Some (t, b, s' ++ r).
Proof.
  intros Hs. unfold number_parts.
  assert (∀ sign s1, match eat 45 s with Some x => ([45], x) | None => ([], s) end = (sign, s1) →
    match eat 45 (s ++ r) with Some x => ([45], x) | None => ([], s ++ r) end = (sign, s1 ++ r)) as Hsign.
  { intros sign s1. destruct (eat 45 s) as [x|] eqn:He.
    - rewrite (eat_app _ _ _ r He). by intros [= <- <-].
    - rewrite (eat_none_app _ _ r He Hs). by intros [= <- <-]. }
  destruct (match eat 45 s with Some x => ([45], x) | None => ([], s) end) as [sign s1].
  rewrite (Hsign _ _ eq_refl). destruct (scan_int s1) as [[i s2]|] eqn:Hi; [|done].
  rewrite (scan_int_app _ _ _ Hi). cbn [mbind option_bind].
  destruct (scan_fraction s2) as [f s3] eqn:Hf. rewrite (scan_fraction_app _ _ _ Hf).
  destruct (scan_exponent s3) as [e s4] eqn:He. rewrite (scan_exponent_app _ _ _ He).
  by intros [= <- <- <-].
Qed.
End stops.

(** *** The digits of an integer *)

Definition all_digits (s : pystr) : Prop := Forall (λ c, is_digit c = true) s.

Lemma span_digits_all s : all_digits s → span_digits s = (s, []).
Proof. induction 1 as [|c s Hc _ IH]; [done|]. cbn. by rewrite Hc, IH. Qed.

Lemma dec_value_app acc a b : dec_value acc (a ++ b) = dec_value (dec_value acc a) b.
Proof. apply foldl_app. Qed.

Lemma pretty_N_char_digit d : d < 10 → N_of_ascii (pretty_N_char d) = 48 + d.
Proof.
  intros Hd. assert (d ∈ [0; 1; 2; 3; 4; 5; 6; 7; 8; 9]) as Hin.
  { rewrite !elem_of_cons. lia. }
  rewrite !elem_of_cons in Hin. destruct_or!; subst; try done. set_solver.
Qed.

Lemma pretty_N_go_digits x s :
  0 < x → ∃ c l, py (pretty_N_go x s) = c :: l ++ py s ∧ c ≠ 48 ∧ all_digits (c :: l) ∧
    dec_value 0 (c :: l) = x.
Proof.
  revert s. induction (N.lt_wf_0 x) as [x _ IH]; intros s Hx. rewrite pretty_N_go_step by done.
  pose proof (N.div_mod x 10 ltac:(lia)) as Hdm. pose proof (N.mod_lt x 10 ltac:(lia)) as Hm.
  assert (x / 10 < x) as Hlt by (by apply N.div_lt).
  change (N.div x 10) with (x / 10) in *. change (N.modulo x 10) with (x mod 10) in *.
  generalize dependent (x / 10). generalize dependent (x mod 10). intros m Hm q Hdm Hlt.
  pose proof (pretty_N_char_digit m Hm) as Hc.
  assert (py (String (pretty_N_char m) s) = (48 + m) :: py s) as Hpy by (unfold py; cbn; by rewrite Hc).
  assert (is_digit (48 + m) = true) as Hdig by (apply bool_decide_eq_true; lia).
  destruct (decide (q = 0)) as [->|Hz].
  - rewrite pretty_N_go_0, Hpy. exists (48 + m), []. split_and!; [done|lia|by repeat constructor|].
    unfold dec_value. cbn [foldl]. lia.
  - destruct (IH q Hlt (String (pretty_N_char m) s) ltac:(lia)) as (c & l & E & Hne & Hall & Hv).
    exists c, (l ++ [48 + m]). rewrite E, Hpy, <- (assoc_L (++)). split_and!; [done|done| |].
    + inversion Hall; subst. constructor; [done|]. by apply Forall_app; split; [|repeat constructor].
    + rewrite app_comm_cons, dec_value_app, Hv. unfold dec_value. cbn [foldl]. lia.
Qed.

Lemma pretty_N_digits (n : N) : ∃ c l, py (pretty n) = c :: l ∧ all_digits (c :: l) ∧
  dec_value 0 (c :: l) = n ∧ (c = 48 → l = []).
Proof.
  destruct (decide (n = 0)) as [->|Hn]; [exists 48, []; by repeat constructor|].
  unfold pretty, pretty_N. rewrite decide_False by done.
  destruct (pretty_N_go_digits n "" ltac:(lia)) as (c & l & E & Hne & Hall & Hv).
  exists c, l. rewrite E, app_nil_r. done.
Qed.

Lemma scan_int_digits c l : all_digits (c :: l) → (c = 48 → l = []) → scan_int (c :: l) = Some (c :: l, []).
Proof.
  intros Hall Hz. unfold scan_int. destruct (decide (c = 48)) as [->|]; [by rewrite Hz|].
  rewrite span_digits_all by done. inversion Hall as [|?? Hc]; subst. by rewrite Hc.
Qed.

Lemma digit_not_sign c : is_digit c = true → c ≠ 45.
Proof. intros H%bool_decide_eq_true ->. lia. Qed.

Lemma number_parts_int z : number_parts (py (pretty z)) = Some (py (pretty z), false, []) ∧
  int_of_text (py (pretty z)) = z.
Proof.
  assert (∀ n : N, number_parts (py (pretty n)) = Some (py (pretty n), false, []) ∧
    int_of_text (py (pretty n)) = Z.of_N n ∧
    number_parts (45 :: py (pretty n)) = Some (45 :: py (pretty n), false, []) ∧
    int_of_text (45 :: py (pretty n)) = (- Z.of_N n)%Z) as Hn.
  { intros n. destruct (pretty_N_digits n) as (c & l & -> & Hall & Hv & Hz).
    assert (eat 45 (c :: l) = None) as Hs.
    { unfold eat. inversion Hall as [|?? Hc]; subst. by rewrite decide_False by by apply digit_not_sign. }
    unfold number_parts, int_of_text. rewrite Hs. change (eat 45 (45 :: c :: l)) with (Some (c :: l)).
    cbv beta iota. rewrite scan_int_digits by done. cbn [mbind option_bind].
    change (scan_fraction []) with (@nil N, @nil N). change (scan_exponent []) with (@nil N, @nil N).
    cbn. rewrite app_nil_r. cbn in Hv. by rewrite Hv. }
  destruct z as [|p|p]; [by destruct (Hn 0)| |].
  - by destruct (Hn (Npos p)) as (?&?&_).
  - unfold pretty, pretty_Z. rewrite py_app. by destruct (Hn (Npos p)) as (_&_&?&?).
Qed.

(** ** Values *)

(** The texts of floats, in the language: what [float.__repr__] prints is the text of
    a float for the scanner, and [float] reads it back. *)
Class FloatText := {
  float_repr : Qc → pystr;
  float_of_text : pystr → pyfloat;
  is_float : Qc → Prop;
  float_repr_parts q : is_float q → number_parts (float_repr q) = Some (float_repr q, true, []);
  float_of_repr q : is_float q → float_of_text (float_repr q) = Finite q;
}.

Section jvalue_ind.
Variable P : jvalue → Prop.
Hypothesis Hnull : P VNull.
Hypothesis Hbool : ∀ b, P (VBool b).
Hypothesis Hint : ∀ z, P (VInt z).
Hypothesis Hfloat : ∀ f, P (VFloat f).
Hypothesis Hstr : ∀ s, P (VStr s).
Hypothesis Harr : ∀ l, Forall P l → P (VArr l).
Hypothesis Hobj : ∀ d, Forall (λ kv, P kv.2) d → P (VObj d).
Hypothesis Hother : ∀ n, P (VOther n).
Fixpoint jvalue_ind' (v : jvalue) : P v :=
  match v with
  | VNull => Hnull
  | VBool b => Hbool b
  | VInt z => Hint z
  | VFloat f => Hfloat f
  | VStr s => Hstr s
  | VArr l => Harr l ((fix go l : Forall P l :=
      match l with [] => List.Forall_nil P | x :: l' => List.Forall_cons P x l' (jvalue_ind' x) (go l') end) l)
  | VObj d => Hobj d ((fix go d : Forall (λ kv, P kv.2) d :=
      match d with
      | [] => List.Forall_nil _
      | kv :: d' => List.Forall_cons (λ kv, P kv.2) kv d' (jvalue_ind' kv.2) (go d')
      end) d)
  | VOther n => Hother n
  end.
End jvalue_ind.

Section values.
Context {FT : FloatText}.

(** What [json.dumps] has a text for that means it again. *)
Fixpoint printable (v : jvalue) : Prop :=
  match v with
  | VFloat (Finite q) => is_float q
  | VArr l => foldr (λ v P, printable v ∧ P) True l
  | VObj d => NoDup d.*1 ∧ foldr (λ kv P, printable kv.2 ∧ P) True d
  | VOther _ => False
  | _ => True
  end.

(** The fuel the scanner needs for a value. *)
Fixpoint weight (v : jvalue) : nat :=
  match v with
  | VArr l => S (foldr (λ v n, S (weight v + n)) O l)
  | VObj d => S (foldr (λ kv n, S (weight kv.2 + n)) O d)
  | _ => 1
  end.

Lemma number_head s p :
  number_parts s = Some p →
  (∃ c t, s = c :: t ∧ is_digit c = true) ∨ (∃ c t, s = 45 :: c :: t ∧ is_digit c = true).
Proof.
  assert (∀ s q, scan_int s = Some q → ∃ c t, s = c :: t ∧ is_digit c = true) as Hi.
  { intros s' q. unfold scan_int. destruct s' as [|c t]; [done|].
    case_decide as Hc; [subst; intros; by exists 48, t|]. destruct (is_digit c) eqn:Hd; [|done].
    intros _. by exists c, t. }
  unfold number_parts. destruct (eat 45 s) as [s'|] eqn:He.
  - destruct (scan_int s') as [q|] eqn:Hs; [|done]. destruct (Hi _ _ Hs) as (c & t & -> & Hd).
    intros _. right. exists c, t. split; [|done].
    unfold eat in He. destruct s as [|x s]; [done|]. case_decide; [|done]. by simplify_eq.
  - destruct (scan_int s) as [q|] eqn:Hs; [|done]. intros _. left. by eapply Hi.
Qed.

Lemma digit_bounds c : is_digit c = true → 48 ≤ c ≤ 57.
Proof. apply bool_decide_eq_true. Qed.

Lemma eat_ne c x s : x ≠ c → eat c (x :: s) = None.
Proof. intros. unfold eat. by rewrite decide_False. Qed.

Lemma eat_eq c s : eat c (c :: s) = Some s.
Proof. unfold eat. by rewrite decide_True. Qed.

Lemma scan_atom_number s p :
  number_parts s = Some p → scan_atom float_of_text s = scan_number float_of_text s.
Proof.
  intros Hp. unfold scan_atom, py. cbn.
  destruct (number_head s p Hp) as [(c & t & -> & Hd)|(c & t & -> & Hd)];
    apply digit_bounds in Hd; rewrite !eat_ne by lia; cbn [mbind option_bind]; [done|].
  rewrite !eat_eq. cbn [mbind option_bind]. by rewrite !eat_ne by lia.
Qed.

(** A number read as a value. *)
Lemma scan_value_number n s p r v :
  number_parts s = Some p → stops r → p.2 = [] →
  (if p.1.2 then VFloat (float_of_text p.1.1) else VInt (int_of_text p.1.1)) = v →
  scan_value float_of_text (S n) (s ++ r) = Some (v, r).
Proof.
  intros Hp Hr Hs Hv. destruct p as [[t b] s']. cbn in Hs, Hv. subst s' v.
  assert (s ≠ []) as Hne.
  { intros ->. by destruct (number_head _ _ Hp) as [(?&?&?&_)|(?&?&?&_)]. }
  pose proof (number_parts_app r Hr s t b [] Hne Hp) as Hp'.
  destruct (number_head _ _ Hp') as [(c & u & E & Hd)|(c & u & E & Hd)];
    apply digit_bounds in Hd; pose proof (scan_atom_number _ _ Hp') as Ha; unfold scan_number in Ha;
    rewrite Hp' in Ha; rewrite E in Ha |- *; cbn [scan_value]; rewrite !decide_False by lia; by rewrite Ha.
Qed.

Lemma scan_value_eq n c s :
  scan_value float_of_text (S n) (c :: s) =
    if decide (c = 34) then '(t, r) ← scan_string s; Some (VStr t, r)
    else if decide (c = 91) then
      match eat 93 (skip_ws s) with
      | Some r => Some (VArr [], r)
      | None => '(l, r) ← scan_elements float_of_text n (skip_ws s); Some (VArr l, r)
      end
    else if decide (c = 123) then
      match eat 125 (skip_ws s) with
      | Some r => Some (VObj [], r)
      | None => '(d, r) ← scan_members float_of_text n (skip_ws s); Some (VObj (d_of_list fst snd d), r)
      end
    else scan_atom float_of_text (c :: s).
Proof. done. Qed.

Lemma skip_ws_head c s : is_ws c = false → skip_ws (c :: s) = c :: s.
Proof. intros Hc. cbn. unfold skip_ws. by rewrite Hc. Qed.

Lemma digit_not_ws c : 45 ≤ c ≤ 57 → is_ws c = false.
Proof. intros. apply bool_decide_eq_false. lia. Qed.

(** Where a value begins. *)
Lemma value_text_head v :
  printable v → ∃ c t, value_text float_repr v = c :: t ∧ is_ws c = false ∧ c ≠ 93 ∧ c ≠ 65279.
Proof.
  assert (∀ s p, number_parts s = Some p → ∃ c t, s = c :: t ∧ is_ws c = false ∧ c ≠ 93 ∧ c ≠ 65279) as Hnum.
  { intros s p Hp. destruct (number_head s p Hp) as [(c & t & -> & Hd)|(c & t & -> & Hd)];
      apply digit_bounds in Hd; do 2 eexists; (split; [done|]); rewrite digit_not_ws by lia; lia. }
  destruct v as [|[]|z|[q| | |]|s|l|d|n]; cbn; intros Hv; [..|done]; try (by do 2 eexists; split_and!).
  - apply (Hnum _ _ (proj1 (number_parts_int z))).
  - apply (Hnum _ _ (float_repr_parts q Hv)).
Qed.

Lemma stops_after c s : c ∈ [44; 93; 125] → stops (c :: s).
Proof. rewrite !elem_of_cons. intros Hc. destruct_or! Hc; subst; try done; [..|set_solver]; (split; [done|set_solver]). Qed.

Lemma scan_atom_literal n w v r :
  match w with c :: _ => c ∉ [34; 91; 123] | [] => False end →
  scan_atom float_of_text (w ++ r) = Some (v, r) → scan_value float_of_text (S n) (w ++ r) = Some (v, r).
Proof.
  destruct w as [|c w]; [done|]. intros Hc Ha. cbn [app] in *. rewrite scan_value_eq.
  by rewrite !decide_False by set_solver.
Qed.

Lemma comma_join_cons x l : l ≠ [] → comma_join (x :: l) = x ++ 44 :: comma_join l.
Proof. by destruct l. Qed.

(** The text of a member of an object. *)
Definition member_text (kv : pystr * jvalue) : pystr := json_string kv.1 ++ [58] ++ value_text float_repr kv.2.
Lemma value_text_obj d : value_text float_repr (VObj d) = 123 :: comma_join (map member_text d) ++ [125].
Proof. done. Qed.

Lemma member_text_app kv u :
  member_text kv ++ u = 34 :: concat (json_char <$> kv.1) ++ 34 :: 58 :: value_text float_repr kv.2 ++ u.
Proof. unfold member_text. by rewrite <- !(assoc_L (++)), json_string_app. Qed.

Lemma members_head d u : d ≠ [] → ∃ t, comma_join (map member_text d) ++ u = 34 :: t.
Proof.
  destruct d as [|kv d]; [done|]. intros _. cbn [map]. destruct (map member_text d);
    [cbn [comma_join]|rewrite comma_join_cons, <- (assoc_L (++)) by done]; rewrite member_text_app; by eexists.
Qed.

Lemma foldr_forall {A} (f : A → Prop) (Q : A → Prop) l :
  Forall (λ x, f x → Q x) l → foldr (λ x P, f x ∧ P) True l → Forall Q l.
Proof. induction 1; cbn; [constructor|]. intros [??]. constructor; auto. Qed.

Definition scans (v : jvalue) : Prop := ∀ n r, (weight v ≤ n)%nat → stops r →
  scan_value float_of_text n (value_text float_repr v ++ r) = Some (v, r).

Lemma scan_elements_text l n r :
  l ≠ [] → Forall scans l → foldr (λ v P, printable v ∧ P) True l →
  (foldr (λ v n, S (weight v + n)) O l ≤ n)%nat →
  scan_elements float_of_text n (comma_join (map (value_text float_repr) l) ++ 93 :: r) = Some (l, r).
Proof.
  intros Hne Hall. revert n Hne. induction Hall as [|v l Hv _ IH]; intros n Hne Hps Hn; [done|]. destruct Hps as [Hp Hps].
  cbn [foldr] in Hn. destruct n as [|n]; [lia|]. cbn [map scan_elements]. destruct (decide (l = [])) as [->|Hl].
  - cbn [map comma_join]. rewrite Hv by (try lia; by apply stops_after; set_solver).
    cbn [mbind option_bind]. by rewrite skip_ws_head, eat_eq by done.
  - rewrite comma_join_cons by (by destruct l). rewrite <- (assoc_L (++)). cbn [app].
    rewrite Hv by (try lia; by apply stops_after; set_solver).
    cbn [mbind option_bind]. rewrite skip_ws_head, eat_ne, eat_eq by done.
    destruct l as [|v' l]; [done|]. destruct (value_text_head v' (proj1 Hps)) as (c & t & E & Hw & _).
    assert (∃ t', comma_join (map (value_text float_repr) (v' :: l)) ++ 93 :: r = c :: t') as [t' Et].
    { cbn [map]. destruct l; cbn [map comma_join]; rewrite E; by eexists. }
    rewrite Et, skip_ws_head, <- Et by done. rewrite IH by (done || lia). done.
Qed.

Lemma scan_members_text d n r :
  d ≠ [] → Forall (λ kv, scans kv.2) d → foldr (λ kv P, printable kv.2 ∧ P) True d →
  (foldr (λ kv n, S (weight kv.2 + n)) O d ≤ n)%nat →
  scan_members float_of_text n
    (comma_join (map member_text d) ++ 125 :: r) = Some (d, r).
Proof.
  intros Hne Hall. revert n Hne. induction Hall as [|[k v] d Hv _ IH]; intros n Hne Hps Hn; [done|]. destruct Hps as [Hp Hps].
  cbn [foldr snd] in Hn, Hv, Hp. destruct n as [|n]; [lia|].
  assert (∃ u, comma_join (map member_text ((k, v) :: d)) ++ 125 :: r = member_text (k, v) ++ u ∧
    (d = [] ∧ u = 125 :: r ∨ d ≠ [] ∧ u = 44 :: comma_join (map member_text d) ++ 125 :: r)) as (u & -> & Hu).
  { destruct d as [|kv d]; [by exists (125 :: r); split; [|left]|].
    eexists. split; [|right; split; [done|reflexivity]]. cbn [map]. rewrite comma_join_cons by done.
    by rewrite <- (assoc_L (++)). }
  rewrite member_text_app. cbn [scan_members fst snd]. rewrite eat_eq. cbn [mbind option_bind].
  rewrite scan_json_string. cbn [mbind option_bind app]. rewrite skip_ws_head, eat_eq by done.
  cbn [mbind option_bind].
  assert (skip_ws (value_text float_repr v ++ u) = value_text float_repr v ++ u) as ->.
  { destruct (value_text_head v Hp) as (c & t & -> & Hw & _). by apply skip_ws_head. }
  rewrite Hv by (try lia; destruct Hu as [[_ ->]|[_ ->]]; by apply stops_after; set_solver).
  cbn [mbind option_bind]. destruct Hu as [[-> ->]|[Hd ->]].
  - by rewrite skip_ws_head, eat_eq by done.
  - rewrite skip_ws_head, eat_ne, eat_eq by done.
    destruct (members_head d (125 :: r) Hd) as [t Et].
    rewrite Et, skip_ws_head, <- Et by done. by rewrite IH by (done || lia).
Qed.

Lemma scan_value_text v : printable v → scans v.
Proof.
  induction v as [|b|z|f|s|l IH|d IH|k] using jvalue_ind'; intros Hp n r Hn Hr; try rewrite value_text_obj; cbn [value_text];
    (destruct n as [|n]; [cbn in Hn; lia|]).
  - by apply scan_atom_literal; [set_solver|].
  - destruct b; (apply scan_atom_literal; [set_solver|done]).
  - destruct (number_parts_int z) as [H1 H2]. by apply (scan_value_number _ _ _ _ _ H1); [..|cbn; rewrite H2].
  - destruct f as [q| | |]; try (apply scan_atom_literal; [set_solver|done]).
    apply (scan_value_number _ _ _ _ _ (float_repr_parts q Hp)); [done..|]. cbn. by rewrite float_of_repr.
  - rewrite json_string_app, scan_value_eq, decide_True by done. by rewrite scan_json_string.
  - cbn [app]. rewrite scan_value_eq, decide_False, decide_True by done. rewrite <- (assoc_L (++)). cbn [app].
    destruct l as [|v l]; [cbn [map comma_join app]; by rewrite skip_ws_head, eat_eq by done|].
    destruct (value_text_head v (proj1 Hp)) as (c & t & E & Hw & Hc & _).
    assert (∃ t', comma_join (map (value_text float_repr) (v :: l)) ++ 93 :: r = c :: t') as [t' Et].
    { cbn [map]. destruct l; cbn [map comma_join]; rewrite E; by eexists. }
    rewrite Et, skip_ws_head, eat_ne, <- Et by done. cbn in Hn, Hp.
    rewrite scan_elements_text; [done|done| |done|cbn; lia].
    apply (foldr_forall _ _ _ IH). by cbn.
  - destruct Hp as [Hnd Hp]. cbn [app].
    rewrite scan_value_eq, decide_False, decide_False, decide_True by done.
    rewrite <- (assoc_L (++)). cbn [app].
    destruct d as [|kv d]; [cbn [map comma_join app]; by rewrite skip_ws_head, eat_eq by done|].
    destruct (members_head (kv :: d) (125 :: r) ltac:(done)) as [t Et].
    rewrite Et, skip_ws_head, eat_ne, <- Et by done. cbn in Hn.
    rewrite scan_members_text; [|done| |done|cbn; lia].
    + cbn [mbind option_bind]. do 2 f_equal. rewrite d_of_list_distinct by done.
      f_equal. etrans; [|apply list_fmap_id]. apply list_fmap_ext. by intros ? [].
    + apply (foldr_forall _ _ _ IH). by cbn.
  - done.
Qed.

Lemma comma_join_length (l : list pystr) : (foldr (λ s n, length s + n) 0 l ≤ length (comma_join l))%nat.
Proof.
  induction l as [|s l IH]; [done|]. cbn [foldr]. destruct l as [|s' l]; [cbn; lia|].
  rewrite comma_join_cons by done. rewrite length_app. cbn [length]. lia.
Qed.

(** The texts of the parts bound the fuel of the whole. *)
Lemma parts_length {A} (f : A → pystr) (w : A → nat) (l : list A) :
  Forall (λ x, w x < 2 * length (f x))%nat l →
  (foldr (λ x n, S (w x + n)) O l ≤ 2 * length (comma_join (map f l)))%nat.
Proof.
  intros Hl. pose proof (comma_join_length (map f l)) as Hj. revert Hj.
  enough (foldr (λ x n, S (w x + n)) O l ≤ 2 * foldr (λ s n, length s + n) 0 (map f l))%nat by lia.
  induction Hl as [|x l Hx _ IH]; cbn; lia.
Qed.

Lemma weight_lt v : printable v → (weight v < 2 * length (value_text float_repr v))%nat.
Proof.
  assert (∀ s p, number_parts s = Some p → (0 < length s)%nat) as Hnum.
  { intros s p Hp. destruct (number_head s p Hp) as [(c & t & -> & _)|(c & t & -> & _)]; cbn; lia. }
  induction v as [|b|z|f|s|l IH|d IH|k] using jvalue_ind'; intros Hp; cbn [value_text weight]; [..|done].
  - cbn. lia.
  - destruct b; cbn; lia.
  - pose proof (Hnum _ _ (proj1 (number_parts_int z))). lia.
  - destruct f as [q| | |]; [|cbn; lia..]. pose proof (Hnum _ _ (float_repr_parts q Hp)). cbn. lia.
  - unfold json_string. cbn. lia.
  - rewrite !length_app. cbn [length].
    assert (Forall (λ v, weight v < 2 * length (value_text float_repr v))%nat l) as Hl
      by (apply (foldr_forall _ _ _ IH); exact Hp).
    pose proof (parts_length (value_text float_repr) weight l Hl). lia.
  - change (weight (VObj d) < 2 * length (value_text float_repr (VObj d)))%nat. rewrite value_text_obj. cbn [length weight].
    rewrite !length_app. cbn [length].
    assert (Forall (λ kv, weight kv.2 < 2 * length (member_text kv))%nat d) as Hd.
    { assert (Forall (λ kv, weight kv.2 < 2 * length (value_text float_repr kv.2))%nat d) as Hd
        by (apply (foldr_forall _ _ _ IH); exact (proj2 Hp)).
      eapply Forall_impl; [exact Hd|]. intros kv H. cbn beta in H. unfold member_text. rewrite !length_app. cbn [length] in *. lia. }
    pose proof (parts_length member_text (λ kv, weight kv.2) d Hd). cbn beta in *. lia.
Qed.

(** [json.loads] reads back what [json.dumps] printed. *)
Lemma loads_value_text v : printable v → loads float_of_text (value_text float_repr v) = Ok v.
Proof.
  intros Hp. unfold loads. destruct (value_text_head v Hp) as (c & t & E & Hw & _ & Hbom).
  pose proof (weight_lt v Hp) as Hwt.
  pose proof (scan_value_text v Hp (2 * length (value_text float_repr v))%nat [] (Nat.lt_le_incl _ _ Hwt) I) as Hs.
  rewrite app_nil_r in Hs. rewrite E in Hs |- *. rewrite decide_False by done. cbn [mbind option_bind].
  by rewrite (skip_ws_head c t Hw), Hs.
Qed.
End values.

Example loads_document :
  loads (λ _, NaN) (py "{" ++ json_string (py "a") ++ py " : [1, -20, true, null , " ++ [34]
    ++ py "\u0041\ud83d\ude00" ++ [34] ++ py " ], " ++ json_string (py "b") ++ py ":{} }")
  = Ok (VObj [(py "a", VArr [VInt 1; VInt (-20); VBool true; VNull; VStr [65; 128512]]); (py "b", VObj [])]).
Proof. vm_compute. reflexivity. Qed.
