(* ===== verification/Sql.v ===== *)
(** The [sqlite3] module of the language as the store uses it: tables of rows, the
    statements of the store as functions of a database, and a connection with
    its transaction.

    A parameter that is bound to a statement is encoded before the statement runs: a
    text with a lone surrogate and an integer of more than 64 bits are refused.
    An [INSERT] with an [ON CONFLICT] clause looks at the columns of the clause
    before the other keys.  The order in which SQLite finds the rows of a table is not
    promised, and is an argument here.  No [UPDATE] of the store changes a column of
    a key, so that one only checks [NOT NULL]; foreign keys are not enforced by
    default, and the store deletes no submission.  Then the tables of the store. *)

From S2P Require Export PyText.
From stdpp Require Import list sorting functions.
#[local] Open Scope Z_scope.
#[local] Open Scope stdpp_scope.

(** * Values and rows *)

(** The storage classes the store writes. *)
Inductive sqlvalue : Type :=
| SNull
| SInt (z : Z)
| SText (s : pystr).
#[export] Instance sqlvalue_eq_dec : EqDecision sqlvalue.
Proof. solve_decision. Defined.

(** [x] as a parameter, for a text that may be [None]. *)
Definition opt_text (x : option pystr) : sqlvalue :=
  match x with Some s => SText s | None => SNull end.

(** Binding a parameter. *)
Definition bind (v : sqlvalue) : res unit :=
  match v with
  | SNull => Ok ()
  | SInt z => raise_if (¬ (- 2 ^ 63 ≤ z < 2 ^ 63)) OverflowError
  | SText s => _ ← utf8 s; Ok ()
  end.

(** A row: its columns, as [sqlite3.Row] names them. *)
Abbreviation row := (list (string * sqlvalue)).
Fixpoint column (r : row) (c : string) : sqlvalue :=
  match r with
  | [] => SNull
  | (c', v) :: r' => if String.eqb c' c then v else column r' c
  end.
(** The row of the columns and the values of an [INSERT]. *)
Definition make_row (columns : list string) (values : list sqlvalue) : row := zip columns values.
(** [SET c = v, ...] *)
Fixpoint set_column (r : row) (c : string) (v : sqlvalue) : row :=
  match r with
  | [] => []
  | (c', v') :: r' => if String.eqb c' c then (c', v) :: r' else (c', v') :: set_column r' c v
  end.
Definition set_columns (r : row) (l : list (string * sqlvalue)) : row :=
  foldl (λ r cv, set_column r cv.1 cv.2) r l.

(** [a = b], which is never true of a null, and [a IS b]. *)
Definition sql_eq (a b : sqlvalue) : Prop := a ≠ SNull ∧ a = b.
#[export] Instance sql_eq_dec a b : Decision (sql_eq a b).
Proof. unfold sql_eq. apply _. Defined.
(** [a < b] *)
Definition sql_lt (a b : sqlvalue) : Prop :=
  match a, b with
  | SInt x, SInt y => x < y
  | SInt _, SText _ => True
  | SText s, SText t => str_le t s = false
  | _, _ => False
  end.
#[export] Instance sql_lt_dec a b : Decision (sql_lt a b).
Proof. destruct a, b; cbn; apply _. Defined.
(** [a] before [b] or beside it, for [ORDER BY]. *)
Definition sql_le (a b : sqlvalue) : Prop :=
  match a, b with
  | SNull, _ => True
  | SInt x, SInt y => x ≤ y
  | SInt _, SText _ => True
  | SText s, SText t => str_le s t = true
  | _, _ => False
  end.
#[export] Instance sql_le_dec a b : Decision (sql_le a b).
Proof. destruct a, b; cbn; apply _. Defined.

(** [a = ? AND b = ? ...] *)
Definition where_eq (l : list (string * sqlvalue)) (r : row) : Prop :=
  Forall (λ cv, sql_eq (column r cv.1) cv.2) l.
#[export] Instance where_eq_dec l r : Decision (where_eq l r).
Proof. unfold where_eq. apply _. Defined.

(** [ORDER BY c, ...] *)
Fixpoint row_le (cs : list string) (a b : row) : Prop :=
  match cs with
  | [] => True
  | c :: cs' => if decide (column a c = column b c) then row_le cs' a b else sql_le (column a c) (column b c)
  end.
#[export] Instance row_le_dec cs a b : Decision (row_le cs a b).
Proof. induction cs as [|c cs IH]; cbn; [apply _|]. case_decide; apply _. Defined.

(** * Tables *)

Abbreviation table := (list row).

(** What [CREATE TABLE] declares. *)
Record schema := {
  sc_columns : list string;
  sc_not_null : list string;
  sc_keys : list (list string);   (* the primary key and the unique constraints *)
  sc_check : row → bool;
}.

(** Two rows have the same value of a key. *)
Definition same_key (key : list string) (a b : row) : Prop :=
  Forall (λ c, sql_eq (column a c) (column b c)) key.
#[export] Instance same_key_dec key a b : Decision (same_key key a b).
Proof. unfold same_key. apply _. Defined.

Definition row_fits (sch : schema) (r : row) : bool :=
  forallb (λ c, bool_decide (column r c ≠ SNull)) (sc_not_null sch) && sc_check sch r.

(** [INSERT INTO t (...) VALUES (...)] *)
Definition insert_row (sch : schema) (r : row) (t : table) : res table :=
  raise_if (row_fits sch r = false) IntegrityError ;;
  raise_if (Exists (λ key, Exists (same_key key r) t) (sc_keys sch)) IntegrityError ;;
  Ok (t ++ [r]).

(** [... ON CONFLICT (target) DO UPDATE SET c = excluded.c, ...]; [DO NOTHING] sets
    nothing. *)
Definition upsert_row (sch : schema) (target set : list string) (r : row) (t : table) : res table :=
  raise_if (row_fits sch r = false) IntegrityError ;;
  if decide (Exists (same_key target r) t) then
    Ok ((λ r', if decide (same_key target r r') then set_columns r' ((λ c, (c, column r c)) <$> set) else r') <$> t)
  else insert_row sch r t.

(** [UPDATE t SET ... WHERE p], with the number of its rows. *)
Definition update_rows (sch : schema) (set : list (string * sqlvalue)) (p : row → Prop) `{∀ r, Decision (p r)}
    (t : table) : res (table * Z) :=
  let t' := (λ r, if decide (p r) then set_columns r set else r) <$> t in
  raise_if (forallb (row_fits sch) t' = false) IntegrityError ;;
  Ok (t', len (filter p t)).

(** [DELETE FROM t WHERE p], with the number of its rows. *)
Definition delete_rows (p : row → Prop) `{∀ r, Decision (p r)} (t : table) : table * Z :=
  (filter (λ r, ¬ p r) t, len (filter p t)).

(** The rows a [SELECT] without an order finds. *)
Class ScanOrder := {
  scan : table → table;
  scan_perm t : scan t ≡ₚ t;
}.

(** [SELECT * FROM t WHERE p ORDER BY c, ...] *)
Definition select_rows `{ScanOrder} (order : list string) (p : row → Prop) `{∀ r, Decision (p r)} (t : table) : table :=
  merge_sort (row_le order) (scan (filter p t)).

(** * The connection *)

(** Outside of a transaction a connection sees the database as it is committed; inside
    it also has its own. *)
Inductive connection (D : Type) : Type :=
| Idle (committed : D)
| InTransaction (committed working : D).
Arguments Idle {D}.
Arguments InTransaction {D}.

Section connection.
Context {D : Type}.

Definition cn_committed (c : connection D) : D := match c with Idle d | InTransaction d _ => d end.
Definition cn_working (c : connection D) : D := match c with Idle d | InTransaction _ d => d end.

(** [BEGIN IMMEDIATE] *)
Definition begin_immediate : M (connection D) unit := λ c,
  match c with Idle d => (Ok (), InTransaction d d) | InTransaction _ _ => (Err OperationalError, c) end.
(** [connection.commit()] and [connection.rollback()] *)
Definition commit : M (connection D) unit := modify (λ c, Idle (cn_working c)).
Definition rollback : M (connection D) unit := modify (λ c, Idle (cn_committed c)).

(** A [SELECT], and statements that write: those are run inside a transaction, which
    begins by itself otherwise. *)
Definition query {A} (m : M D A) : M (connection D) A := λ c, ((m (cn_working c)).1, c).
Definition execute {A} (m : M D A) : M (connection D) A := λ c,
  let '(r, d) := m (cn_working c) in (r, InTransaction (cn_committed c) d).

(** [except BaseException: rollback(); raise] *)
Definition or_rollback {A} (m : M (connection D) A) : M (connection D) A :=
  r ← mcatch m;
  match r with Ok a => mret a | Err e => rollback ;; mraise e end.
End connection.

(** The tables of [gateway/persistence/sqlite.py], as [CREATE TABLE] declares them,
    and the database of one store. *)
#[local] Open Scope string_scope.
#[local] Open Scope list_scope.

(** The tables of a store. *)
Inductive table_name : Type :=
| conversation_bindings
| conversation_binding_generations
| idempotency_records
| thread_projection_routes
| queued_input_correlations
| turn_reply_correlations
| request_route_correlations
| delivery_submissions
| delivery_submission_destinations.
#[export] Instance table_name_eq_dec : EqDecision table_name.
Proof. solve_decision. Defined.

Definition no_check (_ : row) : bool := true.

(** [gateway/persistence/sqlite.py:138-147] SQLiteGatewayState.__init__: the table conversation_bindings *)
Definition conversation_bindings_schema : schema := {|
  sc_columns := ["channel_instance_id"; "native_conversation_id"; "application_instance_id"; "project_id";
    "thread_id"; "generation"; "updated_at"];
  sc_not_null := ["channel_instance_id"; "native_conversation_id"; "generation"; "updated_at"];
  sc_keys := [["channel_instance_id"; "native_conversation_id"]];
  sc_check := no_check |}.

(** [gateway/persistence/sqlite.py:148-153] SQLiteGatewayState.__init__: the table conversation_binding_generations *)
Definition conversation_binding_generations_schema : schema := {|
  sc_columns := ["channel_instance_id"; "native_conversation_id"; "generation"];
  sc_not_null := ["channel_instance_id"; "native_conversation_id"; "generation"];
  sc_keys := [["channel_instance_id"; "native_conversation_id"]];
  sc_check := no_check |}.

(** [gateway/persistence/sqlite.py:154-161] SQLiteGatewayState.__init__: the table idempotency_records *)
Definition idempotency_records_schema : schema := {|
  sc_columns := ["scope"; "record_key"; "status"; "owner_token"; "updated_at"];
  sc_not_null := ["scope"; "record_key"; "status"; "updated_at"];
  sc_keys := [["scope"; "record_key"]];
  sc_check := no_check |}.

(** [gateway/persistence/sqlite.py:162-180] SQLiteGatewayState.__init__: the table thread_projection_routes *)
Definition thread_projection_routes_schema : schema := {|
  sc_columns := ["route_id"; "application_instance_id"; "project_id"; "thread_id"; "channel_instance_id";
    "native_conversation_id"; "reply_to_message_id"; "checkpoint_agent_item_id"; "checkpointed_at"; "updated_at"];
  sc_not_null := ["route_id"; "application_instance_id"; "project_id"; "thread_id"; "channel_instance_id";
    "native_conversation_id"; "updated_at"];
  sc_keys := [["route_id"];
    ["application_instance_id"; "project_id"; "thread_id"; "channel_instance_id"; "native_conversation_id"]];
  sc_check := no_check |}.

(** A column that holds one of some texts, which a null passes. *)
Definition is_null (v : sqlvalue) : bool := bool_decide (v = SNull).
Definition text_in (v : sqlvalue) (l : list string) : bool := bool_decide (v ∈ (λ s, SText (py s)) <$> l).

(** [gateway/persistence/sqlite.py:181-203] SQLiteGatewayState.__init__: the table queued_input_correlations *)
Definition queued_input_correlations_schema : schema := {|
  sc_columns := ["channel_instance_id"; "native_conversation_id"; "message_id"; "actor_fingerprint";
    "application_instance_id"; "project_id"; "thread_id"; "binding_generation"; "client_message_id";
    "input_fingerprint"; "continuation"; "receipt_state"; "queued_item_id"; "turn_id"; "created_at"; "updated_at"];
  sc_not_null := ["channel_instance_id"; "native_conversation_id"; "message_id"; "actor_fingerprint";
    "application_instance_id"; "project_id"; "thread_id"; "binding_generation"; "client_message_id";
    "input_fingerprint"; "continuation"; "created_at"; "updated_at"];
  sc_keys := [["channel_instance_id"; "native_conversation_id"; "message_id"]];
  sc_check r :=
    let state := column r "receipt_state" in let item := column r "queued_item_id" in
    let turn := column r "turn_id" in
    text_in (column r "continuation") ["queue"]
    && (is_null state || text_in state ["queued"; "admitted"; "cancelled"])
    && ((is_null state && is_null item && is_null turn)
        || (negb (is_null state) && negb (is_null item)
            && ((text_in state ["admitted"] && negb (is_null turn))
                || (text_in state ["queued"; "cancelled"] && is_null turn)))) |}.

(** [gateway/persistence/sqlite.py:206-223] SQLiteGatewayState.__init__: the table turn_reply_correlations *)
Definition turn_reply_correlations_schema : schema := {|
  sc_columns := ["correlation_id"; "application_instance_id"; "project_id"; "thread_id"; "turn_id";
    "client_message_id"; "channel_instance_id"; "native_conversation_id"; "reply_to_message_id"; "created_at"];
  sc_not_null := ["correlation_id"; "application_instance_id"; "project_id"; "thread_id"; "turn_id";
    "client_message_id"; "channel_instance_id"; "native_conversation_id"; "reply_to_message_id"; "created_at"];
  sc_keys := [["correlation_id"]; ["application_instance_id"; "project_id"; "thread_id"; "turn_id"]];
  sc_check := no_check |}.

(** [gateway/persistence/sqlite.py:1279-1300] initialize_request_correlation_schema: the table request_route_correlations *)
Definition request_route_correlations_schema : schema := {|
  sc_columns := ["correlation_id"; "application_instance_id"; "native_request_id"; "project_id"; "thread_id";
    "turn_id"; "channel_instance_id"; "native_conversation_id"; "delivery_id"; "response_shape_json"; "state";
    "created_at"; "updated_at"; "expires_at"];
  sc_not_null := ["correlation_id"; "application_instance_id"; "native_request_id"; "project_id"; "thread_id";
    "turn_id"; "channel_instance_id"; "native_conversation_id"; "delivery_id"; "response_shape_json"; "state";
    "created_at"; "updated_at"];
  sc_keys := [["correlation_id"];
    ["application_instance_id"; "native_request_id"; "channel_instance_id"; "native_conversation_id"]];
  sc_check := no_check |}.

(** [gateway/persistence/sqlite.py:1313-1322] initialize_delivery_submission_schema: the table delivery_submissions *)
Definition delivery_submissions_schema : schema := {|
  sc_columns := ["submission_id"; "delivery_id"; "origin"; "principal_id"; "target_fingerprint";
    "payload_fingerprint"; "created_at"; "updated_at"];
  sc_not_null := ["submission_id"; "delivery_id"; "origin"; "principal_id"; "target_fingerprint";
    "payload_fingerprint"; "created_at"; "updated_at"];
  sc_keys := [["submission_id"]];
  sc_check := no_check |}.

(** [gateway/persistence/sqlite.py:1323-1346] initialize_delivery_submission_schema: the table delivery_submission_destinations *)
Definition delivery_submission_destinations_schema : schema := {|
  sc_columns := ["root_submission_id"; "destination_delivery_id"; "channel_instance_id"; "native_conversation_id";
    "application_instance_id"; "project_id"; "thread_id"; "route_id"; "route_updated_at"; "reply_to_message_id";
    "state"; "receipt_json"; "error"; "updated_at"];
  sc_not_null := ["root_submission_id"; "destination_delivery_id"; "channel_instance_id"; "native_conversation_id";
    "application_instance_id"; "project_id"; "thread_id"; "route_id"; "state"; "updated_at"];
  sc_keys := [["destination_delivery_id"];
    ["root_submission_id"; "channel_instance_id"; "native_conversation_id"]];
  sc_check := no_check |}.

Definition schema_of (name : table_name) : schema :=
  match name with
  | conversation_bindings => conversation_bindings_schema
  | conversation_binding_generations => conversation_binding_generations_schema
  | idempotency_records => idempotency_records_schema
  | thread_projection_routes => thread_projection_routes_schema
  | queued_input_correlations => queued_input_correlations_schema
  | turn_reply_correlations => turn_reply_correlations_schema
  | request_route_correlations => request_route_correlations_schema
  | delivery_submissions => delivery_submissions_schema
  | delivery_submission_destinations => delivery_submission_destinations_schema
  end.

(** A database: its tables.  A new one has no rows. *)
Record database := { db_table : table_name → table }.
Definition new_database : database := {| db_table _ := [] |}.
Definition set_table (name : table_name) (t : table) (d : database) : database :=
  {| db_table n := if decide (n = name) then t else db_table d n |}.

(** * Statements *)

Definition bind_all (values : list sqlvalue) : res unit := for_each values bind.

Section statements.
Context `{ScanOrder}.

(** [SELECT * FROM name WHERE p ORDER BY order], with the parameters of [p]. *)
Definition sql_select (name : table_name) (order : list string) (parameters : list sqlvalue)
    (p : row → Prop) `{∀ r, Decision (p r)} : M database (list row) :=
  lift (bind_all parameters) ;;
  d ← get_st;
  mret (select_rows order p (db_table d name)).
(** [.fetchone()] of it. *)
Definition sql_select_one (name : table_name) (parameters : list sqlvalue)
    (p : row → Prop) `{∀ r, Decision (p r)} : M database (option row) :=
  rows ← sql_select name [] parameters p;
  mret (head rows).

(** [INSERT INTO name (...) VALUES (...)], with its clause. *)
Inductive on_conflict : Type :=
| OrFail
| DoUpdate (target set : list string).

Definition sql_insert (name : table_name) (values : list sqlvalue) (clause : on_conflict) : M database unit :=
  lift (bind_all values) ;;
  d ← get_st;
  let sch := schema_of name in
  let r := make_row (sc_columns sch) values in
  t ← lift (match clause with
            | OrFail => insert_row sch r (db_table d name)
            | DoUpdate target set => upsert_row sch target set r (db_table d name)
            end);
  modify (set_table name t).

(** [UPDATE name SET ... WHERE p] and [DELETE FROM name WHERE p]: [cursor.rowcount]. *)
Definition sql_update (name : table_name) (set : list (string * sqlvalue)) (parameters : list sqlvalue)
    (p : row → Prop) `{∀ r, Decision (p r)} : M database Z :=
  lift (bind_all ((set.*2) ++ parameters)) ;;
  d ← get_st;
  '(t, n) ← lift (update_rows (schema_of name) set p (db_table d name));
  modify (set_table name t) ;;
  mret n.
Definition sql_delete (name : table_name) (parameters : list sqlvalue)
    (p : row → Prop) `{∀ r, Decision (p r)} : M database Z :=
  lift (bind_all parameters) ;;
  d ← get_st;
  let '(t, n) := delete_rows p (db_table d name) in
  modify (set_table name t) ;;
  mret n.
End statements.
