(* ===== verification/TextSplit.v ===== *)
(** The splitting of long texts into chunks a channel accepts, of
    [gateway/delivery/planning.py]: lengths in code points, UTF-16 code units or
    UTF-8 bytes, the binary search for the longest prefix within a limit, and
    the cuts at paragraph, line and word boundaries.  No text is lost, every
    chunk fits, and the loop ends. *)

From S2P Require Export PyText.
From stdpp Require Import list.
#[local] Open Scope Z_scope.
#[local] Open Scope stdpp_scope.

(** * The Python the code uses *)

(** The two or four bytes of a character in UTF-16: surrogates are refused. *)
Definition utf16_char (c : N) : res (list N) :=
  if decide (55296 ≤ c ∧ c < 57344)%N then Err UnicodeEncodeError
  else if decide (c < 65536)%N then Ok [c mod 256; c / 256]%N
  else if decide (c < 1114112)%N then
    let high := (55296 + (c - 65536) / 1024)%N in
    let low := (56320 + (c - 65536) mod 1024)%N in
    Ok [high mod 256; high / 256; low mod 256; low / 256]%N
  else Err UnicodeEncodeError.

(** [s.encode("utf-16-le")]. *)
Fixpoint utf16_le (s : pystr) : res (list N) :=
  match s with
  | [] => Ok []
  | c :: s' => b ← utf16_char c ; bs ← utf16_le s' ; Ok (b ++ bs)
  end.

(** [s.rfind(sub, start)]: the last position from [start] on, or -1. *)
Definition rfind (s sub : pystr) (start : nat) : Z :=
  default (-1) (Z.of_nat <$> last (filter (λ i, take (length sub) (drop i s) = sub)
    (seq start (S (length s) - start)))).

Lemma raise_if_true P `{Decision P} e : P → (raise_if P e : res unit) = Err e.
Proof. intros HP. by apply raise_if_err. Qed.
Lemma raise_if_false P `{Decision P} e : ¬ P → (raise_if P e : res unit) = Ok ().
Proof. intros HP. by apply raise_if_ok. Qed.

(** * Translation *)

(** [interaction/messages.py:20-23] TextLengthUnit *)
Inductive TextLengthUnit : Type := CODE_POINTS | UTF16_CODE_UNITS | UTF8_BYTES.
#[export] Instance TextLengthUnit_eq_dec : EqDecision TextLengthUnit.
Proof. solve_decision. Defined.

(** [gateway/delivery/planning.py:398-405] _text_length *)
Definition _text_length (text : pystr) (unit : TextLengthUnit) : res Z :=
  match unit with
  | CODE_POINTS => Ok (len text)
  | UTF16_CODE_UNITS => b ← utf16_le text ; Ok (len b / 2)
  | UTF8_BYTES => b ← utf8 text ; Ok (len b)
  end.

(** [gateway/delivery/planning.py:413-421] _prefix_within_limit: the loop.  The
    interval shrinks at every turn, so its length is enough fuel. *)
Fixpoint prefix_loop (fuel : nat) (text : pystr) (limit : Z) (unit : TextLengthUnit)
    (low high : nat) : res nat :=
  match fuel with
  | O => Ok low
  | S fuel' =>
      if decide (low < high)%nat then
        let midpoint := ((low + high + 1) / 2)%nat in
        n ← _text_length (take midpoint text) unit ;
        if decide (n ≤ limit) then prefix_loop fuel' text limit unit midpoint high
        else prefix_loop fuel' text limit unit low (midpoint - 1)
      else Ok low
  end.

(** [gateway/delivery/planning.py:408-421] _prefix_within_limit *)
Definition _prefix_within_limit (text : pystr) (limit : Z) (unit : TextLengthUnit) : res nat :=
  prefix_loop (length text) text limit unit 0 (length text).

(** [if max_chunks is not None and len(chunks) >= max_chunks: raise ...]. *)
Definition raise_at_limit (limit : option Z) (n : Z) : res unit :=
  when_some limit (λ m, raise_if (m ≤ n) DeliveryPlanningError).

(** [gateway/delivery/planning.py:218-226] split_text: where to cut *)
Definition break_position (remaining : pystr) (hard_end : nat) : nat :=
  let minimum_soft_break := Nat.max 1 (hard_end / 4) in
  let window := take hard_end remaining in
  let break_at := Z.max (Z.max (rfind window [10; 10]%N minimum_soft_break)
                               (rfind window [10]%N minimum_soft_break))
                        (rfind window [32]%N minimum_soft_break) in
  if decide (break_at < Z.of_nat minimum_soft_break) then hard_end else Z.to_nat break_at.

(** [gateway/delivery/planning.py:212-237] split_text: the loop.  Every turn
    takes a character, so the length of the text is enough fuel. *)
Fixpoint split_loop (fuel : nat) (limit : Z) (unit : TextLengthUnit) (max_chunks : option Z)
    (chunks : list pystr) (remaining : pystr) : res (list pystr) :=
  n ← _text_length remaining unit ;
  if decide (limit < n) then
    raise_at_limit max_chunks (len chunks) ;;
    hard_end ← _prefix_within_limit remaining limit unit ;
    raise_if (hard_end < 1)%nat DeliveryPlanningError ;;
    let break_at := break_position remaining hard_end in
    let chunk := rstrip (take break_at remaining) in
    let '(chunk, break_at) :=
      if decide (chunk = []) then (take hard_end remaining, hard_end) else (chunk, break_at) in
    match fuel with
    | O => Err RecursionError
    | S fuel' =>
        split_loop fuel' limit unit max_chunks (chunks ++ [chunk]) (lstrip (drop break_at remaining))
    end
  else if decide (remaining = []) then Ok chunks
  else raise_at_limit max_chunks (len chunks) ;; Ok (chunks ++ [remaining]).

(** [gateway/delivery/planning.py:195-237] split_text *)
Definition split_text (text : pystr) (limit : Z) (unit : TextLengthUnit) (max_chunks : option Z)
    : res (list pystr) :=
  raise_if (limit < 1) DeliveryPlanningError ;;
  when_some max_chunks (λ m, raise_if (m < 1) DeliveryPlanningError) ;;
  let remaining := strip text in
  raise_if (remaining = []) DeliveryPlanningError ;;
  split_loop (length remaining) limit unit max_chunks [] remaining.

(** * Lengths *)

(** What one character counts. *)
Definition char_length (c : N) (unit : TextLengthUnit) : res Z := _text_length [c] unit.

Lemma utf16_char_length c b : utf16_char c = Ok b → len b = 2 ∨ len b = 4.
Proof. unfold utf16_char. repeat case_decide; intros [= <-]; auto. Qed.
Lemma utf16_length s b : utf16_le s = Ok b → ∃ n, len b = 2 * n.
Proof.
  revert b. induction s as [|c s IH]; cbn; intros b; [intros [= <-]; by exists 0|].
  intros H. apply res_bind_ok in H as (b1 & Hb1 & H). apply res_bind_ok in H as (bs & Hbs & [= <-]).
  destruct (IH _ Hbs) as [n Hn]. unfold len in *. rewrite length_app.
  destruct (utf16_char_length c b1 Hb1) as [H|H]; unfold len in H; [exists (n + 1)|exists (n + 2)]; lia.
Qed.

(** A text counts what its characters count. *)
Lemma text_length_cons c s unit :
  _text_length (c :: s) unit
    = (n ← char_length c unit ; m ← _text_length s unit ; Ok (n + m)).
Proof.
  unfold char_length, _text_length. destruct unit; cbn [utf16_le utf8].
  - unfold len. cbn. f_equal. lia.
  - destruct (utf16_char c) as [b|] eqn:Hb; [|done]. cbn.
    destruct (utf16_le s) as [bs|] eqn:Hbs; [|done]. cbn. f_equal. unfold len.
    rewrite app_nil_r, length_app. destruct (utf16_length s bs Hbs) as [n Hn]. unfold len in Hn.
    rewrite Nat2Z.inj_add, Hn. rewrite (Z.mul_comm 2 n), Z.div_add, Z.div_mul by lia. done.
  - destruct (utf8_char c) as [b|]; [|done]. cbn. destruct (utf8 s) as [bs|]; [|done]. cbn.
    unfold len. rewrite app_nil_r, length_app. f_equal. lia.
Qed.

Lemma char_length_pos c unit n : char_length c unit = Ok n → 1 ≤ n.
Proof.
  unfold char_length, _text_length. destruct unit; cbn.
  - by intros [= <-].
  - destruct (utf16_char c) as [b|] eqn:Hb; [|done]. cbn. rewrite app_nil_r. intros [= <-].
    by destruct (utf16_char_length c b Hb) as [-> | ->].
  - destruct (utf8_char c) as [b|] eqn:Hb; [|done]. cbn. rewrite app_nil_r. intros [= <-].
    destruct (utf8_char_cons c b Hb) as (x & l & ->). unfold len. cbn. lia.
Qed.

Lemma text_length_nil unit : _text_length [] unit = Ok 0.
Proof. by destruct unit. Qed.

Lemma text_length_nonneg s unit n : _text_length s unit = Ok n → 0 ≤ n.
Proof.
  revert n. induction s as [|c s IH]; intros n; [rewrite text_length_nil; by intros [= <-]|].
  rewrite text_length_cons. intros (a & Ha & H)%res_bind_ok. apply res_bind_ok in H as (b & Hb & [= <-]).
  apply char_length_pos in Ha. apply IH in Hb. lia.
Qed.

Lemma text_length_app s t unit :
  _text_length (s ++ t) unit = (n ← _text_length s unit ; m ← _text_length t unit ; Ok (n + m)).
Proof.
  induction s as [|c s IH].
  - rewrite text_length_nil. cbn. by destruct (_text_length t unit).
  - rewrite <- app_comm_cons, !text_length_cons, IH. destruct (char_length c unit); [|done]. cbn.
    destruct (_text_length s unit); [|done]. cbn. destruct (_text_length t unit); [|done]. cbn.
    f_equal. lia.
Qed.

Lemma text_length_app_ok s t unit n :
  _text_length (s ++ t) unit = Ok n ↔
  ∃ a b, _text_length s unit = Ok a ∧ _text_length t unit = Ok b ∧ n = a + b.
Proof.
  rewrite text_length_app, res_bind_ok. setoid_rewrite res_bind_ok.
  split; [intros (a & Ha & b & Hb & [= <-])|intros (a & b & Ha & Hb & ->)]; eauto 6.
Qed.

(** A prefix is no longer than the text, and a text of limited length has few
    characters. *)
Lemma text_length_prefix s t unit n :
  _text_length (s ++ t) unit = Ok n → ∃ a, _text_length s unit = Ok a ∧ a ≤ n.
Proof.
  intros (a & b & Ha & Hb & ->)%text_length_app_ok. exists a. split; [done|].
  apply text_length_nonneg in Hb. lia.
Qed.

Lemma text_length_take s k unit n :
  _text_length s unit = Ok n → ∃ a, _text_length (take k s) unit = Ok a ∧ a ≤ n.
Proof. intros H. apply (text_length_prefix _ (drop k s)). by rewrite take_drop. Qed.

Lemma text_length_drop s k unit n :
  _text_length s unit = Ok n → ∃ a, _text_length (drop k s) unit = Ok a ∧ a ≤ n.
Proof.
  rewrite <- (take_drop k s) at 1. intros (a & b & Ha & Hb & ->)%text_length_app_ok. exists b.
  split; [done|]. apply text_length_nonneg in Ha. lia.
Qed.

Lemma text_length_take_mono s j k unit n :
  (j ≤ k)%nat → _text_length (take k s) unit = Ok n → ∃ a, _text_length (take j s) unit = Ok a ∧ a ≤ n.
Proof.
  intros Hj H. destruct (text_length_take (take k s) j unit n H) as (a & Ha & Hle).
  rewrite take_take, Nat.min_l in Ha by lia. eauto.
Qed.

(** * The binary search *)

(** [k] is the length of the longest prefix within the limit. *)
Definition longest_prefix (text : pystr) (limit : Z) (unit : TextLengthUnit) (k : nat) : Prop :=
  (k ≤ length text)%nat ∧
  (∃ n, _text_length (take k text) unit = Ok n ∧ n ≤ limit) ∧
  ∀ j n, (k < j ≤ length text)%nat → _text_length (take j text) unit = Ok n → limit < n.

Lemma prefix_loop_spec fuel text limit unit total low high :
  _text_length text unit = Ok total →
  (high - low ≤ fuel)%nat → (low ≤ high ≤ length text)%nat →
  (∃ n, _text_length (take low text) unit = Ok n ∧ n ≤ limit) →
  (∀ j n, (high < j ≤ length text)%nat → _text_length (take j text) unit = Ok n → limit < n) →
  ∃ k, prefix_loop fuel text limit unit low high = Ok k ∧ longest_prefix text limit unit k.
Proof.
  intros Htotal. revert low high. induction fuel as [|fuel IH]; intros low high Hf Hlh Hlow Hhigh.
  { exists low. split; [done|]. assert (high = low) as -> by lia. by split_and!; [lia|..]. }
  cbn [prefix_loop]. case_decide as Hlt.
  2: { exists low. split; [done|]. assert (high = low) as -> by lia. by split_and!; [lia|..]. }
  cbv zeta. set (mid := ((low + high + 1) / 2)%nat).
  assert (low < mid ≤ high)%nat as Hmid.
  { unfold mid. split; [apply Nat.div_le_lower_bound|apply Nat.div_le_upper_bound]; lia. }
  clearbody mid. destruct (text_length_take text mid unit total Htotal) as (n & Hn & _).
  rewrite Hn. cbn. case_decide.
  - apply IH; [lia|lia|eauto|done].
  - apply IH; [lia|lia|done|]. intros j m Hj Hm.
    destruct (decide (high < j)%nat); [apply (Hhigh j m); [lia|done]|].
    destruct (text_length_take_mono text mid j unit m) as (a & Ha & Hle); [lia|done|].
    rewrite Hn in Ha. injection Ha as <-. lia.
Qed.

(** The binary search finds the longest prefix within the limit. *)
Theorem prefix_within_limit_is_longest text limit unit total :
  _text_length text unit = Ok total → 0 ≤ limit →
  ∃ k, _prefix_within_limit text limit unit = Ok k ∧ longest_prefix text limit unit k.
Proof.
  intros Ht Hl. apply (prefix_loop_spec _ _ _ _ total); [done|lia|split; lia| |intros; lia].
  rewrite take_0, text_length_nil. eauto.
Qed.

(** * Whitespace at the ends *)

Definition spaces (s : pystr) : Prop := Forall (λ c, is_space c = true) s.
Definition trimmed (s : pystr) : Prop :=
  (∀ c, head s = Some c → is_space c = false) ∧ (∀ c, last s = Some c → is_space c = false).

Lemma lstrip_split s :
  ∃ sp, s = sp ++ lstrip s ∧ spaces sp ∧ ∀ c, head (lstrip s) = Some c → is_space c = false.
Proof.
  induction s as [|c s (sp & Hs & Hsp & Hhd)]; cbn [lstrip]; [by exists []; repeat constructor|].
  destruct (is_space c) eqn:Hc.
  - exists (c :: sp). cbn. split; [by f_equal|]. split; [by constructor|done].
  - exists []. split; [done|]. split; [constructor|]. intros ? [= <-]. done.
Qed.

Lemma last_rev {A} (l : list A) : last (rev l) = head l.
Proof. destruct l as [|x l]; [done|]. cbn. by rewrite last_snoc. Qed.

Lemma rstrip_split s :
  ∃ sp, s = rstrip s ++ sp ∧ spaces sp ∧ ∀ c, last (rstrip s) = Some c → is_space c = false.
Proof.
  unfold rstrip. destruct (lstrip_split (rev s)) as (sp & Hs & Hsp & Hhd). exists (rev sp).
  split; [by rewrite <- rev_app_distr, <- Hs, rev_involutive|].
  split; [by apply Forall_rev|]. intros c. by rewrite last_rev; apply Hhd.
Qed.

Lemma rstrip_head s c : head (rstrip s) = Some c → head s = Some c.
Proof. destruct (rstrip_split s) as (sp & Hs & _). rewrite Hs at 2. by destruct (rstrip s). Qed.

Lemma rstrip_nonempty s c : head s = Some c → is_space c = false → rstrip s ≠ [].
Proof.
  intros Hh Hc Hr. destruct (rstrip_split s) as (sp & Hs & Hsp & _). rewrite Hr in Hs. cbn in Hs. subst sp.
  destruct s as [|c' s]; [done|]. cbn in Hh. simplify_eq. inversion Hsp. congruence.
Qed.

Lemma strip_trimmed s : trimmed (strip s).
Proof.
  unfold strip. destruct (rstrip_split (lstrip s)) as (_ & _ & _ & Hl).
  destruct (lstrip_split s) as (_ & _ & _ & Hh). split; [|done]. intros c Hc. by apply Hh, rstrip_head.
Qed.

Lemma trimmed_drop s k :
  trimmed s → (k < length s)%nat → trimmed (lstrip (drop k s)) ∧ lstrip (drop k s) ≠ [].
Proof.
  intros [_ Hl] Hk. destruct (lstrip_split (drop k s)) as (sp & Hs & Hsp & Hh).
  assert (∃ c, last s = Some c ∧ last (drop k s) = Some c) as (c & Hc & Hc').
  { destruct (last (drop k s)) as [c|] eqn:Hd.
    - exists c. split; [|done]. rewrite <- (take_drop k s), last_app, Hd. done.
    - apply last_None, (f_equal length) in Hd. rewrite length_drop in Hd. cbn in Hd. lia. }
  specialize (Hl c Hc).
  assert (lstrip (drop k s) ≠ []) as Hne.
  { intros He. rewrite He, app_nil_r in Hs. rewrite Hs in Hc'. apply last_Some_elem_of in Hc'.
    unfold spaces in Hsp. rewrite Forall_forall in Hsp. specialize (Hsp c Hc'). congruence. }
  split; [|done]. split; [done|]. intros c'. rewrite Hs, last_app in Hc'.
  destruct (last (lstrip (drop k s))) eqn:Hls; [congruence|]. done.
Qed.

(** * Where a text is cut *)

Lemma rfind_bound s sub start : rfind s sub start ≤ len s.
Proof.
  unfold rfind, len. destruct (last _) as [i|] eqn:Hi; [|cbn; lia]. cbn.
  apply last_Some_elem_of, list_elem_of_filter in Hi as [_ Hi]. apply elem_of_seq in Hi. lia.
Qed.

Lemma break_position_bounds remaining hard_end :
  (1 ≤ hard_end ≤ length remaining)%nat → (1 ≤ break_position remaining hard_end ≤ hard_end)%nat.
Proof.
  intros Hh. unfold break_position. cbv zeta.
  assert (len (take hard_end remaining) = Z.of_nat hard_end) as Hlen.
  { unfold len. rewrite length_take. lia. }
  pose proof (rfind_bound (take hard_end remaining) [10; 10]%N (Nat.max 1 (hard_end / 4))) as H1.
  pose proof (rfind_bound (take hard_end remaining) [10]%N (Nat.max 1 (hard_end / 4))) as H2.
  pose proof (rfind_bound (take hard_end remaining) [32]%N (Nat.max 1 (hard_end / 4))) as H3.
  rewrite Hlen in *. case_decide; lia.
Qed.

(** * The split *)

(** The chunks in order, with whitespace between them. *)
Inductive spaced : list pystr → pystr → Prop :=
| spaced_one chunk : spaced [chunk] chunk
| spaced_cons chunk sp chunks rest :
    spaces sp → spaced chunks rest → spaced (chunk :: chunks) (chunk ++ sp ++ rest).

Definition fits (limit : Z) (unit : TextLengthUnit) (text : pystr) : Prop :=
  ∃ n, _text_length text unit = Ok n ∧ n ≤ limit.
(** A chunk is not empty, begins and ends with no whitespace, and fits. *)
Definition chunk_ok (limit : Z) (unit : TextLengthUnit) (chunk : pystr) : Prop :=
  chunk ≠ [] ∧ trimmed chunk ∧ fits limit unit chunk.

Lemma trimmed_head s : s ≠ [] → trimmed s → ∃ c, head s = Some c ∧ is_space c = false.
Proof. destruct s as [|c s]; [done|]. intros _ [H _]. eauto. Qed.

(** One cut: a chunk, whitespace, and the rest. *)
Lemma cut_spec remaining k limit unit :
  trimmed remaining → (1 ≤ k < length remaining)%nat → fits limit unit (take k remaining) →
  let chunk := rstrip (take k remaining) in
  chunk_ok limit unit chunk ∧
  ∃ sp, spaces sp ∧ remaining = chunk ++ sp ++ lstrip (drop k remaining).
Proof.
  intros Ht Hk (n & Hn & Hle). cbv zeta.
  assert (∃ c, head (take k remaining) = Some c ∧ is_space c = false) as (c & Hc & Hsc).
  { destruct remaining as [|c r], k; cbn in Hk; try lia. exists c. split; [done|]. destruct Ht as [Ht _]. by apply Ht. }
  destruct (rstrip_split (take k remaining)) as (sp1 & H1 & Hsp1 & Hl).
  destruct (lstrip_split (drop k remaining)) as (sp2 & H2 & Hsp2 & _).
  split.
  - split_and!; [by eapply rstrip_nonempty|split; [|done]|].
    + intros c' Hc'. apply rstrip_head in Hc'. congruence.
    + rewrite H1 in Hn. apply text_length_prefix in Hn as (a & Ha & ?). exists a. split; [done|lia].
  - exists (sp1 ++ sp2). split; [by apply Forall_app|].
    rewrite <- app_assoc, <- H2, app_assoc, <- H1. by rewrite take_drop.
Qed.

Lemma longest_prefix_lt text limit unit total k :
  _text_length text unit = Ok total → limit < total → longest_prefix text limit unit k →
  (k < length text)%nat.
Proof.
  intros Ht Hl (Hk & (n & Hn & Hle) & _). destruct (decide (k = length text)) as [->|]; [|lia].
  rewrite take_ge in Hn by lia. rewrite Ht in Hn. injection Hn as <-. lia.
Qed.

Definition chars_fit (limit : Z) (unit : TextLengthUnit) (text : pystr) : Prop :=
  Forall (λ c, fits limit unit [c]) text.

Lemma longest_prefix_pos text limit unit k :
  text ≠ [] → chars_fit limit unit text → longest_prefix text limit unit k → (1 ≤ k)%nat.
Proof.
  intros Ht Hf (Hk & _ & Hmax). destruct text as [|c s]; [done|]. apply Forall_cons_1 in Hf as [(n & Hn & Hle) _].
  destruct (decide (k = 0)%nat) as [->|]; [|lia]. specialize (Hmax 1%nat n). cbn in Hmax.
  rewrite firstn_O in Hmax. cbn in Hk. assert (limit < n); [|lia]. apply Hmax; [lia|done].
Qed.

(** What the loop returns for a trimmed text that can be encoded. *)
Definition splits (limit : Z) (unit : TextLengthUnit) (max_chunks : option Z) (chunks : list pystr)
    (remaining : pystr) (r : res (list pystr)) : Prop :=
  match r with
  | Ok all => ∃ new, all = chunks ++ new ∧ spaced new remaining ∧ Forall (chunk_ok limit unit) new ∧
      ∀ m, max_chunks = Some m → len all ≤ m
  | Err e => e = DeliveryPlanningError ∧ (max_chunks = None → ¬ chars_fit limit unit remaining)
  end.

Lemma raise_at_limit_cases limit n :
  raise_at_limit limit n = Ok () ∧ (∀ m, limit = Some m → n < m) ∨
  raise_at_limit limit n = Err DeliveryPlanningError ∧ limit ≠ None.
Proof.
  destruct limit as [m|]; [|by left]. cbn. unfold raise_if. case_decide; [by right|].
  left. split; [done|]. intros ? [= <-]. lia.
Qed.

Lemma split_loop_spec fuel limit unit max_chunks chunks remaining total :
  1 ≤ limit → _text_length remaining unit = Ok total → remaining ≠ [] → trimmed remaining →
  (length remaining ≤ fuel)%nat →
  splits limit unit max_chunks chunks remaining
    (split_loop fuel limit unit max_chunks chunks remaining).
Proof.
  intros Hl. revert chunks remaining total.
  induction fuel as [|fuel IH]; intros chunks remaining total Htotal Hne Htr Hfuel.
  { destruct remaining; [done|cbn in Hfuel; lia]. }
  assert (∀ r : list pystr, raise_at_limit max_chunks (len chunks) = Ok () →
    (∀ m, max_chunks = Some m → len chunks < m) → ∀ m, max_chunks = Some m → len (chunks ++ [remaining]) ≤ m) as Hlast.
  { intros _ _ H m Hm. specialize (H m Hm). unfold len in *. rewrite length_app. cbn. lia. }
  cbn [split_loop]. rewrite Htotal. cbn [mbind res_bind].
  destruct (raise_at_limit_cases max_chunks (len chunks)) as [[Hr Hm]|[Hr Hm]]; rewrite Hr; cbn [mbind res_bind].
  2: { case_decide; [by split|]. by case_decide. }
  case_decide as Hlong.
  2: { rewrite decide_False by done. exists [remaining]. split_and!; [done|constructor| |by apply Hlast].
       constructor; [|constructor]. split_and!; [done..|]. exists total. split; [done|lia]. }
  destruct (prefix_within_limit_is_longest remaining limit unit total Htotal) as (k & -> & Hk); [lia|].
  cbn [mbind res_bind]. destruct (decide (k < 1)%nat) as [Hk1|Hk1];
    [rewrite raise_if_true by done|rewrite raise_if_false by done]; cbn [mbind res_bind].
  { split; [done|]. intros _ Hf. pose proof (longest_prefix_pos remaining limit unit k Hne Hf Hk). lia. }
  pose proof (longest_prefix_lt _ _ _ _ _ Htotal Hlong Hk) as Hlt.
  pose proof (break_position_bounds remaining k) as Hb.
  set (b := break_position remaining k) in *. clearbody b.
  assert (fits limit unit (take b remaining)) as Hfit.
  { destruct Hk as (_ & (n & Hn & Hle) & _).
    destruct (text_length_take_mono remaining b k unit n) as (a & Ha & ?); [lia|done|]. exists a. split; [done|lia]. }
  destruct (cut_spec remaining b limit unit Htr) as [Hchunk (sp & Hsp & Hcut)]; [lia|done|].
  rewrite decide_False by apply Hchunk.
  destruct (trimmed_drop remaining b Htr) as [Htr' Hne']; [lia|].
  destruct (lstrip_split (drop b remaining)) as (sp2 & Hs2 & _).
  destruct (text_length_drop remaining b unit total Htotal) as (a & Ha & _). rewrite Hs2 in Ha.
  apply text_length_app_ok in Ha as (_ & t' & _ & Ht' & _).
  pose proof (f_equal length Hs2) as Hlen. rewrite length_app, length_drop in Hlen.
  specialize (IH (chunks ++ [rstrip (take b remaining)]) _ t' Ht' Hne' Htr').
  unfold splits in *. destruct (split_loop fuel limit unit max_chunks _ _) as [all|e].
  - specialize (IH ltac:(lia)) as (new & -> & Hnew & Hok & Hmax).
    exists (rstrip (take b remaining) :: new). split_and!; [by rewrite <- app_assoc| |by constructor|done].
    pose proof (spaced_cons (rstrip (take b remaining)) sp new _ Hsp Hnew) as H. by rewrite <- Hcut in H.
  - specialize (IH ltac:(lia)) as [-> Hnf]. split; [done|]. intros Hn Hf. apply (Hnf Hn). unfold chars_fit in *.
    rewrite Hcut, !Forall_app in Hf. apply Hf.
Qed.

(** The split of a text: no character but whitespace is lost, every chunk fits
    the limit, begins and ends with no whitespace and is not empty, and there
    are at most as many as allowed. *)
Lemma split_text_spec text limit unit max_chunks chunks :
  split_text text limit unit max_chunks = Ok chunks →
  spaced chunks (strip text) ∧
  Forall (λ chunk, chunk ≠ [] ∧ trimmed chunk ∧
    ∃ n, _text_length chunk unit = Ok n ∧ n ≤ limit) chunks ∧
  ∀ m, max_chunks = Some m → len chunks ≤ m.
Proof.
  unfold split_text. rewrite !then_ok, !raise_if_ok. intros (Hl & _ & Hne & Hsplit).
  assert (∃ total, _text_length (strip text) unit = Ok total) as [total Ht].
  { destruct (length (strip text)); cbn in Hsplit; apply res_bind_ok in Hsplit as (total & Ht & _); eauto. }
  pose proof (split_loop_spec (length (strip text)) limit unit max_chunks [] (strip text) total) as H.
  rewrite Hsplit in H. destruct H as (new & -> & Hnew); [lia|done|done|apply strip_trimmed|lia|done].
Qed.

(** C32. The loop ends: a text is split, or refused as a planning error, unless it
    cannot be encoded; and when as many chunks as it takes are allowed, every
    text of which each character fits is split. *)
Theorem split_text_total text limit unit max_chunks :
  match split_text text limit unit max_chunks with
  | Ok _ => True
  | Err e => e = DeliveryPlanningError ∨ _text_length (strip text) unit = Err e
  end ∧
  (1 ≤ limit → strip text ≠ [] → max_chunks = None →
   Forall (λ c, ∃ n, _text_length [c] unit = Ok n ∧ n ≤ limit) (strip text) →
   ∃ chunks, split_text text limit unit max_chunks = Ok chunks).
Proof.
  unfold split_text.
  destruct (decide (limit < 1)) as [Hl|Hl]; [rewrite (raise_if_true (limit < 1)) by done; cbn [mbind res_bind]; split; [by left|lia]|].
  rewrite (raise_if_false (limit < 1)) by done. cbn [mbind res_bind].
  assert (when_some max_chunks (λ m, raise_if (m < 1) DeliveryPlanningError) = Ok () ∨
    when_some max_chunks (λ m, raise_if (m < 1) DeliveryPlanningError) = Err DeliveryPlanningError ∧
    max_chunks ≠ None) as [->|[-> Hm]].
  { destruct max_chunks as [m|]; [|by left]. cbn. destruct (decide (m < 1)).
    - right. by rewrite raise_if_true.
    - left. by rewrite raise_if_false. }
  2: { cbn [mbind res_bind]. split; [by left|done]. }
  cbn [mbind res_bind].
  destruct (decide (strip text = [])) as [He|He]; [rewrite raise_if_true by done; cbn [mbind res_bind]; split; [by left|done]|].
  rewrite raise_if_false by done. cbn [mbind res_bind].
  destruct (_text_length (strip text) unit) as [total|e] eqn:Ht.
  - pose proof (split_loop_spec (length (strip text)) limit unit max_chunks [] (strip text) total) as H.
    specialize (H ltac:(lia) Ht He (strip_trimmed text) ltac:(lia)).
    destruct (split_loop _ _ _ _ _ _) as [all|e]; [split; eauto|]. destruct H as [-> Hn].
    split; [by left|]. intros _ _ Hmax Hf. by apply Hn in Hf.
  - assert (split_loop (length (strip text)) limit unit max_chunks [] (strip text) = Err e) as ->.
    { destruct (length (strip text)); cbn [split_loop]; by rewrite Ht. }
    split; [by right|]. intros _ _ _ Hf. exfalso. revert Ht. clear -Hf.
    induction Hf as [|c s (n & Hn & _) _ IH]; [by rewrite text_length_nil|].
    rewrite text_length_cons. unfold char_length. rewrite Hn. cbn [mbind res_bind].
    destruct (_text_length s unit); [done|]. intros [= <-]. by apply IH.
Qed.
