(* ===== verification/PyRegex.v ===== *)
(** The part of Python's [re] that the gateway uses: classes of characters with
    greedy or lazy repetition, sequences, alternatives, groups, back references,
    multi-line anchors and one-character lookaround, matched by backtracking,
    and [re.sub]; and [str.casefold]. *)

From S2P Require Export PyText.
From Stdlib Require Import Ascii String.
From stdpp Require Import list.
#[local] Open Scope stdpp_scope.

Inductive regex : Type :=
| RRepeat (p : N → bool) (min : nat) (max : option nat) (greedy : bool)
| RSeq (r1 r2 : regex)
| RAlt (r1 r2 : regex)
| RGroup (n : nat) (r : regex)
| RBackref (n : nat)
| RLineStart
| RLineEnd
| RNotBehind (p : N → bool)
| RNotAhead (p : N → bool).

(** Where a match is in its text: what is before, last character first, and what
    is ahead. *)
Definition cursor : Type := pystr * pystr.
Definition groups : Type := list (nat * pystr).
Definition matched : Type := option (cursor * groups).

Definition or_else (a b : matched) : matched := match a with Some _ => a | None => b end.

(** [p{min,max}], followed by [k]. *)
Fixpoint repeat_class (p : N → bool) (min : nat) (max : option nat) (greedy : bool)
    (k : cursor → matched) (before after : pystr) : matched :=
  let more :=
    match after with
    | x :: after' =>
        if p x && bool_decide (max ≠ Some 0%nat) then
          repeat_class p (pred min) (pred <$> max) greedy k (x :: before) after'
        else None
    | [] => None
    end in
  if decide (min ≠ 0%nat) then more
  else if greedy then or_else more (k (before, after))
  else or_else (k (before, after)) more.

Fixpoint match_from (r : regex) (k : groups → cursor → matched) (g : groups) (z : cursor) : matched :=
  match r with
  | RRepeat p min max greedy => repeat_class p min max greedy (k g) z.1 z.2
  | RSeq r1 r2 => match_from r1 (match_from r2 k) g z
  | RAlt r1 r2 => or_else (match_from r1 k g z) (match_from r2 k g z)
  | RGroup n r =>
      match_from r (λ g' z', k ((n, rev (take (length z'.1 - length z.1) z'.1)) :: g') z') g z
  | RBackref n =>
      match list_find (λ e : nat * pystr, e.1 = n) g with
      | Some (_, (_, text)) =>
          if decide (take (length text) z.2 = text)
          then k g (rev text ++ z.1, drop (length text) z.2) else None
      | None => None
      end
  | RLineStart =>
      if decide (head z.1 = None ∨ head z.1 = Some 10%N) then k g z else None
  | RLineEnd => if decide (head z.2 = None ∨ head z.2 = Some 10%N) then k g z else None
  | RNotBehind p => if decide (p <$> head z.1 = Some true) then None else k g z
  | RNotAhead p => if decide (p <$> head z.2 = Some true) then None else k g z
  end.

(** [pattern.match] at a cursor. *)
Definition match_at (r : regex) (z : cursor) : matched := match_from r (λ g z', Some (z', g)) [] z.

(** [m.group(n)] in a replacement: a group that took no part is empty. *)
Definition group (n : nat) (g : groups) : pystr :=
  match list_find (λ e : nat * pystr, e.1 = n) g with Some (_, (_, text)) => text | None => [] end.

(** [re.sub(r, replacement, text)]: from the left, each match is replaced and the
    search goes on behind it; [skip] characters are already part of a match. *)
Fixpoint sub_from (r : regex) (replacement : groups → pystr) (skip : nat) (before after : pystr)
    : pystr :=
  let go_on s emit :=
    match after with
    | x :: after' => (if (emit : bool) then [x] else []) ++ sub_from r replacement s (x :: before) after'
    | [] => []
    end in
  match skip with
  | S s => go_on s false
  | O =>
      match match_at r (before, after) with
      | Some ((_, rest), g) =>
          replacement g ++
            (if decide (length rest = length after) then go_on O true
             else go_on (pred (length after - length rest)) false)
      | None => go_on O true
      end
  end.
Definition re_sub (r : regex) (replacement : groups → pystr) (text : pystr) : pystr :=
  sub_from r replacement 0 [] text.

(** ** Notation for patterns *)

Definition is_char (c : N) (x : N) : bool := bool_decide (x = c).
Definition none_of (s : pystr) (x : N) : bool := bool_decide (x ∉ s).
Definition one_of (s : pystr) (x : N) : bool := bool_decide (x ∈ s).
(** [.] *)
Definition any_char : N → bool := none_of [10%N].
Definition ROne (p : N → bool) : regex := RRepeat p 1 (Some 1%nat) true.
Definition RChar (c : ascii) : regex := ROne (is_char (chr c)).
Fixpoint RSeqs (l : list regex) : regex :=
  match l with
  | [] => RRepeat any_char 0 (Some 0%nat) true
  | [r] => r
  | r :: l' => RSeq r (RSeqs l')
  end.

(** ** Texts a pattern leaves alone *)

(** Every match takes a character of [q]. *)
Fixpoint takes (q : N → bool) (r : regex) : Prop :=
  match r with
  | RRepeat p min _ _ => min ≠ 0%nat ∧ ∀ x, p x = true → q x = true
  | RSeq r1 r2 => takes q r1 ∨ takes q r2
  | RAlt r1 r2 => takes q r1 ∧ takes q r2
  | RGroup _ r => takes q r
  | _ => False
  end.

Definition lacks (q : N → bool) (z : cursor) : Prop := Forall (λ x, q x = false) z.2.

Section takes.
Context (q : N → bool).

Lemma lacks_cons x before after : lacks q (before, x :: after) → q x = false ∧ lacks q (x :: before, after).
Proof. by intros H%Forall_cons_1. Qed.

(** A continuation that fails wherever [q] is lacking makes the match fail. *)
Lemma repeat_class_fails p min max greedy k before after :
  (∀ z, lacks q z → k z = None) → lacks q (before, after) →
  repeat_class p min max greedy k before after = None.
Proof.
  intros Hk. revert min max before. induction after as [|x after IH]; intros min max before Hl; cbn [repeat_class].
  - rewrite (Hk _ Hl). by case_decide; destruct greedy.
  - apply lacks_cons in Hl as Hl'. destruct Hl' as [_ Hl']. rewrite (Hk _ Hl).
    rewrite IH by done. by destruct (p x && _); case_decide; destruct greedy.
Qed.

Lemma repeat_class_takes p min max greedy k before after :
  min ≠ 0%nat → (∀ x, p x = true → q x = true) → lacks q (before, after) →
  repeat_class p min max greedy k before after = None.
Proof.
  intros Hm Hp Hl. destruct after as [|x after]; cbn [repeat_class]; rewrite decide_True by done; [done|].
  apply lacks_cons in Hl as [Hx _]. destruct (p x) eqn:Hpx; [|done]. apply Hp in Hpx. congruence.
Qed.

Lemma lacks_drop n before before' after : lacks q (before, after) → lacks q (before', drop n after).
Proof. apply Forall_drop. Qed.

Lemma match_from_fails r k g z :
  (∀ g z, lacks q z → k g z = None) → lacks q z → match_from r k g z = None.
Proof.
  revert k g z. induction r as [p min max greedy|r1 IH1 r2 IH2|r1 IH1 r2 IH2|n r IH|n| | |p|p];
    intros k g [before after] Hk Hl; cbn [match_from].
  - apply repeat_class_fails; auto.
  - apply IH1; auto.
  - by rewrite IH1, IH2.
  - apply IH; auto.
  - destruct (list_find _ _) as [[? [? text]]|]; [|done]. case_decide; [|done]. apply Hk.
    by apply (lacks_drop _ before).
  - case_decide; auto.
  - case_decide; auto.
  - case_decide; auto.
  - case_decide; auto.
Qed.

Lemma match_from_takes r k g z : takes q r → lacks q z → match_from r k g z = None.
Proof.
  revert k g z. induction r as [p min max greedy|r1 IH1 r2 IH2|r1 IH1 r2 IH2|n r IH|n| | |p|p];
    intros k g [before after] Ht Hl; cbn [match_from takes] in *; try done.
  - destruct Ht. by apply repeat_class_takes.
  - destruct Ht as [Ht|Ht]; [by apply IH1|]. apply match_from_fails; auto.
  - destruct Ht. by rewrite IH1, IH2.
  - by apply IH.
Qed.

(** A pattern that takes a character of [q] leaves a text without one alone. *)
Lemma re_sub_lacking r replacement text :
  takes q r → Forall (λ x, q x = false) text → re_sub r replacement text = text.
Proof.
  intros Ht. unfold re_sub. generalize (@nil N). induction text as [|x text IH]; intros before Hl;
    cbn [sub_from]; unfold match_at; rewrite match_from_takes; try done.
  cbn. rewrite IH; [done|]. by apply Forall_cons_1 in Hl as [_ ?].
Qed.
End takes.

(** [str.casefold] of Python 3.11 (Unicode 14): runs of characters that fold by
    one distance, and the characters that fold to several. *)
#[local] Open Scope N_scope.

(** First, last, step and distance of each run. *)
Definition casefold_runs : list (N * N * N * Z) := [
  (65, 90, 1, 32%Z); (181, 181, 1, 775%Z); (192, 214, 1, 32%Z); (216, 222, 1, 32%Z);
  (256, 302, 2, 1%Z); (306, 310, 2, 1%Z); (313, 327, 2, 1%Z); (330, 374, 2, 1%Z);
  (376, 376, 1, (-121)%Z); (377, 381, 2, 1%Z); (383, 383, 1, (-268)%Z); (385, 385, 1, 210%Z);
  (386, 388, 2, 1%Z); (390, 390, 1, 206%Z); (391, 391, 1, 1%Z); (393, 394, 1, 205%Z);
  (395, 395, 1, 1%Z); (398, 398, 1, 79%Z); (399, 399, 1, 202%Z); (400, 400, 1, 203%Z);
  (401, 401, 1, 1%Z); (403, 403, 1, 205%Z); (404, 404, 1, 207%Z); (406, 406, 1, 211%Z);
  (407, 407, 1, 209%Z); (408, 408, 1, 1%Z); (412, 412, 1, 211%Z); (413, 413, 1, 213%Z);
  (415, 415, 1, 214%Z); (416, 420, 2, 1%Z); (422, 422, 1, 218%Z); (423, 423, 1, 1%Z);
  (425, 425, 1, 218%Z); (428, 428, 1, 1%Z); (430, 430, 1, 218%Z); (431, 431, 1, 1%Z);
  (433, 434, 1, 217%Z); (435, 437, 2, 1%Z); (439, 439, 1, 219%Z); (440, 440, 1, 1%Z);
  (444, 444, 1, 1%Z); (452, 452, 1, 2%Z); (453, 453, 1, 1%Z); (455, 455, 1, 2%Z);
  (456, 456, 1, 1%Z); (458, 458, 1, 2%Z); (459, 475, 2, 1%Z); (478, 494, 2, 1%Z);
  (497, 497, 1, 2%Z); (498, 500, 2, 1%Z); (502, 502, 1, (-97)%Z); (503, 503, 1, (-56)%Z);
  (504, 542, 2, 1%Z); (544, 544, 1, (-130)%Z); (546, 562, 2, 1%Z); (570, 570, 1, 10795%Z);
  (571, 571, 1, 1%Z); (573, 573, 1, (-163)%Z); (574, 574, 1, 10792%Z); (577, 577, 1, 1%Z);
  (579, 579, 1, (-195)%Z); (580, 580, 1, 69%Z); (581, 581, 1, 71%Z); (582, 590, 2, 1%Z);
  (837, 837, 1, 116%Z); (880, 882, 2, 1%Z); (886, 886, 1, 1%Z); (895, 895, 1, 116%Z);
  (902, 902, 1, 38%Z); (904, 906, 1, 37%Z); (908, 908, 1, 64%Z); (910, 911, 1, 63%Z);
  (913, 929, 1, 32%Z); (931, 939, 1, 32%Z); (962, 962, 1, 1%Z); (975, 975, 1, 8%Z);
  (976, 976, 1, (-30)%Z); (977, 977, 1, (-25)%Z); (981, 981, 1, (-15)%Z); (982, 982, 1, (-22)%Z);
  (984, 1006, 2, 1%Z); (1008, 1008, 1, (-54)%Z); (1009, 1009, 1, (-48)%Z);
  (1012, 1012, 1, (-60)%Z); (1013, 1013, 1, (-64)%Z); (1015, 1015, 1, 1%Z);
  (1017, 1017, 1, (-7)%Z); (1018, 1018, 1, 1%Z); (1021, 1023, 1, (-130)%Z); (1024, 1039, 1, 80%Z);
  (1040, 1071, 1, 32%Z); (1120, 1152, 2, 1%Z); (1162, 1214, 2, 1%Z); (1216, 1216, 1, 15%Z);
  (1217, 1229, 2, 1%Z); (1232, 1326, 2, 1%Z); (1329, 1366, 1, 48%Z); (4256, 4293, 1, 7264%Z);
  (4295, 4295, 1, 7264%Z); (4301, 4301, 1, 7264%Z); (5112, 5117, 1, (-8)%Z);
  (7296, 7296, 1, (-6222)%Z); (7297, 7297, 1, (-6221)%Z); (7298, 7298, 1, (-6212)%Z);
  (7299, 7300, 1, (-6210)%Z); (7301, 7301, 1, (-6211)%Z); (7302, 7302, 1, (-6204)%Z);
  (7303, 7303, 1, (-6180)%Z); (7304, 7304, 1, 35267%Z); (7312, 7354, 1, (-3008)%Z);
  (7357, 7359, 1, (-3008)%Z); (7680, 7828, 2, 1%Z); (7835, 7835, 1, (-58)%Z);
  (7840, 7934, 2, 1%Z); (7944, 7951, 1, (-8)%Z); (7960, 7965, 1, (-8)%Z); (7976, 7983, 1, (-8)%Z);
  (7992, 7999, 1, (-8)%Z); (8008, 8013, 1, (-8)%Z); (8025, 8031, 2, (-8)%Z);
  (8040, 8047, 1, (-8)%Z); (8120, 8121, 1, (-8)%Z); (8122, 8123, 1, (-74)%Z);
  (8126, 8126, 1, (-7173)%Z); (8136, 8139, 1, (-86)%Z); (8152, 8153, 1, (-8)%Z);
  (8154, 8155, 1, (-100)%Z); (8168, 8169, 1, (-8)%Z); (8170, 8171, 1, (-112)%Z);
  (8172, 8172, 1, (-7)%Z); (8184, 8185, 1, (-128)%Z); (8186, 8187, 1, (-126)%Z);
  (8486, 8486, 1, (-7517)%Z); (8490, 8490, 1, (-8383)%Z); (8491, 8491, 1, (-8262)%Z);
  (8498, 8498, 1, 28%Z); (8544, 8559, 1, 16%Z); (8579, 8579, 1, 1%Z); (9398, 9423, 1, 26%Z);
  (11264, 11311, 1, 48%Z); (11360, 11360, 1, 1%Z); (11362, 11362, 1, (-10743)%Z);
  (11363, 11363, 1, (-3814)%Z); (11364, 11364, 1, (-10727)%Z); (11367, 11371, 2, 1%Z);
  (11373, 11373, 1, (-10780)%Z); (11374, 11374, 1, (-10749)%Z); (11375, 11375, 1, (-10783)%Z);
  (11376, 11376, 1, (-10782)%Z); (11378, 11378, 1, 1%Z); (11381, 11381, 1, 1%Z);
  (11390, 11391, 1, (-10815)%Z); (11392, 11490, 2, 1%Z); (11499, 11501, 2, 1%Z);
  (11506, 11506, 1, 1%Z); (42560, 42604, 2, 1%Z); (42624, 42650, 2, 1%Z); (42786, 42798, 2, 1%Z);
  (42802, 42862, 2, 1%Z); (42873, 42875, 2, 1%Z); (42877, 42877, 1, (-35332)%Z);
  (42878, 42886, 2, 1%Z); (42891, 42891, 1, 1%Z); (42893, 42893, 1, (-42280)%Z);
  (42896, 42898, 2, 1%Z); (42902, 42920, 2, 1%Z); (42922, 42922, 1, (-42308)%Z);
  (42923, 42923, 1, (-42319)%Z); (42924, 42924, 1, (-42315)%Z); (42925, 42925, 1, (-42305)%Z);
  (42926, 42926, 1, (-42308)%Z); (42928, 42928, 1, (-42258)%Z); (42929, 42929, 1, (-42282)%Z);
  (42930, 42930, 1, (-42261)%Z); (42931, 42931, 1, 928%Z); (42932, 42946, 2, 1%Z);
  (42948, 42948, 1, (-48)%Z); (42949, 42949, 1, (-42307)%Z); (42950, 42950, 1, (-35384)%Z);
  (42951, 42953, 2, 1%Z); (42960, 42960, 1, 1%Z); (42966, 42968, 2, 1%Z); (42997, 42997, 1, 1%Z);
  (43888, 43967, 1, (-38864)%Z); (65313, 65338, 1, 32%Z); (66560, 66599, 1, 40%Z);
  (66736, 66771, 1, 40%Z); (66928, 66938, 1, 39%Z); (66940, 66954, 1, 39%Z);
  (66956, 66962, 1, 39%Z); (66964, 66965, 1, 39%Z); (68736, 68786, 1, 64%Z);
  (71840, 71871, 1, 32%Z); (93760, 93791, 1, 32%Z); (125184, 125217, 1, 34%Z)].

Definition casefold_expansions : list (N * pystr) := [
  (223, [115; 115]); (304, [105; 775]); (329, [700; 110]); (496, [106; 780]);
  (912, [953; 776; 769]); (944, [965; 776; 769]); (1415, [1381; 1410]); (7830, [104; 817]);
  (7831, [116; 776]); (7832, [119; 778]); (7833, [121; 778]); (7834, [97; 702]);
  (7838, [115; 115]); (8016, [965; 787]); (8018, [965; 787; 768]); (8020, [965; 787; 769]);
  (8022, [965; 787; 834]); (8064, [7936; 953]); (8065, [7937; 953]); (8066, [7938; 953]);
  (8067, [7939; 953]); (8068, [7940; 953]); (8069, [7941; 953]); (8070, [7942; 953]);
  (8071, [7943; 953]); (8072, [7936; 953]); (8073, [7937; 953]); (8074, [7938; 953]);
  (8075, [7939; 953]); (8076, [7940; 953]); (8077, [7941; 953]); (8078, [7942; 953]);
  (8079, [7943; 953]); (8080, [7968; 953]); (8081, [7969; 953]); (8082, [7970; 953]);
  (8083, [7971; 953]); (8084, [7972; 953]); (8085, [7973; 953]); (8086, [7974; 953]);
  (8087, [7975; 953]); (8088, [7968; 953]); (8089, [7969; 953]); (8090, [7970; 953]);
  (8091, [7971; 953]); (8092, [7972; 953]); (8093, [7973; 953]); (8094, [7974; 953]);
  (8095, [7975; 953]); (8096, [8032; 953]); (8097, [8033; 953]); (8098, [8034; 953]);
  (8099, [8035; 953]); (8100, [8036; 953]); (8101, [8037; 953]); (8102, [8038; 953]);
  (8103, [8039; 953]); (8104, [8032; 953]); (8105, [8033; 953]); (8106, [8034; 953]);
  (8107, [8035; 953]); (8108, [8036; 953]); (8109, [8037; 953]); (8110, [8038; 953]);
  (8111, [8039; 953]); (8114, [8048; 953]); (8115, [945; 953]); (8116, [940; 953]);
  (8118, [945; 834]); (8119, [945; 834; 953]); (8124, [945; 953]); (8130, [8052; 953]);
  (8131, [951; 953]); (8132, [942; 953]); (8134, [951; 834]); (8135, [951; 834; 953]);
  (8140, [951; 953]); (8146, [953; 776; 768]); (8147, [953; 776; 769]); (8150, [953; 834]);
  (8151, [953; 776; 834]); (8162, [965; 776; 768]); (8163, [965; 776; 769]); (8164, [961; 787]);
  (8166, [965; 834]); (8167, [965; 776; 834]); (8178, [8060; 953]); (8179, [969; 953]);
  (8180, [974; 953]); (8182, [969; 834]); (8183, [969; 834; 953]); (8188, [969; 953]);
  (64256, [102; 102]); (64257, [102; 105]); (64258, [102; 108]); (64259, [102; 102; 105]);
  (64260, [102; 102; 108]); (64261, [115; 116]); (64262, [115; 116]); (64275, [1396; 1398]);
  (64276, [1396; 1381]); (64277, [1396; 1387]); (64278, [1406; 1398]); (64279, [1396; 1389])].

Definition in_run (c : N) (run : N * N * N * Z) : bool :=
  let '(first, last, step, _) := run in bool_decide (first ≤ c ∧ c ≤ last ∧ (c - first) mod step = 0).

Definition casefold_char (c : N) : pystr :=
  match list_find (λ e : N * pystr, e.1 = c) casefold_expansions with
  | Some (_, (_, folded)) => folded
  | None =>
      match list_find (λ run, in_run c run = true) casefold_runs with
      | Some (_, (_, _, _, distance)) => [Z.to_N (Z.of_N c + distance)]
      | None => [c]
      end
  end.

(** [s.casefold()]. *)
Definition casefold (s : pystr) : pystr := concat (casefold_char <$> s).

Example casefold_examples :
  casefold (py "Image/PNG") = py "image/png" ∧ casefold [223] = py "ss" ∧ casefold [916] = [948].
Proof. vm_compute. done. Qed.
