(* ===== verification/Contracts.v ===== *)
(** Identities and validators of [applications/contract.py],
    [interaction/messages.py] and [interaction/operations.py]: the nested
    Application/Project/Thread/Turn references, the Conversation reference,
    and the queued-input dispatch and receipt.  A comment of the form
    [path:first-last] in brackets names the lines under [src/src/imagent/] a
    definition translates.  The [isinstance] checks of the source are the types
    of the model. *)

From S2P Require Export PyText.
#[local] Open Scope Z_scope.
#[local] Open Scope stdpp_scope.

(** [interaction/operations.py:28-30] require_identifier *)
Definition require_identifier (value : pystr) (name : string) : res unit :=
  raise_if (value = [] ∨ 512 < len value) (ContractViolation name).

(** A value [require_identifier] accepts. *)
Definition identifier (v : pystr) : Prop := v ≠ [] ∧ len v ≤ 512.

Lemma require_identifier_ok v n u : require_identifier v n = Ok u ↔ identifier v.
Proof.
  unfold require_identifier, identifier. rewrite raise_if_ok.
  split; [intros H; split; [tauto|lia]|intros [? ?] [?|?]; [done|lia]].
Qed.

(** [interaction/operations.py:33-46] OperationErrorCode *)
Inductive OperationErrorCode : Type :=
| INVALID_OPERATION | OP_UNSUPPORTED | NOT_FOUND | MISSING_BINDING | OP_STALE_BINDING
| OP_CONFLICT | ADAPTER_FAILURE | OP_CAPACITY_EXHAUSTED | UNAUTHORIZED_DESTINATION
| REQUEST_DUPLICATE | REQUEST_RESOLVED | REQUEST_STALE | REQUEST_DELIVERY_PENDING.
#[export] Instance OperationErrorCode_eq_dec : EqDecision OperationErrorCode.
Proof. solve_decision. Defined.

(** [interaction/messages.py:14-17] ConversationRef *)
Record ConversationRef := {
  cv_channel_instance_id : pystr;
  cv_native_conversation_id : pystr;
}.
#[export] Instance ConversationRef_eq_dec : EqDecision ConversationRef.
Proof. solve_decision. Defined.

(** [applications/contract.py:28-30] ApplicationRef *)
Record ApplicationRef := { ar_application_instance_id : pystr }.
#[export] Instance ApplicationRef_eq_dec : EqDecision ApplicationRef.
Proof. solve_decision. Defined.

(** [applications/contract.py:33-36] ProjectRef *)
Record ProjectRef := { pr_application_instance_id : pystr; pr_project_id : pystr }.
#[export] Instance ProjectRef_eq_dec : EqDecision ProjectRef.
Proof. solve_decision. Defined.

(** [applications/contract.py:39-42] ThreadRef *)
Record ThreadRef := { th_project_ref : ProjectRef; th_thread_id : pystr }.
#[export] Instance ThreadRef_eq_dec : EqDecision ThreadRef.
Proof. solve_decision. Defined.

(** [applications/contract.py:45-48] TurnRef *)
Record TurnRef := { tn_thread_ref : ThreadRef; tn_turn_id : pystr }.
#[export] Instance TurnRef_eq_dec : EqDecision TurnRef.
Proof. solve_decision. Defined.

(** [applications/contract.py:51-54] WorkspaceIdentity *)
Record WorkspaceIdentity := { wi_project_ref : ProjectRef; wi_root_fingerprint : pystr }.
#[export] Instance WorkspaceIdentity_eq_dec : EqDecision WorkspaceIdentity.
Proof. solve_decision. Defined.

(** [applications/contract.py:57-59] validate_project_ref *)
Definition validate_project_ref (project : ProjectRef) : res unit :=
  require_identifier (pr_application_instance_id project) "application_instance_id" ;;
  require_identifier (pr_project_id project) "project_id".

(** [applications/contract.py:62-64] validate_thread_ref *)
Definition validate_thread_ref (thread : ThreadRef) : res unit :=
  validate_project_ref (th_project_ref thread) ;;
  require_identifier (th_thread_id thread) "thread_id".

(** [applications/contract.py:67-69] validate_turn_ref *)
Definition validate_turn_ref (turn : TurnRef) : res unit :=
  validate_thread_ref (tn_thread_ref turn) ;;
  require_identifier (tn_turn_id turn) "turn_id".

(** [applications/contract.py:187-193] _validate_workspace_root_fingerprint *)
Definition _validate_workspace_root_fingerprint (fingerprint : pystr) : res unit :=
  raise_if (len fingerprint ≠ 64 ∨ fingerprint ≠ ascii_lower fingerprint
            ∨ forallb is_hex_char fingerprint = false)
    (ContractViolation "workspace root fingerprint must be lowercase SHA-256").

(** [applications/contract.py:72-74] validate_workspace_identity *)
Definition validate_workspace_identity (identity : WorkspaceIdentity) : res unit :=
  validate_project_ref (wi_project_ref identity) ;;
  _validate_workspace_root_fingerprint (wi_root_fingerprint identity).

(** [applications/contract.py:142-154] fingerprint_canonical_workspace_root *)
Definition fingerprint_canonical_workspace_root (canonical_root : pystr) : res pystr :=
  match utf8 canonical_root with
  | Err _ => Err (ContractViolation "canonical workspace root must be valid UTF-8 text")
  | Ok encoded_root =>
      raise_if (encoded_root = [] ∨ 4096 < len encoded_root)
        (ContractViolation "canonical workspace root must be between 1 and 4096 UTF-8 bytes") ;;
      Ok (sha256_hex encoded_root)
  end.

(** [applications/contract.py:77-80] InputContinuationPreference *)
Inductive InputContinuationPreference : Type := PREFER_ACTIVE_TURN | START_NEW_TURN | QUEUE.
#[export] Instance InputContinuationPreference_eq_dec : EqDecision InputContinuationPreference.
Proof. solve_decision. Defined.

(** [applications/contract.py:333-336] QueuedInputState *)
Inductive QueuedInputState : Type := QUEUED | ADMITTED | CANCELLED.
#[export] Instance QueuedInputState_eq_dec : EqDecision QueuedInputState.
Proof. solve_decision. Defined.

(** [applications/contract.py:339-345] QueuedInputDispatch *)
Record QueuedInputDispatch := {
  qd_thread_ref : ThreadRef;
  qd_client_message_id : pystr;
  qd_input_fingerprint : pystr;
}.

(** [applications/contract.py:348-357] QueuedInputReceipt *)
Record QueuedInputReceipt := {
  qr_thread_ref : ThreadRef;
  qr_client_message_id : pystr;
  qr_queued_item_id : pystr;
  qr_state : QueuedInputState;
  qr_turn_ref : option TurnRef;
  qr_input_fingerprint : pystr;
}.
#[export] Instance QueuedInputReceipt_eq_dec : EqDecision QueuedInputReceipt.
Proof. solve_decision. Defined.

(** [applications/contract.py:360-371] validate_queued_input_dispatch *)
Definition validate_queued_input_dispatch (dispatch : QueuedInputDispatch) : res unit :=
  validate_thread_ref (qd_thread_ref dispatch) ;;
  require_identifier (qd_client_message_id dispatch) "client_message_id" ;;
  let fingerprint := qd_input_fingerprint dispatch in
  raise_if (len fingerprint ≠ 64 ∨ forallb is_hex_char fingerprint = false)
    (ContractViolation "input fingerprint must be lowercase SHA-256").

(** [applications/contract.py:374-396] validate_queued_input_receipt *)
Definition validate_queued_input_receipt (receipt : QueuedInputReceipt) : res unit :=
  validate_thread_ref (qr_thread_ref receipt) ;;
  require_identifier (qr_client_message_id receipt) "client_message_id" ;;
  require_identifier (qr_queued_item_id receipt) "queued_item_id" ;;
  validate_queued_input_dispatch {|
    qd_thread_ref := qr_thread_ref receipt;
    qd_client_message_id := qr_client_message_id receipt;
    qd_input_fingerprint := qr_input_fingerprint receipt
  |} ;;
  if decide (qr_state receipt = ADMITTED) then
    match qr_turn_ref receipt with
    | None => mraise (ContractViolation "admitted queued input requires its original Turn")
    | Some turn_ref =>
        validate_turn_ref turn_ref ;;
        raise_if (tn_thread_ref turn_ref ≠ qr_thread_ref receipt)
          (ContractViolation "queued input Turn belongs to a different Thread")
    end
  else
    raise_if (is_Some (qr_turn_ref receipt))
      (ContractViolation "pending or cancelled queued input cannot have a Turn").

(** * What the validators accept *)

Definition project_valid (p : ProjectRef) : Prop :=
  identifier (pr_application_instance_id p) ∧ identifier (pr_project_id p).
Definition thread_valid (t : ThreadRef) : Prop :=
  project_valid (th_project_ref t) ∧ identifier (th_thread_id t).
Definition turn_valid (t : TurnRef) : Prop :=
  thread_valid (tn_thread_ref t) ∧ identifier (tn_turn_id t).
Definition conversation_valid (c : ConversationRef) : Prop :=
  identifier (cv_channel_instance_id c) ∧ identifier (cv_native_conversation_id c).

(** Sequencing of checks is their conjunction. *)
Lemma seq_ok (m1 m2 : res unit) u : (m1 ;; m2) = Ok u ↔ m1 = Ok () ∧ m2 = Ok ().
Proof.
  destruct u. rewrite res_bind_ok. split; [intros ([] & ? & ?)|intros [? ?]]; eauto.
Qed.

Lemma validate_project_ref_ok p u : validate_project_ref p = Ok u ↔ project_valid p.
Proof. unfold validate_project_ref. by rewrite seq_ok, !require_identifier_ok. Qed.

Lemma validate_thread_ref_ok t u : validate_thread_ref t = Ok u ↔ thread_valid t.
Proof. unfold validate_thread_ref. by rewrite seq_ok, validate_project_ref_ok, require_identifier_ok. Qed.

Lemma validate_turn_ref_ok t u : validate_turn_ref t = Ok u ↔ turn_valid t.
Proof. unfold validate_turn_ref. by rewrite seq_ok, validate_thread_ref_ok, require_identifier_ok. Qed.

Create HintDb valid.
#[export] Hint Rewrite seq_ok require_identifier_ok validate_project_ref_ok validate_thread_ref_ok
  validate_turn_ref_ok @for_each_ok @when_some_ok using done : valid.
#[export] Hint Rewrite (λ P d e, @raise_if_ok P d e) : valid.

(** What [validate_queued_input_receipt] accepts. *)
Record queued_receipt_valid (r : QueuedInputReceipt) : Prop := {
  qrv_thread : thread_valid (qr_thread_ref r);
  qrv_client : identifier (qr_client_message_id r);
  qrv_item : identifier (qr_queued_item_id r);
  qrv_fingerprint : is_sha256_hex (qr_input_fingerprint r) = true;
  qrv_turn : match qr_turn_ref r with
             | Some t => qr_state r = ADMITTED ∧ turn_valid t ∧ tn_thread_ref t = qr_thread_ref r
             | None => qr_state r ≠ ADMITTED
             end;
}.

Lemma sha256_check_ok (s : pystr) :
  ¬ (len s ≠ 64 ∨ forallb is_hex_char s = false) ↔ is_sha256_hex s = true.
Proof.
  unfold is_sha256_hex. rewrite andb_true_iff, bool_decide_eq_true.
  destruct (forallb is_hex_char s); [destruct (decide (len s = 64)); naive_solver|naive_solver].
Qed.

Lemma validate_queued_input_receipt_ok r u :
  validate_queued_input_receipt r = Ok u ↔ queued_receipt_valid r.
Proof.
  unfold validate_queued_input_receipt, validate_queued_input_dispatch. cbn zeta.
  rewrite !seq_ok, !require_identifier_ok, !validate_thread_ref_ok, raise_if_ok, sha256_check_ok.
  cbn [qd_thread_ref qd_client_message_id qd_input_fingerprint].
  assert ((if decide (qr_state r = ADMITTED) then
             match qr_turn_ref r with
             | None => mraise (ContractViolation "admitted queued input requires its original Turn")
             | Some t => validate_turn_ref t ;;
                 raise_if (tn_thread_ref t ≠ qr_thread_ref r)
                   (ContractViolation "queued input Turn belongs to a different Thread")
             end
           else raise_if (is_Some (qr_turn_ref r))
                  (ContractViolation "pending or cancelled queued input cannot have a Turn")) = Ok () ↔
          match qr_turn_ref r with
          | Some t => qr_state r = ADMITTED ∧ turn_valid t ∧ tn_thread_ref t = qr_thread_ref r
          | None => qr_state r ≠ ADMITTED
          end) as ->.
  { case_decide as Hs; destruct (qr_turn_ref r) as [t|].
    - rewrite seq_ok, validate_turn_ref_ok, raise_if_ok.
      destruct (decide (tn_thread_ref t = qr_thread_ref r)); naive_solver.
    - naive_solver.
    - rewrite raise_if_ok. naive_solver.
    - rewrite raise_if_ok. split; [done|]. by intros _ [? [=]]. }
  split; [intros (? & ? & ? & (? & ? & ?) & ?); by constructor|intros [????]; tauto].
Qed.
