(* ===== verification/Requests.v ===== *)
(** Interactive requests of [applications/requests.py]: the requests an
    Application asks, the response shape that is persisted for a destination,
    and the validation of a response against it.  [metadata] is never read and
    is left out. *)

From S2P Require Export Contracts PyTime PyDict.
#[local] Open Scope Z_scope.
#[local] Open Scope stdpp_scope.

(** [applications/requests.py:42-47] RequestRef *)
Record RequestRef := { rq_application_ref : ApplicationRef; rq_native_request_id : pystr }.
#[export] Instance RequestRef_eq_dec : EqDecision RequestRef.
Proof. solve_decision. Defined.

(** [applications/requests.py:50-54] RequestChoice *)
Record RequestChoice := { rc_choice_id : pystr; rc_label : pystr; rc_description : option pystr }.

(** [applications/requests.py:57-68] ApprovalRequest *)
Record ApprovalRequest := {
  ap_request_ref : RequestRef;
  ap_turn_ref : TurnRef;
  ap_prompt : pystr;
  ap_choices : list RequestChoice;
  ap_expires_at : option datetime;
}.

(** [applications/requests.py:71-80] UserInputQuestion *)
Record UserInputQuestion := {
  uq_question_id : pystr;
  uq_prompt : pystr;
  uq_header : option pystr;
  uq_choices : list RequestChoice;
  uq_allows_other : bool;
  uq_secret : bool;
  uq_min_answers : Z;
  uq_max_answers : Z;
}.

(** [applications/requests.py:83-94] UserInputRequest *)
Record UserInputRequest := {
  ui_request_ref : RequestRef;
  ui_turn_ref : TurnRef;
  ui_questions : list UserInputQuestion;
  ui_prompt : option pystr;
  ui_expires_at : option datetime;
}.

(** [applications/requests.py:97-97] InteractiveRequest *)
Inductive InteractiveRequest : Type :=
| Approval (r : ApprovalRequest)
| UserInput (r : UserInputRequest).

Definition ir_request_ref (r : InteractiveRequest) : RequestRef :=
  match r with Approval a => ap_request_ref a | UserInput u => ui_request_ref u end.
Definition ir_turn_ref (r : InteractiveRequest) : TurnRef :=
  match r with Approval a => ap_turn_ref a | UserInput u => ui_turn_ref u end.
Definition ir_expires_at (r : InteractiveRequest) : option datetime :=
  match r with Approval a => ap_expires_at a | UserInput u => ui_expires_at u end.

(** [applications/requests.py:109-115] UserInputQuestionShape *)
Record UserInputQuestionShape := {
  qs_question_id : pystr;
  qs_choice_ids : list pystr;
  qs_allows_other : bool;
  qs_min_answers : Z;
  qs_max_answers : Z;
}.
#[export] Instance UserInputQuestionShape_eq_dec : EqDecision UserInputQuestionShape.
Proof. solve_decision. Defined.

(** [applications/requests.py:100-127] RequestResponseShape *)
Inductive RequestResponseShape : Type :=
| ApprovalResponseShape (choice_ids : list pystr)
| UserInputResponseShape (questions : list UserInputQuestionShape).
#[export] Instance RequestResponseShape_eq_dec : EqDecision RequestResponseShape.
Proof. solve_decision. Defined.

(** [applications/requests.py:138-150] RequestResponse *)
Inductive RequestResponse : Type :=
| ApprovalResponse (choice_id : pystr)
| UserInputResponse (answers : dict pystr (list pystr)).

(** [applications/requests.py:153-153] MAX_INTERACTIVE_REQUEST_QUESTIONS *)
Definition MAX_INTERACTIVE_REQUEST_QUESTIONS : Z := 32.
(** [applications/requests.py:154-154] MAX_INTERACTIVE_REQUEST_CHOICES *)
Definition MAX_INTERACTIVE_REQUEST_CHOICES : Z := 64.
(** [applications/requests.py:155-155] MAX_INTERACTIVE_REQUEST_ANSWER_LENGTH *)
Definition MAX_INTERACTIVE_REQUEST_ANSWER_LENGTH : Z := 4096.

(** [applications/requests.py:377-382] _validate_question_count *)
Definition _validate_question_count (count : Z) : res unit :=
  raise_if (MAX_INTERACTIVE_REQUEST_QUESTIONS < count)
    (ContractViolation "interactive request questions exceed the maximum of 32").

(** [applications/requests.py:385-389] _validate_choice_count *)
Definition _validate_choice_count (count : Z) : res unit :=
  raise_if (MAX_INTERACTIVE_REQUEST_CHOICES < count)
    (ContractViolation "interactive request choices exceed the maximum of 64").

(** [applications/requests.py:360-367] _validate_choices *)
Definition _validate_choices (choices : list RequestChoice) : res unit :=
  let choice_ids := rc_choice_id <$> choices in
  raise_if (all_distinct choice_ids = false)
    (ContractViolation "request choice IDs must be unique") ;;
  for_each choices (λ choice,
    require_identifier (rc_choice_id choice) "choice_id" ;;
    raise_if (strip (rc_label choice) = [])
      (ContractViolation "request choice label cannot be empty")).

(** [applications/requests.py:221-226] validate_request_ref *)
Definition validate_request_ref (request_ref : RequestRef) : res unit :=
  require_identifier (ar_application_instance_id (rq_application_ref request_ref))
    "application_instance_id" ;;
  require_identifier (rq_native_request_id request_ref) "native_request_id".

(** The application a Turn belongs to. *)
Definition turn_application_id (t : TurnRef) : pystr :=
  pr_application_instance_id (th_project_ref (tn_thread_ref t)).

(** [applications/requests.py:180-206] validate_question: the body of the
    loop over the questions of a user-input request. *)
Definition validate_question (question : UserInputQuestion) : res unit :=
  require_identifier (uq_question_id question) "question_id" ;;
  raise_if (strip (uq_prompt question) = [])
    (ContractViolation "user input question cannot be empty") ;;
  _validate_choice_count (len (uq_choices question)) ;;
  _validate_choices (uq_choices question) ;;
  raise_if (uq_min_answers question < 0)
    (ContractViolation "minimum answers cannot be negative") ;;
  raise_if (uq_max_answers question < uq_min_answers question)
    (ContractViolation "maximum answers is below minimum answers") ;;
  raise_if (uq_max_answers question < 1)
    (ContractViolation "maximum answers must be positive") ;;
  raise_if (MAX_INTERACTIVE_REQUEST_CHOICES < uq_max_answers question)
    (ContractViolation "maximum answers exceeds the interactive response limit") ;;
  raise_if (uq_choices question ≠ [] ∧ uq_allows_other question = false
            ∧ len (uq_choices question) < uq_min_answers question)
    (ContractViolation "minimum answers exceeds available choices") ;;
  raise_if (uq_allows_other question = false
            ∧ len (uq_choices question) < uq_max_answers question)
    (ContractViolation "maximum answers exceeds available choices").

#[local] Instance nil_dec {A} (l : list A) : Decision (l = []).
Proof. destruct l; [left|right]; done. Defined.

(** [applications/requests.py:158-206] validate_interactive_request *)
Definition validate_interactive_request (request : InteractiveRequest) : res unit :=
  validate_request_ref (ir_request_ref request) ;;
  validate_turn_ref (ir_turn_ref request) ;;
  raise_if (ar_application_instance_id (rq_application_ref (ir_request_ref request))
            ≠ turn_application_id (ir_turn_ref request))
    (ContractViolation "request belongs to a different application") ;;
  when_some (ir_expires_at request) (λ t,
    raise_if (tz_is_none t) (ContractViolation "request expiry must include a timezone")) ;;
  match request with
  | Approval r =>
      raise_if (strip (ap_prompt r) = [])
        (ContractViolation "approval prompt cannot be empty") ;;
      raise_if (ap_choices r = []) (ContractViolation "approval request requires choices") ;;
      _validate_choice_count (len (ap_choices r)) ;;
      _validate_choices (ap_choices r)
  | UserInput r =>
      raise_if (ui_questions r = [])
        (ContractViolation "user input request requires questions") ;;
      _validate_question_count (len (ui_questions r)) ;;
      raise_if (all_distinct (uq_question_id <$> ui_questions r) = false)
        (ContractViolation "user input question IDs must be unique") ;;
      for_each (ui_questions r) validate_question
  end.

(** [applications/requests.py:243-260] validate_question_shape: the body of
    the loop over the questions of a response shape. *)
Definition validate_question_shape (question : UserInputQuestionShape) : res unit :=
  require_identifier (qs_question_id question) "question_id" ;;
  _validate_choice_count (len (qs_choice_ids question)) ;;
  raise_if (all_distinct (qs_choice_ids question) = false)
    (ContractViolation "user input response choices must be unique") ;;
  for_each (qs_choice_ids question) (λ c, require_identifier c "choice_id") ;;
  raise_if (qs_min_answers question < 0 ∨ qs_max_answers question < qs_min_answers question)
    (ContractViolation "invalid user input response cardinality") ;;
  raise_if (qs_max_answers question < 1)
    (ContractViolation "maximum answers must be positive") ;;
  raise_if (MAX_INTERACTIVE_REQUEST_CHOICES < qs_max_answers question)
    (ContractViolation "maximum answers exceeds the interactive response limit") ;;
  raise_if (qs_allows_other question = false
            ∧ len (qs_choice_ids question) < qs_max_answers question)
    (ContractViolation "maximum answers exceeds available choices").

(** [applications/requests.py:229-260] validate_request_response_shape *)
Definition validate_request_response_shape (shape : RequestResponseShape) : res unit :=
  match shape with
  | ApprovalResponseShape choice_ids =>
      raise_if (choice_ids = []) (ContractViolation "approval response shape requires choices") ;;
      _validate_choice_count (len choice_ids) ;;
      raise_if (all_distinct choice_ids = false)
        (ContractViolation "approval response choices must be unique") ;;
      for_each choice_ids (λ c, require_identifier c "choice_id")
  | UserInputResponseShape questions =>
      raise_if (questions = [])
        (ContractViolation "user input response shape requires questions") ;;
      _validate_question_count (len questions) ;;
      raise_if (all_distinct (qs_question_id <$> questions) = false)
        (ContractViolation "user input response questions must be unique") ;;
      for_each questions validate_question_shape
  end.

(** [applications/requests.py:271-279] question_shape *)
Definition question_shape (question : UserInputQuestion) : UserInputQuestionShape := {|
  qs_question_id := uq_question_id question;
  qs_choice_ids := rc_choice_id <$> uq_choices question;
  qs_allows_other := uq_allows_other question;
  qs_min_answers := uq_min_answers question;
  qs_max_answers := uq_max_answers question;
|}.

(** [applications/requests.py:263-280] derive_request_response_shape *)
Definition derive_request_response_shape (request : InteractiveRequest) : res RequestResponseShape :=
  validate_interactive_request request ;;
  Ok match request with
     | Approval r => ApprovalResponseShape (rc_choice_id <$> ap_choices r)
     | UserInput r => UserInputResponseShape (question_shape <$> ui_questions r)
     end.

(** [applications/requests.py:320-357] validate_request_response_admission *)
Definition validate_request_response_admission (response : RequestResponse) : res unit :=
  match response with
  | ApprovalResponse choice_id => require_identifier choice_id "choice_id"
  | UserInputResponse answers =>
      raise_if (answers = []) (ContractViolation "user input response requires answers") ;;
      raise_if (MAX_INTERACTIVE_REQUEST_QUESTIONS < len answers)
        (ContractViolation "user input response questions exceed the maximum of 32") ;;
      for_each answers (λ qa,
        require_identifier qa.1 "question_id" ;;
        raise_if (qa.2 = [])
          (ContractViolation "each user input question requires non-empty answers") ;;
        raise_if (MAX_INTERACTIVE_REQUEST_CHOICES < len qa.2)
          (ContractViolation "user input answers exceed the maximum of 64 per question") ;;
        for_each qa.2 (λ answer,
          raise_if (answer = [])
            (ContractViolation "user input answer must be a non-empty string") ;;
          raise_if (MAX_INTERACTIVE_REQUEST_ANSWER_LENGTH < len answer)
            (ContractViolation "user input answer exceeds the maximum length of 4096")))
  end.

(** [applications/requests.py:304-317] validate_question_answers: the body of
    the loop over the questions of a validated shape. *)
Definition validate_question_answers (answers_of : dict pystr (list pystr))
    (question_id : pystr) (question : UserInputQuestionShape) : res unit :=
  let answers := default [] (d_get answers_of question_id) in
  raise_if (len answers < qs_min_answers question)
    (ContractViolation "user input response has too few answers") ;;
  raise_if (qs_max_answers question < len answers)
    (ContractViolation "user input response has too many answers") ;;
  raise_if (all_distinct answers = false)
    (ContractViolation "user input response contains duplicate answers") ;;
  for_each answers (λ answer,
    raise_if (answer = []) (ContractViolation "user input answer cannot be empty") ;;
    raise_if (answer ∉ qs_choice_ids question ∧ qs_allows_other question = false)
      (ContractViolation "user input answer was not offered")).

(** [applications/requests.py:283-317] validate_request_response *)
Definition validate_request_response (response : RequestResponse) (shape : RequestResponseShape)
    : res unit :=
  validate_request_response_shape shape ;;
  validate_request_response_admission response ;;
  match shape, response with
  | ApprovalResponseShape choice_ids, ApprovalResponse choice_id =>
      require_identifier choice_id "choice_id" ;;
      raise_if (choice_id ∉ choice_ids) (ContractViolation "approval choice was not offered")
  | ApprovalResponseShape _, UserInputResponse _ =>
      mraise (ContractViolation "approval request requires an approval response")
  | UserInputResponseShape _, ApprovalResponse _ =>
      mraise (ContractViolation "user input request requires a user input response")
  | UserInputResponseShape questions, UserInputResponse answers =>
      let question_shapes := d_of_list qs_question_id id questions in
      raise_if (Exists (λ q, q ∉ d_keys question_shapes) (d_keys answers))
        (ContractViolation "user input response contains an unknown question") ;;
      for_each question_shapes (λ kq, validate_question_answers answers kq.1 kq.2)
  end.

(** * Correctness *)

Lemma all_distinct_NoDup {A} `{EqDecision A} (l : list A) : all_distinct l ≠ false ↔ NoDup l.
Proof. unfold all_distinct. rewrite bool_decide_eq_false. split; [apply dec_stable|tauto]. Qed.

Lemma validate_question_derives_shape question :
  validate_question question = Ok () → validate_question_shape (question_shape question) = Ok ().
Proof.
  unfold validate_question, validate_question_shape, _validate_choices, _validate_choice_count.
  cbn zeta. rewrite !seq_ok, !raise_if_ok, !require_identifier_ok, !for_each_ok.
  destruct question as [qid prompt header choices other secret lo hi]; cbn. unfold len in *.
  rewrite !length_fmap, Forall_fmap.
  intros (Hid & _ & Hcount & (Hdistinct & Hchoices) & Hlo & Hle & Hpos & Hmax & _ & Hav).
  split_and!; try done; [|naive_solver].
  eapply Forall_impl; [exact Hchoices|]. intros c Hc. apply seq_ok in Hc as [Hc _]. exact Hc.
Qed.

(** A request the contract accepts has a response shape, and the shape
    passes the validation that guards its persistence. *)
Theorem derive_request_response_shape_valid request :
  validate_interactive_request request = Ok () →
  ∃ shape, derive_request_response_shape request = Ok shape ∧
    validate_request_response_shape shape = Ok ().
Proof.
  intros Hv. eexists. split; [unfold derive_request_response_shape; by rewrite Hv|].
  unfold validate_interactive_request in Hv. rewrite !seq_ok in Hv. destruct Hv as (_ & _ & _ & _ & Hv).
  destruct request as [r|r]; cbn.
  - unfold _validate_choices in Hv. cbn zeta in Hv.
    rewrite !seq_ok, !raise_if_ok, !for_each_ok in *. destruct Hv as (_ & Hne & Hc & Hd & Hall).
    unfold _validate_choice_count, len in *. rewrite length_fmap. repeat split; try done.
    + intros H. apply fmap_nil_inv in H. done.
    + rewrite Forall_fmap. eapply Forall_impl; [exact Hall|]. intros c Hcc. by apply seq_ok in Hcc as [? _].
  - rewrite !seq_ok, !raise_if_ok, !for_each_ok in *. destruct Hv as (Hne & Hc & Hd & Hall).
    unfold _validate_question_count, len in *. rewrite length_fmap. repeat split; try done.
    + intros H. apply fmap_nil_inv in H. done.
    + by rewrite <- list_fmap_compose.
    + rewrite Forall_fmap. eapply Forall_impl; [exact Hall|]. apply validate_question_derives_shape.
Qed.

(** What a destination may answer to one question. *)
Definition answers_accepted (question : UserInputQuestionShape) (answers : list pystr) : Prop :=
  qs_min_answers question ≤ len answers ≤ qs_max_answers question ∧ NoDup answers ∧
  Forall (λ a, a ≠ [] ∧ (a ∈ qs_choice_ids question ∨ qs_allows_other question = true)) answers.

(** What a destination may answer to a delivered request. *)
Definition response_accepted (shape : RequestResponseShape) (response : RequestResponse) : Prop :=
  match shape, response with
  | ApprovalResponseShape choice_ids, ApprovalResponse choice_id => choice_id ∈ choice_ids
  | UserInputResponseShape questions, UserInputResponse answers =>
      (∀ q, q ∈ d_keys answers → q ∈ qs_question_id <$> questions) ∧
      Forall (λ q, answers_accepted q (default [] (d_get answers (qs_question_id q)))) questions
  | _, _ => False
  end.

Lemma validate_question_answers_ok answers qid question :
  validate_question_answers answers qid question = Ok () ↔
  answers_accepted question (default [] (d_get answers qid)).
Proof.
  unfold validate_question_answers, answers_accepted. cbn zeta.
  rewrite !seq_ok, !raise_if_ok, all_distinct_NoDup, for_each_ok, !Forall_forall.
  setoid_rewrite seq_ok. setoid_rewrite raise_if_ok.
  assert (∀ a, ¬ (a ∉ qs_choice_ids question ∧ qs_allows_other question = false) ↔
    a ∈ qs_choice_ids question ∨ qs_allows_other question = true) as Hiff.
  { intros a. destruct (decide (a ∈ qs_choice_ids question)), (qs_allows_other question); naive_solver. }
  setoid_rewrite Hiff. intuition lia.
Qed.

Lemma validate_shape_distinct questions :
  validate_request_response_shape (UserInputResponseShape questions) = Ok () →
  NoDup (qs_question_id <$> questions).
Proof. cbn. rewrite !seq_ok, !raise_if_ok, all_distinct_NoDup. tauto. Qed.

(** The response validator accepts exactly the responses that were offered. *)
Theorem validate_request_response_iff response shape :
  validate_request_response response shape = Ok () ↔
  validate_request_response_shape shape = Ok () ∧
  validate_request_response_admission response = Ok () ∧ response_accepted shape response.
Proof.
  unfold validate_request_response. rewrite !seq_ok.
  apply and_under_l. intros Hshape. apply and_under_l. intros Hadm.
  destruct shape as [ids|questions], response as [c|answers]; cbn [response_accepted]; try done.
  - rewrite seq_ok, raise_if_ok. cbn in Hadm. split.
    + intros [_ H]. by apply dec_stable in H.
    + intros H. split; [done|tauto].
  - pose proof (validate_shape_distinct _ Hshape) as Hnd. cbn zeta.
    rewrite d_of_list_distinct by done.
    rewrite seq_ok, raise_if_ok, for_each_ok, Forall_fmap.
    assert (d_keys ((λ x, (qs_question_id x, id x)) <$> questions) = qs_question_id <$> questions) as ->.
    { unfold d_keys. by rewrite <- list_fmap_compose. }
    rewrite Exists_exists. apply and_iff.
    + split.
      * intros H q Hq. destruct (decide (q ∈ qs_question_id <$> questions)); [done|]. exfalso; eauto.
      * intros H (q & Hq & Hn). eauto.
    + apply Forall_iff. intros q. apply validate_question_answers_ok.
Qed.
