(* ===== verification/ChannelContract.v ===== *)
(** Delivery receipts of [interaction/channels/contract.py] and the message
    content of [interaction/media.py] and [interaction/messages.py] they refer
    to. *)

From S2P Require Export Contracts PyTime PyJson.
#[local] Open Scope Z_scope.
#[local] Open Scope stdpp_scope.

(** [interaction/messages.py:26-28] TextFormat *)
Inductive TextFormat : Type := PLAIN | MARKDOWN.
#[export] Instance TextFormat_eq_dec : EqDecision TextFormat.
Proof. solve_decision. Defined.

(** [interaction/media.py:98-101] AttachmentSourceKind *)
Inductive AttachmentSourceKind : Type := LOCAL_PATH | REMOTE_URL | ATTACHMENT_HANDLE.
#[export] Instance AttachmentSourceKind_eq_dec : EqDecision AttachmentSourceKind.
Proof. solve_decision. Defined.

(** [interaction/media.py:110-137] AttachmentSource *)
Inductive AttachmentSource : Type :=
| LocalPath (path : pystr)
| RemoteUrl (url : pystr)
| AttachmentHandle (handle_id : pystr).
#[export] Instance AttachmentSource_eq_dec : EqDecision AttachmentSource.
Proof. solve_decision. Defined.

Definition source_kind (s : AttachmentSource) : AttachmentSourceKind :=
  match s with
  | LocalPath _ => LOCAL_PATH
  | RemoteUrl _ => REMOTE_URL
  | AttachmentHandle _ => ATTACHMENT_HANDLE
  end.

(** [interaction/media.py:140-147] AttachmentContent *)
Record AttachmentContent := {
  ac_attachment_id : pystr;
  ac_media_type : pystr;
  ac_source : AttachmentSource;
  ac_filename : option pystr;
  ac_size_bytes : option Z;
  ac_metadata : Metadata;
}.
#[export] Instance AttachmentContent_eq_dec : EqDecision AttachmentContent.
Proof. solve_decision. Defined.

(** [interaction/messages.py:31-37] Content *)
Inductive Content : Type :=
| TextContent (text : pystr) (format : TextFormat)
| Attachment (a : AttachmentContent).
#[export] Instance Content_eq_dec : EqDecision Content.
Proof. solve_decision. Defined.

(** [interaction/channels/contract.py:190-194] DeliveryReceiptStatus *)
Inductive DeliveryReceiptStatus : Type :=
| ACCEPTED_BY_PLATFORM | REJECTED_BY_PLATFORM | RETRYABLE_FAILURE | DELIVERY_UNKNOWN.
#[export] Instance DeliveryReceiptStatus_eq_dec : EqDecision DeliveryReceiptStatus.
Proof. solve_decision. Defined.

(** [interaction/channels/contract.py:197-202] DeliveryItemStatus *)
Inductive DeliveryItemStatus : Type :=
| ITEM_ACCEPTED | ITEM_REJECTED | ITEM_RETRYABLE_FAILURE | ITEM_UNKNOWN | ITEM_SKIPPED.
#[export] Instance DeliveryItemStatus_eq_dec : EqDecision DeliveryItemStatus.
Proof. solve_decision. Defined.

(** [interaction/channels/contract.py:205-210] DeliverySegmentStatus *)
Inductive DeliverySegmentStatus : Type :=
| SEGMENT_ACCEPTED_BY_PLATFORM | SEGMENT_REJECTED_BY_PLATFORM | SEGMENT_RETRYABLE_FAILURE
| SEGMENT_UNKNOWN | SEGMENT_SKIPPED.
#[export] Instance DeliverySegmentStatus_eq_dec : EqDecision DeliverySegmentStatus.
Proof. solve_decision. Defined.

(** [interaction/channels/contract.py:213-219] DeliveryItemReceipt *)
Record DeliveryItemReceipt := {
  di_content_index : Z;
  di_status : DeliveryItemStatus;
  di_attachment_id : option pystr;
  di_native_message_id : option pystr;
  di_detail : option pystr;
}.
#[export] Instance DeliveryItemReceipt_eq_dec : EqDecision DeliveryItemReceipt.
Proof. solve_decision. Defined.

(** [interaction/channels/contract.py:222-230] DeliverySegmentReceipt *)
Record DeliverySegmentReceipt := {
  dg_segment_index : Z;
  dg_delivery_id : pystr;
  dg_source_content_indexes : list Z;
  dg_status : DeliverySegmentStatus;
  dg_native_message_id : option pystr;
  dg_detail : option pystr;
  dg_retry_after_seconds : option pyfloat;
}.
#[export] Instance DeliverySegmentReceipt_eq_dec : EqDecision DeliverySegmentReceipt.
Proof. solve_decision. Defined.

(** [interaction/channels/contract.py:233-240] DeliveryReceipt *)
Record DeliveryReceipt := {
  dr_status : DeliveryReceiptStatus;
  dr_native_message_id : option pystr;
  dr_detail : option pystr;
  dr_items : list DeliveryItemReceipt;
  dr_segments : list DeliverySegmentReceipt;
  dr_retry_after_seconds : option pyfloat;
}.
#[export] Instance DeliveryReceipt_eq_dec : EqDecision DeliveryReceipt.
Proof. solve_decision. Defined.

(** [interaction/channels/contract.py:257-276] validate_receipt_items *)
Fixpoint validate_receipt_items (seen_indexes : list Z) (items : list DeliveryItemReceipt)
    : res unit :=
  match items with
  | [] => Ok ()
  | item :: items' =>
      raise_if (di_content_index item < 0)
        (ContractViolation "delivery receipt content_index cannot be negative") ;;
      raise_if (di_content_index item ∈ seen_indexes)
        (ContractViolation "delivery receipt content indexes must be unique") ;;
      raise_if (di_status item = ITEM_RETRYABLE_FAILURE ∧ is_Some (di_native_message_id item))
        (ContractViolation "retryable delivery item cannot contain native acceptance identity") ;;
      when_some (di_attachment_id item) (λ i, require_identifier i "attachment_id") ;;
      when_some (di_native_message_id item) (λ i, require_identifier i "item.native_message_id") ;;
      validate_receipt_items (di_content_index item :: seen_indexes) items'
  end.

(** [interaction/channels/contract.py:279-315] validate_receipt_segments *)
Fixpoint validate_receipt_segments (seen_indexes : list Z) (seen_ids : list pystr)
    (segments : list DeliverySegmentReceipt) : res unit :=
  match segments with
  | [] => Ok ()
  | segment :: segments' =>
      raise_if (dg_segment_index segment < 0)
        (ContractViolation "delivery segment index cannot be negative") ;;
      raise_if (dg_segment_index segment ∈ seen_indexes)
        (ContractViolation "delivery segment indexes must be unique") ;;
      require_identifier (dg_delivery_id segment) "segment.delivery_id" ;;
      raise_if (dg_delivery_id segment ∈ seen_ids)
        (ContractViolation "delivery segment IDs must be unique") ;;
      raise_if (dg_source_content_indexes segment = [])
        (ContractViolation "delivery segment requires source content indexes") ;;
      raise_if (all_distinct (dg_source_content_indexes segment) = false)
        (ContractViolation "delivery segment source indexes must be unique") ;;
      raise_if (Exists (λ i, i < 0) (dg_source_content_indexes segment))
        (ContractViolation "delivery segment source index cannot be negative") ;;
      raise_if (dg_status segment = SEGMENT_RETRYABLE_FAILURE
                ∧ is_Some (dg_native_message_id segment))
        (ContractViolation "retryable delivery segment cannot contain native acceptance identity") ;;
      when_some (dg_retry_after_seconds segment) (λ s,
        raise_if (dg_status segment ≠ SEGMENT_RETRYABLE_FAILURE)
          (ContractViolation "segment retry_after_seconds is valid only for retryable failures") ;;
        raise_if (¬ isfinite s)
          (ContractViolation "segment retry_after_seconds must be finite") ;;
        raise_if (float_neg s)
          (ContractViolation "segment retry_after_seconds cannot be negative")) ;;
      when_some (dg_native_message_id segment) (λ i,
        require_identifier i "segment.native_message_id") ;;
      validate_receipt_segments (dg_segment_index segment :: seen_indexes)
        (dg_delivery_id segment :: seen_ids) segments'
  end.

(** [interaction/channels/contract.py:243-345] validate_delivery_receipt *)
Definition validate_delivery_receipt (receipt : DeliveryReceipt) : res unit :=
  when_some (dr_retry_after_seconds receipt) (λ s,
    raise_if (dr_status receipt ≠ RETRYABLE_FAILURE)
      (ContractViolation "retry_after_seconds is valid only for retryable delivery failures") ;;
    raise_if (¬ isfinite s) (ContractViolation "retry_after_seconds must be finite") ;;
    raise_if (float_neg s) (ContractViolation "retry_after_seconds cannot be negative")) ;;
  when_some (dr_native_message_id receipt) (λ i, require_identifier i "native_message_id") ;;
  validate_receipt_items [] (dr_items receipt) ;;
  validate_receipt_segments [] [] (dr_segments receipt) ;;
  if decide (dr_status receipt = RETRYABLE_FAILURE) then
    raise_if (is_Some (dr_native_message_id receipt))
      (ContractViolation "retryable delivery receipt cannot contain native acceptance identity") ;;
    raise_if (Exists (λ i, di_status i = ITEM_ACCEPTED ∨ di_status i = ITEM_UNKNOWN) (dr_items receipt))
      (ContractViolation "retryable delivery receipt cannot contain accepted or unknown items") ;;
    raise_if (Exists (λ i, is_Some (di_native_message_id i)) (dr_items receipt))
      (ContractViolation
        "retryable delivery receipt items cannot contain native acceptance identity") ;;
    raise_if (Exists (λ s, dg_status s = SEGMENT_ACCEPTED_BY_PLATFORM
                           ∨ dg_status s = SEGMENT_UNKNOWN) (dr_segments receipt))
      (ContractViolation "retryable delivery receipt cannot contain accepted or unknown segments") ;;
    raise_if (Exists (λ s, is_Some (dg_native_message_id s)) (dr_segments receipt))
      (ContractViolation
        "retryable delivery receipt segments cannot contain native acceptance identity")
  else Ok ().

(** [interaction/channels/contract.py:348-371] validate_delivery_receipt_for_content *)
Definition validate_delivery_receipt_for_content (receipt : DeliveryReceipt)
    (content : list Content) : res unit :=
  validate_delivery_receipt receipt ;;
  for_each (dr_items receipt) (λ item,
    raise_if (len content ≤ di_content_index item)
      (ContractViolation "delivery item receipt content_index is outside submitted content") ;;
    match di_attachment_id item, content !! Z.to_nat (di_content_index item) with
    | None, _ => Ok ()
    | Some i, Some (Attachment a) =>
        raise_if (i ≠ ac_attachment_id a)
          (ContractViolation "delivery item receipt attachment_id does not match submitted content")
    | Some _, _ =>
        mraise (ContractViolation
          "delivery item receipt attachment_id refers to non-attachment content")
    end) ;;
  for_each (dr_segments receipt) (λ segment,
    raise_if (Exists (λ i, len content ≤ i) (dg_source_content_indexes segment))
      (ContractViolation "delivery segment source index is outside submitted content")).

(** * Correctness *)

(** Evidence that the platform may already have taken part of a message. *)
Definition acceptance_evidence (receipt : DeliveryReceipt) : Prop :=
  is_Some (dr_native_message_id receipt) ∨
  Exists (λ i, di_status i = ITEM_ACCEPTED ∨ di_status i = ITEM_UNKNOWN
               ∨ is_Some (di_native_message_id i)) (dr_items receipt) ∨
  Exists (λ s, dg_status s = SEGMENT_ACCEPTED_BY_PLATFORM ∨ dg_status s = SEGMENT_UNKNOWN
               ∨ is_Some (dg_native_message_id s)) (dr_segments receipt).

(** A receipt that permits a retry carries no evidence of acceptance, so
    retrying it cannot deliver a part of the message twice. *)
Theorem retryable_receipt_has_no_acceptance_evidence receipt :
  validate_delivery_receipt receipt = Ok () →
  dr_status receipt = RETRYABLE_FAILURE → ¬ acceptance_evidence receipt.
Proof.
  unfold validate_delivery_receipt. rewrite !seq_ok. intros (_ & _ & _ & _ & H) Hs.
  rewrite decide_True in H by done. rewrite !seq_ok, !raise_if_ok, !Exists_exists in H.
  destruct H as (H1 & H2 & H3 & H4 & H5). unfold acceptance_evidence. rewrite !Exists_exists.
  intros [H|[(x & Hx & [H|[H|H]])|(x & Hx & [H|[H|H]])]]; naive_solver.
Qed.

Lemma validate_receipt_items_indexes seen items :
  validate_receipt_items seen items = Ok () →
  NoDup (di_content_index <$> items) ∧
  Forall (λ i, 0 ≤ di_content_index i ∧ di_content_index i ∉ seen) items.
Proof.
  revert seen. induction items as [|item items IH]; intros seen; cbn [validate_receipt_items].
  - intros _. split; constructor.
  - rewrite !seq_ok, !raise_if_ok. intros (Hn & Hs & _ & _ & _ & H%IH). destruct H as [Hnd Hall].
    rewrite Forall_forall in Hall. split.
    + rewrite fmap_cons. constructor; [|done]. intros (i & Hi & Hin)%list_elem_of_fmap.
      destruct (Hall _ Hin) as [_ Hni]. rewrite Hi in Hni. set_solver.
    + constructor; [split; [lia|done]|]. apply Forall_forall. intros i Hin.
      destruct (Hall _ Hin) as [? ?]. set_solver.
Qed.

(** Every item of an accepted receipt points at one submitted content
    item, each content item is reported at most once, and an attachment is
    reported under its own identity. *)
Theorem receipt_items_match_content receipt content :
  validate_delivery_receipt_for_content receipt content = Ok () →
  NoDup (di_content_index <$> dr_items receipt) ∧
  Forall (λ item, ∃ c, content !! Z.to_nat (di_content_index item) = Some c ∧
    match di_attachment_id item with
    | Some i => ∃ a, c = Attachment a ∧ ac_attachment_id a = i
    | None => True
    end) (dr_items receipt).
Proof.
  unfold validate_delivery_receipt_for_content. rewrite !seq_ok, !for_each_ok.
  intros (Hv & Hitems & _). unfold validate_delivery_receipt in Hv. rewrite !seq_ok in Hv.
  destruct Hv as (_ & _ & Hv%validate_receipt_items_indexes & _). destruct Hv as [Hnd Hpos].
  split; [done|]. rewrite Forall_forall in *. intros item Hin.
  destruct (Hpos _ Hin) as [Hp _]. specialize (Hitems _ Hin). apply seq_ok in Hitems as [Hlt Hatt].
  rewrite raise_if_ok in Hlt.
  destruct (lookup_lt_is_Some_2 content (Z.to_nat (di_content_index item))) as [c Hc].
  { unfold len in Hlt. lia. }
  exists c. split; [done|]. rewrite Hc in Hatt.
  destruct (di_attachment_id item) as [i|]; [|done]. destruct c as [t f|a]; [done|].
  rewrite raise_if_ok in Hatt. apply dec_stable in Hatt. eauto.
Qed.
