(* ===== verification/Applications.v ===== *)
(** What an Agent Application is asked and answers: its capabilities, the summaries
    and histories of [applications/contract.py], and the typed operations of
    [applications/operations.py] with the checks of their results. *)

From S2P Require Export Requests ChannelContract.
From Stdlib Require Qcanon.
From stdpp Require Import list.
#[local] Open Scope Z_scope.
#[local] Open Scope stdpp_scope.

(** * Capabilities *)

(** [applications/capabilities.py:11-14] SupportLevel *)
Inductive SupportLevel : Type := NATIVE | FALLBACK | UNSUPPORTED.
#[export] Instance SupportLevel_eq_dec : EqDecision SupportLevel.
Proof. solve_decision. Defined.

(** [applications/capabilities.py:17-20] EventSequenceScope *)
Inductive EventSequenceScope : Type := SCOPE_NONE | SCOPE_THREAD | SCOPE_APPLICATION.
#[export] Instance EventSequenceScope_eq_dec : EqDecision EventSequenceScope.
Proof. solve_decision. Defined.

(** [applications/capabilities.py:23-26] ProjectMode *)
Inductive ProjectMode : Type := MANAGED | FLAT | FIXED.
#[export] Instance ProjectMode_eq_dec : EqDecision ProjectMode.
Proof. solve_decision. Defined.

(** [applications/capabilities.py:29-32] ThreadDeletionCapability *)
Inductive ThreadDeletionCapability : Type := DELETION_UNSUPPORTED | DELETION_ARCHIVE | DELETION_PERMANENT.
#[export] Instance ThreadDeletionCapability_eq_dec : EqDecision ThreadDeletionCapability.
Proof. solve_decision. Defined.

(** [applications/capabilities.py:35-41] ProjectCapabilities *)
Record ProjectCapabilities := {
  pc_mode : ProjectMode;
  pc_discovery : SupportLevel;
  pc_reading : SupportLevel;
  pc_creation : SupportLevel;
  pc_deletion : SupportLevel;
}.

(** [applications/capabilities.py:44-44] MAX_THREAD_CREATION_PROFILES *)
Definition MAX_THREAD_CREATION_PROFILES : Z := 32.
(** [applications/capabilities.py:45-45] MAX_THREAD_CREATION_PROFILE_ID *)
Definition MAX_THREAD_CREATION_PROFILE_ID : Z := 128.

(** [applications/capabilities.py:48-53] ThreadCreationProfile *)
Record ThreadCreationProfile := { tp_profile_id : pystr; tp_fingerprint : pystr }.

(** [applications/capabilities.py:56-68] validate_thread_creation_profile *)
Definition validate_thread_creation_profile (profile : ThreadCreationProfile) : res unit :=
  raise_if (¬ (1 ≤ len (tp_profile_id profile) ≤ MAX_THREAD_CREATION_PROFILE_ID))
    (ContractViolation "creation profile ID must be bounded non-empty text") ;;
  raise_if (is_sha256_hex (tp_fingerprint profile) = false)
    (ContractViolation "creation profile fingerprint must be lowercase SHA-256").

(** [applications/capabilities.py:71-77] ThreadCapabilities *)
Record ThreadCapabilities := {
  tc_listing : SupportLevel;
  tc_creation : SupportLevel;
  tc_reading : SupportLevel;
  tc_deletion : ThreadDeletionCapability;
  tc_creation_profiles : list ThreadCreationProfile;
}.

(** [applications/capabilities.py:80-90] RuntimeCapabilities *)
Record RuntimeCapabilities := {
  uc_history : SupportLevel;
  uc_streaming : SupportLevel;
  uc_replay_from_cursor : SupportLevel;
  uc_interruption : SupportLevel;
  uc_interactive_requests : SupportLevel;
  uc_pending_request_snapshot : SupportLevel;
  uc_native_thread_activation : SupportLevel;
  uc_gap_detection : SupportLevel;
  uc_event_sequence_scope : EventSequenceScope;
}.

(** [applications/capabilities.py:93-98] ApplicationCapabilities *)
Record ApplicationCapabilities := {
  ca_projects : ProjectCapabilities;
  ca_threads : ThreadCapabilities;
  ca_runtime : RuntimeCapabilities;
  ca_attachment_sources : list AttachmentSourceKind;
}.

(** [applications/capabilities.py:101-192] validate_application_capabilities *)
Definition validate_application_capabilities (capabilities : ApplicationCapabilities) : res unit :=
  let projects := ca_projects capabilities in
  let threads := ca_threads capabilities in
  let runtime := ca_runtime capabilities in
  raise_if (all_distinct (ca_attachment_sources capabilities) = false)
    (ContractViolation "application attachment source capabilities must be unique") ;;
  let profiles := tc_creation_profiles threads in
  raise_if (MAX_THREAD_CREATION_PROFILES < len profiles)
    (ContractViolation "Thread creation profiles must be a bounded tuple") ;;
  for_each profiles validate_thread_creation_profile ;;
  raise_if (all_distinct (tp_profile_id <$> profiles) = false)
    (ContractViolation "Thread creation profile IDs must be unique") ;;
  raise_if (profiles ≠ [] ∧ tc_creation threads = UNSUPPORTED)
    (ContractViolation "Thread creation profiles require creation support") ;;
  raise_if (uc_pending_request_snapshot runtime ≠ UNSUPPORTED ∧ uc_interactive_requests runtime = UNSUPPORTED)
    (ContractViolation "pending request snapshot requires interactive request support") ;;
  raise_if (uc_gap_detection runtime ≠ UNSUPPORTED ∧ uc_event_sequence_scope runtime = SCOPE_NONE)
    (ContractViolation "gap detection requires a declared event sequence scope") ;;
  if decide (pc_mode projects = MANAGED) then
    raise_if (pc_discovery projects ≠ NATIVE)
      (ContractViolation "managed project mode requires native project discovery") ;;
    raise_if (pc_reading projects ≠ NATIVE)
      (ContractViolation "managed project mode requires native project reads") ;;
    raise_if (pc_creation projects = FALLBACK)
      (ContractViolation "managed project creation cannot use fallback support") ;;
    raise_if (pc_deletion projects = FALLBACK)
      (ContractViolation "managed project deletion cannot use fallback support")
  else
    raise_if (pc_discovery projects ≠ FALLBACK)
      (ContractViolation "project discovery must be an adapter projection") ;;
    raise_if (pc_reading projects ≠ FALLBACK)
      (ContractViolation "project reads must be an adapter projection") ;;
    raise_if (pc_creation projects ≠ UNSUPPORTED ∨ pc_deletion projects ≠ UNSUPPORTED)
      (ContractViolation "project mode cannot advertise native management").

(** * Summaries and histories *)

(** [applications/contract.py:111-119] ThreadStatus *)
Inductive ThreadStatus : Type :=
| TS_IDLE | TS_RUNNING | TS_WAITING_FOR_APPROVAL | TS_WAITING_FOR_INPUT | TS_COMPLETED | TS_FAILED
| TS_INTERRUPTED | TS_UNKNOWN.
#[export] Instance ThreadStatus_eq_dec : EqDecision ThreadStatus.
Proof. solve_decision. Defined.

(** [applications/contract.py:122-129] ApplicationSummary *)
Record ApplicationSummary := {
  as_ref : ApplicationRef;
  as_kind : pystr;
  as_display_name : pystr;
  as_capabilities : ApplicationCapabilities;
  as_workspace_identity : option WorkspaceIdentity;
}.

(** [applications/contract.py:132-139] ProjectSummary *)
Record ProjectSummary := {
  ps_ref : ProjectRef;
  ps_display_name : pystr;
  ps_root_path : option pystr;
  ps_repo_url : option pystr;
  ps_workspace_root_fingerprint : option pystr;
}.

(** [applications/contract.py:157-165] validate_project_summary *)
Definition validate_project_summary (project : ProjectSummary) : res unit :=
  validate_project_ref (ps_ref project) ;;
  raise_if (ps_display_name project = []) (ContractViolation "project display_name cannot be empty") ;;
  raise_if (ps_root_path project = Some []) (ContractViolation "project root_path cannot be empty") ;;
  when_some (ps_workspace_root_fingerprint project) _validate_workspace_root_fingerprint.

(** [applications/contract.py:168-184] validate_application_summary *)
Definition validate_application_summary (summary : ApplicationSummary) : res unit :=
  require_identifier (ar_application_instance_id (as_ref summary)) "application_instance_id" ;;
  require_identifier (as_kind summary) "kind" ;;
  raise_if (as_display_name summary = []) (ContractViolation "application display_name cannot be empty") ;;
  validate_application_capabilities (as_capabilities summary) ;;
  if decide (pc_mode (ca_projects (as_capabilities summary)) = MANAGED) then
    raise_if (is_Some (as_workspace_identity summary))
      (ContractViolation "managed application cannot declare one workspace identity")
  else
    match as_workspace_identity summary with
    | None => mraise (ContractViolation "application requires workspace identity")
    | Some identity =>
        validate_workspace_identity identity ;;
        raise_if (pr_application_instance_id (wi_project_ref identity)
                  ≠ ar_application_instance_id (as_ref summary))
          (ContractViolation "workspace identity belongs to a different application")
    end.

(** [applications/contract.py:196-202] ThreadSummary *)
Record ThreadSummary := {
  ts_ref : ThreadRef;
  ts_status : ThreadStatus;
  ts_title : option pystr;
  ts_updated_at : option datetime;
}.

(** [applications/contract.py:205-206] validate_thread_summary *)
Definition validate_thread_summary (summary : ThreadSummary) : res unit :=
  validate_thread_ref (ts_ref summary).

(** [interaction/messages.py:40-44] MessageRole *)
Inductive MessageRole : Type := ROLE_USER | ROLE_ASSISTANT | ROLE_SYSTEM | ROLE_TOOL.

(** [applications/contract.py:217-225] AgentMessage *)
Record AgentMessage := {
  am_agent_item_id : pystr;
  am_thread_ref : ThreadRef;
  am_role : MessageRole;
  am_content : list Content;
  am_created_at : datetime;
  am_client_message_id : option pystr;
  am_metadata : Metadata;
}.

(** [applications/contract.py:228-230] validate_agent_message *)
Definition validate_agent_message (message : AgentMessage) : res unit :=
  require_identifier (am_agent_item_id message) "agent_item_id" ;;
  validate_thread_ref (am_thread_ref message).

(** [applications/contract.py:233-239] TurnStatus *)
Inductive TurnStatus : Type := TURN_IDLE | TURN_RUNNING | TURN_COMPLETED | TURN_FAILED | TURN_INTERRUPTED | TURN_UNKNOWN.
#[export] Instance TurnStatus_eq_dec : EqDecision TurnStatus.
Proof. solve_decision. Defined.

(** [applications/contract.py:242-249] TurnCatchup *)
Record TurnCatchup := {
  ct_thread_ref : ThreadRef;
  ct_turn_ref : option TurnRef;
  ct_status : TurnStatus;
  ct_messages : list AgentMessage;
  ct_updated_at : option datetime;
}.

(** The checks of a message of a catch-up or an entry. *)
Definition validate_message_of (thread : ThreadRef) (violation : string) (message : AgentMessage) : res unit :=
  validate_agent_message message ;;
  raise_if (am_thread_ref message ≠ thread) (ContractViolation violation).

(** [applications/contract.py:252-264] validate_turn_catchup *)
Definition validate_turn_catchup (catchup : TurnCatchup) : res unit :=
  validate_thread_ref (ct_thread_ref catchup) ;;
  match ct_turn_ref catchup with
  | None => raise_if (ct_status catchup ≠ TURN_IDLE) (ContractViolation "non-idle catch-up requires a Turn")
  | Some turn =>
      validate_turn_ref turn ;;
      raise_if (tn_thread_ref turn ≠ ct_thread_ref catchup)
        (ContractViolation "catch-up Turn belongs to a different Thread")
  end ;;
  for_each (ct_messages catchup)
    (validate_message_of (ct_thread_ref catchup) "catch-up message belongs to a different Thread").

(** [applications/contract.py:267-275] TurnHistoryEntry *)
Record TurnHistoryEntry := {
  he_turn_ref : TurnRef;
  he_status : TurnStatus;
  he_user_message : option AgentMessage;
  he_agent_messages : list AgentMessage;
  he_error : option pystr;
  he_had_compaction : bool;
}.

(** [applications/contract.py:278-287] validate_turn_history_entry *)
Definition validate_turn_history_entry (entry : TurnHistoryEntry) : res unit :=
  validate_turn_ref (he_turn_ref entry) ;;
  for_each (option_list (he_user_message entry) ++ he_agent_messages entry)
    (validate_message_of (tn_thread_ref (he_turn_ref entry)) "history message belongs to a different Thread").

(** [applications/contract.py:290-296] ThreadHistory *)
Record ThreadHistory := {
  hi_thread_ref : ThreadRef;
  hi_turns : list TurnHistoryEntry;
  hi_page : Z;
  hi_has_older : bool;
}.

(** [applications/contract.py:299-306] validate_thread_history *)
Definition validate_thread_history (history : ThreadHistory) : res unit :=
  validate_thread_ref (hi_thread_ref history) ;;
  raise_if (hi_page history < 1) (ContractViolation "history page must be positive") ;;
  for_each (hi_turns history) (λ entry,
    validate_turn_history_entry entry ;;
    raise_if (tn_thread_ref (he_turn_ref entry) ≠ hi_thread_ref history)
      (ContractViolation "history Turn belongs to a different Thread")).

(** [interaction/operations.py:17-21] ContractError *)
Record ContractError := { ce_code : pystr; ce_message : pystr; ce_retryable : bool }.

(** [applications/operations.py:667-670] _validate_error *)
Definition _validate_error (error : ContractError) : res unit :=
  require_identifier (ce_code error) "error.code" ;;
  raise_if (ce_message error = []) (ContractViolation "operation error message cannot be empty").

(** * Operations *)

(** [applications/operations.py:41-55] ApplicationOperationType *)
Inductive ApplicationOperationType : Type :=
| PROJECT_LIST | PROJECT_GET | PROJECT_CREATE | PROJECT_DELETE | THREAD_CREATE | THREAD_LIST | THREAD_GET
| THREAD_ACTIVATE_NATIVE | THREAD_DELETE | THREAD_STATUS | THREAD_HISTORY | TURN_CATCHUP | TURN_INTERRUPT
| REQUEST_RESPOND.
#[export] Instance ApplicationOperationType_eq_dec : EqDecision ApplicationOperationType.
Proof. solve_decision. Defined.

(** [applications/operations.py:58-60] ThreadDeletionMode *)
Inductive ThreadDeletionMode : Type := ARCHIVE | PERMANENT.
#[export] Instance ThreadDeletionMode_eq_dec : EqDecision ThreadDeletionMode.
Proof. solve_decision. Defined.

(** [applications/operations.py:70-207] ApplicationOperation: what each class adds to
    the common fields *)
Inductive operation_request : Type :=
| ListProjects (query cursor : option pystr)
| GetProject (project_ref : ProjectRef)
| CreateProject (cwd : pystr) (display_name : option pystr)
| DeleteProject (project_ref : ProjectRef)
| CreateThread (project_ref : ProjectRef) (title : option pystr) (initial_context : list Content)
    (creation_profile : option ThreadCreationProfile)
| ListThreads (project_ref : ProjectRef) (query cursor : option pystr)
| GetThread (thread_ref : ThreadRef)
| ActivateNativeThread (thread_ref : ThreadRef)
| DeleteThread (thread_ref : ThreadRef) (mode : ThreadDeletionMode)
| GetThreadStatus (thread_ref : ThreadRef)
| GetThreadHistory (thread_ref : ThreadRef) (limit page : Z)
| GetTurnCatchup (thread_ref : ThreadRef) (limit : Z)
| InterruptTurn (thread_ref : ThreadRef) (turn_ref : option TurnRef)
| RespondRequest (request_ref : RequestRef) (response : RequestResponse) (turn_ref : TurnRef).

(** [applications/operations.py:63-67] _ApplicationOperation *)
Record ApplicationOperation := {
  ao_operation_id : pystr;
  ao_application_ref : ApplicationRef;
  ao_created_at : datetime;
  ao_request : operation_request;
}.

Definition request_type (request : operation_request) : ApplicationOperationType :=
  match request with
  | ListProjects _ _ => PROJECT_LIST
  | GetProject _ => PROJECT_GET
  | CreateProject _ _ => PROJECT_CREATE
  | DeleteProject _ => PROJECT_DELETE
  | CreateThread _ _ _ _ => THREAD_CREATE
  | ListThreads _ _ _ => THREAD_LIST
  | GetThread _ => THREAD_GET
  | ActivateNativeThread _ => THREAD_ACTIVATE_NATIVE
  | DeleteThread _ _ => THREAD_DELETE
  | GetThreadStatus _ => THREAD_STATUS
  | GetThreadHistory _ _ _ => THREAD_HISTORY
  | GetTurnCatchup _ _ => TURN_CATCHUP
  | InterruptTurn _ _ => TURN_INTERRUPT
  | RespondRequest _ _ _ => REQUEST_RESPOND
  end.
Definition ao_type (operation : ApplicationOperation) : ApplicationOperationType :=
  request_type (ao_request operation).

(** [applications/contract.py:22-25] Page *)
Record Page (A : Type) := { pg_items : list A; pg_next_cursor : option pystr }.
Arguments pg_items {A} _.
Arguments pg_next_cursor {A} _.

(** [applications/operations.py:254-380] the successful results: what each class adds *)
Inductive operation_answer : Type :=
| ProjectsListed (projects : Page ProjectSummary)
| ProjectRead (project : ProjectSummary)
| ProjectCreated (project : ProjectSummary)
| ProjectDeleted (project_ref : ProjectRef)
| ThreadCreated (thread : ThreadSummary)
| ThreadsListed (threads : Page ThreadSummary)
| ThreadRead (thread : ThreadSummary)
| NativeThreadActivated (thread_ref : ThreadRef)
| ThreadDeleted (thread_ref : ThreadRef) (mode : ThreadDeletionMode)
| ThreadStatusRead (thread_ref : ThreadRef) (thread_status : ThreadStatus)
| ThreadHistoryRead (history : ThreadHistory)
| TurnCatchupRead (catchup : TurnCatchup)
| TurnInterrupted (thread_ref : ThreadRef) (turn_ref : option TurnRef)
| RequestResponded (request_ref : RequestRef).

(** [applications/operations.py:244-251] _ApplicationOperationSucceeded, and
    [ApplicationOperationFailed], whose type is its own *)
Inductive ApplicationOperationResult : Type :=
| ApplicationOperationSucceeded (operation_id : pystr) (completed_at : datetime) (answer : operation_answer)
| ApplicationOperationFailed (operation_id : pystr) (type : ApplicationOperationType)
    (error : ContractError) (completed_at : datetime).

Definition answer_type (answer : operation_answer) : ApplicationOperationType :=
  match answer with
  | ProjectsListed _ => PROJECT_LIST
  | ProjectRead _ => PROJECT_GET
  | ProjectCreated _ => PROJECT_CREATE
  | ProjectDeleted _ => PROJECT_DELETE
  | ThreadCreated _ => THREAD_CREATE
  | ThreadsListed _ => THREAD_LIST
  | ThreadRead _ => THREAD_GET
  | NativeThreadActivated _ => THREAD_ACTIVATE_NATIVE
  | ThreadDeleted _ _ => THREAD_DELETE
  | ThreadStatusRead _ _ => THREAD_STATUS
  | ThreadHistoryRead _ => THREAD_HISTORY
  | TurnCatchupRead _ => TURN_CATCHUP
  | TurnInterrupted _ _ => TURN_INTERRUPT
  | RequestResponded _ => REQUEST_RESPOND
  end.
Definition result_id (result : ApplicationOperationResult) : pystr :=
  match result with
  | ApplicationOperationSucceeded i _ _ | ApplicationOperationFailed i _ _ _ => i
  end.
Definition result_type (result : ApplicationOperationResult) : ApplicationOperationType :=
  match result with
  | ApplicationOperationSucceeded _ _ answer => answer_type answer
  | ApplicationOperationFailed _ type _ _ => type
  end.

(** * Bounds *)

(** [applications/operations.py:26-26] MAX_PROJECT_CWD_LENGTH *)
Definition MAX_PROJECT_CWD_LENGTH : Z := 4096.
(** [applications/operations.py:27-27] MAX_PROJECT_DISPLAY_NAME_LENGTH *)
Definition MAX_PROJECT_DISPLAY_NAME_LENGTH : Z := 128.
(** [applications/operations.py:28-28] MAX_LIST_QUERY_LENGTH *)
Definition MAX_LIST_QUERY_LENGTH : Z := 4096.
(** [applications/operations.py:29-29] MAX_LIST_CURSOR_LENGTH *)
Definition MAX_LIST_CURSOR_LENGTH : Z := 4096.
(** [applications/operations.py:30-30] MAX_LIST_PAGE_ITEMS *)
Definition MAX_LIST_PAGE_ITEMS : Z := 1000.
(** [applications/operations.py:31-31] MAX_THREAD_TITLE_LENGTH *)
Definition MAX_THREAD_TITLE_LENGTH : Z := 512.
(** [applications/operations.py:32-32] MAX_THREAD_INITIAL_CONTEXT_ITEMS *)
Definition MAX_THREAD_INITIAL_CONTEXT_ITEMS : Z := 32.
(** [applications/operations.py:33-33] MAX_THREAD_INITIAL_CONTEXT_TEXT_LENGTH *)
Definition MAX_THREAD_INITIAL_CONTEXT_TEXT_LENGTH : Z := 65536.
(** [applications/operations.py:34-34] MAX_THREAD_INITIAL_CONTEXT_ATTACHMENT_FIELD_LENGTH *)
Definition MAX_THREAD_INITIAL_CONTEXT_ATTACHMENT_FIELD_LENGTH : Z := 4096.
(** [applications/operations.py:35-35] MAX_THREAD_INITIAL_CONTEXT_HANDLE_LENGTH *)
Definition MAX_THREAD_INITIAL_CONTEXT_HANDLE_LENGTH : Z := 512.
(** [applications/operations.py:36-36] MAX_THREAD_INITIAL_CONTEXT_METADATA_ITEMS *)
Definition MAX_THREAD_INITIAL_CONTEXT_METADATA_ITEMS : Z := 64.
(** [applications/operations.py:37-37] MAX_THREAD_INITIAL_CONTEXT_METADATA_BYTES *)
Definition MAX_THREAD_INITIAL_CONTEXT_METADATA_BYTES : Z := 65536.

(** [applications/operations.py:673-675] _require_bounded_text *)
Definition _require_bounded_text (value : pystr) (name : string) (limit : Z) : res unit :=
  raise_if (value = [] ∨ limit < len value) (ContractViolation name).

(** [applications/operations.py:678-684] _require_optional_bounded_text *)
Definition _require_optional_bounded_text (value : option pystr) (name : string) (limit : Z) : res unit :=
  when_some value (λ v, raise_if (limit < len v) (ContractViolation name)).

(** [applications/operations.py:687-696] _validate_page *)
Definition _validate_page {A} (value : Page A) : res unit :=
  raise_if (MAX_LIST_PAGE_ITEMS < len (pg_items value))
    (ContractViolation "list result must contain at most 1000 items") ;;
  _require_optional_bounded_text (pg_next_cursor value) "next_cursor" MAX_LIST_CURSOR_LENGTH.

Section metadata.
(** [float.__repr__] of the language. *)
Context (float_repr : Qcanon.Qc → pystr).

(** Whether [json.dumps(..., allow_nan=False)] has a text for a value. *)
Fixpoint json_finite (v : jvalue) : bool :=
  match v with
  | VArr l => forallb json_finite l
  | VObj d => forallb (λ kv, json_finite kv.2) d
  | VFloat f => bool_decide (isfinite f)
  | VOther _ => false
  | _ => true
  end.

(** [applications/operations.py:760-783] _validate_initial_context_metadata *)
Definition _validate_initial_context_metadata (value : Metadata) : res unit :=
  raise_if (MAX_THREAD_INITIAL_CONTEXT_METADATA_ITEMS < len value)
    (ContractViolation "initial_context metadata must contain at most 64 items") ;;
  let unencodable := ContractViolation "initial_context metadata must be finite JSON-compatible values" in
  raise_if (json_finite (VObj value) = false) unencodable ;;
  match (text ← dumps_sorted float_repr (VObj value) ; utf8 text) with
  | Err _ => mraise unencodable
  | Ok encoded =>
      raise_if (MAX_THREAD_INITIAL_CONTEXT_METADATA_BYTES < len encoded)
        (ContractViolation "initial_context metadata exceeds its canonical byte limit")
  end.

(** [applications/operations.py:699-757] _validate_initial_context *)
Definition _validate_initial_context (value : list Content) : res unit :=
  raise_if (MAX_THREAD_INITIAL_CONTEXT_ITEMS < len value)
    (ContractViolation "initial_context must contain at most 32 items") ;;
  for_each value (λ item,
    match item with
    | TextContent text _ =>
        raise_if (MAX_THREAD_INITIAL_CONTEXT_TEXT_LENGTH < len text)
          (ContractViolation "initial_context text must contain at most 65536 characters")
    | Attachment a =>
        require_identifier (ac_attachment_id a) "attachment_id" ;;
        _require_bounded_text (ac_media_type a) "media_type" MAX_THREAD_INITIAL_CONTEXT_ATTACHMENT_FIELD_LENGTH ;;
        when_some (ac_filename a) (λ filename,
          _require_bounded_text filename "filename" MAX_THREAD_INITIAL_CONTEXT_ATTACHMENT_FIELD_LENGTH) ;;
        when_some (ac_size_bytes a) (λ size,
          raise_if (size < 0) (ContractViolation "size_bytes cannot be negative")) ;;
        match ac_source a with
        | LocalPath path =>
            _require_bounded_text path "path" MAX_THREAD_INITIAL_CONTEXT_ATTACHMENT_FIELD_LENGTH
        | RemoteUrl url =>
            _require_bounded_text url "url" MAX_THREAD_INITIAL_CONTEXT_ATTACHMENT_FIELD_LENGTH
        | AttachmentHandle handle =>
            _require_bounded_text handle "handle_id" MAX_THREAD_INITIAL_CONTEXT_HANDLE_LENGTH
        end ;;
        _validate_initial_context_metadata (ac_metadata a)
    end).

(** The project an operation names, and the Thread. *)
Definition request_project (request : operation_request) : option ProjectRef :=
  match request with
  | GetProject p | DeleteProject p | CreateThread p _ _ _ | ListThreads p _ _ => Some p
  | _ => None
  end.
Definition request_thread (request : operation_request) : option ThreadRef :=
  match request with
  | GetThread t | ActivateNativeThread t | DeleteThread t _ | GetThreadStatus t | GetThreadHistory t _ _
  | GetTurnCatchup t _ | InterruptTurn t _ => Some t
  | RespondRequest _ _ turn => Some (tn_thread_ref turn)
  | _ => None
  end.

(** [applications/operations.py:414-510] validate_application_operation *)
Definition validate_application_operation (operation : ApplicationOperation) : res unit :=
  require_identifier (ao_operation_id operation) "operation_id" ;;
  let application_id := ar_application_instance_id (ao_application_ref operation) in
  require_identifier application_id "application_instance_id" ;;
  when_some (request_project (ao_request operation)) (λ project_ref,
    validate_project_ref project_ref ;;
    raise_if (pr_application_instance_id project_ref ≠ application_id)
      (ContractViolation "operation project belongs to a different application")) ;;
  match ao_request operation with
  | RespondRequest request_ref response turn_ref =>
      validate_request_ref request_ref ;;
      validate_request_response_admission response ;;
      raise_if (rq_application_ref request_ref ≠ ao_application_ref operation)
        (ContractViolation "request belongs to a different application") ;;
      validate_turn_ref turn_ref
  | _ => Ok ()
  end ;;
  when_some (request_thread (ao_request operation)) (λ thread_ref,
    validate_thread_ref thread_ref ;;
    raise_if (pr_application_instance_id (th_project_ref thread_ref) ≠ application_id)
      (ContractViolation "operation thread belongs to a different application")) ;;
  match ao_request operation with
  | CreateProject cwd display_name =>
      _require_bounded_text cwd "cwd" MAX_PROJECT_CWD_LENGTH ;;
      when_some display_name (λ name,
        _require_bounded_text name "display_name" MAX_PROJECT_DISPLAY_NAME_LENGTH)
  | ListProjects query cursor | ListThreads _ query cursor =>
      _require_optional_bounded_text query "query" MAX_LIST_QUERY_LENGTH ;;
      _require_optional_bounded_text cursor "cursor" MAX_LIST_CURSOR_LENGTH
  | CreateThread _ title initial_context creation_profile =>
      when_some creation_profile validate_thread_creation_profile ;;
      when_some title (λ t, _require_bounded_text t "title" MAX_THREAD_TITLE_LENGTH) ;;
      _validate_initial_context initial_context
  | GetThreadHistory _ limit page =>
      raise_if (¬ (1 ≤ limit ≤ 20)) (ContractViolation "history limit must be between 1 and 20") ;;
      raise_if (page < 1) (ContractViolation "history page must be positive")
  | GetTurnCatchup _ limit =>
      raise_if (¬ (1 ≤ limit ≤ 20)) (ContractViolation "catch-up limit must be between 1 and 20")
  | InterruptTurn thread_ref turn_ref =>
      when_some turn_ref (λ turn,
        validate_turn_ref turn ;;
        raise_if (tn_thread_ref turn ≠ thread_ref)
          (ContractViolation "turn.interrupt Turn belongs to a different Thread"))
  | RespondRequest _ (UserInputResponse answers) _ =>
      raise_if (answers = []) (ContractViolation "user input response requires answers") ;;
      for_each answers (λ '(question_id, values),
        require_identifier question_id "question_id" ;;
        raise_if (values = [] ∨ [] ∈ values)
          (ContractViolation "each user input question requires non-empty answers"))
  | RespondRequest _ (ApprovalResponse choice_id) _ => require_identifier choice_id "choice_id"
  | _ => Ok ()
  end.
End metadata.

(** * Results *)

(** The resources a result names. *)
Inductive resource : Type := Project (p : ProjectRef) | Thread (t : ThreadRef).
Definition resource_application (r : resource) : pystr :=
  match r with
  | Project p => pr_application_instance_id p
  | Thread t => pr_application_instance_id (th_project_ref t)
  end.

(** [applications/operations.py:548-653] validate_application_operation_result: the check of
    each kind of answer, and the resources it names *)
Definition answer_refs (request : operation_request) (answer : operation_answer) : res (list resource) :=
  match answer, request with
  | ProjectsListed projects, ListProjects _ _ =>
      _validate_page projects ;;
      for_each (pg_items projects) validate_project_summary ;;
      Ok ((λ project, Project (ps_ref project)) <$> pg_items projects)
  | ProjectRead project, GetProject project_ref =>
      validate_project_summary project ;;
      raise_if (ps_ref project ≠ project_ref) (ContractViolation "project.get returned a different project") ;;
      Ok [Project (ps_ref project)]
  | ProjectCreated project, CreateProject _ _ =>
      validate_project_summary project ;; Ok [Project (ps_ref project)]
  | ProjectDeleted deleted, DeleteProject project_ref =>
      validate_project_ref deleted ;;
      raise_if (deleted ≠ project_ref) (ContractViolation "project.delete returned a different project") ;;
      Ok [Project deleted]
  | ThreadCreated thread, CreateThread project_ref _ _ _ =>
      validate_thread_summary thread ;;
      raise_if (th_project_ref (ts_ref thread) ≠ project_ref)
        (ContractViolation "thread.create returned a different project scope") ;;
      Ok [Thread (ts_ref thread)]
  | ThreadsListed threads, ListThreads project_ref _ _ =>
      _validate_page threads ;;
      for_each (pg_items threads) validate_thread_summary ;;
      raise_if (Exists (λ thread, th_project_ref (ts_ref thread) ≠ project_ref) (pg_items threads))
        (ContractViolation "thread.list returned a different project scope") ;;
      Ok ((λ thread, Thread (ts_ref thread)) <$> pg_items threads)
  | ThreadRead thread, GetThread thread_ref =>
      validate_thread_summary thread ;;
      raise_if (ts_ref thread ≠ thread_ref) (ContractViolation "thread.get returned a different thread") ;;
      Ok [Thread (ts_ref thread)]
  | NativeThreadActivated activated, ActivateNativeThread thread_ref =>
      validate_thread_ref activated ;;
      raise_if (activated ≠ thread_ref)
        (ContractViolation "thread.activate_native returned a different thread") ;;
      Ok [Thread activated]
  | ThreadDeleted deleted mode, DeleteThread thread_ref requested =>
      validate_thread_ref deleted ;;
      raise_if (deleted ≠ thread_ref) (ContractViolation "thread.delete returned a different thread") ;;
      raise_if (mode ≠ requested) (ContractViolation "thread.delete returned a different deletion mode") ;;
      Ok [Thread deleted]
  | ThreadStatusRead thread _, GetThreadStatus thread_ref =>
      validate_thread_ref thread ;;
      raise_if (thread ≠ thread_ref) (ContractViolation "thread.status returned a different thread") ;;
      Ok [Thread thread]
  | ThreadHistoryRead history, GetThreadHistory thread_ref limit _ =>
      validate_thread_history history ;;
      raise_if (hi_thread_ref history ≠ thread_ref)
        (ContractViolation "thread.history returned a different thread") ;;
      raise_if (limit < len (hi_turns history))
        (ContractViolation "thread.history returned more Turns than requested") ;;
      Ok [Thread (hi_thread_ref history)]
  | TurnCatchupRead catchup, GetTurnCatchup thread_ref limit =>
      validate_turn_catchup catchup ;;
      raise_if (ct_thread_ref catchup ≠ thread_ref)
        (ContractViolation "turn.catchup returned a different thread") ;;
      raise_if (limit < len (ct_messages catchup))
        (ContractViolation "turn.catchup returned more messages than requested") ;;
      Ok [Thread (ct_thread_ref catchup)]
  | TurnInterrupted thread turn, InterruptTurn thread_ref turn_ref =>
      validate_thread_ref thread ;;
      when_some turn validate_turn_ref ;;
      raise_if (thread ≠ thread_ref) (ContractViolation "turn.interrupt returned a different thread") ;;
      raise_if (turn ≠ turn_ref) (ContractViolation "turn.interrupt returned a different Turn") ;;
      Ok [Thread thread]
  | RequestResponded responded, RespondRequest request_ref _ _ =>
      raise_if (responded ≠ request_ref)
        (ContractViolation "request.respond returned a different request") ;;
      Ok []
  | _, _ => mraise (ContractViolation "an operation returned a result of another class")
  end.

(** [applications/operations.py:513-664] validate_application_operation_result *)
Definition validate_application_operation_result (operation : ApplicationOperation)
    (result : ApplicationOperationResult) : res unit :=
  require_identifier (result_id result) "operation_id" ;;
  raise_if (result_id result ≠ ao_operation_id operation)
    (ContractViolation "operation result ID does not match the request") ;;
  raise_if (result_type result ≠ ao_type operation)
    (ContractViolation "operation result type does not match the request") ;;
  match result with
  | ApplicationOperationFailed _ _ error _ => _validate_error error
  | ApplicationOperationSucceeded _ _ answer =>
      refs ← answer_refs (ao_request operation) answer ;
      raise_if (Exists (λ ref, resource_application ref
                  ≠ ar_application_instance_id (ao_application_ref operation)) refs)
        (ContractViolation "operation result belongs to a different application")
  end.

(** * Which results are accepted *)

(** A page of a listing. *)
Definition page_bounded {A} (page : Page A) : Prop :=
  len (pg_items page) ≤ MAX_LIST_PAGE_ITEMS ∧
  ∀ cursor, pg_next_cursor page = Some cursor → len cursor ≤ MAX_LIST_CURSOR_LENGTH.
Definition page_valid {A} (valid : A → Prop) (page : Page A) : Prop :=
  page_bounded page ∧ Forall valid (pg_items page).

Definition project_summary_valid (p : ProjectSummary) : Prop := validate_project_summary p = Ok ().
Definition thread_summary_valid (t : ThreadSummary) : Prop := validate_thread_ref (ts_ref t) = Ok ().

(** The answers to a request: of its class, valid, and about what was asked for. *)
Inductive answers : operation_request → operation_answer → Prop :=
| answers_projects query cursor page :
    page_valid project_summary_valid page → answers (ListProjects query cursor) (ProjectsListed page)
| answers_project p : project_summary_valid p → answers (GetProject (ps_ref p)) (ProjectRead p)
| answers_created_project cwd name p :
    project_summary_valid p → answers (CreateProject cwd name) (ProjectCreated p)
| answers_deleted_project p : validate_project_ref p = Ok () → answers (DeleteProject p) (ProjectDeleted p)
| answers_created_thread title context profile t :
    thread_summary_valid t →
    answers (CreateThread (th_project_ref (ts_ref t)) title context profile) (ThreadCreated t)
| answers_threads p query cursor page :
    page_valid (λ t, thread_summary_valid t ∧ th_project_ref (ts_ref t) = p) page →
    answers (ListThreads p query cursor) (ThreadsListed page)
| answers_thread t : thread_summary_valid t → answers (GetThread (ts_ref t)) (ThreadRead t)
| answers_activated t : validate_thread_ref t = Ok () → answers (ActivateNativeThread t) (NativeThreadActivated t)
| answers_deleted_thread t mode :
    validate_thread_ref t = Ok () → answers (DeleteThread t mode) (ThreadDeleted t mode)
| answers_status t status :
    validate_thread_ref t = Ok () → answers (GetThreadStatus t) (ThreadStatusRead t status)
| answers_history limit page history :
    validate_thread_history history = Ok () → len (hi_turns history) ≤ limit →
    answers (GetThreadHistory (hi_thread_ref history) limit page) (ThreadHistoryRead history)
| answers_catchup limit catchup :
    validate_turn_catchup catchup = Ok () → len (ct_messages catchup) ≤ limit →
    answers (GetTurnCatchup (ct_thread_ref catchup) limit) (TurnCatchupRead catchup)
| answers_interrupted t turn :
    validate_thread_ref t = Ok () → (∀ u, turn = Some u → validate_turn_ref u = Ok ()) →
    answers (InterruptTurn t turn) (TurnInterrupted t turn)
| answers_responded request response turn :
    answers (RespondRequest request response turn) (RequestResponded request).

Definition answer_resources (answer : operation_answer) : list resource :=
  match answer with
  | ProjectsListed page => (λ p, Project (ps_ref p)) <$> pg_items page
  | ProjectRead p | ProjectCreated p => [Project (ps_ref p)]
  | ProjectDeleted p => [Project p]
  | ThreadCreated t | ThreadRead t => [Thread (ts_ref t)]
  | ThreadsListed page => (λ t, Thread (ts_ref t)) <$> pg_items page
  | NativeThreadActivated t | ThreadDeleted t _ | ThreadStatusRead t _ | TurnInterrupted t _ => [Thread t]
  | ThreadHistoryRead history => [Thread (hi_thread_ref history)]
  | TurnCatchupRead catchup => [Thread (ct_thread_ref catchup)]
  | RequestResponded _ => []
  end.

Lemma validate_page_ok {A} (page : Page A) (u : unit) : _validate_page page = Ok u ↔ page_bounded page.
Proof.
  unfold _validate_page, _require_optional_bounded_text, page_bounded. destruct u.
  rewrite then_ok, raise_if_ok, when_some_ok. setoid_rewrite raise_if_ok.
  split; intros [? Hc]; (split; [lia|]); intros c Hcur; specialize (Hc c Hcur); lia.
Qed.

Lemma checked_answers request answer refs :
  answer_refs request answer = Ok refs → answers request answer ∧ refs = answer_resources answer.
Proof.
  intros H. destruct answer, request; try discriminate H; cbn in H; inv_ok; subst; cbn;
    repeat match goal with
    | H : when_some _ _ = Ok _ |- _ => rewrite when_some_ok in H
    | H : for_each _ _ = Ok _ |- _ => rewrite for_each_ok in H
    | H : _validate_page _ = Ok _ |- _ => rewrite validate_page_ok in H
    | H : ¬ Exists _ _ |- _ => rewrite <- Forall_Exists_neg in H
    | H : ¬ (_ ≠ _) |- _ => apply dec_stable in H; subst
    end; (split; [constructor|done]); try done; try lia.
  split; [done|]. apply Forall_and. split; [done|].
  eapply Forall_impl; [done|]. intros t Ht. by apply dec_stable in Ht.
Qed.

Lemma answers_checked request answer :
  answers request answer → answer_refs request answer = Ok (answer_resources answer).
Proof.
  assert (∀ P `{Decision P} e, ¬ P → (raise_if P e : res unit) = Ok ()) as Hif.
  { intros P ? e HP. by apply raise_if_ok. }
  destruct 1; cbn; unfold page_valid, project_summary_valid, thread_summary_valid, validate_thread_summary in *;
    destruct_and?;
    repeat match goal with
    | H : page_bounded _ |- _ => apply (validate_page_ok _ ()) in H; rewrite H; clear H; cbn
    | H : Forall _ _ |- context [for_each ?l ?f] =>
        assert (for_each l f = Ok ()) as -> by (apply for_each_ok; eapply Forall_impl; [exact H|]; naive_solver);
        cbn
    | H : ?x = Ok () |- context [?x] => rewrite H; cbn
    | |- context [raise_if (?x ≠ ?x) _] => rewrite Hif by naive_solver; cbn
    | |- context [raise_if (_ < _) _] => rewrite Hif by lia; cbn
    | H : ∀ u, ?t = Some u → _ |- context [when_some ?t ?f] =>
        assert (when_some t f = Ok ()) as -> by (by apply when_some_ok); cbn
    end; try done.
  rewrite Hif; [done|]. apply Forall_Exists_neg. eapply Forall_impl; [done|]. naive_solver.
Qed.

(** What the result of an operation has to be. *)
Definition result_accepted (operation : ApplicationOperation) (result : ApplicationOperationResult) : Prop :=
  identifier (result_id result) ∧ result_id result = ao_operation_id operation ∧
  match result with
  | ApplicationOperationFailed _ type error _ =>
      type = ao_type operation ∧ identifier (ce_code error) ∧ ce_message error ≠ []
  | ApplicationOperationSucceeded _ _ answer =>
      answers (ao_request operation) answer ∧
      Forall (λ ref, resource_application ref = ar_application_instance_id (ao_application_ref operation))
        (answer_resources answer)
  end.

Lemma answers_type request answer : answers request answer → answer_type answer = request_type request.
Proof. by destruct 1. Qed.

(** C9. The check of a result accepts exactly the results that answer the operation: of
    its ID and class, within the bounds of what was asked for, about the very
    resource the operation names, and of no other Application. *)
Theorem application_result_is_accepted_iff operation result :
  validate_application_operation_result operation result = Ok () ↔ result_accepted operation result.
Proof.
  unfold validate_application_operation_result, result_accepted.
  rewrite !seq_ok, require_identifier_ok, !raise_if_ok. unfold ao_type. split.
  - intros (Hid & Hsame & Htype & H). apply dec_stable in Hsame, Htype. split_and!; [done..|].
    destruct result as [i t answer|i type error t]; cbn in *.
    + apply res_bind_ok in H as (refs & [Ha ->]%checked_answers & H). split; [done|].
      rewrite raise_if_ok, <- Forall_Exists_neg in H. eapply Forall_impl; [exact H|].
      intros r Hr. by apply dec_stable in Hr.
    + unfold _validate_error in H. by rewrite seq_ok, require_identifier_ok, raise_if_ok in H.
  - intros (Hid & Hsame & H). destruct result as [i t answer|i type error t]; cbn in *.
    + destruct H as [Ha Hr]. pose proof (answers_type _ _ Ha). split_and!; [done|naive_solver..|].
      rewrite (answers_checked _ _ Ha). cbn. apply raise_if_ok, Forall_Exists_neg.
      eapply Forall_impl; [exact Hr|]. naive_solver.
    + split_and!; [done|naive_solver..|]. unfold _validate_error.
      rewrite seq_ok, require_identifier_ok, raise_if_ok. tauto.
Qed.
