(* ===== verification/StateContracts.v ===== *)
(** The bridge state of [gateway/persistence/state_contracts.py]: bindings,
    projection routes, Turn reply correlations, request correlations, queued
    inputs and delivery submissions, with their validators, and the queued
    input evidence merge of [gateway/persistence/queue_receipts.py]. *)

From S2P Require Export Contracts PyTime PyDict Requests ChannelContract.
#[local] Open Scope Z_scope.
#[local] Open Scope stdpp_scope.

(** [gateway/persistence/state_contracts.py:44-48] RequestRouteState *)
Inductive RequestRouteState : Type := OPEN | RESPONDED | RESOLVED | STALE.
#[export] Instance RequestRouteState_eq_dec : EqDecision RequestRouteState.
Proof. solve_decision. Defined.

(** [gateway/persistence/state_contracts.py:51-62] RequestRouteCorrelation *)
Record RequestRouteCorrelation := {
  rr_correlation_id : pystr;
  rr_request_ref : RequestRef;
  rr_turn_ref : TurnRef;
  rr_conversation_ref : ConversationRef;
  rr_delivery_id : pystr;
  rr_response_shape : RequestResponseShape;
  rr_state : RequestRouteState;
  rr_created_at : datetime;
  rr_updated_at : datetime;
  rr_expires_at : option datetime;
}.
#[export] Instance RequestRouteCorrelation_eq_dec : EqDecision RequestRouteCorrelation.
Proof. solve_decision. Defined.

(** [gateway/persistence/state_contracts.py:65-72] ConversationBinding *)
Record ConversationBinding := {
  cb_conversation_ref : ConversationRef;
  cb_application_ref : option ApplicationRef;
  cb_project_ref : option ProjectRef;
  cb_thread_ref : option ThreadRef;
  cb_generation : Z;
  cb_updated_at : option datetime;
}.
#[export] Instance ConversationBinding_eq_dec : EqDecision ConversationBinding.
Proof. solve_decision. Defined.

(** [gateway/persistence/state_contracts.py:75-83] ThreadProjectionRoute *)
Record ThreadProjectionRoute := {
  tr_route_id : pystr;
  tr_thread_ref : ThreadRef;
  tr_conversation_ref : ConversationRef;
  tr_reply_to_message_id : option pystr;
  tr_checkpoint_agent_item_id : option pystr;
  tr_checkpointed_at : option datetime;
  tr_updated_at : option datetime;
}.
#[export] Instance ThreadProjectionRoute_eq_dec : EqDecision ThreadProjectionRoute.
Proof. solve_decision. Defined.

(** [gateway/persistence/state_contracts.py:86-93] TurnReplyCorrelation *)
Record TurnReplyCorrelation := {
  tc_correlation_id : pystr;
  tc_turn_ref : TurnRef;
  tc_client_message_id : pystr;
  tc_conversation_ref : ConversationRef;
  tc_reply_to_message_id : pystr;
  tc_created_at : datetime;
}.
#[export] Instance TurnReplyCorrelation_eq_dec : EqDecision TurnReplyCorrelation.
Proof. solve_decision. Defined.

(** [gateway/persistence/state_contracts.py:96-107] QueuedInputOrigin *)
Record QueuedInputOrigin := {
  qo_conversation_ref : ConversationRef;
  qo_message_id : pystr;
  qo_actor_fingerprint : pystr;
  qo_thread_ref : ThreadRef;
  qo_binding_generation : Z;
  qo_client_message_id : pystr;
  qo_input_fingerprint : pystr;
  qo_continuation : InputContinuationPreference;
}.
#[export] Instance QueuedInputOrigin_eq_dec : EqDecision QueuedInputOrigin.
Proof. solve_decision. Defined.

(** [gateway/persistence/state_contracts.py:110-117] QueuedInputCorrelation *)
Record QueuedInputCorrelation := {
  qc_origin : QueuedInputOrigin;
  qc_receipt : option QueuedInputReceipt;
  qc_created_at : datetime;
  qc_updated_at : datetime;
}.
#[export] Instance QueuedInputCorrelation_eq_dec : EqDecision QueuedInputCorrelation.
Proof. solve_decision. Defined.

(** [gateway/persistence/state_contracts.py:273-279] _validate_generation *)
Definition _validate_generation (value : option Z) (label : string) (optional : bool) : res unit :=
  match value with
  | None => raise_if (optional = false) (ContractViolation label)
  | Some v => raise_if (v < 0) (ContractViolation label)
  end.

(** [gateway/persistence/state_contracts.py:177-180] _require_queued_identifier *)
Definition _require_queued_identifier (value : pystr) (label : string) : res unit :=
  require_identifier value label.

(** [gateway/persistence/state_contracts.py:183-188] _validate_queued_input_lookup *)
Definition _validate_queued_input_lookup (conversation_ref : ConversationRef) (message_id : pystr)
    : res unit :=
  _require_queued_identifier (cv_channel_instance_id conversation_ref) "channel_instance_id" ;;
  _require_queued_identifier (cv_native_conversation_id conversation_ref) "native_conversation_id" ;;
  _require_queued_identifier message_id "message_id".

(** [gateway/persistence/state_contracts.py:120-151] validate_queued_input_origin *)
Definition validate_queued_input_origin (origin : QueuedInputOrigin) : res unit :=
  _validate_queued_input_lookup (qo_conversation_ref origin) (qo_message_id origin) ;;
  let thread_ref := qo_thread_ref origin in
  for_each
    [(pr_application_instance_id (th_project_ref thread_ref), "application_instance_id"%string);
     (pr_project_id (th_project_ref thread_ref), "project_id"%string);
     (th_thread_id thread_ref, "thread_id"%string);
     (qo_client_message_id origin, "client_message_id"%string)]
    (λ vl, _require_queued_identifier vl.1 vl.2) ;;
  let fingerprint := qo_actor_fingerprint origin in
  raise_if (len fingerprint ≠ 64 ∨ forallb is_hex_char fingerprint = false)
    (ContractViolation "actor fingerprint must be lowercase SHA-256") ;;
  validate_queued_input_dispatch {|
    qd_thread_ref := qo_thread_ref origin;
    qd_client_message_id := qo_client_message_id origin;
    qd_input_fingerprint := qo_input_fingerprint origin
  |} ;;
  _validate_generation (Some (qo_binding_generation origin)) "binding generation" false ;;
  raise_if (qo_continuation origin ≠ QUEUE)
    (ContractViolation "queued input continuation must be QUEUE").

(** [gateway/persistence/state_contracts.py:154-174] validate_queued_input_correlation *)
Definition validate_queued_input_correlation (record : QueuedInputCorrelation) : res unit :=
  validate_queued_input_origin (qc_origin record) ;;
  for_each [qc_created_at record; qc_updated_at record] (λ value,
    raise_if (tz_is_none value)
      (ContractViolation "queued input times must include a valid timezone")) ;;
  raise_if_lt (qc_updated_at record) (qc_created_at record)
    (ContractViolation "queued input update precedes creation") ;;
  when_some (qc_receipt record) (λ receipt,
    validate_queued_input_receipt receipt ;;
    _require_queued_identifier (qr_queued_item_id receipt) "queued_item_id" ;;
    when_some (qr_turn_ref receipt) (λ t, _require_queued_identifier (tn_turn_id t) "turn_id") ;;
    raise_if (qr_thread_ref receipt ≠ qo_thread_ref (qc_origin record)
              ∨ qr_client_message_id receipt ≠ qo_client_message_id (qc_origin record)
              ∨ qr_input_fingerprint receipt ≠ qo_input_fingerprint (qc_origin record))
      (ContractViolation "queued input receipt does not match original input")).

(** [gateway/persistence/state_contracts.py:191-191] MAX_DELIVERY_SUBMISSION_DESTINATIONS *)
Definition MAX_DELIVERY_SUBMISSION_DESTINATIONS : Z := 64.

(** [gateway/persistence/state_contracts.py:194-200] DeliverySubmissionState *)
Inductive DeliverySubmissionState : Type :=
| IN_FLIGHT | ACCEPTED | REJECTED | RETRYABLE | PARTIAL | UNKNOWN.
#[export] Instance DeliverySubmissionState_eq_dec : EqDecision DeliverySubmissionState.
Proof. solve_decision. Defined.

(** [gateway/persistence/state_contracts.py:203-205] DeliverySubmissionOrigin *)
Inductive DeliverySubmissionOrigin : Type := EXTERNAL | GATEWAY_INTERNAL.
#[export] Instance DeliverySubmissionOrigin_eq_dec : EqDecision DeliverySubmissionOrigin.
Proof. solve_decision. Defined.

(** [gateway/persistence/state_contracts.py:208-214] DeliveryRouteSnapshot *)
Record DeliveryRouteSnapshot := {
  ds_conversation_ref : ConversationRef;
  ds_thread_ref : option ThreadRef;
  ds_route_id : option pystr;
  ds_route_updated_at : option datetime;
  ds_reply_to_message_id : option pystr;
}.
#[export] Instance DeliveryRouteSnapshot_eq_dec : EqDecision DeliveryRouteSnapshot.
Proof. solve_decision. Defined.

(** [gateway/persistence/state_contracts.py:217-223] DestinationDeliveryRecord *)
Record DestinationDeliveryRecord := {
  dd_delivery_id : pystr;
  dd_snapshot : DeliveryRouteSnapshot;
  dd_state : DeliverySubmissionState;
  dd_updated_at : datetime;
  dd_receipt : option DeliveryReceipt;
}.
#[export] Instance DestinationDeliveryRecord_eq_dec : EqDecision DestinationDeliveryRecord.
Proof. solve_decision. Defined.

(** [gateway/persistence/state_contracts.py:226-236] DeliverySubmissionRecord *)
Record DeliverySubmissionRecord := {
  sr_submission_id : pystr;
  sr_delivery_id : pystr;
  sr_origin : DeliverySubmissionOrigin;
  sr_principal_id : pystr;
  sr_target_fingerprint : pystr;
  sr_payload_fingerprint : pystr;
  sr_destinations : list DestinationDeliveryRecord;
  sr_created_at : datetime;
  sr_updated_at : datetime;
}.
#[export] Instance DeliverySubmissionRecord_eq_dec : EqDecision DeliverySubmissionRecord.
Proof. solve_decision. Defined.

(** [gateway/persistence/state_contracts.py:239-242] DeliveryReservation *)
Record DeliveryReservation := { rv_acquired : bool; rv_record : DeliverySubmissionRecord }.

(** [x.y if x else None] on references, and [value or ""]. *)
Definition application_id_of (a : option ApplicationRef) : option pystr :=
  ar_application_instance_id <$> a.
Definition or_empty (s : option pystr) : pystr := default [] s.

(** [gateway/persistence/state_contracts.py:245-270] validate_binding *)
Definition validate_binding (binding : ConversationBinding) : res unit :=
  require_identifier (cv_channel_instance_id (cb_conversation_ref binding)) "channel_instance_id" ;;
  require_identifier (cv_native_conversation_id (cb_conversation_ref binding))
    "native_conversation_id" ;;
  _validate_generation (Some (cb_generation binding)) "binding generation" false ;;
  let application_id := application_id_of (cb_application_ref binding) in
  when_some (cb_application_ref binding) (λ _,
    require_identifier (or_empty application_id) "application_instance_id") ;;
  when_some (cb_project_ref binding) (λ p,
    validate_project_ref p ;;
    raise_if (application_id ≠ Some (pr_application_instance_id p))
      (ContractViolation "binding project belongs to a different application")) ;;
  when_some (cb_thread_ref binding) (λ t,
    validate_thread_ref t ;;
    raise_if (cb_application_ref binding = None ∨ cb_project_ref binding = None)
      (ContractViolation "binding Thread requires Application and Project") ;;
    raise_if (application_id ≠ Some (pr_application_instance_id (th_project_ref t)))
      (ContractViolation "binding thread belongs to a different application")) ;;
  when_some (cb_thread_ref binding) (λ t,
    raise_if (cb_project_ref binding ≠ Some (th_project_ref t))
      (ContractViolation "binding thread belongs to a different project")).

(** [gateway/persistence/state_contracts.py:282-303] validate_projection_route *)
Definition validate_projection_route (route : ThreadProjectionRoute) : res unit :=
  require_identifier (tr_route_id route) "route_id" ;;
  validate_thread_ref (tr_thread_ref route) ;;
  require_identifier (cv_channel_instance_id (tr_conversation_ref route)) "channel_instance_id" ;;
  require_identifier (cv_native_conversation_id (tr_conversation_ref route))
    "native_conversation_id" ;;
  when_some (tr_reply_to_message_id route) (λ i, require_identifier i "reply_to_message_id") ;;
  when_some (tr_checkpoint_agent_item_id route) (λ i,
    require_identifier i "checkpoint_agent_item_id") ;;
  raise_if (¬ (tr_checkpoint_agent_item_id route = None ↔ tr_checkpointed_at route = None))
    (ContractViolation "checkpoint_agent_item_id and checkpointed_at must be present together").

(** [gateway/persistence/state_contracts.py:306-318] validate_turn_reply_correlation *)
Definition validate_turn_reply_correlation (correlation : TurnReplyCorrelation) : res unit :=
  require_identifier (tc_correlation_id correlation) "correlation_id" ;;
  validate_turn_ref (tc_turn_ref correlation) ;;
  require_identifier (tc_client_message_id correlation) "client_message_id" ;;
  require_identifier (cv_channel_instance_id (tc_conversation_ref correlation))
    "channel_instance_id" ;;
  require_identifier (cv_native_conversation_id (tc_conversation_ref correlation))
    "native_conversation_id" ;;
  require_identifier (tc_reply_to_message_id correlation) "reply_to_message_id".

(** [gateway/persistence/state_contracts.py:321-349] validate_request_route_correlation *)
Definition validate_request_route_correlation (correlation : RequestRouteCorrelation) : res unit :=
  require_identifier (rr_correlation_id correlation) "correlation_id" ;;
  validate_request_ref (rr_request_ref correlation) ;;
  validate_turn_ref (rr_turn_ref correlation) ;;
  raise_if (turn_application_id (rr_turn_ref correlation)
            ≠ ar_application_instance_id (rq_application_ref (rr_request_ref correlation)))
    (ContractViolation "request correlation belongs to a different application") ;;
  require_identifier (cv_channel_instance_id (rr_conversation_ref correlation))
    "channel_instance_id" ;;
  require_identifier (cv_native_conversation_id (rr_conversation_ref correlation))
    "native_conversation_id" ;;
  require_identifier (rr_delivery_id correlation) "delivery_id" ;;
  validate_request_response_shape (rr_response_shape correlation) ;;
  raise_if (tz_is_none (rr_created_at correlation) ∨ tz_is_none (rr_updated_at correlation))
    (ContractViolation "request correlation times must include a timezone") ;;
  raise_if_lt (rr_updated_at correlation) (rr_created_at correlation)
    (ContractViolation "request correlation update precedes creation") ;;
  when_some (rr_expires_at correlation) (λ t,
    raise_if (tz_is_none t)
      (ContractViolation "request correlation expiry must include a timezone")).

(** [gateway/persistence/state_contracts.py:418-426] _validate_conversation_ref *)
Definition _validate_conversation_ref (conversation_ref : ConversationRef) : res unit :=
  require_identifier (cv_channel_instance_id conversation_ref) "channel_instance_id" ;;
  require_identifier (cv_native_conversation_id conversation_ref) "native_conversation_id".

(** [gateway/persistence/state_contracts.py:352-367] validate_delivery_route_snapshot *)
Definition validate_delivery_route_snapshot (snapshot : DeliveryRouteSnapshot) : res unit :=
  _validate_conversation_ref (ds_conversation_ref snapshot) ;;
  match ds_thread_ref snapshot with
  | None =>
      raise_if (is_Some (ds_route_id snapshot) ∨ is_Some (ds_route_updated_at snapshot)
                ∨ is_Some (ds_reply_to_message_id snapshot))
        (ContractViolation "explicit Conversation snapshots cannot contain Thread route fields")
  | Some thread_ref =>
      validate_thread_ref thread_ref ;;
      require_identifier (or_empty (ds_route_id snapshot)) "route_id" ;;
      when_some (ds_reply_to_message_id snapshot) (λ i, require_identifier i "reply_to_message_id")
  end.

(** [gateway/persistence/state_contracts.py:401-406] validate_delivery_submission_destination_count *)
Definition validate_delivery_submission_destination_count (count : Z) : res unit :=
  raise_if (MAX_DELIVERY_SUBMISSION_DESTINATIONS < count)
    (ContractViolation "delivery submission destinations exceed the maximum of 64").

(** [gateway/persistence/state_contracts.py:409-415] _validate_durable_delivery_receipt *)
Definition _validate_durable_delivery_receipt (receipt : DeliveryReceipt) : res unit :=
  raise_if (is_Some (dr_detail receipt))
    (ContractViolation "durable delivery receipt cannot contain detail text") ;;
  raise_if (Exists (λ i, is_Some (di_detail i)) (dr_items receipt))
    (ContractViolation "durable delivery item receipt cannot contain detail text") ;;
  raise_if (Exists (λ s, is_Some (dg_detail s)) (dr_segments receipt))
    (ContractViolation "durable delivery segment receipt cannot contain detail text").

(** [gateway/persistence/state_contracts.py:386-398] validate_destinations: the
    loop over the destinations, with the delivery IDs seen so far. *)
Fixpoint validate_destinations (seen : list pystr) (destinations : list DestinationDeliveryRecord)
    : res unit :=
  match destinations with
  | [] => Ok ()
  | destination :: rest =>
      require_identifier (dd_delivery_id destination) "destination.delivery_id" ;;
      raise_if (dd_delivery_id destination ∈ seen)
        (ContractViolation "destination delivery IDs must be unique") ;;
      raise_if (tz_is_none (dd_updated_at destination))
        (ContractViolation "delivery destination time must include a timezone") ;;
      validate_delivery_route_snapshot (dd_snapshot destination) ;;
      when_some (dd_receipt destination) (λ receipt,
        validate_delivery_receipt receipt ;; _validate_durable_delivery_receipt receipt) ;;
      validate_destinations (dd_delivery_id destination :: seen) rest
  end.

(** [gateway/persistence/state_contracts.py:370-398] validate_delivery_submission_record *)
Definition validate_delivery_submission_record (record : DeliverySubmissionRecord) : res unit :=
  require_identifier (sr_submission_id record) "submission_id" ;;
  require_identifier (sr_delivery_id record) "delivery_id" ;;
  require_identifier (sr_principal_id record) "principal_id" ;;
  require_identifier (sr_target_fingerprint record) "target_fingerprint" ;;
  require_identifier (sr_payload_fingerprint record) "payload_fingerprint" ;;
  raise_if (tz_is_none (sr_created_at record) ∨ tz_is_none (sr_updated_at record))
    (ContractViolation "delivery submission times must include a timezone") ;;
  raise_if_lt (sr_updated_at record) (sr_created_at record)
    (ContractViolation "delivery submission update precedes creation") ;;
  raise_if (sr_destinations record = [])
    (ContractViolation "delivery submission requires at least one destination") ;;
  validate_delivery_submission_destination_count (len (sr_destinations record)) ;;
  validate_destinations [] (sr_destinations record).

(** [replace(stored, receipt=..., updated_at=...)]. *)
Definition with_receipt (c : QueuedInputCorrelation) (receipt : QueuedInputReceipt)
    (updated_at : datetime) : QueuedInputCorrelation := {|
  qc_origin := qc_origin c;
  qc_receipt := Some receipt;
  qc_created_at := qc_created_at c;
  qc_updated_at := updated_at;
|}.

(** [gateway/persistence/queue_receipts.py:44-70] check_queued_turn: the Turn
    correlation an admitted receipt needs and no other may bring. *)
Definition check_queued_turn (origin : QueuedInputOrigin) (receipt : QueuedInputReceipt)
    (turn_correlation : option TurnReplyCorrelation) : res unit :=
  if decide (qr_state receipt = ADMITTED) then
    match turn_correlation with
    | None => mraise QueuedInputReceiptConflict
    | Some t =>
        validate_turn_reply_correlation t ;;
        _require_queued_identifier (tc_correlation_id t) "correlation_id" ;;
        raise_if (tz_is_none (tc_created_at t))
          (ContractViolation "queued Turn correlation time must include a valid timezone") ;;
        raise_if (Some (tc_turn_ref t) ≠ qr_turn_ref receipt
                  ∨ tc_client_message_id t ≠ qo_client_message_id origin
                  ∨ tc_conversation_ref t ≠ qo_conversation_ref origin
                  ∨ tc_reply_to_message_id t ≠ qo_message_id origin)
          QueuedInputReceiptConflict
    end
  else raise_if (is_Some turn_correlation) QueuedInputReceiptConflict.

(** [gateway/persistence/queue_receipts.py:26-82] _merge_queued_receipt *)
Definition _merge_queued_receipt (stored : QueuedInputCorrelation) (origin : QueuedInputOrigin)
    (receipt : QueuedInputReceipt) (turn_correlation : option TurnReplyCorrelation)
    (now : datetime) : res QueuedInputCorrelation :=
  validate_queued_input_origin origin ;;
  validate_queued_input_receipt receipt ;;
  validate_queued_input_correlation stored ;;
  raise_if (qc_origin stored ≠ origin) QueuedInputReceiptConflict ;;
  raise_if (qr_thread_ref receipt ≠ qo_thread_ref origin
            ∨ qr_client_message_id receipt ≠ qo_client_message_id origin
            ∨ qr_input_fingerprint receipt ≠ qo_input_fingerprint origin)
    QueuedInputReceiptConflict ;;
  check_queued_turn origin receipt turn_correlation ;;
  let merged :=
    updated_at ← dt_max (qc_updated_at stored) now ;
    let result := with_receipt stored receipt updated_at in
    validate_queued_input_correlation result ;;
    Ok result in
  match qc_receipt stored with
  | None => merged
  | Some previous =>
      raise_if (qr_queued_item_id previous ≠ qr_queued_item_id receipt)
        QueuedInputReceiptConflict ;;
      if decide (qr_state previous ≠ QUEUED ∧ qr_state receipt = QUEUED) then Ok stored
      else
        raise_if (qr_state previous ≠ QUEUED ∧ previous ≠ receipt) QueuedInputReceiptConflict ;;
        if decide (previous = receipt) then Ok stored else merged
  end.
