(* ===== verification/Idempotency.v ===== *)
(** The process-local claim store of [gateway/persistence/idempotency.py]: a
    claim is acquired by one owner token, may be fenced as having started its
    side effect, is completed for good, or is released for another attempt.
    The lifecycle of one key is the step relation [claim_step]; every operation
    is shown to follow it, and [completed] to be final. *)

From S2P Require Export PyText PyDict.
#[local] Open Scope Z_scope.
#[local] Open Scope stdpp_scope.

(** [gateway/persistence/repository_contracts.py:29-32] IdempotencyClaimStatus *)
Inductive IdempotencyClaimStatus : Type := ACQUIRED | ALREADY_COMPLETED | CLAIM_IN_FLIGHT.
#[export] Instance IdempotencyClaimStatus_eq_dec : EqDecision IdempotencyClaimStatus.
Proof. solve_decision. Defined.

(** The status strings ["in_flight"], ["side_effect_started"], ["completed"]. *)
Inductive ClaimStatus : Type := InFlight | SideEffectStarted | Completed.
#[export] Instance ClaimStatus_eq_dec : EqDecision ClaimStatus.
Proof. solve_decision. Defined.

Abbreviation claim_key := (pystr * pystr)%type.
Abbreviation claim_record := (ClaimStatus * option pystr)%type.

(** [gateway/persistence/idempotency.py:8-20] InMemoryIdempotencyRepository *)
Record IdempotencyRepository := {
  ir_max_records : Z;
  ir_records : dict claim_key claim_record;
}.

Definition set_records (records : dict claim_key claim_record) (s : IdempotencyRepository)
    : IdempotencyRepository :=
  {| ir_max_records := ir_max_records s; ir_records := records |}.

(** [gateway/persistence/idempotency.py:11-16] InMemoryIdempotencyRepository.__init__ *)
Definition new_idempotency_repository (max_records : Z) : res IdempotencyRepository :=
  raise_if (max_records < 1) ValueError ;;
  Ok {| ir_max_records := max_records; ir_records := [] |}.

(** [gateway/persistence/idempotency.py:22-40] InMemoryIdempotencyRepository.claim *)
Definition claim (scope key : pystr) (owner_token : option pystr)
    : M IdempotencyRepository IdempotencyClaimStatus :=
  s ← get_st ;
  let record := (scope, key) in
  match d_get (ir_records s) record with
  | Some (Completed, _) => mret ALREADY_COMPLETED
  | Some (InFlight, _) | Some (SideEffectStarted, _) => mret CLAIM_IN_FLIGHT
  | None =>
      raise_if (ir_max_records s ≤ len (ir_records s)) IdempotencyCapacityError ;;
      modify (set_records (d_set (ir_records s) record (InFlight, owner_token))) ;;
      mret ACQUIRED
  end.

(** [gateway/persistence/idempotency.py:42-54] InMemoryIdempotencyRepository.complete *)
Definition complete (scope key : pystr) (owner_token : option pystr)
    : M IdempotencyRepository unit :=
  s ← get_st ;
  let record := (scope, key) in
  raise_if (snd <$> d_get (ir_records s) record ≠ Some owner_token) RuntimeError ;;
  modify (set_records (d_set (ir_records s) record (Completed, owner_token))).

(** [gateway/persistence/idempotency.py:56-67] InMemoryIdempotencyRepository.mark_side_effect_started *)
Definition mark_side_effect_started (scope key : pystr) (owner_token : option pystr)
    : M IdempotencyRepository unit :=
  s ← get_st ;
  let record := (scope, key) in
  raise_if (d_get (ir_records s) record ≠ Some (InFlight, owner_token)) RuntimeError ;;
  modify (set_records (d_set (ir_records s) record (SideEffectStarted, owner_token))).

(** [gateway/persistence/idempotency.py:69-78] InMemoryIdempotencyRepository.refresh *)
Definition refresh (scope key : pystr) (owner_token : option pystr)
    : M IdempotencyRepository unit :=
  s ← get_st ;
  raise_if (d_get (ir_records s) (scope, key) ≠ Some (InFlight, owner_token)) RuntimeError.

(** [gateway/persistence/idempotency.py:80-94] InMemoryIdempotencyRepository.release *)
Definition release (scope key : pystr) (owner_token : option pystr)
    : M IdempotencyRepository unit :=
  s ← get_st ;
  let record := (scope, key) in
  let current := d_get (ir_records s) record in
  if decide (current = Some (InFlight, owner_token)
             ∨ current = Some (SideEffectStarted, owner_token)) then
    modify (set_records (d_pop (ir_records s) record))
  else mret ().

(** * The lifecycle of a claim *)

(** One legal change of the record of a key; [None] is an unclaimed key. *)
Inductive claim_step : option claim_record → option claim_record → Prop :=
| step_claim owner : claim_step None (Some (InFlight, owner))
| step_start owner : claim_step (Some (InFlight, owner)) (Some (SideEffectStarted, owner))
| step_complete st owner : claim_step (Some (st, owner)) (Some (Completed, owner))
| step_release st owner : st ≠ Completed → claim_step (Some (st, owner)) None.

(** What an operation did to a store, key by key: at most one lifecycle step
    of the key it was called on, nothing else. *)
Definition idem_evolves (record : claim_key) (s s' : IdempotencyRepository) : Prop :=
  ir_max_records s' = ir_max_records s ∧
  (d_get (ir_records s') record = d_get (ir_records s) record ∨
   claim_step (d_get (ir_records s) record) (d_get (ir_records s') record)) ∧
  ∀ k, k ≠ record → d_get (ir_records s') k = d_get (ir_records s) k.

(** The calls of the repository, for statements over all of them. *)
Inductive idem_op : Type :=
| OpClaim | OpComplete | OpMarkStarted | OpRefresh | OpRelease.

Definition run_idem_op (op : idem_op) (scope key : pystr) (owner : option pystr)
    : M IdempotencyRepository unit :=
  match op with
  | OpClaim => claim scope key owner ;; mret ()
  | OpComplete => complete scope key owner
  | OpMarkStarted => mark_side_effect_started scope key owner
  | OpRefresh => refresh scope key owner
  | OpRelease => release scope key owner
  end.

Lemma idem_evolves_refl record s : idem_evolves record s s.
Proof. repeat split; auto. Qed.
#[local] Hint Resolve idem_evolves_refl : gateway.

Lemma idem_evolves_set record s v :
  claim_step (d_get (ir_records s) record) (Some v) →
  idem_evolves record s (set_records (d_set (ir_records s) record v) s).
Proof.
  intros H. repeat split; cbn.
  - right. by rewrite d_get_set_eq.
  - intros k Hk. by rewrite d_get_set_ne.
Qed.

Lemma idem_evolves_pop record s :
  claim_step (d_get (ir_records s) record) None →
  idem_evolves record s (set_records (d_pop (ir_records s) record) s).
Proof.
  intros H. repeat split; cbn.
  - right. rewrite d_get_pop. by case_decide.
  - intros k Hk. rewrite d_get_pop. by case_decide.
Qed.

Lemma run_idem_op_evolves op scope key owner s :
  idem_evolves (scope, key) s (run_idem_op op scope key owner s).2.
Proof.
  enough (wp (run_idem_op op scope key owner) (λ _ s', idem_evolves (scope, key) s s') s) as H by exact H.
  destruct op; cbn [run_idem_op]; unfold claim, complete, mark_side_effect_started, refresh, release;
    wp_run; try apply idem_evolves_refl.
  - apply idem_evolves_set. rewrite Heqo. constructor.
  - apply idem_evolves_set. destruct (d_get (ir_records s) (scope, key)) as [[st o]|]; cbn in *.
    + assert (o = owner) as -> by (apply dec_stable; naive_solver). constructor.
    + exfalso. naive_solver.
  - apply idem_evolves_set. match goal with H : ¬ (_ ≠ _) |- _ => apply dec_stable in H; rewrite H end.
    constructor.
  - apply idem_evolves_pop. match goal with H : _ ∨ _ |- _ => destruct H as [->| ->] end; by constructor.
Qed.

Lemma run_idem_op_well_formed op scope key owner s :
  well_formed (ir_records s) → well_formed (ir_records (run_idem_op op scope key owner s).2).
Proof.
  intros Hd. enough (wp (run_idem_op op scope key owner) (λ _ s', well_formed (ir_records s')) s) as H
    by exact H.
  destruct op; cbn [run_idem_op]; unfold claim, complete, mark_side_effect_started, refresh, release;
    wp_run; eauto with gateway.
Qed.

Lemma run_idem_op_err op scope key owner s e :
  (run_idem_op op scope key owner s).1 = Err e → (run_idem_op op scope key owner s).2 = s.
Proof.
  enough (wp (run_idem_op op scope key owner) (λ r s', r = Err e → s' = s) s) as H by exact H.
  destruct op; cbn [run_idem_op]; unfold claim, complete, mark_side_effect_started, refresh, release;
    by wp_run.
Qed.

(** Every call, whatever its outcome, makes at most one legal lifecycle
    step of the key it names and touches no other key. *)
Theorem idempotency_follows_lifecycle op scope key owner s :
  idem_evolves (scope, key) s (run_idem_op op scope key owner s).2.
Proof. apply run_idem_op_evolves. Qed.

(** Any number of calls. *)
Definition idem_step (s s' : IdempotencyRepository) : Prop :=
  ∃ op scope key owner, s' = (run_idem_op op scope key owner s).2.

(** A completed claim has no lifecycle step but to itself. *)
Lemma completed_claim_step owner r :
  claim_step (Some (Completed, owner)) r → r = Some (Completed, owner).
Proof. by inversion 1. Qed.

Lemma completed_forever k owner s s' :
  rtc idem_step s s' → d_get (ir_records s) k = Some (Completed, owner) →
  d_get (ir_records s') k = Some (Completed, owner).
Proof.
  induction 1 as [|s1 s2 s3 (op & scope & key & o & ->) _ IH]; [done|]. intros H. apply IH.
  destruct (run_idem_op_evolves op scope key o s1) as (_ & Hk & Hne).
  destruct (decide (k = (scope, key))) as [->|Hd]; [|by rewrite Hne].
  destruct Hk as [->|Hs]; [done|]. rewrite H in Hs. by apply completed_claim_step in Hs.
Qed.

(** Once a claim is completed it stays so, whatever calls follow, and
    every later claim of the key reports it and changes nothing. *)
Theorem completed_claim_is_final scope key owner owner' s s' :
  d_get (ir_records s) (scope, key) = Some (Completed, owner) → rtc idem_step s s' →
  claim scope key owner' s' = (Ok ALREADY_COMPLETED, s').
Proof.
  intros Hc Hr. pose proof (completed_forever _ _ _ _ Hr Hc) as Hc'.
  unfold claim, mbind, M_bind, get_st. cbn. by rewrite Hc'.
Qed.

(** A claim held by one owner token cannot be moved by a caller that
    presents another: no operation of theirs changes its record. *)
Theorem claim_is_fenced_by_owner op scope key st owner owner' s :
  d_get (ir_records s) (scope, key) = Some (st, owner) → owner' ≠ owner →
  (run_idem_op op scope key owner' s).2 = s.
Proof.
  intros Hs Hne.
  enough (wp (run_idem_op op scope key owner') (λ _ s', s' = s) s) as H by exact H.
  destruct op; cbn [run_idem_op]; unfold claim, complete, mark_side_effect_started, refresh, release;
    wp_run; rewrite ?Hs in *; cbn in *; try done; exfalso; naive_solver.
Qed.

(** The number of records never exceeds the configured bound, and an
    acquisition is refused exactly when the bound is reached. *)
Theorem idempotency_capacity_bound s s' :
  len (ir_records s) ≤ ir_max_records s → rtc idem_step s s' →
  len (ir_records s') ≤ ir_max_records s'.
Proof.
  intros Hb. induction 1 as [|s1 s2 s3 (op & scope & key & o & ->) _ IH]; [done|]. apply IH.
  enough (wp (run_idem_op op scope key o)
    (λ _ s', len (ir_records s') ≤ ir_max_records s') s1) as H by exact H.
  destruct op; cbn [run_idem_op]; unfold claim, complete, mark_side_effect_started, refresh, release;
    wp_run; unfold len in *; try lia.
  - rewrite length_d_set_absent by done. lia.
  - destruct (d_get (ir_records s1) (scope, key)) as [r|] eqn:Hr; [|naive_solver].
    by rewrite (length_d_set_present _ _ _ _ Hr).
  - match goal with H : ¬ (_ ≠ _) |- _ => apply dec_stable in H;
      by rewrite (length_d_set_present _ _ _ _ H) end.
  - pose proof (length_d_pop (ir_records s1) (scope, key)). lia.
Qed.
