(* ===== verification/RequestCorrelation.v ===== *)
(** Routing of interactive requests to the Conversations they were delivered
    to: the merge and transition rules of
    [gateway/projection/request_correlation.py] and the repository of
    [gateway/persistence/memory.py] that applies them.  Shown: the state of a
    correlation never regresses and its identity never changes, a destination
    that joins an answered request is not answerable, a destination has one
    correlation, and a failing call writes nothing. *)

From S2P Require Export StateContracts.
#[local] Open Scope Z_scope.
#[local] Open Scope stdpp_scope.

(** [gateway/projection/request_correlation.py:837-842] _REQUEST_STATE_PRECEDENCE *)
Definition _REQUEST_STATE_PRECEDENCE (s : RequestRouteState) : Z :=
  match s with OPEN => 0 | RESPONDED => 1 | STALE => 2 | RESOLVED => 3 end.

(** [replace(correlation, state=..., updated_at=...)]. *)
Definition with_state (c : RequestRouteCorrelation) (state : RequestRouteState)
    (updated_at : datetime) : RequestRouteCorrelation := {|
  rr_correlation_id := rr_correlation_id c;
  rr_request_ref := rr_request_ref c;
  rr_turn_ref := rr_turn_ref c;
  rr_conversation_ref := rr_conversation_ref c;
  rr_delivery_id := rr_delivery_id c;
  rr_response_shape := rr_response_shape c;
  rr_state := state;
  rr_created_at := rr_created_at c;
  rr_updated_at := updated_at;
  rr_expires_at := rr_expires_at c;
|}.

(** [gateway/projection/request_correlation.py:805-808] the key [max] compares:
    the state's precedence, then the update time. *)
Definition terminal_key_lt (a b : RequestRouteCorrelation) : res bool :=
  let pa := _REQUEST_STATE_PRECEDENCE (rr_state a) in
  let pb := _REQUEST_STATE_PRECEDENCE (rr_state b) in
  if decide (pa = pb) then
    if decide (rr_updated_at a = rr_updated_at b) then Ok false
    else dt_ltb (rr_updated_at a) (rr_updated_at b)
  else Ok (bool_decide (pa < pb)).

(** [max] with that key: the first of the greatest. *)
Fixpoint max_terminal (best : RequestRouteCorrelation) (l : list RequestRouteCorrelation)
    : res RequestRouteCorrelation :=
  match l with
  | [] => Ok best
  | c :: l' => lt ← terminal_key_lt best c ; max_terminal (if (lt : bool) then c else best) l'
  end.

(** [gateway/projection/request_correlation.py:792-834] _merge_correlation *)
Definition _merge_correlation (existing : option RequestRouteCorrelation)
    (replacement : RequestRouteCorrelation)
    (request_correlations : list RequestRouteCorrelation) : res RequestRouteCorrelation :=
  match existing with
  | None =>
      match filter (λ c, rr_state c ≠ OPEN) request_correlations with
      | [] => Ok replacement
      | c :: rest =>
          terminal ← max_terminal c rest ;
          updated_at ← dt_max (rr_updated_at replacement) (rr_updated_at terminal) ;
          Ok (with_state replacement (rr_state terminal) updated_at)
      end
  | Some existing =>
      raise_if (rr_correlation_id existing ≠ rr_correlation_id replacement
                ∨ rr_request_ref existing ≠ rr_request_ref replacement
                ∨ rr_turn_ref existing ≠ rr_turn_ref replacement
                ∨ rr_conversation_ref existing ≠ rr_conversation_ref replacement
                ∨ rr_response_shape existing ≠ rr_response_shape replacement)
        RequestCorrelationConflict ;;
      if decide (rr_state existing ∈ [RESPONDED; RESOLVED; STALE]) then Ok existing
      else Ok replacement
  end.

(** [gateway/projection/request_correlation.py:845-870] _transition_correlations *)
Definition _transition_correlations (correlations : list RequestRouteCorrelation)
    (expected_states : list RequestRouteState) (state : RequestRouteState)
    (updated_at : datetime) : res (list RequestRouteCorrelation) :=
  raise_if (correlations = []) KeyError ;;
  if decide (Forall (λ c, rr_state c = state) correlations) then Ok correlations
  else
    raise_if (Exists (λ c, rr_state c ∉ expected_states) correlations)
      RequestCorrelationConflict ;;
    let target_precedence := _REQUEST_STATE_PRECEDENCE state in
    raise_if (Exists (λ c, target_precedence < _REQUEST_STATE_PRECEDENCE (rr_state c)) correlations)
      RequestCorrelationConflict ;;
    let transitioned := (λ c, with_state c state updated_at) <$> correlations in
    for_each transitioned validate_request_route_correlation ;;
    Ok transitioned.

(** [gateway/projection/request_correlation.py:873-885] _reject_conflicting_endpoint *)
Definition _reject_conflicting_endpoint (correlations : list RequestRouteCorrelation)
    (replacement : RequestRouteCorrelation) : res unit :=
  for_each correlations (λ existing,
    raise_if (rr_request_ref existing = rr_request_ref replacement
              ∧ rr_conversation_ref existing = rr_conversation_ref replacement
              ∧ rr_correlation_id existing ≠ rr_correlation_id replacement)
      RequestCorrelationConflict).

(** [x is None or y == x]. *)
Definition selects {A} (selector : option A) (x : A) : Prop :=
  match selector with None => True | Some a => x = a end.
#[export] Instance selects_dec {A} `{EqDecision A} selector (x : A) : Decision (selects selector x).
Proof. destruct selector; simpl; apply _. Defined.

(** [older_than is None or t < older_than]. *)
Definition older (older_than : option datetime) (t : datetime) : res bool :=
  match older_than with None => Ok true | Some limit => dt_ltb t limit end.

(** [gateway/projection/request_correlation.py:908-921] _matches *)
Definition _matches (correlation : RequestRouteCorrelation) (request_ref : option RequestRef)
    (thread_ref : option ThreadRef) (conversation_ref : option ConversationRef)
    (older_than : option datetime) : res bool :=
  if decide (selects request_ref (rr_request_ref correlation)
             ∧ selects thread_ref (tn_thread_ref (rr_turn_ref correlation))
             ∧ selects conversation_ref (rr_conversation_ref correlation))
  then older older_than (rr_updated_at correlation)
  else Ok false.

(** [gateway/projection/request_correlation.py:888-905] _select_correlations *)
Definition _select_correlations (correlations : list RequestRouteCorrelation)
    (request_ref : option RequestRef) (thread_ref : option ThreadRef)
    (conversation_ref : option ConversationRef) : res (list RequestRouteCorrelation) :=
  filter_res (λ c, _matches c request_ref thread_ref conversation_ref None) correlations.

(** [gateway/projection/request_correlation.py:924-936] _require_delete_selector *)
Definition _require_delete_selector (request_ref : option RequestRef)
    (thread_ref : option ThreadRef) (conversation_ref : option ConversationRef)
    (older_than : option datetime) : res unit :=
  raise_if (request_ref = None ∧ thread_ref = None ∧ conversation_ref = None ∧ older_than = None)
    ValueError.

(** * The repository *)

(** [gateway/persistence/memory.py:110-115] InMemoryRequestCorrelationRepository *)
Abbreviation RequestCorrelationRepository := (dict pystr RequestRouteCorrelation).

(** [gateway/persistence/memory.py:117-131] InMemoryRequestCorrelationRepository.list_request_correlations *)
Definition list_request_correlations (request_ref : option RequestRef)
    (thread_ref : option ThreadRef) (conversation_ref : option ConversationRef)
    : M RequestCorrelationRepository (list RequestRouteCorrelation) :=
  correlations ← gets d_values ;
  lift (_select_correlations correlations request_ref thread_ref conversation_ref).

(** [gateway/persistence/memory.py:133-151] InMemoryRequestCorrelationRepository.put_request_correlation *)
Definition put_request_correlation (correlation : RequestRouteCorrelation)
    : M RequestCorrelationRepository RequestRouteCorrelation :=
  lift (validate_request_route_correlation correlation) ;;
  s ← get_st ;
  stored ← lift (_merge_correlation (d_get s (rr_correlation_id correlation)) correlation
    (filter (λ c, rr_request_ref c = rr_request_ref correlation) (d_values s))) ;
  lift (_reject_conflicting_endpoint (d_values s) stored) ;;
  modify (λ s, d_set s (rr_correlation_id stored) stored) ;;
  mret stored.

(** [gateway/persistence/memory.py:153-175] InMemoryRequestCorrelationRepository.transition_request_correlations *)
Definition transition_request_correlations (request_ref : RequestRef)
    (expected_states : list RequestRouteState) (state : RequestRouteState) (updated_at : datetime)
    : M RequestCorrelationRepository (list RequestRouteCorrelation) :=
  s ← get_st ;
  let selected := filter (λ c, rr_request_ref c = request_ref) (d_values s) in
  transitioned ← lift (_transition_correlations selected expected_states state updated_at) ;
  modify (λ s, d_update_all rr_correlation_id s transitioned) ;;
  mret transitioned.

(** [gateway/persistence/memory.py:177-200] InMemoryRequestCorrelationRepository.delete_request_correlations *)
Definition delete_request_correlations (request_ref : option RequestRef)
    (thread_ref : option ThreadRef) (conversation_ref : option ConversationRef)
    (older_than : option datetime) : M RequestCorrelationRepository Z :=
  lift (_require_delete_selector request_ref thread_ref conversation_ref older_than) ;;
  s ← get_st ;
  entries ← lift (filter_res (λ kv, _matches kv.2 request_ref thread_ref conversation_ref older_than) s) ;
  modify (λ s, d_pop_all s (d_keys entries)) ;;
  mret (len entries).

(** * Correctness *)

(** What never changes of a correlation. *)
Definition same_identity (a b : RequestRouteCorrelation) : Prop :=
  rr_correlation_id a = rr_correlation_id b ∧ rr_request_ref a = rr_request_ref b ∧
  rr_turn_ref a = rr_turn_ref b ∧ rr_conversation_ref a = rr_conversation_ref b ∧
  rr_response_shape a = rr_response_shape b.

(** The invariant of the repository. *)
Definition rc_entry_ok (k : pystr) (c : RequestRouteCorrelation) : Prop :=
  k = rr_correlation_id c ∧ validate_request_route_correlation c = Ok ().

Record rc_inv (s : RequestCorrelationRepository) : Prop := {
  rc_distinct : well_formed s;
  rc_entries : d_all rc_entry_ok s;
  rc_endpoint_unique : ∀ c c', c ∈ d_values s → c' ∈ d_values s →
    rr_request_ref c = rr_request_ref c' → rr_conversation_ref c = rr_conversation_ref c' →
    rr_correlation_id c = rr_correlation_id c';
}.

(** How a call may change the repository: a stored correlation is deleted, or
    keeps its identity and does not fall back in precedence. *)
Definition rc_evolves (s s' : RequestCorrelationRepository) : Prop :=
  ∀ k c, d_get s k = Some c →
    d_get s' k = None ∨
    ∃ c', d_get s' k = Some c' ∧ same_identity c c' ∧
      _REQUEST_STATE_PRECEDENCE (rr_state c) ≤ _REQUEST_STATE_PRECEDENCE (rr_state c').

#[export] Instance same_identity_equiv : Equivalence same_identity.
Proof.
  split; [by intros ?|by intros ?? (?&?&?&?&?)|].
  by intros [] [] [] (?&?&?&?&?) (?&?&?&?&?); simplify_eq/=.
Qed.

Lemma same_identity_with_state c st t : same_identity c (with_state c st t).
Proof. done. Qed.

Lemma validate_with_state c st t :
  validate_request_route_correlation c = Ok () → ¬ tz_is_none t →
  dt_us (rr_created_at c) ≤ dt_us t →
  validate_request_route_correlation (with_state c st t) = Ok ().
Proof.
  unfold validate_request_route_correlation, with_state; cbn. rewrite !seq_ok. intros H Ht Hle.
  destruct_and!. repeat match goal with H : raise_if _ _ = Ok _ |- _ => apply raise_if_ok in H end.
  split_and!; try done;
    first [by apply raise_if_lt_aware; tauto | apply raise_if_ok; by tauto].
Qed.

Lemma max_terminal_spec best l m :
  max_terminal best l = Ok m →
  (m = best ∨ m ∈ l) ∧
  Forall (λ c, _REQUEST_STATE_PRECEDENCE (rr_state c) ≤ _REQUEST_STATE_PRECEDENCE (rr_state m))
    (best :: l).
Proof.
  revert best. induction l as [|c l IH]; intros best; cbn [max_terminal].
  - intros [= ->]. split; [by left|]. by repeat constructor.
  - rewrite res_bind_ok. intros (lt & Hlt & Hm). apply IH in Hm as [Hin Hall].
    assert (_REQUEST_STATE_PRECEDENCE (rr_state best)
      ≤ _REQUEST_STATE_PRECEDENCE (rr_state (if lt then c else best)) ∧
      _REQUEST_STATE_PRECEDENCE (rr_state c)
      ≤ _REQUEST_STATE_PRECEDENCE (rr_state (if lt then c else best))) as [H1 H2].
    { unfold terminal_key_lt in Hlt. repeat case_decide; destruct lt; simplify_eq; try lia;
        by split; case_bool_decide; simplify_eq; lia. }
    apply Forall_cons in Hall as [Hb Hall]. split.
    + destruct lt, Hin as [->|Hin]; set_solver.
    + repeat constructor; [lia|lia|done].
Qed.

(** What the merge stores: the old correlation, or the new one, or the new one
    closed by the request's strongest terminal state. *)
Lemma merge_correlation_spec existing replacement others stored :
  _merge_correlation existing replacement others = Ok stored →
  rr_correlation_id stored = rr_correlation_id replacement ∧
  rr_request_ref stored = rr_request_ref replacement ∧
  rr_conversation_ref stored = rr_conversation_ref replacement ∧
  match existing with
  | Some c => same_identity c stored ∧ (stored = c ∨ rr_state c = OPEN ∧ stored = replacement)
  | None =>
      same_identity replacement stored ∧
      Forall (λ c, rr_state c ≠ OPEN →
        _REQUEST_STATE_PRECEDENCE (rr_state c) ≤ _REQUEST_STATE_PRECEDENCE (rr_state stored)) others
  end.
Proof.
  unfold _merge_correlation. destruct existing as [c|]; intros H.
  - inv_ok. assert (same_identity c replacement) as Hsame.
    { unfold same_identity. split_and!; apply dec_stable; tauto. }
    destruct Hsame as (?&?&?&?&?). case_decide as Hst; inv_ok; subst stored.
    + split_and!; try done. by left.
    + split_and!; try done. right. split; [|done]. destruct (rr_state c); set_solver.
  - assert (∀ c, c ∈ others → rr_state c ≠ OPEN →
      c ∈ filter (λ c, rr_state c ≠ OPEN) others) as Hin.
    { intros c ??. by apply list_elem_of_filter. }
    destruct (filter _ others) as [|c rest].
    + injection H as <-. split_and!; try done. apply Forall_forall. intros c Hc Hst.
      specialize (Hin c Hc Hst). set_solver.
    + inv_ok. subst stored. match goal with H : max_terminal _ _ = _ |- _ =>
        apply max_terminal_spec in H as [_ Hmax] end.
      split_and!; try done. apply Forall_forall. intros d Hd Hst.
      rewrite Forall_forall in Hmax. by apply Hmax, Hin.
Qed.

Lemma valid_correlation_times c :
  validate_request_route_correlation c = Ok () →
  ¬ tz_is_none (rr_created_at c) ∧ ¬ tz_is_none (rr_updated_at c) ∧
  dt_us (rr_created_at c) ≤ dt_us (rr_updated_at c).
Proof.
  unfold validate_request_route_correlation. rewrite !seq_ok. intros H. destruct_and!.
  match goal with H : raise_if (tz_is_none _ ∨ _) _ = _ |- _ => apply raise_if_ok in H end.
  match goal with H : raise_if_lt _ _ _ = _ |- _ => apply raise_if_lt_ok in H as [??] end.
  split_and!; [tauto|tauto|lia].
Qed.

Lemma merge_correlation_valid existing replacement others stored :
  _merge_correlation existing replacement others = Ok stored →
  validate_request_route_correlation replacement = Ok () →
  (∀ c, existing = Some c → validate_request_route_correlation c = Ok ()) →
  Forall (λ c, validate_request_route_correlation c = Ok ()) others →
  validate_request_route_correlation stored = Ok ().
Proof.
  intros H Hr He Ho. destruct existing as [c|].
  - apply merge_correlation_spec in H as (_ & _ & _ & _ & [->|[_ ->]]); auto.
  - unfold _merge_correlation in H. rewrite Forall_forall in Ho.
    assert (∀ c, c ∈ filter (λ c, rr_state c ≠ OPEN) others →
      validate_request_route_correlation c = Ok ()) as Hf.
    { intros c [_ Hc]%list_elem_of_filter. by apply Ho. }
    destruct (filter _ others) as [|c rest]; [by simplify_eq|].
    apply res_bind_ok in H as (t & Ht & H). apply max_terminal_spec in Ht as [Ht _].
    assert (t ∈ c :: rest) as Hin by set_solver.
    apply Hf, valid_correlation_times in Hin as (_ & Hta & _).
    pose proof (valid_correlation_times _ Hr) as (_ & Hra & Hle).
    destruct (dt_max_aware _ _ Hra Hta) as (m & Hm & Hma & Hmu & _).
    rewrite Hm in H. injection H as <-. apply validate_with_state; [done|done|lia].
Qed.

Lemma reject_conflicting_endpoint_ok l c u :
  _reject_conflicting_endpoint l c = Ok u → ∀ c', c' ∈ l →
  rr_request_ref c' = rr_request_ref c → rr_conversation_ref c' = rr_conversation_ref c →
  rr_correlation_id c' = rr_correlation_id c.
Proof.
  unfold _reject_conflicting_endpoint. rewrite for_each_ok, Forall_forall.
  intros H c' Hin Hr Hc. specialize (H c' Hin). apply raise_if_ok in H. apply dec_stable. tauto.
Qed.

(** Storing a valid correlation that keeps the endpoints apart. *)
Lemma rc_inv_set s c :
  rc_inv s → validate_request_route_correlation c = Ok () →
  (∀ c', c' ∈ d_values s → rr_request_ref c' = rr_request_ref c →
    rr_conversation_ref c' = rr_conversation_ref c → rr_correlation_id c' = rr_correlation_id c) →
  rc_inv (d_set s (rr_correlation_id c) c).
Proof.
  intros [Hd He Hu] Hc Hn. split; [eauto with gateway|by apply d_all_set|].
  intros a b [->|Ha]%d_values_set [->|Hb]%d_values_set Hr Hcv; eauto using eq_sym.
Qed.

Lemma put_request_correlation_spec c s :
  wp (put_request_correlation c) (λ r s',
    match r with
    | Err _ => s' = s
    | Ok stored =>
        s' = d_set s (rr_correlation_id stored) stored ∧
        validate_request_route_correlation c = Ok () ∧
        _merge_correlation (d_get s (rr_correlation_id c)) c
          (filter (λ d, rr_request_ref d = rr_request_ref c) (d_values s)) = Ok stored ∧
        _reject_conflicting_endpoint (d_values s) stored = Ok ()
    end) s.
Proof.
  unfold put_request_correlation. wp_run; try done. by destruct a, a1.
Qed.

Lemma rc_values_valid s : rc_inv s → Forall (λ c, validate_request_route_correlation c = Ok ()) (d_values s).
Proof.
  intros [_ He _]. unfold d_values. rewrite Forall_fmap. eapply Forall_impl; [exact He|].
  by intros [k c] [_ ?].
Qed.

Lemma rc_entry_get s k c : rc_inv s → d_get s k = Some c → rc_entry_ok k c.
Proof. intros [_ He _]. by apply d_all_get. Qed.

Lemma put_keeps_rc_inv c s : rc_inv s → rc_inv (put_request_correlation c s).2.
Proof.
  intros Hi. apply (wp_mono _ _ (λ _ s', rc_inv s') _ (put_request_correlation_spec c s)).
  intros [stored|e] s'; [|by intros ->]. intros (-> & Hc & Hm & Hr). apply rc_inv_set; [done| |].
  - eapply merge_correlation_valid; [done|done| |].
    + intros d Hd. by eapply rc_entry_get in Hd as [_ ?].
    + apply Forall_forall. intros d [_ Hd]%list_elem_of_filter. revert d Hd.
      by apply Forall_forall, rc_values_valid.
  - by apply (reject_conflicting_endpoint_ok _ _ ()).
Qed.

(** A successful transition rewrites every selected correlation or none. *)
Lemma transition_correlations_spec l expected st t l' :
  _transition_correlations l expected st t = Ok l' →
  l ≠ [] ∧
  (l' = l ∧ Forall (λ c, rr_state c = st) l ∨
   l' = (λ c, with_state c st t) <$> l ∧
   Forall (λ c, rr_state c ∈ expected ∧
     _REQUEST_STATE_PRECEDENCE (rr_state c) ≤ _REQUEST_STATE_PRECEDENCE st) l ∧
   Forall (λ c, validate_request_route_correlation (with_state c st t) = Ok ()) l).
Proof.
  unfold _transition_correlations. intros H. inv_ok. split; [done|]. case_decide; inv_ok.
  - subst. by left.
  - subst. right. split; [done|].
    match goal with H : for_each _ _ = _ |- _ => apply for_each_ok in H; rewrite Forall_fmap in H end.
    split; [|done].
    apply Forall_forall. intros c Hc.
    repeat match goal with H : ¬ Exists _ _ |- _ => rewrite Exists_exists in H end.
    split; [apply dec_stable; by eauto|apply Z.nlt_ge; by eauto].
Qed.

Lemma selected_keys_distinct s (P : RequestRouteCorrelation → Prop) `{∀ c, Decision (P c)} :
  rc_inv s → NoDup (rr_correlation_id <$> filter P (d_values s)).
Proof.
  intros [Hd He _]. unfold well_formed, d_keys, d_values, d_all, rc_entry_ok in *.
  induction s as [|[k c] s IH]; [constructor|].
  apply Forall_cons in He as [[Hk _] He]. cbn [fst snd] in Hk. subst k.
  rewrite fmap_cons, NoDup_cons in Hd. destruct Hd as [Hn Hd]. specialize (IH Hd He).
  rewrite fmap_cons, filter_cons. case_decide; [|done].
  rewrite fmap_cons, NoDup_cons. split; [|done]. intros (c' & Hc' & Hin)%list_elem_of_fmap.
  apply list_elem_of_filter in Hin as [_ ([k' ?] & -> & Hin)%list_elem_of_fmap].
  apply Hn. apply list_elem_of_fmap. exists (k', r). split; [|done].
  rewrite Forall_forall in He. destruct (He _ Hin) as [Hk' _]. cbn in *. congruence.
Qed.

Lemma selected_lookup s c P `{∀ c, Decision (P c)} :
  rc_inv s → c ∈ filter P (d_values s) ↔ P c ∧ d_get s (rr_correlation_id c) = Some c.
Proof.
  intros Hi. rewrite list_elem_of_filter, d_values_get by apply Hi.
  apply and_under_l. intros _. split; [|by eauto].
  intros [k Hk]. pose proof (rc_entry_get _ _ _ Hi Hk) as [-> _]. done.
Qed.

(** The correlations of a request, and what a successful transition makes of
    each. *)
Definition of_request (rq : RequestRef) (s : RequestCorrelationRepository) :=
  filter (λ c, rr_request_ref c = rq) (d_values s).
Definition transitioned (rq : RequestRef) (st : RequestRouteState) (t : datetime)
    (s : RequestCorrelationRepository) (c : RequestRouteCorrelation) : RequestRouteCorrelation :=
  if decide (Forall (λ c, rr_state c = st) (of_request rq s)) then c else with_state c st t.

Lemma transition_list_eq rq expected st t s l :
  _transition_correlations (of_request rq s) expected st t = Ok l →
  l = transitioned rq st t s <$> of_request rq s.
Proof.
  intros H. unfold transitioned. unfold _transition_correlations in H. inv_ok. subst.
  case_decide; inv_ok; subst; [by rewrite list_fmap_id|done].
Qed.

Lemma transition_lookup rq st t s k :
  rc_inv s →
  d_get (d_update_all rr_correlation_id s (transitioned rq st t s <$> of_request rq s)) k =
  (λ c, if decide (rr_request_ref c = rq) then transitioned rq st t s c else c) <$> d_get s k.
Proof.
  intros Hi. set (f := transitioned rq st t s).
  assert (∀ c, rr_correlation_id (f c) = rr_correlation_id c) as Hf.
  { intros c. unfold f, transitioned. by case_decide. }
  assert (rr_correlation_id <$> (f <$> of_request rq s) = rr_correlation_id <$> of_request rq s) as Hk.
  { rewrite <- list_fmap_compose. apply list_fmap_ext. intros. apply Hf. }
  destruct (decide (k ∈ rr_correlation_id <$> of_request rq s)) as [Hin|Hn].
  - apply list_elem_of_fmap in Hin as (c & -> & Hin).
    pose proof (proj1 (selected_lookup _ _ _ Hi) Hin) as [Hr Hg]. rewrite Hg. cbn.
    rewrite decide_True by done. rewrite <- (Hf c). apply d_update_all_get.
    + rewrite Hk. by apply selected_keys_distinct.
    + by apply list_elem_of_fmap_2.
  - rewrite d_update_all_other by by rewrite Hk. destruct (d_get s k) as [c|] eqn:Hg; [|done].
    cbn. rewrite decide_False; [done|]. intros Hr. apply Hn.
    pose proof (rc_entry_get _ _ _ Hi Hg) as [-> _]. apply list_elem_of_fmap_2.
    by apply selected_lookup.
Qed.

Lemma transition_request_correlations_spec rq expected st t s :
  rc_inv s →
  wp (transition_request_correlations rq expected st t) (λ r s',
    match r with
    | Err _ => s' = s
    | Ok l =>
        well_formed s' ∧
        _transition_correlations (of_request rq s) expected st t = Ok l ∧
        ∀ k, d_get s' k = (λ c, if decide (rr_request_ref c = rq)
                                then transitioned rq st t s c else c) <$> d_get s k
    end) s.
Proof.
  intros Hi. unfold transition_request_correlations. wp_run; [|done].
  match goal with H : _transition_correlations _ _ _ _ = Ok ?l |- _ =>
    rename H into Ht; pose proof (transition_list_eq _ _ _ _ _ _ Ht) as -> end.
  split_and!; [eauto using rc_distinct with gateway|done|].
  intros k. by apply transition_lookup.
Qed.

(** A transition keeps a selected correlation valid and moves it forward. *)
Lemma transitioned_spec rq expected st t s l c :
  rc_inv s → _transition_correlations (of_request rq s) expected st t = Ok l →
  rr_request_ref c = rq → d_get s (rr_correlation_id c) = Some c →
  same_identity c (transitioned rq st t s c) ∧ rr_state (transitioned rq st t s c) = st ∧
  _REQUEST_STATE_PRECEDENCE (rr_state c) ≤ _REQUEST_STATE_PRECEDENCE st ∧
  validate_request_route_correlation (transitioned rq st t s c) = Ok ().
Proof.
  intros Hi Ht Hr Hg. assert (c ∈ of_request rq s) as Hin by by apply selected_lookup.
  pose proof (rc_entry_get _ _ _ Hi Hg) as [_ Hv]. unfold transitioned.
  apply transition_correlations_spec in Ht as (_ & [(_ & Hall)|(_ & Hall & Hval)]).
  - rewrite decide_True by done. rewrite Forall_forall in Hall. rewrite (Hall _ Hin). done.
  - rewrite Forall_forall in Hall, Hval. destruct (Hall _ Hin). specialize (Hval _ Hin).
    case_decide as Hu; [|done]. rewrite Forall_forall in Hu. by rewrite (Hu _ Hin).
Qed.

Lemma transition_keeps_rc_inv rq expected st t s :
  rc_inv s → rc_inv (transition_request_correlations rq expected st t s).2.
Proof.
  intros Hi. apply (wp_mono _ _ (λ _ s', rc_inv s') _
    (transition_request_correlations_spec rq expected st t s Hi)).
  intros [l|e] s'; [|by intros ->]. intros (Hd & Ht & Hg).
  assert (∀ k c', d_get s' k = Some c' → rc_entry_ok k c' ∧ ∃ c, d_get s k = Some c ∧ same_identity c c') as Hback.
  { intros k c'. rewrite Hg. intros (c & Hc & ->)%fmap_Some.
    pose proof (rc_entry_get _ _ _ Hi Hc) as [Hk Hv]. subst k. case_decide as Hr.
    - destruct (transitioned_spec _ _ _ _ _ _ c Hi Ht Hr Hc) as (Hs & _ & _ & Hv').
      split; [by split; [apply Hs|]|by exists c].
    - split; [by split|by exists c]. }
  split; [done|apply d_all_lookup; [done|]; intros k c' Hk; by apply Hback|].
  intros a b (ka & Ha)%d_values_get (kb & Hb)%d_values_get Hrq Hcv; try done.
  apply Hback in Ha as (_ & a' & Ha & Hsa), Hb as (_ & b' & Hb & Hsb).
  destruct Hsa as (<- & Ha1 & _ & Ha2 & _), Hsb as (<- & Hb1 & _ & Hb2 & _).
  apply (rc_endpoint_unique _ Hi); [by eapply d_get_values|by eapply d_get_values|congruence|congruence].
Qed.

Lemma rc_inv_pop_all s ks : rc_inv s → rc_inv (d_pop_all s ks).
Proof.
  intros [Hd He Hu]. split; [eauto with gateway|by apply d_all_pop_all|].
  intros a b (? & Ha%d_pop_all_elem)%d_values_elem (? & Hb%d_pop_all_elem)%d_values_elem.
  apply Hu; apply d_values_elem; eauto.
Qed.

Lemma delete_request_correlations_spec rq th cv older s :
  wp (delete_request_correlations rq th cv older) (λ r s',
    match r with
    | Err _ => s' = s
    | Ok n => ∃ entries, n = len entries ∧ s' = d_pop_all s (d_keys entries) ∧
        entries = filter (λ kv, _matches kv.2 rq th cv older = Ok true) s
    end) s.
Proof.
  unfold delete_request_correlations. wp_run; try done.
  match goal with H : filter_res _ _ = Ok _ |- _ => apply filter_res_ok in H as [-> _] end. eauto.
Qed.

(** The calls that write, for statements over all of them. *)
Inductive rc_op : Type :=
| PutCorrelation (c : RequestRouteCorrelation)
| TransitionCorrelations (rq : RequestRef) (expected : list RequestRouteState)
    (st : RequestRouteState) (t : datetime)
| DeleteCorrelations (rq : option RequestRef) (th : option ThreadRef) (cv : option ConversationRef)
    (older : option datetime).

Definition run_rc_op (op : rc_op) : M RequestCorrelationRepository unit :=
  match op with
  | PutCorrelation c => put_request_correlation c ;; mret ()
  | TransitionCorrelations rq expected st t =>
      transition_request_correlations rq expected st t ;; mret ()
  | DeleteCorrelations rq th cv older => delete_request_correlations rq th cv older ;; mret ()
  end.

Lemma run_rc_op_keeps_inv op s : rc_inv s → rc_inv (run_rc_op op s).2.
Proof.
  intros Hi. enough (wp (run_rc_op op) (λ _ s', rc_inv s') s) as H by exact H.
  destruct op; cbn [run_rc_op]; apply wp_bind.
  - pose proof (put_keeps_rc_inv c s Hi) as H. unfold wp.
    by destruct (put_request_correlation c s) as [[]?].
  - pose proof (transition_keeps_rc_inv rq expected st t s Hi) as H. unfold wp.
    by destruct (transition_request_correlations rq expected st t s) as [[]?].
  - eapply wp_mono; [apply delete_request_correlations_spec|].
    intros [n|e] s'; [|by intros ->]. intros (? & -> & -> & ->). by apply rc_inv_pop_all.
Qed.

(** Every call keeps the repository well formed: one entry per correlation
    ID, each valid under its ID, and no request destination with two
    correlations. *)
Theorem correlation_repository_invariant op s :
  rc_inv s → rc_inv (run_rc_op op s).2.
Proof. apply run_rc_op_keeps_inv. Qed.

Lemma run_rc_op_err op s e :
  rc_inv s → (run_rc_op op s).1 = Err e → (run_rc_op op s).2 = s.
Proof.
  intros Hi. enough (wp (run_rc_op op) (λ r s', r = Err e → s' = s) s) as H by exact H.
  destruct op; cbn [run_rc_op]; apply wp_bind.
  - eapply wp_mono; [apply put_request_correlation_spec|]. by intros [] ?.
  - eapply wp_mono; [by apply transition_request_correlations_spec|]. by intros [] ?.
  - eapply wp_mono; [apply delete_request_correlations_spec|]. by intros [] ?.
Qed.

(** A call that raises leaves the repository as it was. *)
Theorem failed_correlation_call_writes_nothing op s e :
  rc_inv s → (run_rc_op op s).1 = Err e → (run_rc_op op s).2 = s.
Proof. apply run_rc_op_err. Qed.

(** The state of a stored correlation never regresses in precedence and
    its request, Turn, Conversation and response shape never change: a call
    deletes it or moves it forward. *)
Theorem request_state_never_regresses op s :
  rc_inv s → rc_evolves s (run_rc_op op s).2.
Proof.
  intros Hi. enough (wp (run_rc_op op) (λ _ s', rc_evolves s s') s) as H by exact H.
  assert (rc_evolves s s) as Hrefl by (intros k c Hk; right; by exists c).
  destruct op; cbn [run_rc_op]; apply wp_bind.
  - eapply wp_mono; [apply put_request_correlation_spec|]. intros [stored|?] ?; [|by intros ->].
    intros (-> & _ & Hm & _) k d Hk. cbn [snd mret M_ret]. right.
    rewrite d_get_set. case_decide as Hid; [|by exists d].
    exists stored. split; [done|]. apply merge_correlation_spec in Hm as (Heq & _ & _ & Hm).
    rewrite <- Heq, Hid, Hk in Hm. destruct Hm as [Hs [->|[Ho _]]]; [done|].
    split; [done|]. rewrite Ho. by destruct (rr_state stored).
  - eapply wp_mono; [by apply transition_request_correlations_spec|].
    intros [l|?] ?; [|by intros ->]. intros (_ & Ht & Hg) k d Hk. cbn [snd mret M_ret]. right.
    rewrite Hg, Hk. cbn. eexists. split; [done|]. case_decide as Hr; [|done].
    pose proof (rc_entry_get _ _ _ Hi Hk) as [-> _].
    destruct (transitioned_spec _ _ _ _ _ _ _ Hi Ht Hr Hk) as (? & Hst & ? & _).
    split; [done|]. by rewrite Hst.
  - eapply wp_mono; [apply delete_request_correlations_spec|]. intros [n|?] ?; [|by intros ->].
    intros (? & _ & -> & _) k d Hk. cbn [snd mret M_ret]. rewrite d_get_pop_all. case_decide; [by left|].
    right. by exists d.
Qed.

(** A destination that joins a request already answered, gone stale or
    resolved is stored with a state at least that strong: delivering a closed
    request to another Conversation does not make it answerable again. *)
Theorem late_destination_is_not_answerable c closed s :
  rc_inv s → d_get s (rr_correlation_id c) = None →
  closed ∈ d_values s → rr_request_ref closed = rr_request_ref c → rr_state closed ≠ OPEN →
  wp (put_request_correlation c) (λ r s',
    match r with
    | Ok stored => d_get s' (rr_correlation_id c) = Some stored ∧
        rr_state stored ≠ OPEN ∧
        _REQUEST_STATE_PRECEDENCE (rr_state closed) ≤ _REQUEST_STATE_PRECEDENCE (rr_state stored)
    | Err _ => s' = s
    end) s.
Proof.
  intros Hi Hn Hin Hr Hst. eapply wp_mono; [apply put_request_correlation_spec|].
  intros [stored|?] ?; [|done]. intros (-> & _ & Hm & _). rewrite Hn in Hm.
  apply merge_correlation_spec in Hm as (Hid & _ & _ & _ & Hall).
  rewrite <- Hid, d_get_set_eq. rewrite Forall_forall in Hall.
  assert (_REQUEST_STATE_PRECEDENCE (rr_state closed)
    ≤ _REQUEST_STATE_PRECEDENCE (rr_state stored)) as Hp.
  { apply Hall; [|done]. by apply list_elem_of_filter. }
  split_and!; [done| |done]. intros Ho. rewrite Ho in Hp. by destruct (rr_state closed).
Qed.
