(* ===== verification/Bindings.v ===== *)
(** The Conversation bindings of [gateway/persistence/memory.py]: optimistic
    generation checks with floors that survive deletion.  Shown: the generation
    of a Conversation only grows, through every put and delete, so that an
    expectation that was met once is never met again. *)

From S2P Require Export StateContracts.
#[local] Open Scope Z_scope.
#[local] Open Scope stdpp_scope.

(** [gateway/persistence/memory.py:47-53] InMemoryBindingRepository *)
Record BindingRepository := {
  br_bindings : dict ConversationRef ConversationBinding;
  br_generation_floors : dict ConversationRef Z;
}.

Definition new_binding_repository : BindingRepository :=
  {| br_bindings := []; br_generation_floors := [] |}.

(** [gateway/persistence/memory.py:67-71] current_generation *)
Definition current_generation (s : BindingRepository) (conversation : ConversationRef) : Z :=
  default 0 (cb_generation <$> d_get (br_bindings s) conversation)
  `max` default 0 (d_get (br_generation_floors s) conversation).

(** [gateway/persistence/memory.py:55-57] InMemoryBindingRepository.get *)
Definition get_binding (conversation : ConversationRef)
    : M BindingRepository (option ConversationBinding) :=
  gets (λ s, d_get (br_bindings s) conversation).

(** The check both writers make. *)
Definition check_expected_generation (expected_generation : option Z) (current : Z) : res unit :=
  raise_if (is_Some expected_generation ∧ expected_generation ≠ Some current) BindingConflict.

(** [gateway/persistence/memory.py:77-84] the stored binding *)
Definition restamp (binding : ConversationBinding) (generation : Z) (now : datetime)
    : ConversationBinding := {|
  cb_conversation_ref := cb_conversation_ref binding;
  cb_application_ref := cb_application_ref binding;
  cb_project_ref := cb_project_ref binding;
  cb_thread_ref := cb_thread_ref binding;
  cb_generation := generation;
  cb_updated_at := Some now;
|}.

(** [gateway/persistence/memory.py:59-87] InMemoryBindingRepository.put *)
Definition put_binding (now : datetime) (binding : ConversationBinding)
    (expected_generation : option Z) : M BindingRepository ConversationBinding :=
  lift (validate_binding binding) ;;
  lift (_validate_generation expected_generation "expected_generation" true) ;;
  s ← get_st ;
  let conversation := cb_conversation_ref binding in
  let current := current_generation s conversation in
  lift (check_expected_generation expected_generation current) ;;
  let stored := restamp binding (current + 1) now in
  modify (λ s, {|
    br_bindings := d_set (br_bindings s) conversation stored;
    br_generation_floors := d_set (br_generation_floors s) conversation (cb_generation stored)
  |}) ;;
  mret stored.

(** [gateway/persistence/memory.py:89-107] InMemoryBindingRepository.delete *)
Definition delete_binding (conversation : ConversationRef) (expected_generation : option Z)
    : M BindingRepository unit :=
  lift (_validate_generation expected_generation "expected_generation" true) ;;
  s ← get_st ;
  let current := current_generation s conversation in
  lift (check_expected_generation expected_generation current) ;;
  modify (λ s, {|
    br_bindings := d_pop (br_bindings s) conversation;
    br_generation_floors := d_set (br_generation_floors s) conversation (current + 1)
  |}).

(** * Correctness *)

Inductive binding_op : Type :=
| PutBinding (now : datetime) (binding : ConversationBinding) (expected : option Z)
| DeleteBinding (conversation : ConversationRef) (expected : option Z).

Definition binding_op_target (op : binding_op) : ConversationRef :=
  match op with PutBinding _ b _ => cb_conversation_ref b | DeleteBinding c _ => c end.
Definition binding_op_expected (op : binding_op) : option Z :=
  match op with PutBinding _ _ e | DeleteBinding _ e => e end.

Definition run_binding_op (op : binding_op) : M BindingRepository unit :=
  match op with
  | PutBinding now b expected => put_binding now b expected ;; mret ()
  | DeleteBinding c expected => delete_binding c expected
  end.

(** The invariant: bindings are valid under their Conversation and never ahead
    of the floor their Conversation has recorded. *)
Definition binding_ok (floors : dict ConversationRef Z) (k : ConversationRef)
    (b : ConversationBinding) : Prop :=
  k = cb_conversation_ref b ∧ validate_binding b = Ok () ∧
  d_get floors k = Some (cb_generation b).

Record binding_inv (s : BindingRepository) : Prop := {
  bi_distinct : well_formed (br_bindings s);
  bi_floors_distinct : well_formed (br_generation_floors s);
  bi_bindings : d_all (binding_ok (br_generation_floors s)) (br_bindings s);
  bi_floors : d_all (λ _ g, 0 < g) (br_generation_floors s);
}.

(** Validity does not depend on the generation, as long as it is not negative. *)
Lemma validate_binding_restamp b g now :
  validate_binding b = Ok () → 0 ≤ g → validate_binding (restamp b g now) = Ok ().
Proof.
  unfold validate_binding, restamp; cbn. rewrite !seq_ok. intros H Hg. destruct_and!.
  split_and!; try done. apply raise_if_ok. lia.
Qed.


(** What a call does to the generation counters. *)
Definition generations_advance (c : ConversationRef) (s s' : BindingRepository) : Prop :=
  current_generation s' c = current_generation s c + 1 ∧
  ∀ c', c' ≠ c → current_generation s' c' = current_generation s c' ∧
    d_get (br_bindings s') c' = d_get (br_bindings s) c'.

Lemma binding_inv_generation s c :
  binding_inv s →
  0 ≤ current_generation s c ∧
  (∀ b, d_get (br_bindings s) c = Some b →
    cb_conversation_ref b = c ∧ cb_generation b = current_generation s c ∧ validate_binding b = Ok ()) ∧
  default 0 (d_get (br_generation_floors s) c) = current_generation s c.
Proof.
  intros [_ _ Hb Hf]. unfold current_generation.
  assert (0 ≤ default 0 (d_get (br_generation_floors s) c)) as Hfloor.
  { destruct (d_get (br_generation_floors s) c) as [g|] eqn:Hg; [|done].
    apply (d_all_get _ _ _ _ Hf) in Hg. cbn. lia. }
  destruct (d_get (br_bindings s) c) as [b|] eqn:Hg; cbn.
  - apply (d_all_get _ _ _ _ Hb) in Hg as (-> & Hv & Hfl). rewrite Hfl in *. cbn in *.
    split_and!; [lia| |lia]. intros ? [= <-]. split_and!; [done|lia|done].
  - split_and!; [lia|done|lia].
Qed.

Lemma d_all_binding_ok_floor s c g :
  binding_inv s →
  d_all (binding_ok (d_set (br_generation_floors s) c g)) (d_pop (br_bindings s) c).
Proof.
  intros [_ _ Hb _]. unfold d_all in *. rewrite !Forall_forall in *.
  intros [k b] [Hin Hk]%d_pop_elem. destruct (Hb _ Hin) as (? & ? & Hf). cbn in *.
  split_and!; try done. cbn. by rewrite d_get_set_ne.
Qed.

(** The success and the failure of a put. *)
Lemma put_binding_spec now b expected s :
  wp (put_binding now b expected) (λ r s',
    match r with
    | Err _ => s' = s
    | Ok stored =>
        let c := cb_conversation_ref b in
        validate_binding b = Ok () ∧
        (expected = None ∨ expected = Some (current_generation s c)) ∧
        stored = restamp b (current_generation s c + 1) now ∧
        s' = {| br_bindings := d_set (br_bindings s) c stored;
                br_generation_floors := d_set (br_generation_floors s) c (cb_generation stored) |}
    end) s.
Proof.
  unfold put_binding, check_expected_generation. wp_run; try done. inv_ok.
  split_and!; try done. destruct expected; [right|by left]. apply dec_stable.
  match goal with H : ¬ (_ ∧ _) |- _ => intros ?; apply H; split; [by eexists|done] end.
Qed.

Lemma delete_binding_spec c expected s :
  wp (delete_binding c expected) (λ r s',
    match r with
    | Err _ => s' = s
    | Ok _ =>
        (expected = None ∨ expected = Some (current_generation s c)) ∧
        s' = {| br_bindings := d_pop (br_bindings s) c;
                br_generation_floors :=
                  d_set (br_generation_floors s) c (current_generation s c + 1) |}
    end) s.
Proof.
  unfold delete_binding, check_expected_generation. wp_run; try done. inv_ok.
  split; [|done]. destruct expected; [right|by left]. apply dec_stable.
  match goal with H : ¬ (_ ∧ _) |- _ => intros ?; apply H; split; [by eexists|done] end.
Qed.

(** Storing a valid binding with its generation as the floor. *)
Lemma binding_inv_store s b :
  binding_inv s → validate_binding b = Ok () → 0 < cb_generation b →
  binding_inv {| br_bindings := d_set (br_bindings s) (cb_conversation_ref b) b;
    br_generation_floors :=
      d_set (br_generation_floors s) (cb_conversation_ref b) (cb_generation b) |}.
Proof.
  intros Hi Hv Hg.
  split; cbn; [eauto using bi_distinct with gateway|eauto using bi_floors_distinct with gateway| |].
  - apply Forall_forall. intros [k b'] Hin. cbn.
    apply (d_elem_get _ _ _ (well_formed_set _ _ _ (bi_distinct _ Hi))) in Hin.
    rewrite d_get_set in Hin. destruct (decide (cb_conversation_ref b = k)) as [<-|Hk].
    + injection Hin as <-. split_and!; [done|done|by rewrite d_get_set_eq].
    + apply (d_all_get _ _ _ _ (bi_bindings _ Hi)) in Hin as (? & ? & ?).
      split_and!; try done. by rewrite d_get_set_ne.
  - apply d_all_set; [apply Hi|lia].
Qed.

(** Removing a binding, its generation kept. *)
Lemma binding_inv_clear s c g :
  binding_inv s → 0 < g →
  binding_inv {| br_bindings := d_pop (br_bindings s) c;
    br_generation_floors := d_set (br_generation_floors s) c g |}.
Proof.
  intros Hi Hg.
  split; cbn; [eauto using bi_distinct with gateway|eauto using bi_floors_distinct with gateway| |].
  - by apply d_all_binding_ok_floor.
  - apply d_all_set; [apply Hi|lia].
Qed.

Lemma put_keeps_binding_inv now b expected s :
  binding_inv s → binding_inv (put_binding now b expected s).2.
Proof.
  intros Hi. apply (wp_mono _ _ (λ _ s', binding_inv s') _ (put_binding_spec now b expected s)).
  intros [stored|e] s'; [|by intros ->]. intros (Hv & _ & -> & ->).
  destruct (binding_inv_generation s (cb_conversation_ref b) Hi) as (Hg & _ & _).
  apply (binding_inv_store s (restamp b (current_generation s (cb_conversation_ref b) + 1) now));
    [done|apply validate_binding_restamp; [done|lia]|cbn; lia].
Qed.

Lemma delete_keeps_binding_inv c expected s :
  binding_inv s → binding_inv (delete_binding c expected s).2.
Proof.
  intros Hi. apply (wp_mono _ _ (λ _ s', binding_inv s') _ (delete_binding_spec c expected s)).
  intros [[]|e] s'; [|by intros ->]. intros (_ & ->).
  destruct (binding_inv_generation s c Hi) as (Hg & _ & _). apply binding_inv_clear; [done|lia].
Qed.

Lemma run_binding_op_keeps_inv op s : binding_inv s → binding_inv (run_binding_op op s).2.
Proof.
  intros Hi. destruct op; cbn [run_binding_op]; [|by apply delete_keeps_binding_inv].
  pose proof (put_keeps_binding_inv now binding expected s Hi) as H.
  unfold mbind, M_bind. by destruct (put_binding now binding expected s) as [[]?].
Qed.

Lemma current_generation_set_other (s : BindingRepository) c c' bs fs :
  c' ≠ c → d_get bs c' = d_get (br_bindings s) c' →
  d_get fs c' = d_get (br_generation_floors s) c' →
  current_generation {| br_bindings := bs; br_generation_floors := fs |} c' = current_generation s c'.
Proof. unfold current_generation; cbn. by intros _ -> ->. Qed.

(** The outcome of any call: refused and nothing changed, or accepted, its
    expectation met, and the generation of its Conversation advanced by one. *)
Lemma run_binding_op_spec op s :
  binding_inv s →
  wp (run_binding_op op) (λ r s',
    match r with
    | Err _ => s' = s
    | Ok _ => generations_advance (binding_op_target op) s s' ∧
        (binding_op_expected op = None
         ∨ binding_op_expected op = Some (current_generation s (binding_op_target op)))
    end) s.
Proof.
  intros Hi. destruct op as [now b expected|c expected]; cbn [run_binding_op binding_op_target binding_op_expected].
  - apply wp_bind. eapply wp_mono; [apply put_binding_spec|]. intros [stored|?] s'; [|done].
    intros (_ & He & -> & ->). apply wp_ret. split; [|done]. split.
    + unfold current_generation at 1; cbn. rewrite !d_get_set_eq; cbn. lia.
    + intros c' Hc. split; [apply (current_generation_set_other s (cb_conversation_ref b))|]; cbn;
        rewrite ?d_get_set_ne by (by apply not_eq_sym); done.
  - eapply wp_mono; [apply delete_binding_spec|]. intros [[]|?] s'; [|done].
    intros (He & ->). split; [|done].
    destruct (binding_inv_generation s c Hi) as (Hg & _ & _). split.
    + unfold current_generation at 1; cbn. rewrite d_get_pop, d_get_set_eq, decide_True by done. cbn. lia.
    + intros c' Hc. split; [apply (current_generation_set_other s c)|]; cbn;
        rewrite ?d_get_set_ne by (by apply not_eq_sym); rewrite ?d_get_pop, ?decide_False by (by apply not_eq_sym); done.
Qed.

Definition binding_step (s s' : BindingRepository) : Prop := ∃ op, s' = (run_binding_op op s).2.

Lemma generation_monotone c s s' :
  binding_inv s → rtc binding_step s s' →
  binding_inv s' ∧ current_generation s c ≤ current_generation s' c.
Proof.
  intros Hi H. revert Hi. induction H as [|s1 s2 s3 [op ->] _ IH]; intros Hi; [done|].
  pose proof (run_binding_op_keeps_inv op s1 Hi) as Hi2. destruct (IH Hi2) as [? Hle].
  split; [done|]. etrans; [|exact Hle].
  pose proof (run_binding_op_spec op s1 Hi) as Hs. unfold wp in Hs.
  destruct (run_binding_op op s1) as [[?|?] s']; cbn in *.
  - destruct Hs as [[H1 H2] _]. destruct (decide (c = binding_op_target op)) as [->|Hne]; [lia|].
    destruct (H2 c Hne) as [-> _]. done.
  - by rewrite Hs.
Qed.

(** Every call keeps the repository well formed: the bindings are valid
    under their own Conversation, and the recorded generation floor of a bound
    Conversation is the generation of its binding. *)
Theorem binding_repository_invariant op s : binding_inv s → binding_inv (run_binding_op op s).2.
Proof. apply run_binding_op_keeps_inv. Qed.

(** An accepted put or delete advances the generation of its Conversation
    by exactly one and leaves every other Conversation alone; a refused one
    changes nothing.  With an expected generation it is accepted only at that
    generation. *)
Theorem binding_call_advances_one_generation op s :
  binding_inv s →
  wp (run_binding_op op) (λ r s',
    match r with
    | Err _ => s' = s
    | Ok _ => generations_advance (binding_op_target op) s s' ∧
        (binding_op_expected op = None
         ∨ binding_op_expected op = Some (current_generation s (binding_op_target op)))
    end) s.
Proof. apply run_binding_op_spec. Qed.

(** A compare-and-set on a binding wins at most once: after one caller's
    expected generation was accepted, no later call that expects the same
    generation is, whatever happened in between, deletion included. *)
Theorem binding_expectation_is_met_once op op' g s s' :
  binding_inv s → (run_binding_op op s).1 = Ok () → binding_op_expected op = Some g →
  binding_op_target op' = binding_op_target op → binding_op_expected op' = Some g →
  rtc binding_step (run_binding_op op s).2 s' →
  is_ok (run_binding_op op' s').1 = false ∧ (run_binding_op op' s').2 = s'.
Proof.
  intros Hi Hok He Ht He' Hr.
  pose proof (run_binding_op_spec op s Hi) as Hs. unfold wp in Hs. rewrite Hok in Hs.
  destruct Hs as [[Hadv _] [Hn|Hg]]; [congruence|].
  destruct (generation_monotone (binding_op_target op) _ _
    (run_binding_op_keeps_inv op s Hi) Hr) as [Hi' Hle].
  pose proof (run_binding_op_spec op' s' Hi') as Hs'. unfold wp in Hs'.
  destruct (run_binding_op op' s') as [[[]|e] s2]; cbn in *; [|done].
  destruct Hs' as [_ [Hn|Hg']]; [congruence|]. rewrite Ht in Hg'. rewrite He' in Hg'.
  rewrite He in Hg. simplify_eq. lia.
Qed.
