(* ===== verification/ProjectionRoutes.v ===== *)
(** The projection routes and Turn reply correlations of
    [gateway/persistence/memory.py].  Shown: a route ID names one pair of
    endpoints, a checkpoint only moves by a compare-and-set advance and is
    never lost by a refresh, a replacement leaves the Thread exactly one route,
    and the reply destination of a Turn is decided once. *)

From S2P Require Export StateContracts.
From S2P Require Import RequestCorrelation.
#[local] Open Scope Z_scope.
#[local] Open Scope stdpp_scope.

(** [gateway/persistence/memory.py:203-213] _same_turn_reply_correlation *)
Definition _same_turn_reply_correlation (left right : TurnReplyCorrelation) : Prop :=
  tc_correlation_id left = tc_correlation_id right ∧
  tc_turn_ref left = tc_turn_ref right ∧
  tc_client_message_id left = tc_client_message_id right ∧
  tc_conversation_ref left = tc_conversation_ref right ∧
  tc_reply_to_message_id left = tc_reply_to_message_id right.
#[export] Instance _same_turn_reply_correlation_dec l r :
  Decision (_same_turn_reply_correlation l r).
Proof. unfold _same_turn_reply_correlation. apply _. Defined.

(** [replace(route, checkpoint_agent_item_id=..., checkpointed_at=...)]. *)
Definition with_checkpoint (r : ThreadProjectionRoute) (item : option pystr)
    (at_ : option datetime) : ThreadProjectionRoute := {|
  tr_route_id := tr_route_id r;
  tr_thread_ref := tr_thread_ref r;
  tr_conversation_ref := tr_conversation_ref r;
  tr_reply_to_message_id := tr_reply_to_message_id r;
  tr_checkpoint_agent_item_id := item;
  tr_checkpointed_at := at_;
  tr_updated_at := tr_updated_at r;
|}.

(** [gateway/persistence/memory.py:216-245] _merge_projection_route *)
Definition _merge_projection_route (existing : option ThreadProjectionRoute)
    (replacement : ThreadProjectionRoute) : res ThreadProjectionRoute :=
  match existing with
  | None => Ok replacement
  | Some existing =>
      raise_if (tr_route_id existing ≠ tr_route_id replacement
                ∨ tr_thread_ref existing ≠ tr_thread_ref replacement
                ∨ tr_conversation_ref existing ≠ tr_conversation_ref replacement)
        ProjectionRouteConflict ;;
      if decide (is_Some (tr_checkpoint_agent_item_id replacement)) then
        raise_if (tr_checkpoint_agent_item_id replacement ≠ tr_checkpoint_agent_item_id existing
                  ∨ tr_checkpointed_at replacement ≠ tr_checkpointed_at existing)
          ProjectionCheckpointConflict ;;
        Ok replacement
      else if decide (tr_checkpoint_agent_item_id existing = None) then Ok replacement
      else Ok (with_checkpoint replacement (tr_checkpoint_agent_item_id existing)
                 (tr_checkpointed_at existing))
  end.

(** [gateway/persistence/memory.py:248-259] _reject_conflicting_route_id *)
Definition _reject_conflicting_route_id (routes : list ThreadProjectionRoute)
    (replacement : ThreadProjectionRoute) : res unit :=
  for_each routes (λ existing,
    raise_if (tr_route_id existing = tr_route_id replacement
              ∧ (tr_thread_ref existing ≠ tr_thread_ref replacement
                 ∨ tr_conversation_ref existing ≠ tr_conversation_ref replacement))
      ProjectionRouteConflict).

(** [gateway/persistence/memory.py:262-274] InMemoryProjectionRouteRepository *)
Record ProjectionRepository := {
  pj_routes : dict (ThreadRef * ConversationRef) ThreadProjectionRoute;
  pj_turn_correlations : dict (ThreadRef * pystr) TurnReplyCorrelation;
}.

Definition new_projection_repository : ProjectionRepository :=
  {| pj_routes := []; pj_turn_correlations := [] |}.
Definition set_routes routes (s : ProjectionRepository) : ProjectionRepository :=
  {| pj_routes := routes; pj_turn_correlations := pj_turn_correlations s |}.
Definition set_turns turns (s : ProjectionRepository) : ProjectionRepository :=
  {| pj_routes := pj_routes s; pj_turn_correlations := turns |}.

Definition route_key (r : ThreadProjectionRoute) : ThreadRef * ConversationRef :=
  (tr_thread_ref r, tr_conversation_ref r).
Definition turn_key (c : TurnReplyCorrelation) : ThreadRef * pystr :=
  (tn_thread_ref (tc_turn_ref c), tn_turn_id (tc_turn_ref c)).

(** [gateway/persistence/memory.py:276-284] InMemoryProjectionRouteRepository.list_projection_routes *)
Definition list_projection_routes (thread_ref : option ThreadRef)
    : M ProjectionRepository (list ThreadProjectionRoute) :=
  gets (λ s, filter (λ r, selects thread_ref (tr_thread_ref r)) (d_values (pj_routes s))).

(** [gateway/persistence/memory.py:286-296] InMemoryProjectionRouteRepository.put_projection_route *)
Definition put_projection_route (route : ThreadProjectionRoute)
    : M ProjectionRepository ThreadProjectionRoute :=
  lift (validate_projection_route route) ;;
  s ← get_st ;
  lift (_reject_conflicting_route_id (d_values (pj_routes s)) route) ;;
  stored ← lift (_merge_projection_route (d_get (pj_routes s) (route_key route)) route) ;
  modify (set_routes (d_set (pj_routes s) (route_key route) stored)) ;;
  mret stored.

(** [gateway/persistence/memory.py:298-311] InMemoryProjectionRouteRepository.replace_thread_projection_routes *)
Definition replace_thread_projection_routes (route : ThreadProjectionRoute)
    : M ProjectionRepository ThreadProjectionRoute :=
  lift (validate_projection_route route) ;;
  s ← get_st ;
  lift (_reject_conflicting_route_id (d_values (pj_routes s)) route) ;;
  stored ← lift (_merge_projection_route (d_get (pj_routes s) (route_key route)) route) ;
  let stale := filter (λ k, k.1 = tr_thread_ref route) (d_keys (pj_routes s)) in
  modify (set_routes (d_set (d_pop_all (pj_routes s) stale) (route_key route) stored)) ;;
  mret stored.

(** [for key, route in routes.items(): if route.route_id == route_id]. *)
Fixpoint find_route (route_id : pystr) (routes : dict (ThreadRef * ConversationRef) ThreadProjectionRoute)
    : option ((ThreadRef * ConversationRef) * ThreadProjectionRoute) :=
  match routes with
  | [] => None
  | (key, route) :: routes' =>
      if decide (tr_route_id route = route_id) then Some (key, route) else find_route route_id routes'
  end.

(** [gateway/persistence/memory.py:313-336] InMemoryProjectionRouteRepository.advance_projection_checkpoint *)
Definition advance_projection_checkpoint (route_id : pystr)
    (expected_agent_item_id : option pystr) (agent_item_id : pystr) (checkpointed_at : datetime)
    : M ProjectionRepository ThreadProjectionRoute :=
  s ← get_st ;
  match find_route route_id (pj_routes s) with
  | Some (key, route) =>
      raise_if (tr_checkpoint_agent_item_id route ≠ expected_agent_item_id)
        ProjectionCheckpointConflict ;;
      let advanced := with_checkpoint route (Some agent_item_id) (Some checkpointed_at) in
      lift (validate_projection_route advanced) ;;
      modify (set_routes (d_set (pj_routes s) key advanced)) ;;
      mret advanced
  | None => mraise KeyError
  end.

(** [gateway/persistence/memory.py:338-351] InMemoryProjectionRouteRepository.delete_projection_routes *)
Definition delete_projection_routes (thread_ref : ThreadRef)
    (conversation_ref : option ConversationRef) : M ProjectionRepository Z :=
  s ← get_st ;
  let keys := filter (λ k, k.1 = thread_ref ∧ selects conversation_ref k.2) (d_keys (pj_routes s)) in
  modify (set_routes (d_pop_all (pj_routes s) keys)) ;;
  mret (len keys).

(** [gateway/persistence/memory.py:353-359] InMemoryProjectionRouteRepository.get_turn_reply_correlation *)
Definition get_turn_reply_correlation (thread_ref : ThreadRef) (turn_id : pystr)
    : M ProjectionRepository (option TurnReplyCorrelation) :=
  gets (λ s, d_get (pj_turn_correlations s) (thread_ref, turn_id)).

(** [gateway/persistence/memory.py:361-373] InMemoryProjectionRouteRepository.list_turn_reply_correlations *)
Definition list_turn_reply_correlations (thread_ref : option ThreadRef)
    : M ProjectionRepository (list TurnReplyCorrelation) :=
  gets (λ s, filter (λ c, selects thread_ref (tn_thread_ref (tc_turn_ref c)))
    (d_values (pj_turn_correlations s))).

(** [gateway/persistence/memory.py:375-390] InMemoryProjectionRouteRepository.put_turn_reply_correlation *)
Definition put_turn_reply_correlation (correlation : TurnReplyCorrelation)
    : M ProjectionRepository TurnReplyCorrelation :=
  lift (validate_turn_reply_correlation correlation) ;;
  s ← get_st ;
  match d_get (pj_turn_correlations s) (turn_key correlation) with
  | None =>
      modify (set_turns (d_set (pj_turn_correlations s) (turn_key correlation) correlation)) ;;
      mret correlation
  | Some current =>
      raise_if (¬ _same_turn_reply_correlation current correlation) TurnReplyCorrelationConflict ;;
      mret current
  end.

(** [gateway/persistence/memory.py:392-398] InMemoryProjectionRouteRepository.delete_turn_reply_correlation *)
Definition delete_turn_reply_correlation (thread_ref : ThreadRef) (turn_id : pystr)
    : M ProjectionRepository bool :=
  s ← get_st ;
  modify (set_turns (d_pop (pj_turn_correlations s) (thread_ref, turn_id))) ;;
  mret (bool_decide (is_Some (d_get (pj_turn_correlations s) (thread_ref, turn_id)))).

(** [gateway/persistence/memory.py:412-416] the selection of the bulk deletion *)
Definition turn_selected (thread_ref : option ThreadRef) (conversation_ref : option ConversationRef)
    (older_than : option datetime) (c : TurnReplyCorrelation) : res bool :=
  if decide (selects thread_ref (tn_thread_ref (tc_turn_ref c))
             ∧ selects conversation_ref (tc_conversation_ref c))
  then older older_than (tc_created_at c)
  else Ok false.

(** [gateway/persistence/memory.py:400-419] InMemoryProjectionRouteRepository.delete_turn_reply_correlations *)
Definition delete_turn_reply_correlations (thread_ref : option ThreadRef)
    (conversation_ref : option ConversationRef) (older_than : option datetime)
    : M ProjectionRepository Z :=
  raise_if (thread_ref = None ∧ conversation_ref = None ∧ older_than = None) ValueError ;;
  s ← get_st ;
  entries ← lift (filter_res (λ kv, turn_selected thread_ref conversation_ref older_than kv.2)
    (pj_turn_correlations s)) ;
  modify (set_turns (d_pop_all (pj_turn_correlations s) (d_keys entries))) ;;
  mret (len entries).

(** * Correctness *)

Inductive projection_op : Type :=
| PutRoute (route : ThreadProjectionRoute)
| ReplaceRoutes (route : ThreadProjectionRoute)
| AdvanceCheckpoint (route_id : pystr) (expected : option pystr) (item : pystr) (at_ : datetime)
| DeleteRoutes (th : ThreadRef) (cv : option ConversationRef)
| PutTurn (c : TurnReplyCorrelation)
| DeleteTurn (th : ThreadRef) (turn_id : pystr)
| DeleteTurns (th : option ThreadRef) (cv : option ConversationRef) (older : option datetime).

Definition run_projection_op (op : projection_op) : M ProjectionRepository unit :=
  match op with
  | PutRoute r => put_projection_route r ;; mret ()
  | ReplaceRoutes r => replace_thread_projection_routes r ;; mret ()
  | AdvanceCheckpoint i e a t => advance_projection_checkpoint i e a t ;; mret ()
  | DeleteRoutes th cv => delete_projection_routes th cv ;; mret ()
  | PutTurn c => put_turn_reply_correlation c ;; mret ()
  | DeleteTurn th i => delete_turn_reply_correlation th i ;; mret ()
  | DeleteTurns th cv older => delete_turn_reply_correlations th cv older ;; mret ()
  end.

Definition route_ok (k : ThreadRef * ConversationRef) (r : ThreadProjectionRoute) : Prop :=
  k = route_key r ∧ validate_projection_route r = Ok ().
Definition turn_ok (k : ThreadRef * pystr) (c : TurnReplyCorrelation) : Prop :=
  k = turn_key c ∧ validate_turn_reply_correlation c = Ok ().

Record projection_inv (s : ProjectionRepository) : Prop := {
  pi_routes_distinct : well_formed (pj_routes s);
  pi_turns_distinct : well_formed (pj_turn_correlations s);
  pi_routes : d_all route_ok (pj_routes s);
  pi_turns : d_all turn_ok (pj_turn_correlations s);
  pi_route_ids : ∀ r r', r ∈ d_values (pj_routes s) → r' ∈ d_values (pj_routes s) →
    tr_route_id r = tr_route_id r' → route_key r = route_key r';
}.

Definition checkpoint_of (r : ThreadProjectionRoute) : option pystr * option datetime :=
  (tr_checkpoint_agent_item_id r, tr_checkpointed_at r).

Lemma find_route_spec i routes k r :
  find_route i routes = Some (k, r) → (k, r) ∈ routes ∧ tr_route_id r = i.
Proof.
  induction routes as [|[k' r'] routes IH]; cbn [find_route]; [done|].
  case_decide; intros Hf; simplify_eq; [set_solver|]. destruct (IH Hf). set_solver.
Qed.

Lemma valid_route_checkpoint r :
  validate_projection_route r = Ok () →
  (tr_checkpoint_agent_item_id r = None ↔ tr_checkpointed_at r = None).
Proof.
  unfold validate_projection_route. rewrite !seq_ok. intros H. destruct_and!.
  match goal with H : raise_if (¬ _) _ = _ |- _ => apply raise_if_ok, dec_stable in H end. done.
Qed.

Lemma validate_with_checkpoint r item t :
  validate_projection_route r = Ok () → identifier item →
  validate_projection_route (with_checkpoint r (Some item) (Some t)) = Ok ().
Proof.
  unfold validate_projection_route, with_checkpoint; cbn. rewrite !seq_ok.
  intros H Hi. destruct_and!. split_and!; try done.
  by apply require_identifier_ok.
Qed.

(** The merge keeps the endpoints and the checkpoint of the route it refreshes. *)
Lemma merge_projection_route_spec existing r stored :
  _merge_projection_route existing r = Ok stored →
  validate_projection_route r = Ok () →
  (∀ e, existing = Some e → validate_projection_route e = Ok ()) →
  tr_route_id stored = tr_route_id r ∧ route_key stored = route_key r ∧
  validate_projection_route stored = Ok () ∧
  ∀ e, existing = Some e → tr_route_id e = tr_route_id r ∧ checkpoint_of stored = checkpoint_of e.
Proof.
  unfold _merge_projection_route, checkpoint_of. intros H Hv He.
  destruct existing as [e|]; [|by simplify_eq]. specialize (He e eq_refl).
  apply res_bind_ok in H as ([] & Hr & H). apply raise_if_ok in Hr.
  assert (tr_route_id e = tr_route_id r) as Hid by (apply dec_stable; tauto).
  pose proof (valid_route_checkpoint _ He) as Hec. pose proof (valid_route_checkpoint _ Hv) as Hrc.
  case_decide as Hs; [|case_decide as Hn]; inv_ok; subst stored.
  - split_and!; try done. intros ? [= <-]. split; [done|]. f_equal; apply dec_stable; tauto.
  - split_and!; try done. intros ? [= <-]. split; [done|].
    apply eq_None_not_Some in Hs. by rewrite Hs, Hn, (proj1 Hrc Hs), (proj1 Hec Hn).
  - split_and!; try done; [|by intros ? [= <-]].
    destruct (tr_checkpoint_agent_item_id e) as [item|] eqn:Hitem; [|done].
    destruct (tr_checkpointed_at e) as [t|]; [|by destruct Hec as [_ Hx]; discriminate Hx].
    apply validate_with_checkpoint; [done|].
    unfold validate_projection_route in He. rewrite !seq_ok in He. destruct_and!.
    rewrite Hitem in *. cbn in *. by eapply require_identifier_ok.
Qed.

Lemma reject_conflicting_route_id_ok l r u :
  _reject_conflicting_route_id l r = Ok u → ∀ r', r' ∈ l →
  tr_route_id r' = tr_route_id r → route_key r' = route_key r.
Proof.
  unfold _reject_conflicting_route_id. rewrite for_each_ok, Forall_forall.
  intros H r' Hin Hid. specialize (H r' Hin). apply raise_if_ok in H.
  unfold route_key. f_equal; apply dec_stable; tauto.
Qed.

(** ** The outcome of each call *)

Definition accepts_route (s : ProjectionRepository) (route stored : ThreadProjectionRoute) : Prop :=
  validate_projection_route route = Ok () ∧
  _reject_conflicting_route_id (d_values (pj_routes s)) route = Ok () ∧
  _merge_projection_route (d_get (pj_routes s) (route_key route)) route = Ok stored.

Definition routes_of_thread (s : ProjectionRepository) (th : ThreadRef) :=
  filter (λ k : ThreadRef * ConversationRef, k.1 = th) (d_keys (pj_routes s)).

Lemma put_projection_route_spec route s :
  wp (put_projection_route route) (λ r s',
    match r with
    | Err _ => s' = s
    | Ok stored => accepts_route s route stored ∧
        s' = set_routes (d_set (pj_routes s) (route_key route) stored) s
    end) s.
Proof. unfold put_projection_route, accepts_route. wp_run; try done. by inv_ok. Qed.

Lemma replace_thread_projection_routes_spec route s :
  wp (replace_thread_projection_routes route) (λ r s',
    match r with
    | Err _ => s' = s
    | Ok stored => accepts_route s route stored ∧
        s' = set_routes (d_set (d_pop_all (pj_routes s) (routes_of_thread s (tr_thread_ref route)))
               (route_key route) stored) s
    end) s.
Proof. unfold replace_thread_projection_routes, accepts_route. wp_run; try done. by inv_ok. Qed.

Lemma advance_projection_checkpoint_spec i expected item t s :
  wp (advance_projection_checkpoint i expected item t) (λ r s',
    match r with
    | Err _ => s' = s
    | Ok advanced => ∃ key route, find_route i (pj_routes s) = Some (key, route) ∧
        tr_checkpoint_agent_item_id route = expected ∧
        advanced = with_checkpoint route (Some item) (Some t) ∧
        validate_projection_route advanced = Ok () ∧
        s' = set_routes (d_set (pj_routes s) key advanced) s
    end) s.
Proof.
  unfold advance_projection_checkpoint. wp_run; try done. inv_ok.
  do 2 eexists. split_and!; try done. by apply dec_stable.
Qed.

Lemma put_turn_reply_correlation_spec c s :
  wp (put_turn_reply_correlation c) (λ r s',
    match r with
    | Err _ => s' = s
    | Ok stored => validate_turn_reply_correlation c = Ok () ∧
        match d_get (pj_turn_correlations s) (turn_key c) with
        | Some current => stored = current ∧ s' = s ∧ _same_turn_reply_correlation current c
        | None => stored = c ∧ s' = set_turns (d_set (pj_turn_correlations s) (turn_key c) c) s
        end
    end) s.
Proof.
  unfold put_turn_reply_correlation. wp_run; try done; inv_ok; rewrite ?Heqo.
  - split_and!; try done. by apply dec_stable.
  - done.
Qed.

Lemma delete_turn_reply_correlations_spec th cv older s :
  wp (delete_turn_reply_correlations th cv older) (λ r s',
    match r with
    | Err _ => s' = s
    | Ok n => ∃ entries, n = len entries ∧
        s' = set_turns (d_pop_all (pj_turn_correlations s) (d_keys entries)) s ∧
        entries = filter (λ kv, turn_selected th cv older kv.2 = Ok true) (pj_turn_correlations s)
    end) s.
Proof.
  unfold delete_turn_reply_correlations. wp_run; try done.
  match goal with H : filter_res _ _ = Ok _ |- _ => apply filter_res_ok in H as [-> _] end. eauto.
Qed.

(** ** The invariant *)

Lemma accepts_route_spec s route stored :
  projection_inv s → accepts_route s route stored →
  tr_route_id stored = tr_route_id route ∧ route_key stored = route_key route ∧
  validate_projection_route stored = Ok () ∧
  (∀ e, d_get (pj_routes s) (route_key route) = Some e →
    tr_route_id e = tr_route_id route ∧ checkpoint_of stored = checkpoint_of e).
Proof.
  intros Hi (Hv & _ & Hm). eapply merge_projection_route_spec; [done|done|].
  intros e He. by apply (d_all_get _ _ _ _ (pi_routes _ Hi)) in He as [_ ?].
Qed.

Lemma inv_pop_routes s ks : projection_inv s → projection_inv (set_routes (d_pop_all (pj_routes s) ks) s).
Proof.
  intros [H1 H2 H3 H4 H5]. split; cbn; try done; [eauto with gateway|by apply d_all_pop_all|].
  intros r r' (? & Hr%d_pop_all_elem)%d_values_elem (? & Hr'%d_pop_all_elem)%d_values_elem.
  apply H5; apply d_values_elem; eauto.
Qed.

Lemma inv_set_route s stored :
  projection_inv s → validate_projection_route stored = Ok () →
  (∀ r, r ∈ d_values (pj_routes s) → tr_route_id r = tr_route_id stored →
    route_key r = route_key stored) →
  projection_inv (set_routes (d_set (pj_routes s) (route_key stored) stored) s).
Proof.
  intros [H1 H2 H3 H4 H5] Hv Hid. split; cbn; try done;
    [eauto with gateway|by apply d_all_set|].
  intros r r' [->|Hr]%d_values_set [->|Hr']%d_values_set; auto.
  intros Heq. symmetry. by apply Hid.
Qed.

Lemma inv_set_turn s c :
  projection_inv s → validate_turn_reply_correlation c = Ok () →
  projection_inv (set_turns (d_set (pj_turn_correlations s) (turn_key c) c) s).
Proof. intros [H1 H2 H3 H4 H5] Hv. split; cbn; try done; [eauto with gateway|by apply d_all_set]. Qed.

Lemma inv_pop_turns s ks : projection_inv s → projection_inv (set_turns (d_pop_all (pj_turn_correlations s) ks) s).
Proof. intros [H1 H2 H3 H4 H5]. split; cbn; try done; [eauto with gateway|by apply d_all_pop_all]. Qed.

Lemma inv_pop_turn s k : projection_inv s → projection_inv (set_turns (d_pop (pj_turn_correlations s) k) s).
Proof. apply (inv_pop_turns s [k]). Qed.

Lemma inv_accepts s s0 route stored :
  projection_inv s → projection_inv s0 → accepts_route s route stored →
  (∀ r, r ∈ d_values (pj_routes s0) → r ∈ d_values (pj_routes s)) →
  projection_inv (set_routes (d_set (pj_routes s0) (route_key route) stored) s0).
Proof.
  intros Hi Hi0 Ha Hsub. destruct (accepts_route_spec _ _ _ Hi Ha) as (Hid & Hk & Hv & _).
  rewrite <- Hk. apply inv_set_route; [done|done|]. intros r Hr Hrid. rewrite Hk.
  destruct Ha as (_ & Hrej & _). eapply reject_conflicting_route_id_ok; [exact Hrej|auto|congruence].
Qed.

Lemma run_projection_op_keeps_inv op s : projection_inv s → projection_inv (run_projection_op op s).2.
Proof.
  intros Hi. enough (wp (run_projection_op op) (λ _ s', projection_inv s') s) as H by exact H.
  destruct op; cbn [run_projection_op]; apply wp_bind.
  - eapply wp_mono; [apply put_projection_route_spec|]. intros [stored|?] ?; [|by intros ->].
    intros (Ha & ->). apply wp_ret. by apply (inv_accepts s).
  - eapply wp_mono; [apply replace_thread_projection_routes_spec|].
    intros [stored|?] ?; [|by intros ->]. intros (Ha & ->). apply wp_ret.
    apply (inv_accepts s (set_routes (d_pop_all (pj_routes s) (routes_of_thread s (tr_thread_ref route))) s));
      [done|by apply inv_pop_routes|done|].
    intros r (? & Hr%d_pop_all_elem)%d_values_elem. apply d_values_elem. eauto.
  - eapply wp_mono; [apply advance_projection_checkpoint_spec|]. intros [adv|?] ?; [|by intros ->].
    intros (key & r & Hf & _ & -> & Hv & ->). apply wp_ret. apply find_route_spec in Hf as [Hin Hid].
    pose proof (d_elem_get _ _ _ (pi_routes_distinct _ Hi) Hin) as Hg.
    pose proof (d_all_get _ _ _ _ (pi_routes _ Hi) Hg) as [-> _].
    apply (inv_set_route s (with_checkpoint r (Some item) (Some at_))); [done|done|].
    intros r' Hr' Hid'. apply (pi_route_ids _ Hi r' r); [done|by eapply d_get_values|done].
  - unfold delete_projection_routes. wp_run. by apply inv_pop_routes.
  - eapply wp_mono; [apply put_turn_reply_correlation_spec|]. intros [stored|?] ?; [|by intros ->].
    intros (Hv & H). apply wp_ret. destruct (d_get _ _).
    + by destruct H as (_ & -> & _).
    + destruct H as [_ ->]. by apply inv_set_turn.
  - unfold delete_turn_reply_correlation. wp_run. by apply inv_pop_turn.
  - eapply wp_mono; [apply delete_turn_reply_correlations_spec|]. intros [n|?] ?; [|by intros ->].
    intros (? & _ & -> & _). by apply inv_pop_turns.
Qed.

(** Every call keeps the repository well formed: routes and Turn
    correlations are valid under their own keys, and no route ID names two
    pairs of endpoints. *)
Theorem projection_repository_invariant op s :
  projection_inv s → projection_inv (run_projection_op op s).2.
Proof. apply run_projection_op_keeps_inv. Qed.

Lemma run_projection_op_err op s e :
  (run_projection_op op s).1 = Err e → (run_projection_op op s).2 = s.
Proof.
  enough (wp (run_projection_op op) (λ r s', r = Err e → s' = s) s) as H by exact H.
  destruct op; cbn [run_projection_op]; apply wp_bind.
  - eapply wp_mono; [apply put_projection_route_spec|]. by intros [] ?.
  - eapply wp_mono; [apply replace_thread_projection_routes_spec|]. by intros [] ?.
  - eapply wp_mono; [apply advance_projection_checkpoint_spec|]. by intros [] ?.
  - unfold delete_projection_routes. by wp_run.
  - eapply wp_mono; [apply put_turn_reply_correlation_spec|]. by intros [] ?.
  - unfold delete_turn_reply_correlation. by wp_run.
  - eapply wp_mono; [apply delete_turn_reply_correlations_spec|]. by intros [] ?.
Qed.

(** A call that raises leaves routes and Turn correlations as they were. *)
Theorem failed_projection_call_writes_nothing op s e :
  (run_projection_op op s).1 = Err e → (run_projection_op op s).2 = s.
Proof. apply run_projection_op_err. Qed.

(** What may happen to a route that survives a call: it keeps its ID, and its
    checkpoint moves only when the call is an advance of that very route that
    names the checkpoint it had. *)
Definition route_evolves (op : projection_op) (r r' : ThreadProjectionRoute) : Prop :=
  tr_route_id r' = tr_route_id r ∧
  (checkpoint_of r' = checkpoint_of r ∨
   ∃ item t, op = AdvanceCheckpoint (tr_route_id r) (tr_checkpoint_agent_item_id r) item t ∧
     checkpoint_of r' = (Some item, Some t)).

Lemma route_evolves_refl op r : route_evolves op r r.
Proof. split; [done|by left]. Qed.

Lemma accepted_route_evolves op s route stored k r r' routes :
  projection_inv s → accepts_route s route stored → d_get (pj_routes s) k = Some r →
  (∀ k' x, d_get routes k' = Some x → d_get (pj_routes s) k' = Some x) →
  d_get (d_set routes (route_key route) stored) k = Some r' → route_evolves op r r'.
Proof.
  intros Hi Ha Hk Hsub. rewrite d_get_set. case_decide as Heq.
  - intros [= <-]. destruct (accepts_route_spec _ _ _ Hi Ha) as (Hid & _ & _ & He). subst k.
    destruct (He _ Hk) as [Hrid Hcp]. split; [congruence|by left].
  - intros Hk'%Hsub. assert (r' = r) as -> by congruence. apply route_evolves_refl.
Qed.

(** A checkpoint moves only by an advance that names the checkpoint it
    replaces; refreshing, replacing or deleting routes, of this Thread or any
    other, never moves or loses the checkpoint of a route that survives, and
    never changes its ID. *)
Theorem checkpoint_moves_only_by_advance op s k r r' :
  projection_inv s → d_get (pj_routes s) k = Some r →
  d_get (pj_routes (run_projection_op op s).2) k = Some r' → route_evolves op r r'.
Proof.
  intros Hi Hk. enough (wp (run_projection_op op) (λ _ s',
    d_get (pj_routes s') k = Some r' → route_evolves op r r') s) as H by exact H.
  assert (∀ x, d_get (pj_routes s) k = Some x → route_evolves op r x) as Hsame.
  { intros x Hx. assert (x = r) as -> by congruence. apply route_evolves_refl. }
  destruct op; cbn [run_projection_op]; apply wp_bind.
  - eapply wp_mono; [apply put_projection_route_spec|]. intros [stored|?] ?; [|by intros ->; auto].
    intros (Ha & ->). apply wp_ret. by apply (accepted_route_evolves _ s route stored).
  - eapply wp_mono; [apply replace_thread_projection_routes_spec|].
    intros [stored|?] ?; [|by intros ->; auto]. intros (Ha & ->). apply wp_ret.
    eapply (accepted_route_evolves _ s route stored); [done|done|done|].
    intros k' x. rewrite d_get_pop_all. by case_decide.
  - eapply wp_mono; [apply advance_projection_checkpoint_spec|].
    intros [adv|?] ?; [|by intros ->; auto].
    intros (key & r0 & Hf & He & -> & _ & ->). apply wp_ret. cbn [pj_routes set_routes].
    apply find_route_spec in Hf as [Hin Hid]. apply (d_elem_get _ _ _ (pi_routes_distinct _ Hi)) in Hin.
    rewrite d_get_set. case_decide; [|by auto]. intros [= <-]. simplify_eq.
    split; [done|]. right. eauto.
  - unfold delete_projection_routes. wp_run. rewrite d_get_pop_all. case_decide; [done|auto].
  - eapply wp_mono; [apply put_turn_reply_correlation_spec|]. intros [stored|?] ?; [|by intros ->; auto].
    intros (_ & H). apply wp_ret. destruct (d_get (pj_turn_correlations s) _); destruct_and!; subst; auto.
  - unfold delete_turn_reply_correlation. wp_run. auto.
  - eapply wp_mono; [apply delete_turn_reply_correlations_spec|]. intros [n|?] ?; [|by intros ->; auto].
    intros (? & _ & -> & _). apply wp_ret. auto.
Qed.

(** A replacement leaves its Thread exactly one route, to the Conversation
    it names, and does not touch the routes of other Threads. *)
Theorem replacement_leaves_one_route route s stored :
  projection_inv s → (replace_thread_projection_routes route s).1 = Ok stored →
  let s' := (replace_thread_projection_routes route s).2 in
  ∀ k, d_get (pj_routes s') k =
    if decide (k = route_key route) then Some stored
    else if decide (k.1 = tr_thread_ref route) then None else d_get (pj_routes s) k.
Proof.
  intros Hi Hok s' k. pose proof (replace_thread_projection_routes_spec route s) as Hs.
  unfold wp in Hs. rewrite Hok in Hs. destruct Hs as (_ & Hs'). unfold s'. rewrite Hs'. cbn.
  rewrite d_get_set, d_get_pop_all. unfold routes_of_thread.
  destruct (decide (k = route_key route)) as [->|Hne]; [by rewrite decide_True|].
  rewrite decide_False by done.
  destruct (decide (k.1 = tr_thread_ref route)) as [Ht|Ht].
  - destruct (d_get (pj_routes s) k) eqn:Hk; [|by case_decide].
    rewrite decide_True; [done|]. apply list_elem_of_filter. split; [done|]. apply d_get_keys. eauto.
  - rewrite decide_False; [done|]. rewrite list_elem_of_filter. tauto.
Qed.

(** The reply destination of a Turn is decided by the first correlation
    stored for it: a second put returns that one unchanged, or conflicts. *)
Theorem turn_reply_destination_is_decided_once c s current :
  d_get (pj_turn_correlations s) (turn_key c) = Some current →
  (put_turn_reply_correlation c s).2 = s ∧
  ∀ stored, (put_turn_reply_correlation c s).1 = Ok stored →
    stored = current ∧ tc_conversation_ref current = tc_conversation_ref c ∧
    tc_reply_to_message_id current = tc_reply_to_message_id c.
Proof.
  intros Hc. pose proof (put_turn_reply_correlation_spec c s) as Hs. unfold wp in Hs.
  rewrite Hc in Hs. destruct (put_turn_reply_correlation c s) as [[stored|e] s']; cbn in *.
  - destruct Hs as (_ & -> & -> & (_ & _ & _ & H1 & H2)). split; [done|]. by intros ? [= <-].
  - by split.
Qed.
