(* ===== verification/Submissions.v ===== *)
(** Delivery submissions of [gateway/persistence/memory.py]: a reservation per
    submission ID with an immutable root and destination snapshots, and a
    compare-and-set update of each destination's outcome. *)

From S2P Require Export StateContracts.
#[local] Open Scope Z_scope.
#[local] Open Scope stdpp_scope.

(** [gateway/persistence/memory.py:422-434] InMemoryDeliverySubmissionRepository *)
Record SubmissionRepository := {
  sb_max_records : Z;
  sb_records : dict pystr DeliverySubmissionRecord;
}.

(** [gateway/persistence/memory.py:425-430] InMemoryDeliverySubmissionRepository.__init__ *)
Definition new_submission_repository (max_records : Z) : res SubmissionRepository :=
  raise_if (max_records < 1) ValueError ;;
  Ok {| sb_max_records := max_records; sb_records := [] |}.

Definition set_submissions records (s : SubmissionRepository) : SubmissionRepository :=
  {| sb_max_records := sb_max_records s; sb_records := records |}.

(** [a == b] on dictionaries. *)
Definition dict_equal {K V} `{EqDecision K, EqDecision V} (a b : dict K V) : Prop :=
  length a = length b ∧ Forall (λ kv, d_get b kv.1 = Some kv.2) a.

(** [{destination.delivery_id: destination.snapshot ...}]. *)
Definition snapshots (record : DeliverySubmissionRecord) : dict pystr DeliveryRouteSnapshot :=
  d_of_list dd_delivery_id dd_snapshot (sr_destinations record).

(** [gateway/persistence/submission_identity.py:7-31] ensure_same_delivery_submission_reservation *)
Definition ensure_same_delivery_submission_reservation
    (existing replacement : DeliverySubmissionRecord) : res unit :=
  raise_if (sr_submission_id existing ≠ sr_submission_id replacement
            ∨ sr_delivery_id existing ≠ sr_delivery_id replacement
            ∨ sr_origin existing ≠ sr_origin replacement
            ∨ sr_principal_id existing ≠ sr_principal_id replacement
            ∨ sr_target_fingerprint existing ≠ sr_target_fingerprint replacement
            ∨ sr_payload_fingerprint existing ≠ sr_payload_fingerprint replacement)
    DeliverySubmissionConflict ;;
  raise_if (¬ dict_equal (snapshots existing) (snapshots replacement)) DeliverySubmissionConflict.

(** [gateway/persistence/memory.py:494-506] the loop of _replace_destination:
    whether the destination was found, and the new destinations. *)
Fixpoint replace_destinations (delivery_id : pystr) (expected_state : DeliverySubmissionState)
    (replacement : DestinationDeliveryRecord) (l : list DestinationDeliveryRecord)
    : res (bool * list DestinationDeliveryRecord) :=
  match l with
  | [] => Ok (false, [])
  | current :: l' =>
      if decide (dd_delivery_id current ≠ delivery_id) then
        '(found, rest) ← replace_destinations delivery_id expected_state replacement l' ;
        Ok (found, current :: rest)
      else if decide (dd_state current ≠ expected_state) then
        raise_if (current ≠ replacement) DeliverySubmissionConflict ;;
        '(_, rest) ← replace_destinations delivery_id expected_state replacement l' ;
        Ok (true, current :: rest)
      else
        raise_if (dd_snapshot current ≠ dd_snapshot replacement) DeliverySubmissionConflict ;;
        '(_, rest) ← replace_destinations delivery_id expected_state replacement l' ;
        Ok (true, replacement :: rest)
  end.

(** [gateway/persistence/memory.py:483-513] _replace_destination *)
Definition _replace_destination (record : DeliverySubmissionRecord)
    (destination_delivery_id : pystr) (expected_state : DeliverySubmissionState)
    (replacement : DestinationDeliveryRecord) : res DeliverySubmissionRecord :=
  raise_if (dd_delivery_id replacement ≠ destination_delivery_id) DeliverySubmissionConflict ;;
  '(found, destinations) ← replace_destinations destination_delivery_id expected_state replacement
    (sr_destinations record) ;
  raise_if (found = false) KeyError ;;
  updated_at ← dt_max (sr_updated_at record) (dd_updated_at replacement) ;
  Ok {|
    sr_submission_id := sr_submission_id record;
    sr_delivery_id := sr_delivery_id record;
    sr_origin := sr_origin record;
    sr_principal_id := sr_principal_id record;
    sr_target_fingerprint := sr_target_fingerprint record;
    sr_payload_fingerprint := sr_payload_fingerprint record;
    sr_destinations := destinations;
    sr_created_at := sr_created_at record;
    sr_updated_at := updated_at;
  |}.

(** [gateway/persistence/memory.py:436-441] InMemoryDeliverySubmissionRepository.get_delivery_submission *)
Definition get_delivery_submission (submission_id : pystr)
    : M SubmissionRepository (option DeliverySubmissionRecord) :=
  gets (λ s, d_get (sb_records s) submission_id).

(** [gateway/persistence/memory.py:443-458] InMemoryDeliverySubmissionRepository.reserve_delivery_submission *)
Definition reserve_delivery_submission (record : DeliverySubmissionRecord)
    : M SubmissionRepository DeliveryReservation :=
  lift (validate_delivery_submission_record record) ;;
  s ← get_st ;
  match d_get (sb_records s) (sr_submission_id record) with
  | Some existing =>
      lift (ensure_same_delivery_submission_reservation existing record) ;;
      mret {| rv_acquired := false; rv_record := existing |}
  | None =>
      raise_if (sb_max_records s ≤ len (sb_records s)) DeliverySubmissionCapacityError ;;
      modify (set_submissions (d_set (sb_records s) (sr_submission_id record) record)) ;;
      mret {| rv_acquired := true; rv_record := record |}
  end.

(** [gateway/persistence/memory.py:460-480] InMemoryDeliverySubmissionRepository.update_delivery_destination *)
Definition update_delivery_destination (submission_id destination_delivery_id : pystr)
    (expected_state : DeliverySubmissionState) (destination : DestinationDeliveryRecord)
    : M SubmissionRepository DeliverySubmissionRecord :=
  s ← get_st ;
  match d_get (sb_records s) submission_id with
  | None => mraise KeyError
  | Some existing =>
      updated ← lift (_replace_destination existing destination_delivery_id expected_state destination) ;
      lift (validate_delivery_submission_record updated) ;;
      modify (set_submissions (d_set (sb_records s) submission_id updated)) ;;
      mret updated
  end.

(** * Correctness *)

(** The part of a submission no call may change. *)
Definition submission_root (r : DeliverySubmissionRecord) :=
  (sr_submission_id r, sr_delivery_id r, sr_origin r, sr_principal_id r,
   sr_target_fingerprint r, sr_payload_fingerprint r, sr_created_at r,
   (λ d, (dd_delivery_id d, dd_snapshot d)) <$> sr_destinations r).

Definition submission_ok (k : pystr) (r : DeliverySubmissionRecord) : Prop :=
  k = sr_submission_id r ∧ validate_delivery_submission_record r = Ok ().

Record submission_inv (s : SubmissionRepository) : Prop := {
  si_distinct : well_formed (sb_records s);
  si_records : d_all submission_ok (sb_records s);
  si_bounded : len (sb_records s) ≤ sb_max_records s;
}.

Inductive submission_op : Type :=
| Reserve (record : DeliverySubmissionRecord)
| UpdateDestination (submission_id destination_delivery_id : pystr)
    (expected : DeliverySubmissionState) (destination : DestinationDeliveryRecord).

Definition run_submission_op (op : submission_op) : M SubmissionRepository unit :=
  match op with
  | Reserve r => reserve_delivery_submission r ;; mret ()
  | UpdateDestination i d e r => update_delivery_destination i d e r ;; mret ()
  end.

(** How one destination may change in an update. *)
Definition destination_updated (id : pystr) (expected : DeliverySubmissionState)
    (replacement d d' : DestinationDeliveryRecord) : Prop :=
  d' = d ∧ (dd_delivery_id d = id → dd_state d ≠ expected ∧ d = replacement) ∨
  dd_delivery_id d = id ∧ dd_state d = expected ∧ dd_snapshot d = dd_snapshot replacement ∧
  d' = replacement.

Lemma replace_destinations_spec id expected r l found l' :
  replace_destinations id expected r l = Ok (found, l') →
  Forall2 (destination_updated id expected r) l l' ∧
  (found = true ↔ id ∈ dd_delivery_id <$> l).
Proof.
  revert found l'. induction l as [|d l IH]; intros found l'; cbn [replace_destinations].
  - intros [= <- <-]. split; [constructor|]. set_solver.
  - rewrite fmap_cons, elem_of_cons. case_decide as Hid.
    + rewrite res_bind_ok. intros ([f rest] & [Hrest Hf]%IH & [= <- <-]).
      split; [constructor; [by left|done]|]. rewrite Hf. naive_solver.
    + case_decide as Hst; rewrite res_bind_ok; intros ([] & Hc%raise_if_ok%dec_stable & H);
        apply res_bind_ok in H as ([f rest] & [Hrest Hf]%IH & [= <- <-]).
      * split; [constructor; [by left|done]|]. naive_solver.
      * split; [constructor; [by right|done]|]. naive_solver.
Qed.

Lemma replace_destination_spec record id expected r record' :
  _replace_destination record id expected r = Ok record' →
  submission_root record' = submission_root record ∧ dd_delivery_id r = id ∧
  id ∈ dd_delivery_id <$> sr_destinations record ∧
  Forall2 (destination_updated id expected r) (sr_destinations record) (sr_destinations record').
Proof.
  unfold _replace_destination. intros H. inv_ok.
  match goal with p : bool * _ |- _ => destruct p as [found l'] end. inv_ok. subst record'. cbn.
  match goal with H : replace_destinations _ _ _ _ = _ |- _ =>
    apply replace_destinations_spec in H as [Hl Hf] end.
  match goal with H : ¬ (dd_delivery_id r ≠ id) |- _ => apply dec_stable in H end.
  split_and!; try done; [|apply Hf; by destruct found].
  unfold submission_root; cbn. f_equal. clear -Hl H.
  induction Hl as [|d d' l l' Hd Hl IH]; [done|]. rewrite !fmap_cons, IH. f_equal.
  destruct Hd as [[-> _]|(Hid & _ & Hs & ->)]; [done|]. congruence.
Qed.

Lemma reserve_delivery_submission_spec record s :
  wp (reserve_delivery_submission record) (λ r s',
    match r with
    | Err _ => s' = s
    | Ok rv => validate_delivery_submission_record record = Ok () ∧
        match d_get (sb_records s) (sr_submission_id record) with
        | Some existing => s' = s ∧ rv = {| rv_acquired := false; rv_record := existing |} ∧
            ensure_same_delivery_submission_reservation existing record = Ok ()
        | None => rv = {| rv_acquired := true; rv_record := record |} ∧
            len (sb_records s) < sb_max_records s ∧
            s' = set_submissions (d_set (sb_records s) (sr_submission_id record) record) s
        end
    end) s.
Proof.
  unfold reserve_delivery_submission. wp_run; try done; inv_ok; rewrite ?Heqo; split_and!; try done.
  lia.
Qed.

Lemma update_delivery_destination_spec i id expected destination s :
  wp (update_delivery_destination i id expected destination) (λ r s',
    match r with
    | Err _ => s' = s
    | Ok updated => ∃ existing, d_get (sb_records s) i = Some existing ∧
        _replace_destination existing id expected destination = Ok updated ∧
        validate_delivery_submission_record updated = Ok () ∧
        s' = set_submissions (d_set (sb_records s) i updated) s
    end) s.
Proof.
  unfold update_delivery_destination. wp_run; try done. inv_ok. eexists. by split_and!.
Qed.

Lemma run_submission_op_keeps_inv op s : submission_inv s → submission_inv (run_submission_op op s).2.
Proof.
  intros Hi. enough (wp (run_submission_op op) (λ _ s', submission_inv s') s) as H by exact H.
  destruct op; cbn [run_submission_op]; apply wp_bind.
  - eapply wp_mono; [apply reserve_delivery_submission_spec|]. intros [rv|?] ?; [|by intros ->].
    intros (Hv & H). apply wp_ret. destruct (d_get _ _) eqn:Hg; destruct H as (? & ? & ?); subst; [done|].
    destruct Hi as [H1 H2 H3]. split; cbn; [eauto with gateway|by apply d_all_set|].
    unfold len in *. rewrite length_d_set_absent by done. lia.
  - eapply wp_mono; [apply update_delivery_destination_spec|]. intros [u|?] ?; [|by intros ->].
    intros (e & Hg & Hr & Hv & ->). apply wp_ret. destruct Hi as [H1 H2 H3].
    pose proof (d_all_get _ _ _ _ H2 Hg) as [-> _].
    apply replace_destination_spec in Hr as [Hroot _].
    assert (sr_submission_id u = sr_submission_id e) as Hid by (unfold submission_root in Hroot; congruence).
    split; cbn; [eauto with gateway|by apply d_all_set|].
    unfold len in *. by rewrite (length_d_set_present _ _ _ _ Hg).
Qed.

Lemma run_submission_op_err op s e :
  (run_submission_op op s).1 = Err e → (run_submission_op op s).2 = s.
Proof.
  enough (wp (run_submission_op op) (λ r s', r = Err e → s' = s) s) as H by exact H.
  destruct op; cbn [run_submission_op]; apply wp_bind.
  - eapply wp_mono; [apply reserve_delivery_submission_spec|]. by intros [] ?.
  - eapply wp_mono; [apply update_delivery_destination_spec|]. by intros [] ?.
Qed.

(** A stored submission stays, with its root and snapshots. *)
Lemma submission_root_kept op s i r :
  d_get (sb_records s) i = Some r →
  ∃ r', d_get (sb_records (run_submission_op op s).2) i = Some r' ∧
    submission_root r' = submission_root r.
Proof.
  intros Hr. enough (wp (run_submission_op op) (λ _ s', ∃ r', d_get (sb_records s') i = Some r' ∧
    submission_root r' = submission_root r) s) as H by exact H.
  destruct op; cbn [run_submission_op]; apply wp_bind.
  - eapply wp_mono; [apply reserve_delivery_submission_spec|]. intros [rv|?] ?; [|intros ->; by exists r].
    intros (Hv & H). apply wp_ret. destruct (d_get _ (sr_submission_id record)) eqn:Hg;
      destruct H as (? & ? & ?); subst; [by exists r|]. exists r. cbn.
    rewrite d_get_set_ne; [done|]. congruence.
  - eapply wp_mono; [apply update_delivery_destination_spec|]. intros [u|?] ?; [|intros ->; by exists r].
    intros (e & Hg & Hu & Hv & ->). apply wp_ret. cbn. rewrite d_get_set. case_decide; [|by exists r].
    exists u. split; [done|]. apply replace_destination_spec in Hu as [-> _]. congruence.
Qed.

Definition submission_step (s s' : SubmissionRepository) : Prop :=
  ∃ op, s' = (run_submission_op op s).2.

Lemma submission_root_kept_steps s s' i r :
  rtc submission_step s s' → d_get (sb_records s) i = Some r →
  ∃ r', d_get (sb_records s') i = Some r' ∧ submission_root r' = submission_root r.
Proof.
  intros H. revert r. induction H as [|s1 s2 s3 [op ->] _ IH]; intros r Hr; [eauto|].
  apply (submission_root_kept op) in Hr as (r1 & Hg & Hr1). rewrite <- Hr1. by apply IH.
Qed.

(** Every call keeps the records valid under their own submission ID and
    their number within the configured bound. *)
Theorem submission_repository_invariant op s :
  submission_inv s → submission_inv (run_submission_op op s).2.
Proof. apply run_submission_op_keeps_inv. Qed.

(** One submission ID is acquired at most once, and its root and route
    snapshots are fixed then: after an acquisition no sequence of calls makes
    a second reservation of the ID acquire it, and one that is accepted is
    given back the root that was stored. *)
Theorem submission_is_acquired_once record record' s s' rv :
  (reserve_delivery_submission record s).1 = Ok rv → rv_acquired rv = true →
  rtc submission_step (reserve_delivery_submission record s).2 s' →
  sr_submission_id record' = sr_submission_id record →
  (reserve_delivery_submission record' s').2 = s' ∧
  ∀ rv', (reserve_delivery_submission record' s').1 = Ok rv' →
    rv_acquired rv' = false ∧ submission_root (rv_record rv') = submission_root record.
Proof.
  intros Hok Ha Hr Hid. pose proof (reserve_delivery_submission_spec record s) as Hs.
  unfold wp in Hs. rewrite Hok in Hs. destruct Hs as (_ & Hs).
  assert (d_get (sb_records (reserve_delivery_submission record s).2) (sr_submission_id record)
    = Some record) as Hg.
  { destruct (d_get (sb_records s) _); destruct Hs as (? & ? & Hs); subst; [done|].
    rewrite Hs. cbn. apply d_get_set_eq. }
  assert (∃ r, d_get (sb_records s') (sr_submission_id record) = Some r ∧
    submission_root r = submission_root record) as (r & Hr' & Hroot).
  { by eapply submission_root_kept_steps. }
  pose proof (reserve_delivery_submission_spec record' s') as Hs'. unfold wp in Hs'.
  rewrite Hid, Hr' in Hs'. destruct (reserve_delivery_submission record' s') as [[rv'|e] s2]; cbn in *.
  - destruct Hs' as (_ & -> & -> & _). split; [done|]. by intros ? [= <-].
  - by split.
Qed.

(** A destination changes only by a compare-and-set on its state: an
    accepted update replaces exactly the destinations of that delivery ID that
    are in the expected state, keeps their snapshot, and leaves every other
    destination of the submission as it was. *)
Theorem destination_update_is_compare_and_set i id expected destination s updated :
  (update_delivery_destination i id expected destination s).1 = Ok updated →
  ∃ existing, d_get (sb_records s) i = Some existing ∧
    d_get (sb_records (update_delivery_destination i id expected destination s).2) i = Some updated ∧
    id ∈ dd_delivery_id <$> sr_destinations existing ∧
    Forall2 (destination_updated id expected destination)
      (sr_destinations existing) (sr_destinations updated).
Proof.
  intros Hok. pose proof (update_delivery_destination_spec i id expected destination s) as Hs.
  unfold wp in Hs. rewrite Hok in Hs. destruct Hs as (e & Hg & Hr & _ & Hs). exists e.
  apply replace_destination_spec in Hr as (_ & _ & Hin & Hall). rewrite Hs. cbn.
  by rewrite d_get_set_eq.
Qed.
