(* ===== verification/Identities.v ===== *)
(** The derived identities of the gateway: each is a prefix of its own and the
    SHA-256 of the compact JSON text of the values it stands for.  All of them
    are gathered in one type, so that what makes them safe is stated once: two
    derivations give one ID only for one identity, a SHA-256 collision apart. *)

From S2P Require Export StateContracts.
#[local] Open Scope Z_scope.
#[local] Open Scope stdpp_scope.

(** [gateway/projection/request_correlation.py:143-158] derive_turn_reply_correlation_id *)
Definition derive_turn_reply_correlation_id (turn_ref : TurnRef) : res pystr :=
  let thread_ref := tn_thread_ref turn_ref in
  sha256_of_json (py "imagent:turn-reply:sha256:") (JArr [
    JStr (pr_application_instance_id (th_project_ref thread_ref));
    JStr (pr_project_id (th_project_ref thread_ref));
    JStr (th_thread_id thread_ref);
    JStr (tn_turn_id turn_ref)]).

(** [gateway/projection/request_correlation.py:161-176] derive_request_correlation_id *)
Definition derive_request_correlation_id (request_ref : RequestRef)
    (conversation_ref : ConversationRef) : res pystr :=
  sha256_of_json (py "imagent:request-route:sha256:") (JArr [
    JStr (ar_application_instance_id (rq_application_ref request_ref));
    JStr (rq_native_request_id request_ref);
    JStr (cv_channel_instance_id conversation_ref);
    JStr (cv_native_conversation_id conversation_ref)]).

(** [gateway/projection/request_correlation.py:179-194] derive_request_delivery_id *)
Definition derive_request_delivery_id (request_ref : RequestRef)
    (conversation_ref : ConversationRef) : res pystr :=
  sha256_of_json (py "imagent:request-delivery:sha256:") (JArr [
    JStr (ar_application_instance_id (rq_application_ref request_ref));
    JStr (rq_native_request_id request_ref);
    JStr (cv_channel_instance_id conversation_ref);
    JStr (cv_native_conversation_id conversation_ref)]).

(** [gateway/routing/projection_routes.py:69-87] derive_projection_route_id *)
Definition derive_projection_route_id (thread_ref : ThreadRef)
    (conversation_ref : ConversationRef) : res pystr :=
  sha256_of_json (py "imagent:projection:sha256:") (JArr [
    JStr (pr_application_instance_id (th_project_ref thread_ref));
    JStr (pr_project_id (th_project_ref thread_ref));
    JStr (th_thread_id thread_ref);
    JStr (cv_channel_instance_id conversation_ref);
    JStr (cv_native_conversation_id conversation_ref)]).

(** [gateway/projection/checkpoints.py:18-40] derive_projection_delivery_id *)
Definition derive_projection_delivery_id (conversation_ref : ConversationRef)
    (thread_ref : ThreadRef) (agent_item_id : pystr) (segment_index : Z) : res pystr :=
  sha256_of_json (py "imagent:delivery:sha256:") (JArr [
    JStr (cv_channel_instance_id conversation_ref);
    JStr (cv_native_conversation_id conversation_ref);
    JStr (pr_application_instance_id (th_project_ref thread_ref));
    JStr (pr_project_id (th_project_ref thread_ref));
    JStr (th_thread_id thread_ref);
    JStr agent_item_id;
    JInt segment_index]).

(** [gateway/projection/observation.py:114-134] derive_live_projection_delivery_id *)
Definition derive_live_projection_delivery_id (conversation_ref : ConversationRef)
    (thread_ref : ThreadRef) (event_id : pystr) : res pystr :=
  sha256_of_json (py "imagent:delivery:live:sha256:") (JArr [
    JStr (py "live_event");
    JStr (cv_channel_instance_id conversation_ref);
    JStr (cv_native_conversation_id conversation_ref);
    JStr (pr_application_instance_id (th_project_ref thread_ref));
    JStr (pr_project_id (th_project_ref thread_ref));
    JStr (th_thread_id thread_ref);
    JStr event_id]).

(** [gateway/input/dispatch.py:466-483] derive_client_message_id *)
Definition derive_client_message_id (conversation : ConversationRef)
    (channel_message_id : pystr) : res pystr :=
  require_identifier channel_message_id "channel_message_id" ;;
  sha256_of_json (py "imagent:client-message:sha256:") (JArr [
    JStr (cv_channel_instance_id conversation);
    JStr (cv_native_conversation_id conversation);
    JStr channel_message_id]).

(** [gateway/delivery/planning.py:172-192] derive_segment_delivery_id *)
Definition derive_segment_delivery_id (conversation_ref : ConversationRef)
    (source_delivery_id : pystr) (segment_index : Z) : res pystr :=
  raise_if (source_delivery_id = []) DeliveryPlanningError ;;
  raise_if (segment_index < 0) DeliveryPlanningError ;;
  sha256_of_json (py "imagent:delivery-segment:sha256:") (JArr [
    JStr (cv_channel_instance_id conversation_ref);
    JStr (cv_native_conversation_id conversation_ref);
    JStr source_delivery_id;
    JInt segment_index]).

(** [gateway/delivery/submissions.py:129-137] _sha256_identity: the identities
    it is given below are lists, which [sort_keys] leaves alone. *)
Definition _sha256_identity (label : string) (identity : json) : res pystr :=
  sha256_of_json (py "imagent:delivery-" ++ py label ++ py ":sha256:") identity.

(** [gateway/delivery/proactive.py:39-58] DeliveryTarget *)
Inductive DeliveryTarget : Type :=
| ConversationDeliveryTarget (conversation_ref : ConversationRef)
| ThreadRouteDeliveryTarget (thread_ref : ThreadRef) (route_id : option pystr).
#[export] Instance DeliveryTarget_eq_dec : EqDecision DeliveryTarget.
Proof. solve_decision. Defined.

(** [gateway/delivery/submissions.py:140-145] _thread_identity *)
Definition _thread_identity (thread_ref : ThreadRef) : json := JArr [
  JStr (pr_application_instance_id (th_project_ref thread_ref));
  JStr (pr_project_id (th_project_ref thread_ref));
  JStr (th_thread_id thread_ref)].

Definition json_opt_str (s : option pystr) : json :=
  match s with Some s => JStr s | None => JNull end.

(** [gateway/delivery/submissions.py:36-49] derive_delivery_target_fingerprint *)
Definition derive_delivery_target_fingerprint (target : DeliveryTarget) : res pystr :=
  let identity := match target with
    | ConversationDeliveryTarget conversation_ref => JArr [
        JStr (py "conversation");
        JStr (cv_channel_instance_id conversation_ref);
        JStr (cv_native_conversation_id conversation_ref)]
    | ThreadRouteDeliveryTarget thread_ref route_id => JArr [
        JStr (py "thread_routes");
        _thread_identity thread_ref;
        json_opt_str route_id]
    end in
  _sha256_identity "target" identity.

(** [gateway/delivery/submissions.py:62-75] derive_destination_delivery_id *)
Definition derive_destination_delivery_id (root_submission_id : pystr)
    (conversation_ref : ConversationRef) : res pystr :=
  require_identifier root_submission_id "submission_id" ;;
  _validate_conversation_ref conversation_ref ;;
  _sha256_identity "destination" (JArr [
    JStr root_submission_id;
    JStr (cv_channel_instance_id conversation_ref);
    JStr (cv_native_conversation_id conversation_ref)]).

(** [gateway/persistence/state_contracts.py:203-205] the values of DeliverySubmissionOrigin *)
Definition origin_value (origin : DeliverySubmissionOrigin) : pystr :=
  match origin with
  | EXTERNAL => py "external"
  | GATEWAY_INTERNAL => py "gateway_internal"
  end.

(** [gateway/delivery/submissions.py:78-93] derive_delivery_submission_id *)
Definition derive_delivery_submission_id (origin : DeliverySubmissionOrigin)
    (principal_id delivery_id : pystr) : res pystr :=
  require_identifier principal_id "principal_id" ;;
  require_identifier delivery_id "delivery_id" ;;
  _sha256_identity "submission" (JArr [JStr (origin_value origin); JStr delivery_id]).

(** [gateway/input/queue_runtime.py:45-46] _actor_fingerprint *)
Definition _actor_fingerprint (actor : pystr) : res pystr :=
  bytes ← utf8 actor ;
  Ok (sha256_hex (py "imagent:queued-actor:v1" ++ [0%N] ++ bytes)).

(** * Collision freedom *)

(** What an ID can stand for, one constructor per derivation. *)
Inductive identity : Type :=
| TurnReplyId (turn_ref : TurnRef)
| RequestRouteId (request_ref : RequestRef) (conversation_ref : ConversationRef)
| RequestDeliveryId (request_ref : RequestRef) (conversation_ref : ConversationRef)
| ProjectionRouteId (thread_ref : ThreadRef) (conversation_ref : ConversationRef)
| ProjectionDeliveryId (conversation_ref : ConversationRef) (thread_ref : ThreadRef)
    (agent_item_id : pystr) (segment_index : Z)
| LiveDeliveryId (conversation_ref : ConversationRef) (thread_ref : ThreadRef) (event_id : pystr)
| ClientMessageId (conversation : ConversationRef) (channel_message_id : pystr)
| SegmentDeliveryId (conversation_ref : ConversationRef) (source_delivery_id : pystr)
    (segment_index : Z)
| TargetFingerprint (target : DeliveryTarget)
| DestinationDeliveryId (root_submission_id : pystr) (conversation_ref : ConversationRef)
| SubmissionId (origin : DeliverySubmissionOrigin) (delivery_id : pystr).

(** The prefix and the document each derivation hashes. *)
Definition identity_prefix (i : identity) : string :=
  match i with
  | TurnReplyId _ => "imagent:turn-reply:sha256:"
  | RequestRouteId _ _ => "imagent:request-route:sha256:"
  | RequestDeliveryId _ _ => "imagent:request-delivery:sha256:"
  | ProjectionRouteId _ _ => "imagent:projection:sha256:"
  | ProjectionDeliveryId _ _ _ _ => "imagent:delivery:sha256:"
  | LiveDeliveryId _ _ _ => "imagent:delivery:live:sha256:"
  | ClientMessageId _ _ => "imagent:client-message:sha256:"
  | SegmentDeliveryId _ _ _ => "imagent:delivery-segment:sha256:"
  | TargetFingerprint _ => "imagent:delivery-target:sha256:"
  | DestinationDeliveryId _ _ => "imagent:delivery-destination:sha256:"
  | SubmissionId _ _ => "imagent:delivery-submission:sha256:"
  end.

Definition thread_fields (t : ThreadRef) : list json := [
  JStr (pr_application_instance_id (th_project_ref t)); JStr (pr_project_id (th_project_ref t));
  JStr (th_thread_id t)].
Definition conversation_fields (c : ConversationRef) : list json := [
  JStr (cv_channel_instance_id c); JStr (cv_native_conversation_id c)].
Definition request_fields (r : RequestRef) : list json := [
  JStr (ar_application_instance_id (rq_application_ref r)); JStr (rq_native_request_id r)].

Definition identity_document (i : identity) : json :=
  JArr match i with
  | TurnReplyId t => thread_fields (tn_thread_ref t) ++ [JStr (tn_turn_id t)]
  | RequestRouteId r c | RequestDeliveryId r c => request_fields r ++ conversation_fields c
  | ProjectionRouteId t c => thread_fields t ++ conversation_fields c
  | ProjectionDeliveryId c t item n =>
      conversation_fields c ++ thread_fields t ++ [JStr item; JInt n]
  | LiveDeliveryId c t e =>
      JStr (py "live_event") :: conversation_fields c ++ thread_fields t ++ [JStr e]
  | ClientMessageId c m => conversation_fields c ++ [JStr m]
  | SegmentDeliveryId c s n => conversation_fields c ++ [JStr s; JInt n]
  | TargetFingerprint (ConversationDeliveryTarget c) =>
      JStr (py "conversation") :: conversation_fields c
  | TargetFingerprint (ThreadRouteDeliveryTarget t r) =>
      [JStr (py "thread_routes"); JArr (thread_fields t); json_opt_str r]
  | DestinationDeliveryId s c => JStr s :: conversation_fields c
  | SubmissionId o d => [JStr (origin_value o); JStr d]
  end.

(** The derivation of each kind, as the gateway calls it; the principal that
    admits a submission is validated but is no part of its identity. *)
Definition derive (principal_id : pystr) (i : identity) : res pystr :=
  match i with
  | TurnReplyId t => derive_turn_reply_correlation_id t
  | RequestRouteId r c => derive_request_correlation_id r c
  | RequestDeliveryId r c => derive_request_delivery_id r c
  | ProjectionRouteId t c => derive_projection_route_id t c
  | ProjectionDeliveryId c t item n => derive_projection_delivery_id c t item n
  | LiveDeliveryId c t e => derive_live_projection_delivery_id c t e
  | ClientMessageId c m => derive_client_message_id c m
  | SegmentDeliveryId c s n => derive_segment_delivery_id c s n
  | TargetFingerprint target => derive_delivery_target_fingerprint target
  | DestinationDeliveryId s c => derive_destination_delivery_id s c
  | SubmissionId o d => derive_delivery_submission_id o principal_id d
  end.

(** The bytes an identity is the SHA-256 of. *)
Definition preimage (i : identity) : res (list N) := utf8 (dumps (identity_document i)).

(** Two different byte strings, of these two identities, with one digest. *)
Definition sha256_collision (i j : identity) : Prop :=
  ∃ a b, preimage i = Ok a ∧ preimage j = Ok b ∧ a ≠ b ∧ sha256_hex a = sha256_hex b.

Lemma _sha256_identity_ok l d id :
  _sha256_identity l d = Ok id →
  ∃ b, utf8 (dumps d) = Ok b ∧ id = py ("imagent:delivery-" +:+ l +:+ ":sha256:") ++ sha256_hex b.
Proof.
  intros (b & ? & ->)%sha256_of_json_ok. exists b. by rewrite !py_app.
Qed.

(** A derivation that succeeds hashes the document of its identity. *)
Lemma derive_ok principal_id i id :
  derive principal_id i = Ok id →
  ∃ b, preimage i = Ok b ∧ id = py (identity_prefix i) ++ sha256_hex b.
Proof.
  destruct i; cbn [derive]; intros H;
    unfold derive_client_message_id, derive_segment_delivery_id, derive_delivery_target_fingerprint,
      derive_destination_delivery_id, derive_delivery_submission_id in H; inv_ok;
    lazymatch goal with
    | H : _sha256_identity _ _ = _ |- _ => apply _sha256_identity_ok in H as (b & Hb & ->)
    | H : _ = Ok _ |- _ => apply sha256_of_json_ok in H as (b & Hb & ->)
    end; exists b; (split; [|reflexivity]); try exact Hb.
  destruct target; exact Hb.
Qed.

Lemma thread_fields_inj t t' l l' :
  thread_fields t ++ l = thread_fields t' ++ l' → t = t' ∧ l = l'.
Proof. destruct t as [[] ?], t' as [[] ?]. by intros [= -> -> -> ->]. Qed.

Lemma conversation_fields_inj c c' l l' :
  conversation_fields c ++ l = conversation_fields c' ++ l' → c = c' ∧ l = l'.
Proof. destruct c, c'. by intros [= -> -> ->]. Qed.

Lemma request_fields_inj r r' l l' :
  request_fields r ++ l = request_fields r' ++ l' → r = r' ∧ l = l'.
Proof. destruct r as [[] ?], r' as [[] ?]. by intros [= -> -> ->]. Qed.

Lemma json_opt_str_inj s s' : json_opt_str s = json_opt_str s' → s = s'.
Proof. destruct s, s'; simpl; congruence. Qed.

Lemma origin_value_inj o o' : origin_value o = origin_value o' → o = o'.
Proof. destruct o, o'; try done; intros H; apply py_inj in H; discriminate. Qed.

Lemma target_document_inj t t' :
  identity_document (TargetFingerprint t) = identity_document (TargetFingerprint t') → t = t'.
Proof.
  destruct t as [c|th r], t' as [c'|th' r']; unfold identity_document; intros H.
  - injection H. destruct c, c'; cbn; congruence.
  - discriminate H.
  - discriminate H.
  - injection H as H1 H2 H3 H4%json_opt_str_inj.
    destruct th as [[] ?], th' as [[] ?]; cbn in *; congruence.
Qed.

Lemma JArr_inj l l' : JArr l = JArr l' → l = l'.
Proof. by intros [=]. Qed.

Lemma cons_JStr_inj s s' l l' : JStr s :: l = JStr s' :: l' → s = s' ∧ l = l'.
Proof. by intros [= -> ->]. Qed.

(** Peel the groups of fields off an equation between documents. *)
Ltac peel_fields :=
  repeat match goal with
  | H : JArr _ = JArr _ |- _ => apply JArr_inj in H
  | H : JStr _ :: _ = JStr _ :: _ |- _ => apply cons_JStr_inj in H as [? H]
  | H : thread_fields _ ++ _ = thread_fields _ ++ _ |- _ => apply thread_fields_inj in H as [-> H]
  | H : conversation_fields _ ++ _ = conversation_fields _ ++ _ |- _ =>
      apply conversation_fields_inj in H as [-> H]
  | H : request_fields _ ++ _ = request_fields _ ++ _ |- _ => apply request_fields_inj in H as [-> H]
  | H : conversation_fields ?c = conversation_fields ?d |- _ =>
      apply (f_equal (.++ [])), conversation_fields_inj in H as [-> _]
  end.

Lemma identity_inj i j :
  identity_prefix i = identity_prefix j → identity_document i = identity_document j → i = j.
Proof.
  destruct i, j; intros Hp; try discriminate Hp; clear Hp;
    try (intros H%target_document_inj; congruence);
    unfold identity_document; intros Hd; peel_fields; try congruence.
  - destruct turn_ref, turn_ref0; simpl in Hd; apply thread_fields_inj in Hd; simpl in *; destruct Hd; congruence.
  - apply origin_value_inj in H. congruence.
Qed.

Lemma length_sha256_hex msg : length (sha256_hex msg) = 64%nat.
Proof.
  pose proof (sha256_hex_is_sha256_hex msg) as H. unfold is_sha256_hex in H.
  apply andb_prop in H as [H _]. apply bool_decide_eq_true in H. unfold len in H. lia.
Qed.

Lemma same_id_same_identity p p' i j id :
  derive p i = Ok id → derive p' j = Ok id → i = j ∨ sha256_collision i j.
Proof.
  intros (a & Ha & ->)%derive_ok (b & Hb & Heq)%derive_ok.
  apply app_inj_2 in Heq as [Hp Hh]; [|by rewrite !length_sha256_hex].
  apply py_inj in Hp. destruct (decide (a = b)) as [->|Hne]; [|right; by exists a, b].
  left. apply identity_inj; [done|]. apply dumps_inj. by apply (utf8_inj _ _ b).
Qed.

(** A derived ID is an identifier. *)
Lemma derived_identifier p i id : derive p i = Ok id → identifier id.
Proof.
  intros (b & _ & ->)%derive_ok. split; [by destruct i|].
  unfold len. rewrite length_app, length_sha256_hex. destruct i; vm_compute; done.
Qed.

(** C39. Two derivations that give the same ID derived it from the same
    identity, of the same kind and with the same components, or exhibit a
    SHA-256 collision between the two texts they hashed: no choice of the
    components lets one identity imitate another. *)
Theorem derived_ids_are_unambiguous p p' i j id :
  derive p i = Ok id → derive p' j = Ok id → i = j ∨ sha256_collision i j.
Proof. apply same_id_same_identity. Qed.

Definition example_thread : ThreadRef := {|
  th_project_ref := {| pr_application_instance_id := py "app"; pr_project_id := py "p" |};
  th_thread_id := py "t" |}.
Definition example_conversation : ConversationRef := {|
  cv_channel_instance_id := py "qq"; cv_native_conversation_id := py "c" |}.

Lemma derived_ids_are_unambiguous_witness :
  ∃ id, derive [] (ProjectionRouteId example_thread example_conversation) = Ok id ∧
    (ProjectionRouteId example_thread example_conversation
       = ProjectionRouteId example_thread example_conversation
     ∨ sha256_collision (ProjectionRouteId example_thread example_conversation)
         (ProjectionRouteId example_thread example_conversation)).
Proof.
  eexists. split; [vm_compute; reflexivity|].
  refine (derived_ids_are_unambiguous [] [] _ _ _ _ _); vm_compute; reflexivity.
Defined.
