(* ===== verification/QueuedInputs.v ===== *)
(** The merge of queued-input evidence of [gateway/persistence/queue_receipts.py]:
    what a receipt may do to the stored correlation, in any order of arrival. *)

From S2P Require Export StateContracts.
#[local] Open Scope Z_scope.
#[local] Open Scope stdpp_scope.

(** How the receipt of a correlation may change: it stays, it is the first, or
    it replaces queued evidence of the same queued item. *)
Inductive queued_step : option QueuedInputReceipt → option QueuedInputReceipt → Prop :=
| qs_same r : queued_step r r
| qs_first r : queued_step None (Some r)
| qs_advance p r :
    qr_state p = QUEUED → qr_queued_item_id p = qr_queued_item_id r →
    queued_step (Some p) (Some r).

(** Turn evidence that a receipt brings is validated and comes only with an
    admission. *)
Lemma check_queued_turn_ok origin receipt turn u :
  check_queued_turn origin receipt turn = Ok u →
  (∀ t, turn = Some t → validate_turn_reply_correlation t = Ok ()) ∧
  (qr_state receipt = ADMITTED ↔ is_Some turn).
Proof.
  unfold check_queued_turn. case_decide as Hs.
  - destruct turn as [t|]; [|done]. rewrite seq_ok. intros [Hv _].
    split; [by intros ? [= <-]|]. split; [by eexists|done].
  - rewrite raise_if_ok. intros Hn. split; [|split; [done|naive_solver]].
    intros t ->. exfalso. apply Hn. by eexists.
Qed.

Lemma merge_queued_receipt_spec stored origin receipt turn now merged :
  _merge_queued_receipt stored origin receipt turn now = Ok merged →
  qc_origin stored = origin ∧ validate_queued_input_correlation stored = Ok () ∧
  validate_queued_input_correlation merged = Ok () ∧
  (merged = stored ∨
   ∃ t, dt_max (qc_updated_at stored) now = Ok t ∧ merged = with_receipt stored receipt t) ∧
  queued_step (qc_receipt stored) (qc_receipt merged) ∧
  (∀ t, turn = Some t → validate_turn_reply_correlation t = Ok ()).
Proof.
  unfold _merge_queued_receipt. cbv zeta. rewrite !then_ok.
  intros (_ & _ & Hv & Ho%raise_if_ok%dec_stable & _ & Ht & H).
  apply check_queued_turn_ok in Ht as [Ht _].
  assert (∀ m, (updated_at ← dt_max (qc_updated_at stored) now ;
      validate_queued_input_correlation (with_receipt stored receipt updated_at) ;;
      Ok (with_receipt stored receipt updated_at)) = Ok m →
    validate_queued_input_correlation m = Ok () ∧
    ∃ t, dt_max (qc_updated_at stored) now = Ok t ∧ m = with_receipt stored receipt t) as Hm.
  { intros m (t & Hd & [Hvt <-%(inj Ok)]%then_ok)%res_bind_ok. eauto. }
  destruct (qc_receipt stored) as [p|] eqn:Hp.
  - apply then_ok in H as [Hid%raise_if_ok%dec_stable H].
    case_decide as Hq; [injection H as <-; rewrite Hp; split_and!; eauto using qs_same|].
    apply then_ok in H as [Hst%raise_if_ok H].
    case_decide as He; [injection H as <-; rewrite Hp; split_and!; eauto using qs_same|].
    apply Hm in H as (Hvm & t & Hd & ->). split_and!; eauto. cbn. constructor; [|done].
    destruct (decide (qr_state p = QUEUED)); [done|]. exfalso. by apply Hst.
  - apply Hm in H as (Hvm & t & Hd & ->). split_and!; eauto. cbn. constructor.
Qed.

Lemma queued_correlation_times c :
  validate_queued_input_correlation c = Ok () →
  ¬ tz_is_none (qc_created_at c) ∧ ¬ tz_is_none (qc_updated_at c).
Proof.
  unfold validate_queued_input_correlation. rewrite !seq_ok, for_each_ok. intros (_ & H & _).
  apply Forall_cons in H as [H1 H]. apply Forall_cons in H as [H2 _].
  by apply raise_if_ok in H1, H2.
Qed.

(** The receipt that has reached an end stays what it is. *)
Lemma queued_step_final p r :
  qr_state p ≠ QUEUED → queued_step (Some p) r → r = Some p.
Proof. intros Hp. inversion 1; subst; done. Qed.

(** Merging queued-input evidence never loses or rewrites anything: the
    origin and the creation time are kept, the update time does not go back,
    the result is valid, the receipt changes only from nothing to some or from
    queued to a receipt of the same item, and a receipt that says admitted or
    cancelled stays for good, late queued evidence included. *)
Theorem queued_evidence_is_monotone stored origin receipt turn now merged :
  _merge_queued_receipt stored origin receipt turn now = Ok merged →
  qc_origin merged = qc_origin stored ∧ qc_created_at merged = qc_created_at stored ∧
  dt_us (qc_updated_at stored) ≤ dt_us (qc_updated_at merged) ∧
  validate_queued_input_correlation merged = Ok () ∧
  queued_step (qc_receipt stored) (qc_receipt merged) ∧
  (∀ p, qc_receipt stored = Some p → qr_state p ≠ QUEUED → qc_receipt merged = Some p).
Proof.
  intros H. apply merge_queued_receipt_spec in H as (_ & Hs & Hv & Hm & Hq & _).
  assert (∀ p, qc_receipt stored = Some p → qr_state p ≠ QUEUED → qc_receipt merged = Some p) as Hf.
  { intros p Hp Hne. rewrite Hp in Hq. by apply (queued_step_final p). }
  assert (dt_us (qc_updated_at stored) ≤ dt_us (qc_updated_at merged)) as Hle.
  { destruct Hm as [->|(t & Hd & ->)]; [done|]. cbn. unfold dt_max, mbind, res_bind in Hd.
    destruct (qc_updated_at stored), now; simplify_eq/=; case_bool_decide; simplify_eq/=; lia. }
  by destruct Hm as [->|(t & Hd & ->)]; split_and!.
Qed.

(** Merging the same evidence twice is merging it once. *)
Theorem queued_merge_is_idempotent stored origin receipt turn now now' merged :
  _merge_queued_receipt stored origin receipt turn now = Ok merged →
  _merge_queued_receipt merged origin receipt turn now' = Ok merged.
Proof.
  intros H. pose proof (merge_queued_receipt_spec _ _ _ _ _ _ H) as (Ho & _ & Hv & Hm & _ & _).
  unfold _merge_queued_receipt in *. cbv zeta in *. rewrite !then_ok in *.
  destruct H as (H1 & H2 & H3 & H4 & H5 & H6 & H).
  assert (qc_origin merged = qc_origin stored) as Hom by by destruct Hm as [->|(? & _ & ->)].
  split_and!; try done; [by rewrite Hom|].
  destruct Hm as [->|(t & Hd & ->)].
  - destruct (qc_receipt stored) as [p|] eqn:Hp.
    + apply then_ok in H as [Hid H]. apply then_ok. split; [done|].
      case_decide; [done|]. apply then_ok in H as [Hst H]. apply then_ok. split; [done|].
      case_decide as He; [done|]. exfalso.
      apply res_bind_ok in H as (t & _ & [_ Heq%(inj Ok)]%then_ok).
      apply (f_equal qc_receipt) in Heq. cbn in Heq. congruence.
    + exfalso. apply res_bind_ok in H as (t & _ & [_ Heq%(inj Ok)]%then_ok).
      apply (f_equal qc_receipt) in Heq. cbn in Heq. congruence.
  - cbn [with_receipt qc_receipt]. apply then_ok. split; [by apply raise_if_ok; intros ?|].
    rewrite decide_False by tauto. apply then_ok. split; [apply raise_if_ok; tauto|].
    by rewrite decide_True.
Qed.
