(* ===== verification/DeliveryPlanning.v ===== *)
(** Delivery planning, [gateway/delivery/planning.py]: one logical message becomes
    the segments a channel can take, as its capability profile says, before
    anything is sent. *)

From S2P Require Export TextSplit PyRegex PyDict ChannelContract Identities.
From Stdlib Require Import Ascii String.
From stdpp Require Import list.
#[local] Open Scope Z_scope.
#[local] Open Scope stdpp_scope.

(** * Data *)

(** [interaction/channels/contract.py:81-84] DeliverySupportLevel *)
Inductive DeliverySupportLevel : Type := NATIVE_SUPPORT | FALLBACK | UNSUPPORTED.
#[export] Instance DeliverySupportLevel_eq_dec : EqDecision DeliverySupportLevel.
Proof. solve_decision. Defined.

(** [interaction/channels/contract.py:87-89] ReplyReferenceScope *)
Inductive ReplyReferenceScope : Type := FIRST_SEGMENT | EVERY_SEGMENT.
#[export] Instance ReplyReferenceScope_eq_dec : EqDecision ReplyReferenceScope.
Proof. solve_decision. Defined.

(** [interaction/media.py:104-107] AttachmentGrouping *)
Inductive AttachmentGrouping : Type := NO_GROUPING | SAME_MEDIA_FAMILY | MIXED.
#[export] Instance AttachmentGrouping_eq_dec : EqDecision AttachmentGrouping.
Proof. solve_decision. Defined.

(** [interaction/channels/contract.py:92-115] DeliveryProfile *)
Record DeliveryProfile := {
  dp_plain_text : DeliverySupportLevel;
  dp_markdown : DeliverySupportLevel;
  dp_attachments : DeliverySupportLevel;
  dp_attachment_sources : list AttachmentSourceKind;
  dp_attachment_media_types : list pystr;
  dp_attachment_grouping : AttachmentGrouping;
  dp_reply_references : DeliverySupportLevel;
  dp_reply_reference_scope : ReplyReferenceScope;
  dp_text_length_unit : TextLengthUnit;
  dp_max_text_length : option Z;
  dp_max_attachment_size : option Z;
  dp_max_attachment_count : option Z;
  dp_max_attachment_group_size : option Z;
}.

(** [interaction/messages.py:58-65] OutboundMessage *)
Record OutboundMessage := {
  om_delivery_id : pystr;
  om_conversation_ref : ConversationRef;
  om_content : list Content;
  om_created_at : datetime;
  om_reply_to : option pystr;
  om_metadata : Metadata;
}.

(** [gateway/delivery/planning.py:28-32] PlannedDeliverySegment *)
Record PlannedDeliverySegment := {
  ps_segment_index : Z;
  ps_source_content_indexes : list Z;
  ps_message : OutboundMessage;
}.

(** [gateway/delivery/planning.py:35-40] DeliveryPlan *)
Record DeliveryPlan := {
  pl_source_delivery_id : pystr;
  pl_conversation_ref : ConversationRef;
  pl_source_content_count : Z;
  pl_segments : list PlannedDeliverySegment;
}.

(** * Markdown to plain text *)

Definition blank : N → bool := one_of [32; 9]%N.
Definition many (p : N → bool) : regex := RRepeat p 0 None true.
Definition some (p : N → bool) : regex := RRepeat p 1 None true.
Definition lazily (p : N → bool) : regex := RRepeat p 0 None false.
Definition char (s : string) : N → bool := one_of (py s).

Definition heading_or_quote : regex := RSeqs [RLineStart; RRepeat blank 0 (Some 3%nat) true;
  RAlt (RSeq (RRepeat (char "#") 1 (Some 6%nat) true) (some blank))
       (RSeq (ROne (char ">")) (RRepeat blank 0 (Some 1%nat) true))].
Definition code_fence : regex := RSeqs [RLineStart; many blank;
  RGroup 1 (RAlt (RRepeat (char "`") 3 None true) (RRepeat (char "~") 3 None true));
  many any_char; RLineEnd].
Definition link (inside : regex) : regex := RSeqs [ROne (char "["); RGroup 1 inside;
  ROne (char "]"); ROne (char "("); RGroup 2 (some (none_of (py ")"))); ROne (char ")")].
Definition image_pattern : regex := RSeq (ROne (char "!")) (link (many (none_of (py "]")))).
Definition link_pattern : regex := link (some (none_of (py "]"))).
Definition code_span : regex := RSeqs [RGroup 1 (some (char "`")); RGroup 2 (lazily any_char); RBackref 1].
Definition strong : regex := RSeqs [
  RGroup 1 (RAlt (RRepeat (char "*") 2 (Some 2%nat) true) (RRepeat (char "_") 2 (Some 2%nat) true));
  RGroup 2 (lazily any_char); RBackref 1].
Definition emphasis (mark : string) : regex := RSeqs [RNotBehind (char mark); ROne (char mark);
  RGroup 1 (some (none_of (py mark ++ [10%N]))); ROne (char mark); RNotAhead (char mark)].
Definition rule : regex := RSeqs [RLineStart; many blank; RRepeat (char "-*_") 3 None true;
  many blank; RLineEnd].
Definition blank_lines : regex := RRepeat (is_char 10) 3 None true.

(** [gateway/delivery/planning.py:240-253] markdown_to_plain *)
Definition markdown_to_plain (text : pystr) : pystr :=
  let nothing (g : groups) : pystr := [] in
  let label (g : groups) := group 1 g ++ py " (" ++ group 2 g ++ py ")" in
  let value := re_sub heading_or_quote nothing text in
  let value := re_sub code_fence nothing value in
  let value := re_sub image_pattern label value in
  let value := re_sub link_pattern label value in
  let value := re_sub code_span (group 2) value in
  let value := re_sub strong (group 2) value in
  let value := re_sub (emphasis "*") (group 1) value in
  let value := re_sub (emphasis "_") (group 1) value in
  let value := re_sub rule nothing value in
  let value := re_sub blank_lines (λ _, [10; 10]%N) value in
  if decide (strip value = []) then strip text else strip value.

(** * Checks *)

(** [gateway/delivery/planning.py:256-272] _prepare_text *)
Definition _prepare_text (text : pystr) (format : TextFormat) (profile : DeliveryProfile)
    : res (pystr * TextFormat) :=
  raise_if (strip text = []) DeliveryPlanningError ;;
  match format with
  | PLAIN =>
      raise_if (dp_plain_text profile = UNSUPPORTED) DeliveryPlanningError ;;
      Ok (text, PLAIN)
  | MARKDOWN =>
      match dp_markdown profile with
      | NATIVE_SUPPORT => Ok (text, MARKDOWN)
      | FALLBACK =>
          raise_if (dp_plain_text profile = UNSUPPORTED) DeliveryPlanningError ;;
          Ok (markdown_to_plain text, PLAIN)
      | UNSUPPORTED => Err DeliveryPlanningError
      end
  end.

(** [s.startswith(p)] and [s.endswith(p)]. *)
Definition startswith (s p : pystr) : bool := bool_decide (take (length p) s = p).
Definition endswith (s p : pystr) : bool := startswith (rev s) (rev p).

(** [gateway/delivery/planning.py:424-431] _media_type_matches *)
Definition _media_type_matches (media_type pattern : pystr) : bool :=
  let normalized := strip (casefold pattern) in
  let candidate := strip (casefold media_type) in
  if decide (normalized = py "*/*") then true
  else if endswith normalized (py "/*") then startswith candidate (removelast normalized)
  else bool_decide (candidate = normalized).

(** [gateway/delivery/planning.py:275-304] _validate_attachment *)
Definition _validate_attachment (item : AttachmentContent) (profile : DeliveryProfile) : res unit :=
  raise_if (dp_attachments profile = UNSUPPORTED) DeliveryPlanningError ;;
  raise_if (source_kind (ac_source item) ∉ dp_attachment_sources profile) DeliveryPlanningError ;;
  raise_if (source_kind (ac_source item) = LOCAL_PATH ∧ ac_size_bytes item = None)
    DeliveryPlanningError ;;
  raise_if (is_Some (dp_max_attachment_size profile) ∧ ac_size_bytes item = None)
    DeliveryPlanningError ;;
  when_some (dp_max_attachment_size profile) (λ limit,
    when_some (ac_size_bytes item) (λ size, raise_if (limit < size) DeliveryPlanningError)) ;;
  raise_if (dp_attachment_media_types profile ≠ []
            ∧ existsb (_media_type_matches (ac_media_type item)) (dp_attachment_media_types profile)
              = false) DeliveryPlanningError.

(** [gateway/delivery/planning.py:307-319] _validate_profile *)
Definition _validate_profile (profile : DeliveryProfile) : res unit :=
  when_some (dp_max_text_length profile) (λ n, raise_if (n < 1) DeliveryPlanningError) ;;
  when_some (dp_max_attachment_count profile) (λ n, raise_if (n < 1) DeliveryPlanningError) ;;
  when_some (dp_max_attachment_size profile) (λ n, raise_if (n < 1) DeliveryPlanningError) ;;
  when_some (dp_max_attachment_group_size profile) (λ n, raise_if (n < 1) DeliveryPlanningError) ;;
  raise_if (all_distinct (dp_attachment_sources profile) = false) DeliveryPlanningError ;;
  raise_if (all_distinct (dp_attachment_media_types profile) = false) DeliveryPlanningError.

(** * Groups of attachments *)

(** An attachment with its position in the message. *)
Abbreviation indexed := (Z * AttachmentContent)%type.

(** [s.partition("/")[0]]. *)
Fixpoint before_slash (s : pystr) : pystr :=
  match s with
  | [] => []
  | c :: s' => if decide (c = 47%N) then [] else c :: before_slash s'
  end.

(** [gateway/delivery/planning.py:338-349] _attachment_groups: the size checks of
    one attachment, also at lines 362 to 370 *)
Definition check_group_size (size_limit : option Z) (item : AttachmentContent) : res unit :=
  when_some size_limit (λ limit,
    raise_if (ac_size_bytes item = None) DeliveryPlanningError ;;
    raise_if (limit < default 0 (ac_size_bytes item)) DeliveryPlanningError).

(** [gateway/delivery/planning.py:334-353] _attachment_groups: one group per attachment *)
Fixpoint single_groups (size_limit max_groups : option Z) (groups : list (list indexed))
    (attachments : list indexed) : res (list (list indexed)) :=
  match attachments with
  | [] => Ok groups
  | attachment :: rest =>
      check_group_size size_limit attachment.2 ;;
      raise_at_limit max_groups (len groups) ;;
      single_groups size_limit max_groups (groups ++ [[attachment]]) rest
  end.

(** The group under construction. *)
Record open_group := {
  og_items : list indexed;
  og_size : Z;
  og_family : option pystr;
}.
Definition no_group : open_group := {| og_items := []; og_size := 0; og_family := None |}.

(** [gateway/delivery/planning.py:355-395] _attachment_groups: the loop that fills
    groups, and the last group *)
Fixpoint fill_groups (profile : DeliveryProfile) (max_groups : option Z) (groups : list (list indexed))
    (current : open_group) (attachments : list indexed) : res (list (list indexed)) :=
  match attachments with
  | [] =>
      if decide (og_items current = []) then Ok groups
      else raise_at_limit max_groups (len groups) ;; Ok (groups ++ [og_items current])
  | attachment :: rest =>
      let item := attachment.2 in
      let size_limit := dp_max_attachment_group_size profile in
      check_group_size size_limit item ;;
      let item_size := default 0 (ac_size_bytes item) in
      let family := casefold (before_slash (ac_media_type item)) in
      let family_changed := bool_decide (dp_attachment_grouping profile = SAME_MEDIA_FAMILY
        ∧ is_Some (og_family current) ∧ Some family ≠ og_family current) in
      let count_full :=
        match dp_max_attachment_count profile with
        | Some limit => bool_decide (limit ≤ len (og_items current))
        | None => false
        end in
      let size_full :=
        match size_limit with
        | Some limit =>
            bool_decide (og_items current ≠ [] ∧ limit < og_size current + item_size)
        | None => false
        end in
      '(groups, current) ←
        (if bool_decide (og_items current ≠ []) && (family_changed || count_full || size_full) then
           raise_at_limit max_groups (len groups) ;;
           Ok (groups ++ [og_items current], no_group)
         else Ok (groups, current)) ;
      fill_groups profile max_groups groups {|
        og_items := og_items current ++ [attachment];
        og_size := og_size current + item_size;
        og_family := Some family |} rest
  end.

(** [gateway/delivery/planning.py:322-395] _attachment_groups *)
Definition _attachment_groups (attachments : list indexed) (profile : DeliveryProfile)
    (max_groups : option Z) : res (list (list indexed)) :=
  when_some max_groups (λ m, raise_if (m < 1) DeliveryPlanningError) ;;
  if decide (dp_attachment_grouping profile = NO_GROUPING)
  then single_groups (dp_max_attachment_group_size profile) max_groups [] attachments
  else fill_groups profile max_groups [] no_group attachments.

(** * The plan *)

Section plan.
Context (message : OutboundMessage) (profile : DeliveryProfile) (max_segments : option Z).

(** [gateway/delivery/planning.py:77-117] DeliveryPlanner.plan: append_segment *)
Definition append_segment (segments : list PlannedDeliverySegment) (content : list Content)
    (source_indexes : list Z) : res (list PlannedDeliverySegment) :=
  raise_at_limit max_segments (len segments) ;;
  let segment_index := len segments in
  segment_id ← derive_segment_delivery_id (om_conversation_ref message) (om_delivery_id message)
    segment_index ;
  Ok (segments ++ [{|
    ps_segment_index := segment_index;
    ps_source_content_indexes := source_indexes;
    ps_message := {|
      om_delivery_id := segment_id;
      om_conversation_ref := om_conversation_ref message;
      om_content := content;
      om_created_at := om_created_at message;
      om_reply_to :=
        if decide (segment_index = 0 ∨ dp_reply_reference_scope profile = EVERY_SEGMENT)
        then om_reply_to message else None;
      om_metadata :=
        d_set (d_set (om_metadata message) (py "source_delivery_id") (VStr (om_delivery_id message)))
          (py "segment_index") (VInt segment_index) |} |}]).

(** [for part in parts: append_segment(...)]. *)
Fixpoint append_segments (segments : list PlannedDeliverySegment) (parts : list (list Content * list Z))
    : res (list PlannedDeliverySegment) :=
  match parts with
  | [] => Ok segments
  | (content, indexes) :: parts' =>
      segments ← append_segment segments content indexes ;
      append_segments segments parts'
  end.

(** What is left of the limit on segments. *)
Definition remaining_segments (segments : list PlannedDeliverySegment) : option Z :=
  (λ m, m - len segments) <$> max_segments.

(** [gateway/delivery/planning.py:119-132] DeliveryPlanner.plan: flush_attachments *)
Definition flush_attachments (segments : list PlannedDeliverySegment) (pending : list indexed)
    : res (list PlannedDeliverySegment) :=
  if decide (pending = []) then Ok segments
  else
    groups ← _attachment_groups pending profile (remaining_segments segments) ;
    append_segments segments ((λ group, (Attachment <$> group.*2, group.*1)) <$> groups).

(** [gateway/delivery/planning.py:148-157] DeliveryPlanner.plan: the chunks of a text *)
Definition text_chunks (segments : list PlannedDeliverySegment) (text : pystr) : res (list pystr) :=
  match dp_max_text_length profile with
  | None => Ok [text]
  | Some limit =>
      n ← _text_length text (dp_text_length_unit profile) ;
      if decide (n ≤ limit) then Ok [text]
      else split_text text limit (dp_text_length_unit profile) (remaining_segments segments)
  end.

(** [gateway/delivery/planning.py:140-160] DeliveryPlanner.plan: the loop over the content *)
Fixpoint plan_content (segments : list PlannedDeliverySegment) (pending : list indexed)
    (source_index : Z) (content : list Content) : res (list PlannedDeliverySegment) :=
  match content with
  | [] => flush_attachments segments pending
  | Attachment item :: rest =>
      plan_content segments (pending ++ [(source_index, item)]) (source_index + 1) rest
  | TextContent text format :: rest =>
      segments ← flush_attachments segments pending ;
      '(text, text_format) ← _prepare_text text format profile ;
      chunks ← text_chunks segments text ;
      segments ← append_segments segments
        ((λ chunk, ([TextContent chunk text_format], [source_index])) <$> chunks) ;
      plan_content segments [] (source_index + 1) rest
  end.

(** [gateway/delivery/planning.py:46-169] DeliveryPlanner.plan *)
Definition plan (max_source_items : option Z) : res DeliveryPlan :=
  raise_if (om_delivery_id message = []) DeliveryPlanningError ;;
  raise_if (om_content message = []) DeliveryPlanningError ;;
  when_some max_source_items (λ m,
    raise_if (m < 1) DeliveryPlanningError ;;
    raise_if (m < len (om_content message)) DeliveryPlanningError) ;;
  when_some max_segments (λ m, raise_if (m < 1) DeliveryPlanningError) ;;
  _validate_profile profile ;;
  raise_if (is_Some (om_reply_to message) ∧ dp_reply_references profile = UNSUPPORTED)
    DeliveryPlanningError ;;
  for_each (om_content message) (λ item,
    match item with Attachment a => _validate_attachment a profile | TextContent _ _ => Ok () end) ;;
  segments ← plan_content [] [] 0 (om_content message) ;
  raise_if (segments = []) DeliveryPlanningError ;;
  Ok {|
    pl_source_delivery_id := om_delivery_id message;
    pl_conversation_ref := om_conversation_ref message;
    pl_source_content_count := len (om_content message);
    pl_segments := segments |}.
End plan.
