(* ===== verification/PlanningTheorems.v ===== *)
(** What a delivery plan is: its segments carry the content of the message in
    order, nothing is dropped or sent twice, and each is within what the channel
    takes. *)

From S2P Require Export DeliveryPlanning.
From stdpp Require Import list.
#[local] Open Scope Z_scope.
#[local] Open Scope stdpp_scope.

Lemma raise_at_limit_ok limit n u : raise_at_limit limit n = Ok u ↔ ∀ m, limit = Some m → n < m.
Proof.
  unfold raise_at_limit. rewrite when_some_ok. split; intros H m Hm; specialize (H m Hm);
    [apply raise_if_ok in H; lia|apply raise_if_ok; lia].
Qed.

(** * Markdown *)

(** A text that is more than whitespace stays so. *)
Theorem markdown_to_plain_nonempty text :
  strip text ≠ [] → markdown_to_plain text ≠ [] ∧ trimmed (markdown_to_plain text).
Proof.
  intros Ht. unfold markdown_to_plain. cbv zeta. case_decide; split; try done; apply strip_trimmed.
Qed.

(** The characters Markdown gives a meaning. *)
Definition markdown_chars : pystr := py "#>`~[*_-".

Lemma markdown_class s :
  forallb (one_of markdown_chars) (py s) = true →
  ∀ x, char s x = true → one_of markdown_chars x = true.
Proof.
  intros Hs x Hx%bool_decide_eq_true. rewrite forallb_forall in Hs. by apply Hs, list_elem_of_In.
Qed.

Ltac solve_takes_with :=
  first
    [ discriminate
    | apply markdown_class; vm_compute; reflexivity
    | split; [solve_takes_with|solve_takes_with]
    | left; solve_takes_with
    | right; solve_takes_with ].
Ltac solve_takes :=
  unfold heading_or_quote, code_fence, image_pattern, link_pattern, link, code_span, strong, emphasis,
    rule, RSeqs, ROne, some; cbn [takes]; solve_takes_with.

(** Plain text passes: in a text without the characters of Markdown only runs of
    blank lines are shortened, and the whitespace around it goes. *)
Theorem markdown_to_plain_plain text :
  Forall (λ x, x ∉ markdown_chars) text →
  let collapsed := strip (re_sub blank_lines (λ _, [10; 10]%N) text) in
  markdown_to_plain text = if decide (collapsed = []) then strip text else collapsed.
Proof.
  intros Ht. assert (Forall (λ x, one_of markdown_chars x = false) text) as Hl.
  { eapply Forall_impl; [exact Ht|]. intros x Hx. by apply bool_decide_eq_false. }
  unfold markdown_to_plain. cbv zeta.
  assert (∀ r f, takes (one_of markdown_chars) r → re_sub r f text = text) as Hid
    by (intros; by eapply re_sub_lacking).
  by rewrite (Hid heading_or_quote), (Hid code_fence), (Hid image_pattern), (Hid link_pattern),
    (Hid code_span), (Hid strong), (Hid (emphasis "*")), (Hid (emphasis "_")), (Hid rule) by solve_takes.
Qed.

(** * Groups of attachments *)

Definition declared_size (a : indexed) : Z := default 0 (ac_size_bytes a.2).
Fixpoint total_size (l : list indexed) : Z :=
  match l with [] => 0 | a :: l' => declared_size a + total_size l' end.
Definition media_family (a : indexed) : pystr := casefold (before_slash (ac_media_type a.2)).

(** What the channel takes as one native group. *)
Definition group_ok (profile : DeliveryProfile) (group : list indexed) : Prop :=
  group ≠ [] ∧
  (∀ limit, dp_max_attachment_group_size profile = Some limit →
    total_size group ≤ limit ∧ Forall (λ a, is_Some (ac_size_bytes a.2)) group) ∧
  match dp_attachment_grouping profile with
  | NO_GROUPING => len group = 1
  | SAME_MEDIA_FAMILY => ∃ family, Forall (λ a, media_family a = family) group
  | MIXED => True
  end ∧
  (∀ limit, dp_max_attachment_count profile = Some limit → 1 ≤ limit → len group ≤ limit).

Lemma total_size_app l l' : total_size (l ++ l') = total_size l + total_size l'.
Proof. induction l as [|a l IH]; cbn; lia. Qed.

Lemma check_group_size_ok limit item u :
  check_group_size limit item = Ok u ↔
  ∀ m, limit = Some m → is_Some (ac_size_bytes item) ∧ default 0 (ac_size_bytes item) ≤ m.
Proof.
  unfold check_group_size. rewrite when_some_ok. split; intros H m Hm; specialize (H m Hm).
  - rewrite then_ok, !raise_if_ok in H. destruct H as [Hs Hd]. split; [|lia].
    destruct (ac_size_bytes item); [eauto|done].
  - rewrite then_ok, !raise_if_ok. destruct H as [[z Hz] Hd]. rewrite Hz in *. split; [done|lia].
Qed.

Lemma single_groups_ok profile max_groups groups attachments all :
  dp_attachment_grouping profile = NO_GROUPING →
  single_groups (dp_max_attachment_group_size profile) max_groups groups attachments = Ok all →
  ∃ new, all = groups ++ new ∧ concat new = attachments ∧ Forall (group_ok profile) new.
Proof.
  intros Hg. revert groups. induction attachments as [|a attachments IH]; intros groups; cbn [single_groups].
  { intros [= <-]. exists []. by rewrite app_nil_r. }
  rewrite !then_ok, check_group_size_ok. intros (Hsize & _ & (new & -> & Hnew & Hok)%IH).
  exists ([a] :: new). rewrite <- app_assoc. split_and!; [done|cbn; by f_equal|]. constructor; [|done].
  unfold group_ok. rewrite Hg. split_and!; [done| |done|].
  - intros limit Hl. destruct (Hsize limit Hl) as [Hs Hd]. cbn. unfold declared_size. split; [lia|].
    by repeat constructor.
  - intros limit _ Hl. unfold len. cbn. lia.
Qed.

(** The group under construction is empty or a group the channel takes, and its
    size and family are recorded. *)
Definition open_ok (profile : DeliveryProfile) (current : open_group) : Prop :=
  og_size current = total_size (og_items current) ∧
  (og_items current = [] ∨
   group_ok profile (og_items current) ∧
   ∃ family, og_family current = Some family ∧
     (dp_attachment_grouping profile = SAME_MEDIA_FAMILY →
      Forall (λ a, media_family a = family) (og_items current))).

(** An attachment that opens a group, and one that joins it. *)
Lemma open_fresh profile a :
  dp_attachment_grouping profile ≠ NO_GROUPING →
  (∀ m, dp_max_attachment_group_size profile = Some m →
     is_Some (ac_size_bytes a.2) ∧ declared_size a ≤ m) →
  open_ok profile {| og_items := [a]; og_size := 0 + declared_size a; og_family := Some (media_family a) |}.
Proof.
  intros Hg Hs. unfold open_ok. cbn. split; [lia|]. right. split.
  - unfold group_ok. split_and!; [done| | |intros limit _ Hl; unfold len; cbn; lia].
    + intros limit Hl. destruct (Hs limit Hl). cbn. split; [lia|by repeat constructor].
    + destruct (dp_attachment_grouping profile); try done. exists (media_family a). by repeat constructor.
  - exists (media_family a). split; [done|]. intros _. by repeat constructor.
Qed.

Lemma open_join profile current a :
  dp_attachment_grouping profile ≠ NO_GROUPING →
  (∀ m, dp_max_attachment_group_size profile = Some m →
     is_Some (ac_size_bytes a.2) ∧ og_size current + declared_size a ≤ m) →
  (∀ limit, dp_max_attachment_count profile = Some limit → len (og_items current) < limit) →
  (dp_attachment_grouping profile = SAME_MEDIA_FAMILY → og_family current = Some (media_family a)) →
  og_items current ≠ [] → open_ok profile current →
  open_ok profile {| og_items := og_items current ++ [a]; og_size := og_size current + declared_size a;
                     og_family := Some (media_family a) |}.
Proof.
  intros Hg Hs Hc Hf Hne [Hsize [?|[(_ & Hlim & Hfam & Hcount) (family & Hfamily & Hall)]]]; [done|].
  unfold open_ok. cbn. rewrite total_size_app. cbn. split; [lia|]. right.
  assert (dp_attachment_grouping profile = SAME_MEDIA_FAMILY →
    Forall (λ x, media_family x = media_family a) (og_items current ++ [a])) as Hsame.
  { intros Hg'. specialize (Hf Hg'). assert (family = media_family a) as -> by congruence.
    apply Forall_app. split; [by apply Hall|by repeat constructor]. }
  split; [|by eauto]. unfold group_ok. split_and!.
  - by destruct (og_items current).
  - intros limit Hl. destruct (Hs limit Hl) as [? ?], (Hlim limit Hl) as [? ?].
    rewrite total_size_app. cbn. split; [lia|]. apply Forall_app. split; [done|by repeat constructor].
  - destruct (dp_attachment_grouping profile) eqn:He; try done. eauto.
  - intros limit Hl _. specialize (Hc limit Hl). unfold len in *. rewrite length_app. cbn. lia.
Qed.

Lemma fill_groups_ok profile max_groups groups current attachments all :
  dp_attachment_grouping profile ≠ NO_GROUPING → open_ok profile current →
  fill_groups profile max_groups groups current attachments = Ok all →
  ∃ new, all = groups ++ new ∧ concat new = og_items current ++ attachments ∧
    Forall (group_ok profile) new.
Proof.
  intros Hg. revert groups current. induction attachments as [|a attachments IH]; intros groups current Hopen;
    cbn [fill_groups].
  { rewrite app_nil_r. case_decide as Hc; [intros [= <-]; exists []; by rewrite app_nil_r, Hc|].
    rewrite then_ok. intros [_ [= <-]]. exists [og_items current]. cbn. rewrite app_nil_r.
    split_and!; [done..|]. apply Forall_singleton. destruct Hopen as [_ [?|[? _]]]; done. }
  cbv zeta. rewrite then_ok, check_group_size_ok. intros [Hsize H].
  apply res_bind_ok in H as ([groups' current'] & Hstep & Hrest).
  fold (declared_size a) (media_family a) in *.
  destruct (bool_decide_reflect (og_items current ≠ [])) as [Hne|Hne]; cbn in Hstep.
  2: { injection Hstep as <- <-. apply dec_stable in Hne. destruct Hopen as [Hos _]. rewrite Hne in *.
       cbn in Hos. rewrite Hos in Hrest. apply IH in Hrest; [exact Hrest|by apply open_fresh]. }
  destruct (_ || _ || _) eqn:Hfull; cbn in Hstep.
  - apply then_ok in Hstep as [_ [= <- <-]]. apply IH in Hrest as (new & -> & Hnew & Hok); [|by apply open_fresh].
    exists (og_items current :: new). rewrite <- app_assoc. split_and!; [done|cbn; by rewrite Hnew|].
    constructor; [|done]. destruct Hopen as [_ [?|[? _]]]; done.
  - injection Hstep as <- <-. apply orb_false_iff in Hfull as [[Hfam Hcount]%orb_false_iff Hsz].
    apply IH in Hrest as (new & -> & Hnew & Hok); [|apply open_join; try done].
    + exists new. split_and!; [done| |done]. rewrite Hnew. cbn [og_items]. by rewrite <- app_assoc.
    + intros m Hm. destruct (Hsize m Hm) as [? _]. split; [done|]. rewrite Hm in Hsz.
      apply bool_decide_eq_false in Hsz. apply Z.nlt_ge. intros ?. by apply Hsz.
    + intros limit Hl. rewrite Hl in Hcount. apply bool_decide_eq_false in Hcount. lia.
    + intros Hsame. apply bool_decide_eq_false in Hfam.
      destruct Hopen as [_ [?|[_ (family & Hf & _)]]]; [done|]. rewrite Hf in Hfam |- *.
      destruct (decide (media_family a = family)) as [->|]; [done|]. exfalso. apply Hfam.
      split_and!; [done|eauto|congruence].
Qed.

(** The groups hold the attachments in their order, and the channel takes each. *)
Lemma attachment_groups_spec attachments profile max_groups groups :
  _attachment_groups attachments profile max_groups = Ok groups →
  concat groups = attachments ∧ Forall (group_ok profile) groups.
Proof.
  unfold _attachment_groups. rewrite then_ok. intros [_ H]. case_decide as Hg.
  - apply (single_groups_ok profile) in H as (new & -> & ? & ?); [done..].
  - apply fill_groups_ok in H as (new & -> & ? & ?); [done|done|]. split; [done|by left].
Qed.

(** * The plan *)

(** The content of a message with the positions of its items. *)
Fixpoint enumerate (i : Z) (content : list Content) : list (Z * Content) :=
  match content with
  | [] => []
  | c :: content' => (i, c) :: enumerate (i + 1) content'
  end.
Definition as_content (a : indexed) : Z * Content := (a.1, Attachment a.2).
(** What a segment carries, and where it is from. *)
Definition segment_part (s : PlannedDeliverySegment) : list Content * list Z :=
  (om_content (ps_message s), ps_source_content_indexes s).

Definition text_ok (profile : DeliveryProfile) (text : pystr) : Prop :=
  text ≠ [] ∧ ∀ limit, dp_max_text_length profile = Some limit →
    ∃ n, _text_length text (dp_text_length_unit profile) = Ok n ∧ n ≤ limit.

(** The parts carry the content, in order: a text by its chunks, which but for
    whitespace are the text the channel is to show, and attachments by groups. *)
Inductive carries (profile : DeliveryProfile) : list (Z * Content) → list (list Content * list Z) → Prop :=
| carries_nothing : carries profile [] []
| carries_text i text format shown shown_format chunks content parts :
    _prepare_text text format profile = Ok (shown, shown_format) →
    chunks = [shown] ∨ spaced chunks (strip shown) →
    Forall (text_ok profile) chunks →
    carries profile content parts →
    carries profile ((i, TextContent text format) :: content)
      (((λ chunk, ([TextContent chunk shown_format], [i])) <$> chunks) ++ parts)
| carries_group group content parts :
    group_ok profile group →
    carries profile content parts →
    carries profile ((as_content <$> group) ++ content) ((Attachment <$> group.*2, group.*1) :: parts).

Lemma carries_groups profile groups content parts :
  Forall (group_ok profile) groups → carries profile content parts →
  carries profile ((as_content <$> concat groups) ++ content)
    (((λ group, (Attachment <$> group.*2, group.*1)) <$> groups) ++ parts).
Proof.
  intros Hg Hc. induction Hg as [|group groups Hok _ IH]; [done|].
  cbn. rewrite fmap_app, <- app_assoc. by constructor.
Qed.

Section plan_theorems.
Context (message : OutboundMessage) (profile : DeliveryProfile) (max_segments : option Z).

(** The segments are numbered, and each has the identity of its number. *)
Definition numbered (segments : list PlannedDeliverySegment) : Prop :=
  ∀ j s, segments !! j = Some s →
    ps_segment_index s = Z.of_nat j ∧
    derive_segment_delivery_id (om_conversation_ref message) (om_delivery_id message) (Z.of_nat j)
      = Ok (om_delivery_id (ps_message s)) ∧
    om_conversation_ref (ps_message s) = om_conversation_ref message ∧
    om_reply_to (ps_message s) =
      if decide (j = 0%nat ∨ dp_reply_reference_scope profile = EVERY_SEGMENT)
      then om_reply_to message else None.

(** [all] is [segments] and then [parts]; it keeps the numbers and the limit. *)
Definition extends (segments : list PlannedDeliverySegment) (parts : list (list Content * list Z))
    (all : list PlannedDeliverySegment) : Prop :=
  (∃ new, all = segments ++ new ∧ segment_part <$> new = parts) ∧
  (numbered segments → numbered all) ∧
  ((∀ m, max_segments = Some m → len segments ≤ m) → ∀ m, max_segments = Some m → len all ≤ m).

Lemma extends_refl segments : extends segments [] segments.
Proof. split_and!; [|done..]. exists []. by rewrite app_nil_r. Qed.

Lemma extends_trans s1 parts1 s2 parts2 s3 :
  extends s1 parts1 s2 → extends s2 parts2 s3 → extends s1 (parts1 ++ parts2) s3.
Proof.
  intros [(n1 & -> & <-) [Hn1 Hm1]] [(n2 & -> & <-) [Hn2 Hm2]]. split_and!; [|auto..].
  exists (n1 ++ n2). by rewrite app_assoc, fmap_app.
Qed.

Lemma append_segment_ok segments content indexes all :
  append_segment message profile max_segments segments content indexes = Ok all →
  extends segments [(content, indexes)] all.
Proof.
  unfold append_segment. rewrite then_ok, raise_at_limit_ok. intros [Hm H].
  apply res_bind_ok in H as (id & Hid & [= <-]). split_and!.
  - by eexists.
  - intros Hn j s [Hj|[Hj Hs]]%lookup_app_Some; [by apply Hn|].
    apply list_lookup_singleton_Some in Hs as [Hj0 <-].
    assert (j = length segments) as -> by lia. cbn. split_and!; [done|exact Hid|done|].
    unfold len. case_decide as H1; case_decide as H2; try done; exfalso; [apply H2|apply H1];
      destruct H1 as [H1|H1] || destruct H2 as [H2|H2]; (by right) || (left; lia).
  - intros _ m Hm'. specialize (Hm m Hm'). unfold len in *. rewrite length_app. cbn. lia.
Qed.

Lemma append_segments_ok segments parts all :
  append_segments message profile max_segments segments parts = Ok all → extends segments parts all.
Proof.
  revert segments. induction parts as [|[content indexes] parts IH]; intros segments; cbn [append_segments].
  { intros [= <-]. apply extends_refl. }
  intros (s & Hs & H)%res_bind_ok. apply (extends_trans _ [(content, indexes)] s);
    [by apply append_segment_ok|by apply IH].
Qed.

Lemma flush_attachments_ok segments pending all :
  flush_attachments message profile max_segments segments pending = Ok all →
  ∃ groups, concat groups = pending ∧ Forall (group_ok profile) groups ∧
    extends segments ((λ group, (Attachment <$> group.*2, group.*1)) <$> groups) all.
Proof.
  unfold flush_attachments. case_decide as Hp.
  { intros [= <-]. exists []. split_and!; [done|constructor|apply extends_refl]. }
  intros (groups & Hg & H)%res_bind_ok. apply attachment_groups_spec in Hg as [Hc Hok].
  exists groups. split_and!; [done..|]. by apply append_segments_ok.
Qed.

Lemma prepare_text_nonempty text format shown shown_format :
  _prepare_text text format profile = Ok (shown, shown_format) → shown ≠ [].
Proof.
  unfold _prepare_text. rewrite then_ok, raise_if_ok. intros [Ht H].
  destruct format; [|destruct (dp_markdown profile); [| |done]].
  - apply then_ok in H as [_ [= <- <-]]. by intros ->.
  - injection H as <- <-. by intros ->.
  - apply then_ok in H as [_ [= <- <-]]. by apply markdown_to_plain_nonempty.
Qed.

Lemma text_chunks_ok segments text chunks :
  text ≠ [] → text_chunks profile max_segments segments text = Ok chunks →
  (chunks = [text] ∨ spaced chunks (strip text)) ∧ Forall (text_ok profile) chunks.
Proof.
  intros Hne. unfold text_chunks. destruct (dp_max_text_length profile) as [limit|] eqn:Hl.
  2: { intros [= <-]. split; [by left|]. apply Forall_singleton. split; [done|]. congruence. }
  intros (n & Hn & H)%res_bind_ok. case_decide as Hfits.
  - injection H as <-. split; [by left|]. apply Forall_singleton. split; [done|].
    intros limit' Hl'. assert (limit' = limit) as -> by congruence. eauto.
  - apply split_text_spec in H as (Hs & Hok & _). split; [by right|].
    eapply Forall_impl; [exact Hok|]. intros chunk (Hc & _ & Hfit). split; [done|].
    intros limit' Hl'. by assert (limit' = limit) as -> by congruence.
Qed.

Lemma plan_content_ok segments pending i content all :
  plan_content message profile max_segments segments pending i content = Ok all →
  ∃ parts, extends segments parts all ∧
    carries profile ((as_content <$> pending) ++ enumerate i content) parts.
Proof.
  revert segments pending i. induction content as [|[text format|a] content IH];
    intros segments pending i; cbn [plan_content enumerate].
  - intros (groups & <- & Hok & Hext)%flush_attachments_ok. eexists. split; [exact Hext|].
    rewrite <- (app_nil_r (_ <$> groups)). apply carries_groups; [done|constructor].
  - intros (s1 & (groups & <- & Hok & Hext1)%flush_attachments_ok & H)%res_bind_ok.
    apply res_bind_ok in H as ([shown shown_format] & Hshown & H).
    apply res_bind_ok in H as (chunks & Hchunks & H).
    apply res_bind_ok in H as (s2 & Hs2 & H).
    apply append_segments_ok in Hs2. apply IH in H as (parts & Hext3 & Hcarries).
    pose proof (extends_trans _ _ _ _ _ Hext1 (extends_trans _ _ _ _ _ Hs2 Hext3)) as Hext.
    eexists. split; [exact Hext|]. apply carries_groups; [done|].
    destruct (text_chunks_ok s1 shown chunks) as [Hform Htexts];
      [by eapply prepare_text_nonempty|exact Hchunks|].
    by eapply carries_text.
  - intros (parts & Hext & Hcarries)%IH. exists parts. split; [done|].
    by rewrite fmap_app, <- app_assoc in Hcarries.
Qed.

(** What a plan is to its message. *)
Record planned (p : DeliveryPlan) : Prop := {
  pn_conversation : pl_conversation_ref p = om_conversation_ref message;
  pn_carries : carries profile (enumerate 0 (om_content message)) (segment_part <$> pl_segments p);
  pn_numbered : numbered (pl_segments p);
  pn_bounded m : max_segments = Some m → len (pl_segments p) ≤ m;
  pn_attachments : Forall (λ c, match c with
    | Attachment a => _validate_attachment a profile = Ok ()
    | TextContent _ _ => True
    end) (om_content message);
  pn_content : om_content message ≠ [];
}.

Lemma plan_ok max_source_items p : plan message profile max_segments max_source_items = Ok p → planned p.
Proof.
  unfold plan. rewrite !then_ok. intros (_ & Hne & _ & Hmax & _ & _ & Hatt & H). apply raise_if_ok in Hne.
  apply res_bind_ok in H as (segments & Hs & H). apply then_ok in H as [_ [= <-]].
  apply plan_content_ok in Hs as (parts & [(new & -> & <-) [Hnum Hlim]] & Hcarries).
  split; cbn [pl_segments pl_conversation_ref]; try done.
  - apply Hnum. intros j s. by rewrite lookup_nil.
  - apply Hlim. intros m Hm. rewrite Hm in Hmax. cbn in Hmax. apply raise_if_ok in Hmax. unfold len. cbn. lia.
  - apply for_each_ok in Hatt. eapply Forall_impl; [exact Hatt|]. by intros [].
Qed.

(** C31. A plan carries the whole message: in the order of its content, each text in
    chunks and attachments in groups that the channel takes, under consecutive
    numbers with their derived identities, in no more segments than allowed. *)
Theorem plan_spec max_source_items p :
  plan message profile max_segments max_source_items = Ok p →
  carries profile (enumerate 0 (om_content message)) (segment_part <$> pl_segments p) ∧
  numbered (pl_segments p) ∧
  (∀ m, max_segments = Some m → len (pl_segments p) ≤ m) ∧
  Forall (λ c, match c with
               | Attachment a => _validate_attachment a profile = Ok ()
               | TextContent _ _ => True
               end) (om_content message).
Proof. intros []%plan_ok. by split_and!. Qed.
End plan_theorems.
