(* ===== verification/Concurrency.v ===== *)
(** Keyed serialization, [gateway/concurrency.py]: one lock per key in use, made
    when a first task asks for the key and dropped when the last one leaves. *)

From S2P Require Export PyDict.
From stdpp Require Import list.
#[local] Open Scope Z_scope.
#[local] Open Scope stdpp_scope.

(** * Locks

    [asyncio.Lock] of the standard library, by what its users see: the task that
    has the lock, and those that wait, in order.  A free lock has no waiter; a
    release hands the lock to the first that waits; a waiter that is cancelled
    leaves the queue, and hands the lock on if it was just given it. *)
Record Lock := { lk_holder : option nat; lk_waiters : list nat }.
Definition new_lock : Lock := {| lk_holder := None; lk_waiters := [] |}.

Definition lock_acquire (t : nat) (l : Lock) : Lock :=
  match lk_holder l with
  | None => {| lk_holder := Some t; lk_waiters := lk_waiters l |}
  | Some _ => {| lk_holder := lk_holder l; lk_waiters := lk_waiters l ++ [t] |}
  end.

Definition lock_leave (t : nat) (l : Lock) : Lock :=
  if decide (lk_holder l = Some t) then
    match lk_waiters l with
    | [] => new_lock
    | w :: ws => {| lk_holder := Some w; lk_waiters := ws |}
    end
  else {| lk_holder := lk_holder l; lk_waiters := filter (λ w, w ≠ t) (lk_waiters l) |}.

(** * The registry *)

(** [gateway/concurrency.py:9-12] _LockEntry *)
Record _LockEntry := { le_lock : Lock; le_users : Z }.

(** [gateway/concurrency.py:19-30] KeyedLockRegistry: a hold keeps the entry it
    found, so that the entries are objects of a heap. *)
Record KeyedLockRegistry (K : Type) := {
  kr_max_active_keys : option Z;
  kr_entries : dict K nat;
  kr_heap : list _LockEntry;
}.
Arguments kr_max_active_keys {K} _.
Arguments kr_entries {K} _.
Arguments kr_heap {K} _.

Section registry.
Context {K : Type} `{EqDecision K}.
Implicit Types (s : KeyedLockRegistry K) (k : K).

(** [gateway/concurrency.py:22-30] KeyedLockRegistry.__init__ *)
Definition new_registry (max_active_keys : option Z) : res (KeyedLockRegistry K) :=
  when_some max_active_keys (λ m, raise_if (m < 1) ValueError) ;;
  Ok {| kr_max_active_keys := max_active_keys; kr_entries := []; kr_heap := [] |}.

(** [gateway/concurrency.py:37-39] KeyedLockRegistry.active_key_count *)
Definition active_key_count s : Z := len (kr_entries s).

Definition set_entries entries s : KeyedLockRegistry K :=
  {| kr_max_active_keys := kr_max_active_keys s; kr_entries := entries; kr_heap := kr_heap s |}.
Definition set_heap heap s : KeyedLockRegistry K :=
  {| kr_max_active_keys := kr_max_active_keys s; kr_entries := kr_entries s; kr_heap := heap |}.
(** A change to an entry, whoever refers to it. *)
Definition with_entry (id : nat) (f : _LockEntry → _LockEntry) s : KeyedLockRegistry K :=
  set_heap (alter f id (kr_heap s)) s.

Definition count_user (n : Z) (e : _LockEntry) : _LockEntry :=
  {| le_lock := le_lock e; le_users := le_users e + n |}.
Definition change_lock (f : Lock → Lock) (e : _LockEntry) : _LockEntry :=
  {| le_lock := f (le_lock e); le_users := le_users e |}.

(** [gateway/concurrency.py:43-55] KeyedLockRegistry.hold: up to the yield; the
    task then waits until the lock is its own *)
Definition hold_enter k (t : nat) : M (KeyedLockRegistry K) nat :=
  s ← get_st ;
  id ← match d_get (kr_entries s) k with
       | Some id => mret id
       | None =>
           when_some (kr_max_active_keys s) (λ m,
             raise_if (m ≤ len (kr_entries s)) KeyedLockCapacityError) ;;
           modify (set_heap (kr_heap s ++ [{| le_lock := new_lock; le_users := 0 |}])) ;;
           modify (set_entries (d_set (kr_entries s) k (length (kr_heap s)))) ;;
           mret (length (kr_heap s))
       end ;
  modify (with_entry id (count_user 1)) ;;
  modify (with_entry id (change_lock (lock_acquire t))) ;;
  mret id.

(** [gateway/concurrency.py:56-61] KeyedLockRegistry.hold: the end, of a task that
    has the lock or was cancelled while it waited *)
Definition hold_leave k (id t : nat) : M (KeyedLockRegistry K) unit :=
  modify (with_entry id (change_lock (lock_leave t))) ;;
  modify (with_entry id (count_user (-1))) ;;
  s ← get_st ;
  match kr_heap s !! id with
  | Some entry =>
      if decide (le_users entry = 0 ∧ d_get (kr_entries s) k = Some id)
      then modify (set_entries (d_pop (kr_entries s) k))
      else mret ()
  | None => mret ()
  end.

(** * Any number of tasks *)

(** One use of the registry by a task: the key, a number of its own, and the
    entry it found. *)
Record hold := { hd_key : K; hd_task : nat; hd_entry : nat }.
#[export] Instance hold_eq_dec : EqDecision hold.
Proof. solve_decision. Defined.

Definition has_lock s (h : hold) : Prop :=
  ∃ e, kr_heap s !! hd_entry h = Some e ∧ lk_holder (le_lock e) = Some (hd_task h).

(** Tasks enter and leave in any order; one leaves when it is done, or when it is
    cancelled, whether it has the lock or not. *)
Inductive lock_step : list hold * KeyedLockRegistry K → list hold * KeyedLockRegistry K → Prop :=
| lock_enters live s k t id s' :
    t ∉ hd_task <$> live → hold_enter k t s = (Ok id, s') →
    lock_step (live, s) (live ++ [{| hd_key := k; hd_task := t; hd_entry := id |}], s')
| lock_refuses live s k t e s' : hold_enter k t s = (Err e, s') → lock_step (live, s) (live, s')
| lock_leaves live s h s' :
    h ∈ live → hold_leave (hd_key h) (hd_entry h) (hd_task h) s = (Ok (), s') →
    lock_step (live, s) (filter (λ x, x ≠ h) live, s').

(** The tasks that use a key, in the order they came. *)
Definition queue_of k (live : list hold) : list nat := hd_task <$> filter (λ h, hd_key h = k) live.
Definition lock_of (queue : list nat) : Lock :=
  match queue with
  | [] => new_lock
  | t :: ts => {| lk_holder := Some t; lk_waiters := ts |}
  end.

(** The registry is no more than these queues. *)
Record represents (live : list hold) s : Prop := {
  rp_tasks : NoDup (hd_task <$> live);
  rp_keys : well_formed (kr_entries s);
  rp_holds h : h ∈ live → d_get (kr_entries s) (hd_key h) = Some (hd_entry h);
  rp_entries k id : d_get (kr_entries s) k = Some id →
    queue_of k live ≠ [] ∧
    kr_heap s !! id = Some {| le_lock := lock_of (queue_of k live); le_users := len (queue_of k live) |};
  rp_injective k k' id :
    d_get (kr_entries s) k = Some id → d_get (kr_entries s) k' = Some id → k = k';
  rp_bounded m : kr_max_active_keys s = Some m → 1 ≤ m ∧ len (kr_entries s) ≤ m;
}.

Lemma new_registry_represents m s : new_registry m = Ok s → represents [] s.
Proof.
  unfold new_registry. rewrite then_ok. intros [Hm [= <-]].
  split; cbn; try done; [constructor..|set_solver|].
  intros m' ->. cbn in Hm. apply raise_if_ok in Hm. unfold len. cbn. lia.
Qed.

(** ** Queues *)

Lemma queue_of_app k live h :
  queue_of k (live ++ [h]) = queue_of k live ++ if decide (hd_key h = k) then [hd_task h] else [].
Proof.
  unfold queue_of. rewrite filter_app, fmap_app. f_equal. rewrite filter_cons, filter_nil.
  by case_decide.
Qed.

Lemma task_identifies live (h x : hold) :
  NoDup (hd_task <$> live) → h ∈ live → x ∈ live → hd_task x = hd_task h → x = h.
Proof.
  intros Hnd [i Hi]%list_elem_of_lookup [j Hj]%list_elem_of_lookup Ht.
  assert (i = j) as ->; [|congruence].
  eapply NoDup_lookup; [exact Hnd|by rewrite list_lookup_fmap, Hi|by rewrite list_lookup_fmap, Hj, <- Ht].
Qed.

Lemma queue_of_leave k live h :
  NoDup (hd_task <$> live) → h ∈ live →
  queue_of k (filter (λ x, x ≠ h) live) = filter (λ t, t ≠ hd_task h) (queue_of k live).
Proof.
  intros Hnd Hin. pose proof (λ x, task_identifies live h x Hnd Hin) as Hid. clear Hnd Hin.
  unfold queue_of. induction live as [|x live IH]; [done|].
  assert (∀ y, y ∈ live → hd_task y = hd_task h → y = h) as Hid' by set_solver.
  specialize (IH Hid'). specialize (Hid x ltac:(set_solver)).
  rewrite !filter_cons. destruct (decide (x = h)) as [->|Hne].
  - rewrite decide_False by tauto. rewrite IH. case_decide; [|done].
    rewrite fmap_cons, filter_cons. by rewrite decide_False by tauto.
  - rewrite decide_True by done. rewrite filter_cons. case_decide; [|done].
    rewrite !fmap_cons, filter_cons, IH. by rewrite decide_True by auto.
Qed.

Lemma queue_of_elem k live t : t ∈ queue_of k live ↔ ∃ h, h ∈ live ∧ hd_key h = k ∧ hd_task h = t.
Proof. unfold queue_of. rewrite list_elem_of_fmap. setoid_rewrite list_elem_of_filter. naive_solver. Qed.

Lemma queue_of_NoDup k live : NoDup (hd_task <$> live) → NoDup (queue_of k live).
Proof. unfold queue_of. intros H. eapply sublist_NoDup; [exact H|]. apply fmap_sublist, sublist_filter. Qed.

Lemma filter_absent (t : nat) (q : list nat) : t ∉ q → filter (λ x, x ≠ t) q = q.
Proof.
  induction q as [|x q IH]; [done|]. rewrite not_elem_of_cons, filter_cons. intros [Hx Hq].
  by rewrite decide_True, IH by done.
Qed.

Lemma lock_acquire_queue t q : lock_acquire t (lock_of q) = lock_of (q ++ [t]).
Proof. by destruct q. Qed.

Lemma lock_leave_queue t (q : list nat) : NoDup q → lock_leave t (lock_of q) = lock_of (filter (λ x, x ≠ t) q).
Proof.
  destruct q as [|x q]; [done|]. intros [Hx Hq]%NoDup_cons. unfold lock_leave. cbn [lock_of lk_holder lk_waiters].
  rewrite filter_cons. destruct (decide (x = t)) as [->|Hne].
  - rewrite decide_True by done. rewrite decide_False by tauto. rewrite filter_absent by done. by destruct q.
  - rewrite decide_False by congruence. by rewrite decide_True.
Qed.

Lemma length_filter_leave (t : nat) (q : list nat) :
  NoDup q → t ∈ q → len (filter (λ x, x ≠ t) q) = len q - 1.
Proof.
  unfold len. induction q as [|x q IH]; [set_solver|]. intros [Hx Hq]%NoDup_cons Ht. rewrite filter_cons.
  destruct (decide (x = t)) as [->|Hne].
  - rewrite decide_False by tauto. rewrite filter_absent by done. cbn [length]. lia.
  - rewrite decide_True by done. apply elem_of_cons in Ht as [->|Ht]; [done|]. specialize (IH Hq Ht).
    cbn [length]. lia.
Qed.

(** ** The registry *)

(** No further key is taken. *)
Definition at_capacity s : Prop :=
  match kr_max_active_keys s with Some m => m ≤ len (kr_entries s) | None => False end.
#[local] Instance at_capacity_dec s : Decision (at_capacity s).
Proof. unfold at_capacity. destruct (kr_max_active_keys s); apply _. Defined.

Lemma hold_enter_run k t s :
  hold_enter k t s =
  match d_get (kr_entries s) k with
  | Some id => (Ok id, with_entry id (change_lock (lock_acquire t)) (with_entry id (count_user 1) s))
  | None =>
      if decide (at_capacity s) then (Err KeyedLockCapacityError, s)
      else (Ok (length (kr_heap s)),
            set_entries (d_set (kr_entries s) k (length (kr_heap s)))
              (set_heap (kr_heap s ++ [{| le_lock := lock_acquire t new_lock; le_users := 1 |}]) s))
  end.
Proof.
  unfold hold_enter. unfold mbind, M_bind, get_st at 1. cbn beta iota.
  destruct (d_get (kr_entries s) k) as [id|]; [reflexivity|].
  assert ((when_some (kr_max_active_keys s) (λ m, raise_if (m ≤ len (kr_entries s)) KeyedLockCapacityError)
    : M (KeyedLockRegistry K) unit) s =
    if decide (at_capacity s) then (Err KeyedLockCapacityError, s) else (Ok (), s)) as Hcheck.
  { destruct (decide (at_capacity s)) as [H|H]; unfold at_capacity in H;
      destruct (kr_max_active_keys s) as [m|]; cbn [when_some]; try done;
      unfold raise_if; [by rewrite decide_True|by rewrite decide_False]. }
  rewrite Hcheck.
  case_decide; [done|]. cbn. unfold with_entry, set_entries, set_heap. cbn.
  do 2 f_equal. rewrite !alter_app_r_alt by lia. by rewrite Nat.sub_diag.
Qed.

Lemma hold_enter_represents live s k t r s' :
  represents live s → t ∉ hd_task <$> live → hold_enter k t s = (r, s') →
  match r with
  | Ok id => represents (live ++ [{| hd_key := k; hd_task := t; hd_entry := id |}]) s'
  | Err e => s' = s ∧ e = KeyedLockCapacityError ∧ at_capacity s ∧ queue_of k live = []
  end.
Proof.
  intros [Ht Hk Hh He Hi Hb] Hfresh. rewrite hold_enter_run.
  assert (NoDup (hd_task <$> live ++ [{| hd_key := k; hd_task := t; hd_entry := 0%nat |}])) as Htasks.
  { rewrite fmap_app. apply NoDup_app. split_and!; [done| |apply NoDup_singleton]. set_solver. }
  rewrite fmap_app in Htasks.
  destruct (d_get (kr_entries s) k) as [id|] eqn:Hg; [|case_decide as Hc].
  - intros [= <- <-]. destruct (He k id Hg) as [Hne Hid].
    assert (kr_heap (with_entry id (change_lock (lock_acquire t)) (with_entry id (count_user 1) s)) !! id
      = Some {| le_lock := lock_of (queue_of k live ++ [t]); le_users := len (queue_of k live) + 1 |}) as Hnew.
    { cbn. rewrite !list_lookup_alter, !decide_True, Hid by done. cbn. do 2 f_equal.
      unfold change_lock. cbn. by rewrite lock_acquire_queue. }
    split; cbn [kr_entries with_entry set_heap kr_max_active_keys]; try done.
    + by rewrite fmap_app.
    + intros h [Hin|Hin%list_elem_of_singleton]%elem_of_app; [by apply Hh|by subst h].
    + intros k' id' Hg'. rewrite queue_of_app. cbn [hd_key hd_task]. destruct (decide (k = k')) as [<-|Hk'].
      * assert (id' = id) as -> by congruence. split; [by destruct (queue_of k live)|].
        rewrite Hnew. unfold len. by rewrite length_app, Nat2Z.inj_add.
      * rewrite app_nil_r. destruct (He k' id' Hg') as [Hne' Hid']. split; [done|].
        rewrite <- Hid'. cbn. rewrite !list_lookup_alter_ne; [done|..]; intros ->; by apply Hk', (Hi k k' id').
  - intros [= <- <-]. split_and!; try done. unfold queue_of.
    destruct (filter _ live) as [|h l] eqn:Hf; [done|]. exfalso.
    assert (h ∈ filter (λ h, hd_key h = k) live) as [<- Hin]%list_elem_of_filter by (rewrite Hf; by left).
    by rewrite (Hh h Hin) in Hg.
  - intros [= <- <-].
    assert (queue_of k live = []) as Hq.
    { destruct (queue_of k live) as [|x l] eqn:Hq; [done|]. exfalso.
      assert (x ∈ queue_of k live) as (h & Hin & <- & _)%queue_of_elem by (rewrite Hq; by left).
      by rewrite (Hh h Hin) in Hg. }
    assert (∀ k' id, d_get (kr_entries s) k' = Some id → (id < length (kr_heap s))%nat) as Hlt.
    { intros k' id [_ Hid]%He. by eapply lookup_lt_Some. }
    split; cbn [kr_entries set_entries set_heap kr_max_active_keys kr_heap].
    + by rewrite fmap_app.
    + auto with gateway.
    + intros h [Hin|Hin%list_elem_of_singleton]%elem_of_app; [|by subst h; rewrite d_get_set_eq].
      rewrite d_get_set_ne; [by apply Hh|]. intros Hkey. by rewrite Hkey, (Hh h Hin) in Hg.
    + intros k' id'. rewrite d_get_set, queue_of_app. cbn [hd_key hd_task].
      destruct (decide (k = k')) as [<-|Hk'].
      * intros [= <-]. rewrite Hq. split; [done|]. rewrite lookup_app_r, Nat.sub_diag by done. done.
      * intros Hg'. destruct (He k' id' Hg') as [Hne' Hid']. rewrite app_nil_r. split; [done|].
        rewrite lookup_app_l; [done|]. by eapply Hlt.
    + intros k1 k2 id. rewrite !d_get_set. repeat case_decide; try congruence.
      * intros [= <-] Hid%Hlt. lia.
      * intros Hid%Hlt [= <-]. lia.
      * apply Hi.
    + intros m Hm. destruct (Hb m Hm). split; [done|]. unfold at_capacity in Hc. rewrite Hm in Hc.
      unfold len in *. rewrite length_d_set_absent by done. lia.
Qed.

Lemma hold_leave_represents live s h :
  represents live s → h ∈ live →
  ∃ s', hold_leave (hd_key h) (hd_entry h) (hd_task h) s = (Ok (), s') ∧
    represents (filter (λ x, x ≠ h) live) s'.
Proof.
  intros [Ht Hk Hh He Hi Hb] Hin. set (k := hd_key h). set (id := hd_entry h).
  pose proof (Hh h Hin) as Hg. fold k id in Hg. destruct (He k id Hg) as [Hne Hid].
  pose proof (λ k', queue_of_leave k' live h Ht Hin) as Hq.
  assert (hd_task h ∈ queue_of k live) as Hmine by (apply queue_of_elem; eauto).
  pose proof (queue_of_NoDup k live Ht) as Hnd.
  set (s1 := with_entry id (count_user (-1)) (with_entry id (change_lock (lock_leave (hd_task h))) s)).
  assert (kr_heap s1 !! id = Some {|
    le_lock := lock_of (queue_of k (filter (λ x, x ≠ h) live));
    le_users := len (queue_of k (filter (λ x, x ≠ h) live)) |}) as Hnew.
  { unfold s1. cbn. rewrite !list_lookup_alter_eq, Hid. cbn. unfold count_user, change_lock. cbn.
    by rewrite lock_leave_queue, Hq, length_filter_leave by done. }
  assert (∀ k' id', k' ≠ k → d_get (kr_entries s) k' = Some id' →
    queue_of k' (filter (λ x, x ≠ h) live) ≠ [] ∧ kr_heap s1 !! id' = Some {|
      le_lock := lock_of (queue_of k' (filter (λ x, x ≠ h) live));
      le_users := len (queue_of k' (filter (λ x, x ≠ h) live)) |}) as Hothers.
  { intros k' id' Hk' Hg'. destruct (He k' id' Hg') as [Hne' Hid'].
    rewrite Hq, filter_absent.
    - split; [done|]. rewrite <- Hid'. unfold s1. cbn.
      rewrite !list_lookup_alter_ne; [done|..]; intros <-; by apply Hk', (Hi k' k id).
    - intros (x & Hx & <- & Htask)%queue_of_elem. apply Hk'. unfold k. f_equal.
      by apply (task_identifies live). }
  assert (NoDup (hd_task <$> filter (λ x, x ≠ h) live)) as Ht'.
  { eapply sublist_NoDup; [exact Ht|]. apply fmap_sublist, sublist_filter. }
  unfold hold_leave, mbind, M_bind, modify, get_st. cbn beta iota. fold s1. rewrite Hnew. cbn [le_users].
  destruct (queue_of k (filter (λ x, x ≠ h) live)) as [|t q] eqn:Hqueue.
  - rewrite decide_True by done. eexists. split; [reflexivity|].
    split; cbn [kr_entries set_entries kr_max_active_keys]; try done.
    + auto with gateway.
    + intros x [Hx Hxin]%list_elem_of_filter. rewrite d_get_pop. case_decide as Hkey; [|by apply Hh].
      exfalso. assert (hd_task x ∈ queue_of k (filter (λ x, x ≠ h) live)) as Hbad.
      { apply queue_of_elem. exists x. by rewrite list_elem_of_filter. }
      rewrite Hqueue in Hbad. by apply elem_of_nil in Hbad.
    + intros k' id'. change (kr_heap (set_entries _ s1)) with (kr_heap s1). rewrite d_get_pop.
      case_decide as Hkey; [done|]. intros Hg'. by apply Hothers.
    + intros k1 k2 id'. rewrite !d_get_pop. repeat case_decide; try done. apply Hi.
    + intros m Hm. destruct (Hb m Hm). split; [done|].
      eapply Z.le_trans; [apply inj_le, length_d_pop|done].
  - rewrite decide_False by (unfold len; cbn; lia). eexists. split; [reflexivity|].
    split; try done.
    + intros x [Hx Hxin]%list_elem_of_filter. by apply Hh.
    + intros k' id' Hg'. destruct (decide (k' = k)) as [->|Hk']; [|by apply Hothers].
      assert (id' = id) as -> by (cbn in Hg'; congruence). rewrite Hqueue. by split.
Qed.

Lemma lock_step_represents live s live' s' :
  represents live s → lock_step (live, s) (live', s') → represents live' s'.
Proof.
  intros Hr Hstep.
  inversion Hstep as [? ? k t id ? Ht Henter|? ? k t e ? Henter|? ? h ? Hin Hleave]; subst.
  - by apply (hold_enter_represents _ _ _ _ _ _ Hr Ht) in Henter.
  - rewrite hold_enter_run in Henter. destruct (d_get _ _); [done|]. case_decide; [|done].
    by injection Henter as _ <-.
  - destruct (hold_leave_represents _ _ _ Hr Hin) as (s1 & Hs1 & ?). congruence.
Qed.

(** The limit is set once. *)
Lemma lock_step_limit w w' : lock_step w w' → kr_max_active_keys w'.2 = kr_max_active_keys w.2.
Proof.
  intros [live s k t id s' _ H|live s k t e s' H|live s h s' _ H]; cbn.
  - rewrite hold_enter_run in H. destruct (d_get _ _); [by injection H as _ <-|].
    case_decide; [done|]. by injection H as _ <-.
  - rewrite hold_enter_run in H. destruct (d_get _ _); [done|]. case_decide; [|done]. by injection H as _ <-.
  - unfold hold_leave, mbind, M_bind, modify, get_st in H. cbn beta iota in H.
    destruct (_ !! _) as [entry|]; [case_decide|]; injection H as <-; reflexivity.
Qed.

Lemma reachable_represents m s0 w :
  new_registry m = Ok s0 → rtc lock_step ([], s0) w → represents w.1 w.2 ∧ kr_max_active_keys w.2 = m.
Proof.
  intros Hnew Hsteps. pattern w.
  refine (rtc_ind_r _ ([], s0) _ _ w Hsteps).
  - split; [by eapply new_registry_represents|]. unfold new_registry in Hnew.
    apply then_ok in Hnew as [_ [= <-]]. done.
  - intros [live1 s1] [live2 s2] _ Hstep [Hr Hm]. split; [by eapply lock_step_represents|].
    by rewrite (lock_step_limit _ _ Hstep).
Qed.

Lemma represents_has_lock live s h :
  represents live s → h ∈ live → has_lock s h ↔ head (queue_of (hd_key h) live) = Some (hd_task h).
Proof.
  intros Hr Hin. destruct (rp_entries _ _ Hr _ _ (rp_holds _ _ Hr h Hin)) as [Hne He].
  unfold has_lock. rewrite He. destruct (queue_of (hd_key h) live) as [|t q]; [done|]. cbn.
  split; [|by eauto]. intros (e & [= <-] & [= ->]). done.
Qed.

(** C30. Over any tasks that enter, leave and are cancelled in any order: a task has
    the lock of its key exactly when it came first of those that use the key, so
    that no two have it, and the next one is served when it leaves; a key is kept
    exactly as long as some task uses it; the keys in use stay within the limit,
    and a task is refused only for a new key at the limit. *)
Theorem keyed_locks_serve_in_order m s0 live s :
  new_registry m = Ok s0 → rtc lock_step ([], s0) (live, s) →
  (∀ h, h ∈ live → has_lock s h ↔ head (queue_of (hd_key h) live) = Some (hd_task h)) ∧
  (∀ k, k ∈ d_keys (kr_entries s) ↔ queue_of k live ≠ []) ∧
  (∀ limit, m = Some limit → active_key_count s ≤ limit) ∧
  (∀ k t e s', t ∉ hd_task <$> live → hold_enter k t s = (Err e, s') →
     e = KeyedLockCapacityError ∧ queue_of k live = [] ∧ ∃ limit, m = Some limit ∧ limit ≤ active_key_count s).
Proof.
  intros Hnew Hsteps.
  destruct (reachable_represents _ _ _ Hnew Hsteps) as [Hr <-]. cbn [fst snd] in *. split_and!.
  - intros h. by apply represents_has_lock.
  - intros k. rewrite <- d_get_keys. split.
    + intros [id Hid]. by apply (rp_entries _ _ Hr) in Hid as [? _].
    + destruct (queue_of k live) as [|t q] eqn:Hq; [done|]. intros _.
      assert (t ∈ queue_of k live) as (h & Hin & <- & _)%queue_of_elem by (rewrite Hq; by left).
      eexists. by apply (rp_holds _ _ Hr).
  - intros limit Hl. by apply (rp_bounded _ _ Hr) in Hl as [_ ?].
  - intros k t e s' Ht H. apply (hold_enter_represents _ _ _ _ _ _ Hr Ht) in H as (_ & -> & Hc & Hq).
    split_and!; [done..|]. unfold at_capacity in Hc. destruct (kr_max_active_keys s); [by eauto|done].
Qed.
End registry.
