(* ===== verification/Coordination.v ===== *)
(** The execution of delivery plans, [gateway/delivery/coordination.py]: bounded
    admission, one delivery per destination at a time, ordered sending with a
    bounded retry, and one receipt for the whole message. *)

From S2P Require Export DeliveryPlanning Concurrency.
From stdpp Require Import list sorting.
#[local] Open Scope Z_scope.
#[local] Open Scope stdpp_scope.

(** * Configuration *)

(** [gateway/delivery/coordination.py:57-66] DeliveryCoordinatorConfig *)
Record DeliveryCoordinatorConfig := {
  cf_max_pending : Z;
  cf_max_pending_per_destination : Z;
  cf_max_concurrent_destinations : Z;
  cf_max_source_items_per_delivery : Z;
  cf_max_segments_per_delivery : Z;
  cf_max_attempts : Z;
  cf_retry_initial_seconds : pyfloat;
  cf_retry_max_seconds : pyfloat;
  cf_backpressure_retry_after_seconds : pyfloat;
}.

(** [gateway/delivery/coordination.py:68-91] DeliveryCoordinatorConfig.__post_init__ *)
Definition validate_coordinator_config (c : DeliveryCoordinatorConfig) : res unit :=
  raise_if (cf_max_pending c < 1) ValueError ;;
  raise_if (cf_max_pending_per_destination c < 1) ValueError ;;
  raise_if (cf_max_concurrent_destinations c < 1) ValueError ;;
  raise_if (cf_max_source_items_per_delivery c < 1) ValueError ;;
  raise_if (cf_max_segments_per_delivery c < 1) ValueError ;;
  raise_if (cf_max_attempts c < 1) ValueError ;;
  raise_if (¬ isfinite (cf_retry_initial_seconds c) ∨ float_neg (cf_retry_initial_seconds c)) ValueError ;;
  raise_if (¬ isfinite (cf_retry_max_seconds c)) ValueError ;;
  raise_if (float_lt (cf_retry_max_seconds c) (cf_retry_initial_seconds c)) ValueError ;;
  raise_if (¬ isfinite (cf_backpressure_retry_after_seconds c)
            ∨ float_neg (cf_backpressure_retry_after_seconds c)) ValueError.

(** * One receipt from the receipts of the segments *)

(** [gateway/delivery/coordination.py:412-419] _item_status_from_receipt *)
Definition _item_status_from_receipt (status : DeliveryReceiptStatus) : DeliveryItemStatus :=
  match status with
  | ACCEPTED_BY_PLATFORM => ITEM_ACCEPTED
  | REJECTED_BY_PLATFORM => ITEM_REJECTED
  | RETRYABLE_FAILURE => ITEM_RETRYABLE_FAILURE
  | DELIVERY_UNKNOWN => ITEM_UNKNOWN
  end.

(** [gateway/delivery/coordination.py:422-423] _segment_status_from_receipt: the
    segment status of the same value *)
Definition _segment_status_from_receipt (status : DeliveryReceiptStatus) : DeliverySegmentStatus :=
  match status with
  | ACCEPTED_BY_PLATFORM => SEGMENT_ACCEPTED_BY_PLATFORM
  | REJECTED_BY_PLATFORM => SEGMENT_REJECTED_BY_PLATFORM
  | RETRYABLE_FAILURE => SEGMENT_RETRYABLE_FAILURE
  | DELIVERY_UNKNOWN => SEGMENT_UNKNOWN
  end.

(** [next(iter(s)) if len(s) == 1 else None], for the set of what is not [None]. *)
Definition the_only {A} `{EqDecision A} (l : list (option A)) : option A :=
  match remove_dups (omap id l) with [x] => Some x | _ => None end.

(** ["; ".join(dict.fromkeys(details))]. *)
Fixpoint join_details (details : list pystr) : pystr :=
  match details with
  | [] => []
  | [d] => d
  | d :: details' => d ++ py "; " ++ join_details details'
  end.
Definition distinct_in_order (l : list pystr) : list pystr := d_keys (d_of_list id (λ _, ()) l).

(** [gateway/delivery/coordination.py:426-464] _aggregate_item_outcomes *)
Definition _aggregate_item_outcomes (content_index : Z) (outcomes : list DeliveryItemReceipt)
    : DeliveryItemReceipt :=
  let statuses := remove_dups (di_status <$> outcomes) in
  let status :=
    if decide (statuses = [ITEM_ACCEPTED]) then ITEM_ACCEPTED
    else if decide (ITEM_ACCEPTED ∈ statuses) then ITEM_UNKNOWN
    else if decide (ITEM_UNKNOWN ∈ statuses) then ITEM_UNKNOWN
    else if decide (ITEM_RETRYABLE_FAILURE ∈ statuses) then ITEM_RETRYABLE_FAILURE
    else if decide (ITEM_REJECTED ∈ statuses) then ITEM_REJECTED
    else ITEM_SKIPPED in
  let details := filter (λ d, d ≠ []) (omap di_detail outcomes) in
  {| di_content_index := content_index;
     di_status := status;
     di_attachment_id := the_only (di_attachment_id <$> outcomes);
     di_native_message_id := the_only (di_native_message_id <$> outcomes);
     di_detail :=
       if decide (details ≠ []) then Some (join_details (distinct_in_order details))
       else if decide (1 < len statuses)
       then Some (py "source content spans segments with different outcomes")
       else None |}.

(** [gateway/delivery/coordination.py:467-491] _aggregate_detail *)
Definition _aggregate_detail (status : DeliveryReceiptStatus) (final_detail : option pystr)
    (accepted_before_failure all_segments_attempted : bool) (items : list DeliveryItemReceipt)
    : option pystr :=
  if decide (status = ACCEPTED_BY_PLATFORM) then
    if decide (all_segments_attempted = true ∧ Forall (λ i, di_status i = ITEM_ACCEPTED) items) then None
    else Some (py "delivery completed partially; inspect item and segment receipts")
  else if decide (default [] final_detail ≠ []) then final_detail
  else match status with
  | DELIVERY_UNKNOWN =>
      Some (if accepted_before_failure
            then py "delivery outcome is partial or ambiguous after an accepted prefix"
            else py "delivery outcome is unknown")
  | RETRYABLE_FAILURE => Some (py "delivery failed without acceptance and may be retried")
  | _ => Some (py "delivery was rejected by the platform")
  end.

(** [content.attachment_id if isinstance(content, AttachmentContent) else None]. *)
Definition content_attachment_id (c : Content) : option pystr :=
  match c with Attachment a => Some (ac_attachment_id a) | TextContent _ _ => None end.

(** [d.setdefault(k, []).append(x)]. *)
Definition d_append {V} (d : dict Z (list V)) (k : Z) (x : V) : dict Z (list V) :=
  d_set d k (default [] (d_get d k) ++ [x]).

(** What is known of the item at a local index of a segment. *)
Definition outcome_of : Type := Z → Z → Content → DeliveryItemReceipt.

(** [gateway/delivery/coordination.py:309-330] _aggregate_receipts: the items of a
    segment that was sent *)
Definition sent_outcome (receipt : DeliveryReceipt) : outcome_of := λ local_index source_index content,
  let native_item := d_get (d_of_list di_content_index id (dr_items receipt)) local_index in
  {| di_content_index := source_index;
     di_status := from_option di_status (_item_status_from_receipt (dr_status receipt)) native_item;
     di_attachment_id := content_attachment_id content;
     di_native_message_id := native_item ≫= di_native_message_id;
     di_detail := from_option di_detail (dr_detail receipt) native_item |}.

Definition not_attempted : pystr := py "not attempted after an earlier segment failed".

(** [gateway/delivery/coordination.py:343-356] _aggregate_receipts: the items of a
    segment that was not *)
Definition skipped_outcome : outcome_of := λ _ source_index content,
  {| di_content_index := source_index;
     di_status := ITEM_SKIPPED;
     di_attachment_id := content_attachment_id content;
     di_native_message_id := None;
     di_detail := Some not_attempted |}.

(** The loop over [enumerate(segment.source_content_indexes)]. *)
Fixpoint add_outcomes (outcome : outcome_of) (content : list Content) (local_index : nat)
    (source_content_indexes : list Z) (item_outcomes : dict Z (list DeliveryItemReceipt))
    : res (dict Z (list DeliveryItemReceipt)) :=
  match source_content_indexes with
  | [] => Ok item_outcomes
  | source_index :: rest =>
      match content !! local_index with
      | None => Err IndexError
      | Some c =>
          add_outcomes outcome content (S local_index) rest
            (d_append item_outcomes source_index (outcome (Z.of_nat local_index) source_index c))
      end
  end.

(** [gateway/delivery/coordination.py:331-341] _aggregate_receipts: the receipt of a
    segment that was sent *)
Definition sent_segment_receipt (segment : PlannedDeliverySegment) (receipt : DeliveryReceipt)
    : DeliverySegmentReceipt :=
  {| dg_segment_index := ps_segment_index segment;
     dg_delivery_id := om_delivery_id (ps_message segment);
     dg_source_content_indexes := ps_source_content_indexes segment;
     dg_status := _segment_status_from_receipt (dr_status receipt);
     dg_native_message_id := dr_native_message_id receipt;
     dg_detail := dr_detail receipt;
     dg_retry_after_seconds := dr_retry_after_seconds receipt |}.

(** [gateway/delivery/coordination.py:357-365] _aggregate_receipts: the receipt of a
    segment that was not *)
Definition skipped_segment_receipt (segment : PlannedDeliverySegment) : DeliverySegmentReceipt :=
  {| dg_segment_index := ps_segment_index segment;
     dg_delivery_id := om_delivery_id (ps_message segment);
     dg_source_content_indexes := ps_source_content_indexes segment;
     dg_status := SEGMENT_SKIPPED;
     dg_native_message_id := None;
     dg_detail := Some not_attempted;
     dg_retry_after_seconds := None |}.

(** A loop over segments, each with what is known of its items. *)
Fixpoint add_all_outcomes (segments : list (PlannedDeliverySegment * outcome_of))
    (item_outcomes : dict Z (list DeliveryItemReceipt)) : res (dict Z (list DeliveryItemReceipt)) :=
  match segments with
  | [] => Ok item_outcomes
  | (segment, outcome) :: rest =>
      item_outcomes ← add_outcomes outcome (om_content (ps_message segment)) 0
        (ps_source_content_indexes segment) item_outcomes ;
      add_all_outcomes rest item_outcomes
  end.

(** [gateway/delivery/coordination.py:370-390] _aggregate_receipts: the status *)
Definition aggregate_status (final_status : DeliveryReceiptStatus) (accepted_before_failure : bool)
    : DeliveryReceiptStatus :=
  match final_status with
  | DELIVERY_UNKNOWN => DELIVERY_UNKNOWN
  | RETRYABLE_FAILURE => if accepted_before_failure then DELIVERY_UNKNOWN else RETRYABLE_FAILURE
  | REJECTED_BY_PLATFORM => if accepted_before_failure then ACCEPTED_BY_PLATFORM else REJECTED_BY_PLATFORM
  | ACCEPTED_BY_PLATFORM => ACCEPTED_BY_PLATFORM
  end.

(** [gateway/delivery/coordination.py:301-409] _aggregate_receipts *)
Definition _aggregate_receipts (p : DeliveryPlan)
    (completed : list (PlannedDeliverySegment * DeliveryReceipt)) : res DeliveryReceipt :=
  let skipped := drop (length completed) (pl_segments p) in
  item_outcomes ← add_all_outcomes
    (((λ c, (c.1, sent_outcome c.2)) <$> completed) ++ ((λ s, (s, skipped_outcome)) <$> skipped)) [] ;
  let segment_receipts :=
    ((λ c, sent_segment_receipt c.1 c.2) <$> completed) ++ (skipped_segment_receipt <$> skipped) in
  let items := (λ index, _aggregate_item_outcomes index (default [] (d_get item_outcomes index)))
    <$> merge_sort Z.le (d_keys item_outcomes) in
  let receipts := completed.*2 in
  let accepted_before_failure :=
    existsb (λ r, bool_decide (dr_status r = ACCEPTED_BY_PLATFORM)) (removelast receipts) in
  match last receipts with
  | None => Err IndexError
  | Some final =>
      let status := aggregate_status (dr_status final) accepted_before_failure in
      Ok {|
        dr_status := status;
        dr_native_message_id :=
          match receipts with [only] => dr_native_message_id only | _ => None end;
        dr_detail := _aggregate_detail status (dr_detail final) accepted_before_failure
          (bool_decide (length receipts = length (pl_segments p))) items;
        dr_items := items;
        dr_segments := segment_receipts;
        dr_retry_after_seconds :=
          if decide (status = RETRYABLE_FAILURE) then dr_retry_after_seconds final else None |}
  end.

(** * Sending

    What sending does is logged: the messages given to the Channel with what came
    of each, and the waits between attempts. *)

Inductive delivery_event : Type :=
| Sent (message : OutboundMessage) (outcome : res DeliveryReceipt)
| Slept (delay : pyfloat).

(** The Channel and the event loop: the wait for an execution slot, which can only
    be cancelled, the outcome of [channel.send] and of [asyncio.sleep], each
    depending on all that was sent before; and [str(error) or type(error).__name__]. *)
Record delivery_env := {
  de_slot : list delivery_event → bool;
  de_send : list delivery_event → OutboundMessage → res DeliveryReceipt;
  de_sleep : list delivery_event → pyfloat → bool;
  de_error_text : exn → pystr;
}.

Section sending.
Context (env : delivery_env) (config : DeliveryCoordinatorConfig).

(** [async with self._execution_slots: receipt = await channel.send(message)]. *)
Definition channel_send (message : OutboundMessage) : M (list delivery_event) DeliveryReceipt :=
  log ← get_st ;
  raise_if (de_slot env log = false) CancelledError ;;
  modify (λ log, log ++ [Sent message (de_send env log message)]) ;;
  lift (de_send env log message).

(** [await asyncio.sleep(delay)]. *)
Definition sleep (delay : pyfloat) : M (list delivery_event) unit :=
  log ← get_st ;
  modify (λ log, log ++ [Slept delay]) ;;
  raise_if (de_sleep env log delay = false) CancelledError.

(** [gateway/delivery/coordination.py:293-296] _send_segment: the delay when the
    Channel asks for none; the power is converted to a float *)
Definition backoff (attempt : Z) : res pyfloat :=
  raise_if (1024 ≤ attempt - 1) OverflowError ;;
  Ok (float_min (float_scale (cf_retry_initial_seconds config) (2 ^ (attempt - 1)))
        (cf_retry_max_seconds config)).

Definition unknown_receipt (error : exn) : DeliveryReceipt := {|
  dr_status := DELIVERY_UNKNOWN; dr_native_message_id := None; dr_detail := Some (de_error_text env error);
  dr_items := []; dr_segments := []; dr_retry_after_seconds := None |}.

(** [gateway/delivery/coordination.py:264-270] _send_segment: the body of the [try] *)
Definition send_once (segment : PlannedDeliverySegment) : M (list delivery_event) DeliveryReceipt :=
  receipt ← channel_send (ps_message segment) ;
  lift (validate_delivery_receipt_for_content receipt (om_content (ps_message segment))) ;;
  mret receipt.

(** [gateway/delivery/coordination.py:263-298] _send_segment: the loop, from one
    attempt on.  Its length is what is left of [max_attempts]. *)
Fixpoint send_loop (fuel : nat) (attempt : Z) (segment : PlannedDeliverySegment)
    : M (list delivery_event) DeliveryReceipt :=
  match fuel with
  | O => mraise RecursionError
  | S fuel =>
      outcome ← mcatch (send_once segment) ;
      match outcome with
      | Err error =>
          if decide (error = KeyboardInterrupt ∨ error = SystemExit ∨ error = CancelledError)
          then mraise error else mret (unknown_receipt error)
      | Ok receipt =>
          if decide (dr_status receipt ≠ RETRYABLE_FAILURE ∨ cf_max_attempts config ≤ attempt)
          then mret receipt
          else match dr_retry_after_seconds receipt with
          | Some seconds =>
              if decide (float_lt (cf_retry_max_seconds config) seconds) then mret receipt
              else sleep seconds ;; send_loop fuel (attempt + 1) segment
          | None =>
              delay ← lift (backoff attempt) ;
              sleep delay ;; send_loop fuel (attempt + 1) segment
          end
      end
  end.

(** [gateway/delivery/coordination.py:257-298] DeliveryCoordinator._send_segment *)
Definition _send_segment (segment : PlannedDeliverySegment) : M (list delivery_event) DeliveryReceipt :=
  send_loop (Z.to_nat (cf_max_attempts config)) 1 segment.

(** [gateway/delivery/coordination.py:249-254] DeliveryCoordinator._execute: the loop *)
Fixpoint send_segments (completed : list (PlannedDeliverySegment * DeliveryReceipt))
    (segments : list PlannedDeliverySegment)
    : M (list delivery_event) (list (PlannedDeliverySegment * DeliveryReceipt)) :=
  match segments with
  | [] => mret completed
  | segment :: rest =>
      receipt ← _send_segment segment ;
      if decide (dr_status receipt ≠ ACCEPTED_BY_PLATFORM) then mret (completed ++ [(segment, receipt)])
      else send_segments (completed ++ [(segment, receipt)]) rest
  end.

(** [gateway/delivery/coordination.py:244-255] DeliveryCoordinator._execute *)
Definition _execute (p : DeliveryPlan) : M (list delivery_event) DeliveryReceipt :=
  completed ← send_segments [] (pl_segments p) ;
  lift (_aggregate_receipts p completed).

(** [gateway/delivery/coordination.py:116-128] DeliveryCoordinator.preflight *)
Definition preflight (profile : DeliveryProfile) (message : OutboundMessage) : res DeliveryPlan :=
  plan message profile (Some (cf_max_segments_per_delivery config))
    (Some (cf_max_source_items_per_delivery config)).

(** [gateway/delivery/coordination.py:130-135] DeliveryCoordinator.validate_source_item_count *)
Definition validate_source_item_count (count : Z) : res unit :=
  raise_if (cf_max_source_items_per_delivery config < count) DeliveryPlanningError.
End sending.

(** * The coordinator

    A submission runs in a task of its own.  A task that is cancelled before its
    first step never runs its body: [asyncio] throws the cancellation into a
    coroutine that has not begun. *)

Inductive task_phase : Type := Created | Begun (entry : nat).

Record delivery_task := {
  dt_number : nat;
  dt_plan : DeliveryPlan;
  dt_phase : task_phase;
}.

(** [gateway/delivery/coordination.py:94-110] DeliveryCoordinator: with the outcome of
    each future that is done *)
Record DeliveryCoordinator := {
  dc_config : DeliveryCoordinatorConfig;
  dc_destination_locks : KeyedLockRegistry ConversationRef;
  dc_pending : Z;
  dc_pending_by_destination : dict ConversationRef Z;
  dc_tasks : list delivery_task;
  dc_closed : bool;
  dc_created : nat;
  dc_futures : dict nat (res DeliveryReceipt);
}.

(** [gateway/delivery/coordination.py:97-110] DeliveryCoordinator.__init__ *)
Definition new_coordinator (config : DeliveryCoordinatorConfig) : res DeliveryCoordinator :=
  validate_coordinator_config config ;;
  locks ← new_registry None ;
  Ok {| dc_config := config; dc_destination_locks := locks; dc_pending := 0;
        dc_pending_by_destination := []; dc_tasks := []; dc_closed := false; dc_created := 0;
        dc_futures := [] |}.

Definition set_counts pending by_destination (s : DeliveryCoordinator) : DeliveryCoordinator :=
  {| dc_config := dc_config s; dc_destination_locks := dc_destination_locks s; dc_pending := pending;
     dc_pending_by_destination := by_destination; dc_tasks := dc_tasks s; dc_closed := dc_closed s;
     dc_created := dc_created s; dc_futures := dc_futures s |}.
Definition set_tasks tasks (s : DeliveryCoordinator) : DeliveryCoordinator :=
  {| dc_config := dc_config s; dc_destination_locks := dc_destination_locks s;
     dc_pending := dc_pending s; dc_pending_by_destination := dc_pending_by_destination s;
     dc_tasks := tasks; dc_closed := dc_closed s; dc_created := dc_created s; dc_futures := dc_futures s |}.
Definition set_created n (s : DeliveryCoordinator) : DeliveryCoordinator :=
  {| dc_config := dc_config s; dc_destination_locks := dc_destination_locks s;
     dc_pending := dc_pending s; dc_pending_by_destination := dc_pending_by_destination s;
     dc_tasks := dc_tasks s; dc_closed := dc_closed s; dc_created := n; dc_futures := dc_futures s |}.
Definition set_closed closed (s : DeliveryCoordinator) : DeliveryCoordinator :=
  {| dc_config := dc_config s; dc_destination_locks := dc_destination_locks s;
     dc_pending := dc_pending s; dc_pending_by_destination := dc_pending_by_destination s;
     dc_tasks := dc_tasks s; dc_closed := closed; dc_created := dc_created s; dc_futures := dc_futures s |}.
Definition set_futures futures (s : DeliveryCoordinator) : DeliveryCoordinator :=
  {| dc_config := dc_config s; dc_destination_locks := dc_destination_locks s;
     dc_pending := dc_pending s; dc_pending_by_destination := dc_pending_by_destination s;
     dc_tasks := dc_tasks s; dc_closed := dc_closed s; dc_created := dc_created s; dc_futures := futures |}.
Definition set_locks locks (s : DeliveryCoordinator) : DeliveryCoordinator :=
  {| dc_config := dc_config s; dc_destination_locks := locks;
     dc_pending := dc_pending s; dc_pending_by_destination := dc_pending_by_destination s;
     dc_tasks := dc_tasks s; dc_closed := dc_closed s; dc_created := dc_created s; dc_futures := dc_futures s |}.

Abbreviation CM := (M DeliveryCoordinator).
Definition on_locks {A} (m : M (KeyedLockRegistry ConversationRef) A) : CM A :=
  zoom dc_destination_locks set_locks m.

(** [gateway/delivery/coordination.py:217-226] DeliveryCoordinator._reserve *)
Definition _reserve (conversation_ref : ConversationRef) : CM bool :=
  s ← get_st ;
  let destination_pending := default 0 (d_get (dc_pending_by_destination s) conversation_ref) in
  if decide (cf_max_pending (dc_config s) ≤ dc_pending s
             ∨ cf_max_pending_per_destination (dc_config s) ≤ destination_pending)
  then mret false
  else
    modify (set_counts (dc_pending s + 1)
      (d_set (dc_pending_by_destination s) conversation_ref (destination_pending + 1))) ;;
    mret true.

(** [gateway/delivery/coordination.py:228-234] DeliveryCoordinator._release *)
Definition _release (conversation_ref : ConversationRef) : CM unit :=
  modify (λ s,
    let remaining := default 1 (d_get (dc_pending_by_destination s) conversation_ref) - 1 in
    set_counts (dc_pending s - 1)
      (if decide (0 < remaining)
       then d_set (dc_pending_by_destination s) conversation_ref remaining
       else d_pop (dc_pending_by_destination s) conversation_ref) s).

(** [gateway/delivery/coordination.py:236-242] DeliveryCoordinator._backpressure_receipt *)
Definition _backpressure_receipt (config : DeliveryCoordinatorConfig) : DeliveryReceipt := {|
  dr_status := RETRYABLE_FAILURE; dr_native_message_id := None;
  dr_detail := Some (py "delivery coordinator is at bounded capacity");
  dr_items := []; dr_segments := [];
  dr_retry_after_seconds := Some (cf_backpressure_retry_after_seconds config) |}.

(** [gateway/delivery/coordination.py:28-32] DeliveryHandle: a future that is done, or
    the number of the task and its future *)
Inductive DeliveryHandle : Type :=
| NotAdmitted (receipt : DeliveryReceipt)
| AdmittedTask (number : nat).

(** [gateway/delivery/coordination.py:144-173] DeliveryCoordinator.submit *)
Definition submit (profile : DeliveryProfile) (message : OutboundMessage) : CM DeliveryHandle :=
  s ← get_st ;
  raise_if (dc_closed s = true) RuntimeError ;;
  reserved ← _reserve (om_conversation_ref message) ;
  if decide (reserved = false) then mret (NotAdmitted (_backpressure_receipt (dc_config s)))
  else
    planned ← mcatch (lift (preflight (dc_config s) profile message)) ;
    match planned with
    | Err error => _release (om_conversation_ref message) ;; mraise error
    | Ok p =>
        s ← get_st ;
        modify (set_created (S (dc_created s))) ;;
        modify (set_tasks (dc_tasks s ++
          [{| dt_number := dc_created s; dt_plan := p; dt_phase := Created |}])) ;;
        mret (AdmittedTask (dc_created s))
    end.

Definition task_of (s : DeliveryCoordinator) (n : nat) : option delivery_task :=
  list_find (λ t, dt_number t = n) (dc_tasks s) ≫= λ x, Some x.2.
Definition without_task (n : nat) (tasks : list delivery_task) : list delivery_task :=
  filter (λ t, dt_number t ≠ n) tasks.

(** [gateway/delivery/coordination.py:202-203] DeliveryCoordinator._run_submission: its
    first step, which asks for the lock of the destination *)
Definition run_submission_begins (n : nat) : CM unit :=
  s ← get_st ;
  match task_of s n with
  | Some {| dt_plan := p; dt_phase := Created |} =>
      entry ← on_locks (hold_enter (pl_conversation_ref p) n) ;
      modify (set_tasks ((λ t, if decide (dt_number t = n)
        then {| dt_number := n; dt_plan := p; dt_phase := Begun entry |} else t) <$> dc_tasks s))
  | _ => mret ()
  end.

(** [gateway/delivery/coordination.py:204-215] DeliveryCoordinator._run_submission: the
    rest, for an outcome of [_execute] or a cancellation.  A future that is done
    keeps its outcome; the task is dropped when it is done. *)
Definition run_submission_ends (n : nat) (outcome : res DeliveryReceipt) : CM unit :=
  s ← get_st ;
  match task_of s n with
  | Some {| dt_plan := p; dt_phase := Begun entry |} =>
      on_locks (hold_leave (pl_conversation_ref p) entry n) ;;
      match d_get (dc_futures s) n with
      | None => modify (set_futures (d_set (dc_futures s) n outcome))
      | Some _ => mret ()
      end ;;
      _release (pl_conversation_ref p) ;;
      modify (set_tasks (without_task n (dc_tasks s)))
  | _ => mret ()
  end.

(** [task.cancel()] before the first step of the task: its body never runs. *)
Definition cancelled_before_begin (n : nat) : CM unit :=
  s ← get_st ;
  match task_of s n with
  | Some {| dt_phase := Created |} => modify (set_tasks (without_task n (dc_tasks s)))
  | _ => mret ()
  end.

(** [gateway/delivery/coordination.py:187-194] DeliveryCoordinator.close: its first
    step; then every task is cancelled and ends *)
Definition close_begins : CM unit := modify (set_closed true).

(** [gateway/delivery/coordination.py:137-142] DeliveryCoordinator.start *)
Definition start : CM unit :=
  s ← get_st ;
  raise_if (dc_pending s ≠ 0 ∨ dc_tasks s ≠ []) RuntimeError ;;
  modify (set_closed false).
