(* ===== verification/CoordinationTheorems.v ===== *)
(** What the execution of a delivery plan does to a Channel, and what its receipt
    says. *)

From S2P Require Export Coordination PlanningTheorems.
From Stdlib Require Import Qcanon.
From stdpp Require Import list sorting.
#[local] Open Scope Z_scope.
#[local] Open Scope stdpp_scope.

(** * Sending *)

(** A receipt the contract accepts for the content of a segment. *)
Definition receipt_for (segment : PlannedDeliverySegment) (receipt : DeliveryReceipt) : Prop :=
  validate_delivery_receipt_for_content receipt (om_content (ps_message segment)) = Ok ().

(** The exceptions that are passed on. *)
Definition passes_through (e : exn) : Prop :=
  e = KeyboardInterrupt ∨ e = SystemExit ∨ e = CancelledError.

Section sending.
Context (env : delivery_env) (config : DeliveryCoordinatorConfig).

(** A wait between two attempts: as long as the Channel asks, never longer than
    the configured maximum. *)
Definition waits (receipt : DeliveryReceipt) (delay : pyfloat) : Prop :=
  ¬ float_lt (cf_retry_max_seconds config) delay ∧
  ∀ seconds, dr_retry_after_seconds receipt = Some seconds → delay = seconds.

(** The deliveries a coordinator may do of what is left of a plan, with [n] more
    attempts at its first segment: it stops anywhere; it tries a segment again
    after a receipt without any evidence of acceptance and a wait; it goes on to
    the next segment after an acceptance. *)
Inductive delivery_run : nat → list PlannedDeliverySegment → list delivery_event → Prop :=
| run_stops n segments : delivery_run n segments []
| run_sends n segment segments outcome :
    delivery_run (S n) (segment :: segments) [Sent (ps_message segment) outcome]
| run_is_cancelled n segment segments receipt delay :
    dr_status receipt = RETRYABLE_FAILURE →
    delivery_run (S n) (segment :: segments) [Sent (ps_message segment) (Ok receipt); Slept delay]
| run_retries n segment segments receipt delay events :
    receipt_for segment receipt → dr_status receipt = RETRYABLE_FAILURE →
    ¬ acceptance_evidence receipt → waits receipt delay →
    delivery_run n (segment :: segments) events →
    delivery_run (S n) (segment :: segments) (Sent (ps_message segment) (Ok receipt) :: Slept delay :: events)
| run_goes_on n segment segments receipt events :
    receipt_for segment receipt → dr_status receipt = ACCEPTED_BY_PLATFORM →
    delivery_run (Z.to_nat (cf_max_attempts config)) segments events →
    delivery_run (S n) (segment :: segments) (Sent (ps_message segment) (Ok receipt) :: events).

(** What a segment that was tried gives: a receipt of the Channel, or the one for
    an outcome that cannot be known. *)
Definition segment_result (events : list delivery_event) (segment : PlannedDeliverySegment)
    (receipt : DeliveryReceipt) : Prop :=
  receipt_for segment receipt ∧ Sent (ps_message segment) (Ok receipt) ∈ events ∧
  (∃ log, de_send env log (ps_message segment) = Ok receipt) ∨
  ∃ e, receipt = unknown_receipt env e.

(** The Channel has not taken what was sent. *)
Definition harmless (event : delivery_event) : Prop :=
  match event with
  | Sent _ (Ok receipt) => dr_status receipt = RETRYABLE_FAILURE ∧ ¬ acceptance_evidence receipt
  | Sent _ (Err _) => False
  | Slept _ => True
  end.

Lemma float_min_bound a b : ¬ float_lt b (float_min a b).
Proof.
  unfold float_min. case_decide as H; [|done].
  destruct b; cbn; try tauto. intros Hlt. by apply Qclt_not_eq in Hlt.
Qed.

Lemma channel_send_run message log :
  channel_send env message log =
  if de_slot env log then (de_send env log message, log ++ [Sent message (de_send env log message)])
  else (Err CancelledError, log).
Proof.
  unfold channel_send, mbind, M_bind, get_st, modify, lift, raise_if. cbn beta iota.
  by destruct (de_slot env log).
Qed.

Lemma send_once_run segment log :
  send_once env segment log =
  if de_slot env log then
    (match de_send env log (ps_message segment) with
     | Ok receipt =>
         validate_delivery_receipt_for_content receipt (om_content (ps_message segment)) ;; Ok receipt
     | Err e => Err e
     end, log ++ [Sent (ps_message segment) (de_send env log (ps_message segment))])
  else (Err CancelledError, log).
Proof.
  unfold send_once, mbind, M_bind. rewrite channel_send_run. destruct (de_slot env log); [|done].
  destruct (de_send env log _) as [receipt|]; [|done]. unfold lift, res_bind.
  by destruct (validate_delivery_receipt_for_content _ _).
Qed.

Lemma sleep_run delay log :
  sleep env delay log =
  (if de_sleep env log delay then Ok () else Err CancelledError, log ++ [Slept delay]).
Proof.
  unfold sleep, mbind, M_bind, get_st, modify, raise_if. cbn beta iota. by destruct (de_sleep env log delay).
Qed.

Lemma backoff_bounded attempt delay :
  backoff config attempt = Ok delay → ¬ float_lt (cf_retry_max_seconds config) delay.
Proof. unfold backoff. rewrite then_ok. intros [_ [= <-]]. apply float_min_bound. Qed.

Definition may_raise (e : exn) : Prop :=
  passes_through e ∨ e = OverflowError ∧ 1024 < cf_max_attempts config.

(** What one segment's loop adds to the log. *)
Definition segment_sent (n : nat) (segment : PlannedDeliverySegment) (r : res DeliveryReceipt)
    (new : list delivery_event) : Prop :=
  (∀ rest, delivery_run n (segment :: rest) new) ∧
  match r with
  | Ok receipt => segment_result new segment receipt ∧
      (dr_status receipt = RETRYABLE_FAILURE → Forall harmless new) ∧
      (dr_status receipt = ACCEPTED_BY_PLATFORM → ∀ rest events,
         delivery_run (Z.to_nat (cf_max_attempts config)) rest events →
         delivery_run n (segment :: rest) (new ++ events))
  | Err e => may_raise e
  end.

Lemma receipt_for_harmless segment receipt :
  receipt_for segment receipt → dr_status receipt = RETRYABLE_FAILURE → ¬ acceptance_evidence receipt.
Proof.
  unfold receipt_for, validate_delivery_receipt_for_content. intros [Hv _]%then_ok.
  by apply retryable_receipt_has_no_acceptance_evidence.
Qed.

(** A wait after a receipt that permits another attempt. *)
Lemma segment_sent_again n segment receipt delay r new :
  receipt_for segment receipt → dr_status receipt = RETRYABLE_FAILURE → waits receipt delay →
  segment_sent n segment r new →
  segment_sent (S n) segment r (Sent (ps_message segment) (Ok receipt) :: Slept delay :: new).
Proof.
  intros Hv Hs Hw [Hrun Hr].
  pose proof (receipt_for_harmless _ _ Hv Hs) as Hno.
  split; [intros rest; by apply run_retries|]. destruct r as [receipt'|e]; [|done].
  destruct Hr as (Hres & Hharmless & Hgo). split_and!.
  - destruct Hres as [(? & ? & ?)|?]; [left; split_and!; [done|set_solver|done]|by right].
  - intros Hs'. repeat constructor; try done. by apply Hharmless.
  - intros Ha rest events Hev. cbn. apply run_retries; auto.
Qed.

Lemma send_loop_spec fuel attempt segment log :
  attempt + Z.of_nat fuel = cf_max_attempts config + 1 → fuel ≠ O →
  wp (send_loop env config fuel attempt segment)
    (λ r log', ∃ new, log' = log ++ new ∧ segment_sent fuel segment r new) log.
Proof.
  revert attempt log. induction fuel as [|fuel IH]; intros attempt log Hfuel Hne; [done|].
  cbn [send_loop]. apply wp_bind, wp_catch. unfold wp at 1. rewrite send_once_run.
  destruct (de_slot env log); cbn [fst snd].
  2: { apply wp_if; intros H; [|tauto]. apply wp_raise. exists []. rewrite app_nil_r. split; [done|].
       split; [intros; apply run_stops|left; exact H]. }
  set (outcome := de_send env log (ps_message segment)).
  assert (∀ r', segment_sent (S fuel) segment r' [Sent (ps_message segment) outcome] →
    ∃ new, log ++ [Sent (ps_message segment) outcome] = log ++ new ∧ segment_sent (S fuel) segment r' new)
    as Hlast by (intros r' H; eauto).
  assert (∀ e, wp (if decide (e = KeyboardInterrupt ∨ e = SystemExit ∨ e = CancelledError)
    then mraise e else mret (unknown_receipt env e)) (λ r' log', ∃ new, log' = log ++ new ∧
      segment_sent (S fuel) segment r' new) (log ++ [Sent (ps_message segment) outcome])) as Herror.
  { intros e. apply wp_if; intros He; apply wp_raise || apply wp_ret; apply Hlast;
      (split; [intros; apply run_sends|]).
    - left. exact He.
    - split_and!; [right; by exists e|done..]. }
  destruct outcome as [receipt|e] eqn:Houtcome; [|apply Herror].
  destruct (validate_delivery_receipt_for_content _ _) as [[]|e] eqn:Hv; cbn [mbind res_bind]; [|apply Herror].
  fold (receipt_for segment receipt) in Hv.
  assert (segment_sent (S fuel) segment (Ok receipt) [Sent (ps_message segment) (Ok receipt)]) as Hdone.
  { split; [intros; apply run_sends|]. split_and!.
    - left. split_and!; [done|set_solver|by exists log].
    - intros Hs. repeat constructor; [done|]. by eapply receipt_for_harmless.
    - intros Ha rest events Hev. by apply run_goes_on. }
  apply wp_if; intros Hstop; [apply wp_ret, Hlast, Hdone|].
  apply Decidable.not_or in Hstop as [Hs%dec_stable Hattempt].
  assert (∀ delay, waits receipt delay → wp (sleep env delay ;; send_loop env config fuel (attempt + 1) segment)
    (λ r' log', ∃ new, log' = log ++ new ∧ segment_sent (S fuel) segment r' new)
    (log ++ [Sent (ps_message segment) (Ok receipt)])) as Hagain.
  { intros delay Hw. apply wp_bind. unfold wp at 1. rewrite sleep_run. cbn [fst snd].
    destruct (de_sleep _ _ _).
    - eapply wp_mono; [apply IH; lia|]. intros r' log' (new & -> & Hnew). eexists.
      rewrite <- !app_assoc. split; [reflexivity|]. by apply segment_sent_again.
    - eexists. rewrite <- app_assoc. split; [reflexivity|]. split; [intros; by apply run_is_cancelled|].
      left. right. by right. }
  destruct (dr_retry_after_seconds receipt) as [seconds|] eqn:Hafter.
  - apply wp_if; intros Hlong; [apply wp_ret, Hlast, Hdone|]. apply Hagain. split; [done|]. congruence.
  - apply wp_bind_lift; intros x Hx.
    + apply Hagain. split; [by eapply backoff_bounded|congruence].
    + apply Hlast. split; [intros; apply run_sends|]. unfold backoff in Hx.
      apply res_bind_err in Hx as [Hx|(? & _ & [=])]. apply raise_if_err in Hx as [? ->]. right. split; [done|lia].
Qed.

(** ** All segments *)

(** The segments that were tried: the last one is the first that was not accepted,
    or the last of the plan. *)
Inductive tried (events : list delivery_event)
    : list PlannedDeliverySegment → list (PlannedDeliverySegment * DeliveryReceipt) → Prop :=
| tried_all : tried events [] []
| tried_last segment segments receipt :
    segment_result events segment receipt → dr_status receipt ≠ ACCEPTED_BY_PLATFORM →
    tried events (segment :: segments) [(segment, receipt)]
| tried_next segment segments receipt completed :
    segment_result events segment receipt → dr_status receipt = ACCEPTED_BY_PLATFORM →
    tried events segments completed → tried events (segment :: segments) ((segment, receipt) :: completed).

Lemma segment_result_mono events events' segment receipt :
  events ⊆ events' → segment_result events segment receipt → segment_result events' segment receipt.
Proof. intros Hsub [(? & ? & ?)|?]; [left; auto|by right]. Qed.

Lemma tried_mono events events' segments completed :
  events ⊆ events' → tried events segments completed → tried events' segments completed.
Proof. intros Hsub. induction 1; constructor; eauto using segment_result_mono. Qed.

Lemma send_segments_spec completed segments log :
  1 ≤ cf_max_attempts config →
  wp (send_segments env config completed segments) (λ r log', ∃ new,
    log' = log ++ new ∧ delivery_run (Z.to_nat (cf_max_attempts config)) segments new ∧
    match r with
    | Ok all => ∃ more, all = completed ++ more ∧ tried new segments more ∧
        ∀ segment receipt, more = [(segment, receipt)] → dr_status receipt = RETRYABLE_FAILURE →
          Forall harmless new
    | Err e => may_raise e
    end) log.
Proof.
  intros Hmax. revert completed log. induction segments as [|segment segments IH]; intros completed log;
    cbn [send_segments].
  { apply wp_ret. exists []. rewrite app_nil_r. split_and!; [done|constructor|]. exists [].
    rewrite app_nil_r. split_and!; [done|constructor|done]. }
  apply wp_bind. eapply wp_mono; [apply send_loop_spec; lia|].
  intros [receipt|e] log' (new & -> & Hrun & Hr); [|by eauto].
  destruct Hr as (Hres & Hharmless & Hgo). apply wp_if; intros Hs.
  - apply wp_ret. exists new. split_and!; [done|by apply Hrun|].
    exists [(segment, receipt)]. split_and!; [done|by constructor|].
    intros ? ? [= <- <-]. exact Hharmless.
  - apply dec_stable in Hs. eapply wp_mono; [apply IH|].
    intros r log'' (new' & -> & Hrun' & Hr'). exists (new ++ new'). rewrite app_assoc.
    split_and!; [done|by apply Hgo|]. destruct r as [all|e]; [|done].
    destruct Hr' as (more & -> & Hmore & _). exists ((segment, receipt) :: more).
    rewrite <- app_assoc. split_and!; [done| |].
    + apply tried_next; [eapply segment_result_mono; [|exact Hres]; set_solver|done|].
      eapply tried_mono; [|exact Hmore]. set_solver.
    + intros ? ? [= <- <- ->]. congruence.
Qed.
End sending.
