(* ===== verification/ReceiptTheorems.v ===== *)
(** The one receipt of a message, from the receipts of its segments: which items it
    reports, what it says of each, and that the delivery contract accepts it. *)

From S2P Require Export CoordinationTheorems.
From stdpp Require Import list sorting.
#[local] Open Scope Z_scope.
#[local] Open Scope stdpp_scope.

(** * The contract of a receipt, as a predicate *)

Definition optional_identifier (o : option pystr) : Prop := ∀ i, o = Some i → identifier i.

Definition item_ok (item : DeliveryItemReceipt) : Prop :=
  0 ≤ di_content_index item ∧
  (di_status item = ITEM_RETRYABLE_FAILURE → di_native_message_id item = None) ∧
  optional_identifier (di_attachment_id item) ∧ optional_identifier (di_native_message_id item).

Definition delay_ok (retryable : Prop) (delay : option pyfloat) : Prop :=
  ∀ seconds, delay = Some seconds → retryable ∧ isfinite seconds ∧ ¬ float_neg seconds.

Definition segment_ok (segment : DeliverySegmentReceipt) : Prop :=
  0 ≤ dg_segment_index segment ∧ identifier (dg_delivery_id segment) ∧
  dg_source_content_indexes segment ≠ [] ∧ NoDup (dg_source_content_indexes segment) ∧
  Forall (λ i, 0 ≤ i) (dg_source_content_indexes segment) ∧
  (dg_status segment = SEGMENT_RETRYABLE_FAILURE → dg_native_message_id segment = None) ∧
  delay_ok (dg_status segment = SEGMENT_RETRYABLE_FAILURE) (dg_retry_after_seconds segment) ∧
  optional_identifier (dg_native_message_id segment).

Lemma check_identifier o name :
  when_some o (λ i, require_identifier i name) = Ok () ↔ optional_identifier o.
Proof. rewrite when_some_ok. unfold optional_identifier. by setoid_rewrite require_identifier_ok. Qed.

Lemma check_delay (P : Prop) `{Decision P} o e1 e2 e3 :
  when_some o (λ s, raise_if (¬ P) e1 ;; raise_if (¬ isfinite s) e2 ;; raise_if (float_neg s) e3) = Ok ()
  ↔ delay_ok P o.
Proof.
  rewrite when_some_ok. unfold delay_ok. apply forall_proper. intros s.
  rewrite !then_ok, !raise_if_ok. split; intros H' Hs; specialize (H' Hs).
  - destruct H' as (H1 & H2 & H3). split_and!; [by apply dec_stable..|done].
  - tauto.
Qed.

Lemma none_unless {A} (P : Prop) (o : option A) : ¬ (P ∧ is_Some o) ↔ (P → o = None).
Proof. rewrite eq_None_not_Some. tauto. Qed.

Lemma validate_receipt_items_iff seen items :
  validate_receipt_items seen items = Ok () ↔
  NoDup (di_content_index <$> items) ∧ Forall (λ i, item_ok i ∧ di_content_index i ∉ seen) items.
Proof.
  revert seen. induction items as [|item items IH]; intros seen; cbn [validate_receipt_items].
  { split; [|done]. split; constructor. }
  rewrite !then_ok, !raise_if_ok, !check_identifier, IH, none_unless, fmap_cons, NoDup_cons, Forall_cons.
  unfold item_ok. rewrite list_elem_of_fmap, !Forall_forall. split.
  - intros (H1 & H2 & H3 & H4 & H5 & Hnd & Hall). split_and!; try done; [|lia|].
    + intros (x & Hx & Hin). destruct (Hall x Hin) as [_ Hn]. set_solver.
    + intros x Hin. destruct (Hall x Hin). split; [done|set_solver].
  - intros ((Hni & Hnd) & ((H1 & H2 & H3 & H4) & H5) & Hall). split_and!; try done; [lia|].
    intros x Hin. destruct (Hall x Hin). split; [done|]. rewrite elem_of_cons. intros [Heq|?]; [|done].
    apply Hni. eauto.
Qed.

Lemma no_negative (l : list Z) : ¬ Exists (λ i, i < 0) l ↔ Forall (λ i, 0 ≤ i) l.
Proof. rewrite <- Forall_Exists_neg. apply Forall_proper; [intros i; lia|done]. Qed.

Lemma all_distinct_false (l : list Z) : ¬ (all_distinct l = false) ↔ NoDup l.
Proof. unfold all_distinct. rewrite bool_decide_eq_false. split; [apply dec_stable|tauto]. Qed.

Lemma validate_receipt_segments_iff seen ids segments :
  validate_receipt_segments seen ids segments = Ok () ↔
  NoDup (dg_segment_index <$> segments) ∧ NoDup (dg_delivery_id <$> segments) ∧
  Forall (λ s, segment_ok s ∧ dg_segment_index s ∉ seen ∧ dg_delivery_id s ∉ ids) segments.
Proof.
  revert seen ids. induction segments as [|s segments IH]; intros seen ids; cbn [validate_receipt_segments].
  { split; [|done]. intros _. split_and!; constructor. }
  rewrite !then_ok, !raise_if_ok, check_delay, check_identifier, require_identifier_ok, IH, none_unless,
    no_negative, all_distinct_false, !fmap_cons, !NoDup_cons, Forall_cons, !list_elem_of_fmap, !Forall_forall.
  unfold segment_ok. split.
  - intros (H1 & H2 & H3 & H4 & H5 & H6 & H7 & H8 & H9 & H10 & Hi & Hd & Hall).
    split_and!; try done; [|..|].
    + intros (x & Hx & Hin). destruct (Hall x Hin) as (_ & Hn & _). apply Hn. rewrite <- Hx. by left.
    + intros (x & Hx & Hin). destruct (Hall x Hin) as (_ & _ & Hn). apply Hn. rewrite <- Hx. by left.
    + lia.
    + by apply Forall_forall.
    + intros x Hin. destruct (Hall x Hin) as (? & Hn1 & Hn2). split; [done|].
      split; intros ?; [apply Hn1|apply Hn2]; by right.
  - intros ((Hni & Hi) & (Hnd & Hd) & ((H1 & H2 & H3 & H4 & H5 & H6 & H7 & H8) & H9 & H10) & Hall).
    rewrite Forall_forall in H5. split_and!; try done; [lia|].
    intros x Hin. destruct (Hall x Hin) as (? & Hn1 & Hn2). split; [done|]. rewrite !elem_of_cons.
    split; (intros [Heq|?]; [|done]); [apply Hni|apply Hnd]; eauto.
Qed.

(** What the contract asks of a receipt for some content. *)
Record receipt_ok (content : list Content) (receipt : DeliveryReceipt) : Prop := {
  ro_delay : delay_ok (dr_status receipt = RETRYABLE_FAILURE) (dr_retry_after_seconds receipt);
  ro_native : optional_identifier (dr_native_message_id receipt);
  ro_items_distinct : NoDup (di_content_index <$> dr_items receipt);
  ro_items : Forall item_ok (dr_items receipt);
  ro_segments_distinct : NoDup (dg_segment_index <$> dr_segments receipt);
  ro_segment_ids : NoDup (dg_delivery_id <$> dr_segments receipt);
  ro_segments : Forall segment_ok (dr_segments receipt);
  ro_retryable : dr_status receipt = RETRYABLE_FAILURE → ¬ acceptance_evidence receipt;
  ro_item_content : Forall (λ item, ∃ c, content !! Z.to_nat (di_content_index item) = Some c ∧
    ∀ i, di_attachment_id item = Some i → content_attachment_id c = Some i) (dr_items receipt);
  ro_segment_content : Forall (λ s, Forall (λ i, i < len content) (dg_source_content_indexes s))
    (dr_segments receipt);
}.

Lemma receipt_ok_iff content receipt :
  validate_delivery_receipt_for_content receipt content = Ok () ↔ receipt_ok content receipt.
Proof.
  split.
  - intros Hv.
    pose proof Hv as Hvalid. unfold validate_delivery_receipt_for_content in Hvalid.
    rewrite !then_ok, !for_each_ok in Hvalid. destruct Hvalid as (Hvalid & Hitems & Hsegments).
    pose proof Hvalid as Hparts. unfold validate_delivery_receipt in Hparts.
    rewrite !then_ok, check_delay, check_identifier, validate_receipt_items_iff,
      validate_receipt_segments_iff in Hparts.
    destruct Hparts as (H1 & H2 & (H3 & H4) & (H5 & H6 & H7) & _).
    assert (Forall item_ok (dr_items receipt)) as H4' by (eapply Forall_impl; [exact H4|]; by intros ? [? _]).
    split; try done.
    + eapply Forall_impl; [exact H7|]. by intros ? [? _].
    + by apply retryable_receipt_has_no_acceptance_evidence.
    + rewrite Forall_forall in *. intros item Hin. specialize (Hitems item Hin).
      rewrite then_ok, raise_if_ok in Hitems. destruct Hitems as [Hlt Hatt].
      destruct (H4' item Hin) as [Hpos _].
      destruct (lookup_lt_is_Some_2 content (Z.to_nat (di_content_index item))) as [c Hc].
      { unfold len in Hlt. lia. }
      exists c. split; [done|]. intros i Hi. rewrite Hi, Hc in Hatt. destruct c as [|a]; [done|].
      apply raise_if_ok, dec_stable in Hatt. by rewrite Hatt.
    + eapply Forall_impl; [exact Hsegments|]. intros s. cbn. rewrite raise_if_ok, <- Forall_Exists_neg.
      intros Hs. eapply Forall_impl; [exact Hs|]. intros i. cbn. lia.
  - intros [H1 H2 H3 H4 H5 H6 H7 H8 H9 H10]. unfold validate_delivery_receipt_for_content.
    rewrite !then_ok, !for_each_ok. split_and!.
    + unfold validate_delivery_receipt.
      rewrite !then_ok, check_delay, check_identifier, validate_receipt_items_iff,
        validate_receipt_segments_iff. split_and!; try done.
      * eapply Forall_impl; [exact H4|]. intros. split; [done|]. set_solver.
      * eapply Forall_impl; [exact H7|]. intros. split_and!; [done|set_solver..].
      * case_decide as Hs; [|done]. specialize (H8 Hs). unfold acceptance_evidence in H8.
        rewrite !then_ok, !raise_if_ok, !Exists_exists. rewrite !Exists_exists in H8. split_and!; naive_solver.
    + rewrite Forall_forall in *. intros item Hin. destruct (H9 item Hin) as (c & Hc & Hi).
      destruct (H4 item Hin) as [Hpos _]. rewrite then_ok, raise_if_ok. split.
      * apply lookup_lt_Some in Hc. unfold len. lia.
      * rewrite Hc. destruct (di_attachment_id item) as [i|]; [|done]. specialize (Hi i eq_refl).
        destruct c as [|a]; [done|]. apply raise_if_ok. injection Hi as ->. tauto.
    + eapply Forall_impl; [exact H10|]. intros s Hs. rewrite raise_if_ok, <- Forall_Exists_neg.
      eapply Forall_impl; [exact Hs|]. intros i. cbn. lia.
Qed.

(** * Dictionaries of lists *)

Definition append_all {V} (d : dict Z (list V)) (l : list (Z * V)) : dict Z (list V) :=
  foldl (λ d x, d_append d x.1 x.2) d l.

Section append_all.
Context {V : Type}.
Implicit Types (d : dict Z (list V)) (l : list (Z * V)).

Lemma append_all_cons d x l : append_all d (x :: l) = append_all (d_append d x.1 x.2) l.
Proof. done. Qed.

Lemma append_all_app d l l' : append_all d (l ++ l') = append_all (append_all d l) l'.
Proof. unfold append_all. apply foldl_app. Qed.

Lemma append_all_get d l k :
  default [] (d_get (append_all d l) k) = default [] (d_get d k) ++ (filter (λ x, x.1 = k) l).*2.
Proof.
  revert d. induction l as [|[i v] l IH]; intros d; [by rewrite app_nil_r|].
  rewrite append_all_cons, IH. cbn [fst snd]. unfold d_append. rewrite d_get_set.
  rewrite filter_cons. cbn [fst snd]. case_decide as Hi; [subst|done]. rewrite fmap_cons. cbn. by rewrite <- app_assoc.
Qed.

Lemma append_all_keys d l k : k ∈ d_keys (append_all d l) ↔ k ∈ d_keys d ∨ k ∈ l.*1.
Proof.
  revert d. induction l as [|[i v] l IH]; intros d; [set_solver|].
  rewrite append_all_cons, IH. cbn [fst snd]. unfold d_append.
  rewrite fmap_cons, d_keys_set. cbn [fst]. case_decide; set_solver.
Qed.

Lemma append_all_well_formed d l : well_formed d → well_formed (append_all d l).
Proof.
  revert d. induction l as [|[i v] l IH]; intros d Hd; [done|]. apply IH. unfold d_append. auto with gateway.
Qed.
End append_all.

(** * The items of the aggregate *)

(** The items of a segment, with the index of each in the message. *)
Definition occurrences (part : list Content * list Z) : list (Z * Content) := zip part.2 part.1.

(** What is known of each item of a segment. *)
Definition segment_outcomes (x : PlannedDeliverySegment * outcome_of) : list (Z * DeliveryItemReceipt) :=
  imap (λ j o, (o.1, x.2 (Z.of_nat j) o.1 o.2)) (occurrences (segment_part x.1)).

Definition whole (segment : PlannedDeliverySegment) : Prop :=
  length (om_content (ps_message segment)) = length (ps_source_content_indexes segment).

Lemma add_outcomes_ok outcome content j indexes d :
  (length content = j + length indexes)%nat →
  add_outcomes outcome content j indexes d =
  Ok (append_all d (imap (λ k o, (o.1, outcome (Z.of_nat (j + k)) o.1 o.2)) (zip indexes (drop j content)))).
Proof.
  revert j d. induction indexes as [|i indexes IH]; intros j d Hl; [done|]. cbn [add_outcomes length] in *.
  destruct (lookup_lt_is_Some_2 content j) as [c Hc]; [lia|]. rewrite Hc.
  rewrite (drop_S _ _ _ Hc). cbn [zip zip_with imap]. rewrite IH, append_all_cons, Nat.add_0_r by lia.
  do 2 f_equal. apply imap_ext. intros k o _. cbn. do 3 f_equal. lia.
Qed.

Lemma add_all_outcomes_ok segments d :
  Forall (λ x, whole x.1) segments →
  add_all_outcomes segments d = Ok (append_all d (concat (segment_outcomes <$> segments))).
Proof.
  intros H. revert d. induction H as [|[segment outcome] segments Hw _ IH]; intros d; [done|].
  cbn [add_all_outcomes]. rewrite add_outcomes_ok by exact Hw. cbn [mbind res_bind]. rewrite IH.
  rewrite fmap_cons. cbn [concat]. by rewrite append_all_app.
Qed.

Lemma seqZ_sorted m n : Sorted Z.le (seqZ m (Z.of_nat n)).
Proof.
  revert m. induction n as [|n IH]; intros m; [constructor|].
  rewrite seqZ_cons by lia. replace (Z.pred (Z.of_nat (S n))) with (Z.of_nat n) by lia.
  constructor; [apply IH|]. destruct n as [|n]; [constructor|]. rewrite seqZ_cons by lia. constructor. lia.
Qed.

(** A sorted list of the indexes below [n], without repetition, is all of them. *)
Lemma sorted_indexes n (l : list Z) :
  NoDup l → (∀ i, i ∈ l ↔ 0 ≤ i < Z.of_nat n) → merge_sort Z.le l = seqZ 0 (Z.of_nat n).
Proof.
  intros Hnd Hl. apply (Sorted_unique Z.le); [apply (Sorted_merge_sort Z.le)|apply seqZ_sorted|].
  rewrite merge_sort_Permutation. apply NoDup_Permutation; [done|apply NoDup_seqZ|].
  intros i. rewrite Hl, elem_of_seqZ. lia.
Qed.

(** ** What a plan is to its message *)

Lemma enumerate_elem k content i c :
  (i, c) ∈ enumerate k content ↔ ∃ n : nat, i = k + Z.of_nat n ∧ content !! n = Some c.
Proof.
  revert k. induction content as [|c' content IH]; intros k; cbn [enumerate].
  - split; [set_solver|]. intros (n & _ & H). by rewrite lookup_nil in H.
  - rewrite elem_of_cons, IH. split.
    + intros [[= -> ->]|(n & -> & H)]; [exists 0%nat; split; [lia|done]|exists (S n); split; [lia|done]].
    + intros ([|n] & -> & H); [left; injection H as ->; f_equal; lia|right; exists n; split; [lia|done]].
Qed.

Lemma enumerate_indexes k content : (enumerate k content).*1 = seqZ k (len content).
Proof.
  revert k. induction content as [|c content IH]; intros k; [done|].
  cbn [enumerate]. rewrite fmap_cons, IH. unfold len. rewrite (seqZ_cons k) by (cbn; lia).
  cbn [fst]. f_equal. f_equal; cbn; lia.
Qed.

(** One item of the message shown as another: a text by a text, an attachment by itself. *)
Definition shows (c shown : Content) : Prop :=
  content_attachment_id c = content_attachment_id shown.

(** The parts of a plan: each has one source for each of its items, and they show
    the items they are said to show, all of them. *)
Record covers (items : list (Z * Content)) (parts : list (list Content * list Z)) : Prop := {
  cv_whole : Forall (λ p, length p.1 = length p.2 ∧ p.2 ≠ [] ∧ p.2 ⊆ items.*1 ∧
    (NoDup items.*1 → NoDup p.2)) parts;
  cv_all i : i ∈ items.*1 ↔ ∃ p, p ∈ parts ∧ i ∈ p.2;
  cv_shown i c p : p ∈ parts → (i, c) ∈ occurrences p → ∃ c0, (i, c0) ∈ items ∧ shows c0 c;
}.

Lemma covers_app items items' parts parts' :
  covers items parts → covers items' parts' → covers (items ++ items') (parts ++ parts').
Proof.
  intros [H1 H2 H3] [H1' H2' H3']. split.
  - apply Forall_app. rewrite fmap_app. split; (eapply Forall_impl; [exact H1 || exact H1'|]);
      intros p (? & ? & ? & Hn); (split_and!; [done|done|set_solver|]);
      intros (? & _ & ?)%NoDup_app; auto.
  - intros i. rewrite fmap_app, elem_of_app, H2, H2'. set_solver.
  - intros i c p [Hp|Hp]%elem_of_app Ho; [destruct (H3 _ _ _ Hp Ho) as (c0 & ? & ?)|
      destruct (H3' _ _ _ Hp Ho) as (c0 & ? & ?)]; exists c0; set_solver.
Qed.

Lemma carries_covers profile items parts : carries profile items parts → covers items parts.
Proof.
  induction 1 as [|i text format shown shown_format chunks content parts _ Hform _ _ IH|group content parts Hg _ IH].
  - split; [constructor|set_solver|set_solver].
  - apply (covers_app [_]); [|done].
    assert (chunks ≠ []) as Hne by (destruct Hform as [->|Hs]; [done|by inversion Hs]).
    split.
    + apply Forall_fmap, Forall_true. intros chunk. cbn. split_and!; [done|done|set_solver|done].
    + intros j. cbn. split.
      * intros ->%list_elem_of_singleton. destruct chunks as [|chunk chunks]; [done|].
        exists ([TextContent chunk shown_format], [i]). split; [left|set_solver].
      * intros (p & (chunk & -> & _)%list_elem_of_fmap & Hj). exact Hj.
    + intros j c p (chunk & -> & _)%list_elem_of_fmap. cbn. intros [= -> ->]%list_elem_of_singleton.
      eexists. split; [by apply list_elem_of_singleton|done].
  - apply covers_app with (parts := [_]); [|done]. destruct Hg as [Hne _].
    assert ((as_content <$> group).*1 = group.*1) as Hfst by (rewrite <- list_fmap_compose; done).
    split.
    + apply Forall_singleton. cbn. rewrite !length_fmap, Hfst.
      split_and!; [done|by destruct group|done|done].
    + intros j. rewrite Hfst. split; [intros Hj; eexists; split; [by left|done]|].
      by intros (p & ->%list_elem_of_singleton & Hj).
    + intros j c p ->%list_elem_of_singleton. unfold occurrences. cbn. intros Hj.
      assert ((j, c) ∈ as_content <$> group) as Hin.
      { clear -Hj. induction group as [|a group IH]; [done|]. cbn in *.
        apply elem_of_cons in Hj as [[= -> ->]|Hj]; [by left|right; auto]. }
      exists c. done.
Qed.

(** * The aggregate *)

Lemma tried_prefix env events segments completed :
  tried env events segments completed → completed.*1 ++ drop (length completed) segments = segments.
Proof. induction 1; [done|done|]. cbn. by f_equal. Qed.

Lemma tried_last_receipt env events segments completed :
  tried env events segments completed → segments ≠ [] → is_Some (last completed.*2).
Proof.
  induction 1 as [|?|segment segments receipt completed _ _ Ht IH]; [done|done|]. intros _.
  rewrite fmap_cons. destruct completed as [|[]]; [done|]. cbn in *. apply IH. by inversion Ht.
Qed.

Lemma tried_result env events segments completed segment receipt :
  tried env events segments completed → (segment, receipt) ∈ completed →
  segment_result env events segment receipt.
Proof.
  induction 1 as [|s segments r Hr Hs|s segments r completed Hr Hs Ht IH].
  - by intros ?%elem_of_nil.
  - by intros [= -> ->]%list_elem_of_singleton.
  - intros [[= -> ->]|?]%elem_of_cons; auto.
Qed.

(** All but the last were accepted. *)
Lemma tried_accepted env events segments completed :
  tried env events segments completed →
  Forall (λ r, dr_status r = ACCEPTED_BY_PLATFORM) (removelast completed.*2).
Proof.
  induction 1 as [|s segments r Hr Hs|s segments r completed Hr Hs Ht IH]; [constructor..|].
  rewrite fmap_cons. cbn [snd]. destruct completed.*2; [constructor|by constructor].
Qed.

Lemma segment_result_ok env events segment receipt :
  segment_result env events segment receipt → receipt_ok (om_content (ps_message segment)) receipt.
Proof.
  intros [(Hv & _)|[e ->]]; apply receipt_ok_iff; [exact Hv|done].
Qed.

Lemma native_item_elem items j item :
  NoDup (di_content_index <$> items) → d_get (d_of_list di_content_index id items) j = Some item →
  item ∈ items ∧ di_content_index item = j.
Proof.
  intros Hnd. rewrite d_of_list_distinct by done. intros Hin%d_get_elem.
  apply list_elem_of_fmap in Hin as (x & [= -> ->] & Hin). done.
Qed.

(** ** One item *)

Lemma the_only_elem {A} `{EqDecision A} (l : list (option A)) x : the_only l = Some x → Some x ∈ l.
Proof.
  unfold the_only. intros H. assert (x ∈ remove_dups (omap id l)) as Hx.
  { destruct (remove_dups _) as [|y [|]]; [done| |done]. injection H as ->. by left. }
  apply elem_of_remove_dups, list_elem_of_omap in Hx as (o & Ho & Hx). by cbn in Hx; subst o.
Qed.

Lemma aggregate_item_attachment i os a :
  di_attachment_id (_aggregate_item_outcomes i os) = Some a → ∃ o, o ∈ os ∧ di_attachment_id o = Some a.
Proof. intros H%the_only_elem. apply list_elem_of_fmap in H as (o & ? & ?). eauto. Qed.

Lemma aggregate_item_native i os n :
  di_native_message_id (_aggregate_item_outcomes i os) = Some n →
  ∃ o, o ∈ os ∧ di_native_message_id o = Some n.
Proof. intros H%the_only_elem. apply list_elem_of_fmap in H as (o & ? & ?). eauto. Qed.

(** An item is accepted only if every part of it is, and what it is otherwise. *)
Lemma aggregate_item_status i os :
  match di_status (_aggregate_item_outcomes i os) with
  | ITEM_ACCEPTED => Forall (λ o, di_status o = ITEM_ACCEPTED) os
  | ITEM_UNKNOWN => Exists (λ o, di_status o = ITEM_ACCEPTED ∨ di_status o = ITEM_UNKNOWN) os
  | _ => Forall (λ o, di_status o ≠ ITEM_ACCEPTED ∧ di_status o ≠ ITEM_UNKNOWN) os
  end.
Proof.
  assert (∀ s, s ∈ remove_dups (di_status <$> os) ↔ ∃ o, o ∈ os ∧ di_status o = s) as Hs.
  { intros s. rewrite elem_of_remove_dups, list_elem_of_fmap. naive_solver. }
  cbn [di_status _aggregate_item_outcomes].
  case_decide as H1; [|case_decide as H2; [|case_decide as H3; [|repeat case_decide]]].
  - apply Forall_forall. intros o Ho. specialize (Hs (di_status o)). rewrite H1 in Hs.
    apply list_elem_of_singleton, Hs. eauto.
  - apply Hs in H2 as (o & ? & ?). apply Exists_exists. eauto.
  - apply Hs in H3 as (o & ? & ?). apply Exists_exists. eauto.
  - apply Forall_forall. intros o Ho. split; intros He; [apply H2|apply H3]; apply Hs; eauto.
  - apply Forall_forall. intros o Ho. split; intros He; [apply H2|apply H3]; apply Hs; eauto.
  - apply Forall_forall. intros o Ho. split; intros He; [apply H2|apply H3]; apply Hs; eauto.
Qed.

Section aggregate.
Context (env : delivery_env) (events : list delivery_event) (p : DeliveryPlan) (content : list Content)
  (completed : list (PlannedDeliverySegment * DeliveryReceipt)).
Hypothesis Hcovers : covers (enumerate 0 content) (segment_part <$> pl_segments p).
Hypothesis Htried : tried env events (pl_segments p) completed.
Hypothesis Hcontent : content ≠ [].

Definition skipped : list PlannedDeliverySegment := drop (length completed) (pl_segments p).
Definition account : list (PlannedDeliverySegment * outcome_of) :=
  ((λ c, (c.1, sent_outcome c.2)) <$> completed) ++ ((λ s, (s, skipped_outcome)) <$> skipped).
(** All that is known of each item, segment by segment. *)
Definition outcomes : list (Z * DeliveryItemReceipt) := concat (segment_outcomes <$> account).
Definition outcomes_at (i : Z) : list DeliveryItemReceipt := (filter (λ o, o.1 = i) outcomes).*2.

Lemma account_segments : account.*1 = pl_segments p.
Proof.
  transitivity (completed.*1 ++ skipped); [|by eapply tried_prefix].
  unfold account. rewrite fmap_app, <- !list_fmap_compose. f_equal. apply list_fmap_id.
Qed.

Lemma account_elem segment outcome :
  (segment, outcome) ∈ account → segment ∈ pl_segments p ∧
  ((∃ receipt, (segment, receipt) ∈ completed ∧ outcome = sent_outcome receipt) ∨
   segment ∈ skipped ∧ outcome = skipped_outcome).
Proof.
  intros Hin. split; [rewrite <- account_segments; by apply (list_elem_of_fmap_2 fst) in Hin|].
  unfold account in Hin. apply elem_of_app in Hin as [([s r] & [= -> ->] & ?)%list_elem_of_fmap|
    (s & [= -> ->] & ?)%list_elem_of_fmap]; [left|right]; eauto.
Qed.

Lemma segment_in_plan segment :
  segment ∈ pl_segments p → whole segment ∧ ps_source_content_indexes segment ≠ [] ∧
  (∀ i, i ∈ ps_source_content_indexes segment → 0 ≤ i < len content) ∧
  NoDup (ps_source_content_indexes segment).
Proof.
  intros Hin. pose proof (cv_whole _ _ Hcovers) as Hw. rewrite Forall_forall in Hw.
  destruct (Hw (segment_part segment)) as (H1 & H2 & H3 & H4); [by apply list_elem_of_fmap_2|].
  rewrite enumerate_indexes in H3, H4. split_and!; [done|done| |apply H4, NoDup_seqZ].
  intros i Hi. apply H3, elem_of_seqZ in Hi. lia.
Qed.

Lemma all_whole : Forall (λ x, whole x.1) account.
Proof.
  apply Forall_forall. intros [segment outcome] [Hin _]%account_elem.
  by apply segment_in_plan in Hin as [? _].
Qed.

(** An outcome of an item is from a segment that shows it. *)
Lemma outcomes_elem i o :
  (i, o) ∈ outcomes ↔ ∃ segment outcome j c, (segment, outcome) ∈ account ∧
    occurrences (segment_part segment) !! j = Some (i, c) ∧ o = outcome (Z.of_nat j) i c.
Proof.
  unfold outcomes. rewrite list_elem_of_In, in_concat. split.
  - intros (l & Hl & Ho). apply list_elem_of_In in Hl, Ho.
    apply list_elem_of_fmap in Hl as ([segment outcome] & -> & Hin).
    unfold segment_outcomes in Ho. apply elem_of_lookup_imap in Ho as (j & [i' c] & [= -> ->] & Hj). eauto 10.
  - intros (segment & outcome & j & c & Hin & Hj & ->). exists (segment_outcomes (segment, outcome)).
    rewrite <- !list_elem_of_In. split; [by apply list_elem_of_fmap_2|].
    apply elem_of_lookup_imap. by exists j, (i, c).
Qed.

Lemma outcomes_at_elem i o : o ∈ outcomes_at i ↔ (i, o) ∈ outcomes.
Proof.
  unfold outcomes_at. rewrite list_elem_of_fmap. setoid_rewrite list_elem_of_filter. split.
  - by intros ([i' o'] & -> & <- & H).
  - intros H. by exists (i, o).
Qed.

Lemma outcomes_indexes i : i ∈ outcomes.*1 ↔ 0 ≤ i < len content.
Proof.
  transitivity (i ∈ (enumerate 0 content).*1); [|rewrite enumerate_indexes, elem_of_seqZ; lia].
  rewrite (cv_all _ _ Hcovers). split.
  - intros ([i' o] & -> & (segment & outcome & j & c & Hin & Hj & _)%outcomes_elem)%list_elem_of_fmap.
    exists (segment_part segment). apply account_elem in Hin as [Hin _].
    split; [by apply list_elem_of_fmap_2|]. unfold occurrences in Hj.
    apply lookup_zip_Some in Hj as [Hj _]. by eapply list_elem_of_lookup_2.
  - intros (part & (segment & -> & Hin)%list_elem_of_fmap & [j Hj]%list_elem_of_lookup).
    destruct (segment_in_plan segment Hin) as (Hw & _). unfold whole in Hw.
    destruct (lookup_lt_is_Some_2 (om_content (ps_message segment)) j) as [c Hc].
    { rewrite Hw. by eapply lookup_lt_Some. }
    rewrite <- account_segments in Hin. apply list_elem_of_fmap in Hin as ([s outcome] & -> & Hin).
    apply list_elem_of_fmap. exists (i, outcome (Z.of_nat j) i c). split; [done|].
    apply outcomes_elem. exists s, outcome, j, c. split_and!; [done| |done].
    unfold occurrences. apply lookup_zip_Some. by split.
Qed.

Definition aggregate_items : list DeliveryItemReceipt :=
  (λ i, _aggregate_item_outcomes i (outcomes_at i)) <$> seqZ 0 (len content).
Definition accepted_before_failure : bool :=
  existsb (λ r, bool_decide (dr_status r = ACCEPTED_BY_PLATFORM)) (removelast completed.*2).
Definition aggregate (final : DeliveryReceipt) : DeliveryReceipt :=
  let status := aggregate_status (dr_status final) accepted_before_failure in {|
  dr_status := status;
  dr_native_message_id := match completed.*2 with [only] => dr_native_message_id only | _ => None end;
  dr_detail := _aggregate_detail status (dr_detail final) accepted_before_failure
    (bool_decide (length completed.*2 = length (pl_segments p))) aggregate_items;
  dr_items := aggregate_items;
  dr_segments := ((λ c, sent_segment_receipt c.1 c.2) <$> completed) ++ (skipped_segment_receipt <$> skipped);
  dr_retry_after_seconds := if decide (status = RETRYABLE_FAILURE) then dr_retry_after_seconds final else None |}.

Lemma aggregate_receipts_ok :
  ∃ final, last completed.*2 = Some final ∧ _aggregate_receipts p completed = Ok (aggregate final).
Proof.
  assert (pl_segments p ≠ []) as Hne.
  { intros Hnil. pose proof (cv_all _ _ Hcovers 0) as [Hall _]. rewrite Hnil in Hall.
    destruct Hall as (part & Hin & _); [|by apply elem_of_nil in Hin].
    rewrite enumerate_indexes, elem_of_seqZ. destruct content; [done|]. unfold len. cbn. lia. }
  destruct (tried_last_receipt _ _ _ _ Htried Hne) as [final Hfinal]. exists final. split; [done|].
  unfold _aggregate_receipts. fold skipped account. rewrite add_all_outcomes_ok by apply all_whole.
  cbn [mbind res_bind]. rewrite Hfinal. fold outcomes accepted_before_failure.
  rewrite (sorted_indexes (length content)).
  - unfold aggregate, aggregate_items. fold (len content).
    assert (∀ l : list Z, (λ i, _aggregate_item_outcomes i (default [] (d_get (append_all [] outcomes) i))) <$> l
      = (λ i, _aggregate_item_outcomes i (outcomes_at i)) <$> l) as Hitems.
    { intros l. apply list_fmap_ext. intros _ i _. by rewrite append_all_get. }
    by rewrite Hitems.
  - apply append_all_well_formed. constructor.
  - intros i. rewrite append_all_keys, outcomes_indexes. unfold len. set_solver.
Qed.

(** ** It keeps to the contract *)

(** Each item of the content is reported once, in order. *)
Lemma aggregate_indexes final : di_content_index <$> dr_items (aggregate final) = seqZ 0 (len content).
Proof. cbn. unfold aggregate_items. rewrite <- list_fmap_compose. apply list_fmap_id. Qed.

Definition natives_are_taken (receipt : DeliveryReceipt) : Prop :=
  Forall (λ i, is_Some (di_native_message_id i) → di_status i = ITEM_ACCEPTED ∨ di_status i = ITEM_UNKNOWN)
    (dr_items receipt).

Lemma completed_ok segment receipt :
  (segment, receipt) ∈ completed → receipt_ok (om_content (ps_message segment)) receipt.
Proof. intros Hin. eapply segment_result_ok, tried_result; eauto. Qed.

(** The outcome of an item names the attachment it is of. *)
Lemma outcome_attachment i o a :
  (i, o) ∈ outcomes → di_attachment_id o = Some a →
  ∃ c, content !! Z.to_nat i = Some c ∧ content_attachment_id c = Some a.
Proof.
  intros (segment & outcome & j & c & Hin & Hj & ->)%outcomes_elem Ha.
  apply account_elem in Hin as [Hplan Hout].
  assert (content_attachment_id c = Some a) as Hc by (destruct Hout as [(r & _ & ->)|[_ ->]]; exact Ha).
  destruct (cv_shown _ _ Hcovers i c (segment_part segment)) as (c0 & Hc0 & Hshow).
  { by apply list_elem_of_fmap_2. }
  { by eapply list_elem_of_lookup_2. }
  apply enumerate_elem in Hc0 as (n & -> & Hn). exists c0. rewrite Z.add_0_l, Nat2Z.id. split; [done|].
  unfold shows in Hshow. congruence.
Qed.

(** What is known of an item is what its segment's receipt says of it. *)
Lemma outcome_known i o :
  (i, o) ∈ outcomes →
  (∃ segment receipt j, (segment, receipt) ∈ completed ∧ ps_source_content_indexes segment !! j = Some i ∧
     ((∃ item, item ∈ dr_items receipt ∧ di_content_index item = Z.of_nat j ∧ di_status o = di_status item ∧
         di_native_message_id o = di_native_message_id item) ∨
      di_status o = _item_status_from_receipt (dr_status receipt) ∧ di_native_message_id o = None)) ∨
  di_status o = ITEM_SKIPPED ∧ di_native_message_id o = None.
Proof.
  intros (segment & outcome & j & c & Hin & Hj & ->)%outcomes_elem. unfold occurrences in Hj.
  apply lookup_zip_Some in Hj as [Hj _].
  apply account_elem in Hin as [_ [(receipt & Hin & ->)|[_ ->]]]; [left|by right].
  exists segment, receipt, j. split_and!; [done..|].
  pose proof (ro_items_distinct _ _ (completed_ok _ _ Hin)) as Hnd. unfold sent_outcome. cbn.
  destruct (d_get _ _) as [item|] eqn:Hitem; [left|by right].
  apply native_item_elem in Hitem as [? ?]; [|done]. by exists item.
Qed.

(** A failure that permits a retry is that of the first segment, and no other was tried. *)
Lemma aggregate_retryable final :
  last completed.*2 = Some final → dr_status (aggregate final) = RETRYABLE_FAILURE →
  ∃ segment, completed = [(segment, final)] ∧ dr_status final = RETRYABLE_FAILURE.
Proof.
  cbn. intros Hlast Hs. pose proof (tried_accepted _ _ _ _ Htried) as Hacc. unfold accepted_before_failure in Hs.
  destruct completed as [|[segment r] rest]; [done|]. rewrite fmap_cons in *. cbn [snd] in *.
  destruct rest as [|[s' r'] rest].
  - injection Hlast as ->. exists segment. split; [done|]. by destruct (dr_status final).
  - exfalso. rewrite fmap_cons in *. cbn [snd removelast existsb] in *.
    inversion Hacc as [|? ? Hr _]; subst. rewrite bool_decide_eq_true_2 in Hs by done. cbn in Hs.
    by destruct (dr_status final).
Qed.

Lemma aggregate_retryable_outcomes final i o :
  last completed.*2 = Some final → dr_status (aggregate final) = RETRYABLE_FAILURE → (i, o) ∈ outcomes →
  di_status o ≠ ITEM_ACCEPTED ∧ di_status o ≠ ITEM_UNKNOWN ∧ di_native_message_id o = None.
Proof.
  intros Hlast Hs Hin. destruct (aggregate_retryable final Hlast Hs) as (segment & Hc & Hf).
  apply outcome_known in Hin as [(s & r & j & Hin & _ & Hknown)|[-> ->]]; [|done].
  pose proof (completed_ok _ _ Hin) as Hok. rewrite Hc in Hin. apply list_elem_of_singleton in Hin as [= -> ->].
  destruct Hknown as [(item & Hitem & _ & -> & ->)|[-> ->]]; [|by rewrite Hf].
  pose proof (ro_retryable _ _ Hok Hf) as Hno. unfold acceptance_evidence in Hno. rewrite !Exists_exists in Hno.
  split_and!; [intros ?; apply Hno; right; left; eauto..|].
  apply eq_None_not_Some. intros ?. apply Hno. right. left. eauto 6.
Qed.

Hypothesis Hsegments : NoDup (ps_segment_index <$> pl_segments p) ∧
  Forall (λ s, 0 ≤ ps_segment_index s ∧ identifier (om_delivery_id (ps_message s))) (pl_segments p).
Hypothesis Hids : NoDup ((λ s, om_delivery_id (ps_message s)) <$> pl_segments p).
Hypothesis Hattachments : Forall (λ c, optional_identifier (content_attachment_id c)) content.
Hypothesis Hnatives : ∀ segment receipt, (segment, receipt) ∈ completed → natives_are_taken receipt.

Lemma aggregate_item_ok i :
  0 ≤ i → item_ok (_aggregate_item_outcomes i (outcomes_at i)).
Proof.
  intros Hi. unfold item_ok. split_and!; [exact Hi| | |].
  - intros Hs. pose proof (aggregate_item_status i (outcomes_at i)) as Hall. rewrite Hs in Hall.
    apply eq_None_not_Some. intros [n Hn]. apply aggregate_item_native in Hn as (o & Ho & Hn).
    rewrite Forall_forall in Hall. destruct (Hall o Ho) as [H1 H2]. apply outcomes_at_elem in Ho.
    apply outcome_known in Ho as [(s & r & j & Hin & _ & [(item & Hitem & _ & Hst & Hnat)|[_ ?]])|[_ ?]];
      [|congruence..].
    specialize (Hnatives _ _ Hin). unfold natives_are_taken in Hnatives. rewrite Forall_forall in Hnatives.
    destruct (Hnatives item Hitem) as [?|?]; [rewrite <- Hnat, Hn; by eexists|congruence..].
  - intros a Ha. apply aggregate_item_attachment in Ha as (o & Ho & Ha). apply outcomes_at_elem in Ho.
    destruct (outcome_attachment _ _ _ Ho Ha) as (c & Hc & Hca). rewrite Forall_forall in Hattachments.
    apply (Hattachments c); [by eapply list_elem_of_lookup_2|done].
  - intros n Hn. apply aggregate_item_native in Hn as (o & Ho & Hn). apply outcomes_at_elem in Ho.
    apply outcome_known in Ho as [(s & r & j & Hin & _ & [(item & Hitem & _ & Hst & Hnat)|[_ ?]])|[_ ?]];
      [|congruence..].
    pose proof (ro_items _ _ (completed_ok _ _ Hin)) as Hok. rewrite Forall_forall in Hok.
    destruct (Hok item Hitem) as (_ & _ & _ & H). apply H. congruence.
Qed.

Lemma sent_segment_ok segment receipt :
  (segment, receipt) ∈ completed → segment_ok (sent_segment_receipt segment receipt).
Proof.
  intros Hin. pose proof (completed_ok _ _ Hin) as [Hd Hn _ _ _ _ _ Hr _ _].
  assert (segment ∈ pl_segments p) as Hplan.
  { rewrite <- (tried_prefix _ _ _ _ Htried). apply elem_of_app. left. by apply (list_elem_of_fmap_2 fst) in Hin. }
  destruct (segment_in_plan segment Hplan) as (_ & H1 & H2 & H3). destruct Hsegments as [_ Hall].
  rewrite Forall_forall in Hall. destruct (Hall segment Hplan) as [H4 H5].
  assert (∀ s, _segment_status_from_receipt s = SEGMENT_RETRYABLE_FAILURE ↔ s = RETRYABLE_FAILURE) as Hst
    by (by intros []).
  unfold segment_ok. cbn. split_and!; try done.
  - apply Forall_forall. intros i Hi. apply H2 in Hi. lia.
  - intros Hs%Hst. apply eq_None_not_Some. intros Hsome. apply (Hr Hs). by left.
  - intros x Hx. destruct (Hd x Hx) as (? & ? & ?). split_and!; [by apply Hst|done..].
Qed.

Lemma skipped_segment_ok segment : segment ∈ skipped → segment_ok (skipped_segment_receipt segment).
Proof.
  intros Hin. assert (segment ∈ pl_segments p) as Hplan.
  { rewrite <- (tried_prefix _ _ _ _ Htried). apply elem_of_app. by right. }
  destruct (segment_in_plan segment Hplan) as (_ & H1 & H2 & H3). destruct Hsegments as [_ Hall].
  rewrite Forall_forall in Hall. destruct (Hall segment Hplan) as [H4 H5].
  unfold segment_ok. cbn. split_and!; try done. apply Forall_forall. intros i Hi. apply H2 in Hi. lia.
Qed.

(** The segment receipts are those of the segments of the plan, in order. *)
Lemma aggregate_segments {A} (f : DeliverySegmentReceipt → A) (g : PlannedDeliverySegment → A) final :
  (∀ s r, f (sent_segment_receipt s r) = g s) → (∀ s, f (skipped_segment_receipt s) = g s) →
  f <$> dr_segments (aggregate final) = g <$> pl_segments p.
Proof.
  intros Hsent Hskip. cbn. rewrite fmap_app, <- !list_fmap_compose.
  transitivity (g <$> (completed.*1 ++ skipped)); [|f_equal; by eapply tried_prefix].
  rewrite fmap_app, <- list_fmap_compose. f_equal; apply list_fmap_ext; intros ? x _; [apply Hsent|apply Hskip].
Qed.

(** A failure that permits a retry is one that left nothing with the platform. *)
Lemma aggregate_no_evidence final :
  last completed.*2 = Some final → dr_status (aggregate final) = RETRYABLE_FAILURE →
  ¬ acceptance_evidence (aggregate final).
Proof.
  intros Hlast Hs. destruct (aggregate_retryable final Hlast Hs) as (s & Hc & Hf).
  assert ((s, final) ∈ completed) as Hin by (rewrite Hc; by left).
  pose proof (ro_retryable _ _ (completed_ok _ _ Hin) Hf) as Hno.
  assert (dr_native_message_id final = None) as Hnative.
  { apply eq_None_not_Some. intros ?. apply Hno. by left. }
  intros [H|[H|H]].
  - cbn in H. rewrite Hc in H. cbn in H. rewrite Hnative in H. by destruct H.
  - apply Exists_exists in H as (item & (i & -> & _)%list_elem_of_fmap & H).
    assert (∀ o, o ∈ outcomes_at i → di_status o ≠ ITEM_ACCEPTED ∧ di_status o ≠ ITEM_UNKNOWN ∧
      di_native_message_id o = None) as Hall.
    { intros o Ho%outcomes_at_elem. by eapply aggregate_retryable_outcomes. }
    pose proof (aggregate_item_status i (outcomes_at i)) as Hst.
    destruct H as [H|[H|[n Hn]]].
    + rewrite H in Hst. cbn in H. destruct (outcomes_at i) as [|o os] eqn:Ho.
      * done.
      * apply Forall_cons in Hst as [Hst _]. destruct (Hall o) as (? & _); [by left|done].
    + rewrite H in Hst. apply Exists_exists in Hst as (o & Ho & [?|?]); destruct (Hall o Ho) as (? & ? & _); done.
    + apply aggregate_item_native in Hn as (o & Ho & Hn). destruct (Hall o Ho) as (_ & _ & ?). congruence.
  - apply Exists_exists in H as (g & Hg & H). cbn in Hg.
    apply elem_of_app in Hg as [(c & -> & Hg)%list_elem_of_fmap|(c & -> & _)%list_elem_of_fmap].
    + rewrite Hc in Hg. apply list_elem_of_singleton in Hg as ->. cbn in H. rewrite Hf, Hnative in H.
      destruct H as [?|[?|[? ?]]]; done.
    + cbn in H. destruct H as [?|[?|[? ?]]]; done.
Qed.

Lemma aggregate_ok final : last completed.*2 = Some final → receipt_ok content (aggregate final).
Proof.
  intros Hlast. assert (∃ segment, (segment, final) ∈ completed) as [segment Hfinal].
  { pose proof Hlast as Hin. apply last_Some_elem_of, list_elem_of_fmap in Hin as ([segment r] & -> & Hin). by exists segment. }
  pose proof (completed_ok _ _ Hfinal) as Hok. split.
  - cbn. intros s. case_decide as Hs; [|done]. intros Hr. destruct (aggregate_retryable final Hlast Hs) as (_ & _ & Hf).
    destruct (ro_delay _ _ Hok s Hr) as (_ & ? & ?). done.
  - cbn. destruct completed.*2 as [|r [|]] eqn:Hc; [done| |done].
    injection Hlast as <-. exact (ro_native _ _ Hok).
  - rewrite aggregate_indexes. apply NoDup_seqZ.
  - cbn. unfold aggregate_items. apply Forall_fmap, Forall_seqZ. intros i Hi. apply aggregate_item_ok. lia.
  - rewrite (aggregate_segments _ ps_segment_index) by done. by destruct Hsegments.
  - by rewrite (aggregate_segments _ (λ s, om_delivery_id (ps_message s))).
  - cbn. apply Forall_app. split; apply Forall_fmap, Forall_forall.
    + intros [s r] Hin. by apply sent_segment_ok.
    + intros s Hin. by apply skipped_segment_ok.
  - by apply aggregate_no_evidence.
  - cbn. unfold aggregate_items. apply Forall_fmap, Forall_seqZ. intros i Hi. cbn.
    destruct (lookup_lt_is_Some_2 content (Z.to_nat i)) as [c Hc]; [unfold len in Hi; lia|].
    exists c. split; [done|]. intros a Ha. apply (aggregate_item_attachment i) in Ha as (o & Ho & Ha).
    apply outcomes_at_elem in Ho. destruct (outcome_attachment _ _ _ Ho Ha) as (c' & ? & ?). congruence.
  - apply Forall_forall. intros g Hg.
    assert (dg_source_content_indexes g ∈ ps_source_content_indexes <$> pl_segments p) as Hsource.
    { rewrite <- (aggregate_segments dg_source_content_indexes _ final) by done. by apply list_elem_of_fmap_2. }
    apply list_elem_of_fmap in Hsource as (s & -> & Hs). apply segment_in_plan in Hs as (_ & _ & Hs & _).
    apply Forall_forall. intros i Hi%Hs. lia.
Qed.
End aggregate.
