(* ===== verification/DeliveryProperties.v ===== *)
(** What the execution of a message promises, from its plan to its receipt. *)

From S2P Require Export ReceiptTheorems.
From stdpp Require Import list sorting.
#[local] Open Scope Z_scope.
#[local] Open Scope stdpp_scope.

(** A Channel that gives its message IDs only to items it took, or may have. *)
Definition names_what_it_took (env : delivery_env) : Prop :=
  ∀ log message receipt, de_send env log message = Ok receipt → natives_are_taken receipt.

Definition attachments_identified (content : list Content) : Prop :=
  Forall (λ c, optional_identifier (content_attachment_id c)) content.

(** The two numbers of a message whose segment IDs collide. *)
Definition segment_ids_collide (message : OutboundMessage) : Prop :=
  ∃ i j, sha256_collision
    (SegmentDeliveryId (om_conversation_ref message) (om_delivery_id message) i)
    (SegmentDeliveryId (om_conversation_ref message) (om_delivery_id message) j).

Lemma repeated_element {A} `{EqDecision A} (l : list A) :
  ¬ NoDup l → ∃ i j x, (i < j)%nat ∧ l !! i = Some x ∧ l !! j = Some x.
Proof.
  induction l as [|x l IH]; [intros H; destruct H; constructor|]. rewrite NoDup_cons. intros H.
  destruct (decide (x ∈ l)) as [[j Hj]%list_elem_of_lookup|Hx].
  - exists 0%nat, (S j), x. split; [lia|done].
  - destruct IH as (i & j & y & ? & ? & ?); [tauto|]. exists (S i), (S j), y. split; [lia|done].
Qed.

Section delivery.
Context (env : delivery_env) (config : DeliveryCoordinatorConfig) (profile : DeliveryProfile)
  (message : OutboundMessage) (p : DeliveryPlan).
Hypothesis Hattempts : 1 ≤ cf_max_attempts config.
Hypothesis Hplan : preflight config profile message = Ok p.

Lemma plan_planned : planned message profile (Some (cf_max_segments_per_delivery config)) p.
Proof. by eapply plan_ok. Qed.

Lemma plan_covers : covers (enumerate 0 (om_content message)) (segment_part <$> pl_segments p).
Proof. by eapply carries_covers, (pn_carries _ _ _ _ plan_planned). Qed.

Lemma plan_segments :
  NoDup (ps_segment_index <$> pl_segments p) ∧
  Forall (λ s, 0 ≤ ps_segment_index s ∧ identifier (om_delivery_id (ps_message s))) (pl_segments p).
Proof.
  pose proof (pn_numbered _ _ _ _ plan_planned) as Hn. split.
  - apply NoDup_alt. intros i j x. rewrite !list_lookup_fmap.
    destruct (pl_segments p !! i) as [a|] eqn:Ha; [|done]. destruct (pl_segments p !! j) as [b|] eqn:Hb; [|done].
    destruct (Hn i a Ha) as [Hi _], (Hn j b Hb) as [Hj _]. cbn. intros [= <-] [= Heq]. lia.
  - apply Forall_lookup. intros i a Ha. destruct (Hn i a Ha) as (-> & Hid & _). split; [lia|].
    by apply (derived_identifier [] (SegmentDeliveryId _ _ _)) in Hid.
Qed.

Lemma plan_segment_ids :
  NoDup ((λ s, om_delivery_id (ps_message s)) <$> pl_segments p) ∨ segment_ids_collide message.
Proof.
  pose proof (pn_numbered _ _ _ _ plan_planned) as Hn.
  destruct (decide (NoDup ((λ s, om_delivery_id (ps_message s)) <$> pl_segments p))) as [|Hdup]; [by left|right].
  apply repeated_element in Hdup as (i & j & id & Hij & Hi & Hj). rewrite list_lookup_fmap in Hi, Hj.
  apply fmap_Some in Hi as (a & Ha & Hid), Hj as (b & Hb & Hid').
  destruct (Hn i a Ha) as (_ & Hida & _), (Hn j b Hb) as (_ & Hidb & _).
  exists (Z.of_nat i), (Z.of_nat j). rewrite <- Hid in Hida. rewrite <- Hid' in Hidb.
  destruct (same_id_same_identity [] [] (SegmentDeliveryId _ _ _) (SegmentDeliveryId _ _ _) _ Hida Hidb)
    as [[= Hn']|?]; [lia|done].
Qed.

(** The outcome of an execution, over what was sent. *)
Lemma execute_spec log :
  wp (_execute env config p) (λ r log', ∃ new, log' = log ++ new ∧
    delivery_run config (Z.to_nat (cf_max_attempts config)) (pl_segments p) new ∧
    match r with
    | Ok receipt => ∃ completed final, tried env new (pl_segments p) completed ∧
        last completed.*2 = Some final ∧ receipt = aggregate p (om_content message) completed final ∧
        (∀ segment last, completed = [(segment, last)] → dr_status last = RETRYABLE_FAILURE →
           Forall harmless new)
    | Err e => may_raise config e
    end) log.
Proof.
  unfold _execute. apply wp_bind. eapply wp_mono; [by apply send_segments_spec|].
  intros [completed|e] log' (new & -> & Hrun & Hr); [|by eauto].
  apply wp_lift. destruct Hr as (more & -> & Htried & Hharmless). rewrite app_nil_l.
  destruct (aggregate_receipts_ok env new p (om_content message) more plan_covers Htried
    (pn_content _ _ _ _ plan_planned)) as (final & Hfinal & ->).
  exists new. split_and!; [done..|]. exists more, final. split_and!; done.
Qed.
End delivery.

(** C24. Sending a plan refines [delivery_run]: the segments are given to the Channel
    in their order, one after the other; the next only after the one before was
    accepted; one again only after a valid receipt without evidence that the
    Channel took any of it, after a wait that respects the one the Channel asked
    for and the configured maximum, and at most [max_attempts] times.  It raises
    only what it passes on. *)
Theorem sending_refines_delivery_run env config profile message p log :
  1 ≤ cf_max_attempts config → preflight config profile message = Ok p →
  wp (_execute env config p) (λ r log', ∃ new,
    log' = log ++ new ∧
    delivery_run config (Z.to_nat (cf_max_attempts config)) (pl_segments p) new ∧
    ∀ e, r = Err e → may_raise config e) log.
Proof.
  intros Hmax Hplan. eapply wp_mono; [by eapply execute_spec|].
  intros r log' (new & -> & Hrun & Hr). exists new. split_and!; [done..|]. by intros e ->.
Qed.


(** What a platform's receipt says of the item at a place of a segment. *)
Definition says_accepted (receipt : DeliveryReceipt) (j : nat) : Prop :=
  (∃ item, item ∈ dr_items receipt ∧ di_content_index item = Z.of_nat j ∧ di_status item = ITEM_ACCEPTED) ∨
  dr_status receipt = ACCEPTED_BY_PLATFORM.

