(* ===== verification/CoordinatorTheorems.v ===== *)
(** The bookkeeping of the delivery coordinator over any submissions, in any order
    of their steps. *)

From S2P Require Export DeliveryProperties.
From stdpp Require Import list.
#[local] Open Scope Z_scope.
#[local] Open Scope stdpp_scope.

Abbreviation destination t := (pl_conversation_ref (dt_plan t)).

(** The coordinator's steps.  A submission ends with any outcome when it has the
    lock of its destination, and cancelled at any time after its first step. *)
Inductive coordinator_step : DeliveryCoordinator → DeliveryCoordinator → Prop :=
| step_submits profile message s : coordinator_step s (submit profile message s).2
| step_begins n s : coordinator_step s (run_submission_begins n s).2
| step_ends n t entry outcome s :
    task_of s n = Some t → dt_phase t = Begun entry →
    outcome = Err CancelledError ∨
      has_lock (dc_destination_locks s) {| hd_key := destination t; hd_task := n; hd_entry := entry |} →
    coordinator_step s (run_submission_ends n outcome s).2
| step_closes s : coordinator_step s (close_begins s).2
| step_starts s : coordinator_step s (start s).2.

Definition count_of (c : ConversationRef) (l : list delivery_task) : Z :=
  len (filter (λ t, destination t = c) l).

(** The submissions that count: those that run, and those that are [lost], dropped
    without being released. *)
Record coordinator_inv (lost : list delivery_task) (live : list (hold (K := ConversationRef)))
    (s : DeliveryCoordinator) : Prop := {
  ci_pending : dc_pending s = len (dc_tasks s ++ lost);
  ci_destinations c : d_get (dc_pending_by_destination s) c =
    if decide (count_of c (dc_tasks s ++ lost) = 0) then None
    else Some (count_of c (dc_tasks s ++ lost));
  ci_well_formed : well_formed (dc_pending_by_destination s);
  ci_bounded : dc_pending s ≤ cf_max_pending (dc_config s);
  ci_bounded_each c : count_of c (dc_tasks s ++ lost) ≤ cf_max_pending_per_destination (dc_config s);
  ci_numbers : NoDup (dt_number <$> dc_tasks s ++ lost);
  ci_created : Forall (λ t, (dt_number t < dc_created s)%nat) (dc_tasks s ++ lost);
  ci_locks : represents live (dc_destination_locks s);
  ci_unbounded : kr_max_active_keys (dc_destination_locks s) = None;
  ci_live h : h ∈ live ↔ ∃ t, t ∈ dc_tasks s ∧ dt_phase t = Begun (hd_entry h) ∧
    hd_task h = dt_number t ∧ hd_key h = destination t;
  ci_futures n : is_Some (d_get (dc_futures s) n) ↔
    (n < dc_created s)%nat ∧ n ∉ dt_number <$> dc_tasks s ++ lost;
}.

(** ** Counting *)

#[local] Instance len_proper {A} : Proper ((≡ₚ) ==> (=)) (@len A).
Proof. intros l l' H. unfold len. by rewrite H. Qed.

#[export] Instance count_of_proper c : Proper ((≡ₚ) ==> (=)) (count_of c).
Proof. intros l l' H. unfold count_of, len. by rewrite H. Qed.

Lemma count_of_cons c t l :
  count_of c (t :: l) = count_of c l + (if decide (destination t = c) then 1 else 0).
Proof. unfold count_of, len. rewrite filter_cons. case_decide; cbn; lia. Qed.

Lemma count_of_nonneg c l : 0 ≤ count_of c l.
Proof. unfold count_of, len. lia. Qed.

Lemma task_of_elem s n t : task_of s n = Some t → t ∈ dc_tasks s ∧ dt_number t = n.
Proof.
  unfold task_of. intros ([i x] & Hf & [= <-])%bind_Some. apply list_find_Some in Hf as (Hi & Hn & _).
  split; [by eapply list_elem_of_lookup_2|done].
Qed.

Lemma number_identifies l t t' :
  NoDup (dt_number <$> l) → t ∈ l → t' ∈ l → dt_number t = dt_number t' → t = t'.
Proof.
  intros Hnd [i Hi]%list_elem_of_lookup [j Hj]%list_elem_of_lookup Ht.
  assert (i = j) as ->; [|congruence].
  eapply NoDup_lookup; [exact Hnd|by rewrite list_lookup_fmap, Hi|rewrite list_lookup_fmap, Hj; cbn; congruence].
Qed.

(** A task and the others. *)
Lemma without_task_Permutation l t :
  NoDup (dt_number <$> l) → t ∈ l → l ≡ₚ t :: without_task (dt_number t) l.
Proof.
  intros Hnd Hin. apply elem_of_Permutation in Hin as [l' Hl].
  unfold without_task. rewrite Hl, filter_cons, decide_False by tauto.
  rewrite Hl, fmap_cons, NoDup_cons in Hnd. destruct Hnd as [Hn _]. f_equiv.
  clear Hl. induction l' as [|x l' IH]; [done|]. rewrite fmap_cons, not_elem_of_cons in Hn.
  rewrite filter_cons, decide_True by (destruct Hn; congruence). f_equiv. apply IH. tauto.
Qed.

(** ** Admission *)

Lemma new_coordinator_inv config s : new_coordinator config = Ok s → coordinator_inv [] [] s.
Proof.
  unfold new_coordinator. rewrite then_ok. intros [Hc H].
  apply res_bind_ok in H as (locks & Hlocks & [= <-]).
  unfold validate_coordinator_config in Hc. rewrite !then_ok, !raise_if_ok in Hc.
  destruct Hc as (H1 & H2 & _). pose proof (new_registry_represents _ _ Hlocks) as Hr.
  split; cbn; try done; try (constructor; fail); try lia.
  - unfold count_of, len. cbn. intros _. lia.
  - unfold new_registry in Hlocks. apply then_ok in Hlocks as [_ [= <-]]. done.
  - intros h. split; [by intros ?%elem_of_nil|]. by intros (t & ?%elem_of_nil & _).
  - intros n. split; [by intros []|lia].
Qed.

(** The counters after a reservation: one more for a destination. *)
Lemma reserve_spec c s :
  wp (_reserve c) (λ r s', r = Ok true ∧
      dc_pending s < cf_max_pending (dc_config s) ∧
      default 0 (d_get (dc_pending_by_destination s) c) < cf_max_pending_per_destination (dc_config s) ∧
      s' = set_counts (dc_pending s + 1) (d_set (dc_pending_by_destination s) c
             (default 0 (d_get (dc_pending_by_destination s) c) + 1)) s ∨
    r = Ok false ∧ s' = s) s.
Proof.
  unfold _reserve. wp_run; [by right|]. left. split_and!; [done|lia..|done].
Qed.

(** A counter dictionary that counts [n c] for each destination [c]. *)
Definition counts (d : dict ConversationRef Z) (n : ConversationRef → Z) : Prop :=
  ∀ c, d_get d c = if decide (n c = 0) then None else Some (n c).

Lemma counts_default d n c : counts d n → default 0 (d_get d c) = n c.
Proof. intros H. rewrite H. by case_decide. Qed.

Lemma counts_reserve d n c :
  counts d n → 0 ≤ n c →
  counts (d_set d c (default 0 (d_get d c) + 1)) (λ c', n c' + if decide (c = c') then 1 else 0).
Proof.
  intros H Hn c'. rewrite d_get_set, (counts_default d n c H). case_decide as Hc; [subst c'|].
  - by rewrite decide_False by lia.
  - rewrite Z.add_0_r. apply H.
Qed.

Definition released (d : dict ConversationRef Z) (c : ConversationRef) : dict ConversationRef Z :=
  if decide (0 < default 1 (d_get d c) - 1) then d_set d c (default 1 (d_get d c) - 1) else d_pop d c.

Lemma counts_release d n c :
  counts d (λ c', n c' + if decide (c = c') then 1 else 0) → (∀ c', 0 ≤ n c') → counts (released d c) n.
Proof.
  intros H Hn c'. unfold released.
  assert (d_get d c = Some (n c + 1)) as Hc.
  { rewrite (H c). cbv beta. rewrite (decide_True (P := c = c)) by done. specialize (Hn c).
    by rewrite decide_False by lia. }
  rewrite Hc. change (default 1 (Some (n c + 1))) with (n c + 1). specialize (Hn c). specialize (H c'). cbv beta in H.
  destruct (decide (c = c')) as [<-|Hne].
  - destruct (decide (0 < n c + 1 - 1)); [rewrite d_get_set_eq|rewrite d_get_pop, decide_True by done].
    + rewrite decide_False by lia. f_equal. lia.
    + by rewrite decide_True by lia.
  - rewrite Z.add_0_r in H. destruct (decide (0 < n c + 1 - 1));
      [rewrite d_get_set_ne by done|rewrite d_get_pop, decide_False by done]; exact H.
Qed.

Lemma released_well_formed d c : well_formed d → well_formed (released d c).
Proof. unfold released. intros H. case_decide; auto with gateway. Qed.

Lemma release_spec c s :
  wp (_release c) (λ r s', r = Ok () ∧
    s' = set_counts (dc_pending s - 1) (released (dc_pending_by_destination s) c) s) s.
Proof. done. Qed.

Lemma submit_keeps_inv lost live profile message s :
  coordinator_inv lost live s →
  wp (submit profile message) (λ _ s', coordinator_inv lost live s') s.
Proof.
  intros Hinv. pose proof Hinv as [H1 H2 H3 H4 H5 H6 H7 H8 H9 H10 H11].
  set (c := om_conversation_ref message).
  set (n := λ c', count_of c' (dc_tasks s ++ lost)).
  assert (counts (dc_pending_by_destination s) n) as Hcounts by exact H2.
  assert (∀ c', 0 ≤ n c') as Hn by (intros; apply count_of_nonneg).
  unfold submit. apply wp_bind, wp_get, wp_bind, wp_raise_if; [done|]. intros _.
  apply wp_bind. eapply wp_mono; [apply reserve_spec|].
  intros r s' [(-> & Hp & Hd & ->)|[-> ->]]; [rewrite decide_False by done|rewrite decide_True by done; by apply wp_ret].
  rewrite (counts_default _ _ _ Hcounts) in *. fold c in Hd |- *.
  pose proof (counts_reserve _ _ c Hcounts (Hn c)) as Hcounts'.
  rewrite (counts_default _ _ _ Hcounts) in Hcounts'.
  apply wp_bind, wp_catch, wp_lift. destruct (preflight _ _ _) as [p|e] eqn:Hplan.
  - apply wp_bind, wp_get, wp_bind, wp_modify, wp_bind, wp_modify, wp_ret. cbn [dc_tasks set_counts dc_created].
    set (t := {| dt_number := dc_created s; dt_plan := p; dt_phase := Created |}).
    assert (destination t = c) as Ht by (apply plan_ok in Hplan; apply (pn_conversation _ _ _ _ Hplan)).
    assert ((dc_tasks s ++ [t]) ++ lost ≡ₚ t :: dc_tasks s ++ lost) as Hperm.
    { rewrite <- app_assoc. cbn. by rewrite Permutation_middle. }
    assert (∀ c', count_of c' ((dc_tasks s ++ [t]) ++ lost) = n c' + if decide (c = c') then 1 else 0) as Hnew.
    { intros c'. by rewrite Hperm, count_of_cons, Ht. }
    rewrite Forall_forall in H7.
    assert (dc_created s ∉ dt_number <$> dc_tasks s ++ lost) as Hfresh.
    { intros (x & Hx & Hin)%list_elem_of_fmap. specialize (H7 x Hin). lia. }
    split; cbn; try done.
    + rewrite Hperm, H1. unfold len. cbn [length]. lia.
    + intros c'. rewrite Hnew. apply Hcounts'.
    + auto with gateway.
    + lia.
    + intros c'. rewrite Hnew. unfold n in *. specialize (H5 c'). case_decide as Hc; [subst c'|]; lia.
    + rewrite Hperm, fmap_cons. by constructor.
    + rewrite Hperm. constructor; [cbn; lia|]. apply Forall_forall. intros x Hx. specialize (H7 x Hx). lia.
    + intros h. rewrite H10. split; intros (x & Hx & Hphase & Hrest); exists x; (split; [|done]).
      * apply elem_of_app. by left.
      * apply elem_of_app in Hx as [?|Hx%list_elem_of_singleton]; [done|]. by subst x.
    + intros m. rewrite H11, Hperm, fmap_cons, not_elem_of_cons.
      change (dt_number t) with (dc_created s). split; [intros [? ?]; split_and!; [lia|lia|done]|intros (? & ? & ?); split; [lia|done]].
  - apply wp_bind. eapply wp_mono; [apply release_spec|]. intros r s' [-> ->]. apply wp_raise.
    replace (n c + 1) with (default 0 (d_get (dc_pending_by_destination s) c) + 1) in Hcounts'
      by by rewrite (counts_default _ _ _ Hcounts).
    rewrite (counts_default _ _ _ Hcounts) in Hcounts'.
    pose proof (counts_release _ n c Hcounts' Hn) as Hback.
    split; cbn; try done; [lia| |lia]. apply released_well_formed. auto with gateway.
Qed.

(** ** Running *)

(** A task that begins: the others stay as they are. *)
Definition begun (n : nat) (p : DeliveryPlan) (entry : nat) (t : delivery_task) : delivery_task :=
  if decide (dt_number t = n) then {| dt_number := n; dt_plan := p; dt_phase := Begun entry |} else t.

Lemma begun_same n p entry (l : list delivery_task) :
  (∀ t, t ∈ l → dt_number t = n → dt_plan t = p) →
  dt_number <$> (begun n p entry <$> l) = dt_number <$> l ∧
  (∀ c, count_of c (begun n p entry <$> l) = count_of c l) ∧ len (begun n p entry <$> l) = len l.
Proof.
  intros Hp. split_and!.
  - rewrite <- list_fmap_compose. apply list_fmap_ext. intros _ t _. unfold begun; cbn. by case_decide.
  - intros c. induction l as [|t l IH]; [done|]. rewrite fmap_cons, !count_of_cons, IH by set_solver.
    f_equal. unfold begun. destruct (decide (dt_number t = n)) as [Hn|]; [|done]. cbn.
    rewrite (Hp t); [done|by left|done].
  - unfold len. by rewrite length_fmap.
Qed.

Lemma count_of_app c l l' : count_of c (l ++ l') = count_of c l + count_of c l'.
Proof. unfold count_of, len. rewrite filter_app, length_app. lia. Qed.

Lemma len_app {A} (l l' : list A) : len (l ++ l') = len l + len l'.
Proof. unfold len. rewrite length_app. lia. Qed.

Lemma begins_keeps_inv lost live n s :
  coordinator_inv lost live s →
  wp (run_submission_begins n) (λ _ s', ∃ live', coordinator_inv lost live' s') s.
Proof.
  intros Hinv. pose proof Hinv as [H1 H2 H3 H4 H5 H6 H7 H8 H9 H10 H11].
  unfold run_submission_begins. apply wp_bind, wp_get.
  destruct (task_of s n) as [[n' p [|entry]]|] eqn:Htask; [|apply wp_ret; by exists live..].
  apply task_of_elem in Htask as [Hin Hn]. cbn in Hn. subst n'.
  assert (NoDup (dt_number <$> dc_tasks s)) as Hnd by (rewrite fmap_app, NoDup_app in H6; by destruct H6).
  assert (n ∉ hd_task <$> live) as Hfresh.
  { intros (h & Hh & (t & Ht & Hphase & Hnum & _)%H10)%list_elem_of_fmap.
    rewrite (number_identifies _ _ _ Hnd Ht Hin) in Hphase; [done|cbn; congruence]. }
  apply wp_bind, wp_zoom. unfold wp at 1. destruct (hold_enter _ _ _) as [r locks] eqn:Henter. cbn [fst snd].
  pose proof (hold_enter_represents _ _ _ _ _ _ H8 Hfresh Henter) as Hr.
  destruct r as [entry|e].
  2: { exfalso. destruct Hr as (_ & _ & Hc & _). unfold at_capacity in Hc. by rewrite H9 in Hc. }
  apply wp_modify.
  exists (live ++ [{| hd_key := pl_conversation_ref p; hd_task := n; hd_entry := entry |}]).
  cbn [dc_tasks set_locks]. fold (begun n p entry).
  destruct (begun_same n p entry (dc_tasks s)) as (Hnums & Hcount & Hlen).
  { intros t Ht Hn. by rewrite (number_identifies _ _ _ Hnd Ht Hin). }
  split; cbn; rewrite ?fmap_app, ?Hnums, ?len_app, ?Hlen; rewrite ?fmap_app, ?len_app in *; try done.
  - intros c. rewrite count_of_app, Hcount, <- count_of_app. apply H2.
  - intros c. rewrite count_of_app, Hcount, <- count_of_app. apply H5.
  - rewrite Forall_app in H7 |- *. destruct H7 as [Ha Hb]. split; [|done].
    apply Forall_fmap. eapply Forall_impl; [exact Ha|]. intros t Ht. unfold begun; cbn in *. case_decide; [|done].
    cbn. lia.
  - pose proof (lock_step_limit _ _ (lock_enters live _ _ _ _ _ Hfresh Henter)) as Hlimit. cbn in Hlimit. congruence.
  - intros h. rewrite elem_of_app, H10, list_elem_of_singleton. split.
    + intros [(t & Ht & Hphase & Hnum & Hkey)| ->].
      * exists t. split_and!; try done. apply list_elem_of_fmap. exists t. split; [|done]. unfold begun.
        case_decide as Hn; [|done]. by rewrite (number_identifies _ _ _ Hnd Ht Hin) in Hphase.
      * eexists. split_and!; [apply list_elem_of_fmap; eexists; split; [reflexivity|exact Hin]|..];
          unfold begun; cbn; by rewrite decide_True.
    + intros (t & (t0 & -> & Ht)%list_elem_of_fmap & Hrest). unfold begun in Hrest. case_decide as Hn.
      * right. cbn in Hrest. destruct Hrest as ([= He] & Hnum & Hkey). destruct h; cbn in *. congruence.
      * left. eauto.
Qed.

Lemma ends_keeps_inv lost live n outcome s :
  coordinator_inv lost live s →
  wp (run_submission_ends n outcome) (λ _ s', ∃ live', coordinator_inv lost live' s') s.
Proof.
  intros Hinv. pose proof Hinv as [H1 H2 H3 H4 H5 H6 H7 H8 H9 H10 H11].
  unfold run_submission_ends. apply wp_bind, wp_get.
  destruct (task_of s n) as [[n' p [|entry]]|] eqn:Htask; [apply wp_ret; by exists live| |apply wp_ret; by exists live].
  apply task_of_elem in Htask as [Hin Hn]. cbn in Hn. subst n'.
  set (t := {| dt_number := n; dt_plan := p; dt_phase := Begun entry |}) in *.
  set (h := {| hd_key := pl_conversation_ref p; hd_task := n; hd_entry := entry |}).
  assert (NoDup (dt_number <$> dc_tasks s)) as Hnd by (rewrite fmap_app, NoDup_app in H6; by destruct H6).
  assert (h ∈ live) as Hh by (apply H10; by exists t).
  destruct (hold_leave_represents _ _ _ H8 Hh) as (locks & Hleave & Hlocks).
  apply wp_bind, wp_zoom. unfold wp at 1. cbn [hd_key hd_entry hd_task h] in Hleave. rewrite Hleave. cbn [fst snd].
  assert (d_get (dc_futures s) n = None) as Hpending.
  { apply eq_None_not_Some. rewrite H11. intros [_ Hno]. apply Hno. rewrite fmap_app. apply elem_of_app. left.
    by apply (list_elem_of_fmap_2 dt_number) in Hin. }
  rewrite Hpending. apply wp_bind, wp_modify, wp_bind. eapply wp_mono; [apply release_spec|].
  intros r s' [-> ->]. apply wp_modify. exists (filter (λ x, x ≠ h) live).
  pose proof (without_task_Permutation _ _ Hnd Hin) as Hsplit. cbn [dt_number t] in Hsplit.
  assert (dc_tasks s ++ lost ≡ₚ t :: without_task n (dc_tasks s) ++ lost) as Hall by by rewrite Hsplit at 1.
  set (rest := without_task n (dc_tasks s) ++ lost) in *.
  assert (counts (dc_pending_by_destination s) (λ c, count_of c rest + if decide (destination t = c) then 1 else 0))
    as Hcounts.
  { intros c. rewrite H2. assert (count_of c (dc_tasks s ++ lost) =
      count_of c rest + if decide (destination t = c) then 1 else 0) as ->; [|done].
    by rewrite Hall, count_of_cons. }
  assert (∀ x, x ∈ without_task n (dc_tasks s) ↔ x ∈ dc_tasks s ∧ dt_number x ≠ n) as Hothers.
  { intros x. unfold without_task. rewrite list_elem_of_filter. tauto. }
  assert (n ∉ dt_number <$> rest) as Hgone.
  { rewrite Hall, fmap_cons, NoDup_cons in H6. by destruct H6. }
  split; cbn [dc_tasks dc_pending dc_pending_by_destination dc_config dc_created dc_destination_locks dc_futures
    set_tasks set_counts set_futures set_locks]; fold rest.
  - rewrite H1, Hall. unfold len. cbn [length]. lia.
  - apply (counts_release _ (λ c, count_of c rest)); [exact Hcounts|intros; apply count_of_nonneg].
  - by apply released_well_formed.
  - lia.
  - intros c. specialize (H5 c). rewrite Hall, count_of_cons in H5. case_decide; lia.
  - rewrite Hall, fmap_cons, NoDup_cons in H6. by destruct H6.
  - rewrite Hall in H7. by apply Forall_cons in H7 as [_ ?].
  - exact Hlocks.
  - pose proof (lock_step_limit _ _ (lock_leaves live _ _ _ Hh Hleave)) as Hlimit. cbn in Hlimit. congruence.
  - intros x. rewrite list_elem_of_filter, H10. split.
    + intros [Hx (t' & Ht' & Hphase & Hnum & Hkey)]. exists t'. split_and!; try done. apply Hothers.
      split; [done|]. intros Hn. apply Hx. rewrite (number_identifies _ _ _ Hnd Ht' Hin Hn) in *.
      destruct x; cbn in *. unfold h. congruence.
    + intros (t' & [Ht' Hn]%Hothers & Hphase & Hnum & Hkey). split; [|by eauto].
      intros ->. by cbn in Hnum.
  - intros m. rewrite d_get_set. destruct (decide (n = m)) as [<-|Hne].
    + split; [intros _|by eexists]. split; [|done]. rewrite Forall_forall in H7.
      apply (H7 t). apply elem_of_app. by left.
    + rewrite H11, Hall, fmap_cons, not_elem_of_cons. change (dt_number t) with n.
      split; [intros (? & _ & ?)|intros [? ?]]; by split_and!.
Qed.

(** A submission that is cancelled before its first step is lost. *)
Lemma cancelled_before_begin_loses lost live n t s :
  coordinator_inv lost live s → task_of s n = Some t → dt_phase t = Created →
  coordinator_inv (t :: lost) live (cancelled_before_begin n s).2.
Proof.
  intros [H1 H2 H3 H4 H5 H6 H7 H8 H9 H10 H11] Htask Hphase.
  unfold cancelled_before_begin, mbind, M_bind, get_st. cbn beta iota. rewrite Htask.
  destruct t as [n' p phase]. cbn in Hphase. subst phase. apply task_of_elem in Htask as [Hin Hn].
  cbn in Hn. subst n'. set (t := {| dt_number := n; dt_plan := p; dt_phase := Created |}) in *.
  assert (NoDup (dt_number <$> dc_tasks s)) as Hnd by (rewrite fmap_app, NoDup_app in H6; by destruct H6).
  assert (dc_tasks s ++ lost ≡ₚ without_task n (dc_tasks s) ++ t :: lost) as Hall.
  { rewrite (without_task_Permutation _ _ Hnd Hin) at 1. cbn. by rewrite Permutation_middle. }
  split; cbn; try done.
  - by rewrite <- Hall.
  - intros c. rewrite H2. assert (count_of c (dc_tasks s ++ lost) =
      count_of c (without_task n (dc_tasks s) ++ t :: lost)) as ->; [|done]. by rewrite Hall.
  - intros c. by rewrite <- Hall.
  - by rewrite <- Hall.
  - by rewrite <- Hall.
  - intros h. rewrite H10. unfold without_task. split; intros (x & Hx & Hphase & Hnum & Hkey); exists x.
    + split_and!; try done. apply list_elem_of_filter. split; [|done]. intros Hn.
      by rewrite (number_identifies _ _ _ Hnd Hx Hin Hn) in Hphase.
    + apply list_elem_of_filter in Hx as [_ Hx]. done.
  - intros m. by rewrite H11, Hall.
Qed.

Lemma step_keeps_inv lost live s s' :
  coordinator_inv lost live s → coordinator_step s s' → ∃ live', coordinator_inv lost live' s'.
Proof.
  intros Hinv Hstep. revert Hinv.
  destruct Hstep as [profile message s|n s|n t entry outcome s _ _ _|s|s]; intros Hinv.
  - exists live. exact (submit_keeps_inv _ _ profile message _ Hinv).
  - exact (begins_keeps_inv _ _ n _ Hinv).
  - exact (ends_keeps_inv _ _ n outcome _ Hinv).
  - exists live. by destruct Hinv; split.
  - exists live. unfold start, mbind, M_bind, get_st, raise_if. cbn beta iota.
    case_decide; [done|]. by destruct Hinv; split.
Qed.

Lemma coordinator_steps_keep_inv lost live s s' :
  coordinator_inv lost live s → rtc coordinator_step s s' → ∃ live', coordinator_inv lost live' s'.
Proof.
  intros Hinv Hsteps. revert live Hinv. induction Hsteps as [s|s1 s2 s3 Hstep _ IH]; intros live Hinv; [by eauto|].
  destruct (step_keeps_inv _ _ _ _ Hinv Hstep) as [live' ?]. by eapply IH.
Qed.


(** A submission whose task is cancelled before its first step, as [close] does to
    one that was submitted in the same turn of the event loop, is never released:
    whatever the coordinator does later, it counts one delivery too many, the
    future of that submission is never done, and [start] raises for ever. *)
Theorem delivery_cancelled_before_begin_is_never_released config s0 s n t s' :
  new_coordinator config = Ok s0 → rtc coordinator_step s0 s →
  task_of s n = Some t → dt_phase t = Created →
  rtc coordinator_step (cancelled_before_begin n s).2 s' →
  dc_pending s' = len (dc_tasks s') + 1 ∧ d_get (dc_futures s') n = None ∧
  (start s').1 = Err RuntimeError.
Proof.
  intros Hnew Hsteps Htask Hphase Hlater.
  destruct (coordinator_steps_keep_inv _ _ _ _ (new_coordinator_inv _ _ Hnew) Hsteps) as [live Hinv].
  pose proof (cancelled_before_begin_loses _ _ _ _ _ Hinv Htask Hphase) as Hlost.
  destruct (coordinator_steps_keep_inv _ _ _ _ Hlost Hlater) as [live' [H1 _ _ _ _ _ _ _ _ _ H11]].
  apply task_of_elem in Htask as [_ Hn].
  assert (dc_pending s' = len (dc_tasks s') + 1) as Hpending by (rewrite H1, len_app; done).
  split_and!; [done| |].
  - apply eq_None_not_Some. rewrite H11. intros [_ Hno]. apply Hno. rewrite fmap_app. apply elem_of_app. right.
    cbn. rewrite Hn. by left.
  - unfold start, mbind, M_bind, get_st, raise_if. cbn beta iota. rewrite decide_True; [done|].
    left. unfold len in Hpending. lia.
Qed.
