(* ===== verification/DeliveryExamples.v ===== *)
(** The theorems on delivery at a concrete message, Channel and coordinator. *)

From S2P Require Import CoordinatorTheorems.
From stdpp Require Import list.
#[local] Open Scope Z_scope.
#[local] Open Scope stdpp_scope.

(** A channel for plain texts of at most twelve code points and for pairs of images. *)
Definition small_channel : DeliveryProfile := {|
  dp_plain_text := NATIVE_SUPPORT; dp_markdown := FALLBACK; dp_attachments := NATIVE_SUPPORT;
  dp_attachment_sources := [REMOTE_URL]; dp_attachment_media_types := [py "image/*"];
  dp_attachment_grouping := SAME_MEDIA_FAMILY; dp_reply_references := NATIVE_SUPPORT;
  dp_reply_reference_scope := FIRST_SEGMENT; dp_text_length_unit := CODE_POINTS;
  dp_max_text_length := Some 12; dp_max_attachment_size := Some 100;
  dp_max_attachment_count := Some 2; dp_max_attachment_group_size := Some 150 |}.

Definition image (n : Z) : AttachmentContent := {|
  ac_attachment_id := py "a"; ac_media_type := py "Image/PNG"; ac_source := RemoteUrl (py "https://x");
  ac_filename := None; ac_size_bytes := Some n; ac_metadata := [] |}.

Definition illustrated : OutboundMessage := {|
  om_delivery_id := py "d1"; om_conversation_ref := example_conversation;
  om_content := [TextContent (py "**Done**. See [the log](u) below.") MARKDOWN;
                 Attachment (image 60); Attachment (image 60); Attachment (image 60)];
  om_created_at := Aware 0; om_reply_to := Some (py "m1"); om_metadata := [] |}.

Definition illustrated_plan : DeliveryPlan := Eval vm_compute in
  match plan illustrated small_channel (Some 8) (Some 4) with
  | Ok p => p
  | Err _ => {| pl_source_delivery_id := []; pl_conversation_ref := example_conversation;
                pl_source_content_count := 0; pl_segments := [] |}
  end.

(** The bold marks are gone, the text is cut at spaces, and the third image does
    not fit the group of the first two. *)
Example illustrated_parts :
  segment_part <$> pl_segments illustrated_plan =
  [([TextContent (py "Done. See") PLAIN], [0]); ([TextContent (py "the log (u)") PLAIN], [0]);
   ([TextContent (py "below.") PLAIN], [0]);
   ([Attachment (image 60); Attachment (image 60)], [1; 2]); ([Attachment (image 60)], [3])].
Proof. reflexivity. Qed.

Lemma plan_spec_witness :
  plan illustrated small_channel (Some 8) (Some 4) = Ok illustrated_plan ∧
  carries small_channel (enumerate 0 (om_content illustrated)) (segment_part <$> pl_segments illustrated_plan).
Proof.
  assert (plan illustrated small_channel (Some 8) (Some 4) = Ok illustrated_plan) as Hplan
    by (vm_compute; reflexivity).
  split; [exact Hplan|]. by apply (plan_spec illustrated small_channel (Some 8) (Some 4)).
Defined.

Lemma split_text_total_witness :
  ∃ chunks, split_text (py "one two three") 5 UTF8_BYTES None = Ok chunks.
Proof.
  apply (split_text_total (py "one two three") 5 UTF8_BYTES None); [lia|done|done|].
  replace (strip (py "one two three")) with (py "one two three") by (vm_compute; reflexivity).
  unfold py. cbn. repeat (constructor; [exists 1; split; [vm_compute; reflexivity|lia]|]). constructor.
Defined.

(** * Sending *)

Definition config : DeliveryCoordinatorConfig := {|
  cf_max_pending := 256; cf_max_pending_per_destination := 32; cf_max_concurrent_destinations := 16;
  cf_max_source_items_per_delivery := 8; cf_max_segments_per_delivery := 8; cf_max_attempts := 3;
  cf_retry_initial_seconds := seconds 0; cf_retry_max_seconds := seconds 5;
  cf_backpressure_retry_after_seconds := seconds 1 |}.

Definition answer (status : DeliveryReceiptStatus) : DeliveryReceipt := {|
  dr_status := status; dr_native_message_id := None; dr_detail := None; dr_items := []; dr_segments := [];
  dr_retry_after_seconds := None |}.

(** A Channel that is busy at first, and then takes three segments but not the last. *)
Definition busy_once : delivery_env := {|
  de_slot _ := true;
  de_send log _ := Ok (answer (if decide (log = []) then RETRYABLE_FAILURE
    else if decide (length log < 6)%nat then ACCEPTED_BY_PLATFORM else REJECTED_BY_PLATFORM));
  de_sleep _ _ := true;
  de_error_text _ := py "error" |}.

Definition sent_illustrated : res DeliveryReceipt * list delivery_event := Eval vm_compute in
  _execute busy_once config illustrated_plan [].
Definition illustrated_receipt : DeliveryReceipt := Eval vm_compute in
  match sent_illustrated.1 with Ok r => r | Err _ => answer DELIVERY_UNKNOWN end.

Example illustrated_outcome :
  length sent_illustrated.2 = 7%nat ∧
  di_status <$> dr_items illustrated_receipt = [ITEM_ACCEPTED; ITEM_ACCEPTED; ITEM_ACCEPTED; ITEM_REJECTED].
Proof. by split. Qed.

Lemma illustrated_preflight : preflight config small_channel illustrated = Ok illustrated_plan.
Proof. vm_compute. reflexivity. Qed.
Lemma illustrated_run :
  _execute busy_once config illustrated_plan [] = (Ok illustrated_receipt, sent_illustrated.2).
Proof. vm_compute. reflexivity. Qed.

Lemma sending_refines_delivery_run_witness :
  wp (_execute busy_once config illustrated_plan) (λ r log', ∃ new, log' = [] ++ new ∧
    delivery_run config 3 (pl_segments illustrated_plan) new ∧ ∀ e, r = Err e → may_raise config e) [].
Proof.
  apply (sending_refines_delivery_run busy_once config small_channel illustrated illustrated_plan []);
    [cbn; lia|exact illustrated_preflight].
Defined.



(** * The coordinator *)

Definition idle : DeliveryCoordinator := Eval vm_compute in
  match new_coordinator config with
  | Ok s => s
  | Err _ => {| dc_config := config; dc_destination_locks := {| kr_max_active_keys := None; kr_entries := [];
      kr_heap := [] |}; dc_pending := 0; dc_pending_by_destination := []; dc_tasks := []; dc_closed := false;
      dc_created := 0; dc_futures := [] |}
  end.
Lemma idle_new : new_coordinator config = Ok idle.
Proof. vm_compute. reflexivity. Qed.

Definition submitted : DeliveryCoordinator := Eval vm_compute in (submit small_channel illustrated idle).2.
Definition running : DeliveryCoordinator := Eval vm_compute in (run_submission_begins 0 submitted).2.

Lemma submitted_reachable : rtc coordinator_step idle submitted.
Proof.
  apply rtc_once. replace submitted with (submit small_channel illustrated idle).2 by (vm_compute; reflexivity).
  constructor.
Qed.
Lemma running_reachable : rtc coordinator_step idle running.
Proof.
  eapply rtc_r; [apply submitted_reachable|].
  replace running with (run_submission_begins 0 submitted).2 by (vm_compute; reflexivity). constructor.
Qed.


(** Submitted, and closed before the task began. *)
Definition closed_at_once : DeliveryCoordinator := Eval vm_compute in
  (close_begins (cancelled_before_begin 0 submitted).2).2.
Lemma delivery_cancelled_before_begin_is_never_released_witness :
  dc_tasks closed_at_once = [] ∧ dc_closed closed_at_once = true ∧
  dc_pending closed_at_once = len (dc_tasks closed_at_once) + 1 ∧ d_get (dc_futures closed_at_once) 0%nat = None ∧
  (start closed_at_once).1 = Err RuntimeError.
Proof.
  split; [reflexivity|]. split; [reflexivity|].
  eapply (delivery_cancelled_before_begin_is_never_released config idle submitted 0);
    [exact idle_new|exact submitted_reachable|vm_compute; reflexivity|reflexivity|].
  apply rtc_once. replace closed_at_once with (close_begins (cancelled_before_begin 0 submitted).2).2
    by (vm_compute; reflexivity). constructor.
Defined.

(** * Locks *)

(** Two tasks ask for one key, and the first leaves. *)
Definition no_locks : KeyedLockRegistry nat := {| kr_max_active_keys := Some 1; kr_entries := []; kr_heap := [] |}.
Definition one_inside : KeyedLockRegistry nat := Eval vm_compute in (hold_enter 5%nat 1%nat no_locks).2.
Definition one_waits : KeyedLockRegistry nat := Eval vm_compute in (hold_enter 5%nat 2%nat one_inside).2.
Definition first_left : KeyedLockRegistry nat := Eval vm_compute in (hold_leave 5%nat 0%nat 1%nat one_waits).2.
Definition first : hold := {| hd_key := 5%nat; hd_task := 1; hd_entry := 0 |}.
Definition second : hold := {| hd_key := 5%nat; hd_task := 2; hd_entry := 0 |}.

Lemma keyed_locks_serve_in_order_witness :
  has_lock first_left second ↔ head (queue_of 5%nat [second]) = Some 2%nat.
Proof.
  apply (keyed_locks_serve_in_order (Some 1) no_locks [second] first_left).
  - reflexivity.
  - eapply rtc_l; [apply (lock_enters [] _ 5%nat 1%nat 0%nat one_inside); [set_solver|vm_compute; reflexivity]|].
    eapply rtc_l; [apply (lock_enters _ _ 5%nat 2%nat 0%nat one_waits); [set_solver|vm_compute; reflexivity]|].
    apply rtc_once. replace [second] with (filter (λ x, x ≠ first) [first; second]) by (vm_compute; reflexivity).
    apply (lock_leaves [first; second] one_waits first first_left); [by left|vm_compute; reflexivity].
  - by left.
Defined.
