(* ===== verification/ProactiveContracts.v ===== *)
(** Proactive delivery: its contract and its pure rules, [gateway/delivery/proactive.py],
    [submissions.py], [proactive_authorization.py] and the functions of
    [proactive_runtime.py]. *)

From S2P Require Export DeliveryPlanning Submissions Coordination.
From Stdlib Require Import Qcanon.
From stdpp Require Import list sorting.
#[local] Open Scope Z_scope.
#[local] Open Scope stdpp_scope.

(** * Intents and results *)

(** [gateway/delivery/proactive.py:61-68] DeliveryIntent *)
Record DeliveryIntent := {
  in_delivery_id : pystr;
  in_target : DeliveryTarget;
  in_content : list Content;
  in_created_at : datetime;
  in_reply_to : option pystr;
  in_metadata : Metadata;
}.

(** [gateway/delivery/proactive.py:71-79] DestinationDeliveryResult *)
Record DestinationDeliveryResult := {
  de_delivery_id : pystr;
  de_state : DeliverySubmissionState;
  de_route_id : option pystr;
  de_conversation_ref : option ConversationRef;
  de_receipt : option DeliveryReceipt;
  de_error : option pystr;
  de_replayed : bool;
}.

(** [gateway/delivery/proactive.py:82-87] ProactiveDeliveryResult *)
Record ProactiveDeliveryResult := {
  pd_delivery_id : pystr;
  pd_state : DeliverySubmissionState;
  pd_destinations : list DestinationDeliveryResult;
  pd_error : option pystr;
}.

(** [gateway/delivery/submissions.py:22-33] _canonical_metadata *)
Definition _canonical_metadata (metadata : Metadata) : res Metadata :=
  if json_compatible (VObj metadata) then
    match sorted_keys (VObj metadata) with VObj d => Ok d | _ => Ok metadata end
  else Err (ContractViolation "delivery metadata must be JSON-compatible").

(** [gateway/delivery/proactive.py:108-143] validate_delivery_intent: the loop over the
    content, with the attachment IDs seen *)
Fixpoint validate_intent_content (attachment_ids : list pystr) (content : list Content) : res unit :=
  match content with
  | [] => Ok ()
  | TextContent text _ :: rest =>
      raise_if (text = []) (ContractViolation "content[index] text cannot be empty") ;;
      validate_intent_content attachment_ids rest
  | Attachment item :: rest =>
      require_identifier (ac_attachment_id item) "content[index].attachment_id" ;;
      raise_if (ac_attachment_id item ∈ attachment_ids)
        (ContractViolation "delivery attachment IDs must be unique") ;;
      raise_if (ac_media_type item = []) (ContractViolation "content[index].media_type cannot be empty") ;;
      when_some (ac_filename item) (λ name,
        raise_if (strip name = []) (ContractViolation "content[index].filename cannot be empty")) ;;
      when_some (ac_size_bytes item) (λ size, raise_if (size < 0)
        (ContractViolation "content[index].size_bytes must be a non-negative integer")) ;;
      _canonical_metadata (ac_metadata item) ;;
      match ac_source item with
      | LocalPath path =>
          raise_if (path = []) (ContractViolation "content[index].source.path cannot be empty")
      | RemoteUrl url =>
          raise_if (url = []) (ContractViolation "content[index].source.url cannot be empty")
      | AttachmentHandle handle_id => require_identifier handle_id "content[index].source.handle_id"
      end ;;
      validate_intent_content (ac_attachment_id item :: attachment_ids) rest
  end.

(** [gateway/delivery/proactive.py:90-143] validate_delivery_intent *)
Definition validate_delivery_intent (intent : DeliveryIntent) : res unit :=
  require_identifier (in_delivery_id intent) "delivery_id" ;;
  match in_target intent with
  | ConversationDeliveryTarget conversation_ref => _validate_conversation_ref conversation_ref
  | ThreadRouteDeliveryTarget thread_ref route_id =>
      validate_thread_ref thread_ref ;;
      when_some route_id (λ i, require_identifier i "route_id")
  end ;;
  raise_if (in_content intent = []) (ContractViolation "delivery content cannot be empty") ;;
  when_some (in_reply_to intent) (λ i, require_identifier i "reply_to") ;;
  _canonical_metadata (in_metadata intent) ;;
  validate_intent_content [] (in_content intent).

(** * Fingerprints *)

Section fingerprint.
Context (float_repr : Qc → pystr).

(** [gateway/delivery/submissions.py:129-137] _sha256_identity: of any document *)
Definition sha256_document (label : string) (identity : jvalue) : res pystr :=
  encoded ← dumps_sorted float_repr identity ;
  bytes ← utf8 encoded ;
  Ok (py "imagent:delivery-" ++ py label ++ py ":sha256:" ++ sha256_hex bytes).

Definition v_opt_str (s : option pystr) : jvalue := match s with Some s => VStr s | None => VNull end.
Definition v_opt_int (n : option Z) : jvalue := match n with Some n => VInt n | None => VNull end.

(** [gateway/delivery/submissions.py:96-126] _content_identity *)
Definition _content_identity (content : Content) : res jvalue :=
  match content with
  | TextContent text format => Ok (VObj [
      (py "kind", VStr (py "text"));
      (py "text", VStr text);
      (py "format", VStr (match format with PLAIN => py "plain" | MARKDOWN => py "markdown" end))])
  | Attachment item =>
      let source := match ac_source item with
        | LocalPath path =>
            match d_get (ac_metadata item) (py "sha256") with
            | Some (VStr ((_ :: _) as digest)) =>
                VObj [(py "kind", VStr (py "local_path")); (py "sha256", VStr digest)]
            | _ => VObj [(py "kind", VStr (py "local_path")); (py "path", VStr path)]
            end
        | RemoteUrl url => VObj [(py "kind", VStr (py "remote_url")); (py "url", VStr url)]
        | AttachmentHandle handle_id =>
            VObj [(py "kind", VStr (py "attachment_handle")); (py "handle_id", VStr handle_id)]
        end in
      metadata ← _canonical_metadata (ac_metadata item) ;
      Ok (VObj [
        (py "kind", VStr (py "attachment"));
        (py "attachment_id", VStr (ac_attachment_id item));
        (py "media_type", VStr (ac_media_type item));
        (py "source", source);
        (py "filename", v_opt_str (ac_filename item));
        (py "size_bytes", v_opt_int (ac_size_bytes item));
        (py "metadata", VObj metadata)])
  end.

(** [gateway/delivery/submissions.py:52-59] derive_delivery_payload_fingerprint *)
Definition derive_delivery_payload_fingerprint (intent : DeliveryIntent) : res pystr :=
  validate_delivery_intent intent ;;
  content ← map_res _content_identity (in_content intent) ;
  metadata ← _canonical_metadata (in_metadata intent) ;
  sha256_document "payload" (VObj [
    (py "content", VArr content);
    (py "reply_to", v_opt_str (in_reply_to intent));
    (py "metadata", VObj metadata)]).
End fingerprint.

(** * Authorization *)

(** [gateway/delivery/proactive_authorization.py:17-21] DeliveryPrincipal *)
Record DeliveryPrincipal := {
  dp_principal_id : pystr;
  dp_allowed_threads : list ThreadRef;
  dp_allowed_conversations : list ConversationRef;
}.

(** [gateway/delivery/proactive_authorization.py:24-33] validate_delivery_principal *)
Definition validate_delivery_principal (principal : DeliveryPrincipal) : res unit :=
  require_identifier (dp_principal_id principal) "principal_id" ;;
  raise_if (all_distinct (dp_allowed_threads principal) = false)
    (ContractViolation "allowed_threads must be unique") ;;
  raise_if (all_distinct (dp_allowed_conversations principal) = false)
    (ContractViolation "allowed_conversations must be unique") ;;
  for_each (dp_allowed_threads principal) validate_thread_ref ;;
  for_each (dp_allowed_conversations principal) _validate_conversation_ref.

(** [gateway/delivery/proactive_authorization.py:40-52] ScopedDeliveryAuthorizer *)
Record ScopedDeliveryAuthorizer := {
  sa_max_principals : Z;
  sa_principals : dict pystr DeliveryPrincipal;
}.

(** [gateway/delivery/proactive_authorization.py:43-52] ScopedDeliveryAuthorizer.__init__ *)
Definition new_authorizer (max_principals : Z) : res ScopedDeliveryAuthorizer :=
  raise_if (max_principals < 1) ValueError ;;
  Ok {| sa_max_principals := max_principals; sa_principals := [] |}.

Definition set_principals principals (s : ScopedDeliveryAuthorizer) : ScopedDeliveryAuthorizer :=
  {| sa_max_principals := sa_max_principals s; sa_principals := principals |}.

(** [gateway/delivery/proactive_authorization.py:54-70] ScopedDeliveryAuthorizer.issue: a
    credential that is missing or empty is drawn, [drawn] *)
Definition issue (principal : DeliveryPrincipal) (credential : option pystr) (drawn : pystr)
    : M ScopedDeliveryAuthorizer pystr :=
  lift (validate_delivery_principal principal) ;;
  let token := match credential with Some ((_ :: _) as c) => c | _ => drawn end in
  raise_if (token = [] ∨ 4096 < len token) ValueError ;;
  s ← get_st ;
  raise_if (is_Some (d_get (sa_principals s) token)) ValueError ;;
  raise_if (sa_max_principals s ≤ len (sa_principals s)) ValueError ;;
  modify (set_principals (d_set (sa_principals s) token principal)) ;;
  mret token.

(** [gateway/delivery/proactive_authorization.py:72-74] ScopedDeliveryAuthorizer.revoke *)
Definition revoke (credential : pystr) : M ScopedDeliveryAuthorizer bool :=
  s ← get_st ;
  modify (set_principals (d_pop (sa_principals s) credential)) ;;
  mret (bool_decide (is_Some (d_get (sa_principals s) credential))).

(** [gateway/delivery/proactive_authorization.py:76-83] ScopedDeliveryAuthorizer.authenticate *)
Definition authenticate (credential : pystr) : M ScopedDeliveryAuthorizer DeliveryPrincipal :=
  raise_if (credential = []) DeliveryAuthorizationError ;;
  s ← get_st ;
  match d_get (sa_principals s) credential with
  | None => mraise DeliveryAuthorizationError
  | Some principal => mret principal
  end.

(** [gateway/delivery/proactive_runtime.py:559-575] authorize_delivery_target *)
Definition authorize_delivery_target (principal : DeliveryPrincipal) (target : DeliveryTarget) : res unit :=
  match target with
  | ConversationDeliveryTarget conversation_ref =>
      raise_if (conversation_ref ∉ dp_allowed_conversations principal) DeliveryAuthorizationError
  | ThreadRouteDeliveryTarget thread_ref _ =>
      raise_if (thread_ref ∉ dp_allowed_threads principal) DeliveryAuthorizationError
  end.

(** * Destination records and results *)

Definition MAX_DIGEST : Z := 64.

(** [not isinstance(digest, str) or len(digest) != 64 or any(character not in ...)]. *)
Definition lowercase_digest (value : option jvalue) : Prop :=
  match value with
  | Some (VStr digest) => len digest = MAX_DIGEST ∧ Forall (λ c, c ∈ py "0123456789abcdef") digest
  | _ => False
  end.
#[export] Instance lowercase_digest_dec v : Decision (lowercase_digest v).
Proof. destruct v as [[]|]; simpl; apply _. Defined.

(** [gateway/delivery/proactive_runtime.py:747-762] _require_external_local_digests *)
Definition _require_external_local_digests (intent : DeliveryIntent) : res unit :=
  for_each (in_content intent) (λ item,
    match item with
    | Attachment {| ac_source := LocalPath _; ac_metadata := metadata |} =>
        raise_if (¬ lowercase_digest (d_get metadata (py "sha256")))
          (ContractViolation "proactive LocalPath attachments require lowercase metadata.sha256")
    | _ => Ok ()
    end).

(** [gateway/delivery/proactive_runtime.py:765-779] _ensure_submission_identity *)
Definition _ensure_submission_identity (existing : DeliverySubmissionRecord)
    (principal_id target_fingerprint payload_fingerprint : pystr) : res unit :=
  raise_if (sr_principal_id existing ≠ principal_id
            ∨ sr_target_fingerprint existing ≠ target_fingerprint
            ∨ sr_payload_fingerprint existing ≠ payload_fingerprint) DeliverySubmissionConflict.

(** [gateway/delivery/proactive_runtime.py:578-605] _state_from_receipt *)
Definition _state_from_receipt (receipt : DeliveryReceipt) : DeliverySubmissionState :=
  let item_states := di_status <$> dr_items receipt in
  let segment_states := dg_status <$> dr_segments receipt in
  let has_acceptance := ITEM_ACCEPTED ∈ item_states ∨ SEGMENT_ACCEPTED_BY_PLATFORM ∈ segment_states in
  match dr_status receipt with
  | DELIVERY_UNKNOWN => UNKNOWN
  | RETRYABLE_FAILURE => RETRYABLE
  | REJECTED_BY_PLATFORM => if decide has_acceptance then PARTIAL else REJECTED
  | ACCEPTED_BY_PLATFORM =>
      if decide (Exists (λ s, s ∈ [ITEM_REJECTED; ITEM_RETRYABLE_FAILURE; ITEM_UNKNOWN; ITEM_SKIPPED])
                   item_states
                 ∨ Exists (λ s, s ∈ [SEGMENT_REJECTED_BY_PLATFORM; SEGMENT_RETRYABLE_FAILURE;
                                     SEGMENT_UNKNOWN; SEGMENT_SKIPPED]) segment_states)
      then PARTIAL else ACCEPTED
  end.

(** [gateway/delivery/proactive_runtime.py:608-617] _destination_ids *)
Definition _destination_ids (root_submission_id : pystr) (snapshots : list DeliveryRouteSnapshot)
    : res (list pystr) :=
  match snapshots with
  | [_] => Ok [root_submission_id]
  | _ => map_res (λ s, derive_destination_delivery_id root_submission_id (ds_conversation_ref s)) snapshots
  end.

(** [gateway/delivery/proactive_runtime.py:734-744] _durable_delivery_receipt: of a receipt *)
Definition _durable_delivery_receipt (receipt : DeliveryReceipt) : DeliveryReceipt := {|
  dr_status := dr_status receipt;
  dr_native_message_id := dr_native_message_id receipt;
  dr_detail := None;
  dr_items := (λ item, {|
    di_content_index := di_content_index item; di_status := di_status item;
    di_attachment_id := di_attachment_id item; di_native_message_id := di_native_message_id item;
    di_detail := None |}) <$> dr_items receipt;
  dr_segments := (λ segment, {|
    dg_segment_index := dg_segment_index segment; dg_delivery_id := dg_delivery_id segment;
    dg_source_content_indexes := dg_source_content_indexes segment; dg_status := dg_status segment;
    dg_native_message_id := dg_native_message_id segment; dg_detail := None;
    dg_retry_after_seconds := dg_retry_after_seconds segment |}) <$> dr_segments receipt;
  dr_retry_after_seconds := dr_retry_after_seconds receipt |}.

(** [gateway/delivery/proactive_runtime.py:706-731] _redact_receipt: of a receipt *)
Definition _redact_receipt (receipt : DeliveryReceipt) : DeliveryReceipt := {|
  dr_status := dr_status receipt;
  dr_native_message_id := None;
  dr_detail := None;
  dr_items := (λ item, {|
    di_content_index := di_content_index item; di_status := di_status item;
    di_attachment_id := di_attachment_id item; di_native_message_id := None;
    di_detail := None |}) <$> dr_items receipt;
  dr_segments := (λ segment, {|
    dg_segment_index := dg_segment_index segment; dg_delivery_id := dg_delivery_id segment;
    dg_source_content_indexes := dg_source_content_indexes segment; dg_status := dg_status segment;
    dg_native_message_id := None; dg_detail := None;
    dg_retry_after_seconds := dg_retry_after_seconds segment |}) <$> dr_segments receipt;
  dr_retry_after_seconds := dr_retry_after_seconds receipt |}.

(** [isinstance(target, ConversationDeliveryTarget)]. *)
Definition explicit_target (target : DeliveryTarget) : bool :=
  match target with ConversationDeliveryTarget _ => true | ThreadRouteDeliveryTarget _ _ => false end.

(** [gateway/delivery/proactive_runtime.py:620-660] _preflight_rejection *)
Definition _preflight_rejection (intent : DeliveryIntent) (execution_root_id : pystr)
    (snapshots : list DeliveryRouteSnapshot) (error : pystr) : res ProactiveDeliveryResult :=
  ids ← _destination_ids execution_root_id snapshots ;
  let item_receipts := imap (λ index item, {|
    di_content_index := Z.of_nat index;
    di_status := ITEM_SKIPPED;
    di_attachment_id := content_attachment_id item;
    di_native_message_id := None;
    di_detail := Some error |}) (in_content intent) in
  Ok {|
    pd_delivery_id := in_delivery_id intent;
    pd_state := REJECTED;
    pd_destinations := zip_with (λ delivery_id snapshot, {|
      de_delivery_id := delivery_id;
      de_state := REJECTED;
      de_route_id := ds_route_id snapshot;
      de_conversation_ref :=
        if explicit_target (in_target intent) then Some (ds_conversation_ref snapshot) else None;
      de_receipt := Some {|
        dr_status := REJECTED_BY_PLATFORM; dr_native_message_id := None; dr_detail := Some error;
        dr_items := item_receipts; dr_segments := []; dr_retry_after_seconds := None |};
      de_error := Some error;
      de_replayed := false |}) ids snapshots;
    pd_error := Some error |}.

(** [gateway/delivery/proactive_runtime.py:663-703] _result_from_record *)
Definition _result_from_record (record : DeliverySubmissionRecord) (replayed expose_conversations : bool)
    : ProactiveDeliveryResult :=
  let destinations := (λ d, {|
    de_delivery_id := dd_delivery_id d;
    de_state := dd_state d;
    de_route_id := ds_route_id (dd_snapshot d);
    de_conversation_ref :=
      if expose_conversations then Some (ds_conversation_ref (dd_snapshot d)) else None;
    de_receipt := if expose_conversations then dd_receipt d else _redact_receipt <$> dd_receipt d;
    de_error := None;
    de_replayed := replayed |}) <$> sr_destinations record in
  let states := remove_dups (de_state <$> destinations) in
  let state :=
    if decide (IN_FLIGHT ∈ states) then IN_FLIGHT
    else match states with [only] => only | _ => PARTIAL end in
  {| pd_delivery_id := sr_delivery_id record;
     pd_state := state;
     pd_destinations := destinations;
     pd_error :=
       if decide (state = ACCEPTED) then None
       else Some (py "one or more destinations did not complete successfully") |}.
