(* ===== verification/ProactiveDelivery.v ===== *)
(** Proactive delivery, [ProactiveDeliveryService] of
    [gateway/delivery/proactive_runtime.py].

    A coroutine is a program tree: each node is an operation it awaits (or the
    clock it reads, or the observer it notifies), with what it does with the
    outcome.  Its tasks run on one event loop, in any order, over one
    submission repository; [pool_step] below is that loop, with cancellations
    and crashes. *)

From S2P Require Export ProactiveContracts.
From Stdlib Require Import Qcanon.
From stdpp Require Import list sorting.
#[local] Open Scope Z_scope.
#[local] Open Scope stdpp_scope.

(** [gateway/delivery/outcome_observation.py:25-30] DeliveryOutcomeErrorCode *)
Inductive DeliveryOutcomeErrorCode : Type := PLANNING_FAILED | EXECUTION_FAILED | CANCELLED.

(** [gateway/delivery/proactive_runtime.py:78-96] ProactiveDeliveryService: the profiles
    of its Channels, the configuration of its coordinator, and whether it has an
    authorizer and an observer *)
Record service := {
  sv_channels : dict pystr DeliveryProfile;
  sv_config : DeliveryCoordinatorConfig;
  sv_authorizer : bool;
  sv_observer : bool;
}.

(** * Programs *)

Inductive proc (A : Type) : Type :=
| Ret (r : res A)
| Get (submission_id : pystr) (k : res (option DeliverySubmissionRecord) → proc A)
| ReserveSubmission (record : DeliverySubmissionRecord) (k : res DeliveryReservation → proc A)
| Update (submission_id destination_delivery_id : pystr) (expected : DeliverySubmissionState)
    (destination : DestinationDeliveryRecord) (k : res DeliverySubmissionRecord → proc A)
| Authenticate (credential : pystr) (k : res DeliveryPrincipal → proc A)
| Routes (thread_ref : ThreadRef) (k : res (list ThreadProjectionRoute) → proc A)
| Now (k : datetime → proc A)
(* [coordinator.deliver], for a destination of a submission *)
| Deliver (submission_id : pystr) (profile : DeliveryProfile) (message : OutboundMessage)
    (k : res DeliveryReceipt → proc A)
| Notify (message : OutboundMessage) (receipt : option DeliveryReceipt)
    (error : option DeliveryOutcomeErrorCode) (k : proc A)
(* [asyncio.gather] of [_send_destination] over destinations *)
| Gather (sv : service) (intent : DeliveryIntent) (submission_id : pystr)
    (destinations : list DestinationDeliveryRecord) (k : res unit → proc A).
Arguments Ret {A} _.
Arguments Get {A} _ _.
Arguments ReserveSubmission {A} _ _.
Arguments Update {A} _ _ _ _ _.
Arguments Authenticate {A} _ _.
Arguments Routes {A} _ _.
Arguments Now {A} _.
Arguments Deliver {A} _ _ _ _.
Arguments Notify {A} _ _ _ _.
Arguments Gather {A} _ _ _ _ _.

(** What follows a program, whatever it returned or raised. *)
Fixpoint continue {A B} (p : proc A) (f : res A → proc B) : proc B :=
  match p with
  | Ret r => f r
  | Get i k => Get i (λ r, continue (k r) f)
  | ReserveSubmission record k => ReserveSubmission record (λ r, continue (k r) f)
  | Update i d e r k => Update i d e r (λ r, continue (k r) f)
  | Authenticate c k => Authenticate c (λ r, continue (k r) f)
  | Routes t k => Routes t (λ r, continue (k r) f)
  | Now k => Now (λ t, continue (k t) f)
  | Deliver i profile m k => Deliver i profile m (λ r, continue (k r) f)
  | Notify m r e k => Notify m r e (continue k f)
  | Gather sv intent i ds k => Gather sv intent i ds (λ r, continue (k r) f)
  end.

#[export] Instance proc_ret : MRet proc := λ A a, Ret (Ok a).
#[export] Instance proc_bind : MBind proc := λ A B f p,
  continue p (λ r, match r with Ok a => f a | Err e => Ret (Err e) end).
#[export] Instance proc_raise : MRaise proc := λ A e, Ret (Err e).

(** [try: p], with what it returned or raised. *)
Definition attempted {A} (p : proc A) : proc (res A) := continue p (λ r, Ret (Ok r)).
Definition pure {A} (r : res A) : proc A := Ret r.

(** [a or b] on optional strings. *)
Definition py_or (a b : option pystr) : option pystr :=
  match a with Some ((_ :: _) as s) => Some s | _ => b end.

(** The order of the key [(a, b, c)]. *)
Definition route_key_le (r1 r2 : ThreadProjectionRoute) : Prop :=
  let c1 := tr_conversation_ref r1 in let c2 := tr_conversation_ref r2 in
  if decide (cv_channel_instance_id c1 ≠ cv_channel_instance_id c2)
  then str_le (cv_channel_instance_id c1) (cv_channel_instance_id c2)
  else if decide (cv_native_conversation_id c1 ≠ cv_native_conversation_id c2)
  then str_le (cv_native_conversation_id c1) (cv_native_conversation_id c2)
  else str_le (tr_route_id r1) (tr_route_id r2).
#[export] Instance route_key_le_dec : RelDecision route_key_le.
Proof. intros r1 r2. unfold route_key_le. cbv zeta. repeat case_decide; apply _. Defined.

Section service.
(** [repr] of a float in JSON, and [str(error) or type(error).__name__]. *)
Context (float_repr : Qc → pystr) (error_text : exn → pystr).

(** [gateway/delivery/proactive_runtime.py:345-359] ProactiveDeliveryService._snapshot_intent *)
Definition _snapshot_intent (intent : DeliveryIntent) : res DeliveryIntent :=
  content ← map_res (λ item,
    match item with
    | Attachment a =>
        metadata ← _canonical_metadata (ac_metadata a) ;
        Ok (Attachment {|
          ac_attachment_id := ac_attachment_id a; ac_media_type := ac_media_type a;
          ac_source := ac_source a; ac_filename := ac_filename a; ac_size_bytes := ac_size_bytes a;
          ac_metadata := metadata |})
    | TextContent _ _ => Ok item
    end) (in_content intent) ;
  metadata ← _canonical_metadata (in_metadata intent) ;
  Ok {|
    in_delivery_id := in_delivery_id intent; in_target := in_target intent; in_content := content;
    in_created_at := in_created_at intent; in_reply_to := in_reply_to intent; in_metadata := metadata |}.

(** [gateway/delivery/proactive_runtime.py:340-343] ProactiveDeliveryService._validate_external_intent *)
Definition _validate_external_intent (sv : service) (intent : DeliveryIntent) : res unit :=
  validate_source_item_count (sv_config sv) (len (in_content intent)) ;;
  validate_delivery_intent intent ;;
  _require_external_local_digests intent.

(** [gateway/delivery/proactive_runtime.py:361-371] ProactiveDeliveryService._ensure_replay_identity *)
Definition _ensure_replay_identity (intent : DeliveryIntent) (existing : DeliverySubmissionRecord)
    : res unit :=
  target_fingerprint ← derive_delivery_target_fingerprint (in_target intent) ;
  payload_fingerprint ← derive_delivery_payload_fingerprint float_repr intent ;
  _ensure_submission_identity existing (sr_principal_id existing) target_fingerprint payload_fingerprint.

(** The message of a destination. *)
Definition destination_message (intent : DeliveryIntent) (delivery_id : pystr)
    (snapshot : DeliveryRouteSnapshot) : OutboundMessage := {|
  om_delivery_id := delivery_id;
  om_conversation_ref := ds_conversation_ref snapshot;
  om_content := in_content intent;
  om_created_at := in_created_at intent;
  om_reply_to := py_or (in_reply_to intent) (ds_reply_to_message_id snapshot);
  om_metadata := in_metadata intent |}.

(** [replace(destination, state=..., receipt=..., updated_at=...)]. *)
Definition with_state (d : DestinationDeliveryRecord) (state : DeliverySubmissionState)
    (receipt : option DeliveryReceipt) (updated_at : datetime) : DestinationDeliveryRecord := {|
  dd_delivery_id := dd_delivery_id d; dd_snapshot := dd_snapshot d; dd_state := state;
  dd_updated_at := updated_at; dd_receipt := receipt |}.

(** A receipt with a status and a detail alone. *)
Definition bare_receipt (status : DeliveryReceiptStatus) (detail : pystr) : DeliveryReceipt := {|
  dr_status := status; dr_native_message_id := None; dr_detail := Some detail;
  dr_items := []; dr_segments := []; dr_retry_after_seconds := None |}.

(** [gateway/delivery/proactive_runtime.py:502-534] _send_destination: what becomes of a
    delivery: the receipt and state to record, the error to report, and whether
    the cancellation is passed on; [None] when the exception is raised at once *)
Definition delivery_result (intent : DeliveryIntent) (outcome : res DeliveryReceipt)
    : option (DeliveryReceipt * DeliverySubmissionState * option DeliveryOutcomeErrorCode * bool) :=
  match (receipt ← outcome ;
         validate_delivery_receipt_for_content receipt (in_content intent) ;; Ok receipt) with
  | Ok receipt => Some (receipt, _state_from_receipt receipt, None, false)
  | Err DeliveryPlanningError =>
      Some (bare_receipt REJECTED_BY_PLATFORM (error_text DeliveryPlanningError), REJECTED,
        Some PLANNING_FAILED, false)
  | Err CancelledError =>
      Some (bare_receipt DELIVERY_UNKNOWN
          (py "delivery cancelled before the native outcome was confirmed"), UNKNOWN,
        Some CANCELLED, true)
  | Err KeyboardInterrupt | Err SystemExit => None
  | Err e => Some (bare_receipt DELIVERY_UNKNOWN (error_text e), UNKNOWN, Some EXECUTION_FAILED, false)
  end.

(** [self._outcome_observer.notify(...)], which does not raise and is bounded elsewhere. *)
Definition notify_observer (sv : service) (message : OutboundMessage) (receipt : DeliveryReceipt)
    (error : option DeliveryOutcomeErrorCode) (k : proc unit) : proc unit :=
  if sv_observer sv
  then Notify message (match error with None => Some receipt | Some _ => None end) error k
  else k.

(** [gateway/delivery/proactive_runtime.py:486-556] ProactiveDeliveryService._send_destination *)
Definition _send_destination (sv : service) (intent : DeliveryIntent) (submission_id : pystr)
    (destination : DestinationDeliveryRecord) : proc unit :=
  let snapshot := dd_snapshot destination in
  match d_get (sv_channels sv) (cv_channel_instance_id (ds_conversation_ref snapshot)) with
  | None => mraise KeyError
  | Some profile =>
      let message := destination_message intent (dd_delivery_id destination) snapshot in
      Deliver submission_id profile message (λ outcome,
      match delivery_result intent outcome with
      | None => pure (outcome ;; Ok ())
      | Some (receipt, state, outcome_error, cancelled) =>
          Now (λ now,
          Update submission_id (dd_delivery_id destination) IN_FLIGHT
            (with_state destination state (Some (_durable_delivery_receipt receipt)) now) (λ updated,
          notify_observer sv message receipt outcome_error
            (pure (updated ;; (if (cancelled : bool) then Err CancelledError else Ok ())))))
      end)
  end.

(** [gateway/delivery/proactive_runtime.py:458-484] ProactiveDeliveryService._preflight *)
Fixpoint _preflight (sv : service) (intent : DeliveryIntent) (snapshots : list DeliveryRouteSnapshot)
    : res (option pystr) :=
  match snapshots with
  | [] => Ok None
  | snapshot :: rest =>
      match d_get (sv_channels sv) (cv_channel_instance_id (ds_conversation_ref snapshot)) with
      | None => Ok (Some (py "destination Channel is not registered: " ++
                          cv_channel_instance_id (ds_conversation_ref snapshot)))
      | Some profile =>
          match preflight (sv_config sv) profile
                  (destination_message intent (in_delivery_id intent) snapshot) with
          | Ok _ => _preflight sv intent rest
          | Err DeliveryPlanningError => Ok (Some (error_text DeliveryPlanningError))
          | Err e => Err e
          end
      end
  end.

Definition route_snapshot (route : ThreadProjectionRoute) : DeliveryRouteSnapshot := {|
  ds_conversation_ref := tr_conversation_ref route;
  ds_thread_ref := Some (tr_thread_ref route);
  ds_route_id := Some (tr_route_id route);
  ds_route_updated_at := tr_updated_at route;
  ds_reply_to_message_id := tr_reply_to_message_id route |}.

(** [gateway/delivery/proactive_runtime.py:420-456] ProactiveDeliveryService._resolve_snapshots *)
Definition _resolve_snapshots (intent : DeliveryIntent) : proc (list DeliveryRouteSnapshot) :=
  match in_target intent with
  | ConversationDeliveryTarget conversation_ref =>
      mret [{| ds_conversation_ref := conversation_ref; ds_thread_ref := None; ds_route_id := None;
               ds_route_updated_at := None; ds_reply_to_message_id := None |}]
  | ThreadRouteDeliveryTarget thread_ref route_id =>
      Routes thread_ref (λ found, pure (
        routes ← found ;
        let routes := match route_id with
          | Some i => filter (λ route, tr_route_id route = i) routes
          | None => routes
          end in
        raise_if (routes = []) DeliveryRouteError ;;
        validate_delivery_submission_destination_count (len routes) ;;
        let snapshots := route_snapshot <$> merge_sort route_key_le routes in
        raise_if (¬ NoDup (ds_conversation_ref <$> snapshots)) DeliveryRouteError ;;
        Ok snapshots))
  end.

(** [gateway/delivery/proactive_runtime.py:383-389] _resume_retryable_destinations:
    whether the destination is passed over *)
Definition not_due (now : datetime) (d : DestinationDeliveryRecord) : res bool :=
  match dd_receipt d ≫= dr_retry_after_seconds with
  | None => Ok false
  | Some seconds =>
      delta ← timedelta_us seconds ;
      due_at ← dt_add (dd_updated_at d) delta ;
      dt_ltb now due_at
  end.

(** [gateway/delivery/proactive_runtime.py:380-405] _resume_retryable_destinations: the loop *)
Fixpoint claim_destinations (submission_id : pystr) (now : datetime)
    (claimed destinations : list DestinationDeliveryRecord) : proc (list DestinationDeliveryRecord) :=
  match destinations with
  | [] => mret claimed
  | destination :: rest =>
      if decide (dd_state destination ≠ RETRYABLE) then claim_destinations submission_id now claimed rest
      else match not_due now destination with
      | Err e => mraise e
      | Ok true => claim_destinations submission_id now claimed rest
      | Ok false =>
          let in_flight := with_state destination IN_FLIGHT None now in
          Update submission_id (dd_delivery_id destination) RETRYABLE in_flight (λ updated,
          match updated with
          | Ok _ => claim_destinations submission_id now (claimed ++ [in_flight]) rest
          | Err DeliverySubmissionConflict => claim_destinations submission_id now claimed rest
          | Err e => mraise e
          end)
      end
  end.

(** [gateway/delivery/proactive_runtime.py:315-327] sending to one destination, or to
    all of several at once *)
Definition send_all (sv : service) (intent : DeliveryIntent) (submission_id : pystr)
    (destinations : list DestinationDeliveryRecord) : proc unit :=
  match destinations with
  | [destination] => _send_destination sv intent submission_id destination
  | _ => Gather sv intent submission_id destinations Ret
  end.

Definition disappeared {A} (found : option A) : proc A :=
  match found with None => mraise RuntimeError | Some record => mret record end.

(** [gateway/delivery/proactive_runtime.py:373-418] ProactiveDeliveryService._resume_retryable_destinations *)
Definition _resume_retryable_destinations (sv : service) (intent : DeliveryIntent)
    (record : DeliverySubmissionRecord) : proc DeliverySubmissionRecord :=
  Now (λ now,
  claimed ← claim_destinations (sr_submission_id record) now [] (sr_destinations record) ;
  (match claimed with [] => mret () | _ => send_all sv intent (sr_submission_id record) claimed end) ;;
  current ← Get (sr_submission_id record) Ret ;
  disappeared current).

(** The record of a submission whose destinations are given with their states. *)
Definition new_record (submission_id : pystr) (intent : DeliveryIntent)
    (origin : DeliverySubmissionOrigin) (principal_id target_fingerprint payload_fingerprint : pystr)
    (destinations : list DestinationDeliveryRecord) (now : datetime) : DeliverySubmissionRecord := {|
  sr_submission_id := submission_id; sr_delivery_id := in_delivery_id intent; sr_origin := origin;
  sr_principal_id := principal_id; sr_target_fingerprint := target_fingerprint;
  sr_payload_fingerprint := payload_fingerprint; sr_destinations := destinations;
  sr_created_at := now; sr_updated_at := now |}.

Definition in_flight_destination (now : datetime) (delivery_id : pystr)
    (snapshot : DeliveryRouteSnapshot) : DestinationDeliveryRecord := {|
  dd_delivery_id := delivery_id; dd_snapshot := snapshot; dd_state := IN_FLIGHT;
  dd_updated_at := now; dd_receipt := None |}.

Definition rejected_destination (now : datetime) (result : DestinationDeliveryResult)
    (snapshot : DeliveryRouteSnapshot) : DestinationDeliveryRecord := {|
  dd_delivery_id := de_delivery_id result; dd_snapshot := snapshot; dd_state := de_state result;
  dd_updated_at := now; dd_receipt := _durable_delivery_receipt <$> de_receipt result |}.

(** [gateway/delivery/proactive_runtime.py:192-218] _submit: when a submission with the
    ID is stored *)
Definition resubmit (sv : service) (intent : DeliveryIntent) (principal : DeliveryPrincipal)
    (authorize : bool) (existing : DeliverySubmissionRecord) : proc ProactiveDeliveryResult :=
  pure (
    target_fingerprint ← derive_delivery_target_fingerprint (in_target intent) ;
    payload_fingerprint ← derive_delivery_payload_fingerprint float_repr intent ;
    _ensure_submission_identity existing (dp_principal_id principal) target_fingerprint payload_fingerprint ;;
    if authorize then authorize_delivery_target principal (in_target intent) else Ok ()) ;;
  current ← (if decide (Exists (λ d, dd_state d = RETRYABLE) (sr_destinations existing))
             then _resume_retryable_destinations sv intent existing else mret existing) ;
  mret (_result_from_record current true (explicit_target (in_target intent))).

(** [gateway/delivery/proactive_runtime.py:227-276] _submit: when a destination cannot
    take the content *)
Definition submit_rejection (intent : DeliveryIntent) (record_of : list DestinationDeliveryRecord →
    datetime → DeliverySubmissionRecord) (execution_root_id : pystr)
    (snapshots : list DeliveryRouteSnapshot) (preflight_error : pystr) : proc ProactiveDeliveryResult :=
  rejection ← pure (_preflight_rejection intent execution_root_id snapshots preflight_error) ;
  Now (λ now,
  let rejected_record :=
    record_of (zip_with (rejected_destination now) (pd_destinations rejection) snapshots) now in
  reservation ← ReserveSubmission rejected_record Ret ;
  if rv_acquired reservation && explicit_target (in_target intent) then mret rejection
  else
    pure (if rv_acquired reservation then Ok ()
          else ensure_same_delivery_submission_reservation (rv_record reservation) rejected_record) ;;
    mret (_result_from_record (rv_record reservation) (negb (rv_acquired reservation))
      (explicit_target (in_target intent)))).

(** [gateway/delivery/proactive_runtime.py:278-338] _submit: when every destination can *)
Definition submit_accepted (sv : service) (intent : DeliveryIntent) (record_of : list
    DestinationDeliveryRecord → datetime → DeliverySubmissionRecord) (submission_id execution_root_id : pystr)
    (snapshots : list DeliveryRouteSnapshot) : proc ProactiveDeliveryResult :=
  Now (λ now,
  destination_ids ← pure (_destination_ids execution_root_id snapshots) ;
  let record := record_of (zip_with (in_flight_destination now) destination_ids snapshots) now in
  reservation ← ReserveSubmission record Ret ;
  if rv_acquired reservation then
    send_all sv intent submission_id (sr_destinations (rv_record reservation)) ;;
    completed ← Get submission_id Ret ;
    completed ← disappeared completed ;
    mret (_result_from_record completed false (explicit_target (in_target intent)))
  else
    pure (ensure_same_delivery_submission_reservation (rv_record reservation) record) ;;
    mret (_result_from_record (rv_record reservation) true (explicit_target (in_target intent)))).

(** [gateway/delivery/proactive_runtime.py:168-338] ProactiveDeliveryService._submit *)
Definition _submit (sv : service) (intent : DeliveryIntent) (principal : DeliveryPrincipal)
    (authorize : bool) : proc ProactiveDeliveryResult :=
  let origin := if authorize then EXTERNAL else GATEWAY_INTERNAL in
  submission_id ← pure (
    validate_source_item_count (sv_config sv) (len (in_content intent)) ;;
    validate_delivery_intent intent ;;
    (if authorize then _require_external_local_digests intent else Ok ()) ;;
    derive_delivery_submission_id origin (dp_principal_id principal) (in_delivery_id intent)) ;
  existing ← Get submission_id Ret ;
  match existing with
  | Some existing => resubmit sv intent principal authorize existing
  | None =>
      pure (if authorize then authorize_delivery_target principal (in_target intent) else Ok ()) ;;
      snapshots ← _resolve_snapshots intent ;
      '(target_fingerprint, payload_fingerprint, preflight_error) ← pure (
        target_fingerprint ← derive_delivery_target_fingerprint (in_target intent) ;
        payload_fingerprint ← derive_delivery_payload_fingerprint float_repr intent ;
        preflight_error ← _preflight sv intent snapshots ;
        Ok (target_fingerprint, payload_fingerprint, preflight_error)) ;
      let execution_root_id := if authorize then submission_id else in_delivery_id intent in
      let record_of := new_record submission_id intent origin (dp_principal_id principal)
        target_fingerprint payload_fingerprint in
      match preflight_error with
      | Some error => submit_rejection intent record_of execution_root_id snapshots error
      | None => submit_accepted sv intent record_of submission_id execution_root_id snapshots
      end
  end.

(** [gateway/delivery/proactive_runtime.py:129-143] ProactiveDeliveryService.authorize *)
Definition authorize (sv : service) (target : DeliveryTarget) (credential : pystr)
    : proc DeliveryPrincipal :=
  if sv_authorizer sv then
    principal ← Authenticate credential Ret ;
    pure (validate_delivery_principal principal ;; authorize_delivery_target principal target) ;;
    mret principal
  else mraise DeliveryAuthorizationError.

(** [gateway/delivery/proactive_runtime.py:98-127] ProactiveDeliveryService.deliver *)
Definition deliver (sv : service) (intent : DeliveryIntent) (credential : pystr)
    : proc ProactiveDeliveryResult :=
  intent ← pure (_snapshot_intent intent) ;
  replay_id ← pure (
    _validate_external_intent sv intent ;;
    derive_delivery_submission_id EXTERNAL (py "imagent:lookup-only") (in_delivery_id intent)) ;
  existing ← Get replay_id Ret ;
  match existing with
  | Some existing =>
      if decide (Exists (λ d, dd_state d = IN_FLIGHT ∨ dd_state d = RETRYABLE) (sr_destinations existing))
      then principal ← authorize sv (in_target intent) credential ;
           _submit sv intent principal true
      else pure (_ensure_replay_identity intent existing) ;;
           mret (_result_from_record existing true (explicit_target (in_target intent)))
  | None =>
      principal ← authorize sv (in_target intent) credential ;
      _submit sv intent principal true
  end.

(** [gateway/delivery/proactive_runtime.py:145-166] ProactiveDeliveryService.deliver_internal *)
Definition deliver_internal (sv : service) (message : OutboundMessage) : proc ProactiveDeliveryResult :=
  intent ← pure (_snapshot_intent {|
    in_delivery_id := om_delivery_id message;
    in_target := ConversationDeliveryTarget (om_conversation_ref message);
    in_content := om_content message;
    in_created_at := om_created_at message;
    in_reply_to := om_reply_to message;
    in_metadata := om_metadata message |}) ;
  _submit sv intent {|
    dp_principal_id := py "imagent:gateway-internal";
    dp_allowed_threads := [];
    dp_allowed_conversations := [om_conversation_ref message] |} false.
End service.

(** * Tasks on an event loop *)

(** The destination of a submission. *)
Abbreviation destination_key := (pystr * pystr)%type.

(** The deliveries, as a destination begins to be sent to and as that ends. *)
Inductive delivery_log : Type :=
| Begins (key : destination_key)
| Ends (key : destination_key) (outcome : res DeliveryReceipt).

Definition log_key (e : delivery_log) : destination_key :=
  match e with Begins key => key | Ends key _ => key end.

(** A call of the service returns a result, the task of one destination nothing. *)
Abbreviation task_value := (option ProactiveDeliveryResult).

Inductive task_state : Type :=
| Unstarted (p : proc task_value)
| Running (p : proc task_value)
| Delivering (key : destination_key) (k : res DeliveryReceipt → proc task_value)
| Gathering (children : list nat) (k : res unit → proc task_value).

Record pool := {
  po_submissions : SubmissionRepository;
  po_log : list delivery_log;
  po_now : datetime;
  po_tasks : list task_state;
}.

Definition set_task (i : nat) (t : task_state) (w : pool) : pool :=
  {| po_submissions := po_submissions w; po_log := po_log w; po_now := po_now w;
     po_tasks := <[i := t]> (po_tasks w) |}.
Definition add_tasks (ts : list task_state) (w : pool) : pool :=
  {| po_submissions := po_submissions w; po_log := po_log w; po_now := po_now w;
     po_tasks := po_tasks w ++ ts |}.
Definition add_log (e : delivery_log) (w : pool) : pool :=
  {| po_submissions := po_submissions w; po_log := po_log w ++ [e]; po_now := po_now w;
     po_tasks := po_tasks w |}.
Definition set_now (t : datetime) (w : pool) : pool :=
  {| po_submissions := po_submissions w; po_log := po_log w; po_now := t; po_tasks := po_tasks w |}.
Definition set_repository (s : SubmissionRepository) (w : pool) : pool :=
  {| po_submissions := s; po_log := po_log w; po_now := po_now w; po_tasks := po_tasks w |}.

(** A task runs on with the outcome of a call of the repository. *)
Definition resume_with {A} (i : nat) (k : res A → proc task_value) (m : M SubmissionRepository A)
    (w : pool) : pool :=
  let '(r, s) := m (po_submissions w) in set_task i (Running (k r)) (set_repository s w).

(** What the world answers, where it is not the repository. *)
Inductive answer : Type :=
| Silent
| Principal (r : res DeliveryPrincipal)
| FoundRoutes (r : res (list ThreadProjectionRoute))
| Clock (now : datetime)
| Receipt (r : res DeliveryReceipt)
(* the child of a [gather] that failed first *)
| FirstFailed (j : nat).

(** A call of the service. *)
Inductive service_call : Type :=
| DeliverCall (sv : service) (intent : DeliveryIntent) (credential : pystr)
| InternalCall (sv : service) (message : OutboundMessage).

(** What happens next. *)
Inductive event : Type :=
| Called (c : service_call)
| Runs (i : nat) (a : answer)
(* a cancellation, before or after the awaited operation took place *)
| CancelsBefore (i : nat)
| CancelsAfter (i : nat)
(* the process ends; what is stored stays *)
| Crashes.

Section pool.
Context (float_repr : Qc → pystr) (error_text : exn → pystr).
(** The readings of the clock that may follow one. *)
Context (ticks : datetime → datetime → Prop) `{!RelDecision ticks}.

Definition program (c : service_call) : proc task_value :=
  result ← match c with
    | DeliverCall sv intent credential => deliver float_repr error_text sv intent credential
    | InternalCall sv message => deliver_internal float_repr error_text sv message
    end ;
  mret (Some result).

Definition child (sv : service) (intent : DeliveryIntent) (submission_id : pystr)
    (d : DestinationDeliveryRecord) : proc task_value :=
  _send_destination error_text sv intent submission_id d ;; mret None.

(** How a task ended, if it has. *)
Definition ended (t : task_state) : option (res task_value) :=
  match t with Running (Ret r) => Some r | _ => None end.

(** The outcome of [asyncio.gather] over the states of the children: the exception of
    one that failed, or nothing once all returned. *)
Definition gathered (children : list task_state) (failed : option nat) : option (res unit) :=
  match failed with
  | Some j => match children !! j ≫= ended with Some (Err e) => Some (Err e) | _ => None end
  | None => if decide (Forall (λ t, is_ok <$> ended t = Some true) children) then Some (Ok ()) else None
  end.

Definition children_of (w : pool) (ids : list nat) : list task_state :=
  omap (λ i, po_tasks w !! i) ids.

(** A task that is running meets the operation [p] begins with. *)
Definition run_operation (i : nat) (p : proc task_value) (a : answer) (w : pool) : option pool :=
  match p, a with
  | Get id k, Silent => Some (resume_with i k (get_delivery_submission id) w)
  | ReserveSubmission record k, Silent => Some (resume_with i k (reserve_delivery_submission record) w)
  | Update id d expected r k, Silent =>
      Some (resume_with i k (update_delivery_destination id d expected r) w)
  | Authenticate _ k, Principal r => Some (set_task i (Running (k r)) w)
  | Routes _ k, FoundRoutes r => Some (set_task i (Running (k r)) w)
  | Now k, Clock now =>
      if decide (ticks (po_now w) now ∧ ¬ tz_is_none now)
      then Some (set_task i (Running (k now)) (set_now now w)) else None
  | Deliver id _ message k, Silent =>
      let key := (id, om_delivery_id message) in
      Some (set_task i (Delivering key k) (add_log (Begins key) w))
  | Notify _ _ _ k, Silent => Some (set_task i (Running k) w)
  | Gather sv intent id destinations k, Silent =>
      let n := length (po_tasks w) in
      Some (set_task i (Gathering (seq n (length destinations)) k)
        (add_tasks ((λ d, Unstarted (child sv intent id d)) <$> destinations) w))
  | _, _ => None
  end.

(** The task gives up the operation it awaits. *)
Definition cancelled_operation (p : proc task_value) : option (proc task_value) :=
  match p with
  | Get _ k => Some (k (Err CancelledError))
  | ReserveSubmission _ k => Some (k (Err CancelledError))
  | Update _ _ _ _ k => Some (k (Err CancelledError))
  | Authenticate _ k => Some (k (Err CancelledError))
  | Routes _ k => Some (k (Err CancelledError))
  | _ => None
  end.

(** The effect of an operation that takes place although its task is cancelled. *)
Definition effect_of (p : proc task_value) (w : pool) : pool :=
  match p with
  | ReserveSubmission record _ =>
      set_repository (reserve_delivery_submission record (po_submissions w)).2 w
  | Update id d expected r _ =>
      set_repository (update_delivery_destination id d expected r (po_submissions w)).2 w
  | _ => w
  end.

(** What an event makes of a pool; [None] when it cannot happen. *)
Definition pool_next (e : event) (w : pool) : option pool :=
  match e with
  | Called c => Some (add_tasks [Unstarted (program c)] w)
  | Runs i a =>
      match po_tasks w !! i, a with
      | Some (Unstarted p), Silent => Some (set_task i (Running p) w)
      | Some (Running p), _ => run_operation i p a w
      | Some (Delivering key k), Receipt r => Some (set_task i (Running (k r)) (add_log (Ends key r) w))
      | Some (Gathering children k), Silent =>
          (λ r, set_task i (Running (k r)) w) <$> gathered (children_of w children) None
      | Some (Gathering children k), FirstFailed j =>
          (λ r, set_task i (Running (k r)) w) <$> gathered (children_of w children) (Some j)
      | _, _ => None
      end
  | CancelsBefore i =>
      match po_tasks w !! i with
      (* the body of a task that has not begun never runs *)
      | Some (Unstarted _) => Some (set_task i (Running (Ret (Err CancelledError))) w)
      | Some (Running p) => (λ p', set_task i (Running p') w) <$> cancelled_operation p
      | Some (Gathering _ k) => Some (set_task i (Running (k (Err CancelledError))) w)
      | _ => None
      end
  | CancelsAfter i =>
      match po_tasks w !! i with
      | Some (Running p) => (λ p', set_task i (Running p') (effect_of p w)) <$> cancelled_operation p
      | _ => None
      end
  | Crashes => Some {| po_submissions := po_submissions w; po_log := po_log w; po_now := po_now w;
                       po_tasks := [] |}
  end.

Definition pool_step (w w' : pool) : Prop := ∃ e, pool_next e w = Some w'.

(** The events one after the other. *)
Definition pool_run (events : list event) (w : pool) : option pool :=
  fold_left (λ ow e, ow ≫= pool_next e) events (Some w).
End pool.
