(* ===== verification/ProactiveTheorems.v ===== *)
(** What the tasks of proactive delivery may do: a discipline of tokens.  A task that
    moved a destination to [IN_FLIGHT] holds the token of the destination, which
    permits one delivery and one recording of its outcome. *)

From S2P Require Export ProactiveDelivery.
From Stdlib Require Qcanon.
From stdpp Require Import gmap functions.
From stdpp Require Import list.
#[local] Open Scope Z_scope.
#[local] Open Scope stdpp_scope.

Lemma filter_true {A} (P : A → Prop) `{!∀ x, Decision (P x)} (l : list A) : Forall P l → filter P l = l.
Proof. induction 1 as [|x l Hx _ IH]; [done|]. by rewrite filter_cons_True, IH. Qed.

(** * Stored destinations *)

Definition destination_in (delivery_id : pystr) (l : list DestinationDeliveryRecord)
    : option DestinationDeliveryRecord := head (filter (λ d, dd_delivery_id d = delivery_id) l).

(** The destination stored under a key. *)
Definition stored_at (s : SubmissionRepository) (key : destination_key) : option DestinationDeliveryRecord :=
  d_get (sb_records s) key.1 ≫= λ r, destination_in key.2 (sr_destinations r).

Lemma destination_in_cons id d l :
  destination_in id (d :: l) = if decide (dd_delivery_id d = id) then Some d else destination_in id l.
Proof. unfold destination_in. rewrite filter_cons. by case_decide. Qed.

Lemma destination_in_elem id l d : destination_in id l = Some d → d ∈ l ∧ dd_delivery_id d = id.
Proof.
  induction l as [|x l IH]; [done|]. rewrite destination_in_cons, elem_of_cons.
  case_decide; [intros [= <-]; auto|]. intros [??]%IH; auto.
Qed.

Lemma destination_in_present id l : id ∈ dd_delivery_id <$> l → is_Some (destination_in id l).
Proof.
  induction l as [|x l IH]; [by intros ?%elem_of_nil|].
  rewrite fmap_cons, elem_of_cons, destination_in_cons. case_decide; [eauto|naive_solver].
Qed.

Lemma destination_in_updated id expected r l l' id' :
  Forall2 (destination_updated id expected r) l l' → dd_delivery_id r = id →
  destination_in id' l' =
    match destination_in id' l with
    | Some d => if decide (id' = id ∧ dd_state d = expected) then Some r else Some d
    | None => None
    end.
Proof.
  intros Hl Hr. induction Hl as [|d d' l l' Hd _ IH]; [done|]. rewrite !destination_in_cons.
  destruct Hd as [[-> Hsame]|(Hid & Hst & _ & ->)].
  - destruct (decide (dd_delivery_id d = id')) as [<-|?]; [|done].
    rewrite decide_False; naive_solver.
  - rewrite Hr, Hid. destruct (decide (id = id')) as [<-|?]; [|done]. by rewrite decide_True.
Qed.

Lemma destination_in_kept id expected r l l' d :
  Forall2 (destination_updated id expected r) l l' → destination_in id l = Some d →
  dd_state d ≠ expected → d = r.
Proof.
  intros Hl. induction Hl as [|x x' l l' Hx _ IH]; [done|]. rewrite destination_in_cons.
  case_decide; [|done]. intros [= <-] ?. destruct Hx as [[_ Hsame]|(_ & ? & _)]; [|done]. by apply Hsame.
Qed.

Lemma validate_destinations_distinct seen l :
  validate_destinations seen l = Ok () →
  NoDup (dd_delivery_id <$> l) ∧ ∀ id, id ∈ dd_delivery_id <$> l → id ∉ seen.
Proof.
  revert seen. induction l as [|d l IH]; intros seen; cbn [validate_destinations].
  { intros _. split; [constructor|]. by intros id ?%elem_of_nil. }
  intros H. inv_ok.
  match goal with H : validate_destinations _ _ = _ |- _ => apply IH in H as [Hnd Hall] end.
  rewrite fmap_cons. split.
  - constructor; [|done]. intros Hin. by apply Hall, not_elem_of_cons in Hin as [? _].
  - intros id [->|Hin]%elem_of_cons; [done|]. by apply Hall, not_elem_of_cons in Hin as [_ ?].
Qed.

Lemma valid_record_distinct record :
  validate_delivery_submission_record record = Ok () → NoDup (dd_delivery_id <$> sr_destinations record).
Proof.
  unfold validate_delivery_submission_record. intros H. inv_ok.
  by edestruct validate_destinations_distinct.
Qed.

(** An update changes what is stored under its key, from the expected state, or
    nothing. *)
Lemma update_stored id did expected r s :
  wp (update_delivery_destination id did expected r) (λ result s',
    match result with
    | Err _ => s' = s
    | Ok _ => ∃ d, stored_at s (id, did) = Some d ∧ (dd_state d ≠ expected → d = r) ∧
        (∀ key, stored_at s' key =
          if decide (key = (id, did) ∧ dd_state d = expected) then Some r else stored_at s key) ∧
        ∀ i, is_Some (d_get (sb_records s') i) ↔ is_Some (d_get (sb_records s) i)
    end) s.
Proof.
  eapply wp_mono; [apply update_delivery_destination_spec|].
  intros [u|e] s'; [|done]. intros (existing & Hg & Hu & _ & ->).
  apply replace_destination_spec in Hu as (_ & Hr & Hin & Hl).
  destruct (destination_in_present _ _ Hin) as [d Hd]. exists d. split_and!.
  - unfold stored_at. cbn. by rewrite Hg.
  - by eapply destination_in_kept.
  - intros [i j]. unfold stored_at. cbn [fst snd sb_records set_submissions]. rewrite d_get_set.
    destruct (decide (id = i)) as [<-|?]; cbn.
    + rewrite (destination_in_updated _ _ _ _ _ j Hl Hr), Hg. cbn.
      destruct (destination_in j _) as [x|] eqn:Hx; [|by case_decide; naive_solver].
      repeat case_decide; naive_solver congruence.
    + by rewrite decide_False by naive_solver.
  - intros i. cbn. rewrite d_get_set. case_decide; [|done]. subst. rewrite Hg. split; eauto.
Qed.

(** A reservation stores the whole record under an ID that had none. *)
Lemma reserve_stored record s :
  wp (reserve_delivery_submission record) (λ result s',
    match result with
    | Err _ => s' = s
    | Ok rv =>
        if rv_acquired rv then
          rv_record rv = record ∧ NoDup (dd_delivery_id <$> sr_destinations record) ∧
          d_get (sb_records s) (sr_submission_id record) = None ∧
          is_Some (d_get (sb_records s') (sr_submission_id record)) ∧
          (∀ i, is_Some (d_get (sb_records s) i) → is_Some (d_get (sb_records s') i)) ∧
          ∀ key, stored_at s' key = if decide (key.1 = sr_submission_id record)
            then destination_in key.2 (sr_destinations record) else stored_at s key
        else s' = s
    end) s.
Proof.
  eapply wp_mono; [apply reserve_delivery_submission_spec|].
  intros [rv|e] s'; [|done]. intros (Hv & H).
  destruct (d_get (sb_records s) (sr_submission_id record)) eqn:Hg; destruct H as [-> H].
  - destruct H as [-> _]. done.
  - destruct H as [_ ->]. cbn. split_and!; [done|by apply valid_record_distinct|done|..].
    + rewrite d_get_set_eq. eauto.
    + intros i ?. rewrite d_get_set. case_decide; eauto.
    + intros [i j]. unfold stored_at. cbn. rewrite d_get_set.
      destruct (decide (sr_submission_id record = i)) as [<-|?]; [by rewrite decide_True|].
      by rewrite decide_False.
Qed.

(** * Tokens *)

(** Where the holder of a destination's token is. *)
Inductive phase : Type := Granted | Outstanding | Ended (outcome : res DeliveryReceipt).

(** The token of each destination, with the task that holds it. *)
Abbreviation tokens := (gmap destination_key (nat * phase)).

(** The last reading of the clock of a task, with the destinations it claimed at it. *)
Abbreviation stamp := (option (datetime * list destination_key)).

(** The tokens of the destinations of a record, all to one task. *)
Fixpoint grant (i : nat) (id : pystr) (ds : list DestinationDeliveryRecord) (own : tokens) : tokens :=
  match ds with
  | [] => own
  | d :: ds => <[(id, dd_delivery_id d) := (i, Granted)]> (grant i id ds own)
  end.

(** A receipt that permits a retry. *)
Definition permits_retry (o : res DeliveryReceipt) : Prop :=
  match o with Ok receipt => dr_status receipt = RETRYABLE_FAILURE | Err _ => False end.

(** The program of task [i] keeps to the discipline, with these tokens, and establishes
    [Q] if it ends. *)
Fixpoint permits {A : Type} (i : nat) (own : tokens) (st : stamp) (p : proc A)
    (Q : tokens → stamp → res A → Prop) : Prop :=
  match p with
  | Ret r => Q own st r
  | Get id k => ∀ r,
      (∀ record, r = Ok (Some record) →
         sr_submission_id record = id ∧ NoDup (dd_delivery_id <$> sr_destinations record)) →
      permits i own st (k r) Q
  | ReserveSubmission record k =>
      (∀ d, d ∈ sr_destinations record → dd_state d ≠ RETRYABLE ∧
         (dd_state d = IN_FLIGHT → ∃ claimed, st = Some (dd_updated_at d, claimed))) ∧
      (∀ rv, rv_acquired rv = true → rv_record rv = record →
         NoDup (dd_delivery_id <$> sr_destinations record) →
         permits i (grant i (sr_submission_id record)
           (filter (λ d, dd_state d = IN_FLIGHT) (sr_destinations record)) own) None (k (Ok rv)) Q) ∧
      (∀ rv, rv_acquired rv = false → permits i own None (k (Ok rv)) Q) ∧
      ∀ e, permits i own None (k (Err e)) Q
  | Update id did expected r k =>
      expected = RETRYABLE ∧ dd_state r = IN_FLIGHT ∧
        (∃ t claimed, st = Some (t, claimed) ∧ dd_updated_at r = t ∧ (id, did) ∉ claimed ∧
         (∀ u, permits i (<[(id, did) := (i, Granted)]> own) (Some (t, (id, did) :: claimed)) (k (Ok u)) Q) ∧
         ∀ e, permits i own (Some (t, (id, did) :: claimed)) (k (Err e)) Q) ∨
      expected = IN_FLIGHT ∧ dd_state r ≠ IN_FLIGHT ∧
        (∃ o, own !! (id, did) = Some (i, Ended o) ∧ (dd_state r = RETRYABLE → permits_retry o) ∧
         ∀ u, permits i (delete (id, did) own) st (k u) Q)
  | Authenticate _ k => ∀ r, permits i own st (k r) Q
  | Routes _ k => ∀ r, permits i own st (k r) Q
  | Now k => ∀ t, permits i own (Some (t, [])) (k t) Q
  | Deliver id _ message k =>
      own !! (id, om_delivery_id message) = Some (i, Granted) ∧
      ∀ o, permits i (<[(id, om_delivery_id message) := (i, Ended o)]> own) st (k o) Q
  | Notify _ _ _ k => permits i own st k Q
  | Gather sv intent id ds k =>
      NoDup (dd_delivery_id <$> ds) ∧
      (∀ d, d ∈ ds → own !! (id, dd_delivery_id d) = Some (i, Granted)) ∧
      ∀ r, permits i ∅ st (k r) Q
  end.

(** More tokens and fewer claims permit more. *)
Definition holds_more (i : nat) (own own' : tokens) : Prop :=
  ∀ key ph, own !! key = Some (i, ph) → own' !! key = Some (i, ph).
Definition stamp_le (st st' : stamp) : Prop :=
  match st with
  | None => True
  | Some (t, claimed) => ∃ claimed', st' = Some (t, claimed') ∧ claimed' ⊆ claimed
  end.

Lemma holds_more_insert i own own' key ph :
  holds_more i own own' → holds_more i (<[key := (i, ph)]> own) (<[key := (i, ph)]> own').
Proof. intros H key' ph'. rewrite !lookup_insert. case_decide; auto. Qed.

Lemma holds_more_delete i own own' key : holds_more i own own' → holds_more i (delete key own) (delete key own').
Proof. intros H key' ph'. rewrite !lookup_delete. case_decide; auto. Qed.

Lemma holds_more_grant i id ds own own' : holds_more i own own' → holds_more i (grant i id ds own) (grant i id ds own').
Proof. intros H. induction ds; cbn; auto using holds_more_insert. Qed.

Lemma holds_more_empty i own : holds_more i ∅ own.
Proof. intros key ph. by rewrite lookup_empty. Qed.

#[export] Hint Resolve holds_more_insert holds_more_delete holds_more_grant holds_more_empty : tokens.

Lemma stamp_le_refl st : stamp_le st st.
Proof. destruct st as [[t c]|]; [|done]. by exists c. Qed.
#[export] Hint Resolve stamp_le_refl : tokens.

Lemma permits_mono {A : Type} (i : nat) (own own' : tokens) (st st' : stamp) (p : proc A) (Q Q' : tokens → stamp → res A → Prop) :
  permits i own st p Q → holds_more i own own' → stamp_le st st' →
  (∀ o o' s s' r, holds_more i o o' → stamp_le s s' → Q o s r → Q' o' s' r) →
  permits i own' st' p Q'.
Proof.
  intros Hp Hown Hst HQ. revert own own' st st' Hp Hown Hst.
  induction p; intros own own' st st' Hp Hown Hst; cbn [permits] in *;
    [by eapply HQ| | | | | | | | |]; eauto with tokens.
  - destruct Hp as (Hd & Hk1 & Hk2 & Hk3). split_and!; eauto with tokens.
    intros d Hin. destruct (Hd d Hin) as [? Hc]. split; [done|]. intros [c ->]%Hc.
    destruct Hst as (c' & -> & _). eauto.
  - destruct Hp as [(He & Hs & t & c & -> & Ht & Hc & Hk1 & Hk2)|(He & Hs & o & Ho & Hr & Hk)]; [left|right].
    + destruct Hst as (c' & -> & Hsub). split_and!; [done..|]. exists t, c'.
      assert (stamp_le (Some (t, (submission_id, destination_delivery_id) :: c))
        (Some (t, (submission_id, destination_delivery_id) :: c'))) by (eexists; split; [done|set_solver]).
      split_and!; [done|done|set_solver|..]; eauto with tokens.
    + split_and!; [done..|]. exists o. split_and!; eauto with tokens.
  - destruct Hp as [Hf Hk]. split; eauto with tokens.
  - destruct Hp as (Hnd & Hf & Hk). split_and!; eauto with tokens.
Qed.

Lemma permits_weaken {A : Type} (i : nat) (own : tokens) (st : stamp) (p : proc A) (Q Q' : tokens → stamp → res A → Prop) :
  permits i own st p Q → (∀ o s r, Q o s r → Q' o s r) →
  permits i own st p Q'.
Proof.
  intros Hp HQ. revert own st Hp. induction p; intros own st Hp; cbn [permits] in *; eauto.
  - naive_solver.
  - naive_solver.
  - naive_solver.
  - naive_solver.
Qed.

Lemma permits_continue {A B : Type} (i : nat) (own : tokens) (st : stamp) (p : proc A) (f : res A → proc B) Q :
  permits i own st p (λ own' st' r, permits i own' st' (f r) Q) → permits i own st (continue p f) Q.
Proof. revert own st. induction p; intros own st; cbn [permits continue]; naive_solver. Qed.

Lemma permits_bind {A B : Type} (i : nat) (own : tokens) (st : stamp) (p : proc A) (f : A → proc B) Q :
  permits i own st p (λ own' st' r,
    match r with Ok a => permits i own' st' (f a) Q | Err e => Q own' st' (Err e) end) →
  permits i own st (p ≫= f) Q.
Proof.
  intros Hp. apply permits_continue. eapply permits_weaken; [exact Hp|]. by intros o s [a|e].
Qed.

Lemma permits_pure_bind {A B : Type} (i : nat) (own : tokens) (st : stamp) (r : res A) (f : A → proc B) Q :
  (∀ a, r = Ok a → permits i own st (f a) Q) → (∀ e, r = Err e → Q own st (Err e)) →
  permits i own st (pure r ≫= f) Q.
Proof. intros Ha He. apply permits_bind. cbn. destruct r; eauto. Qed.

(** * The programs keep to the discipline *)

Definition anyhow {A} : tokens → stamp → res A → Prop := λ _ _ _, True.

Section programs.
Context (float_repr : Qcanon.Qc → pystr) (error_text : exn → pystr).

(** What is recorded of a delivery. *)
Lemma delivery_result_state intent outcome receipt state error cancelled :
  delivery_result error_text intent outcome = Some (receipt, state, error, cancelled) →
  state ≠ IN_FLIGHT ∧ (state = RETRYABLE → permits_retry outcome).
Proof.
  unfold delivery_result. destruct outcome as [r|e]; cbn.
  - destruct (validate_delivery_receipt_for_content r (in_content intent)) as [[]|e]; cbn;
      [|by destruct e; intros [= <- <- <- <-]].
    intros [= <- <- <- <-]. unfold _state_from_receipt.
    destruct (dr_status r); repeat case_decide; done.
  - by destruct e; intros [= <- <- <- <-].
Qed.

Lemma send_destination_permits i own st sv intent id d :
  own !! (id, dd_delivery_id d) = Some (i, Granted) →
  permits i own st (_send_destination error_text sv intent id d) anyhow.
Proof.
  intros Hown. unfold _send_destination. destruct (d_get _ _) as [profile|]; [|done].
  cbn [permits]. split; [done|]. intros o.
  destruct (delivery_result _ _ _) as [[[[receipt state] error] cancelled]|] eqn:Hr; [|done].
  apply delivery_result_state in Hr as [Hs Hretry]. cbn [permits]. intros t. right. split_and!; [done..|].
  exists o. split_and!; [apply lookup_insert_eq|done|]. intros u.
  unfold notify_observer. by destruct (sv_observer sv).
Qed.

Lemma child_permits i own st sv intent id d :
  own !! (id, dd_delivery_id d) = Some (i, Granted) →
  permits i own st (child error_text sv intent id d) anyhow.
Proof.
  intros Hown. apply permits_bind. eapply permits_weaken; [by apply send_destination_permits|].
  by intros o s [].
Qed.

(** The tokens of several destinations of a submission. *)
Definition holds_all (i : nat) (own : tokens) (id : pystr) (ds : list DestinationDeliveryRecord) : Prop :=
  NoDup (dd_delivery_id <$> ds) ∧ ∀ d, d ∈ ds → own !! (id, dd_delivery_id d) = Some (i, Granted).

Lemma send_all_permits i own st sv intent id ds :
  holds_all i own id ds → permits i own st (send_all error_text sv intent id ds) anyhow.
Proof.
  intros [Hnd Hown]. unfold send_all. destruct ds as [|d [|d' ds]]; [by split_and!| |by split_and!].
  apply send_destination_permits, Hown. set_solver.
Qed.

Lemma grant_holds i id ds own : NoDup (dd_delivery_id <$> ds) → holds_all i (grant i id ds own) id ds.
Proof.
  intros Hnd. split; [done|]. intros d Hin. induction ds as [|d' ds IH]; cbn; [by apply elem_of_nil in Hin|].
  rewrite fmap_cons in Hnd. apply NoDup_cons in Hnd as [Hd Hnd].
  apply elem_of_cons in Hin as [<-|Hin]; [apply lookup_insert_eq|].
  rewrite lookup_insert_ne; [by apply IH|]. intros [= Heq].
  apply Hd. rewrite Heq. by apply list_elem_of_fmap_2.
Qed.

Lemma claim_destinations_permits i own now c id claimed ds :
  holds_all i own id claimed → NoDup ((dd_delivery_id <$> claimed) ++ (dd_delivery_id <$> ds)) →
  (∀ d, d ∈ ds → (id, dd_delivery_id d) ∉ c) →
  permits i own (Some (now, c)) (claim_destinations id now claimed ds)
    (λ own' _ r, ∀ l, r = Ok l → holds_all i own' id l).
Proof.
  revert own c claimed. induction ds as [|d ds IH]; intros own c claimed [Hnd Hown] Hall Hc; cbn [claim_destinations].
  { cbn. by intros l [= <-]. }
  rewrite fmap_cons in Hall. pose proof Hall as Hsplit.
  apply NoDup_app in Hsplit as (_ & Hd & [Hdn Hds]%NoDup_cons).
  assert (NoDup ((dd_delivery_id <$> claimed) ++ (dd_delivery_id <$> ds))) as Hrest.
  { eapply sublist_NoDup; [exact Hall|]. apply sublist_app; [done|by constructor]. }
  assert (∀ x, x ∈ ds → (id, dd_delivery_id x) ∉ (id, dd_delivery_id d) :: c) as Hc'.
  { intros x Hx. apply not_elem_of_cons. split; [|apply Hc; set_solver].
    intros [= Heq]. apply Hdn. rewrite <- Heq. by apply list_elem_of_fmap_2. }
  case_decide; [apply IH; [done..|set_solver]|].
  destruct (not_due now d) as [[]|e]; [apply IH; [done..|set_solver]| |done].
  cbn [permits with_state dd_state dd_updated_at]. left. split_and!; [done..|].
  exists now, c. split_and!; [done|done|apply Hc; set_solver|..].
  - intros u. apply IH; [|by rewrite fmap_app, <- app_assoc|done]. split.
    + rewrite cons_middle, app_assoc in Hall. apply NoDup_app in Hall as [Hall _]. by rewrite fmap_app.
    + intros x [Hx| ->%list_elem_of_singleton]%elem_of_app; [|apply lookup_insert_eq].
      rewrite lookup_insert_ne; [by apply Hown|]. intros [= Heq].
      eapply Hd; [by apply list_elem_of_fmap_2|]. rewrite <- Heq. by left.
  - intros e. by destruct e; try done; apply IH.
Qed.

Lemma read_permits i own st id : permits i own st (current ← Get id Ret ; disappeared current) anyhow.
Proof. by intros [[r|]|e] _. Qed.

Lemma resume_permits i own st sv intent record :
  NoDup (dd_delivery_id <$> sr_destinations record) →
  permits i own st (_resume_retryable_destinations error_text sv intent record) anyhow.
Proof.
  intros Hnd. cbn [_resume_retryable_destinations permits]. intros now. apply permits_bind.
  eapply permits_weaken; [apply claim_destinations_permits; [|done|]|].
  - split; [constructor|]. by intros d ?%elem_of_nil.
  - by intros d _ ?%elem_of_nil.
  - intros o s [claimed|e] Hl; [|done]. specialize (Hl _ eq_refl). apply permits_bind.
    destruct claimed; [apply read_permits|]. eapply permits_weaken; [by apply send_all_permits|].
    intros o' s' [[]|e] _; [apply read_permits|done].
Qed.

Lemma resubmit_permits i own st sv intent principal authorize existing :
  NoDup (dd_delivery_id <$> sr_destinations existing) →
  permits i own st (resubmit float_repr error_text sv intent principal authorize existing) anyhow.
Proof.
  intros Hnd. apply permits_pure_bind; [intros _ _|done]. apply permits_bind.
  case_decide; [|done]. eapply permits_weaken; [by apply resume_permits|]. by intros o s [].
Qed.

(** The record a submission reserves. *)
Definition records_of (id : pystr)
    (record_of : list DestinationDeliveryRecord → datetime → DeliverySubmissionRecord) : Prop :=
  ∀ ds now, sr_submission_id (record_of ds now) = id ∧ sr_destinations (record_of ds now) = ds.

Lemma submit_rejection_permits i own st id intent record_of root snapshots error :
  records_of id record_of →
  permits i own st (submit_rejection intent record_of root snapshots error) anyhow.
Proof.
  intros Hrec. apply permits_pure_bind; [intros rejection Hrej|done]. intros now.
  destruct (Hrec (zip_with (rejected_destination now) (pd_destinations rejection) snapshots) now) as [_ Hds].
  assert (∀ d, d ∈ zip_with (rejected_destination now) (pd_destinations rejection) snapshots →
    dd_state d = REJECTED) as Hstate.
  { intros d (n & H%lookup_zip_with_Some)%list_elem_of_lookup_1.
    destruct H as (result & snapshot & -> & Hresult & _).
    unfold _preflight_rejection in Hrej. apply res_bind_ok in Hrej as (ids & _ & [= <-]).
    cbn in Hresult. apply lookup_zip_with_Some in Hresult as (? & ? & -> & _). done. }
  cbn [mbind proc_bind continue permits]. split_and!.
  - rewrite Hds. intros d Hin. by rewrite (Hstate d Hin).
  - intros rv Hrv _ _. rewrite Hrv. cbn. destruct (explicit_target _); [done|]. by cbn.
  - intros rv Hrv. rewrite Hrv. cbn.
    by destruct (ensure_same_delivery_submission_reservation _ _) as [[]|?].
  - done.
Qed.

Lemma submit_accepted_permits i own st sv id intent record_of root snapshots :
  records_of id record_of →
  permits i own st (submit_accepted error_text sv intent record_of id root snapshots) anyhow.
Proof.
  intros Hrec now. apply permits_pure_bind; [intros ids _|done].
  destruct (Hrec (zip_with (in_flight_destination now) ids snapshots) now) as [Hid Hds].
  assert (∀ d, d ∈ zip_with (in_flight_destination now) ids snapshots →
    dd_state d = IN_FLIGHT ∧ dd_updated_at d = now) as Hstate.
  { intros d (n & H%lookup_zip_with_Some)%list_elem_of_lookup_1. by destruct H as (? & ? & -> & _). }
  cbn [mbind proc_bind continue permits]. split_and!.
  - rewrite Hds. intros d Hin. destruct (Hstate d Hin) as [-> ->]. split; [done|]. eauto.
  - intros rv Hrv Hsame Hnd. rewrite Hrv. apply permits_bind. eapply permits_weaken.
    + apply send_all_permits. rewrite Hsame, Hid.
      replace (filter _ (sr_destinations _)) with (sr_destinations (record_of
        (zip_with (in_flight_destination now) ids snapshots) now)); [by apply grant_holds|].
      symmetry. apply filter_true. rewrite Hds. apply Forall_forall. intros d Hin. by apply Hstate.
    + intros o s [[]|e] _; [|done]. cbn. intros [[r|]|e] _; done.
  - intros rv Hrv. rewrite Hrv. cbn.
    by destruct (ensure_same_delivery_submission_reservation _ _) as [[]|?].
  - done.
Qed.

Lemma submit_permits i own st sv intent principal authorize :
  permits i own st (_submit float_repr error_text sv intent principal authorize) anyhow.
Proof.
  apply permits_pure_bind; [intros id _|done]. apply permits_bind. cbn [permits].
  intros [[existing|]|e] Hget; [| |done].
  - apply resubmit_permits. by destruct (Hget _ eq_refl).
  - apply permits_pure_bind; [intros _ _|done]. apply permits_bind.
    eapply permits_weaken with (Q := anyhow).
    { unfold _resolve_snapshots. destruct (in_target intent); [done|]. by intros r. }
    intros o s [snapshots|e] _; [|done]. apply permits_pure_bind; [|done].
    intros [[target payload] [error|]] _.
    + by apply (submit_rejection_permits _ _ _ id).
    + by apply submit_accepted_permits.
Qed.

Lemma authorize_permits i own st sv target credential :
  permits i own st (authorize sv target credential) anyhow.
Proof.
  unfold authorize. destruct (sv_authorizer sv); [|done]. apply permits_bind. intros [p|e]; [|done].
  by apply permits_pure_bind.
Qed.

(** Every call of the service keeps to the discipline. *)
Lemma program_permits i own st c : permits i own st (program float_repr error_text c) anyhow.
Proof.
  apply permits_bind. eapply permits_weaken with (Q := anyhow); [|by intros o s []].
  destruct c as [sv intent credential|sv message].
  - apply permits_pure_bind; [intros snapshot _|done]. apply permits_pure_bind; [intros replay_id _|done].
    assert (∀ o s, permits i o s (
      principal ← authorize sv (in_target snapshot) credential ;
      _submit float_repr error_text sv snapshot principal true) anyhow) as Hsubmit.
    { intros o s. apply permits_bind. eapply permits_weaken; [by apply authorize_permits|].
      intros o' s' [p|e] _; [|done]. apply submit_permits. }
    apply permits_bind. intros [[existing|]|e] _; [|apply Hsubmit|done].
    cbn [permits]. case_decide; [apply Hsubmit|]. by apply permits_pure_bind.
  - apply permits_pure_bind; [|done]. intros intent _. apply submit_permits.
Qed.
End programs.
