(* ===== verification/ProactiveProperties.v ===== *)
(** Proactive delivery, whatever its tasks do: a destination is sent to again only
    after deliveries that permit a retry, and what is settled stays settled, over
    any interleaving, cancellation and crash. *)

From S2P Require Export ProactiveTheorems.
From Stdlib Require Qcanon.
From stdpp Require Import gmap functions.
From stdpp Require Import list.
#[local] Open Scope Z_scope.
#[local] Open Scope stdpp_scope.

(** * The log of a destination *)

Definition events_of (key : destination_key) (log : list delivery_log) : list delivery_log :=
  filter (λ e, log_key e = key) log.

(** A destination is sent to once, or again after a delivery that permits a retry. *)
Inductive careful : list delivery_log → Prop :=
| careful_nil : careful []
| careful_begun key : careful [Begins key]
| careful_ended key o : careful [Begins key; Ends key o]
| careful_again key o rest :
    permits_retry o → careful rest → careful (Begins key :: Ends key o :: rest).

(** A delivery to the destination may begin. *)
Definition may_begin (key : destination_key) (log : list delivery_log) : Prop :=
  match last (events_of key log) with
  | None => True
  | Some (Begins _) => False
  | Some (Ends _ o) => permits_retry o
  end.

Definition phase_at (ph : phase) (key : destination_key) (log : list delivery_log) : Prop :=
  match ph with
  | Granted => may_begin key log
  | Outstanding => last (events_of key log) = Some (Begins key)
  | Ended o => last (events_of key log) = Some (Ends key o)
  end.

Lemma events_of_snoc key log e :
  events_of key (log ++ [e]) = if decide (log_key e = key) then events_of key log ++ [e] else events_of key log.
Proof. unfold events_of. rewrite filter_app, filter_cons, filter_nil. case_decide; [done|by rewrite app_nil_r]. Qed.

Lemma careful_begins key l :
  careful l → match last l with None => True | Some (Begins _) => False | Some (Ends _ o) => permits_retry o end →
  careful (l ++ [Begins key]).
Proof.
  induction 1 as [|key'|key' o|key' o rest Ho Hrest IH]; cbn;
    [intros _; apply careful_begun|done|intros Ho; apply careful_again; [done|apply careful_begun]|].
  intros Hl. apply careful_again; [done|]. apply IH. by destruct rest.
Qed.

Lemma careful_ends key o l :
  careful l → last l = Some (Begins key) → careful (l ++ [Ends key o]).
Proof.
  induction 1 as [|key'|key' o'|key' o' rest Ho Hrest IH]; cbn;
    [done|intros [= ->]; apply careful_ended|done|].
  intros Hl. apply careful_again; [done|]. apply IH. by destruct rest.
Qed.

(** * The invariant *)

Section pool.
Context (float_repr : Qcanon.Qc → pystr) (error_text : exn → pystr).
Context (ticks : datetime → datetime → Prop) `{!RelDecision ticks} `{!StrictOrder ticks}.

Definition not_after (t now : datetime) : Prop := t = now ∨ ticks t now.

(** A destination whose delivery is over for good. *)
Definition settled (d : DestinationDeliveryRecord) : Prop :=
  dd_state d ≠ IN_FLIGHT ∧ dd_state d ≠ RETRYABLE.

Definition task_ok (i : nat) (own : tokens) (st : stamp) (t : task_state) : Prop :=
  match t with
  | Unstarted p | Running p => permits i own st p anyhow
  | Delivering key k => own !! key = Some (i, Outstanding) ∧
      ∀ o, permits i (<[key := (i, Ended o)]> own) st (k o) anyhow
  | Gathering _ k => ∀ r, permits i own st (k r) anyhow
  end.

(** What is stored agrees with the tokens and the log. *)
Record store_ok (own : tokens) (s : SubmissionRepository) (log : list delivery_log) : Prop := {
  so_submissions : submission_inv s;
  so_owned key i ph : own !! key = Some (i, ph) →
    (∃ d, stored_at s key = Some d ∧ dd_state d = IN_FLIGHT) ∧ phase_at ph key log;
  so_retryable key d : stored_at s key = Some d → dd_state d = RETRYABLE → may_begin key log;
  so_logged key : events_of key log ≠ [] → is_Some (d_get (sb_records s) key.1);
  so_careful key : careful (events_of key log);
}.

(** The claims of a task are the only ones made at its reading of the clock. *)
Record stamps_ok (stamps : nat → stamp) (s : SubmissionRepository) (now : datetime) : Prop := {
  sm_past i t claimed : stamps i = Some (t, claimed) → not_after t now;
  sm_unique i j t c c' : stamps i = Some (t, c) → stamps j = Some (t, c') → i = j;
  sm_claimed i t claimed key d : stamps i = Some (t, claimed) → stored_at s key = Some d →
    dd_state d = IN_FLIGHT → dd_updated_at d = t → key ∈ claimed;
  sm_stored key d : stored_at s key = Some d → dd_state d = IN_FLIGHT → not_after (dd_updated_at d) now;
}.

Definition tasks_ok (own : tokens) (stamps : nat → stamp) (tasks : list task_state) : Prop :=
  ∀ i t, tasks !! i = Some t → task_ok i own (stamps i) t.

Definition pool_ok (own : tokens) (stamps : nat → stamp) (w : pool) : Prop :=
  store_ok own (po_submissions w) (po_log w) ∧ stamps_ok stamps (po_submissions w) (po_now w) ∧
  tasks_ok own stamps (po_tasks w).

(** What is settled stays, and is not sent to again. *)
Definition settled_stays (w w' : pool) : Prop :=
  ∀ key d, stored_at (po_submissions w) key = Some d → settled d →
    stored_at (po_submissions w') key = Some d ∧
    events_of key (po_log w') = events_of key (po_log w).

(** What an operation of a task makes of the whole. *)
Definition keeps (w w' : pool) : Prop :=
  (∃ own stamps, pool_ok own stamps w') ∧ settled_stays w w'.

(** ** Tasks *)

Lemma task_ok_mono i own own' st st' t :
  task_ok i own st t → holds_more i own own' → stamp_le st st' → task_ok i own' st' t.
Proof.
  intros Ht Hown Hst.
  assert (∀ (p : proc task_value) own own' st st', permits i own st p anyhow → holds_more i own own' → stamp_le st st' →
    permits i own' st' p anyhow) as Hmono by (intros; by eapply permits_mono).
  destruct t as [p|p|key k|ids k]; cbn in *; eauto.
  destruct Ht as [Hk Hp]. split; [by apply Hown|]. eauto using holds_more_insert.
Qed.

(** The tasks other than [i] keep their tokens. *)
Definition others_keep (i : nat) (own own' : tokens) : Prop := ∀ j, j ≠ i → holds_more j own own'.

Lemma tasks_ok_set i own own' stamps stamps' tasks t :
  tasks_ok own stamps tasks → others_keep i own own' → (∀ j, j ≠ i → stamps' j = stamps j) →
  task_ok i own' (stamps' i) t → tasks_ok own' stamps' (<[i := t]> tasks).
Proof.
  intros Htasks Hown Hst Ht j t' Hj. destruct (decide (i = j)) as [<-|Hne].
  - apply list_lookup_insert_Some in Hj as [(_ & <- & _)|[? _]]; done.
  - rewrite list_lookup_insert_ne in Hj by done. rewrite Hst by done.
    eapply task_ok_mono; [by apply Htasks|by apply Hown|apply stamp_le_refl].
Qed.

Lemma others_keep_refl i own : others_keep i own own.
Proof. by intros j _ key ph. Qed.

Lemma others_keep_insert i own key ph :
  (∀ j ph', own !! key = Some (j, ph') → j = i) → others_keep i own (<[key := (i, ph)]> own).
Proof.
  intros Hkey j Hj key' ph' H. rewrite lookup_insert_ne; [done|]. intros <-. by apply Hkey in H.
Qed.

Lemma others_keep_delete i own key :
  (∀ j ph', own !! key = Some (j, ph') → j = i) → others_keep i own (delete key own).
Proof.
  intros Hkey j Hj key' ph' H. rewrite lookup_delete_ne; [done|]. intros <-. by apply Hkey in H.
Qed.

(** ** What is stored *)

Lemma submission_inv_update id did expected r s :
  submission_inv s → submission_inv (update_delivery_destination id did expected r s).2.
Proof.
  intros Hs. pose proof (run_submission_op_keeps_inv (UpdateDestination id did expected r) s Hs) as H.
  cbn in H. unfold mbind, M_bind in H. by destruct (update_delivery_destination _ _ _ _ s) as [[] ?].
Qed.

Lemma submission_inv_reserve record s :
  submission_inv s → submission_inv (reserve_delivery_submission record s).2.
Proof.
  intros Hs. pose proof (run_submission_op_keeps_inv (Reserve record) s Hs) as H.
  cbn in H. unfold mbind, M_bind in H. by destruct (reserve_delivery_submission _ s) as [[] ?].
Qed.

(** What is stored and settled is stored still. *)
Definition settled_in (s s' : SubmissionRepository) : Prop :=
  ∀ key d, stored_at s key = Some d → settled d → stored_at s' key = Some d.

Lemma stored_is_some s key d : stored_at s key = Some d → is_Some (d_get (sb_records s) key.1).
Proof. unfold stored_at. destruct (d_get _ _); [eauto|done]. Qed.

(** One destination is replaced. *)
Definition moved (key : destination_key) (r : DestinationDeliveryRecord) (s s' : SubmissionRepository)
    : Prop :=
  (∀ k, stored_at s' k = if decide (k = key) then Some r else stored_at s k) ∧
  ∀ i, is_Some (d_get (sb_records s') i) ↔ is_Some (d_get (sb_records s) i).

Lemma moved_cases key r s s' k x :
  moved key r s s' → stored_at s' k = Some x → k = key ∧ x = r ∨ k ≠ key ∧ stored_at s k = Some x.
Proof. intros [Hm _]. rewrite Hm. case_decide; [|auto]. intros [= <-]. auto. Qed.

Lemma store_moved own own' key r s s' log :
  store_ok own s log → moved key r s s' → submission_inv s' →
  (∀ k j ph, own' !! k = Some (j, ph) → k ≠ key ∧ own !! k = Some (j, ph) ∨
     k = key ∧ dd_state r = IN_FLIGHT ∧ phase_at ph key log) →
  (dd_state r = RETRYABLE → may_begin key log) → store_ok own' s' log.
Proof.
  intros Hs Hm Hinv Hown Hr. split; [done|..].
  - intros k j ph [[Hk Ho]|(-> & Hfl & Hph)]%Hown.
    + apply (so_owned _ _ _ Hs) in Ho as [(x & Hx & ?) ?]. split; [|done]. exists x. split; [|done].
      by rewrite (proj1 Hm), decide_False.
    + split; [|done]. exists r. split; [|done]. by rewrite (proj1 Hm), decide_True.
  - intros k x Hx Hre. destruct (moved_cases _ _ _ _ _ _ Hm Hx) as [[-> ->]|[_ ?]]; [auto|by eapply so_retryable].
  - intros k ?. apply (proj2 Hm). by eapply so_logged.
  - apply Hs.
Qed.

Lemma stamps_claim i t c key stamps s now :
  stamps_ok stamps s now → stamps i = Some (t, c) →
  stamps_ok (<[i := Some (t, key :: c)]> stamps) s now.
Proof.
  intros Hs Hi.
  assert (∀ j t' c', <[i := Some (t, key :: c)]> stamps j = Some (t', c') →
    ∃ c0, stamps j = Some (t', c0) ∧ c0 ⊆ c') as Hold.
  { intros j t' c'. destruct (decide (i = j)) as [<-|?];
      [rewrite fn_lookup_insert; intros [= <- <-]; exists c; split; [done|set_solver]|].
    rewrite fn_lookup_insert_ne by done. eauto. }
  split.
  - intros j t' c' (c0 & Hj & _)%Hold. by eapply sm_past.
  - intros j1 j2 t' c1 c2 (? & H1 & _)%Hold (? & H2 & _)%Hold. by eapply sm_unique.
  - intros j t' c' k d (c0 & Hj & Hsub)%Hold ???. apply Hsub. by eapply sm_claimed.
  - apply Hs.
Qed.

Lemma stamps_moved key r stamps s s' now :
  stamps_ok stamps s now → moved key r s s' →
  (dd_state r = IN_FLIGHT → ∃ i c, stamps i = Some (dd_updated_at r, c) ∧ key ∈ c) →
  stamps_ok stamps s' now.
Proof.
  intros Hs Hm Hr. split; [apply Hs|apply Hs|..].
  - intros j t c k x Hj Hx Hfl Ht. destruct (moved_cases _ _ _ _ _ _ Hm Hx) as [[-> ->]|[_ ?]]; [|by eapply sm_claimed].
    destruct (Hr Hfl) as (i & c' & Hi & Hin). rewrite Ht in Hi.
    assert (j = i) as -> by by eapply sm_unique. congruence.
  - intros k x Hx Hfl. destruct (moved_cases _ _ _ _ _ _ Hm Hx) as [[-> ->]|[_ ?]]; [|by eapply sm_stored].
    destruct (Hr Hfl) as (i & c' & Hi & _). by eapply sm_past.
Qed.

Lemma settled_moved key r d s s' :
  moved key r s s' → stored_at s key = Some d → ¬ settled d → settled_in s s'.
Proof.
  intros [Hm _] Hd Hns k x Hx Hset. rewrite Hm, decide_False; [done|]. intros ->. congruence.
Qed.

(** A claim at the last reading of the clock of a task moves a retryable destination,
    whose token the task gets, or nothing. *)
Lemma claim_step i id did r s log now own stamps t claimed :
  store_ok own s log → stamps_ok stamps s now → stamps i = Some (t, claimed) → (id, did) ∉ claimed →
  dd_state r = IN_FLIGHT → dd_updated_at r = t →
  wp (update_delivery_destination id did RETRYABLE r) (λ result s', ∃ own',
    (own' = own ∧ (∃ e, result = Err e) ∨ own' = <[(id, did) := (i, Granted)]> own ∧ own !! (id, did) = None) ∧
    store_ok own' s' log ∧ stamps_ok (<[i := Some (t, (id, did) :: claimed)]> stamps) s' now ∧
    settled_in s s') s.
Proof.
  intros Hs Hst Hi Hc Hr Ht.
  assert (submission_inv (update_delivery_destination id did RETRYABLE r s).2) as Hinv
    by apply submission_inv_update, Hs.
  pose proof (update_stored id did RETRYABLE r s) as Hu. unfold wp in *.
  destruct (update_delivery_destination _ _ _ _ s) as [[u|e] s']; cbn [fst snd] in *.
  2: { subst s'. exists own. split_and!; [left; eauto|done|by apply stamps_claim|by intros key d]. }
  destruct Hu as (d & Hd & Hsame & Hstored & Hsome).
  destruct (decide (dd_state d = RETRYABLE)) as [Hre|Hre].
  2: { exfalso. apply Hc. rewrite (Hsame Hre) in Hd. by eapply sm_claimed. }
  assert (moved (id, did) r s s') as Hm.
  { split; [|done]. intros k. rewrite Hstored. by destruct (decide (k = (id, did))) as [->|?];
      [rewrite decide_True|rewrite decide_False by (by intros [? _])]. }
  assert (own !! (id, did) = None) as Hnone.
  { destruct (own !! (id, did)) as [[j ph]|] eqn:Ho; [|done].
    apply (so_owned _ _ _ Hs) in Ho as [(d' & Hd' & Hfl) _]. congruence. }
  exists (<[(id, did) := (i, Granted)]> own). split_and!; [by right|..].
  - eapply store_moved; [done..| |congruence].
    intros k j ph [[<- [= <- <-]]|[? ?]]%lookup_insert_Some; [right|by left].
    split_and!; [done..|]. by eapply so_retryable.
  - eapply stamps_moved; [by apply stamps_claim|done|]. intros _. exists i, ((id, did) :: claimed).
    rewrite fn_lookup_insert, Ht. split; [done|]. by left.
  - eapply settled_moved; [done..|]. intros [_ ?]. congruence.
Qed.

(** The outcome of a delivery is recorded, and its token given up. *)
Lemma record_step i id did r s log now own stamps o :
  store_ok own s log → stamps_ok stamps s now → own !! (id, did) = Some (i, Ended o) →
  dd_state r ≠ IN_FLIGHT → (dd_state r = RETRYABLE → permits_retry o) →
  wp (update_delivery_destination id did IN_FLIGHT r) (λ _ s',
    store_ok (delete (id, did) own) s' log ∧ stamps_ok stamps s' now ∧ settled_in s s') s.
Proof.
  intros Hs Hst Ho Hr Hretry.
  assert (submission_inv (update_delivery_destination id did IN_FLIGHT r s).2) as Hinv
    by apply submission_inv_update, Hs.
  destruct (so_owned _ _ _ Hs _ _ _ Ho) as [(d & Hd & Hfl) Hph].
  pose proof (update_stored id did IN_FLIGHT r s) as Hu. unfold wp in *.
  destruct (update_delivery_destination _ _ _ _ s) as [[u|e] s']; cbn [fst snd] in *.
  - destruct Hu as (d' & Hd' & _ & Hstored & Hsome). simplify_eq.
    assert (moved (id, did) r s s') as Hm.
    { split; [|done]. intros k. rewrite Hstored. by destruct (decide (k = (id, did))) as [->|?];
        [rewrite decide_True|rewrite decide_False by (by intros [? _])]. }
    split_and!.
    + eapply store_moved; [done..| |].
      * intros k j ph [Hk ?]%lookup_delete_Some. left. by split.
      * intros Hre%Hretry. unfold may_begin. cbn in Hph. by rewrite Hph.
    + by eapply stamps_moved.
    + eapply settled_moved; [done..|]. by intros [? _].
  - subst s'. split_and!; [|done|by intros key x].
    destruct Hs as [H1 H2 H3 H4 H5]. split; try done. intros key j ph [_ ?]%lookup_delete_Some. by apply (H2 key j).
Qed.

Lemma grant_lookup i id ds own key j ph :
  grant i id ds own !! key = Some (j, ph) →
  own !! key = Some (j, ph) ∨
  j = i ∧ ph = Granted ∧ ∃ d, d ∈ ds ∧ key = (id, dd_delivery_id d).
Proof.
  induction ds as [|d ds IH]; cbn; [by left|]. intros [[<- [= <- <-]]|[_ H]]%lookup_insert_Some.
  - right. split_and!; [done..|]. exists d. split; [by left|done].
  - destruct (IH H) as [?|(? & ? & x & ? & ?)]; [by left|]. right. split_and!; [done..|]. exists x.
    split; [by right|done].
Qed.

Lemma grant_more j i id ds own :
  (∀ key, key.1 = id → own !! key = None) → holds_more j own (grant i id ds own).
Proof.
  intros Hnone. induction ds as [|d ds IH]; cbn; [by intros key ph|].
  intros key ph Ho. rewrite lookup_insert_ne; [by apply IH|]. intros <-. by rewrite Hnone in Ho.
Qed.

Lemma grant_others i id ds own :
  (∀ key, key.1 = id → own !! key = None) → others_keep i own (grant i id ds own).
Proof. intros Hnone j _. by apply grant_more. Qed.

Lemma stamps_drop i stamps s now : stamps_ok stamps s now → stamps_ok (<[i := None]> stamps) s now.
Proof.
  intros Hs.
  assert (∀ j t c, <[i := None]> stamps j = Some (t, c) → stamps j = Some (t, c)) as Hold.
  { intros j t c. destruct (decide (i = j)) as [<-|?]; [by rewrite fn_lookup_insert|by rewrite fn_lookup_insert_ne]. }
  split; [intros j t c ?%Hold; by eapply sm_past|intros j1 j2 t c1 c2 ?%Hold ?%Hold; by eapply sm_unique| |apply Hs].
  intros j t c key d ?%Hold. by eapply sm_claimed.
Qed.

Lemma destination_in_distinct l d :
  NoDup (dd_delivery_id <$> l) → d ∈ l → destination_in (dd_delivery_id d) l = Some d.
Proof.
  induction l as [|x l IH]; [by intros _ ?%elem_of_nil|]. rewrite fmap_cons, destination_in_cons.
  intros [Hx Hnd]%NoDup_cons [->|Hin]%elem_of_cons; [by rewrite decide_True|].
  case_decide as Heq; [|by apply IH]. destruct Hx. rewrite Heq. by apply list_elem_of_fmap_2.
Qed.

(** A reservation that acquires its ID gives the tokens of its destinations in flight. *)
Lemma reserve_step i record s log now own stamps :
  store_ok own s log → stamps_ok stamps s now →
  (∀ d, d ∈ sr_destinations record → dd_state d ≠ RETRYABLE ∧
     (dd_state d = IN_FLIGHT → ∃ claimed, stamps i = Some (dd_updated_at d, claimed))) →
  wp (reserve_delivery_submission record) (λ result s', ∃ own',
    (own' = own ∧ (∀ rv, result = Ok rv → rv_acquired rv = false) ∨
     own' = grant i (sr_submission_id record) (filter (λ d, dd_state d = IN_FLIGHT) (sr_destinations record)) own ∧
     (∀ key, key.1 = sr_submission_id record → own !! key = None) ∧
     NoDup (dd_delivery_id <$> sr_destinations record) ∧
     ∃ rv, result = Ok rv ∧ rv_acquired rv = true ∧ rv_record rv = record) ∧
    store_ok own' s' log ∧ stamps_ok (<[i := None]> stamps) s' now ∧ settled_in s s') s.
Proof.
  intros Hs Hst Hds.
  assert (submission_inv (reserve_delivery_submission record s).2) as Hinv by apply submission_inv_reserve, Hs.
  pose proof (reserve_stored record s) as Hu. unfold wp in *.
  destruct (reserve_delivery_submission record s) as [[rv|e] s']; cbn [fst snd] in *.
  2: { subst s'. exists own. split_and!; [by left|done|by apply stamps_drop|by intros key d]. }
  destruct (rv_acquired rv) eqn:Hrv.
  2: { subst s'. exists own. split_and!; [left; split; [done|by intros ? [= <-]]|done|by apply stamps_drop|by intros key d]. }
  destruct Hu as (Hrec & Hnd & Hnone & Hsome & Hkept & Hstored).
  assert (∀ key x, stored_at s' key = Some x →
    key.1 = sr_submission_id record ∧ x ∈ sr_destinations record ∨ stored_at s key = Some x) as Hcase.
  { intros key x. rewrite Hstored. case_decide; [|by right]. intros [? _]%destination_in_elem. by left. }
  assert (∀ key, key.1 = sr_submission_id record → stored_at s key = None) as Habsent.
  { intros key Hk. unfold stored_at. by rewrite Hk, Hnone. }
  assert (∀ key x, stored_at s key = Some x → stored_at s' key = Some x) as Hstays.
  { intros key x Hx. rewrite Hstored, decide_False; [done|]. intros ?%Habsent. congruence. }
  exists (grant i (sr_submission_id record) (filter (λ d, dd_state d = IN_FLIGHT) (sr_destinations record)) own).
  assert (∀ key, key.1 = sr_submission_id record → own !! key = None) as Hfree.
  { intros key Hk%Habsent. destruct (own !! key) as [[j ph]|] eqn:Ho; [|done].
    apply (so_owned _ _ _ Hs) in Ho as [(d & Hd & _) _]. congruence. }
  split_and!; [right; split_and!; eauto| | |].
  - split; [done|..].
    + intros key j ph [Ho|(-> & -> & d & [Hfl Hin]%list_elem_of_filter & ->)]%grant_lookup.
      * apply (so_owned _ _ _ Hs) in Ho as [(x & Hx & ?) ?]. split; [|done]. eauto.
      * split.
        -- exists d. split; [|done]. rewrite Hstored, decide_True by done. by apply destination_in_distinct.
        -- cbn. unfold may_begin. destruct (events_of _ log) eqn:He; [done|]. exfalso.
           assert (is_Some (d_get (sb_records s) (sr_submission_id record))) as [? ?]; [|congruence].
           apply (so_logged _ _ _ Hs (sr_submission_id record, dd_delivery_id d)). by rewrite He.
    + intros key x [[_ Hin]|?]%Hcase Hre; [by destruct (Hds x Hin)|by eapply so_retryable].
    + intros key Hk%(so_logged _ _ _ Hs). by apply Hkept.
    + apply Hs.
  - pose proof (stamps_drop i _ _ _ Hst) as Hdrop. split; [apply Hdrop|apply Hdrop|..].
    + intros j t c key x Hj [[_ Hin]|?]%Hcase Hfl Ht; [|by eapply Hdrop].
      destruct (decide (i = j)) as [<-|Hne]; [by rewrite fn_lookup_insert in Hj|].
      rewrite fn_lookup_insert_ne in Hj by done. destruct (Hds x Hin) as [_ [c' Hi]]; [done|].
      rewrite Ht in Hi. destruct Hne. by eapply (sm_unique _ _ _ Hst).
    + intros key x [[_ Hin]|?]%Hcase Hfl; [|by eapply (sm_stored _ _ _ Hst)].
      destruct (Hds x Hin) as [_ [c' Hi]]; [done|]. by eapply (sm_past _ _ _ Hst).
  - intros key x Hx _. by apply Hstays.
Qed.

(** ** Deliveries *)

Lemma events_of_other key log e : log_key e ≠ key → events_of key (log ++ [e]) = events_of key log.
Proof. intros ?. by rewrite events_of_snoc, decide_False. Qed.

(** An entry of the log that advances the token of its destination. *)
Lemma log_step e i ph ph' own s log :
  store_ok own s log → own !! log_key e = Some (i, ph) →
  (phase_at ph (log_key e) log → careful (events_of (log_key e) log) →
   careful (events_of (log_key e) log ++ [e])) →
  phase_at ph' (log_key e) (log ++ [e]) →
  store_ok (<[log_key e := (i, ph')]> own) s (log ++ [e]).
Proof.
  intros Hs Ho Hcareful Hph'. destruct (so_owned _ _ _ Hs _ _ _ Ho) as [(d & Hd & Hfl) Hph].
  split; [apply Hs|..].
  - intros key j p [[<- [= <- <-]]|[Hne Hj]]%lookup_insert_Some; [eauto|].
    apply (so_owned _ _ _ Hs) in Hj as [? Hp]. split; [done|].
    destruct p; cbn in *; unfold may_begin in *; by rewrite events_of_other.
  - intros key x Hx Hre. assert (log_key e ≠ key) by congruence.
    unfold may_begin. rewrite events_of_other by done. by eapply so_retryable.
  - intros key Hk. destruct (decide (log_key e = key)) as [<-|?]; [by eapply stored_is_some|].
    rewrite events_of_other in Hk by done. by eapply so_logged.
  - intros key. destruct (decide (log_key e = key)) as [<-|?].
    + rewrite events_of_snoc, decide_True by done. apply Hcareful; [done|apply Hs].
    + rewrite events_of_other by done. apply Hs.
Qed.

Lemma owned_not_settled key i ph own s log d :
  store_ok own s log → own !! key = Some (i, ph) → stored_at s key = Some d → ¬ settled d.
Proof. intros Hs Ho Hd [? _]. apply (so_owned _ _ _ Hs) in Ho as [(x & ? & ?) _]. congruence. Qed.

(** ** Children *)

(** The tokens of the destinations go to the tasks from [n] on. *)
Fixpoint hand_out (n : nat) (id : pystr) (ds : list DestinationDeliveryRecord) (own : tokens) : tokens :=
  match ds with
  | [] => own
  | d :: ds => <[(id, dd_delivery_id d) := (n, Granted)]> (hand_out (S n) id ds own)
  end.

Lemma hand_out_other n id ds own key :
  (∀ d, d ∈ ds → key ≠ (id, dd_delivery_id d)) → hand_out n id ds own !! key = own !! key.
Proof.
  revert n. induction ds as [|d ds IH]; intros n Hk; cbn; [done|].
  rewrite lookup_insert_ne; [apply IH; set_solver|]. intros Heq. apply (Hk d); [by left|done].
Qed.

Lemma hand_out_child n id ds own j d :
  NoDup (dd_delivery_id <$> ds) → ds !! j = Some d →
  hand_out n id ds own !! (id, dd_delivery_id d) = Some ((n + j)%nat, Granted).
Proof.
  revert n j. induction ds as [|x ds IH]; intros n j Hnd Hj; [done|]. cbn.
  rewrite fmap_cons in Hnd. apply NoDup_cons in Hnd as [Hx Hnd]. destruct j as [|j]; cbn in Hj.
  - injection Hj as ->. by rewrite lookup_insert_eq, Nat.add_0_r.
  - rewrite lookup_insert_ne; [by rewrite (IH (S n) j), <- Nat.add_succ_comm|]. intros [= Heq]. apply Hx.
    rewrite Heq. eapply list_elem_of_fmap_2, list_elem_of_lookup_2, Hj.
Qed.

Lemma hand_out_cases n id ds own key j ph :
  hand_out n id ds own !! key = Some (j, ph) →
  own !! key = Some (j, ph) ∨ ph = Granted ∧ ∃ d, d ∈ ds ∧ key = (id, dd_delivery_id d).
Proof.
  revert n. induction ds as [|d ds IH]; intros n; cbn; [by left|].
  intros [[<- [= _ <-]]|[_ [?|(-> & x & ? & ->)]%IH]]%lookup_insert_Some; [|by left|].
  - right. split; [done|]. exists d. split; [by left|done].
  - right. split; [done|]. exists x. split; [by right|done].
Qed.

Lemma hand_out_store n i id ds own s log :
  store_ok own s log → (∀ d, d ∈ ds → own !! (id, dd_delivery_id d) = Some (i, Granted)) →
  store_ok (hand_out n id ds own) s log.
Proof.
  intros [H1 H2 H3 H4 H5] Hds. split; try done.
  intros key j ph [?|(-> & d & Hin & ->)]%hand_out_cases; [by eapply H2|].
  by apply (H2 _ i), Hds.
Qed.

(** ** Steps *)

Lemma insert_same i (stamps : nat → stamp) st j : j ≠ i → <[i := st]> stamps j = stamps j.
Proof. intros ?. by rewrite fn_lookup_insert_ne. Qed.

(** A task goes on, with new tokens and a new stamp, over what is stored now. *)
Lemma task_keeps i t own own' stamps st' s' w :
  tasks_ok own stamps (po_tasks w) → others_keep i own own' → task_ok i own' st' t →
  store_ok own' s' (po_log w) → stamps_ok (<[i := st']> stamps) s' (po_now w) →
  settled_in (po_submissions w) s' → keeps w (set_task i t (set_repository s' w)).
Proof.
  intros Ht Hown Hok Hs Hst Hset. split.
  - exists own', (<[i := st']> stamps). split_and!; [done|done|]. cbn.
    eapply tasks_ok_set; [done|done|apply insert_same|by rewrite fn_lookup_insert].
  - intros key d Hd Hd'. split; [by apply Hset|done].
Qed.

(** A task goes on, with what it had. *)
Lemma quiet_keeps i t own stamps w :
  pool_ok own stamps w → task_ok i own (stamps i) t → keeps w (set_task i t w).
Proof.
  intros (Hs & Hst & Ht) Hok. split; [|by intros key d].
  exists own, stamps. split_and!; [done..|]. by eapply tasks_ok_set; [|apply others_keep_refl| |].
Qed.

(** The call of the repository takes place; its task goes on with its outcome, or with
    an exception. *)
Definition goes_on {A} (result result' : res A) : Prop := result' = result ∨ ∃ e, result' = Err e.

Lemma update_keeps i id did expected r k own stamps w result' :
  pool_ok own stamps w → permits i own (stamps i) (Update id did expected r k) anyhow →
  goes_on (update_delivery_destination id did expected r (po_submissions w)).1 result' →
  keeps w (set_task i (Running (k result'))
    (set_repository (update_delivery_destination id did expected r (po_submissions w)).2 w)).
Proof.
  intros (Hs & Hst & Ht) [(-> & Hr & t & c & Hi & Hu & Hc & Hk1 & Hk2)|(-> & Hr & o & Ho & Hretry & Hk)] Hgo.
  - destruct (claim_step i id did r _ _ _ _ _ _ _ Hs Hst Hi Hc Hr Hu) as (own' & Hown & Hs' & Hst' & Hset).
    eapply task_keeps; try done.
    + destruct Hown as [[-> _]|[-> Hnone]]; [apply others_keep_refl|].
      apply others_keep_insert. congruence.
    + assert (holds_more i own own') as Hmore.
      { destruct Hown as [[-> _]|[-> Hnone]]; [by intros key ph|]. intros key ph Hkey.
        rewrite lookup_insert_ne; [done|]. congruence. }
      assert (∀ e, permits i own' (Some (t, (id, did) :: c)) (k (Err e)) anyhow) as Herr.
      { intros e. eapply permits_mono; [apply Hk2|done|apply stamp_le_refl|done]. }
      destruct Hgo as [->|[e ->]]; [|apply Herr].
      destruct (update_delivery_destination _ _ _ _ _) as [[u|e] s']; [|apply Herr].
      destruct Hown as [[_ [e ?]]|[-> _]]; [done|]. apply Hk1.
  - destruct (record_step i id did r _ _ _ _ _ _ Hs Hst Ho Hr Hretry) as (Hs' & Hst' & Hset).
    split; [|by intros key d Hd Hd'; split; [apply Hset|]].
    exists (delete (id, did) own), stamps. split_and!; [done..|]. cbn.
    eapply tasks_ok_set; [done| |done|apply Hk]. apply others_keep_delete. intros j ph. congruence.
Qed.

Lemma reserve_keeps i record k own stamps w result' :
  pool_ok own stamps w → permits i own (stamps i) (ReserveSubmission record k) anyhow →
  goes_on (reserve_delivery_submission record (po_submissions w)).1 result' →
  keeps w (set_task i (Running (k result'))
    (set_repository (reserve_delivery_submission record (po_submissions w)).2 w)).
Proof.
  intros (Hs & Hst & Ht) (Hds & Hk1 & Hk2 & Hk3) Hgo.
  destruct (reserve_step i record _ _ _ _ _ Hs Hst Hds) as (own' & Hown & Hs' & Hst' & Hset).
  eapply task_keeps; try done.
  - destruct Hown as [[-> _]|(-> & Hnone & _)]; [apply others_keep_refl|by apply grant_others].
  - assert (holds_more i own own') as Hmore.
    { destruct Hown as [[-> _]|(-> & Hnone & _)]; [by intros key ph|by apply grant_more]. }
    assert (∀ e, permits i own' None (k (Err e)) anyhow) as Herr.
    { intros e. eapply permits_mono; [apply Hk3|done|done|done]. }
    destruct Hgo as [->|[e ->]]; [|apply Herr].
    destruct (reserve_delivery_submission _ _) as [[rv|e] s']; [|apply Herr]. cbn in *.
    destruct Hown as [[-> Hrv]|(-> & _ & Hnd & rv' & [= <-] & Hrv & Hrec)]; [by apply Hk2, Hrv|by apply Hk1].
Qed.

(** A delivery begins or ends. *)
Lemma log_keeps i e ph ph' t own stamps w :
  pool_ok own stamps w → own !! log_key e = Some (i, ph) →
  (phase_at ph (log_key e) (po_log w) → careful (events_of (log_key e) (po_log w)) →
   careful (events_of (log_key e) (po_log w) ++ [e])) →
  phase_at ph' (log_key e) (po_log w ++ [e]) →
  task_ok i (<[log_key e := (i, ph')]> own) (stamps i) t →
  keeps w (set_task i t (add_log e w)).
Proof.
  intros (Hs & Hst & Ht) Ho Hc Hph Hok. split.
  - exists (<[log_key e := (i, ph')]> own), stamps. split_and!; [by eapply log_step|done|]. cbn.
    eapply tasks_ok_set; [done| |done|done]. apply others_keep_insert. congruence.
  - intros key d Hd Hset. split; [done|]. cbn. apply events_of_other. intros <-.
    by eapply owned_not_settled.
Qed.

Lemma last_event_snoc key log e : log_key e = key → last (events_of key (log ++ [e])) = Some e.
Proof. intros ?. by rewrite events_of_snoc, decide_True, last_snoc. Qed.

Lemma begins_keeps i key k own stamps w :
  pool_ok own stamps w → own !! key = Some (i, Granted) →
  (∀ o, permits i (<[key := (i, Ended o)]> own) (stamps i) (k o) anyhow) →
  keeps w (set_task i (Delivering key k) (add_log (Begins key) w)).
Proof.
  intros Hw Ho Hk. eapply (log_keeps i (Begins key) Granted Outstanding); try done.
  - intros Hb Hc. by apply careful_begins.
  - by apply last_event_snoc.
  - cbn. split; [apply lookup_insert_eq|]. intros o. by rewrite insert_insert_eq.
Qed.

Lemma ends_keeps i key o k own stamps w :
  pool_ok own stamps w → task_ok i own (stamps i) (Delivering key k) →
  keeps w (set_task i (Running (k o)) (add_log (Ends key o) w)).
Proof.
  intros Hw [Ho Hk]. eapply (log_keeps i (Ends key o) Outstanding (Ended o)); try done.
  - intros Hb Hc. by apply careful_ends.
  - by apply last_event_snoc.
  - apply Hk.
Qed.

(** The clock moves on. *)
Lemma now_keeps i now k own stamps w :
  pool_ok own stamps w → ticks (po_now w) now → permits i own (Some (now, [])) (k now) anyhow →
  keeps w (set_task i (Running (k now)) (set_now now w)).
Proof.
  intros (Hs & Hst & Ht) Hnow Hk.
  assert (∀ t, not_after t (po_now w) → not_after t now ∧ t ≠ now) as Hlater.
  { assert (∀ x, ¬ ticks x x) as Hirr by (intros x; apply StrictOrder_Irreflexive).
    intros t [->|Htick]; split; [by right| |right; by etrans|];
      intros Heq; apply (Hirr now); [by rewrite Heq in Hnow|by rewrite Heq in Htick; etrans]. }
  split; [|by intros key d]. exists own, (<[i := Some (now, [])]> stamps). split_and!; [done| |].
  - cbn. split.
    + intros j t c. destruct (decide (i = j)) as [<-|?]; [rewrite fn_lookup_insert|rewrite fn_lookup_insert_ne by done].
      * intros [= <- _]. by left.
      * intros Hj. by apply Hlater, (sm_past _ _ _ Hst j t c).
    + intros j1 j2 t c1 c2.
      destruct (decide (i = j1)) as [<-|?]; [rewrite fn_lookup_insert|rewrite fn_lookup_insert_ne by done];
        (destruct (decide (i = j2)) as [<-|?]; [rewrite fn_lookup_insert|rewrite fn_lookup_insert_ne by done]).
      * done.
      * intros [= <- _] H2. by apply (sm_past _ _ _ Hst), Hlater in H2 as [_ ?].
      * intros H1 [= <- _]. by apply (sm_past _ _ _ Hst), Hlater in H1 as [_ ?].
      * by apply (sm_unique _ _ _ Hst).
    + intros j t c key d Hj Hd Hfl Ht'.
      destruct (decide (i = j)) as [<-|?]; [rewrite fn_lookup_insert in Hj|rewrite fn_lookup_insert_ne in Hj by done].
      * injection Hj as <- <-. exfalso. destruct (Hlater (dd_updated_at d)) as [_ Hne]; [|done].
        by eapply (sm_stored _ _ _ Hst).
      * by eapply (sm_claimed _ _ _ Hst).
    + intros key d Hd Hfl. by apply Hlater, (sm_stored _ _ _ Hst key).
  - cbn. eapply tasks_ok_set; [done|apply others_keep_refl|apply insert_same|by rewrite fn_lookup_insert].
Qed.

(** New tasks. *)
Lemma tasks_ok_app own stamps tasks ts :
  tasks_ok own stamps tasks →
  (∀ j t, ts !! j = Some t → task_ok (length tasks + j) own (stamps (length tasks + j)%nat) t) →
  tasks_ok own stamps (tasks ++ ts).
Proof.
  intros Ht Hts i t [?|[Hi Hj]]%lookup_app_Some; [by apply Ht|].
  apply Hts in Hj. by replace (length tasks + (i - length tasks))%nat with i in Hj by lia.
Qed.

Lemma called_keeps c own stamps w :
  pool_ok own stamps w → keeps w (add_tasks [Unstarted (program float_repr error_text c)] w).
Proof.
  intros (Hs & Hst & Ht). split; [|by intros key d]. exists own, stamps. split_and!; [done..|].
  apply tasks_ok_app; [done|]. intros [|j] t [= <-]. apply program_permits.
Qed.

Lemma gather_keeps i sv intent id ds k own stamps w :
  pool_ok own stamps w → po_tasks w !! i = Some (Running (Gather sv intent id ds k)) →
  keeps w (set_task i (Gathering (seq (length (po_tasks w)) (length ds)) k)
    (add_tasks ((λ d, Unstarted (child error_text sv intent id d)) <$> ds) w)).
Proof.
  intros (Hs & Hst & Ht) Hi. pose proof (Ht _ _ Hi) as (Hnd & Hds & Hk).
  split; [|by intros key d].
  set (own' := hand_out (length (po_tasks w)) id ds own).
  assert (∀ j, j ≠ i → holds_more j own own') as Hmore.
  { intros j Hj key ph Ho. unfold own'. rewrite hand_out_other; [done|]. intros d Hin ->.
    rewrite Hds in Ho by done. congruence. }
  exists own', stamps. split_and!; [by eapply hand_out_store|done|]. cbn.
  pose proof (lookup_lt_Some _ _ _ Hi) as Hlt.
  rewrite insert_app_l by done. apply tasks_ok_app.
  - eapply tasks_ok_set; [done|done|done|]. intros r. eapply permits_mono; [apply Hk|apply holds_more_empty|apply stamp_le_refl|done].
  - rewrite length_insert. intros j t Hj. apply list_lookup_fmap_Some in Hj as (d & -> & Hd).
    apply child_permits. by apply hand_out_child.
Qed.

Lemma crash_keeps own stamps w :
  pool_ok own stamps w →
  keeps w {| po_submissions := po_submissions w; po_log := po_log w; po_now := po_now w; po_tasks := [] |}.
Proof.
  intros (Hs & Hst & Ht). split; [|by intros key d]. exists ∅, (λ _, None). split_and!.
  - destruct Hs as [H1 H2 H3 H4 H5]. split; try done.
  - destruct Hst as [H1 H2 H3 H4]. by split.
  - by intros i t [=].
Qed.

(** A task that gives up what it awaits. *)
Lemma cancelled_permits i own st p p' :
  permits i own st p anyhow → cancelled_operation p = Some p' → permits i own st p' anyhow.
Proof.
  destruct p; cbn; intros Hp [= <-]; try done; try apply Hp.
  - by intros record [=].
  - destruct Hp as (_ & _ & _ & Hk). by (eapply permits_mono; [apply Hk|intros ?? Ho; exact Ho|exact I|done]).
  - destruct Hp as [(_ & _ & t & c & -> & _ & _ & _ & Hk)|(_ & _ & o & _ & _ & Hk)].
    + eapply permits_mono; [apply Hk|by intros key ph| |done]. exists c. split; [done|set_solver].
    + eapply permits_mono; [apply Hk| |apply stamp_le_refl|done].
      intros key ph [_ ?]%lookup_delete_Some. done.
Qed.

Lemma cancelled_after_keeps i p p' own stamps w :
  pool_ok own stamps w → permits i own (stamps i) p anyhow → cancelled_operation p = Some p' →
  keeps w (set_task i (Running p') (effect_of p w)).
Proof.
  intros Hw Hp Hc. pose proof (cancelled_permits _ _ _ _ _ Hp Hc) as Hp'.
  destruct p; cbn in Hc; try discriminate; injection Hc as <-; try by eapply quiet_keeps.
  - eapply reserve_keeps; [done|done|right; eauto].
  - eapply update_keeps; [done|done|right; eauto].
Qed.

Lemma runs_keeps i p a own stamps w w' :
  pool_ok own stamps w → po_tasks w !! i = Some (Running p) →
  run_operation error_text ticks i p a w = Some w' → keeps w w'.
Proof.
  intros Hw Hi Hrun. assert (permits i own (stamps i) p anyhow) as Hp by apply (proj2 (proj2 Hw) _ _ Hi).
  destruct p; cbn in Hrun; try by destruct a.
  - destruct a; try discriminate; injection Hrun as <-. unfold resume_with, get_delivery_submission, gets. cbn.
    assert (set_repository (po_submissions w) w = w) as -> by by destruct w.
    eapply quiet_keeps; [done|]. apply Hp. intros record [= Hg]. destruct Hw as (Hs & _).
    destruct (d_all_get _ _ _ _ (si_records _ (so_submissions _ _ _ Hs)) Hg) as [-> Hv].
    split; [done|]. by apply valid_record_distinct.
  - destruct a; try discriminate; injection Hrun as <-. pose proof (λ r, reserve_keeps i record k own stamps w r Hw Hp) as H.
    unfold resume_with. destruct (reserve_delivery_submission _ _) as [r s]. apply H. by left.
  - destruct a; try discriminate; injection Hrun as <-.
    pose proof (λ u, update_keeps i submission_id destination_delivery_id expected destination k own stamps w u Hw Hp) as H.
    unfold resume_with. destruct (update_delivery_destination _ _ _ _ _) as [u s]. apply H. by left.
  - destruct a; try discriminate; injection Hrun as <-. eapply quiet_keeps; [done|]. apply Hp.
  - destruct a; try discriminate; injection Hrun as <-. eapply quiet_keeps; [done|]. apply Hp.
  - destruct a; try done. case_decide as Hnow; [|done]. injection Hrun as <-.
    eapply now_keeps; [done|apply Hnow|apply Hp].
  - destruct a; try discriminate; injection Hrun as <-. destruct Hp as [Ho Hk]. by eapply begins_keeps.
  - destruct a; try discriminate; injection Hrun as <-. by eapply quiet_keeps.
  - destruct a; try discriminate; injection Hrun as <-. by eapply gather_keeps.
Qed.

(** Every step keeps the discipline and what is settled. *)
Lemma step_keeps own stamps w w' :
  pool_ok own stamps w → pool_step float_repr error_text ticks w w' → keeps w w'.
Proof.
  intros Hw [e He]. pose proof (proj2 (proj2 Hw)) as Ht. destruct e as [c|i a|i|i|]; cbn in He.
  - injection He as <-. by eapply called_keeps.
  - destruct (po_tasks w !! i) as [t|] eqn:Hi; [|done].
    destruct t as [p|p|key k|ids k].
    + destruct a; try discriminate; injection He as <-. eapply quiet_keeps; [done|]. apply (Ht _ _ Hi).
    + by eapply runs_keeps.
    + destruct a; try done. injection He as <-. eapply ends_keeps; [done|]. apply (Ht _ _ Hi).
    + destruct a; try done; apply fmap_Some in He as (r & _ & ->); (eapply quiet_keeps; [done|]);
        apply (Ht _ _ Hi).
  - destruct (po_tasks w !! i) as [t|] eqn:Hi; [|done]. destruct t as [p|p|key k|ids k]; try done.
    + injection He as <-. by eapply quiet_keeps.
    + apply fmap_Some in He as (p' & Hc & ->). eapply quiet_keeps; [done|].
      eapply cancelled_permits; [apply (Ht _ _ Hi)|done].
    + injection He as <-. eapply quiet_keeps; [done|]. apply (Ht _ _ Hi).
  - destruct (po_tasks w !! i) as [t|] eqn:Hi; [|done]. destruct t as [p|p|key k|ids k]; try done.
    apply fmap_Some in He as (p' & Hc & ->). eapply cancelled_after_keeps; [done|apply (Ht _ _ Hi)|done].
  - injection He as <-. by eapply crash_keeps.
Qed.

Lemma steps_keep own stamps w w' :
  pool_ok own stamps w → rtc (pool_step float_repr error_text ticks) w w' → keeps w w'.
Proof.
  intros Hw Hsteps. revert own stamps Hw.
  induction Hsteps as [w|w1 w2 w3 Hstep _ IH]; intros own stamps Hw; [split; [eauto|by intros key d]|].
  destruct (step_keeps _ _ _ _ Hw Hstep) as [(own' & stamps' & Hw2) H12].
  destruct (IH _ _ Hw2) as [Hw3 H23]. split; [done|].
  intros key d Hd Hset. destruct (H12 _ _ Hd Hset) as [Hd2 He2]. destruct (H23 _ _ Hd2 Hset) as [Hd3 He3].
  split; [done|congruence].
Qed.
End pool.

Lemma pool_run_steps float_repr error_text ticks `{!RelDecision ticks} events w w' :
  pool_run float_repr error_text ticks events w = Some w' → rtc (pool_step float_repr error_text ticks) w w'.
Proof.
  unfold pool_run. revert w. induction events as [|e events IH]; intros w; cbn [fold_left mbind option_bind].
  { by intros [= <-]. }
  destruct (pool_next _ _ _ e w) as [w1|] eqn:He.
  - intros Hrun. eapply rtc_l; [by exists e|by apply IH].
  - intros Hrun. exfalso. clear -Hrun. by induction events.
Qed.

(** A service starts with a new repository and no task. *)
Definition new_pool (submissions : SubmissionRepository) (now : datetime) : pool :=
  {| po_submissions := submissions; po_log := []; po_now := now; po_tasks := [] |}.

Lemma new_pool_ok ticks n submissions now :
  new_submission_repository n = Ok submissions → pool_ok ticks ∅ (λ _, None) (new_pool submissions now).
Proof.
  unfold new_submission_repository. intros H. inv_ok. subst submissions.
  assert (∀ key : destination_key, stored_at {| sb_max_records := n; sb_records := [] |} key = None) as Hnone
    by done.
  split; [|split; [split; done|by intros i t [=]]]. split; try done.
  - split; cbn; [constructor|constructor|]. unfold len. cbn. lia.
  - intros key. constructor.
Qed.


