(* ===== verification/ProactiveOutcomes.v ===== *)
(** Proactive delivery: what is recorded of an outcome, and who may cause one. *)

From S2P Require Export ProactiveTheorems.
From Stdlib Require Qcanon.
From stdpp Require Import list.
#[local] Open Scope Z_scope.
#[local] Open Scope stdpp_scope.

(** * Receipts without their details *)

Lemma raise_if_iff {P Q : Prop} `{Decision P, Decision Q} e :
  P ↔ Q → (raise_if P e : res unit) = raise_if Q e.
Proof. intros HPQ. unfold raise_if. repeat case_decide; tauto. Qed.

Lemma durable_items seen items :
  validate_receipt_items seen ((λ item, {|
    di_content_index := di_content_index item; di_status := di_status item;
    di_attachment_id := di_attachment_id item; di_native_message_id := di_native_message_id item;
    di_detail := None |}) <$> items) = validate_receipt_items seen items.
Proof.
  revert seen. induction items as [|item items IH]; intros seen; [done|].
  rewrite fmap_cons. cbn [validate_receipt_items di_content_index di_status di_attachment_id di_native_message_id].
  by rewrite IH.
Qed.

Lemma durable_segments seen ids segments :
  validate_receipt_segments seen ids ((λ segment, {|
    dg_segment_index := dg_segment_index segment; dg_delivery_id := dg_delivery_id segment;
    dg_source_content_indexes := dg_source_content_indexes segment; dg_status := dg_status segment;
    dg_native_message_id := dg_native_message_id segment; dg_detail := None;
    dg_retry_after_seconds := dg_retry_after_seconds segment |}) <$> segments) =
  validate_receipt_segments seen ids segments.
Proof.
  revert seen ids. induction segments as [|segment segments IH]; intros seen ids; [done|].
  rewrite fmap_cons. cbn [validate_receipt_segments dg_segment_index dg_delivery_id dg_source_content_indexes
    dg_status dg_native_message_id dg_retry_after_seconds].
  by rewrite IH.
Qed.

(** Dropping the details keeps a receipt valid. *)
Lemma durable_receipt_valid receipt :
  validate_delivery_receipt (_durable_delivery_receipt receipt) = validate_delivery_receipt receipt.
Proof.
  unfold validate_delivery_receipt, _durable_delivery_receipt.
  cbn [dr_status dr_native_message_id dr_items dr_segments dr_retry_after_seconds].
  rewrite durable_items, durable_segments.
  destruct (decide (dr_status receipt = RETRYABLE_FAILURE)); [|done].
  rewrite !(raise_if_iff _ (Exists_fmap _ _ _)). done.
Qed.

Lemma durable_receipt_is_durable receipt :
  _validate_durable_delivery_receipt (_durable_delivery_receipt receipt) = Ok ().
Proof.
  unfold _validate_durable_delivery_receipt, _durable_delivery_receipt. cbn [dr_detail dr_items dr_segments].
  rewrite !seq_ok, !raise_if_ok, !Exists_fmap, !Exists_exists. split_and!; [by intros []|..];
    intros (x & _ & [? ?]); done.
Qed.

Lemma bare_receipt_valid status detail : validate_delivery_receipt (bare_receipt status detail) = Ok ().
Proof. unfold validate_delivery_receipt, bare_receipt. cbn. by case_decide. Qed.

(** The delivery contract raises nothing but contract violations. *)
Definition contract_only {A} (r : res A) : Prop := ∀ e, r = Err e → ∃ m, e = ContractViolation m.

Lemma contract_then {A} (m1 : res unit) (m2 : res A) :
  contract_only m1 → contract_only m2 → contract_only (m1 ;; m2).
Proof. intros H1 H2 e [?|(_ & _ & ?)]%res_bind_err; auto. Qed.
Lemma contract_raise_if P `{Decision P} m : contract_only (raise_if P (ContractViolation m) : res unit).
Proof. intros e [_ ->]%raise_if_err. eauto. Qed.
Lemma contract_when_some {A} (o : option A) (f : A → res unit) :
  (∀ x, contract_only (f x)) → contract_only (when_some o f).
Proof. intros Hf e. destruct o; [apply Hf|done]. Qed.
Lemma contract_for_each {A} (l : list A) (f : A → res unit) :
  (∀ x, contract_only (f x)) → contract_only (for_each l f).
Proof. intros Hf. induction l as [|x l IH]; [by intros e|]. by apply contract_then. Qed.
Lemma contract_ok {A} (a : A) : contract_only (Ok a).
Proof. by intros e. Qed.
Ltac contract :=
  repeat first [apply contract_then|apply contract_when_some; intros ?|apply contract_for_each; intros ?
    |apply contract_raise_if|apply contract_ok|case_decide].

Lemma contract_identifier v n : contract_only (require_identifier v n).
Proof. unfold require_identifier. contract. Qed.
Lemma contract_items seen items : contract_only (validate_receipt_items seen items).
Proof.
  revert seen. induction items; intros seen; cbn [validate_receipt_items]; contract;
    auto using contract_identifier.
Qed.
Lemma contract_segments seen ids segments : contract_only (validate_receipt_segments seen ids segments).
Proof.
  revert seen ids. induction segments; intros seen ids; cbn [validate_receipt_segments]; contract;
    auto using contract_identifier.
Qed.
Lemma contract_receipt receipt content : contract_only (validate_delivery_receipt_for_content receipt content).
Proof.
  unfold validate_delivery_receipt_for_content, validate_delivery_receipt. contract;
    auto using contract_identifier, contract_items, contract_segments.
  all: destruct (content !! _) as [[]|]; try apply contract_raise_if; intros e [= <-]; eauto.
Qed.

(** * Outcomes *)

(** What a recorded state says of the delivery. *)
Definition state_tells (intent : DeliveryIntent) (outcome : res DeliveryReceipt)
    (state : DeliverySubmissionState) : Prop :=
  match state with
  | IN_FLIGHT => False
  | ACCEPTED => ∃ r, outcome = Ok r ∧ dr_status r = ACCEPTED_BY_PLATFORM ∧
      Forall (λ i, di_status i = ITEM_ACCEPTED) (dr_items r) ∧
      Forall (λ s, dg_status s = SEGMENT_ACCEPTED_BY_PLATFORM) (dr_segments r)
  | RETRYABLE => ∃ r, outcome = Ok r ∧ dr_status r = RETRYABLE_FAILURE ∧ ¬ acceptance_evidence r
  | REJECTED => outcome = Err DeliveryPlanningError ∨
      ∃ r, outcome = Ok r ∧ dr_status r = REJECTED_BY_PLATFORM ∧
        Forall (λ i, di_status i ≠ ITEM_ACCEPTED) (dr_items r) ∧
        Forall (λ s, dg_status s ≠ SEGMENT_ACCEPTED_BY_PLATFORM) (dr_segments r)
  | PARTIAL => ∃ r, outcome = Ok r ∧
      (dr_status r = ACCEPTED_BY_PLATFORM ∨
       dr_status r = REJECTED_BY_PLATFORM ∧
         (Exists (λ i, di_status i = ITEM_ACCEPTED) (dr_items r) ∨
          Exists (λ s, dg_status s = SEGMENT_ACCEPTED_BY_PLATFORM) (dr_segments r)))
  | UNKNOWN => (∃ e, outcome = Err e ∧ e ≠ DeliveryPlanningError) ∨
      ∃ r, outcome = Ok r ∧ (dr_status r = DELIVERY_UNKNOWN ∨
        validate_delivery_receipt_for_content r (in_content intent) ≠ Ok ())
  end.

Lemma state_from_receipt_tells intent r :
  validate_delivery_receipt r = Ok () → state_tells intent (Ok r) (_state_from_receipt r).
Proof.
  intros Hv. unfold _state_from_receipt. destruct (dr_status r) eqn:Hs.
  - case_decide as Hpart; [exists r; auto|]. apply Decidable.not_or in Hpart as [Hi Hg]. exists r.
    split_and!; [done|done|..]; apply Forall_forall.
    + intros i Hin. destruct (di_status i) eqn:He; [done|..]; destruct Hi; apply Exists_fmap, Exists_exists;
        exists i; cbn; rewrite He; (split; [done|set_solver]).
    + intros g Hin. destruct (dg_status g) eqn:He; [done|..]; destruct Hg; apply Exists_fmap, Exists_exists;
        exists g; cbn; rewrite He; (split; [done|set_solver]).
  - case_decide as Hacc.
    + exists r. split; [done|]. right. split; [done|]. rewrite !Exists_exists.
      destruct Hacc as [(i & ? & ?)%list_elem_of_fmap|(g & ? & ?)%list_elem_of_fmap]; [left|right]; eauto.
    + right. exists r. apply Decidable.not_or in Hacc as [Hi Hg].
      split_and!; [done|done|..]; apply Forall_forall; intros x Hx Heq; [apply Hi|apply Hg]; rewrite <- Heq;
        by apply list_elem_of_fmap_2.
  - exists r. split_and!; [done..|]. by apply retryable_receipt_has_no_acceptance_evidence.
  - right. exists r. auto.
Qed.

(** C27. What is recorded of a delivery can be stored, and says what came of it: accepted
    only if the platform accepted every item and segment, retryable only on a
    valid receipt without evidence of acceptance, rejected only if nothing was
    accepted or nothing could be sent; an exception, a cancellation and a receipt
    that breaks the contract are unknown, never rejected or retryable. *)
Theorem recorded_outcome_is_honest error_text intent outcome receipt state error cancelled :
  delivery_result error_text intent outcome = Some (receipt, state, error, cancelled) →
  validate_delivery_receipt (_durable_delivery_receipt receipt) = Ok () ∧
  _validate_durable_delivery_receipt (_durable_delivery_receipt receipt) = Ok () ∧
  state_tells intent outcome state.
Proof.
  intros H. rewrite durable_receipt_valid. pose proof (durable_receipt_is_durable receipt) as Hd.
  unfold delivery_result in H. destruct outcome as [r|e]; cbn [mbind res_bind] in H.
  - destruct (validate_delivery_receipt_for_content r (in_content intent)) as [[]|e] eqn:Hv; cbn in H.
    + injection H as <- <- _ _. apply seq_ok in Hv as [Hv _]. split_and!; [done..|].
      by apply state_from_receipt_tells.
    + destruct (contract_receipt _ _ _ Hv) as [m ->]. injection H as <- <- _ _.
      split_and!; [apply bare_receipt_valid|done|]. right. exists r. rewrite Hv. auto.
  - assert (validate_delivery_receipt receipt = Ok ()) by (destruct e; simplify_eq; apply bare_receipt_valid).
    split_and!; [done..|]. destruct e; simplify_eq; cbn; eauto.
Qed.

(** * Authorization *)

(** The program writes nothing to the repository and sends nothing until its
    authorizer has answered a credential with a principal as required. *)
Fixpoint writes_only_after {A : Type} (P : pystr → DeliveryPrincipal → Prop) (p : proc A) : Prop :=
  match p with
  | Ret _ => True
  | Get _ k => ∀ r, writes_only_after P (k r)
  | Authenticate credential k => ∀ r,
      (∀ principal, r = Ok principal → ¬ P credential principal) → writes_only_after P (k r)
  | Routes _ k => ∀ r, writes_only_after P (k r)
  | Now k => ∀ t, writes_only_after P (k t)
  | Notify _ _ _ k => writes_only_after P k
  | ReserveSubmission _ _ | Update _ _ _ _ _ | Deliver _ _ _ _ | Gather _ _ _ _ _ => False
  end.

Lemma writes_only_after_continue {A B : Type} P (p : proc A) (f : res A → proc B) :
  (∀ r, writes_only_after P (f r)) → writes_only_after P p → writes_only_after P (continue p f).
Proof. intros Hf. induction p; cbn [writes_only_after continue]; auto. Qed.

Lemma writes_after_pure {A B : Type} P (r : res A) (f : A → proc B) :
  (∀ a, r = Ok a → writes_only_after P (f a)) → writes_only_after P (pure r ≫= f).
Proof. intros Hf. destruct r as [a|e]; [by apply Hf|done]. Qed.

(** What lets a principal deliver an intent with a credential. *)
Definition may_deliver (intent : DeliveryIntent) (credential credential' : pystr)
    (principal : DeliveryPrincipal) : Prop :=
  credential' = credential ∧ validate_delivery_principal principal = Ok () ∧
  match in_target intent with
  | ConversationDeliveryTarget conversation_ref => conversation_ref ∈ dp_allowed_conversations principal
  | ThreadRouteDeliveryTarget thread_ref _ => thread_ref ∈ dp_allowed_threads principal
  end.

Lemma authorize_writes {B : Type} sv intent credential (f : DeliveryPrincipal → proc B) :
  writes_only_after (may_deliver intent credential) (authorize sv (in_target intent) credential ≫= f).
Proof.
  unfold authorize. destruct (sv_authorizer sv); [|done].
  cbn. intros [principal|e] Hp; [|done]. cbn. specialize (Hp _ eq_refl).
  destruct (validate_delivery_principal principal) as [[]|e] eqn:Hv; [|done]. cbn.
  destruct (authorize_delivery_target principal (in_target intent)) as [[]|e] eqn:Ha; [|done].
  destruct Hp. split_and!; [done..|]. unfold authorize_delivery_target in Ha.
  destruct (in_target intent); apply raise_if_ok, dec_stable in Ha; done.
Qed.

(** C28. A delivery from outside writes nothing and sends nothing before its own credential
    was authenticated as a valid principal whose scope names the Conversation or
    the Thread it is for; a replay of a finished delivery only reads. *)
Theorem delivery_requires_authorization float_repr error_text sv intent credential :
  writes_only_after (may_deliver intent credential) (deliver float_repr error_text sv intent credential).
Proof.
  apply writes_after_pure. intros snapshot Hsnapshot.
  assert (in_target snapshot = in_target intent) as Htarget.
  { unfold _snapshot_intent in Hsnapshot. inv_ok. by subst snapshot. }
  apply writes_after_pure. intros replay_id _. rewrite Htarget.
  intros [[existing|]|e]; cbn [continue]; [|apply authorize_writes|done].
  case_decide; [apply authorize_writes|]. by apply writes_after_pure.
Qed.
