(* ===== verification/ProactiveExamples.v ===== *)
(** Proactive delivery at a concrete service, and what goes wrong when its clock
    repeats a reading or a Channel is gone. *)

From S2P Require Import ProactiveProperties ProactiveOutcomes DeliveryExamples.
From stdpp Require Import list.
#[local] Open Scope Z_scope.
#[local] Open Scope stdpp_scope.

Definition no_repr (q : Qcanon.Qc) : pystr := [].
Definition error_name (e : exn) : pystr := py "error".

(** A clock that moves on with every reading, and one that only does not go back. *)
Definition later (a b : datetime) : Prop := dt_us a < dt_us b.
#[export] Instance later_dec : RelDecision later.
Proof. intros a b. unfold later. apply _. Defined.
#[export] Instance later_strict : StrictOrder later.
Proof. split; [intros a; unfold complement, later; lia|intros a b c; unfold later; lia]. Qed.
Definition not_earlier (a b : datetime) : Prop := dt_us a ≤ dt_us b.
#[export] Instance not_earlier_dec : RelDecision not_earlier.
Proof. intros a b. unfold not_earlier. apply _. Defined.

Definition example_service : service := {|
  sv_channels := [(cv_channel_instance_id example_conversation, small_channel)];
  sv_config := config; sv_authorizer := false; sv_observer := false |}.

(** The same service, configured without the Channel. *)
Definition bare_service : service := {|
  sv_channels := []; sv_config := config; sv_authorizer := false; sv_observer := false |}.

Definition hello : OutboundMessage := {|
  om_delivery_id := py "d1"; om_conversation_ref := example_conversation;
  om_content := [TextContent (py "Hello") PLAIN];
  om_created_at := Aware 0; om_reply_to := None; om_metadata := [] |}.

Definition hello_key : destination_key := Eval vm_compute in
  match derive_delivery_submission_id GATEWAY_INTERNAL (py "imagent:gateway-internal") (py "d1") with
  | Ok id => (id, py "d1")
  | Err _ => ([], [])
  end.

Definition start_pool : pool := new_pool {| sb_max_records := 8; sb_records := [] |} (Aware 0).

(** A task submits the message, begins, looks for it, reads the clock, reserves and
    sends; the Channel answers. *)
Definition first_attempt (status : DeliveryReceiptStatus) : list event :=
  [Called (InternalCall example_service hello); Runs 0 Silent; Runs 0 Silent; Runs 0 (Clock (Aware 1));
   Runs 0 Silent; Runs 0 Silent; Runs 0 (Receipt (Ok (DeliveryExamples.answer status)));
   Runs 0 (Clock (Aware 2)); Runs 0 Silent; Runs 0 Silent].

(** Another finds it retryable, claims it and sends it again. *)
Definition second_attempt : list event :=
  [Called (InternalCall example_service hello); Runs 1 Silent; Runs 1 Silent; Runs 1 (Clock (Aware 3));
   Runs 1 Silent; Runs 1 Silent].

(** Two that read the clock at the same time. *)
Definition two_at_once : list event :=
  [Called (InternalCall example_service hello); Called (InternalCall example_service hello);
   Runs 1 Silent; Runs 1 Silent; Runs 2 Silent; Runs 2 Silent;
   Runs 1 (Clock (Aware 3)); Runs 2 (Clock (Aware 3));
   Runs 1 Silent; Runs 1 Silent; Runs 2 Silent; Runs 2 Silent].

Definition after (ticks : datetime → datetime → Prop) `{!RelDecision ticks} (events : list event) : pool :=
  default start_pool (pool_run no_repr error_name ticks events start_pool).

Lemma after_steps ticks `{!RelDecision ticks} events :
  bool_decide (is_Some (pool_run no_repr error_name ticks events start_pool)) = true →
  rtc (pool_step no_repr error_name ticks) start_pool (after ticks events).
Proof.
  intros [w Hw]%bool_decide_eq_true. apply (pool_run_steps _ _ _ events). unfold after. by rewrite Hw.
Qed.


Definition accepted_hello : DestinationDeliveryRecord := Eval vm_compute in
  default {| dd_delivery_id := []; dd_snapshot := {| ds_conversation_ref := example_conversation;
      ds_thread_ref := None; ds_route_id := None; ds_route_updated_at := None;
      ds_reply_to_message_id := None |}; dd_state := UNKNOWN; dd_updated_at := Aware 0; dd_receipt := None |}
    (stored_at (po_submissions (after later (first_attempt ACCEPTED_BY_PLATFORM))) hello_key).


(** C36. The claim of a retryable destination is not exclusive when two tasks read the
    clock at the same microsecond: the second update finds the very record it
    would write, counts as a success, and both send the message. *)
Theorem claims_at_one_reading_both_send :
  ∃ w, rtc (pool_step no_repr error_name not_earlier) start_pool w ∧
    events_of hello_key (po_log w) =
      [Begins hello_key; Ends hello_key (Ok (DeliveryExamples.answer RETRYABLE_FAILURE));
       Begins hello_key; Begins hello_key].
Proof.
  exists (after not_earlier (first_attempt RETRYABLE_FAILURE ++ two_at_once)).
  split; [apply (after_steps not_earlier)|]; vm_compute; reflexivity.
Qed.

Definition hello_intent : DeliveryIntent := {|
  in_delivery_id := py "d1"; in_target := ConversationDeliveryTarget example_conversation;
  in_content := om_content hello; in_created_at := Aware 0; in_reply_to := None; in_metadata := [] |}.

Lemma recorded_outcome_is_honest_witness :
  delivery_result error_name hello_intent (Ok (DeliveryExamples.answer RETRYABLE_FAILURE)) =
    Some (DeliveryExamples.answer RETRYABLE_FAILURE, RETRYABLE, None, false) ∧
  ¬ acceptance_evidence (DeliveryExamples.answer RETRYABLE_FAILURE).
Proof.
  assert (delivery_result error_name hello_intent (Ok (DeliveryExamples.answer RETRYABLE_FAILURE)) =
    Some (DeliveryExamples.answer RETRYABLE_FAILURE, RETRYABLE, None, false)) as Hr by reflexivity.
  split; [exact Hr|].
  destruct (recorded_outcome_is_honest _ _ _ _ _ _ _ Hr) as (_ & _ & r & [= <-] & _ & Hno). exact Hno.
Defined.

(** The delivery may be retried, but by then its Channel is not configured. *)
Definition retry_without_channel : list event :=
  [Crashes; Called (InternalCall bare_service hello); Runs 0 Silent; Runs 0 Silent; Runs 0 (Clock (Aware 3));
   Runs 0 Silent].

(** A retry of a delivery whose Channel is no longer configured loses it: the
    destination is claimed first, and the lookup of the Channel raises [KeyError]
    outside of the [try] that records an outcome, so that it is left in flight,
    where no later call resumes it. *)
Theorem retry_without_channel_strands_destination :
  ∃ w, rtc (pool_step no_repr error_name later) start_pool w ∧
    ended <$> po_tasks w = [Some (Err KeyError)] ∧
    dd_state <$> stored_at (po_submissions w) hello_key = Some IN_FLIGHT ∧
    events_of hello_key (po_log w) =
      [Begins hello_key; Ends hello_key (Ok (DeliveryExamples.answer RETRYABLE_FAILURE))].
Proof.
  exists (after later (first_attempt RETRYABLE_FAILURE ++ retry_without_channel)).
  split; [apply (after_steps later)|split_and!]; vm_compute; reflexivity.
Qed.
