(* ===== verification/Effects.v ===== *)
(** The action contracts of [gateway/persistence/effects.py] and the outcome
    algebra of [gateway/outcomes.py]: effect receipts, mutation plans and their
    validators, stable references, and the action fingerprints that decide
    whether two calls are the same action. *)

From S2P Require Export StateContracts.
From stdpp Require Import list sorting.
#[local] Open Scope Z_scope.
#[local] Open Scope stdpp_scope.

(** [gateway/persistence/effects.py:36-40] the bounds *)
Definition MAX_ACTION_KIND_LENGTH : Z := 128.
Definition MAX_ACTION_FINGERPRINT_FIELDS : Z := 128.
Definition MAX_ACTION_FINGERPRINT_VALUES : Z := 1024.
Definition MAX_ACTION_FINGERPRINT_PAYLOAD_BYTES : Z := 1048576.

(** [gateway/persistence/effects.py:46-50] EffectCategory *)
Inductive EffectCategory : Type := GATEWAY | NATIVE | REQUEST_RESPONSE | WORKFLOW.
#[export] Instance EffectCategory_eq_dec : EqDecision EffectCategory.
Proof. solve_decision. Defined.

(** [gateway/persistence/effects.py:53-57] EffectPhase *)
Inductive EffectPhase : Type :=
| PH_RESERVED | PH_NATIVE_SIDE_EFFECT_STARTED | PH_NATIVE_RESULT_KNOWN | PH_TERMINAL.
#[export] Instance EffectPhase_eq_dec : EqDecision EffectPhase.
Proof. solve_decision. Defined.

(** [gateway/persistence/effects.py:60-69] ActionErrorCode *)
Inductive ActionErrorCode : Type :=
| AE_CONFLICT | AE_CAPACITY_EXHAUSTED | AE_STALE_RUNTIME | AE_STALE_BINDING | AE_UNSUPPORTED
| AE_NATIVE_REJECTED | AE_NATIVE_OUTCOME_UNKNOWN | AE_STORE_FAILURE | AE_QUEUE_ALREADY_ADMITTED.
#[export] Instance ActionErrorCode_eq_dec : EqDecision ActionErrorCode.
Proof. solve_decision. Defined.

(** [gateway/persistence/effects.py:72-75] ActionError *)
Record ActionError := {
  ae_code : ActionErrorCode;
  ae_operation_error_code : option OperationErrorCode;
}.
#[export] Instance ActionError_eq_dec : EqDecision ActionError.
Proof. solve_decision. Defined.

(** [gateway/outcomes.py:20-45] Outcome *)
Inductive Outcome (T E : Type) : Type :=
| Succeeded (value : T)
| Failed (error : E)
| Partial (value : T) (error : E)
| OutcomeUnknown (error : E).
Arguments Succeeded {T E} value.
Arguments Failed {T E} error.
Arguments Partial {T E} value error.
Arguments OutcomeUnknown {T E} error.
#[export] Instance Outcome_eq_dec {T E} `{EqDecision T, EqDecision E} : EqDecision (Outcome T E).
Proof. solve_decision. Defined.

(** [gateway/persistence/effects.py:78-83] StableReferenceKind *)
Inductive StableReferenceKind : Type :=
| SK_APPLICATION | SK_PROJECT | SK_THREAD | SK_TURN | SK_REQUEST.
#[export] Instance StableReferenceKind_eq_dec : EqDecision StableReferenceKind.
Proof. solve_decision. Defined.

(** [gateway/persistence/effects.py:86-93] StableReference *)
Record StableReference := {
  sf_kind : StableReferenceKind;
  sf_application_instance_id : pystr;
  sf_project_id : option pystr;
  sf_thread_id : option pystr;
  sf_turn_id : option pystr;
  sf_native_request_id : option pystr;
}.
#[export] Instance StableReference_eq_dec : EqDecision StableReference.
Proof. solve_decision. Defined.

(** The five kinds of reference a stable reference stands for. *)
Inductive stable_value : Type :=
| SV_application (a : ApplicationRef)
| SV_project (p : ProjectRef)
| SV_thread (t : ThreadRef)
| SV_turn (t : TurnRef)
| SV_request (r : RequestRef).

(** [gateway/persistence/effects.py:95-129] StableReference.from_value *)
Definition from_value (value : stable_value) : StableReference :=
  match value with
  | SV_application a =>
      Build_StableReference SK_APPLICATION (ar_application_instance_id a) None None None None
  | SV_project p =>
      Build_StableReference SK_PROJECT (pr_application_instance_id p) (Some (pr_project_id p))
        None None None
  | SV_thread t =>
      Build_StableReference SK_THREAD (pr_application_instance_id (th_project_ref t))
        (Some (pr_project_id (th_project_ref t))) (Some (th_thread_id t)) None None
  | SV_turn t =>
      Build_StableReference SK_TURN (pr_application_instance_id (th_project_ref (tn_thread_ref t)))
        (Some (pr_project_id (th_project_ref (tn_thread_ref t))))
        (Some (th_thread_id (tn_thread_ref t))) (Some (tn_turn_id t)) None
  | SV_request r =>
      Build_StableReference SK_REQUEST (ar_application_instance_id (rq_application_ref r))
        None None None (Some (rq_native_request_id r))
  end.

(** [gateway/persistence/effects.py:135-149] StableReference._to_value_unchecked *)
Definition _to_value_unchecked (r : StableReference) : stable_value :=
  let application_ref := {| ar_application_instance_id := sf_application_instance_id r |} in
  let project_ref := {|
    pr_application_instance_id := sf_application_instance_id r;
    pr_project_id := or_empty (sf_project_id r) |} in
  let thread_ref := {|
    th_project_ref := project_ref; th_thread_id := or_empty (sf_thread_id r) |} in
  match sf_kind r with
  | SK_APPLICATION => SV_application application_ref
  | SK_REQUEST => SV_request {|
      rq_application_ref := application_ref;
      rq_native_request_id := or_empty (sf_native_request_id r) |}
  | SK_PROJECT => SV_project project_ref
  | SK_THREAD => SV_thread thread_ref
  | SK_TURN => SV_turn {| tn_thread_ref := thread_ref; tn_turn_id := or_empty (sf_turn_id r) |}
  end.

(** [gateway/persistence/effects.py:332-338] required_by_kind: whether the
    project, thread, turn and request fields must be present. *)
Definition required_by_kind (k : StableReferenceKind) : bool * bool * bool * bool :=
  match k with
  | SK_APPLICATION => (false, false, false, false)
  | SK_PROJECT => (true, false, false, false)
  | SK_THREAD => (true, true, false, false)
  | SK_TURN => (true, true, true, false)
  | SK_REQUEST => (false, false, false, true)
  end.

Definition present {A} (o : option A) : bool := bool_decide (is_Some o).

(** [gateway/persistence/effects.py:324-349] validate_stable_reference *)
Definition validate_stable_reference (reference : StableReference) : res unit :=
  require_identifier (sf_application_instance_id reference) "application_instance_id" ;;
  raise_if ((present (sf_project_id reference), present (sf_thread_id reference),
             present (sf_turn_id reference), present (sf_native_request_id reference))
            ≠ required_by_kind (sf_kind reference))
    (ContractViolation "stable reference fields do not match its kind") ;;
  match _to_value_unchecked reference with
  | SV_application _ => Ok ()
  | SV_project p => validate_project_ref p
  | SV_thread t => validate_thread_ref t
  | SV_turn t => validate_turn_ref t
  | SV_request r => validate_request_ref r
  end.

(** [gateway/persistence/effects.py:131-133] StableReference.to_value *)
Definition to_value (r : StableReference) : res stable_value :=
  validate_stable_reference r ;; Ok (_to_value_unchecked r).

(** [gateway/persistence/effects.py:152-157] EffectValue *)
Record EffectValue := {
  ev_reference : option StableReference;
  ev_conversation_ref : option ConversationRef;
  ev_binding_generation : option Z;
  ev_route_id : option pystr;
}.
#[export] Instance EffectValue_eq_dec : EqDecision EffectValue.
Proof. solve_decision. Defined.

(** [gateway/persistence/effects.py:160-161] ActionOutcome and KnownNativeOutcome *)
Abbreviation ActionOutcome := (Outcome EffectValue ActionError).

Inductive KnownNativeOutcome : Type :=
| KnownSucceeded (value : EffectValue)
| KnownFailed (error : ActionError).
#[export] Instance KnownNativeOutcome_eq_dec : EqDecision KnownNativeOutcome.
Proof. solve_decision. Defined.
Definition known_outcome (o : KnownNativeOutcome) : ActionOutcome :=
  match o with KnownSucceeded v => Succeeded v | KnownFailed e => Failed e end.

(** [gateway/persistence/effects.py:164-170] ActionIdentity *)
Record ActionIdentity := {
  ai_gateway_id : pystr;
  ai_principal_id : pystr;
  ai_action_kind : pystr;
  ai_action_id : pystr;
  ai_conversation_ref : option ConversationRef;
}.

(** [gateway/persistence/effects.py:173-177] ActionFingerprint *)
Record ActionFingerprint := {
  af_action_kind : pystr;
  af_action_key : pystr;
  af_payload_fingerprint : pystr;
}.
#[export] Instance ActionFingerprint_eq_dec : EqDecision ActionFingerprint.
Proof. solve_decision. Defined.

(** [gateway/persistence/effects.py:657-665] _domain_hash: the bytes fed to the
    digest; every value is preceded by its length on eight bytes. *)
Fixpoint domain_values (values : list pystr) : res (list N) :=
  match values with
  | [] => Ok []
  | value :: rest =>
      encoded ← utf8 value ;
      raise_if (2 ^ 64 ≤ len encoded) OverflowError ;;
      tail ← domain_values rest ;
      Ok (be_bytes 8 (N.of_nat (length encoded)) ++ encoded ++ tail)
  end.

Definition domain_message (domain : string) (values : list pystr) : res (list N) :=
  body ← domain_values values ;
  Ok (py domain ++ [0%N] ++ body).

(** [gateway/persistence/effects.py:657-665] _domain_hash *)
Definition _domain_hash (domain : string) (values : list pystr) : res pystr :=
  message ← domain_message domain values ;
  Ok (sha256_hex message).

(** [gateway/persistence/effects.py:179-182] ActionFingerprint.phase_id *)
Definition phase_id (fingerprint : ActionFingerprint) (phase : pystr) : res pystr :=
  require_identifier phase "phase" ;;
  digest ← _domain_hash "imagent:v1:action-phase" [af_action_key fingerprint; phase] ;
  Ok (py "imagent:v1:phase:" ++ digest).

(** [gateway/persistence/effects.py:185-190] BindingTarget *)
Record BindingTarget := {
  bt_conversation_ref : ConversationRef;
  bt_application_ref : option ApplicationRef;
  bt_project_ref : option ProjectRef;
  bt_thread_ref : option ThreadRef;
}.
#[export] Instance BindingTarget_eq_dec : EqDecision BindingTarget.
Proof. solve_decision. Defined.

(** [gateway/persistence/effects.py:193-196] BindingClearScope *)
Inductive BindingClearScope : Type := CLEAR_THREAD | CLEAR_PROJECT | CLEAR_APPLICATION.
#[export] Instance BindingClearScope_eq_dec : EqDecision BindingClearScope.
Proof. solve_decision. Defined.

(** [gateway/persistence/effects.py:199-200] RouteDeleteCondition *)
Inductive RouteDeleteCondition : Type := UNLESS_BOUND_TO_ROUTE_THREAD.
#[export] Instance RouteDeleteCondition_eq_dec : EqDecision RouteDeleteCondition.
Proof. solve_decision. Defined.

(** [gateway/persistence/effects.py:203-211] StoreMutationPlan *)
Record StoreMutationPlan := {
  mp_conversation_ref : ConversationRef;
  mp_binding_target : option BindingTarget;
  mp_binding_clear : option BindingClearScope;
  mp_route_upsert : option ThreadProjectionRoute;
  mp_route_delete_id : option pystr;
  mp_route_delete_condition : option RouteDeleteCondition;
  mp_expected_generation : option Z;
}.

(** [gateway/persistence/effects.py:214-217] StoreMutationRequest *)
Record StoreMutationRequest := {
  sm_fingerprint : ActionFingerprint;
  sm_plan : StoreMutationPlan;
}.

(** [gateway/persistence/effects.py:220-223] NativeMutationRequest *)
Record NativeMutationRequest := {
  nm_fingerprint : ActionFingerprint;
  nm_category : EffectCategory;
}.

(** [gateway/persistence/effects.py:226-228] CreateBindingWorkflowKind *)
Inductive CreateBindingWorkflowKind : Type := CREATE_AND_SELECT_PROJECT | CREATE_AND_BIND_THREAD.
#[export] Instance CreateBindingWorkflowKind_eq_dec : EqDecision CreateBindingWorkflowKind.
Proof. solve_decision. Defined.

(** [gateway/persistence/effects.py:231-238] CreateBindingWorkflowRequest *)
Record CreateBindingWorkflowRequest := {
  cw_fingerprint : ActionFingerprint;
  cw_conversation_ref : ConversationRef;
  cw_kind : CreateBindingWorkflowKind;
  cw_application_ref : ApplicationRef;
  cw_project_ref : option ProjectRef;
  cw_foreground_route : bool;
}.

(** [gateway/persistence/effects.py:241-253] EffectReceipt *)
Record EffectReceipt := {
  er_gateway_id : pystr;
  er_action_kind : pystr;
  er_action_key : pystr;
  er_payload_fingerprint : pystr;
  er_category : EffectCategory;
  er_phase : EffectPhase;
  er_native_phase_id : option pystr;
  er_binding_generation : option Z;
  er_outcome : option ActionOutcome;
  er_created_at : datetime;
  er_updated_at : datetime;
}.
#[export] Instance EffectReceipt_eq_dec : EqDecision EffectReceipt.
Proof. solve_decision. Defined.

(** [gateway/persistence/effects.py:284-299] validate_action_identity *)
Definition validate_action_identity (identity : ActionIdentity) : res unit :=
  require_identifier (ai_gateway_id identity) "gateway_id" ;;
  require_identifier (ai_principal_id identity) "principal_id" ;;
  require_identifier (ai_action_id identity) "action_id" ;;
  require_identifier (ai_action_kind identity) "action_kind" ;;
  raise_if (MAX_ACTION_KIND_LENGTH < len (ai_action_kind identity))
    (ContractViolation "action_kind is too long") ;;
  when_some (ai_conversation_ref identity) _validate_conversation_ref.

(** [gateway/persistence/effects.py:302-311] validate_action_fingerprint *)
Definition validate_action_fingerprint (fingerprint : ActionFingerprint) : res unit :=
  require_identifier (af_action_kind fingerprint) "action_kind" ;;
  raise_if (MAX_ACTION_KIND_LENGTH < len (af_action_kind fingerprint))
    (ContractViolation "action_kind is too long") ;;
  raise_if (is_sha256_hex (af_action_key fingerprint) = false) (ContractViolation "action_key") ;;
  raise_if (is_sha256_hex (af_payload_fingerprint fingerprint) = false)
    (ContractViolation "payload_fingerprint").

(** [gateway/persistence/effects.py:352-363] validate_effect_value *)
Definition validate_effect_value (value : EffectValue) : res unit :=
  when_some (ev_reference value) validate_stable_reference ;;
  when_some (ev_conversation_ref value) _validate_conversation_ref ;;
  _validate_generation (ev_binding_generation value) "binding_generation" true ;;
  when_some (ev_route_id value) (λ i, require_identifier i "route_id").

(** [gateway/persistence/effects.py:366-383] validate_binding_target *)
Definition validate_binding_target (target : BindingTarget) : res unit :=
  _validate_conversation_ref (bt_conversation_ref target) ;;
  when_some (bt_project_ref target) (λ p,
    validate_project_ref p ;;
    raise_if (application_id_of (bt_application_ref target) ≠ Some (pr_application_instance_id p))
      (ContractViolation "binding target project belongs to another application")) ;;
  when_some (bt_thread_ref target) (λ t,
    validate_thread_ref t ;;
    raise_if (bt_project_ref target ≠ Some (th_project_ref t))
      (ContractViolation "binding target Thread belongs to another Project")).

(** [gateway/persistence/effects.py:386-428] validate_store_mutation_request *)
Definition validate_store_mutation_request (request : StoreMutationRequest) : res unit :=
  validate_action_fingerprint (sm_fingerprint request) ;;
  let plan := sm_plan request in
  _validate_conversation_ref (mp_conversation_ref plan) ;;
  raise_if (mp_binding_target plan = None ∧ mp_binding_clear plan = None
            ∧ mp_route_upsert plan = None ∧ mp_route_delete_id plan = None)
    (ContractViolation "store mutation plan has no mutation") ;;
  raise_if (is_Some (mp_binding_target plan) ∧ is_Some (mp_binding_clear plan))
    (ContractViolation "binding replacement and hierarchical clear are mutually exclusive") ;;
  when_some (mp_binding_target plan) (λ target,
    validate_binding_target target ;;
    raise_if (bt_conversation_ref target ≠ mp_conversation_ref plan)
      (ContractViolation "binding target belongs to another Conversation")) ;;
  when_some (mp_route_upsert plan) (λ route,
    validate_projection_route route ;;
    raise_if (tr_conversation_ref route ≠ mp_conversation_ref plan)
      (ContractViolation "projection route belongs to another Conversation") ;;
    when_some (mp_binding_target plan ≫= bt_thread_ref) (λ t,
      raise_if (tr_thread_ref route ≠ t)
        (ContractViolation "projection route belongs to another bound Thread"))) ;;
  raise_if (is_Some (mp_route_upsert plan) ∧ is_Some (mp_route_delete_id plan))
    (ContractViolation "route upsert and delete are mutually exclusive") ;;
  when_some (mp_route_delete_id plan) (λ i, require_identifier i "route_delete_id") ;;
  raise_if (is_Some (mp_route_delete_condition plan) ∧ mp_route_delete_id plan = None)
    (ContractViolation "route delete condition requires a route deletion") ;;
  _validate_generation (mp_expected_generation plan) "expected_generation" true.

(** [gateway/persistence/effects.py:431-434] validate_native_mutation_request *)
Definition validate_native_mutation_request (request : NativeMutationRequest) : res unit :=
  validate_action_fingerprint (nm_fingerprint request) ;;
  raise_if (nm_category request ∉ [NATIVE; REQUEST_RESPONSE])
    (ContractViolation "native mutation category is invalid").

(** [gateway/persistence/effects.py:437-460] validate_create_binding_workflow_request *)
Definition validate_create_binding_workflow_request (request : CreateBindingWorkflowRequest)
    : res unit :=
  validate_action_fingerprint (cw_fingerprint request) ;;
  _validate_conversation_ref (cw_conversation_ref request) ;;
  require_identifier (ar_application_instance_id (cw_application_ref request))
    "application_instance_id" ;;
  match cw_kind request with
  | CREATE_AND_SELECT_PROJECT =>
      raise_if (is_Some (cw_project_ref request))
        (ContractViolation "create-and-select Project has no parent Project")
  | CREATE_AND_BIND_THREAD =>
      match cw_project_ref request with
      | None => mraise (ContractViolation "create-and-bind Thread requires a Project")
      | Some p =>
          validate_project_ref p ;;
          raise_if (pr_application_instance_id p
                    ≠ ar_application_instance_id (cw_application_ref request))
            (ContractViolation "workflow Project belongs to another Application")
      end
  end.

(** [isinstance(outcome, Succeeded)] and the like. *)
Definition is_succeeded (o : option ActionOutcome) : bool :=
  match o with Some (Succeeded _) => true | _ => false end.
Definition is_failed (o : option ActionOutcome) : bool :=
  match o with Some (Failed _) => true | _ => false end.
Definition is_partial (o : option ActionOutcome) : bool :=
  match o with Some (Partial _ _) => true | _ => false end.
Definition is_unknown (o : option ActionOutcome) : bool :=
  match o with Some (OutcomeUnknown _) => true | _ => false end.

(** The effect value of an outcome that carries one. *)
Definition outcome_value (o : ActionOutcome) : option EffectValue :=
  match o with Succeeded v | Partial v _ => Some v | _ => None end.

(** [gateway/persistence/effects.py:463-529] validate_effect_receipt *)
Definition validate_effect_receipt (r : EffectReceipt) : res unit :=
  require_identifier (er_gateway_id r) "gateway_id" ;;
  validate_action_fingerprint {|
    af_action_kind := er_action_kind r;
    af_action_key := er_action_key r;
    af_payload_fingerprint := er_payload_fingerprint r |} ;;
  when_some (er_native_phase_id r) (λ i, require_identifier i "native_phase_id") ;;
  _validate_generation (er_binding_generation r) "receipt binding generation" true ;;
  raise_if (tz_is_none (er_created_at r) ∨ tz_is_none (er_updated_at r))
    (ContractViolation "receipt timestamps must include a timezone") ;;
  raise_if_lt (er_updated_at r) (er_created_at r)
    (ContractViolation "receipt update precedes creation") ;;
  (if decide (er_category r = GATEWAY) then
     raise_if (er_phase r ≠ PH_TERMINAL ∨ is_Some (er_native_phase_id r)
               ∨ er_outcome r = None ∨ is_Some (er_binding_generation r))
       (ContractViolation "Gateway receipt fields are inconsistent")
   else
     raise_if (er_native_phase_id r = None)
       (ContractViolation "native/workflow receipt requires a stable phase ID")) ;;
  raise_if (er_category r ≠ WORKFLOW ∧ is_Some (er_binding_generation r))
    (ContractViolation "only a workflow receipt may retain a binding generation") ;;
  raise_if (er_phase r = PH_RESERVED ∧ is_Some (er_outcome r))
    (ContractViolation "reserved receipt cannot have an outcome") ;;
  raise_if (er_phase r = PH_NATIVE_SIDE_EFFECT_STARTED ∧ is_Some (er_outcome r)
            ∧ is_unknown (er_outcome r) = false)
    (ContractViolation "started native receipt may retain only unknown outcome") ;;
  raise_if (er_phase r = PH_NATIVE_RESULT_KNOWN
            ∧ (er_category r ≠ WORKFLOW ∨ is_succeeded (er_outcome r) = false))
    (ContractViolation "known native result is valid only for a workflow success") ;;
  raise_if (er_phase r = PH_TERMINAL ∧ er_outcome r = None)
    (ContractViolation "terminal receipt requires an outcome") ;;
  when_some (er_outcome r ≫= outcome_value) validate_effect_value ;;
  raise_if (er_category r = GATEWAY
            ∧ (is_succeeded (er_outcome r) || is_failed (er_outcome r)) = false)
    (ContractViolation "Gateway receipt outcome is invalid") ;;
  raise_if (er_category r ∈ [NATIVE; REQUEST_RESPONSE] ∧ er_phase r = PH_TERMINAL
            ∧ (is_succeeded (er_outcome r) || is_failed (er_outcome r)) = false)
    (ContractViolation "primitive native terminal outcome is invalid") ;;
  raise_if (er_category r = WORKFLOW ∧ er_phase r = PH_TERMINAL
            ∧ (is_succeeded (er_outcome r) || is_failed (er_outcome r)
               || is_partial (er_outcome r)) = false)
    (ContractViolation "workflow terminal outcome is invalid").

(** What the validation of a receipt checks, one conjunct per statement. *)
Lemma validate_effect_receipt_ok r :
  validate_effect_receipt r = Ok () ↔
  identifier (er_gateway_id r) ∧
  validate_action_fingerprint {|
    af_action_kind := er_action_kind r;
    af_action_key := er_action_key r;
    af_payload_fingerprint := er_payload_fingerprint r |} = Ok () ∧
  (∀ i, er_native_phase_id r = Some i → identifier i) ∧
  _validate_generation (er_binding_generation r) "receipt binding generation" true = Ok () ∧
  ¬ (tz_is_none (er_created_at r) ∨ tz_is_none (er_updated_at r)) ∧
  raise_if_lt (er_updated_at r) (er_created_at r)
    (ContractViolation "receipt update precedes creation") = Ok () ∧
  (if decide (er_category r = GATEWAY) then
     ¬ (er_phase r ≠ PH_TERMINAL ∨ is_Some (er_native_phase_id r)
        ∨ er_outcome r = None ∨ is_Some (er_binding_generation r))
   else er_native_phase_id r ≠ None) ∧
  ¬ (er_category r ≠ WORKFLOW ∧ is_Some (er_binding_generation r)) ∧
  ¬ (er_phase r = PH_RESERVED ∧ is_Some (er_outcome r)) ∧
  ¬ (er_phase r = PH_NATIVE_SIDE_EFFECT_STARTED ∧ is_Some (er_outcome r)
     ∧ is_unknown (er_outcome r) = false) ∧
  ¬ (er_phase r = PH_NATIVE_RESULT_KNOWN
     ∧ (er_category r ≠ WORKFLOW ∨ is_succeeded (er_outcome r) = false)) ∧
  ¬ (er_phase r = PH_TERMINAL ∧ er_outcome r = None) ∧
  (∀ v, er_outcome r ≫= outcome_value = Some v → validate_effect_value v = Ok ()) ∧
  ¬ (er_category r = GATEWAY
     ∧ (is_succeeded (er_outcome r) || is_failed (er_outcome r)) = false) ∧
  ¬ (er_category r ∈ [NATIVE; REQUEST_RESPONSE] ∧ er_phase r = PH_TERMINAL
     ∧ (is_succeeded (er_outcome r) || is_failed (er_outcome r)) = false) ∧
  ¬ (er_category r = WORKFLOW ∧ er_phase r = PH_TERMINAL
     ∧ (is_succeeded (er_outcome r) || is_failed (er_outcome r)
        || is_partial (er_outcome r)) = false).
Proof.
  unfold validate_effect_receipt.
  do 6 (rewrite then_ok; apply and_iff;
    [first [apply require_identifier_ok | apply raise_if_ok | done | rewrite when_some_ok;
       setoid_rewrite require_identifier_ok; done]|]).
  do 9 (rewrite then_ok; apply and_iff;
    [first [apply raise_if_ok | apply when_some_ok | by case_decide; apply raise_if_ok]|]).
  apply raise_if_ok.
Qed.

(** * Action fingerprints *)

(** [gateway/persistence/effects.py:42-43] FingerprintValue and
    FingerprintPayload: a tuple is a JSON array, the other values are scalars. *)
Abbreviation FingerprintPayload := (list (pystr * json)).

(** [gateway/persistence/effects.py:619-654] _validate_fingerprint_value, with
    the remaining budget passed on. *)
Fixpoint _validate_fingerprint_value (value : json) (depth remaining : Z) : res Z :=
  raise_if (16 < depth)
    (ContractViolation "action fingerprint payload is too deeply nested") ;;
  let remaining := remaining - 1 in
  raise_if (remaining < 0) (ContractViolation "action fingerprint payload has too many values") ;;
  match value with
  | JBool _ | JNull => Ok remaining
  | JStr s =>
      raise_if (MAX_ACTION_FINGERPRINT_PAYLOAD_BYTES < len s)
        (ContractViolation "action fingerprint string is too large") ;;
      match utf8 s with
      | Err _ => Err (ContractViolation "action fingerprint string must be valid UTF-8")
      | Ok encoded =>
          raise_if (MAX_ACTION_FINGERPRINT_PAYLOAD_BYTES < len encoded)
            (ContractViolation "action fingerprint string is too large") ;;
          Ok remaining
      end
  | JInt z =>
      raise_if (z < - 2 ^ 63 ∨ 2 ^ 63 - 1 < z)
        (ContractViolation "action fingerprint integer must be signed 64-bit") ;;
      Ok remaining
  | JArr items =>
      (fix go (items : list json) (remaining : Z) : res Z :=
         match items with
         | [] => Ok remaining
         | item :: items' =>
             r ← _validate_fingerprint_value item (depth + 1) remaining ; go items' r
         end) items remaining
  end.

(** The loop of [_canonical_payload] over the fields, with the names seen. *)
Fixpoint validate_fingerprint_fields (names : list pystr) (remaining : Z)
    (payload : FingerprintPayload) : res unit :=
  match payload with
  | [] => Ok ()
  | (name, value) :: payload' =>
      require_identifier name "fingerprint field name" ;;
      raise_if (name ∈ names)
        (ContractViolation "action fingerprint field names must be unique") ;;
      r ← _validate_fingerprint_value value 0 remaining ;
      validate_fingerprint_fields (name :: names) r payload'
  end.

(** The order [sorted] puts the fields in: the names differ, so they decide. *)
Definition field_le (a b : pystr * json) : Prop := str_le a.1 b.1 = true.
#[export] Instance field_le_dec a b : Decision (field_le a b).
Proof. unfold field_le. apply _. Defined.

Definition fields_document (payload : FingerprintPayload) : json :=
  JArr ((λ nv, JArr [JStr nv.1; nv.2]) <$> payload).

(** [gateway/persistence/effects.py:600-616] _canonical_payload *)
Definition _canonical_payload (payload : FingerprintPayload) : res pystr :=
  raise_if (MAX_ACTION_FINGERPRINT_FIELDS < len payload)
    (ContractViolation "action fingerprint has too many fields") ;;
  validate_fingerprint_fields [] MAX_ACTION_FINGERPRINT_VALUES payload ;;
  let encoded := dumps (fields_document (merge_sort field_le payload)) in
  bytes ← utf8 encoded ;
  raise_if (MAX_ACTION_FINGERPRINT_PAYLOAD_BYTES < len bytes)
    (ContractViolation "action fingerprint payload is too large") ;;
  Ok encoded.

(** [gateway/persistence/effects.py:262-273] namespace_values *)
Definition namespace_values (identity : ActionIdentity) : list pystr := [
  ai_gateway_id identity;
  ai_principal_id identity;
  from_option cv_channel_instance_id [] (ai_conversation_ref identity);
  from_option cv_native_conversation_id [] (ai_conversation_ref identity);
  ai_action_kind identity;
  ai_action_id identity].

(** [gateway/persistence/effects.py:256-281] derive_action_fingerprint *)
Definition derive_action_fingerprint (identity : ActionIdentity) (payload : FingerprintPayload)
    : res ActionFingerprint :=
  validate_action_identity identity ;;
  canonical_payload ← _canonical_payload payload ;
  action_key ← _domain_hash "imagent:v1:action-identity" (namespace_values identity) ;
  payload_fingerprint ← _domain_hash "imagent:v1:action-payload"
    [ai_action_kind identity; canonical_payload] ;
  Ok {|
    af_action_kind := ai_action_kind identity;
    af_action_key := action_key;
    af_payload_fingerprint := payload_fingerprint;
  |}.

(** * Properties of the contracts *)

(** A stable reference that validates names exactly one value. *)
Lemma from_to_value_unchecked r u :
  validate_stable_reference r = Ok u → from_value (_to_value_unchecked r) = r.
Proof.
  unfold validate_stable_reference. rewrite !seq_ok. intros (_ & Hp & _).
  apply raise_if_ok, dec_stable in Hp. destruct r as [[] app [p|] [t|] [tu|] [rq|]];
    cbn in Hp; try discriminate Hp; done.
Qed.

Lemma to_from_value v : _to_value_unchecked (from_value v) = v.
Proof. by destruct v as [[]|[]|[[]]|[[[]]]|[[]]]. Qed.

(** The validity of a value a stable reference can stand for. *)
Definition stable_value_valid (v : stable_value) : res unit :=
  match v with
  | SV_application a => require_identifier (ar_application_instance_id a) "application_instance_id"
  | SV_project p => validate_project_ref p
  | SV_thread t => validate_thread_ref t
  | SV_turn t => validate_turn_ref t
  | SV_request r => validate_request_ref r
  end.

Lemma validate_from_value v :
  validate_stable_reference (from_value v) = Ok () ↔ stable_value_valid v = Ok ().
Proof.
  unfold validate_stable_reference. rewrite to_from_value.
  destruct v as [a|p|[]|[[]]|r]; cbn; rewrite !seq_ok;
    unfold validate_turn_ref, validate_thread_ref, validate_project_ref, validate_request_ref;
    rewrite ?seq_ok; split; intros; destruct_and?; split_and?; done.
Qed.

Lemma to_value_from_value v w :
  to_value (from_value v) = Ok w ↔ w = v ∧ stable_value_valid v = Ok ().
Proof.
  unfold to_value. rewrite res_bind_ok, to_from_value. split.
  - intros ([] & H & [= <-]). split; [done|by apply validate_from_value].
  - intros [-> H]. exists (). split; [by apply validate_from_value|done].
Qed.

(** Stable references lose nothing: the reference made from a value
    converts back exactly to it, and exactly when the value is valid; and a
    reference that converts to a value is the one made from it. *)
Theorem stable_reference_round_trip v w r x :
  (to_value (from_value v) = Ok w ↔ w = v ∧ stable_value_valid v = Ok ()) ∧
  (to_value r = Ok x → from_value x = r).
Proof.
  split; [apply to_value_from_value|]. unfold to_value. rewrite res_bind_ok.
  intros (u & H & [= <-]). by eapply from_to_value_unchecked.
Qed.

(** ** Equal fingerprints, equal actions *)

Lemma be_bytes_inj k n m :
  (n < 256 ^ N.of_nat k)%N → (m < 256 ^ N.of_nat k)%N → be_bytes k n = be_bytes k m → n = m.
Proof.
  revert n m. induction k as [|k IH]; intros n m Hn Hm; cbn [be_bytes].
  - cbn in *. lia.
  - rewrite Nat2N.inj_succ, N.pow_succ_r' in Hn, Hm. intros H.
    apply app_inj_tail in H as [H [= Hmod]].
    apply IH in H; [|apply N.Div0.div_lt_upper_bound; lia|apply N.Div0.div_lt_upper_bound; lia].
    rewrite (N.div_mod' n 256), (N.div_mod' m 256). by rewrite H, Hmod.
Qed.

Lemma domain_values_inj vs vs' b :
  domain_values vs = Ok b → domain_values vs' = Ok b → vs = vs'.
Proof.
  revert vs' b. induction vs as [|v vs IH]; intros [|v' vs'] b; cbn [domain_values]; [done|..].
  - intros [= <-] H. inv_ok. discriminate.
  - intros H [= <-]. inv_ok. discriminate.
  - rewrite !res_bind_ok. intros (e & He & H) (e' & He' & H').
    apply res_bind_ok in H as ([] & Hl%raise_if_ok & H), H' as ([] & Hl'%raise_if_ok & H').
    apply res_bind_ok in H as (t & Ht & <-%(inj Ok)), H' as (t' & Ht' & Heq%(inj Ok)).
    apply app_inj_1 in Heq as [Hlen Heq]; [|by rewrite !length_be_bytes].
    apply be_bytes_inj in Hlen; [|unfold len in *; cbn; lia|unfold len in *; cbn; lia].
    apply app_inj_1 in Heq as [-> ->]; [|lia]. f_equal; [by apply (utf8_inj _ _ e)|by apply (IH _ t)].
Qed.

Lemma domain_message_inj d vs vs' m :
  domain_message d vs = Ok m → domain_message d vs' = Ok m → vs = vs'.
Proof.
  unfold domain_message. rewrite !res_bind_ok.
  intros (b & Hb & <-%(inj Ok)) (b' & Hb' & Heq%(inj Ok)). apply app_inv_head in Heq.
  apply (app_inv_head [0%N]) in Heq as ->. by eapply domain_values_inj.
Qed.

(** How many values a payload value is made of, how deep it nests, and whether
    its scalars are within bounds. *)
Fixpoint fp_count (v : json) : Z :=
  match v with JArr items => 1 + foldr (λ x n, fp_count x + n) 0 items | _ => 1 end.
Fixpoint fp_depth (v : json) : Z :=
  match v with JArr items => foldr (λ x n, (1 + fp_depth x) `max` n) 0 items | _ => 0 end.
Fixpoint fp_scalars_ok (v : json) : Prop :=
  match v with
  | JArr items => foldr (λ x P, fp_scalars_ok x ∧ P) True items
  | JStr s => len s ≤ MAX_ACTION_FINGERPRINT_PAYLOAD_BYTES ∧
      ∃ b, utf8 s = Ok b ∧ len b ≤ MAX_ACTION_FINGERPRINT_PAYLOAD_BYTES
  | JInt z => - 2 ^ 63 ≤ z ≤ 2 ^ 63 - 1
  | _ => True
  end.

Lemma fp_count_pos v : 1 ≤ fp_count v.
Proof.
  induction v as [| | | |items IH] using json_ind'; cbn [fp_count]; try lia.
  induction IH; cbn [foldr]; lia.
Qed.

Lemma fp_depth_nonneg v : 0 ≤ fp_depth v.
Proof. destruct v as [| | | |items]; cbn [fp_depth]; try lia. induction items; cbn [foldr]; lia. Qed.

(** The validation accepts exactly the values within the bounds, and takes
    from the budget the number of values they are made of. *)
Definition fp_accepts (v : json) (depth rem r : Z) : Prop :=
  depth + fp_depth v ≤ 16 ∧ fp_scalars_ok v ∧ fp_count v ≤ rem ∧ r = rem - fp_count v.

Lemma validate_scalar_ok (m : Z → res Z) (P : Prop) depth rem r :
  (∀ x, m (rem - 1) = Ok x ↔ P ∧ x = rem - 1) →
  ((raise_if (16 < depth)
      (ContractViolation "action fingerprint payload is too deeply nested") ;;
    raise_if (rem - 1 < 0) (ContractViolation "action fingerprint payload has too many values") ;;
    m (rem - 1)) = Ok r ↔ depth ≤ 16 ∧ P ∧ 1 ≤ rem ∧ r = rem - 1).
Proof.
  intros Hm. rewrite res_bind_ok. setoid_rewrite raise_if_ok. setoid_rewrite res_bind_ok.
  setoid_rewrite raise_if_ok. split.
  - intros (_ & ? & _ & ? & [? ->]%Hm). split_and!; try done; lia.
  - intros (? & ? & ? & ->). exists (). split; [lia|]. exists (). split; [lia|]. by apply Hm.
Qed.

Definition check_string (s : pystr) (rem : Z) : res Z :=
  raise_if (MAX_ACTION_FINGERPRINT_PAYLOAD_BYTES < len s)
    (ContractViolation "action fingerprint string is too large") ;;
  match utf8 s with
  | Err _ => Err (ContractViolation "action fingerprint string must be valid UTF-8")
  | Ok encoded =>
      raise_if (MAX_ACTION_FINGERPRINT_PAYLOAD_BYTES < len encoded)
        (ContractViolation "action fingerprint string is too large") ;;
      Ok rem
  end.

Lemma validate_string_ok s rem x :
  check_string s rem = Ok x ↔ fp_scalars_ok (JStr s) ∧ x = rem.
Proof.
  unfold check_string. cbn [fp_scalars_ok]. rewrite res_bind_ok. setoid_rewrite raise_if_ok.
  destruct (utf8 s) as [b|e].
  - setoid_rewrite res_bind_ok. setoid_rewrite raise_if_ok. split.
    + intros ([] & ? & [] & ? & <-%(inj Ok)). split_and!; [lia| |done]. exists b. split; [done|lia].
    + intros [(? & b' & <-%(inj Ok) & ?) ->]. exists (). split; [lia|]. exists (). split; [lia|done].
  - split; [by intros (_ & _ & ?)|]. by intros [(_ & b & ? & _) _].
Qed.

Lemma validate_fingerprint_value_ok v depth rem r :
  _validate_fingerprint_value v depth rem = Ok r ↔ fp_accepts v depth rem r.
Proof.
  unfold fp_accepts. revert depth rem r.
  induction v as [|b|z|s|items IH] using json_ind'; intros depth rem r;
    cbn [_validate_fingerprint_value fp_depth fp_count]; cbv zeta;
    rewrite ?Z.add_0_r.
  - apply (validate_scalar_ok (λ r, Ok r)). cbn. split; [by intros ->%(inj Ok)|by intros [_ ->]].
  - apply (validate_scalar_ok (λ r, Ok r)). cbn. split; [by intros ->%(inj Ok)|by intros [_ ->]].
  - apply (validate_scalar_ok (λ rem, raise_if _ _ ;; Ok rem)). intros x. rewrite res_bind_ok.
    setoid_rewrite raise_if_ok. cbn [fp_scalars_ok]. split.
    + intros ([] & ? & <-%(inj Ok)). split; [lia|done].
    + intros [? ->]. exists (). split; [lia|done].
  - apply (validate_scalar_ok (check_string s)). intros x. apply validate_string_ok.
  - rewrite res_bind_ok. setoid_rewrite raise_if_ok. setoid_rewrite res_bind_ok.
    setoid_rewrite raise_if_ok. cbn [fp_scalars_ok].
    set (go := fix go (items : list json) (remaining : Z) : res Z := _).
    assert (∀ rem, 0 ≤ rem → depth ≤ 16 → go items rem = Ok r ↔
      depth + foldr (λ x n, (1 + fp_depth x) `max` n) 0 items ≤ 16 ∧
      foldr (λ x P, fp_scalars_ok x ∧ P) True items ∧
      foldr (λ x n, fp_count x + n) 0 items ≤ rem ∧
      r = rem - foldr (λ x n, fp_count x + n) 0 items) as Hgo.
    { clear rem. induction IH as [|v items Hv _ IHitems]; intros rem Hrem Hdepth; cbn [go foldr].
      - split; [intros <-%(inj Ok)|intros (_ & _ & _ & ->)]; [split_and!; try done; lia|f_equal; lia].
      - rewrite res_bind_ok. setoid_rewrite Hv. pose proof (fp_count_pos v). split.
        + intros (r1 & (? & ? & ? & ->) & Hr1). apply IHitems in Hr1 as (? & ? & ? & ->); [|lia|lia].
          split_and!; try done; lia.
        + intros (? & [? ?] & ? & ->). exists (rem - fp_count v).
          assert (0 ≤ foldr (λ x n, fp_count x + n) 0 items).
          { clear. induction items as [|x l IH]; cbn [foldr]; [lia|]. pose proof (fp_count_pos x). lia. }
          split; [split_and!; try done; lia|]. apply IHitems; [lia|lia|]. split_and!; try done; lia. }
    assert (0 ≤ foldr (λ x n, (1 + fp_depth x) `max` n) 0 items) by apply (fp_depth_nonneg (JArr items)).
    assert (0 ≤ foldr (λ x n, fp_count x + n) 0 items) by (pose proof (fp_count_pos (JArr items)); cbn [fp_count] in *; lia).
    split.
    + intros ([] & ? & [] & ? & (?&?&?&->)%Hgo); [|lia|lia]. split_and!; try done; lia.
    + intros (? & ? & ? & ->). exists (). split; [lia|]. exists (). split; [lia|].
      apply Hgo; [lia|lia|]. split_and!; try done; lia.
Qed.

Definition field_ok (nv : pystr * json) : Prop :=
  identifier nv.1 ∧ fp_depth nv.2 ≤ 16 ∧ fp_scalars_ok nv.2.

Definition payload_count (payload : FingerprintPayload) : Z :=
  foldr (λ nv n, fp_count nv.2 + n) 0 payload.

Lemma payload_count_nonneg p : 0 ≤ payload_count p.
Proof. induction p as [|[n v] p IH]; cbn; [lia|]. pose proof (fp_count_pos v). unfold payload_count in IH. lia. Qed.

(** The loop accepts fields that are valid one by one, have distinct names and
    fit the budget together. *)
Lemma validate_fingerprint_fields_ok names rem payload u :
  0 ≤ rem →
  validate_fingerprint_fields names rem payload = Ok u ↔
  Forall field_ok payload ∧ NoDup payload.*1 ∧ (∀ n, n ∈ payload.*1 → n ∉ names) ∧
  payload_count payload ≤ rem.
Proof.
  destruct u. revert names rem. induction payload as [|[n v] p IH]; intros names rem Hrem;
    cbn [validate_fingerprint_fields].
  - split; [intros _|done]. split_and!; [constructor|constructor|set_solver|done].
  - rewrite !fmap_cons, Forall_cons, NoDup_cons. unfold payload_count; cbn [foldr fst snd].
    fold (payload_count p). pose proof (fp_count_pos v). pose proof (payload_count_nonneg p).
    setoid_rewrite elem_of_cons. rewrite seq_ok, require_identifier_ok, seq_ok, raise_if_ok, res_bind_ok.
    setoid_rewrite validate_fingerprint_value_ok. unfold field_ok; cbn [fst snd]. split.
    + intros (Hn & Hin & r & (Hd & Hs & Hle & ->) & Hp). apply IH in Hp as (Hf & Hnd & Hdis & Hc); [|lia].
      split_and!; try done; [| |lia].
      * intros Hx. apply (Hdis n Hx). set_solver.
      * intros m [->|Hm] Hin'; [done|]. apply (Hdis m Hm). set_solver.
    + intros ([(Hn & Hd & Hs) Hf] & [Hnp Hnd] & Hdis & Hc). split_and!; [done|by apply Hdis; left|].
      exists (rem - fp_count v). split; [split_and!; try done; lia|].
      apply IH; [lia|]. split_and!; [done|done| |lia].
      intros m Hm [->|Hin]%elem_of_cons; [done|]. apply (Hdis m); [by right|done].
Qed.

Lemma payload_count_perm p p' : p ≡ₚ p' → payload_count p = payload_count p'.
Proof. unfold payload_count. induction 1; cbn [foldr]; lia. Qed.

Lemma validate_fingerprint_fields_perm p p' rem :
  p ≡ₚ p' → 0 ≤ rem →
  validate_fingerprint_fields [] rem p = Ok () → validate_fingerprint_fields [] rem p' = Ok ().
Proof.
  intros Hp Hrem. rewrite !validate_fingerprint_fields_ok by done.
  rewrite (payload_count_perm _ _ Hp). intros (Hf & Hn & _ & Hc). split_and!; try done.
  - by rewrite <- Hp.
  - by rewrite <- Hp.
  - set_solver.
Qed.

(** ** Sorting by name *)

#[export] Instance field_le_total : Total field_le.
Proof. intros a b. apply str_le_total. Qed.
#[export] Instance field_le_trans : Transitive field_le.
Proof. intros a b c. apply str_le_trans. Qed.

Lemma sorted_fields_unique p p' :
  NoDup p.*1 → p ≡ₚ p' → merge_sort field_le p = merge_sort field_le p'.
Proof.
  intros Hn Hp. apply (StronglySorted_unique_strong field_le).
  - intros [n v] [n' v'] Hx Hy H1 H2. rewrite !merge_sort_Permutation in Hx, Hy.
    rewrite <- Hp in Hy. pose proof (str_le_antisym _ _ H1 H2) as Heq. cbn in Heq. subst n'.
    apply (d_elem_get p) in Hx, Hy; [congruence|done|done].
  - apply (StronglySorted_merge_sort _).
  - apply (StronglySorted_merge_sort _).
  - by rewrite !merge_sort_Permutation.
Qed.

(** ** The canonical payload and the fingerprint *)

Lemma canonical_payload_ok p e :
  _canonical_payload p = Ok e →
  validate_fingerprint_fields [] MAX_ACTION_FINGERPRINT_VALUES p = Ok () ∧
  e = dumps (fields_document (merge_sort field_le p)).
Proof. unfold _canonical_payload. intros H. inv_ok. by subst. Qed.

Lemma canonical_payload_names p e : _canonical_payload p = Ok e → NoDup p.*1.
Proof.
  intros [H _]%canonical_payload_ok.
  apply validate_fingerprint_fields_ok in H as (_ & ? & _); done.
Qed.

Lemma fields_document_inj p p' : fields_document p = fields_document p' → p = p'.
Proof.
  unfold fields_document. intros H. injection H as H. revert p' H.
  induction p as [|[n v] p IH]; intros [|[n' v'] p']; cbn; try done. intros H.
  injection H as -> -> H. f_equal. by apply IH.
Qed.

Lemma canonical_payload_perm p p' e :
  p ≡ₚ p' → _canonical_payload p = Ok e → _canonical_payload p' = Ok e.
Proof.
  intros Hp H. pose proof (canonical_payload_names _ _ H) as Hn. revert H.
  unfold _canonical_payload. rewrite (sorted_fields_unique _ _ Hn Hp). unfold len.
  rewrite (Permutation_length Hp).
  intros ([] & Hl & ([] & Hv & He)%res_bind_ok)%res_bind_ok.
  apply res_bind_ok. exists (). split; [done|]. apply res_bind_ok. exists (). split; [|done].
  by apply (validate_fingerprint_fields_perm p).
Qed.

Lemma canonical_payload_inj p p' e :
  _canonical_payload p = Ok e → _canonical_payload p' = Ok e → p ≡ₚ p'.
Proof.
  intros [_ ->]%canonical_payload_ok [_ H]%canonical_payload_ok.
  apply dumps_inj, fields_document_inj in H.
  by rewrite <- (merge_sort_Permutation field_le p), H, merge_sort_Permutation.
Qed.

(** The bytes behind the two digests of a fingerprint. *)
Definition action_key_message (i : ActionIdentity) : res (list N) :=
  domain_message "imagent:v1:action-identity" (namespace_values i).
Definition payload_message (i : ActionIdentity) (p : FingerprintPayload) : res (list N) :=
  canonical_payload ← _canonical_payload p ;
  domain_message "imagent:v1:action-payload" [ai_action_kind i; canonical_payload].

Definition messages_collide (m m' : res (list N)) : Prop :=
  ∃ a b, m = Ok a ∧ m' = Ok b ∧ a ≠ b ∧ sha256_hex a = sha256_hex b.

Lemma derive_action_fingerprint_ok i p f :
  derive_action_fingerprint i p = Ok f →
  validate_action_identity i = Ok () ∧ af_action_kind f = ai_action_kind i ∧
  (∃ a, action_key_message i = Ok a ∧ af_action_key f = sha256_hex a) ∧
  ∃ b, payload_message i p = Ok b ∧ af_payload_fingerprint f = sha256_hex b.
Proof.
  unfold derive_action_fingerprint, _domain_hash, action_key_message, payload_message.
  intros H. apply res_bind_ok in H as ([] & Hv & H). apply res_bind_ok in H as (c & Hc & H).
  apply res_bind_ok in H as (k & Hk & H). apply res_bind_ok in H as (pf & Hpf & <-%(inj Ok)).
  apply res_bind_ok in Hk as (a & Ha & <-%(inj Ok)), Hpf as (b & Hb & <-%(inj Ok)).
  rewrite Hc. split_and!; [done|done|by exists a|by exists b].
Qed.

Lemma namespace_values_inj i j :
  validate_action_identity i = Ok () → validate_action_identity j = Ok () →
  namespace_values i = namespace_values j → i = j.
Proof.
  unfold validate_action_identity, namespace_values, _validate_conversation_ref.
  rewrite !seq_ok. intros Hi Hj H. destruct_and!.
  destruct i as [g p k a [[c1 c2]|]], j as [g' p' k' a' [[d1 d2]|]]; cbn in *; simplify_eq;
    rewrite ?seq_ok in *; destruct_and?;
    repeat match goal with H : require_identifier [] _ = _ |- _ =>
      apply require_identifier_ok in H as [? _] end; done.
Qed.

(** C38. An action fingerprint identifies the action: two calls get the same
    action key only for the same identity, and the same payload fingerprint
    only for the same kind and the same fields up to order, unless the two
    hashed messages are a SHA-256 collision; and the order in which the fields
    are given never matters. *)
Theorem fingerprint_identifies_action i i' p p' f f' :
  derive_action_fingerprint i p = Ok f → derive_action_fingerprint i' p' = Ok f' →
  (af_action_key f = af_action_key f' →
    i = i' ∨ messages_collide (action_key_message i) (action_key_message i')) ∧
  (af_payload_fingerprint f = af_payload_fingerprint f' →
    ai_action_kind i = ai_action_kind i' ∧ p ≡ₚ p'
    ∨ messages_collide (payload_message i p) (payload_message i' p')) ∧
  (∀ q, p ≡ₚ q → derive_action_fingerprint i q = Ok f).
Proof.
  intros H H'. apply derive_action_fingerprint_ok in H' as (Hv' & _ & (a' & Ha' & Hk') & (b' & Hb' & Hp')).
  pose proof H as Hf. apply derive_action_fingerprint_ok in H as (Hv & _ & (a & Ha & Hk) & (b & Hb & Hp)).
  split_and!.
  - rewrite Hk, Hk'. intros Heq. destruct (decide (a = a')) as [<-|Hne]; [|right; by exists a, a'].
    left. apply namespace_values_inj; [done|done|]. by eapply domain_message_inj.
  - rewrite Hp, Hp'. intros Heq. destruct (decide (b = b')) as [<-|Hne]; [|right; by exists b, b'].
    left. apply res_bind_ok in Hb as (c & Hc & Hb), Hb' as (c' & Hc' & Hb').
    pose proof (domain_message_inj _ _ _ _ Hb Hb') as Heqs. injection Heqs as Hkind ->.
    split; [done|by eapply canonical_payload_inj].
  - intros q Hq. revert Hf. unfold derive_action_fingerprint.
    intros (u & Hu & (c & Hc & Hrest)%res_bind_ok)%res_bind_ok.
    apply res_bind_ok. exists u. split; [done|]. apply res_bind_ok. exists c.
    split; [by eapply canonical_payload_perm|done].
Qed.

(** C40. What the fingerprint accepts is bounded: at most 128 fields with
    distinct valid names, at most 1024 values in all, nested at most 16 deep,
    integers of 64 bits and strings of at most a mebibyte, and the canonical
    text is at most a mebibyte of UTF-8. *)
Theorem accepted_payload_is_bounded p e :
  _canonical_payload p = Ok e →
  len p ≤ 128 ∧ NoDup p.*1 ∧ payload_count p ≤ 1024 ∧
  Forall (λ nv, identifier nv.1 ∧ fp_depth nv.2 ≤ 16 ∧ fp_scalars_ok nv.2) p ∧
  ∃ b, utf8 e = Ok b ∧ len b ≤ 1048576.
Proof.
  intros H. pose proof (canonical_payload_ok _ _ H) as [Hv _].
  apply validate_fingerprint_fields_ok in Hv as (Hf & Hn & _ & Hc); [|done].
  unfold _canonical_payload, MAX_ACTION_FINGERPRINT_FIELDS, MAX_ACTION_FINGERPRINT_PAYLOAD_BYTES in H.
  inv_ok. subst. split_and!; [lia|done|done|done|]. eexists. split; [done|lia].
Qed.
