(* ===== verification/MemoryStore.v ===== *)
(** The coherent process-local store of [gateway/persistence/memory_store.py]
    with the leases of [gateway/persistence/store.py]: one namespace, one
    renewable runtime lease, the repositories it fences, the effect receipts
    and the queued inputs.  An operation runs under the store's lock, so it is
    one atomic step here; what it does in what order inside that step, and what
    it has written when it raises, is modelled.

    The clocks are functions of the number of readings made so far: [clock] is
    the store's [_clock], [utc_now] is [datetime.now(UTC)]. *)

From S2P Require Export Idempotency RequestCorrelation Bindings ProjectionRoutes Submissions Effects.
#[local] Open Scope Z_scope.
#[local] Open Scope stdpp_scope.

(** [gateway/persistence/store.py:73-78] RuntimeLease *)
Record RuntimeLease := {
  rl_gateway_id : pystr;
  rl_owner_token : pystr;
  rl_epoch : Z;
  rl_expires_at : datetime;
}.
#[export] Instance RuntimeLease_eq_dec : EqDecision RuntimeLease.
Proof. solve_decision. Defined.

(** [gateway/persistence/store.py:293-305] validate_runtime_lease *)
Definition validate_runtime_lease (lease : RuntimeLease) : res unit :=
  require_identifier (rl_gateway_id lease) "gateway_id" ;;
  require_identifier (rl_owner_token lease) "owner_token" ;;
  raise_if (rl_epoch lease < 1)
    (ContractViolation "runtime lease epoch must be a positive integer") ;;
  raise_if (tz_is_none (rl_expires_at lease))
    (ContractViolation "runtime lease expiry must include a valid timezone").

(** [gateway/persistence/store.py:308-314] validate_lease_duration *)
Definition validate_lease_duration (value : pyfloat) : res unit :=
  raise_if (¬ isfinite value ∨ float_nonpos value) ValueError.

(** [gateway/persistence/repository_contracts.py:258-265] _inbound_idempotency_identity *)
Definition _inbound_idempotency_identity (conversation_ref : ConversationRef) (message_id : pystr)
    : claim_key :=
  (py "inbound:" ++ cv_channel_instance_id conversation_ref,
   cv_native_conversation_id conversation_ref ++ py ":" ++ message_id).

(** [gateway/persistence/memory_store.py:98-132] MemoryGatewayStore *)
Record MemoryGatewayStore := {
  ms_max_effect_receipts : Z;
  ms_namespace_id : option pystr;
  ms_lease : option RuntimeLease;
  ms_epoch : Z;
  ms_closed : bool;
  ms_bindings : BindingRepository;
  ms_projections : ProjectionRepository;
  ms_idempotency : IdempotencyRepository;
  ms_request_correlations : RequestCorrelationRepository;
  ms_delivery_submissions : SubmissionRepository;
  ms_workspace_identities : dict ProjectRef pystr;
  ms_effect_receipts : dict pystr EffectReceipt;
  ms_queued_inputs : dict (ConversationRef * pystr) QueuedInputCorrelation;
}.

(** [gateway/persistence/memory_store.py:101-132] MemoryGatewayStore.__init__ *)
Definition new_memory_store (max_effect_receipts max_idempotency_records
    max_delivery_submission_records : Z) : res MemoryGatewayStore :=
  for_each [max_effect_receipts; max_idempotency_records; max_delivery_submission_records]
    (λ value, raise_if (value < 1) ValueError) ;;
  idempotency ← new_idempotency_repository max_idempotency_records ;
  submissions ← new_submission_repository max_delivery_submission_records ;
  Ok {|
    ms_max_effect_receipts := max_effect_receipts;
    ms_namespace_id := None;
    ms_lease := None;
    ms_epoch := 0;
    ms_closed := false;
    ms_bindings := new_binding_repository;
    ms_projections := new_projection_repository;
    ms_idempotency := idempotency;
    ms_request_correlations := [];
    ms_delivery_submissions := submissions;
    ms_workspace_identities := [];
    ms_effect_receipts := [];
    ms_queued_inputs := [];
  |}.

(** Assignments to the fields. *)
Definition set_namespace v (s : MemoryGatewayStore) := Build_MemoryGatewayStore
  (ms_max_effect_receipts s) v (ms_lease s) (ms_epoch s) (ms_closed s) (ms_bindings s)
  (ms_projections s) (ms_idempotency s) (ms_request_correlations s) (ms_delivery_submissions s)
  (ms_workspace_identities s) (ms_effect_receipts s) (ms_queued_inputs s).
Definition set_lease v (s : MemoryGatewayStore) := Build_MemoryGatewayStore
  (ms_max_effect_receipts s) (ms_namespace_id s) v (ms_epoch s) (ms_closed s) (ms_bindings s)
  (ms_projections s) (ms_idempotency s) (ms_request_correlations s) (ms_delivery_submissions s)
  (ms_workspace_identities s) (ms_effect_receipts s) (ms_queued_inputs s).
Definition set_epoch v (s : MemoryGatewayStore) := Build_MemoryGatewayStore
  (ms_max_effect_receipts s) (ms_namespace_id s) (ms_lease s) v (ms_closed s) (ms_bindings s)
  (ms_projections s) (ms_idempotency s) (ms_request_correlations s) (ms_delivery_submissions s)
  (ms_workspace_identities s) (ms_effect_receipts s) (ms_queued_inputs s).
Definition set_closed v (s : MemoryGatewayStore) := Build_MemoryGatewayStore
  (ms_max_effect_receipts s) (ms_namespace_id s) (ms_lease s) (ms_epoch s) v (ms_bindings s)
  (ms_projections s) (ms_idempotency s) (ms_request_correlations s) (ms_delivery_submissions s)
  (ms_workspace_identities s) (ms_effect_receipts s) (ms_queued_inputs s).
Definition set_bindings v (s : MemoryGatewayStore) := Build_MemoryGatewayStore
  (ms_max_effect_receipts s) (ms_namespace_id s) (ms_lease s) (ms_epoch s) (ms_closed s) v
  (ms_projections s) (ms_idempotency s) (ms_request_correlations s) (ms_delivery_submissions s)
  (ms_workspace_identities s) (ms_effect_receipts s) (ms_queued_inputs s).
Definition set_projections v (s : MemoryGatewayStore) := Build_MemoryGatewayStore
  (ms_max_effect_receipts s) (ms_namespace_id s) (ms_lease s) (ms_epoch s) (ms_closed s)
  (ms_bindings s) v (ms_idempotency s) (ms_request_correlations s) (ms_delivery_submissions s)
  (ms_workspace_identities s) (ms_effect_receipts s) (ms_queued_inputs s).
Definition set_idempotency v (s : MemoryGatewayStore) := Build_MemoryGatewayStore
  (ms_max_effect_receipts s) (ms_namespace_id s) (ms_lease s) (ms_epoch s) (ms_closed s)
  (ms_bindings s) (ms_projections s) v (ms_request_correlations s) (ms_delivery_submissions s)
  (ms_workspace_identities s) (ms_effect_receipts s) (ms_queued_inputs s).
Definition set_request_correlations v (s : MemoryGatewayStore) := Build_MemoryGatewayStore
  (ms_max_effect_receipts s) (ms_namespace_id s) (ms_lease s) (ms_epoch s) (ms_closed s)
  (ms_bindings s) (ms_projections s) (ms_idempotency s) v (ms_delivery_submissions s)
  (ms_workspace_identities s) (ms_effect_receipts s) (ms_queued_inputs s).
Definition set_delivery_submissions v (s : MemoryGatewayStore) := Build_MemoryGatewayStore
  (ms_max_effect_receipts s) (ms_namespace_id s) (ms_lease s) (ms_epoch s) (ms_closed s)
  (ms_bindings s) (ms_projections s) (ms_idempotency s) (ms_request_correlations s) v
  (ms_workspace_identities s) (ms_effect_receipts s) (ms_queued_inputs s).
Definition set_workspace_identities v (s : MemoryGatewayStore) := Build_MemoryGatewayStore
  (ms_max_effect_receipts s) (ms_namespace_id s) (ms_lease s) (ms_epoch s) (ms_closed s)
  (ms_bindings s) (ms_projections s) (ms_idempotency s) (ms_request_correlations s)
  (ms_delivery_submissions s) v (ms_effect_receipts s) (ms_queued_inputs s).
Definition set_effect_receipts v (s : MemoryGatewayStore) := Build_MemoryGatewayStore
  (ms_max_effect_receipts s) (ms_namespace_id s) (ms_lease s) (ms_epoch s) (ms_closed s)
  (ms_bindings s) (ms_projections s) (ms_idempotency s) (ms_request_correlations s)
  (ms_delivery_submissions s) (ms_workspace_identities s) v (ms_queued_inputs s).
Definition set_queued_inputs v (s : MemoryGatewayStore) := Build_MemoryGatewayStore
  (ms_max_effect_receipts s) (ms_namespace_id s) (ms_lease s) (ms_epoch s) (ms_closed s)
  (ms_bindings s) (ms_projections s) (ms_idempotency s) (ms_request_correlations s)
  (ms_delivery_submissions s) (ms_workspace_identities s) (ms_effect_receipts s) v.

(** The store and the number of clock readings so far. *)
Record world := { w_store : MemoryGatewayStore; w_ticks : nat }.
Definition set_store s (w : world) : world := {| w_store := s; w_ticks := w_ticks w |}.

Definition sget {A} (f : MemoryGatewayStore → A) : M world A := gets (λ w, f (w_store w)).
Definition sset (f : MemoryGatewayStore → MemoryGatewayStore) : M world unit :=
  modify (λ w, set_store (f (w_store w)) w).

(** A call on one of the repositories. *)
Definition on_repo {R A} (view : MemoryGatewayStore → R) (upd : R → MemoryGatewayStore → MemoryGatewayStore)
    (m : M R A) : M world A :=
  zoom (λ w, view (w_store w)) (λ r w, set_store (upd r (w_store w)) w) m.
Definition on_bindings {A} := @on_repo BindingRepository A ms_bindings set_bindings.
Definition on_projections {A} := @on_repo ProjectionRepository A ms_projections set_projections.
Definition on_idempotency {A} := @on_repo IdempotencyRepository A ms_idempotency set_idempotency.
Definition on_request_correlations {A} :=
  @on_repo RequestCorrelationRepository A ms_request_correlations set_request_correlations.
Definition on_delivery_submissions {A} :=
  @on_repo SubmissionRepository A ms_delivery_submissions set_delivery_submissions.

(** [gateway/persistence/memory_store.py:1334-1343] _generation_from_maps: the
    maximum the binding repository computes too. *)
Definition _generation_from_maps (conversation_ref : ConversationRef)
    (bindings : dict ConversationRef ConversationBinding) (floors : dict ConversationRef Z) : Z :=
  current_generation {| br_bindings := bindings; br_generation_floors := floors |} conversation_ref.

(** [gateway/persistence/memory_store.py:1346-1347] _mutation_conversation *)
Definition _mutation_conversation (plan : StoreMutationPlan) : ConversationRef :=
  mp_conversation_ref plan.

(** [gateway/persistence/memory_store.py:1350-1369] _resolve_binding_change:
    the new binding, whether to delete it, whether the generation advances. *)
Definition _resolve_binding_change (plan : StoreMutationPlan) (current : option ConversationBinding)
    : option BindingTarget * bool * bool :=
  match mp_binding_target plan, mp_binding_clear plan with
  | Some target, _ => (Some target, false, true)
  | None, None => (None, false, false)
  | None, Some CLEAR_APPLICATION => (None, true, true)
  | None, Some scope =>
      match current with
      | None => (None, true, true)
      | Some current =>
          (Some {|
             bt_conversation_ref := cb_conversation_ref current;
             bt_application_ref := cb_application_ref current;
             bt_project_ref :=
               if decide (scope = CLEAR_THREAD) then cb_project_ref current else None;
             bt_thread_ref := None;
           |}, false, true)
      end
  end.

(** [gateway/persistence/memory_store.py:1382-1382] _apply_route_plan: replace(route, updated_at=now) *)
Definition touch_route (r : ThreadProjectionRoute) (now : datetime) : ThreadProjectionRoute := {|
  tr_route_id := tr_route_id r;
  tr_thread_ref := tr_thread_ref r;
  tr_conversation_ref := tr_conversation_ref r;
  tr_reply_to_message_id := tr_reply_to_message_id r;
  tr_checkpoint_agent_item_id := tr_checkpoint_agent_item_id r;
  tr_checkpointed_at := tr_checkpointed_at r;
  tr_updated_at := Some now;
|}.

Abbreviation route_dict := (dict (ThreadRef * ConversationRef) ThreadProjectionRoute).

(** [gateway/persistence/memory_store.py:1382-1387] _apply_route_plan: the upsert of a route into the
    staged dictionary; the route and the dictionary after it *)
Definition upsert_route (routes : route_dict) (candidate existing_key_of : ThreadProjectionRoute)
    : res (ThreadProjectionRoute * route_dict) :=
  _reject_conflicting_route_id (d_values routes) existing_key_of ;;
  stored ← _merge_projection_route (d_get routes (route_key existing_key_of)) candidate ;
  Ok (stored, d_set routes (route_key existing_key_of) stored).

(** [gateway/persistence/memory_store.py:1372-1401] _apply_route_plan: the route
    the plan is about, and the staged routes after it. *)
Definition _apply_route_plan (routes : route_dict) (plan : StoreMutationPlan)
    (binding : option ConversationBinding) (now : datetime)
    : res (option ThreadProjectionRoute * route_dict) :=
  match mp_route_upsert plan, mp_route_delete_id plan with
  | Some route_upsert, _ =>
      let candidate := touch_route route_upsert now in
      '(stored, routes') ← upsert_route routes candidate candidate ;
      Ok (Some stored, routes')
  | None, Some route_delete_id =>
      match find_route route_delete_id routes with
      | None => Ok (None, routes)
      | Some (key, route) =>
          raise_if (tr_conversation_ref route ≠ mp_conversation_ref plan) ProjectionRouteConflict ;;
          if decide (mp_route_delete_condition plan = Some UNLESS_BOUND_TO_ROUTE_THREAD
                     ∧ (binding ≫= cb_thread_ref) = Some (tr_thread_ref route))
          then Ok (Some route, routes)
          else Ok (Some route, d_pop routes key)
      end
  | None, None => Ok (None, routes)
  end.

(** [gateway/persistence/memory_store.py:1404-1418] _binding_or_route_reference *)
Definition _binding_or_route_reference (binding_target : option BindingTarget)
    (route : option ThreadProjectionRoute) : option StableReference :=
  let of_route := (λ r, from_value (SV_thread (tr_thread_ref r))) <$> route in
  match binding_target with
  | None => of_route
  | Some t =>
      match bt_thread_ref t, bt_project_ref t, bt_application_ref t with
      | Some th, _, _ => Some (from_value (SV_thread th))
      | None, Some p, _ => Some (from_value (SV_project p))
      | None, None, Some a => Some (from_value (SV_application a))
      | None, None, None => of_route
      end
  end.

(** The staged dictionaries of a commit. *)
Record staged := {
  sg_bindings : BindingRepository;
  sg_routes : route_dict;
}.

(** [gateway/persistence/memory_store.py:467-474] _commit_store_mutation: the binding made from a
    target *)
Definition bind_target (target : BindingTarget) (generation : Z) (now : datetime)
    : ConversationBinding := {|
  cb_conversation_ref := bt_conversation_ref target;
  cb_application_ref := bt_application_ref target;
  cb_project_ref := bt_project_ref target;
  cb_thread_ref := bt_thread_ref target;
  cb_generation := generation;
  cb_updated_at := Some now;
|}.

(** [gateway/persistence/memory_store.py:706-707] _commit_workflow_binding: the staged binding and floor *)
Definition stage_binding (bindings : BindingRepository) (stored : ConversationBinding)
    : BindingRepository := {|
  br_bindings := d_set (br_bindings bindings) (cb_conversation_ref stored) stored;
  br_generation_floors :=
    d_set (br_generation_floors bindings) (cb_conversation_ref stored) (cb_generation stored);
|}.

(** [gateway/persistence/memory_store.py:457-502] the body of the [try] of
    _commit_store_mutation: the effect value and the staged dictionaries, or
    the exception that ends it. *)
Definition stage_mutation (plan : StoreMutationPlan) (bindings : BindingRepository)
    (routes : route_dict) (now : datetime) : res (EffectValue * staged) :=
  let conversation_ref := _mutation_conversation plan in
  let current := current_generation bindings conversation_ref in
  let '(target, delete_binding, binding_changed) :=
    _resolve_binding_change plan (d_get (br_bindings bindings) conversation_ref) in
  let result_generation := if (binding_changed : bool) then current + 1 else current in
  bindings' ←
    match target with
    | Some t =>
        if binding_changed then
          let stored := bind_target t result_generation now in
          validate_binding stored ;;
          Ok (stage_binding bindings stored)
        else Ok bindings
    | None =>
        Ok (if (delete_binding : bool) then {|
              br_bindings := d_pop (br_bindings bindings) conversation_ref;
              br_generation_floors :=
                d_set (br_generation_floors bindings) conversation_ref result_generation
            |} else bindings)
    end ;
  '(stored_route, routes') ←
    _apply_route_plan routes plan (d_get (br_bindings bindings') conversation_ref) now ;
  Ok ({|
    ev_reference := _binding_or_route_reference target stored_route;
    ev_conversation_ref := Some conversation_ref;
    ev_binding_generation := Some result_generation;
    ev_route_id := match stored_route with
                   | Some r => Some (tr_route_id r)
                   | None => mp_route_delete_id plan
                   end;
  |}, {| sg_bindings := bindings'; sg_routes := routes' |}).

(** [gateway/persistence/memory_store.py:697-716] the body of the [try] of
    _commit_workflow_binding. *)
Definition stage_workflow (target : BindingTarget) (route : option ThreadProjectionRoute)
    (generation : Z) (bindings : BindingRepository) (routes : route_dict) (now : datetime)
    : res (option ThreadProjectionRoute * staged) :=
  let stored := bind_target target generation now in
  validate_binding stored ;;
  let bindings' := stage_binding bindings stored in
  match route with
  | None => Ok (None, {| sg_bindings := bindings'; sg_routes := routes |})
  | Some r =>
      '(stored_route, routes') ← upsert_route routes (touch_route r now) r ;
      Ok (Some stored_route, {| sg_bindings := bindings'; sg_routes := routes' |})
  end.

Definition action_error (code : ActionErrorCode) : ActionError :=
  {| ae_code := code; ae_operation_error_code := None |}.

(** [gateway/persistence/memory_store.py:731-736] _commit_workflow_binding: replace(receipt, phase=...,
    outcome=..., updated_at=...) *)
Definition advance_receipt (r : EffectReceipt) (phase : EffectPhase) (outcome : option ActionOutcome)
    (updated_at : datetime) : EffectReceipt := {|
  er_gateway_id := er_gateway_id r;
  er_action_kind := er_action_kind r;
  er_action_key := er_action_key r;
  er_payload_fingerprint := er_payload_fingerprint r;
  er_category := er_category r;
  er_phase := phase;
  er_native_phase_id := er_native_phase_id r;
  er_binding_generation := er_binding_generation r;
  er_outcome := outcome;
  er_created_at := er_created_at r;
  er_updated_at := updated_at;
|}.

(** [gateway/persistence/memory_store.py:763-774] MemoryGatewayStore._check_fingerprint_locked *)
Definition _check_fingerprint_locked (receipt : EffectReceipt) (fingerprint : ActionFingerprint)
    : res unit :=
  raise_if (er_action_kind receipt ≠ af_action_kind fingerprint
            ∨ er_payload_fingerprint receipt ≠ af_payload_fingerprint fingerprint)
    EffectReceiptConflict.

(** [gateway/persistence/memory_store.py:829-831] MemoryGatewayStore._require_open_locked *)
Definition _require_open_locked : M world unit :=
  closed ← sget ms_closed ; raise_if (closed = true) RuntimeError.

(** [gateway/persistence/memory_store.py:833-835] MemoryGatewayStore._require_open_unlocked *)
Definition _require_open_unlocked : M world unit :=
  closed ← sget ms_closed ; raise_if (closed = true) RuntimeError.

(** [gateway/persistence/memory_store.py:741-753] MemoryGatewayStore._existing_receipt_locked *)
Definition _existing_receipt_locked (fingerprint : ActionFingerprint) (category : EffectCategory)
    : M world (option EffectReceipt) :=
  receipts ← sget ms_effect_receipts ;
  match d_get receipts (af_action_key fingerprint) with
  | None => mret None
  | Some existing =>
      lift (_check_fingerprint_locked existing fingerprint) ;;
      raise_if (er_category existing ≠ category) EffectReceiptConflict ;;
      mret (Some existing)
  end.

(** [gateway/persistence/memory_store.py:755-761] MemoryGatewayStore._require_receipt_locked *)
Definition _require_receipt_locked (fingerprint : ActionFingerprint) : M world EffectReceipt :=
  lift (validate_action_fingerprint fingerprint) ;;
  receipts ← sget ms_effect_receipts ;
  match d_get receipts (af_action_key fingerprint) with
  | None => mraise KeyError
  | Some receipt =>
      lift (_check_fingerprint_locked receipt fingerprint) ;;
      mret receipt
  end.

(** [gateway/persistence/memory_store.py:776-778] MemoryGatewayStore._reserve_capacity_locked *)
Definition _reserve_capacity_locked : M world unit :=
  s ← sget id ;
  raise_if (ms_max_effect_receipts s
            ≤ len (ms_effect_receipts s) + len (ms_queued_inputs s)) EffectReceiptCapacityError.

(** [gateway/persistence/memory_store.py:794-806] the receipt _new_receipt_locked
    makes *)
Definition new_receipt (gateway_id : pystr) (fingerprint : ActionFingerprint)
    (category : EffectCategory) (phase : EffectPhase) (native_phase_id : option pystr)
    (binding_generation : option Z) (outcome : option ActionOutcome) (now : datetime)
    : EffectReceipt := {|
  er_gateway_id := gateway_id;
  er_action_kind := af_action_kind fingerprint;
  er_action_key := af_action_key fingerprint;
  er_payload_fingerprint := af_payload_fingerprint fingerprint;
  er_category := category;
  er_phase := phase;
  er_native_phase_id := native_phase_id;
  er_binding_generation := binding_generation;
  er_outcome := outcome;
  er_created_at := now;
  er_updated_at := now;
|}.

(** [gateway/persistence/memory_store.py:780-808] MemoryGatewayStore._new_receipt_locked *)
Definition _new_receipt_locked (fingerprint : ActionFingerprint) (category : EffectCategory)
    (phase : EffectPhase) (native_phase_id : option pystr) (binding_generation : option Z)
    (outcome : option ActionOutcome) (now : datetime) : M world EffectReceipt :=
  namespace ← sget ms_namespace_id ;
  match namespace with
  | None => mraise RuntimeError
  | Some gateway_id =>
      let receipt := new_receipt gateway_id fingerprint category phase native_phase_id
        binding_generation outcome now in
      lift (validate_effect_receipt receipt) ;;
      mret receipt
  end.

(** [gateway/persistence/memory_store.py:518-518] _commit_store_mutation: the assignment of a receipt *)
Definition store_receipt (receipt : EffectReceipt) : M world unit :=
  sset (λ s, set_effect_receipts (d_set (ms_effect_receipts s) (er_action_key receipt) receipt) s).

Section store.
Context (clock : nat → datetime) (utc_now : nat → Z).

(** One reading of a clock. *)
Definition read_clock {A} (reading : nat → A) : M world A :=
  t ← gets w_ticks ;
  modify (λ w, {| w_store := w_store w; w_ticks := S (w_ticks w) |}) ;;
  mret (reading t).

(** [gateway/persistence/memory_store.py:823-827] MemoryGatewayStore._now_locked *)
Definition _now_locked : M world datetime :=
  now ← read_clock clock ;
  raise_if (tz_is_none now) ValueError ;;
  mret now.

(** [datetime.now(UTC)]. *)
Definition datetime_now_utc : M world datetime :=
  us ← read_clock utc_now ; mret (Aware us).

(** [gateway/persistence/memory_store.py:197-197] _renew: now + timedelta(seconds=float(lease_duration_seconds)) *)
Definition lease_expiry (now : datetime) (lease_duration_seconds : pyfloat) : res datetime :=
  delta ← timedelta_us lease_duration_seconds ; dt_add now delta.

(** [gateway/persistence/memory_store.py:810-821] MemoryGatewayStore._assert_fence_locked *)
Definition _assert_fence_locked (fence : RuntimeLease) : M world unit :=
  _require_open_locked ;;
  current ← sget ms_lease ;
  now ← _now_locked ;
  match current with
  | None => mraise StaleRuntimeFence
  | Some current =>
      raise_if (rl_gateway_id current ≠ rl_gateway_id fence
                ∨ rl_owner_token current ≠ rl_owner_token fence
                ∨ rl_epoch current ≠ rl_epoch fence) StaleRuntimeFence ;;
      expired ← lift (dt_leb (rl_expires_at current) now) ;
      raise_if (expired = true) StaleRuntimeFence
  end.

(** [gateway/persistence/memory_store.py:138-179] MemoryGatewayStore.acquire_runtime:
    the lease of the session it returns. *)
Definition acquire_runtime (gateway_id owner_token : pystr) (lease_duration_seconds : pyfloat)
    : M world RuntimeLease :=
  lift (require_identifier gateway_id "gateway_id") ;;
  lift (require_identifier owner_token "owner_token") ;;
  lift (validate_lease_duration lease_duration_seconds) ;;
  _require_open_locked ;;
  namespace ← sget ms_namespace_id ;
  match namespace with
  | None => sset (set_namespace (Some gateway_id))
  | Some n => raise_if (n ≠ gateway_id) GatewayNamespaceConflict
  end ;;
  now ← _now_locked ;
  current ← sget ms_lease ;
  unexpired ← lift match current with
                   | None => Ok false
                   | Some c => dt_ltb now (rl_expires_at c)
                   end ;
  lease ←
    match current, (unexpired : bool) with
    | Some c, true =>
        raise_if (rl_owner_token c ≠ owner_token) RuntimeLeaseUnavailable ;;
        expires_at ← lift (lease_expiry now lease_duration_seconds) ;
        mret (Build_RuntimeLease gateway_id owner_token (rl_epoch c) expires_at)
    | _, _ =>
        sset (λ s, set_epoch (ms_epoch s + 1) s) ;;
        epoch ← sget ms_epoch ;
        expires_at ← lift (lease_expiry now lease_duration_seconds) ;
        mret (Build_RuntimeLease gateway_id owner_token epoch expires_at)
    end ;
  lift (validate_runtime_lease lease) ;;
  sset (set_lease (Some lease)) ;;
  mret lease.

(** [gateway/persistence/memory_store.py:181-183] MemoryGatewayStore.close *)
Definition close_store : M world unit := sset (set_closed true).

(** [gateway/persistence/memory_store.py:205-205] _release: replace(fence, expires_at=...) *)
Definition with_expiry (fence : RuntimeLease) (expires_at : datetime) : RuntimeLease :=
  Build_RuntimeLease (rl_gateway_id fence) (rl_owner_token fence) (rl_epoch fence) expires_at.

(** [gateway/persistence/memory_store.py:185-200] MemoryGatewayStore._renew *)
Definition _renew (fence : RuntimeLease) (lease_duration_seconds : pyfloat) : M world RuntimeLease :=
  lift (validate_lease_duration lease_duration_seconds) ;;
  _assert_fence_locked fence ;;
  now ← _now_locked ;
  expires_at ← lift (lease_expiry now lease_duration_seconds) ;
  let renewed := with_expiry fence expires_at in
  sset (set_lease (Some renewed)) ;;
  mret renewed.

(** [gateway/persistence/memory_store.py:202-205] MemoryGatewayStore._release *)
Definition _release (fence : RuntimeLease) : M world unit :=
  _assert_fence_locked fence ;;
  now ← _now_locked ;
  sset (set_lease (Some (with_expiry fence now))).

(** [gateway/persistence/memory_store.py:207-212] MemoryGatewayStore._read *)
Definition _read {A} (call : M world A) : M world A := _require_open_unlocked ;; call.

(** [gateway/persistence/memory_store.py:214-221] MemoryGatewayStore._mutate *)
Definition _mutate {A} (fence : RuntimeLease) (call : M world A) : M world A :=
  _assert_fence_locked fence ;; call.

(** The loop of _check_workspace_identities over the staged dictionary. *)
Fixpoint stage_workspaces (staged : dict ProjectRef pystr) (identities : list WorkspaceIdentity)
    : res (dict ProjectRef pystr) :=
  match identities with
  | [] => Ok staged
  | identity :: rest =>
      when_some (d_get staged (wi_project_ref identity)) (λ existing,
        raise_if (existing ≠ wi_root_fingerprint identity) WorkspaceIdentityConflict) ;;
      stage_workspaces (d_set staged (wi_project_ref identity) (wi_root_fingerprint identity)) rest
  end.

(** [gateway/persistence/memory_store.py:223-240] MemoryGatewayStore._check_workspace_identities *)
Definition _check_workspace_identities (fence : RuntimeLease) (identities : list WorkspaceIdentity)
    : M world unit :=
  lift (for_each identities validate_workspace_identity) ;;
  _assert_fence_locked fence ;;
  staged ← sget ms_workspace_identities ;
  staged' ← lift (stage_workspaces staged identities) ;
  sset (set_workspace_identities staged').

(** [gateway/persistence/memory_store.py:242-252] MemoryGatewayStore._get_binding_generation *)
Definition _get_binding_generation (conversation_ref : ConversationRef) : M world Z :=
  _require_open_locked ;;
  sget (λ s, current_generation (ms_bindings s) conversation_ref).

(** [gateway/persistence/memory_store.py:254-299] MemoryGatewayStore._fence_queued_input *)
Definition _fence_queued_input (fence : RuntimeLease) (origin : QueuedInputOrigin)
    (claim_scope claim_key_ owner_token : pystr) : M world QueuedInputCorrelation :=
  lift (validate_queued_input_origin origin) ;;
  lift (_require_queued_identifier owner_token "owner_token") ;;
  raise_if ((claim_scope, claim_key_)
            ≠ _inbound_idempotency_identity (qo_conversation_ref origin) (qo_message_id origin))
    QueuedInputFenceConflict ;;
  _assert_fence_locked fence ;;
  s ← sget id ;
  let key := (qo_conversation_ref origin, qo_message_id origin) in
  raise_if (is_Some (d_get (ms_queued_inputs s) key)) QueuedInputFenceConflict ;;
  let claim := (claim_scope, claim_key_) in
  raise_if (d_get (ir_records (ms_idempotency s)) claim ≠ Some (InFlight, Some owner_token))
    QueuedInputFenceConflict ;;
  match d_get (br_bindings (ms_bindings s)) (qo_conversation_ref origin) with
  | None => mraise QueuedInputFenceConflict
  | Some binding =>
      raise_if (cb_thread_ref binding ≠ Some (qo_thread_ref origin)
                ∨ cb_generation binding ≠ qo_binding_generation origin
                ∨ qo_binding_generation origin
                  < default 0 (d_get (br_generation_floors (ms_bindings s)) (qo_conversation_ref origin)))
        QueuedInputFenceConflict
  end ;;
  _reserve_capacity_locked ;;
  now ← _now_locked ;
  let record := {|
    qc_origin := origin; qc_receipt := None; qc_created_at := now; qc_updated_at := now |} in
  lift (validate_queued_input_correlation record) ;;
  sset (λ s, set_queued_inputs (d_set (ms_queued_inputs s) key record) s) ;;
  sset (λ s, set_idempotency
    (set_records (d_set (ir_records (ms_idempotency s)) claim (SideEffectStarted, Some owner_token))
       (ms_idempotency s)) s) ;;
  mret record.

(** [gateway/persistence/memory_store.py:301-309] MemoryGatewayStore._get_queued_input *)
Definition _get_queued_input (conversation_ref : ConversationRef) (message_id : pystr)
    : M world (option QueuedInputCorrelation) :=
  lift (_validate_queued_input_lookup conversation_ref message_id) ;;
  _require_open_locked ;;
  sget (λ s, d_get (ms_queued_inputs s) (conversation_ref, message_id)).

(** [gateway/persistence/memory_store.py:311-323] MemoryGatewayStore._list_queued_inputs *)
Definition _list_queued_inputs (thread_ref : option ThreadRef) : M world (list QueuedInputCorrelation) :=
  lift (when_some thread_ref validate_thread_ref) ;;
  _require_open_locked ;;
  sget (λ s, filter (λ r, selects thread_ref (qo_thread_ref (qc_origin r)))
    (d_values (ms_queued_inputs s))).

(** [gateway/persistence/memory_store.py:346-362] the staged Turn correlations
    of _merge_queued_input_receipt *)
Definition stage_turn (turns : dict (ThreadRef * pystr) TurnReplyCorrelation)
    (turn_correlation : option TurnReplyCorrelation)
    : res (dict (ThreadRef * pystr) TurnReplyCorrelation) :=
  match turn_correlation with
  | None => Ok turns
  | Some t =>
      match d_get turns (turn_key t) with
      | Some existing =>
          raise_if (¬ _same_turn_reply_correlation existing t) TurnReplyCorrelationConflict ;;
          Ok turns
      | None =>
          raise_if (Exists (λ item, tc_correlation_id item = tc_correlation_id t) (d_values turns))
            TurnReplyCorrelationConflict ;;
          Ok (d_set turns (turn_key t) t)
      end
  end.

(** [gateway/persistence/memory_store.py:325-365] MemoryGatewayStore._merge_queued_input_receipt *)
Definition _merge_queued_input_receipt (fence : RuntimeLease) (origin : QueuedInputOrigin)
    (receipt : QueuedInputReceipt) (turn_correlation : option TurnReplyCorrelation)
    : M world QueuedInputCorrelation :=
  lift (validate_queued_input_origin origin) ;;
  _assert_fence_locked fence ;;
  let key := (qo_conversation_ref origin, qo_message_id origin) in
  queued ← sget ms_queued_inputs ;
  match d_get queued key with
  | None => mraise KeyError
  | Some current =>
      now ← _now_locked ;
      merged ← lift (_merge_queued_receipt current origin receipt turn_correlation now) ;
      turns ← sget (λ s, pj_turn_correlations (ms_projections s)) ;
      turns' ← lift (stage_turn turns turn_correlation) ;
      sset (λ s, set_queued_inputs (d_set (ms_queued_inputs s) key merged) s) ;;
      sset (λ s, set_projections (set_turns turns' (ms_projections s)) s) ;;
      mret merged
  end.

(** [gateway/persistence/memory_store.py:367-378] MemoryGatewayStore._get_effect_receipt *)
Definition _get_effect_receipt (fingerprint : ActionFingerprint) : M world (option EffectReceipt) :=
  lift (validate_action_fingerprint fingerprint) ;;
  _require_open_locked ;;
  receipts ← sget ms_effect_receipts ;
  match d_get receipts (af_action_key fingerprint) with
  | None => mret None
  | Some existing =>
      lift (_check_fingerprint_locked existing fingerprint) ;; mret (Some existing)
  end.

(** [gateway/persistence/memory_store.py:380-391] MemoryGatewayStore._get_store_mutation_receipt *)
Definition _get_store_mutation_receipt (fence : RuntimeLease) (fingerprint : ActionFingerprint)
    : M world (option EffectReceipt) :=
  lift (validate_action_fingerprint fingerprint) ;;
  _assert_fence_locked fence ;;
  _existing_receipt_locked fingerprint GATEWAY.

(** [gateway/persistence/memory_store.py:393-422] MemoryGatewayStore._commit_store_preflight_failure *)
Definition _commit_store_preflight_failure (fence : RuntimeLease) (fingerprint : ActionFingerprint)
    (error : ActionError) : M world EffectReceipt :=
  lift (validate_action_fingerprint fingerprint) ;;
  _assert_fence_locked fence ;;
  existing ← _existing_receipt_locked fingerprint GATEWAY ;
  match existing with
  | Some existing => mret existing
  | None =>
      _reserve_capacity_locked ;;
      now ← _now_locked ;
      receipt ← _new_receipt_locked fingerprint GATEWAY PH_TERMINAL None None (Some (Failed error)) now ;
      store_receipt receipt ;;
      mret receipt
  end.

(** [gateway/persistence/memory_store.py:503-504] the exceptions a commit turns
    into a CONFLICT outcome *)
Definition is_route_conflict (e : exn) : bool :=
  match e with ProjectionCheckpointConflict | ProjectionRouteConflict => true | _ => false end.

(** [gateway/persistence/memory_store.py:506-508] _commit_store_mutation: the publication of the staged
    dictionaries *)
Definition publish (g : staged) : M world unit :=
  sset (λ s, set_projections (set_routes (sg_routes g) (ms_projections s))
               (set_bindings (sg_bindings g) s)).

(** [gateway/persistence/memory_store.py:424-519] MemoryGatewayStore._commit_store_mutation *)
Definition _commit_store_mutation (fence : RuntimeLease) (request : StoreMutationRequest)
    : M world EffectReceipt :=
  lift (validate_store_mutation_request request) ;;
  _assert_fence_locked fence ;;
  existing ← _existing_receipt_locked (sm_fingerprint request) GATEWAY ;
  match existing with
  | Some existing => mret existing
  | None =>
      _reserve_capacity_locked ;;
      now ← _now_locked ;
      s ← sget id ;
      let plan := sm_plan request in
      let current := current_generation (ms_bindings s) (_mutation_conversation plan) in
      outcome ←
        (if decide (is_Some (mp_expected_generation plan)
                    ∧ mp_expected_generation plan ≠ Some current)
         then mret (Failed (action_error AE_STALE_BINDING))
         else match stage_mutation plan (ms_bindings s) (pj_routes (ms_projections s)) now with
              | Ok (value, g) => publish g ;; mret (Succeeded value)
              | Err e =>
                  if is_route_conflict e then mret (Failed (action_error AE_CONFLICT)) else mraise e
              end) ;
      receipt ← _new_receipt_locked (sm_fingerprint request) GATEWAY PH_TERMINAL None None
        (Some outcome) now ;
      store_receipt receipt ;;
      mret receipt
  end.

(** [gateway/persistence/memory_store.py:521-564] MemoryGatewayStore._reserve_effect *)
Definition _reserve_effect (fence : RuntimeLease) (fingerprint : ActionFingerprint)
    (category : EffectCategory) (native_phase_id : pystr)
    (conversation_ref : option ConversationRef) : M world EffectReceipt :=
  lift (validate_action_fingerprint fingerprint) ;;
  lift (require_identifier native_phase_id "native_phase_id") ;;
  raise_if (category ∉ [NATIVE; REQUEST_RESPONSE; WORKFLOW]) ValueError ;;
  _assert_fence_locked fence ;;
  existing ← _existing_receipt_locked fingerprint category ;
  match existing with
  | Some existing =>
      raise_if (er_native_phase_id existing ≠ Some native_phase_id) EffectReceiptConflict ;;
      mret existing
  | None =>
      _reserve_capacity_locked ;;
      bindings ← sget ms_bindings ;
      let generation := current_generation bindings <$> conversation_ref in
      now ← _now_locked ;
      receipt ← _new_receipt_locked fingerprint category PH_RESERVED (Some native_phase_id)
        generation None now ;
      store_receipt receipt ;;
      mret receipt
  end.

(** [gateway/persistence/memory_store.py:566-582] MemoryGatewayStore._mark_native_side_effect_started *)
Definition _mark_native_side_effect_started (fence : RuntimeLease) (fingerprint : ActionFingerprint)
    : M world (EffectReceipt * bool) :=
  _assert_fence_locked fence ;;
  receipt ← _require_receipt_locked fingerprint ;
  if decide (er_phase receipt ≠ PH_RESERVED) then mret (receipt, false)
  else
    now ← _now_locked ;
    let updated := advance_receipt receipt PH_NATIVE_SIDE_EFFECT_STARTED (er_outcome receipt) now in
    store_receipt updated ;;
    mret (updated, true).

(** [gateway/persistence/memory_store.py:584-631] MemoryGatewayStore._record_effect_outcome *)
Definition _record_effect_outcome (fence : RuntimeLease) (fingerprint : ActionFingerprint)
    (phase : EffectPhase) (outcome : ActionOutcome) : M world EffectReceipt :=
  raise_if (phase ∉ [PH_NATIVE_SIDE_EFFECT_STARTED; PH_NATIVE_RESULT_KNOWN; PH_TERMINAL]) ValueError ;;
  raise_if (phase = PH_NATIVE_SIDE_EFFECT_STARTED ∧ is_unknown (Some outcome) = false) ValueError ;;
  _assert_fence_locked fence ;;
  receipt ← _require_receipt_locked fingerprint ;
  if decide (er_phase receipt = PH_TERMINAL) then mret receipt
  else
    raise_if (er_phase receipt = PH_RESERVED) RuntimeError ;;
    raise_if (phase = PH_NATIVE_RESULT_KNOWN
              ∧ (er_category receipt ≠ WORKFLOW ∨ is_succeeded (Some outcome) = false)) RuntimeError ;;
    raise_if (er_phase receipt = PH_NATIVE_RESULT_KNOWN) RuntimeError ;;
    raise_if (er_category receipt = WORKFLOW ∧ phase = PH_TERMINAL
              ∧ is_succeeded (Some outcome) = true) RuntimeError ;;
    now ← _now_locked ;
    let updated := advance_receipt receipt phase (Some outcome) now in
    lift (validate_effect_receipt updated) ;;
    store_receipt updated ;;
    mret updated.

(** [gateway/persistence/memory_store.py:633-654] MemoryGatewayStore._record_effect_preflight_failure *)
Definition _record_effect_preflight_failure (fence : RuntimeLease) (fingerprint : ActionFingerprint)
    (error : ActionError) : M world EffectReceipt :=
  _assert_fence_locked fence ;;
  receipt ← _require_receipt_locked fingerprint ;
  if decide (er_phase receipt ≠ PH_RESERVED) then mret receipt
  else
    now ← _now_locked ;
    let updated := advance_receipt receipt PH_TERMINAL (Some (Failed error)) now in
    lift (validate_effect_receipt updated) ;;
    store_receipt updated ;;
    mret updated.

(** [gateway/persistence/memory_store.py:656-739] MemoryGatewayStore._commit_workflow_binding *)
Definition _commit_workflow_binding (fence : RuntimeLease) (fingerprint : ActionFingerprint)
    (binding_target : BindingTarget) (route : option ThreadProjectionRoute)
    : M world EffectReceipt :=
  lift (validate_binding_target binding_target) ;;
  lift (when_some route (λ r,
    validate_projection_route r ;;
    raise_if (tr_conversation_ref r ≠ bt_conversation_ref binding_target) ValueError)) ;;
  _assert_fence_locked fence ;;
  receipt ← _require_receipt_locked fingerprint ;
  raise_if (er_category receipt ≠ WORKFLOW) EffectReceiptConflict ;;
  if decide (er_phase receipt = PH_TERMINAL) then mret receipt
  else
    match er_phase receipt, er_outcome receipt with
    | PH_NATIVE_RESULT_KNOWN, Some (Succeeded created_value) =>
        s ← sget id ;
        let current := current_generation (ms_bindings s) (bt_conversation_ref binding_target) in
        now ← _now_locked ;
        outcome ←
          (if decide (Some current ≠ er_binding_generation receipt)
           then mret (Partial created_value (action_error AE_STALE_BINDING))
           else match stage_workflow binding_target route (current + 1) (ms_bindings s)
                        (pj_routes (ms_projections s)) now with
                | Ok (stored_route, g) =>
                    publish g ;;
                    mret (Succeeded {|
                      ev_reference := ev_reference created_value;
                      ev_conversation_ref := Some (bt_conversation_ref binding_target);
                      ev_binding_generation := Some (current + 1);
                      ev_route_id := tr_route_id <$> stored_route;
                    |})
                | Err e =>
                    if is_route_conflict e
                    then mret (Partial created_value (action_error AE_CONFLICT)) else mraise e
                end) ;
        let updated := advance_receipt receipt PH_TERMINAL (Some outcome) now in
        lift (validate_effect_receipt updated) ;;
        store_receipt updated ;;
        mret updated
    | _, _ => mraise RuntimeError
    end.

End store.
