(* ===== verification/StoreSpec.v ===== *)
(** The abstract store: what one step of the coherent store may do, as a step
    relation on the data alone, without fences, error paths or call structure;
    the invariant of the store, and that every step keeps it.  [StoreRefinement]
    shows that every call of [MemoryStore] is a sequence of these steps. *)

From S2P Require Export MemoryStore QueuedInputs.
From stdpp Require Import list.
#[local] Open Scope Z_scope.
#[local] Open Scope stdpp_scope.

(** * The lifecycle of an effect receipt *)

(** What never changes of a receipt. *)
Definition receipt_identity (r : EffectReceipt) :=
  (er_gateway_id r, er_action_kind r, er_action_key r, er_payload_fingerprint r, er_category r,
   er_native_phase_id r, er_binding_generation r, er_created_at r).

Definition is_some_succeeded (o : option ActionOutcome) : Prop := is_succeeded o = true.

(** The phases, with the outcome each transition may bring. *)
Inductive receipt_step : EffectReceipt → EffectReceipt → Prop :=
| rs_start r now :
    er_phase r = PH_RESERVED →
    receipt_step r (advance_receipt r PH_NATIVE_SIDE_EFFECT_STARTED (er_outcome r) now)
| rs_preflight_failed r error now :
    er_phase r = PH_RESERVED →
    receipt_step r (advance_receipt r PH_TERMINAL (Some (Failed error)) now)
| rs_unknown r error now :
    er_phase r = PH_NATIVE_SIDE_EFFECT_STARTED →
    receipt_step r
      (advance_receipt r PH_NATIVE_SIDE_EFFECT_STARTED (Some (OutcomeUnknown error)) now)
| rs_result_known r value now :
    er_phase r = PH_NATIVE_SIDE_EFFECT_STARTED → er_category r = WORKFLOW →
    receipt_step r (advance_receipt r PH_NATIVE_RESULT_KNOWN (Some (Succeeded value)) now)
| rs_terminal r outcome now :
    er_phase r = PH_NATIVE_SIDE_EFFECT_STARTED →
    (er_category r = WORKFLOW → is_succeeded (Some outcome) = false) →
    receipt_step r (advance_receipt r PH_TERMINAL (Some outcome) now)
| rs_workflow r created outcome now :
    er_phase r = PH_NATIVE_RESULT_KNOWN → er_category r = WORKFLOW →
    er_outcome r = Some (Succeeded created) →
    (is_succeeded (Some outcome) = true ∨ ∃ e, outcome = Partial created e) →
    receipt_step r (advance_receipt r PH_TERMINAL (Some outcome) now).

Lemma receipt_step_identity r r' : receipt_step r r' → receipt_identity r' = receipt_identity r.
Proof. by destruct 1. Qed.

Lemma terminal_has_no_step r r' : er_phase r = PH_TERMINAL → ¬ receipt_step r r'.
Proof. intros Ht. by destruct 1; rewrite Ht in *. Qed.

(** * The steps of the store *)

Definition queued_key (c : QueuedInputCorrelation) : ConversationRef * pystr :=
  (qo_conversation_ref (qc_origin c), qo_message_id (qc_origin c)).

Definition has_capacity (s : MemoryGatewayStore) : Prop :=
  len (ms_effect_receipts s) + len (ms_queued_inputs s) < ms_max_effect_receipts s.

Definition put_receipt (r : EffectReceipt) (s : MemoryGatewayStore) : MemoryGatewayStore :=
  set_effect_receipts (d_set (ms_effect_receipts s) (er_action_key r) r) s.
Definition published (g : staged) (s : MemoryGatewayStore) : MemoryGatewayStore :=
  set_projections (set_routes (sg_routes g) (ms_projections s)) (set_bindings (sg_bindings g) s).

(** A receipt made now for an action the store does not know. *)
Definition fresh_receipt (now : datetime) (s : MemoryGatewayStore) (r : EffectReceipt) : Prop :=
  d_get (ms_effect_receipts s) (er_action_key r) = None ∧
  ms_namespace_id s = Some (er_gateway_id r) ∧
  er_created_at r = now ∧ er_updated_at r = now ∧
  (er_phase r = PH_RESERVED ∨ er_category r = GATEWAY).

(** What a successful mutation of the plan stages and reports. *)
Definition commits (now : datetime) (plan : StoreMutationPlan) (s : MemoryGatewayStore)
    (outcome : ActionOutcome) (s' : MemoryGatewayStore) : Prop :=
  let current := current_generation (ms_bindings s) (mp_conversation_ref plan) in
  if decide (is_Some (mp_expected_generation plan) ∧ mp_expected_generation plan ≠ Some current)
  then outcome = Failed (action_error AE_STALE_BINDING) ∧ s' = s
  else match stage_mutation plan (ms_bindings s) (pj_routes (ms_projections s)) now with
       | Ok (value, g) => outcome = Succeeded value ∧ s' = published g s
       | Err e => is_route_conflict e = true ∧ outcome = Failed (action_error AE_CONFLICT) ∧ s' = s
       end.

(** What the binding commit of a workflow does. *)
Definition commits_workflow (now : datetime) (target : BindingTarget)
    (route : option ThreadProjectionRoute) (receipt : EffectReceipt) (created : EffectValue)
    (s : MemoryGatewayStore) (outcome : ActionOutcome) (s' : MemoryGatewayStore) : Prop :=
  let current := current_generation (ms_bindings s) (bt_conversation_ref target) in
  if decide (Some current ≠ er_binding_generation receipt)
  then outcome = Partial created (action_error AE_STALE_BINDING) ∧ s' = s
  else match stage_workflow target route (current + 1) (ms_bindings s)
               (pj_routes (ms_projections s)) now with
       | Ok (stored_route, g) =>
           outcome = Succeeded {|
             ev_reference := ev_reference created;
             ev_conversation_ref := Some (bt_conversation_ref target);
             ev_binding_generation := Some (current + 1);
             ev_route_id := tr_route_id <$> stored_route |} ∧
           s' = published g s
       | Err e =>
           is_route_conflict e = true ∧
           outcome = Partial created (action_error AE_CONFLICT) ∧ s' = s
       end.

Inductive store_step (now : datetime) : MemoryGatewayStore → MemoryGatewayStore → Prop :=
| ss_namespace s gateway_id :
    ms_namespace_id s = None → identifier gateway_id →
    store_step now s (set_namespace (Some gateway_id) s)
| ss_epoch s : store_step now s (set_epoch (ms_epoch s + 1) s)
| ss_takeover s l :
    ms_namespace_id s = Some (rl_gateway_id l) → rl_epoch l = ms_epoch s →
    (∀ c, ms_lease s = Some c → rl_epoch c < rl_epoch l ∧ dt_us (rl_expires_at c) ≤ dt_us now) →
    validate_runtime_lease l = Ok () →
    store_step now s (set_lease (Some l) s)
| ss_extend s c expires_at :
    ms_lease s = Some c → ¬ tz_is_none expires_at →
    store_step now s (set_lease (Some (with_expiry c expires_at)) s)
| ss_close s : store_step now s (set_closed true s)
| ss_bindings s op :
    store_step now s (set_bindings (run_binding_op op (ms_bindings s)).2 s)
| ss_projections s op :
    store_step now s (set_projections (run_projection_op op (ms_projections s)).2 s)
| ss_idempotency s op scope key owner :
    store_step now s (set_idempotency (run_idem_op op scope key owner (ms_idempotency s)).2 s)
| ss_requests s op :
    store_step now s (set_request_correlations (run_rc_op op (ms_request_correlations s)).2 s)
| ss_submissions s op :
    store_step now s (set_delivery_submissions (run_submission_op op (ms_delivery_submissions s)).2 s)
| ss_workspaces s identities staged :
    for_each identities validate_workspace_identity = Ok () →
    stage_workspaces (ms_workspace_identities s) identities = Ok staged →
    store_step now s (set_workspace_identities staged s)
| ss_fence_queued s c claim owner :
    d_get (ms_queued_inputs s) (queued_key c) = None → has_capacity s →
    claim = _inbound_idempotency_identity (qo_conversation_ref (qc_origin c)) (qo_message_id (qc_origin c)) →
    d_get (ir_records (ms_idempotency s)) claim = Some (InFlight, Some owner) →
    validate_queued_input_correlation c = Ok () → qc_receipt c = None →
    store_step now s
      (set_idempotency
         (set_records (d_set (ir_records (ms_idempotency s)) claim (SideEffectStarted, Some owner))
            (ms_idempotency s))
         (set_queued_inputs (d_set (ms_queued_inputs s) (queued_key c) c) s))
| ss_merge_queued s current receipt turn merged turns' :
    d_get (ms_queued_inputs s) (queued_key current) = Some current →
    _merge_queued_receipt current (qc_origin current) receipt turn now = Ok merged →
    stage_turn (pj_turn_correlations (ms_projections s)) turn = Ok turns' →
    store_step now s
      (set_projections (set_turns turns' (ms_projections s))
         (set_queued_inputs (d_set (ms_queued_inputs s) (queued_key current) merged) s))
| ss_new_receipt s r :
    fresh_receipt now s r → has_capacity s → validate_effect_receipt r = Ok () →
    store_step now s (put_receipt r s)
| ss_commit s request r outcome s' :
    validate_store_mutation_request request = Ok () →
    fresh_receipt now s r → has_capacity s → validate_effect_receipt r = Ok () →
    er_category r = GATEWAY → er_outcome r = Some outcome → commits now (sm_plan request) s outcome s' →
    store_step now s (put_receipt r s')
| ss_advance s r r' :
    d_get (ms_effect_receipts s) (er_action_key r) = Some r → receipt_step r r' →
    er_updated_at r' = now →
    validate_effect_receipt r' = Ok () →
    store_step now s (put_receipt r' s)
| ss_workflow s r created target route outcome s' :
    d_get (ms_effect_receipts s) (er_action_key r) = Some r →
    er_phase r = PH_NATIVE_RESULT_KNOWN → er_category r = WORKFLOW →
    er_outcome r = Some (Succeeded created) →
    (∀ p, route = Some p → validate_projection_route p = Ok ()) →
    commits_workflow now target route r created s outcome s' →
    validate_effect_receipt (advance_receipt r PH_TERMINAL (Some outcome) now) = Ok () →
    store_step now s (put_receipt (advance_receipt r PH_TERMINAL (Some outcome) now) s').

(** * The invariant *)

Definition receipt_ok (s : MemoryGatewayStore) (k : pystr) (r : EffectReceipt) : Prop :=
  k = er_action_key r ∧ ms_namespace_id s = Some (er_gateway_id r) ∧
  validate_effect_receipt r = Ok ().
Definition queued_ok (k : ConversationRef * pystr) (c : QueuedInputCorrelation) : Prop :=
  k = queued_key c ∧ validate_queued_input_correlation c = Ok ().
Definition workspace_ok (k : ProjectRef) (v : pystr) : Prop :=
  validate_workspace_identity {| wi_project_ref := k; wi_root_fingerprint := v |} = Ok ().

Record store_inv (s : MemoryGatewayStore) : Prop := {
  st_lease : ∀ l, ms_lease s = Some l →
    ms_namespace_id s = Some (rl_gateway_id l) ∧ rl_epoch l ≤ ms_epoch s ∧
    validate_runtime_lease l = Ok ();
  st_namespace : ∀ n, ms_namespace_id s = Some n → identifier n;
  st_epoch : 0 ≤ ms_epoch s;
  st_bindings : binding_inv (ms_bindings s);
  st_projections : projection_inv (ms_projections s);
  st_idempotency : well_formed (ir_records (ms_idempotency s));
  st_requests : rc_inv (ms_request_correlations s);
  st_submissions : submission_inv (ms_delivery_submissions s);
  st_workspaces_distinct : well_formed (ms_workspace_identities s);
  st_workspaces : d_all workspace_ok (ms_workspace_identities s);
  st_receipts_distinct : well_formed (ms_effect_receipts s);
  st_receipts : d_all (receipt_ok s) (ms_effect_receipts s);
  st_queued_distinct : well_formed (ms_queued_inputs s);
  st_queued : d_all queued_ok (ms_queued_inputs s);
  st_capacity : len (ms_effect_receipts s) + len (ms_queued_inputs s) ≤ ms_max_effect_receipts s;
}.

(** * Every step keeps the invariant *)

Lemma validate_touch_route r now :
  validate_projection_route r = Ok () → validate_projection_route (touch_route r now) = Ok ().
Proof. done. Qed.

Lemma upsert_route_inv pj r now stored routes' :
  projection_inv pj → validate_projection_route r = Ok () →
  upsert_route (pj_routes pj) (touch_route r now) r = Ok (stored, routes') →
  projection_inv (set_routes routes' pj) ∧ validate_projection_route stored = Ok () ∧
  tr_route_id stored = tr_route_id r.
Proof.
  intros Hi Hv H. unfold upsert_route in H. apply res_bind_ok in H as ([] & Hr & H).
  apply res_bind_ok in H as (st & Hm & [= -> <-]).
  assert (accepts_route pj (touch_route r now) stored) as Ha by done.
  destruct (accepts_route_spec _ _ _ Hi Ha) as (? & _ & ? & _).
  split_and!; try done. by apply (inv_accepts pj pj (touch_route r now)).
Qed.

Lemma stage_binding_inv bindings target g now :
  binding_inv bindings → validate_binding (bind_target target g now) = Ok () → 0 < g →
  binding_inv (stage_binding bindings (bind_target target g now)).
Proof. intros Hi Hv Hg. by apply binding_inv_store. Qed.

Lemma binding_of_current s c b :
  binding_inv s → d_get (br_bindings s) c = Some b →
  cb_conversation_ref b = c ∧ cb_generation b = current_generation s c ∧ validate_binding b = Ok ().
Proof. intros Hi Hg. destruct (binding_inv_generation s c Hi) as (_ & Hb & _). by apply Hb. Qed.

Definition plan_route_ok (plan : StoreMutationPlan) : Prop :=
  ∀ r, mp_route_upsert plan = Some r → validate_projection_route r = Ok ().

Lemma apply_route_plan_inv pj plan binding now route routes' :
  projection_inv pj → plan_route_ok plan →
  _apply_route_plan (pj_routes pj) plan binding now = Ok (route, routes') →
  projection_inv (set_routes routes' pj) ∧
  ∀ r, route = Some r → validate_projection_route r = Ok ().
Proof.
  unfold _apply_route_plan, plan_route_ok. intros Hi Hp H.
  destruct (mp_route_upsert plan) as [up|]; [|destruct (mp_route_delete_id plan) as [i|]].
  - apply res_bind_ok in H as ([stored rs] & H & [= <- <-]).
    apply (upsert_route_inv pj up now) in H as (? & ? & _); [|done|by apply Hp].
    split; [done|]. by intros ? [= <-].
  - destruct (find_route i (pj_routes pj)) as [[key r]|] eqn:Hf.
    + apply find_route_spec in Hf as [Hin _].
      apply (d_elem_get _ _ _ (pi_routes_distinct _ Hi)) in Hin.
      pose proof (d_all_get _ _ _ _ (pi_routes _ Hi) Hin) as [_ Hv].
      apply res_bind_ok in H as (_ & _ & H). case_decide; injection H as <- <-.
      * split; [by destruct pj|by intros ? [= <-]].
      * split; [by apply (inv_pop_routes pj [key])|by intros ? [= <-]].
    + injection H as <- <-. split; [by destruct pj|done].
  - injection H as <- <-. split; [by destruct pj|done].
Qed.

(** What a staged mutation is, when it succeeds. *)
Lemma stage_mutation_inv plan bindings pj now value g :
  binding_inv bindings → projection_inv pj → plan_route_ok plan →
  stage_mutation plan bindings (pj_routes pj) now = Ok (value, g) →
  binding_inv (sg_bindings g) ∧ projection_inv (set_routes (sg_routes g) pj).
Proof.
  intros Hb Hp Hr. unfold stage_mutation, _mutation_conversation.
  destruct (binding_inv_generation bindings (mp_conversation_ref plan) Hb) as (Hg & _ & _).
  destruct (_resolve_binding_change _ _) as [[target del] changed] eqn:Hres.
  intros H. apply res_bind_ok in H as (b' & Hb' & H).
  apply res_bind_ok in H as ([route rs] & H & [= <- <-]). cbn.
  apply apply_route_plan_inv in H as [? _]; [|done|done]. split; [|done].
  destruct target as [t|].
  - destruct changed; [|by injection Hb' as <-].
    apply res_bind_ok in Hb' as ([] & Hv & [= <-]). apply stage_binding_inv; [done|done|lia].
  - injection Hb' as <-. destruct del; [|done]. apply binding_inv_clear; [done|].
    unfold _resolve_binding_change in Hres.
    destruct (mp_binding_target plan); [done|]. destruct (mp_binding_clear plan) as [[]|];
      try destruct (d_get _ _); simplify_eq; lia.
Qed.

Lemma stage_workflow_inv target route gen bindings pj now stored g :
  binding_inv bindings → projection_inv pj → 0 < gen →
  (∀ p, route = Some p → validate_projection_route p = Ok ()) →
  stage_workflow target route gen bindings (pj_routes pj) now = Ok (stored, g) →
  binding_inv (sg_bindings g) ∧ projection_inv (set_routes (sg_routes g) pj) ∧
  (∀ r, stored = Some r → validate_projection_route r = Ok ()).
Proof.
  intros Hb Hp Hg Hr H. unfold stage_workflow in H. apply res_bind_ok in H as ([] & Hv & H).
  destruct route as [r|].
  - apply res_bind_ok in H as ([st rs] & H & [= <- <-]). cbn.
    apply (upsert_route_inv pj r now) in H as (? & ? & _); [|done|by apply Hr].
    split_and!; [by apply stage_binding_inv|done|by intros ? [= <-]].
  - injection H as <- <-. cbn. split_and!; [by apply stage_binding_inv|by destruct pj|done].
Qed.

Lemma store_inv_published s g :
  store_inv s → binding_inv (sg_bindings g) →
  projection_inv (set_routes (sg_routes g) (ms_projections s)) → store_inv (published g s).
Proof. intros [] ??. by split. Qed.

Lemma store_inv_put_receipt s r :
  store_inv s → receipt_ok s (er_action_key r) r →
  (is_Some (d_get (ms_effect_receipts s) (er_action_key r)) ∨ has_capacity s) →
  store_inv (put_receipt r s).
Proof.
  intros Hi Hr Hc. destruct Hi as [H1 H2 H3 H4 H5 H6 H7 H8 H9 H10 H11 H12 H13 H14 H15].
  split; try done; cbn.
  - by apply well_formed_set.
  - by apply (d_all_set (receipt_ok s)).
  - unfold len in *. rewrite length_d_set. case_decide as Hk; [done|].
    destruct Hc as [[x Hx]|Hc]; [exfalso; apply Hk; apply d_get_keys; eauto|].
    unfold has_capacity, len in Hc. lia.
Qed.

Lemma commits_inv now request s outcome s' :
  store_inv s → validate_store_mutation_request request = Ok () →
  commits now (sm_plan request) s outcome s' →
  store_inv s' ∧ ms_effect_receipts s' = ms_effect_receipts s ∧
  ms_queued_inputs s' = ms_queued_inputs s ∧ ms_namespace_id s' = ms_namespace_id s ∧
  ms_max_effect_receipts s' = ms_max_effect_receipts s ∧ ms_lease s' = ms_lease s ∧
  ms_epoch s' = ms_epoch s ∧ ms_closed s' = ms_closed s.
Proof.
  intros Hi Hv. unfold commits.
  assert (plan_route_ok (sm_plan request)) as Hp.
  { intros r Hr. unfold validate_store_mutation_request in Hv. rewrite !seq_ok in Hv.
    destruct_and!. match goal with H : when_some (mp_route_upsert _) _ = _ |- _ =>
      rewrite when_some_ok in H; specialize (H r Hr); rewrite !seq_ok in H; by destruct H end. }
  case_decide; [by intros [_ ->]|].
  destruct (stage_mutation _ _ _ _) as [[value g]|e] eqn:Hst; [|by intros (_ & _ & ->)].
  intros [_ ->].
  apply stage_mutation_inv in Hst as [? ?]; [|apply Hi|apply Hi|done].
  split; [by apply store_inv_published|done].
Qed.

Lemma commits_workflow_inv now target route r created s outcome s' :
  store_inv s → (∀ p, route = Some p → validate_projection_route p = Ok ()) →
  commits_workflow now target route r created s outcome s' →
  store_inv s' ∧ ms_effect_receipts s' = ms_effect_receipts s ∧
  ms_queued_inputs s' = ms_queued_inputs s ∧ ms_namespace_id s' = ms_namespace_id s ∧
  ms_max_effect_receipts s' = ms_max_effect_receipts s ∧ ms_lease s' = ms_lease s ∧
  ms_epoch s' = ms_epoch s ∧ ms_closed s' = ms_closed s.
Proof.
  intros Hi Hp. unfold commits_workflow. case_decide; [by intros [_ ->]|].
  destruct (stage_workflow _ _ _ _ _ _) as [[stored g]|e] eqn:Hst; [|by intros (_ & _ & ->)].
  intros [_ ->].
  destruct (binding_inv_generation (ms_bindings s) (bt_conversation_ref target)) as (Hg & _ & _);
    [apply Hi|].
  apply stage_workflow_inv in Hst as (? & ? & _); [|apply Hi|apply Hi|lia|done].
  split; [by apply store_inv_published|done].
Qed.

Lemma stage_workspaces_ok staged identities staged' :
  well_formed staged → d_all workspace_ok staged →
  for_each identities validate_workspace_identity = Ok () →
  stage_workspaces staged identities = Ok staged' →
  well_formed staged' ∧ d_all workspace_ok staged' ∧
  ∀ k v, d_get staged k = Some v → d_get staged' k = Some v.
Proof.
  rewrite for_each_ok. revert staged. induction identities as [|i l IH]; intros staged Hd Ha Hv;
    cbn [stage_workspaces].
  - by intros [= <-].
  - rewrite then_ok, when_some_ok. apply Forall_cons in Hv as [Hi Hv]. intros [Hc H].
    destruct (IH (d_set staged (wi_project_ref i) (wi_root_fingerprint i))) as (? & ? & Hk);
      [by apply well_formed_set|apply d_all_set; [done|by destruct i]|done|done|].
    split_and!; [done|done|]. intros k v Hkv. apply Hk. rewrite d_get_set.
    case_decide as Heq; [|done]. subst k. specialize (Hc v Hkv).
    by apply raise_if_ok, dec_stable in Hc as ->.
Qed.

Lemma stage_turn_inv pj turn turns' :
  projection_inv pj → (∀ t, turn = Some t → validate_turn_reply_correlation t = Ok ()) →
  stage_turn (pj_turn_correlations pj) turn = Ok turns' → projection_inv (set_turns turns' pj).
Proof.
  intros Hi Hv. unfold stage_turn. destruct turn as [t|]; [|intros [= <-]; by destruct pj].
  destruct (d_get _ _); rewrite then_ok; intros [_ [= <-]]; [by destruct pj|].
  by apply inv_set_turn; auto.
Qed.

Lemma store_step_inv now s s' : store_inv s → store_step now s s' → store_inv s'.
Proof.
  intros Hi. pose proof Hi as [H1 H2 H3 H4 H5 H6 H7 H8 H9 H10 H11 H12 H13 H14 H15]. destruct 1.
  - split; try done; cbn.
    + intros l Hl. destruct (H1 l Hl) as [? _]. congruence.
    + by intros ? [= <-].
    + eapply Forall_impl; [exact H12|]. intros [k r] (_ & Hn & _). cbn in Hn. congruence.
  - split; try done; cbn; [|lia]. intros l Hl. destruct (H1 l Hl) as (? & ? & ?). split_and!; try done. lia.
  - split; try done; cbn. intros ? [= <-]. split_and!; [done|lia|done].
  - split; try done; cbn. intros ? [= <-]. destruct (H1 c) as (? & ? & Hv); [done|].
    split_and!; [done|done|]. unfold validate_runtime_lease in *. rewrite !seq_ok in *. cbn.
    destruct_and!. split_and!; try done. by apply raise_if_ok.
  - by split.
  - split; try done; cbn. by apply run_binding_op_keeps_inv.
  - split; try done; cbn. by apply run_projection_op_keeps_inv.
  - split; try done; cbn. by apply run_idem_op_well_formed.
  - split; try done; cbn. by apply run_rc_op_keeps_inv.
  - split; try done; cbn. by apply run_submission_op_keeps_inv.
  - destruct (stage_workspaces_ok _ _ _ H9 H10 H H0) as (? & ? & _). by split.
  - split; try done; cbn; [eauto with gateway|eauto with gateway|by apply d_all_set|].
    unfold has_capacity, len in *. rewrite length_d_set_absent by done. lia.
  - pose proof (merge_queued_receipt_spec _ _ _ _ _ _ H0) as (_ & _ & Hv & Hm & _ & Ht).
    split; try done; cbn; [by eapply stage_turn_inv|eauto with gateway| |].
    + apply d_all_set; [done|]. split; [|done]. by destruct Hm as [->|(? & _ & ->)].
    + unfold len. by rewrite (length_d_set_present _ _ _ _ H).
  - destruct H as (? & ? & _). apply store_inv_put_receipt; [done|done|by right].
  - match goal with H : commits _ _ _ _ _ |- _ =>
      apply commits_inv in H as (Hi' & Hr & Hq & Hn & Hm & _); [|done|done] end.
    destruct H0 as (Hk & Hns & _). apply store_inv_put_receipt; [done| |right].
    + split_and!; [done|by rewrite Hn|done].
    + unfold has_capacity in *. by rewrite Hr, Hq, Hm.
  - pose proof (d_all_get _ _ _ _ H12 H) as (_ & Hns & _).
    pose proof (receipt_step_identity _ _ H0) as Hid. unfold receipt_identity in Hid.
    injection Hid as Hg _ Hk _ _ _ _ _.
    apply store_inv_put_receipt; [done| |left; rewrite Hk; by eexists].
    split_and!; [done|congruence|done].
  - pose proof (d_all_get _ _ _ _ H12 H) as (_ & Hns & _).
    match goal with H : commits_workflow _ _ _ _ _ _ _ _ |- _ =>
      apply commits_workflow_inv in H as (Hi' & Hr & Hq & Hn & Hm & _); [|done|done] end.
    apply store_inv_put_receipt; [done| |left; cbn; rewrite Hr; by eexists].
    split_and!; [done|cbn; by rewrite Hn|done].
Qed.
