(* ===== verification/StoreRefinement.v ===== *)
(** Every call of the coherent store refines the abstract store of [StoreSpec]:
    a call that returns is a sequence of its steps, a call that raises leaves
    the store alone (an acquisition may have bound the namespace or used an
    epoch).  The refinement of the commits needs the store's clock not to go
    back, which is the hypothesis of the section. *)

From S2P Require Export StoreSpec.
From stdpp Require Import list.
#[local] Open Scope Z_scope.
#[local] Open Scope stdpp_scope.

(** * Validity of the receipts the store makes *)

Lemma gateway_receipt_valid g fp outcome now :
  identifier g → validate_action_fingerprint fp = Ok () → ¬ tz_is_none now →
  (∃ e, outcome = Failed e) ∨ (∃ v, outcome = Succeeded v ∧ validate_effect_value v = Ok ()) →
  validate_effect_receipt (new_receipt g fp GATEWAY PH_TERMINAL None None (Some outcome) now) = Ok ().
Proof.
  intros Hg Hfp Hnow Ho. apply validate_effect_receipt_ok. cbn.
  assert (raise_if_lt now now (ContractViolation "receipt update precedes creation") = Ok ()) as Hlt
    by by apply raise_if_lt_aware.
  destruct fp as [kind key payload]; cbn in *.
  destruct Ho as [[e ->]|(v & -> & Hv)]; split_and!; naive_solver.
Qed.

(** The effect value a staged mutation reports is valid, so that the receipt
    made after the publication cannot be refused. *)
Lemma binding_references_valid b :
  validate_binding b = Ok () →
  (∀ t, cb_thread_ref b = Some t → validate_thread_ref t = Ok ()) ∧
  (∀ p, cb_project_ref b = Some p → validate_project_ref p = Ok ()) ∧
  (∀ a, cb_application_ref b = Some a →
    require_identifier (ar_application_instance_id a) "application_instance_id" = Ok ()).
Proof.
  unfold validate_binding. cbv zeta. rewrite !seq_ok, !when_some_ok.
  intros (_ & _ & _ & Ha & Hp & Ht & _). split_and!.
  - intros t Hbt. specialize (Ht t Hbt). by apply seq_ok in Ht as [? _].
  - intros p Hbp. specialize (Hp p Hbp). by apply seq_ok in Hp as [? _].
  - intros a Hba. specialize (Ha a Hba). by rewrite Hba in Ha.
Qed.

Lemma route_valid_parts r :
  validate_projection_route r = Ok () →
  validate_thread_ref (tr_thread_ref r) = Ok () ∧ identifier (tr_route_id r).
Proof.
  unfold validate_projection_route. rewrite !seq_ok. intros (Hi & Ht & _).
  split; [done|by eapply require_identifier_ok].
Qed.

Lemma stage_mutation_value request bindings pj now value g :
  binding_inv bindings → projection_inv pj → validate_store_mutation_request request = Ok () →
  stage_mutation (sm_plan request) bindings (pj_routes pj) now = Ok (value, g) →
  validate_effect_value value = Ok ().
Proof.
  intros Hb Hp Hreq. unfold validate_store_mutation_request in Hreq. cbv zeta in Hreq.
  rewrite !seq_ok, !when_some_ok in Hreq.
  destruct Hreq as (_ & Hconv & _ & _ & _ & Hup & _ & Hdel & _).
  set (plan := sm_plan request) in *. unfold stage_mutation, _mutation_conversation.
  destruct (binding_inv_generation bindings (mp_conversation_ref plan) Hb) as (Hg & _ & _).
  destruct (_resolve_binding_change _ _) as [[target del] changed] eqn:Hres.
  intros H. apply res_bind_ok in H as (b' & Hb' & H).
  apply res_bind_ok in H as ([route rs] & H & [= <- <-]).
  apply apply_route_plan_inv in H as [_ Hr]; [|done|].
  2: { intros r Hr. specialize (Hup r Hr). by apply seq_ok in Hup as [? _]. }
  unfold validate_effect_value; cbn. rewrite !seq_ok, !when_some_ok. split_and!.
  - intros ref. unfold _binding_or_route_reference.
    assert (∀ x, (λ r, from_value (SV_thread (tr_thread_ref r))) <$> route = Some x →
      validate_stable_reference x = Ok ()) as Hroute.
    { intros x (r & -> & ->)%fmap_Some. apply validate_from_value.
      by apply (route_valid_parts r), Hr. }
    destruct target as [t|]; [|apply Hroute].
    assert (changed = true) as ->.
    { unfold _resolve_binding_change in Hres. destruct (mp_binding_target plan); [congruence|].
      destruct (mp_binding_clear plan) as [[]|]; try destruct (d_get _ _); congruence. }
    apply then_ok in Hb' as [Hv _]. apply binding_references_valid in Hv as (Hth & Hpr & Hap).
    cbn in Hth, Hpr, Hap.
    destruct (bt_thread_ref t); [|destruct (bt_project_ref t); [|destruct (bt_application_ref t)]];
      [intros <-%(inj Some); apply validate_from_value; cbn; by auto..|apply Hroute].
  - done.
  - apply raise_if_ok. destruct changed; lia.
  - intros i Hi. apply require_identifier_ok. destruct route as [r|].
    + injection Hi as <-. by apply (route_valid_parts r), Hr.
    + by eapply require_identifier_ok, Hdel.
Qed.

(** A native or workflow receipt that moves on stays valid if its new outcome
    fits its new phase. *)
Definition outcome_fits (r : EffectReceipt) (phase : EffectPhase) (o : option ActionOutcome) : Prop :=
  match phase with
  | PH_RESERVED => o = None
  | PH_NATIVE_SIDE_EFFECT_STARTED => o = None ∨ is_unknown o = true
  | PH_NATIVE_RESULT_KNOWN => er_category r = WORKFLOW ∧ is_succeeded o = true
  | PH_TERMINAL =>
      is_succeeded o = true ∨ is_failed o = true ∨ (er_category r = WORKFLOW ∧ is_partial o = true)
  end ∧ (∀ v, o ≫= outcome_value = Some v → validate_effect_value v = Ok ()).

Lemma valid_receipt_facts r :
  validate_effect_receipt r = Ok () →
  ¬ tz_is_none (er_created_at r) ∧ ¬ tz_is_none (er_updated_at r) ∧
  dt_us (er_created_at r) ≤ dt_us (er_updated_at r) ∧
  (er_category r = GATEWAY → er_phase r = PH_TERMINAL) ∧
  (er_phase r = PH_RESERVED → er_outcome r = None) ∧
  (∀ v, er_outcome r ≫= outcome_value = Some v → validate_effect_value v = Ok ()).
Proof.
  rewrite validate_effect_receipt_ok.
  intros (_ & _ & _ & _ & Htz & Hlt & Hcat & _ & Hres & _ & _ & _ & Hv & _).
  apply raise_if_lt_ok in Hlt as [Hlt _].
  split_and!; try tauto; [lia| |].
  - intros Hc. rewrite decide_True in Hcat by done. apply dec_stable. tauto.
  - intros Hp. apply eq_None_not_Some. tauto.
Qed.

Lemma advance_receipt_valid r phase o now :
  validate_effect_receipt r = Ok () → er_category r ≠ GATEWAY → ¬ tz_is_none now →
  dt_us (er_created_at r) ≤ dt_us now → outcome_fits r phase o →
  validate_effect_receipt (advance_receipt r phase o now) = Ok ().
Proof.
  intros Hr Hc Hnow Hle [Hfit Hval]. pose proof (valid_receipt_facts _ Hr) as (Hca & _).
  apply validate_effect_receipt_ok in Hr as (H1 & H2 & H3 & H4 & _ & _ & H7 & H8 & _).
  apply validate_effect_receipt_ok. cbn.
  rewrite decide_False in H7 by done. rewrite decide_False by done.
  assert (raise_if_lt now (er_created_at r) (ContractViolation "receipt update precedes creation")
    = Ok ()) as Hlt by by apply raise_if_lt_aware.
  split_and!; try done; [tauto|..]; intros Hx; destruct_and?; subst; cbn in Hfit; try done.
  - match goal with H : is_Some o |- _ => destruct H; congruence end.
  - match goal with H : is_Some o |- _ => destruct H end. destruct Hfit; congruence.
  - destruct Hfit as [Hw Hs]. match goal with H : _ ∨ _ |- _ => destruct H end; congruence.
  - by destruct Hfit as [?|[?|[_ ?]]].
  - match goal with H : _ || _ = false |- _ => apply orb_false_iff in H as [Hs Hf] end.
    destruct Hfit as [?|[?|[Hw _]]]; [congruence..|]. rewrite Hw in *. set_solver.
  - match goal with H : _ || _ || _ = false |- _ =>
      apply orb_false_iff in H as [[Hs Hf]%orb_false_iff Hp] end.
    destruct Hfit as [?|[?|[_ ?]]]; congruence.
Qed.

(** * The calls of the store *)

(** Every method of the store that may write, with the fence of its session. *)
Inductive store_op : Type :=
| Acquire (gateway_id owner_token : pystr) (duration : pyfloat)
| Close
| Renew (fence : RuntimeLease) (duration : pyfloat)
| Release (fence : RuntimeLease)
| OnBindings (fence : RuntimeLease) (put : option ConversationBinding) (c : ConversationRef)
    (expected : option Z)
| OnProjections (fence : RuntimeLease) (op : projection_op)
| OnIdempotency (fence : RuntimeLease) (op : idem_op) (scope key : pystr) (owner : option pystr)
| OnRequests (fence : RuntimeLease) (op : rc_op)
| OnSubmissions (fence : RuntimeLease) (op : submission_op)
| CheckWorkspaces (fence : RuntimeLease) (identities : list WorkspaceIdentity)
| FenceQueued (fence : RuntimeLease) (origin : QueuedInputOrigin) (scope key owner : pystr)
| MergeQueued (fence : RuntimeLease) (origin : QueuedInputOrigin) (receipt : QueuedInputReceipt)
    (turn : option TurnReplyCorrelation)
| PreflightFailure (fence : RuntimeLease) (fp : ActionFingerprint) (error : ActionError)
| CommitMutation (fence : RuntimeLease) (request : StoreMutationRequest)
| ReserveEffect (fence : RuntimeLease) (fp : ActionFingerprint) (category : EffectCategory)
    (native_phase_id : pystr) (conversation_ref : option ConversationRef)
| MarkStarted (fence : RuntimeLease) (fp : ActionFingerprint)
| RecordOutcome (fence : RuntimeLease) (fp : ActionFingerprint) (phase : EffectPhase)
    (outcome : ActionOutcome)
| RecordPreflight (fence : RuntimeLease) (fp : ActionFingerprint) (error : ActionError)
| CommitWorkflow (fence : RuntimeLease) (fp : ActionFingerprint) (target : BindingTarget)
    (route : option ThreadProjectionRoute).

Definition forget {A} (m : M world A) : M world unit := m ;; mret ().

Section refinement.
Context (clock : nat → datetime) (utc_now : nat → Z).

(** [put] and [delete] of a binding inside a store mutation. *)
Definition store_binding_call (put : option ConversationBinding) (c : ConversationRef)
    (expected : option Z) : M world unit :=
  match put with
  | Some b => now ← datetime_now_utc utc_now ; forget (on_bindings (put_binding now b expected))
  | None => on_bindings (delete_binding c expected)
  end.

Definition run_store_op (op : store_op) : M world unit :=
  match op with
  | Acquire g o d => forget (acquire_runtime clock g o d)
  | Close => close_store
  | Renew f d => forget (_renew clock f d)
  | Release f => _release clock f
  | OnBindings f put c e => _mutate clock f (store_binding_call put c e)
  | OnProjections f op => _mutate clock f (on_projections (run_projection_op op))
  | OnIdempotency f op s k o => _mutate clock f (on_idempotency (run_idem_op op s k o))
  | OnRequests f op => _mutate clock f (on_request_correlations (run_rc_op op))
  | OnSubmissions f op => _mutate clock f (on_delivery_submissions (run_submission_op op))
  | CheckWorkspaces f ids => _check_workspace_identities clock f ids
  | FenceQueued f o s k t => forget (_fence_queued_input clock f o s k t)
  | MergeQueued f o r t => forget (_merge_queued_input_receipt clock f o r t)
  | PreflightFailure f fp e => forget (_commit_store_preflight_failure clock f fp e)
  | CommitMutation f r => forget (_commit_store_mutation clock f r)
  | ReserveEffect f fp c n r => forget (_reserve_effect clock f fp c n r)
  | MarkStarted f fp => forget (_mark_native_side_effect_started clock f fp)
  | RecordOutcome f fp p o => forget (_record_effect_outcome clock f fp p o)
  | RecordPreflight f fp e => forget (_record_effect_preflight_failure clock f fp e)
  | CommitWorkflow f fp t r => forget (_commit_workflow_binding clock f fp t r)
  end.

(** ** Symbolic execution of the store's helpers *)

Definition tick (w : world) : world := {| w_store := w_store w; w_ticks := S (w_ticks w) |}.

(** The fence is that of the current, unexpired lease of an open store. *)
Definition fence_holds (fence : RuntimeLease) (s : MemoryGatewayStore) (now : datetime) : Prop :=
  ms_closed s = false ∧ ¬ tz_is_none now ∧
  ∃ l, ms_lease s = Some l ∧ rl_gateway_id l = rl_gateway_id fence ∧
    rl_owner_token l = rl_owner_token fence ∧ rl_epoch l = rl_epoch fence ∧
    dt_leb (rl_expires_at l) now = Ok false.

Lemma wp_sget {A} (f : MemoryGatewayStore → A) (Q : res A → world → Prop) w :
  Q (Ok (f (w_store w))) w → wp (sget f) Q w.
Proof. done. Qed.

Lemma wp_sset f (Q : res unit → world → Prop) w :
  Q (Ok ()) (set_store (f (w_store w)) w) → wp (sset f) Q w.
Proof. done. Qed.

Lemma wp_now (Q : res datetime → world → Prop) w :
  (∀ e, Q (Err e) (tick w)) →
  (¬ tz_is_none (clock (w_ticks w)) → Q (Ok (clock (w_ticks w))) (tick w)) →
  wp (_now_locked clock) Q w.
Proof. intros. unfold _now_locked, read_clock. wp_run; auto. Qed.

Lemma wp_require_open (Q : res unit → world → Prop) w :
  (∀ e, Q (Err e) w) → (ms_closed (w_store w) = false → Q (Ok ()) w) →
  wp _require_open_locked Q w.
Proof.
  intros ? Hok. unfold _require_open_locked, sget. wp_run; [done|]. apply Hok.
  by destruct (ms_closed _).
Qed.

Lemma wp_assert_fence fence (Q : res unit → world → Prop) w :
  (∀ e w', w_store w' = w_store w → (w_ticks w ≤ w_ticks w' ≤ S (w_ticks w))%nat → Q (Err e) w') →
  (fence_holds fence (w_store w) (clock (w_ticks w)) → Q (Ok ()) (tick w)) →
  wp (_assert_fence_locked clock fence) Q w.
Proof.
  intros Herr Hok. unfold _assert_fence_locked. apply wp_bind, wp_require_open; [intros; apply Herr; [done|lia]|].
  intros Hopen. apply wp_bind, wp_sget, wp_bind, wp_now; [intros; apply Herr; [done|cbn; lia]|].
  intros Htz. assert (∀ e, Q (Err e) (tick w)) as He by (intros; apply Herr; [done|cbn; lia]).
  destruct (ms_lease (w_store w)) as [l|] eqn:Hl; [|by apply wp_raise].
  wp_run; try apply He.
  apply Hok. split_and!; [done|done|]. exists l. destruct a; [done|].
  split_and!; try done; apply dec_stable; tauto.
Qed.

Lemma wp_existing fp category (Q : res (option EffectReceipt) → world → Prop) w :
  (∀ e, Q (Err e) w) →
  (d_get (ms_effect_receipts (w_store w)) (af_action_key fp) = None → Q (Ok None) w) →
  (∀ r, d_get (ms_effect_receipts (w_store w)) (af_action_key fp) = Some r →
    er_action_kind r = af_action_kind fp →
    er_payload_fingerprint r = af_payload_fingerprint fp → er_category r = category →
    Q (Ok (Some r)) w) →
  wp (_existing_receipt_locked fp category) Q w.
Proof.
  intros He Hn Hs. unfold _existing_receipt_locked, _check_fingerprint_locked.
  apply wp_bind, wp_sget. destruct (d_get _ _) as [r|] eqn:Hr; [|by apply wp_ret, Hn].
  wp_run; try apply He. match goal with H : raise_if _ _ = Ok _ |- _ => apply raise_if_ok in H end.
  apply Hs; try done; apply dec_stable; tauto.
Qed.

Lemma wp_require_receipt fp (Q : res EffectReceipt → world → Prop) w :
  (∀ e, Q (Err e) w) →
  (∀ r, d_get (ms_effect_receipts (w_store w)) (af_action_key fp) = Some r →
    er_action_kind r = af_action_kind fp →
    er_payload_fingerprint r = af_payload_fingerprint fp → Q (Ok r) w) →
  wp (_require_receipt_locked fp) Q w.
Proof.
  intros He Hs. unfold _require_receipt_locked, _check_fingerprint_locked, sget.
  wp_run; try apply He. match goal with H : raise_if _ _ = Ok _ |- _ => apply raise_if_ok in H end.
  apply Hs; try done; apply dec_stable; tauto.
Qed.

Lemma wp_capacity (Q : res unit → world → Prop) w :
  (∀ e, Q (Err e) w) → (has_capacity (w_store w) → Q (Ok ()) w) →
  wp _reserve_capacity_locked Q w.
Proof.
  intros He Hs. unfold _reserve_capacity_locked, sget. wp_run; [apply He|]. apply Hs.
  unfold has_capacity, id in *. lia.
Qed.

Lemma wp_new_receipt fp category phase np gen outcome now (Q : res EffectReceipt → world → Prop) w :
  (∀ e, (∀ g, ms_namespace_id (w_store w) = Some g →
     validate_effect_receipt (new_receipt g fp category phase np gen outcome now) = Err e) →
     Q (Err e) w) →
  (∀ g, ms_namespace_id (w_store w) = Some g →
    let r := new_receipt g fp category phase np gen outcome now in
    validate_effect_receipt r = Ok () → Q (Ok r) w) →
  wp (_new_receipt_locked fp category phase np gen outcome now) Q w.
Proof.
  intros He Hs. unfold _new_receipt_locked. apply wp_bind, wp_sget.
  destruct (ms_namespace_id (w_store w)) as [g|] eqn:Hg; [|apply wp_raise, He; done].
  apply wp_bind_lift; [intros [] Hv; apply wp_ret; by apply Hs|].
  intros e Hv. apply He. intros ? [= <-]. done.
Qed.
End refinement.

(** * The refinement *)

Section calls_refine.
Context (clock : nat → datetime) (utc_now : nat → Z).
Hypothesis clock_mono : ∀ i j, (i ≤ j)%nat → dt_us (clock i) ≤ dt_us (clock j).

(** No receipt is dated after the readings still to come. *)
Definition receipts_past (w : world) : Prop :=
  d_all (λ _ r, ∀ j, (w_ticks w ≤ j)%nat → dt_us (er_updated_at r) ≤ dt_us (clock j))
    (ms_effect_receipts (w_store w)).

Record world_inv (w : world) : Prop := {
  wi_store : store_inv (w_store w);
  wi_past : receipts_past w;
}.

(** Steps dated by the readings [n] to [n']. *)
Definition dated_step (n n' : nat) (s s' : MemoryGatewayStore) : Prop :=
  ∃ k, (n ≤ k ≤ n')%nat ∧ store_step (clock k) s s'.
Abbreviation steps n n' := (rtc (dated_step n n')).

(** A call that raises writes nothing; one that returns makes steps. *)
Definition refines {A} (w : world) (r : res A) (w' : world) : Prop :=
  (w_ticks w ≤ w_ticks w')%nat ∧
  match r with
  | Err _ => w_store w' = w_store w
  | Ok _ => steps (w_ticks w) (w_ticks w') (w_store w) (w_store w')
  end.

Lemma refines_err {A} w w' e :
  w_store w' = w_store w → (w_ticks w ≤ w_ticks w')%nat → refines (A := A) w (Err e) w'.
Proof. by split. Qed.

Lemma refines_same {A} w w' (a : A) :
  w_store w' = w_store w → (w_ticks w ≤ w_ticks w')%nat → refines w (Ok a) w'.
Proof. intros Hs ?. split; [done|]. rewrite Hs. constructor. Qed.

Lemma refines_one {A} w w' (a : A) k :
  (w_ticks w ≤ k ≤ w_ticks w')%nat → store_step (clock k) (w_store w) (w_store w') →
  refines w (Ok a) w'.
Proof. intros Hk Hs. split; [lia|]. apply rtc_once. by exists k. Qed.

Lemma wp_forget {A} (m : M world A) w : wp m (refines w) w → wp (forget m) (refines w) w.
Proof.
  intros H. apply wp_bind. eapply wp_mono; [exact H|]. intros [a|e] w' [? ?]; [|by split].
  apply wp_ret. by split.
Qed.

Lemma wp_fenced {A} fence (m : M world A) w :
  (fence_holds fence (w_store w) (clock (w_ticks w)) → wp m (refines w) (tick w)) →
  wp (_assert_fence_locked clock fence ;; m) (refines w) w.
Proof.
  intros H. apply wp_bind, wp_assert_fence; [|done]. intros e w' Hs Ht. apply refines_err; [done|lia].
Qed.

(** A call on a repository that refines to one step of the store. *)
Lemma wp_on_repo {R} (view : MemoryGatewayStore → R) upd (m : M R unit) w w0 :
  (∀ s, upd (view s) s = s) → w_store w0 = w_store w → (w_ticks w ≤ w_ticks w0)%nat →
  (∀ e, (m (view (w_store w))).1 = Err e → (m (view (w_store w))).2 = view (w_store w)) →
  store_step (clock (w_ticks w)) (w_store w) (upd (m (view (w_store w))).2 (w_store w)) →
  wp (on_repo view upd m) (refines w) w0.
Proof.
  intros Hid Hs Ht Herr Hstep. unfold on_repo. apply wp_zoom. unfold wp. rewrite Hs.
  destruct (m (view (w_store w))) as [[a|e] t]; cbn in *.
  - apply (refines_one _ _ _ (w_ticks w)); cbn; [lia|done].
  - apply refines_err; [|done]. cbn. by rewrite (Herr e), Hid.
Qed.

Lemma repository_call_refines op w :
  store_inv (w_store w) →
  match op with
  | OnProjections _ _ | OnIdempotency _ _ _ _ _ | OnRequests _ _ | OnSubmissions _ _
  | OnBindings _ _ _ _ => True
  | _ => False
  end →
  wp (run_store_op clock utc_now op) (refines w) w.
Proof.
  intros Hi Hop. destruct op; try done; cbn [run_store_op]; unfold _mutate; apply wp_fenced; intros _.
  - set (s := w_store w). assert (∀ op : binding_op, ∀ e,
      (run_binding_op op (ms_bindings s)).1 = Err e →
      (run_binding_op op (ms_bindings s)).2 = ms_bindings s) as Herr.
    { intros op e He. pose proof (run_binding_op_spec op (ms_bindings s) (st_bindings _ Hi)) as Hs.
      unfold wp in Hs. by rewrite He in Hs. }
    unfold store_binding_call. destruct put as [b|].
    + unfold datetime_now_utc, read_clock. wp_run. unfold forget.
      enough (wp (on_bindings (run_binding_op (PutBinding (Aware (utc_now (S (w_ticks w)))) b expected)))
        (refines w) (tick (tick w))) as Hw.
      { revert Hw. unfold wp, on_bindings, on_repo, zoom, run_binding_op, mbind, M_bind.
        cbn [w_store tick]. by destruct (put_binding _ _ _ _) as [[]?]. }
      apply wp_on_repo; [by intros []|done|cbn; lia|apply Herr|apply ss_bindings].
    + apply (wp_on_repo _ _ (run_binding_op (DeleteBinding c expected)));
        [by intros []|done|cbn; lia|apply Herr|apply ss_bindings].
  - apply wp_on_repo; [by intros []|done|cbn; lia|apply run_projection_op_err|apply ss_projections].
  - apply wp_on_repo; [by intros []|done|cbn; lia|apply run_idem_op_err|apply ss_idempotency].
  - apply wp_on_repo; [by intros []|done|cbn; lia| |apply ss_requests].
    intros e He. eapply run_rc_op_err; [apply Hi|done].
  - apply wp_on_repo; [by intros []|done|cbn; lia|apply run_submission_op_err|apply ss_submissions].
Qed.

(** ** Leases *)

Lemma lease_expiry_aware now d e : lease_expiry now d = Ok e → ¬ tz_is_none now → ¬ tz_is_none e.
Proof. unfold lease_expiry. intros (? & _ & [_ Htz]%dt_add_ok)%res_bind_ok. tauto. Qed.

Lemma with_expiry_fence l fence e :
  rl_gateway_id l = rl_gateway_id fence → rl_owner_token l = rl_owner_token fence →
  rl_epoch l = rl_epoch fence → with_expiry fence e = with_expiry l e.
Proof. unfold with_expiry. by intros -> -> ->. Qed.

Lemma renew_refines fence d w : wp (_renew clock fence d) (refines w) w.
Proof.
  unfold _renew. apply wp_bind_lift; [intros ? _|intros; by apply refines_err].
  apply wp_fenced. intros (_ & _ & l & Hl & Hg & Ho & He & _).
  apply wp_bind, wp_now; [intros; apply refines_err; [done|cbn; lia]|]. intros Htz.
  apply wp_bind_lift; [intros e Hexp|intros; apply refines_err; [done|cbn; lia]].
  apply wp_bind, wp_sset, wp_ret. apply (refines_one _ _ _ (S (w_ticks w))); cbn; [lia|].
  rewrite (with_expiry_fence l) by done. apply ss_extend; [done|by eapply lease_expiry_aware].
Qed.

Lemma release_refines fence w : wp (_release clock fence) (refines w) w.
Proof.
  unfold _release. apply wp_fenced. intros (_ & _ & l & Hl & Hg & Ho & He & _).
  apply wp_bind, wp_now; [intros; apply refines_err; [done|cbn; lia]|]. intros Htz.
  apply wp_sset. apply (refines_one _ _ _ (S (w_ticks w))); cbn; [lia|].
  rewrite (with_expiry_fence l) by done. by apply ss_extend.
Qed.

(** Outside the namespace and the epoch counter the two stores agree. *)
Definition only_identity_changed (s s' : MemoryGatewayStore) : Prop :=
  set_epoch 0 (set_namespace None s') = set_epoch 0 (set_namespace None s).

(** What an acquisition does: steps, whatever its outcome; when it raises,
    only the namespace and the epoch counter may have changed; the lease it
    returns is the store's, and either extends the lease of the same owner
    or has a new epoch. *)
Definition acquires (gateway_id owner_token : pystr) (w : world) (r : res RuntimeLease) (w' : world)
    : Prop :=
  (w_ticks w ≤ w_ticks w')%nat ∧ steps (w_ticks w) (w_ticks w') (w_store w) (w_store w') ∧
  match r with
  | Err _ => only_identity_changed (w_store w) (w_store w')
  | Ok l =>
      ms_lease (w_store w') = Some l ∧ rl_gateway_id l = gateway_id ∧
      rl_owner_token l = owner_token ∧
      (rl_epoch l = ms_epoch (w_store w) + 1 ∧
         (∀ c, ms_lease (w_store w) = Some c → dt_us (rl_expires_at c) ≤ dt_us (clock (w_ticks w)))
       ∨ ∃ c, ms_lease (w_store w) = Some c ∧ rl_owner_token c = owner_token ∧
           rl_epoch l = rl_epoch c)
  end.

Lemma acquire_namespace gateway_id (Q : res unit → world → Prop) w :
  identifier gateway_id →
  (∀ e, Q (Err e) w) →
  (∀ w', w_ticks w' = w_ticks w → ms_namespace_id (w_store w') = Some gateway_id →
     steps (w_ticks w) (w_ticks w) (w_store w) (w_store w') →
     only_identity_changed (w_store w) (w_store w') →
     ms_lease (w_store w') = ms_lease (w_store w) → ms_epoch (w_store w') = ms_epoch (w_store w) →
     Q (Ok ()) w') →
  wp match ms_namespace_id (w_store w) with
     | None => sset (set_namespace (Some gateway_id))
     | Some n => raise_if (n ≠ gateway_id) GatewayNamespaceConflict
     end Q w.
Proof.
  intros Hid He Hok.
  destruct (ms_namespace_id (w_store w)) as [n|] eqn:Hn.
  - wp_run; [apply He|].
    match goal with H : ¬ (n ≠ _) |- _ => apply dec_stable in H as -> end.
    by apply Hok.
  - apply wp_sset, Hok; try done. apply rtc_once. exists (w_ticks w). split; [lia|].
    by apply ss_namespace.
Qed.

Lemma only_identity_changed_epoch s s' e :
  only_identity_changed s s' → only_identity_changed s (set_epoch e s').
Proof. done. Qed.

Lemma validated_lease g o epoch e :
  validate_runtime_lease (Build_RuntimeLease g o epoch e) = Ok () →
  rl_gateway_id (Build_RuntimeLease g o epoch e) = g.
Proof. done. Qed.

Lemma acquire_spec g o d w :
  store_inv (w_store w) → wp (acquire_runtime clock g o d) (acquires g o w) w.
Proof.
  intros Hi. assert (∀ w' e, w_store w' = w_store w → (w_ticks w ≤ w_ticks w')%nat →
    acquires g o w (Err e) w') as Herr0.
  { intros w' e Hs Ht. split_and!; [done| |]; rewrite Hs; [constructor|done]. }
  unfold acquire_runtime.
  apply wp_bind_lift; [intros ? Hg%require_identifier_ok|intros; by apply Herr0].
  apply wp_bind_lift; [intros ? _|intros; by apply Herr0].
  apply wp_bind_lift; [intros ? _|intros; by apply Herr0].
  apply wp_bind, wp_require_open; [intros; by apply Herr0|intros _].
  apply wp_bind, wp_sget, wp_bind, acquire_namespace; [done|intros; by apply Herr0|].
  intros w1 Ht1 Hns Hst Hid Hl He.
  assert (store_inv (w_store w1)) as Hi1.
  { clear -Hi Hst. induction Hst as [|s1 s2 s3 (k & _ & Hs) _ IH]; [done|].
    apply IH. by eapply store_step_inv. }
  apply wp_bind, wp_now.
  { intros e. split_and!; cbn; [lia| |done]. eapply rtc_subrel; [|exact Hst].
    intros x y (k & Hk & Hs). exists k. split; [lia|done]. }
  intros Htz. apply wp_bind, wp_sget. cbn [w_store tick].
  assert (∀ s2 e, only_identity_changed (w_store w) s2 →
    steps (w_ticks w) (S (w_ticks w)) (w_store w) s2 →
    acquires g o w (Err e) (set_store s2 (tick w1))) as Herr1.
  { intros s2 e Hc Hs2. split_and!; cbn; [lia| |done]. by rewrite Ht1. }
  assert (steps (w_ticks w) (S (w_ticks w)) (w_store w) (w_store w1)) as Hst1.
  { eapply rtc_subrel; [|exact Hst]. intros x y (k & Hk & Hs). exists k. split; [lia|done]. }
  assert (tick w1 = set_store (w_store w1) (tick w1)) as Htick by done.
  assert (∀ e, acquires g o w (Err e) (tick w1)) as Herr2
    by (intros; rewrite Htick; by apply Herr1).
  apply wp_bind_lift; [intros unexp Hunexp|intros; by apply Herr2].
  set (now := clock (w_ticks w1)) in *.
  assert (∀ c, ms_lease (w_store w1) = Some c → unexp = false →
    dt_us (rl_expires_at c) ≤ dt_us now) as Hexpired.
  { intros c Hc ->. rewrite Hc in Hunexp. destruct (st_lease _ Hi1 c Hc) as (_ & _ & Hv).
    unfold dt_ltb in Hunexp. destruct now, (rl_expires_at c); simplify_eq/=.
    - case_bool_decide; [done|lia].
    - case_bool_decide; [done|lia]. }
  assert (∀ l s2, steps (w_ticks w) (S (w_ticks w)) (w_store w) s2 →
    only_identity_changed (w_store w) s2 →
    (validate_runtime_lease l = Ok () → store_step now s2 (set_lease (Some l) s2)) →
    rl_gateway_id l = g → rl_owner_token l = o →
    (rl_epoch l = ms_epoch (w_store w) + 1 ∧
       (∀ c, ms_lease (w_store w) = Some c → dt_us (rl_expires_at c) ≤ dt_us (clock (w_ticks w)))
     ∨ ∃ c, ms_lease (w_store w) = Some c ∧ rl_owner_token c = o ∧ rl_epoch l = rl_epoch c) →
    wp (lift (validate_runtime_lease l) ;; sset (set_lease (Some l)) ;; mret l)
      (acquires g o w) (set_store s2 (tick w1))) as Hfin.
  { intros l s2 Hs2 Hc2 Hstep Hlg Hlo Hle.
    apply wp_bind_lift; [intros [] Hv|intros; by apply Herr1].
    apply wp_bind, wp_sset, wp_ret. split_and!; cbn; [lia| |done|done|done|done].
    rewrite Ht1. eapply rtc_r; [exact Hs2|]. exists (w_ticks w1). split; [lia|]. by apply Hstep. }
  set (taken := λ s2 : MemoryGatewayStore, set_epoch (ms_epoch s2 + 1) s2).
  assert (unexp = false ∨ ms_lease (w_store w1) = None →
    wp (sset (λ s, set_epoch (ms_epoch s + 1) s) ;;
        epoch ← sget ms_epoch ;
        expires_at ← lift (lease_expiry now d) ;
        mret (Build_RuntimeLease g o epoch expires_at))
      (λ r w', match r with
               | Ok l => wp (lift (validate_runtime_lease l) ;; sset (set_lease (Some l)) ;; mret l)
                           (acquires g o w) w'
               | Err e => acquires g o w (Err e) w'
               end) (tick w1)) as Htake.
  { intros Hfree. apply wp_bind, wp_sset, wp_bind, wp_sget.
    assert (steps (w_ticks w) (S (w_ticks w)) (w_store w) (taken (w_store w1))) as Hst2.
    { eapply rtc_r; [exact Hst1|]. exists (w_ticks w). split; [lia|]. apply ss_epoch. }
    apply wp_bind_lift; [intros e Hexp|intros e _; by apply (Herr1 (taken (w_store w1)))].
    apply wp_ret. apply (Hfin _ (taken (w_store w1))); [done|done| |done|done|].
    - intros Hv. apply ss_takeover; [done|done| |done]. cbn. intros c Hc.
      destruct (st_lease _ Hi1 c Hc) as (_ & Hle & _). split; [lia|].
      destruct Hfree as [Hf|Hn]; [by apply Hexpired|congruence].
    - left. cbn. rewrite He. split; [done|]. rewrite <- Hl, <- Ht1. intros c Hc.
      destruct Hfree as [Hf|Hn]; [by apply Hexpired|congruence]. }
  apply wp_bind. destruct (ms_lease (w_store w1)) as [c|] eqn:Hc; [|apply Htake; by right].
  destruct unexp; [|apply Htake; by left].
  apply wp_bind, wp_raise_if; [intros _; apply Herr2|]. intros Ho%dec_stable.
  apply wp_bind_lift; [intros e Hexp|intros; by apply Herr2]. apply wp_ret.
  rewrite Htick. apply (Hfin _ (w_store w1)); [done|done| |done|done|].
  - intros Hv. destruct (st_lease _ Hi1 c Hc) as (Hcn & _ & _).
    assert (Build_RuntimeLease g o (rl_epoch c) e = with_expiry c e) as ->.
    { unfold with_expiry. f_equal; congruence. }
    apply ss_extend; [done|by eapply lease_expiry_aware].
  - right. exists c. rewrite <- Hl. done.
Qed.

(** ** Workspaces and queued inputs *)

Lemma check_workspaces_refines fence ids w :
  wp (_check_workspace_identities clock fence ids) (refines w) w.
Proof.
  unfold _check_workspace_identities. apply wp_bind_lift; [intros [] Hv|intros; by apply refines_err].
  apply wp_fenced. intros _. apply wp_bind, wp_sget.
  apply wp_bind_lift; [intros staged Hs|intros; apply refines_err; [done|cbn; lia]].
  apply wp_sset. apply (refines_one _ _ _ (w_ticks w)); cbn; [lia|]. by eapply ss_workspaces.
Qed.

Lemma fence_queued_refines fence origin scope key owner w :
  wp (_fence_queued_input clock fence origin scope key owner) (refines w) w.
Proof.
  unfold _fence_queued_input.
  apply wp_bind_lift; [intros [] Ho|intros; by apply refines_err].
  apply wp_bind_lift; [intros [] _|intros; by apply refines_err].
  apply wp_bind, wp_raise_if; [intros; by apply refines_err|]. intros Hid%dec_stable.
  apply wp_fenced. intros _.
  assert (∀ e n, (w_ticks w ≤ n)%nat →
    refines (A := QueuedInputCorrelation) w (Err e) {| w_store := w_store w; w_ticks := n |}) as Herr
    by (intros; by apply refines_err).
  apply wp_bind, wp_sget. cbn [w_store tick id].
  apply wp_bind, wp_raise_if; [intros; apply Herr; lia|]. intros Hq.
  apply wp_bind, wp_raise_if; [intros; apply Herr; lia|]. intros Hcl%dec_stable.
  apply wp_bind. destruct (d_get (br_bindings _) _) as [b|]; [|apply wp_raise, Herr; lia].
  apply wp_raise_if; [intros; apply Herr; lia|]. intros Hb.
  apply wp_bind, wp_capacity; [intros; apply Herr; lia|]. intros Hcap.
  apply wp_bind, wp_now; [intros; apply Herr; cbn; lia|]. intros Htz.
  apply wp_bind_lift; [intros [] Hv|intros; apply Herr; cbn; lia].
  apply wp_bind, wp_sset, wp_bind, wp_sset, wp_ret.
  apply (refines_one _ _ _ (S (w_ticks w))); cbn; [lia|].
  set (c := {| qc_origin := origin; qc_receipt := None; qc_created_at := _; qc_updated_at := _ |}) in *.
  apply (ss_fence_queued _ _ c); [|done|done|done|done|done].
  by apply eq_None_not_Some.
Qed.

Lemma merge_queued_refines fence origin receipt turn w :
  store_inv (w_store w) →
  wp (_merge_queued_input_receipt clock fence origin receipt turn) (refines w) w.
Proof.
  intros Hi. unfold _merge_queued_input_receipt.
  apply wp_bind_lift; [intros [] Ho|intros; by apply refines_err].
  apply wp_fenced. intros _. apply wp_bind, wp_sget. cbn [w_store tick].
  destruct (d_get (ms_queued_inputs (w_store w)) _) as [current|] eqn:Hc;
    [|apply wp_raise, refines_err; [done|cbn; lia]].
  apply wp_bind, wp_now; [intros; apply refines_err; [done|cbn; lia]|]. intros Htz.
  apply wp_bind_lift; [intros merged Hm|intros; apply refines_err; [done|cbn; lia]].
  apply wp_bind, wp_sget.
  apply wp_bind_lift; [intros turns' Ht|intros; apply refines_err; [done|cbn; lia]].
  apply wp_bind, wp_sset, wp_bind, wp_sset, wp_ret.
  apply (refines_one _ _ _ (S (w_ticks w))); cbn; [lia|].
  pose proof (merge_queued_receipt_spec _ _ _ _ _ _ Hm) as (<- & _).
  by eapply (ss_merge_queued _ _ current).
Qed.

(** ** Effect receipts *)

Lemma receipts_at_key w key r :
  store_inv (w_store w) → d_get (ms_effect_receipts (w_store w)) key = Some r →
  er_action_key r = key ∧ validate_effect_receipt r = Ok ().
Proof. intros Hi Hg. by apply (d_all_get _ _ _ _ (st_receipts _ Hi)) in Hg as (-> & _ & ?). Qed.

Lemma wp_store_receipt r (Q : res unit → world → Prop) w :
  Q (Ok ()) (set_store (put_receipt r (w_store w)) w) → wp (store_receipt r) Q w.
Proof. done. Qed.

Lemma fresh_new_receipt g fp category phase np gen outcome now s :
  d_get (ms_effect_receipts s) (af_action_key fp) = None → ms_namespace_id s = Some g →
  phase = PH_RESERVED ∨ category = GATEWAY →
  fresh_receipt now s (new_receipt g fp category phase np gen outcome now).
Proof. intros. by split_and!. Qed.

Lemma preflight_failure_refines fence fp error w :
  wp (_commit_store_preflight_failure clock fence fp error) (refines w) w.
Proof.
  unfold _commit_store_preflight_failure.
  apply wp_bind_lift; [intros [] _|intros; by apply refines_err].
  apply wp_fenced. intros _.
  apply wp_bind, wp_existing; [intros; apply refines_err; [done|cbn; lia]| |].
  2: { intros r _ _ _ _. apply wp_ret, refines_same; [done|cbn; lia]. }
  intros Hn. apply wp_bind, wp_capacity; [intros; apply refines_err; [done|cbn; lia]|]. intros Hc.
  apply wp_bind, wp_now; [intros; apply refines_err; [done|cbn; lia]|]. intros Htz.
  apply wp_bind, wp_new_receipt; [intros; apply refines_err; [done|cbn; lia]|].
  intros g Hg r Hv. apply wp_bind, wp_store_receipt, wp_ret.
  apply (refines_one _ _ _ (S (w_ticks w))); cbn; [lia|].
  apply ss_new_receipt; [|done|done]. apply fresh_new_receipt; auto.
Qed.

Lemma reserve_effect_refines fence fp category np conversation w :
  wp (_reserve_effect clock fence fp category np conversation) (refines w) w.
Proof.
  unfold _reserve_effect.
  apply wp_bind_lift; [intros [] _|intros; by apply refines_err].
  apply wp_bind_lift; [intros [] _|intros; by apply refines_err].
  apply wp_bind, wp_raise_if; [intros; by apply refines_err|]. intros _.
  apply wp_fenced. intros _.
  apply wp_bind, wp_existing; [intros; apply refines_err; [done|cbn; lia]| |].
  2: { intros r _ _ _ _. apply wp_bind, wp_raise_if; [intros; apply refines_err; [done|cbn; lia]|].
       intros _. apply wp_ret, refines_same; [done|cbn; lia]. }
  intros Hn. apply wp_bind, wp_capacity; [intros; apply refines_err; [done|cbn; lia]|]. intros Hc.
  apply wp_bind, wp_sget. cbv zeta.
  apply wp_bind, wp_now; [intros; apply refines_err; [done|cbn; lia]|]. intros Htz.
  apply wp_bind, wp_new_receipt; [intros; apply refines_err; [done|cbn; lia]|].
  intros g Hg r Hv. apply wp_bind, wp_store_receipt, wp_ret.
  apply (refines_one _ _ _ (S (w_ticks w))); cbn; [lia|].
  apply ss_new_receipt; [|done|done]. apply fresh_new_receipt; auto.
Qed.

Lemma mark_started_refines fence fp w :
  world_inv w → wp (_mark_native_side_effect_started clock fence fp) (refines w) w.
Proof.
  intros [Hi Hpast]. unfold _mark_native_side_effect_started. apply wp_fenced. intros _.
  apply wp_bind, wp_require_receipt; [intros; apply refines_err; [done|cbn; lia]|].
  intros r Hr _ _. cbn [w_store tick] in Hr. apply wp_if; [intros _; apply wp_ret, refines_same; [done|cbn; lia]|].
  intros Hph%dec_stable.
  apply wp_bind, wp_now; [intros; apply refines_err; [done|cbn; lia]|]. intros Htz.
  apply wp_bind, wp_store_receipt, wp_ret.
  apply (refines_one _ _ _ (S (w_ticks w))); cbn; [lia|].
  destruct (receipts_at_key w _ r Hi Hr) as [Hk Hv].
  destruct (valid_receipt_facts _ Hv) as (_ & _ & Hle & Hgw & Hres & _).
  eapply (ss_advance _ _ r); [by rewrite Hk|by apply rs_start|done|].
  apply advance_receipt_valid; [done|intros Hg; specialize (Hgw Hg); congruence|done| |].
  - pose proof (d_all_get _ _ _ _ Hpast Hr (S (w_ticks w))). cbn in *. lia.
  - rewrite (Hres Hph). split; [by left|done].
Qed.

Lemma record_outcome_refines fence fp phase outcome w :
  store_inv (w_store w) →
  wp (_record_effect_outcome clock fence fp phase outcome) (refines w) w.
Proof.
  intros Hi. unfold _record_effect_outcome.
  apply wp_bind, wp_raise_if; [intros; by apply refines_err|]. intros Hphase%dec_stable.
  apply wp_bind, wp_raise_if; [intros; by apply refines_err|]. intros Hunk.
  apply wp_fenced. intros _.
  apply wp_bind, wp_require_receipt; [intros; apply refines_err; [done|cbn; lia]|].
  intros r Hr _ _. cbn [w_store tick] in Hr.
  assert (∀ e, refines (A := EffectReceipt) w (Err e) (tick w)) as Herr
    by (intros; apply refines_err; [done|cbn; lia]).
  apply wp_if; [intros _; apply wp_ret, refines_same; [done|cbn; lia]|]. intros Hterm.
  apply wp_bind, wp_raise_if; [intros; apply Herr|]. intros Hres.
  apply wp_bind, wp_raise_if; [intros; apply Herr|]. intros Hknown.
  apply wp_bind, wp_raise_if; [intros; apply Herr|]. intros Hk.
  apply wp_bind, wp_raise_if; [intros; apply Herr|]. intros Hwf.
  apply wp_bind, wp_now; [intros; apply refines_err; [done|cbn; lia]|]. intros Htz.
  apply wp_bind_lift; [intros [] Hv|intros; apply refines_err; [done|cbn; lia]].
  apply wp_bind, wp_store_receipt, wp_ret.
  apply (refines_one _ _ _ (S (w_ticks w))); cbn; [lia|].
  destruct (receipts_at_key w _ r Hi Hr) as [Hkey _].
  eapply (ss_advance _ _ r); [by rewrite Hkey| |done|done].
  assert (er_phase r = PH_NATIVE_SIDE_EFFECT_STARTED) as Hst by (destruct (er_phase r); done).
  destruct phase; [set_solver| | |].
  - destruct outcome as [| | |e]; try (exfalso; by apply Hunk). by apply rs_unknown.
  - destruct outcome as [v| | |]; try (exfalso; apply Hknown; split; [done|by right]).
    apply rs_result_known; [done|]. apply dec_stable. intros Hc. apply Hknown. split; [done|by left].
  - apply rs_terminal; [done|]. intros Hc. destruct (is_succeeded (Some outcome)) eqn:Hs; [|done].
    exfalso. by apply Hwf.
Qed.

Lemma record_preflight_refines fence fp error w :
  store_inv (w_store w) →
  wp (_record_effect_preflight_failure clock fence fp error) (refines w) w.
Proof.
  intros Hi. unfold _record_effect_preflight_failure. apply wp_fenced. intros _.
  apply wp_bind, wp_require_receipt; [intros; apply refines_err; [done|cbn; lia]|].
  intros r Hr _ _. cbn [w_store tick] in Hr.
  apply wp_if; [intros _; apply wp_ret, refines_same; [done|cbn; lia]|]. intros Hph%dec_stable.
  apply wp_bind, wp_now; [intros; apply refines_err; [done|cbn; lia]|]. intros Htz.
  apply wp_bind_lift; [intros [] Hv|intros; apply refines_err; [done|cbn; lia]].
  apply wp_bind, wp_store_receipt, wp_ret.
  apply (refines_one _ _ _ (S (w_ticks w))); cbn; [lia|].
  destruct (receipts_at_key w _ r Hi Hr) as [Hkey _].
  eapply (ss_advance _ _ r); [by rewrite Hkey|by apply rs_preflight_failed|done|done].
Qed.

(** ** The two atomic commits *)

Lemma commit_mutation_refines fence request w :
  store_inv (w_store w) → wp (_commit_store_mutation clock fence request) (refines w) w.
Proof.
  intros Hi. unfold _commit_store_mutation.
  apply wp_bind_lift; [intros [] Hreq|intros; by apply refines_err].
  apply wp_fenced. intros (_ & _ & l & Hl & _).
  destruct (st_lease _ Hi l Hl) as (Hns & _ & _). pose proof (st_namespace _ Hi _ Hns) as Hgid.
  assert (validate_action_fingerprint (sm_fingerprint request) = Ok ()) as Hfp.
  { unfold validate_store_mutation_request in Hreq. by apply seq_ok in Hreq as [? _]. }
  apply wp_bind, wp_existing; [intros; apply refines_err; [done|cbn; lia]| |].
  2: { intros r _ _ _ _. apply wp_ret, refines_same; [done|cbn; lia]. }
  intros Hn. apply wp_bind, wp_capacity; [intros; apply refines_err; [done|cbn; lia]|]. intros Hc.
  apply wp_bind, wp_now; [intros; apply refines_err; [done|cbn; lia]|]. intros Htz.
  apply wp_bind, wp_sget. cbn [w_store tick id w_ticks] in *. set (now := clock (S (w_ticks w))) in *.
  assert (∀ outcome s', commits now (sm_plan request) (w_store w) outcome s' →
    ms_namespace_id s' = Some (rl_gateway_id l) →
    ((∃ e, outcome = Failed e) ∨ ∃ v, outcome = Succeeded v ∧ validate_effect_value v = Ok ()) →
    wp (receipt ← _new_receipt_locked (sm_fingerprint request) GATEWAY PH_TERMINAL None None
          (Some outcome) now ;
        store_receipt receipt ;;
        mret receipt) (refines w) (set_store s' (tick (tick w)))) as Hfin.
  { intros outcome s' Hcm Hs' Ho. apply wp_bind, wp_new_receipt.
    - intros e He. specialize (He _ Hs'). by rewrite gateway_receipt_valid in He.
    - intros g Hg r Hv. cbn in Hg. assert (g = rl_gateway_id l) as -> by congruence.
      apply wp_bind, wp_store_receipt, wp_ret.
      apply (refines_one _ _ _ (S (w_ticks w))); cbn; [lia|].
      eapply (ss_commit _ _ request r); [done| |done|done|done|done|done].
      apply fresh_new_receipt; auto. }
  apply wp_bind. unfold _mutation_conversation.
  apply wp_if; intros Hstale.
  - apply wp_ret. apply (Hfin _ (w_store w)); [|done|left; by eexists].
    unfold commits. by rewrite decide_True.
  - destruct (stage_mutation _ _ _ _) as [[value g]|e] eqn:Hst.
    + unfold publish. apply wp_bind, wp_sset, wp_ret.
      apply (Hfin _ (published g (w_store w))); [|done|].
      * unfold commits. rewrite decide_False by done. by rewrite Hst.
      * right. exists value. split; [done|].
        eapply stage_mutation_value; [apply Hi|apply Hi|done|done].
    + destruct (is_route_conflict e) eqn:Hconf.
      * apply wp_ret, (Hfin _ (w_store w)); [|done|left; by eexists].
        unfold commits. rewrite decide_False by done. by rewrite Hst.
      * apply wp_raise, refines_err; [done|cbn; lia].
Qed.

Lemma commit_workflow_refines fence fp target route w :
  world_inv w → wp (_commit_workflow_binding clock fence fp target route) (refines w) w.
Proof.
  intros [Hi Hpast]. unfold _commit_workflow_binding.
  apply wp_bind_lift; [intros [] Htarget|intros; by apply refines_err].
  apply wp_bind_lift; [intros [] Hroute|intros; by apply refines_err].
  assert (∀ p, route = Some p → validate_projection_route p = Ok ()) as Hrv.
  { intros p Hp. rewrite when_some_ok in Hroute. specialize (Hroute p Hp).
    by apply seq_ok in Hroute as [? _]. }
  apply wp_fenced. intros _.
  apply wp_bind, wp_require_receipt; [intros; apply refines_err; [done|cbn; lia]|].
  intros r Hr _ _. cbn [w_store tick] in Hr.
  apply wp_bind, wp_raise_if; [intros; apply refines_err; [done|cbn; lia]|]. intros Hcat%dec_stable.
  apply wp_if; [intros _; apply wp_ret, refines_same; [done|cbn; lia]|]. intros Hterm.
  destruct (er_phase r) eqn:Hph; try (apply wp_raise, refines_err; [done|cbn; lia]).
  destruct (er_outcome r) as [[created| | |]|] eqn:Hout;
    try (apply wp_raise, refines_err; [done|cbn; lia]).
  apply wp_bind, wp_sget. cbv zeta.
  apply wp_bind, wp_now; [intros; apply refines_err; [done|cbn; lia]|]. intros Htz.
  cbn [w_store tick id w_ticks] in *. set (now := clock (S (w_ticks w))) in *.
  destruct (receipts_at_key w _ r Hi Hr) as [Hkey Hv].
  destruct (valid_receipt_facts _ Hv) as (_ & _ & Hle & _ & _ & Hval).
  assert (validate_effect_value created = Ok ()) as Hcreated by (apply Hval; by rewrite Hout).
  assert (∀ outcome s', commits_workflow now target route r created (w_store w) outcome s' →
    (∃ e, outcome = Partial created e) ∨
      (∃ v, outcome = Succeeded v ∧ validate_effect_value v = Ok ()) →
    wp (lift (validate_effect_receipt (advance_receipt r PH_TERMINAL (Some outcome) now)) ;;
        store_receipt (advance_receipt r PH_TERMINAL (Some outcome) now) ;;
        mret (advance_receipt r PH_TERMINAL (Some outcome) now))
      (refines w) (set_store s' (tick (tick w)))) as Hfin.
  { intros outcome s' Hcm Ho.
    assert (validate_effect_receipt (advance_receipt r PH_TERMINAL (Some outcome) now) = Ok ()) as Hva.
    { apply advance_receipt_valid; [done|congruence|done| |].
      - pose proof (d_all_get _ _ _ _ Hpast Hr (S (w_ticks w)) ltac:(lia)) as Hp. cbn in Hp.
        fold now in Hp. lia.
      - destruct Ho as [[e ->]|(v & -> & Hvv)]; (split; [cbn; tauto|]); intros x [= <-]; done. }
    rewrite Hva. apply wp_bind_lift; [intros [] _|done].
    apply wp_bind, wp_store_receipt, wp_ret.
    apply (refines_one _ _ _ (S (w_ticks w))); cbn; [lia|].
    eapply ss_workflow; [by rewrite Hkey|done|done|done|exact Hrv|exact Hcm|done]. }
  apply wp_bind. apply wp_if; intros Hstale.
  - apply wp_ret. apply (Hfin _ (w_store w)); [|left; by eexists].
    unfold commits_workflow. by rewrite decide_True.
  - destruct (stage_workflow _ _ _ _ _ _) as [[stored g]|e] eqn:Hst.
    + unfold publish. apply wp_bind, wp_sset, wp_ret.
      apply (Hfin _ (published g (w_store w))).
      { unfold commits_workflow. rewrite decide_False by done. by rewrite Hst. }
      right. eexists. split; [done|].
      destruct (binding_inv_generation (ms_bindings (w_store w)) (bt_conversation_ref target))
        as (Hg & _ & _); [apply Hi|].
      apply stage_workflow_inv in Hst as (_ & _ & Hsr); [|apply Hi|apply Hi|lia|done].
      unfold validate_effect_value in *. cbn. rewrite !seq_ok, !when_some_ok in *.
      destruct Hcreated as (Href & _ & _ & _). split_and!; [done| | |].
      * unfold validate_binding_target in Htarget. by apply seq_ok in Htarget as [? _].
      * apply raise_if_ok. lia.
      * intros i (rt & -> & ->)%fmap_Some. apply require_identifier_ok.
        by apply (route_valid_parts rt), Hsr.
    + destruct (is_route_conflict e) eqn:Hconf.
      * apply wp_ret, (Hfin _ (w_store w)); [|left; by eexists].
        unfold commits_workflow. rewrite decide_False by done. by rewrite Hst.
      * apply wp_raise, refines_err; [done|cbn; lia].
Qed.
End calls_refine.
