(* ===== verification/StoreTheorems.v ===== *)
(** The lemmas behind the guarantees of the coherent store, over any sequence of
    its calls by any number of sessions: what a step may do to receipts, leases,
    workspaces and queued inputs, lifted to calls and to runs, and what the
    success of a call says about the store it ran on.  [StoreProperties] states
    the guarantees. *)

From S2P Require Export StoreRefinement.
From stdpp Require Import list.
#[local] Open Scope Z_scope.
#[local] Open Scope stdpp_scope.

(** * How a step changes the parts of the store *)

(** Receipts are added for new actions and moved along their lifecycle. *)
Definition receipts_evolve (now : datetime) (s s' : MemoryGatewayStore) : Prop :=
  (∀ key r, d_get (ms_effect_receipts s) key = Some r →
     ∃ r', d_get (ms_effect_receipts s') key = Some r' ∧ (r' = r ∨ receipt_step r r' ∧ er_updated_at r' = now)) ∧
  (∀ key r', d_get (ms_effect_receipts s') key = Some r' →
     is_Some (d_get (ms_effect_receipts s) key) ∨
     er_updated_at r' = now ∧ (er_phase r' = PH_RESERVED ∨ er_phase r' = PH_TERMINAL)).

Lemma receipts_evolve_same now s s' :
  ms_effect_receipts s' = ms_effect_receipts s → receipts_evolve now s s'.
Proof. intros Heq. split; rewrite Heq; [by eauto|]. intros key r' H. left. by eexists. Qed.

Lemma receipts_evolve_new now s r s' :
  fresh_receipt now s r → validate_effect_receipt r = Ok () →
  ms_effect_receipts s' = ms_effect_receipts s → receipts_evolve now s (put_receipt r s').
Proof.
  intros (Hn & _ & _ & Hu & Hp) Hv Heq. unfold put_receipt, set_effect_receipts; cbn. rewrite Heq. split.
  - intros key r0 Hr. exists r0. cbn. rewrite d_get_set_ne; [by auto|congruence].
  - intros key r'. cbn. rewrite d_get_set. case_decide; [|left; by eexists].
    intros [= <-]. right. split; [done|]. destruct Hp as [?|Hg]; [by left|right].
    by apply (valid_receipt_facts r Hv).
Qed.

Lemma receipts_evolve_advance now s s' r r' :
  d_get (ms_effect_receipts s) (er_action_key r) = Some r → receipt_step r r' →
  er_updated_at r' = now →
  ms_effect_receipts s' = ms_effect_receipts s → receipts_evolve now s (put_receipt r' s').
Proof.
  intros Hr Hs Hu Heq. assert (er_action_key r' = er_action_key r) as Hk.
  { pose proof (receipt_step_identity _ _ Hs) as Hid. unfold receipt_identity in Hid. congruence. }
  unfold put_receipt, set_effect_receipts; cbn. rewrite Heq, Hk. split.
  - intros key r0 Hr0. cbn. rewrite d_get_set. case_decide as Hc; [|by eauto]. subst key.
    assert (r0 = r) as -> by congruence. eauto.
  - intros key r0. cbn. rewrite d_get_set. case_decide as Hc; [|left; by eexists]. subst key.
    left. by eexists.
Qed.

Lemma store_step_receipts now s s' : store_inv s → store_step now s s' → receipts_evolve now s s'.
Proof.
  intros Hi Hs. destruct Hs; try by apply receipts_evolve_same.
  - by apply receipts_evolve_new.
  - apply receipts_evolve_new; [done|done|]. by eapply commits_inv.
  - by eapply receipts_evolve_advance.
  - eapply receipts_evolve_advance; [done| |done|by eapply commits_workflow_inv].
    eapply rs_workflow; [done..|].
    match goal with H : commits_workflow _ _ _ _ _ _ _ _ |- _ => revert H end.
    unfold commits_workflow. case_decide; [intros [-> _]; by eauto|].
    destruct (stage_workflow _ _ _ _ _ _) as [[]|]; [intros [-> _]; by left|].
    intros (_ & -> & _). eauto.
Qed.

(** The lease changes hands only through the epoch. *)
Definition lease_evolves (s s' : MemoryGatewayStore) : Prop :=
  ms_epoch s ≤ ms_epoch s' ∧
  ∀ c, ms_lease s = Some c → ∃ c', ms_lease s' = Some c' ∧
    (rl_epoch c < rl_epoch c' ∨
     rl_epoch c' = rl_epoch c ∧ rl_owner_token c' = rl_owner_token c ∧
     rl_gateway_id c' = rl_gateway_id c).

#[export] Instance lease_evolves_preorder : PreOrder lease_evolves.
Proof.
  split.
  - intros s. split; [done|]. intros c Hc. exists c. auto.
  - intros s1 s2 s3 [He12 Hl12] [He23 Hl23]. split; [lia|]. intros c Hc.
    destruct (Hl12 c Hc) as (c2 & Hc2 & H12). destruct (Hl23 c2 Hc2) as (c3 & Hc3 & H23).
    exists c3. split; [done|]. destruct H12 as [?|(?&?&?)], H23 as [?|(?&?&?)];
      [left; lia|left; lia|left; lia|right; split_and!; congruence].
Qed.

Lemma lease_evolves_same s s' :
  ms_lease s' = ms_lease s → ms_epoch s' = ms_epoch s → lease_evolves s s'.
Proof. intros Hl He. split; [by rewrite He|]. intros c Hc. exists c. rewrite Hl. auto. Qed.

Lemma store_step_lease now s s' : store_inv s → store_step now s s' → lease_evolves s s'.
Proof.
  intros Hi Hs. destruct Hs; try by apply lease_evolves_same.
  - split; cbn; [lia|]. intros c Hc. exists c. auto.
  - split; [done|]. cbn. intros c Hc. exists l. split; [done|]. left. by apply H1.
  - split; [done|]. cbn. intros c0 Hc. exists (with_expiry c expires_at). split; [done|].
    right. assert (c0 = c) as -> by congruence. done.
  - match goal with H : commits _ _ _ _ _ |- _ =>
      apply commits_inv in H as (_ & _ & _ & _ & _ & Hl & He & _); [|done|done] end.
    by apply lease_evolves_same.
  - match goal with H : commits_workflow _ _ _ _ _ _ _ _ |- _ =>
      apply commits_workflow_inv in H as (_ & _ & _ & _ & _ & Hl & He & _); [|done|done] end.
    by apply lease_evolves_same.
Qed.

(** What is written once and never again: the fingerprint of a workspace, the
    origin of a queued input. *)
Definition records_stay (s s' : MemoryGatewayStore) : Prop :=
  (∀ p v, d_get (ms_workspace_identities s) p = Some v →
     d_get (ms_workspace_identities s') p = Some v) ∧
  (∀ k c, d_get (ms_queued_inputs s) k = Some c →
     ∃ c', d_get (ms_queued_inputs s') k = Some c' ∧ qc_origin c' = qc_origin c).

#[export] Instance records_stay_preorder : PreOrder records_stay.
Proof.
  split; [intros s; split; by eauto|]. intros s1 s2 s3 [Hw12 Hq12] [Hw23 Hq23]. split; [by auto|].
  intros k c Hc. destruct (Hq12 k c Hc) as (c2 & Hc2 & Ho). destruct (Hq23 k c2 Hc2) as (c3 & ? & ?).
  exists c3. split; [done|congruence].
Qed.

Lemma records_stay_same s s' :
  ms_workspace_identities s' = ms_workspace_identities s → ms_queued_inputs s' = ms_queued_inputs s →
  records_stay s s'.
Proof. intros Hw Hq. split; rewrite ?Hw, ?Hq; by eauto. Qed.

Lemma commits_records now plan s outcome s' :
  commits now plan s outcome s' →
  ms_workspace_identities s' = ms_workspace_identities s ∧ ms_queued_inputs s' = ms_queued_inputs s.
Proof.
  unfold commits. case_decide; [by intros [_ ->]|].
  destruct (stage_mutation _ _ _ _) as [[]|]; [by intros [_ ->]|by intros (_ & _ & ->)].
Qed.

Lemma commits_workflow_records now target route r created s outcome s' :
  commits_workflow now target route r created s outcome s' →
  ms_workspace_identities s' = ms_workspace_identities s ∧ ms_queued_inputs s' = ms_queued_inputs s.
Proof.
  unfold commits_workflow. case_decide; [by intros [_ ->]|].
  destruct (stage_workflow _ _ _ _ _ _) as [[]|]; [by intros [_ ->]|by intros (_ & _ & ->)].
Qed.

Lemma store_step_records now s s' : store_inv s → store_step now s s' → records_stay s s'.
Proof.
  intros Hi Hs. destruct Hs; try by apply records_stay_same.
  - split; [|by eauto]. cbn.
    by eapply stage_workspaces_ok; [apply Hi|apply Hi|..].
  - split; [done|]. cbn. intros k c0 Hk. exists c0. rewrite d_get_set_ne; [done|congruence].
  - split; [done|]. cbn. intros k c0 Hk.
    match goal with H : _merge_queued_receipt _ _ _ _ _ = _ |- _ =>
      apply merge_queued_receipt_spec in H as (_ & _ & _ & Hm & _) end.
    rewrite d_get_set. case_decide as Heq; [|by eauto]. subst k. exists merged. split; [done|].
    assert (c0 = current) as -> by congruence. by destruct Hm as [->|(? & _ & ->)].
  - match goal with H : commits _ _ _ _ _ |- _ => apply commits_records in H as [??] end.
    by apply records_stay_same.
  - match goal with H : commits_workflow _ _ _ _ _ _ _ _ |- _ =>
      apply commits_workflow_records in H as [??] end.
    by apply records_stay_same.
Qed.

(** * Any number of calls *)

Lemma forget_world {A} (m : M world A) w : (forget m w).2 = (m w).2.
Proof. unfold forget, mbind, M_bind. by destruct (m w) as [[?|?] ?]. Qed.

Lemma forget_ok {A} (m : M world A) w : is_ok (forget m w).1 = is_ok (m w).1.
Proof. unfold forget, mbind, M_bind. by destruct (m w) as [[?|?] ?]. Qed.

Section theorems.
Context (clock : nat → datetime) (utc_now : nat → Z).
Hypothesis clock_mono : ∀ i j, (i ≤ j)%nat → dt_us (clock i) ≤ dt_us (clock j).
Abbreviation run := (run_store_op clock utc_now).
Abbreviation inv := (world_inv clock).

Definition is_acquire (op : store_op) : bool :=
  match op with Acquire _ _ _ => true | _ => false end.

Lemma op_refines op w :
  inv w → is_acquire op = false → wp (run op) (refines clock w) w.
Proof.
  intros [Hi Hp] Hop. assert (inv w) as Hw by done. destruct op; try done; cbn [run_store_op].
  - apply (refines_one clock _ _ _ (w_ticks w)); [cbn; lia|apply ss_close].
  - apply wp_forget, renew_refines.
  - apply release_refines.
  - by apply (repository_call_refines clock utc_now (OnBindings fence put c expected)).
  - by apply (repository_call_refines clock utc_now (OnProjections fence op)).
  - by apply (repository_call_refines clock utc_now (OnIdempotency fence op scope key owner)).
  - by apply (repository_call_refines clock utc_now (OnRequests fence op)).
  - by apply (repository_call_refines clock utc_now (OnSubmissions fence op)).
  - apply check_workspaces_refines.
  - apply wp_forget, fence_queued_refines.
  - by apply wp_forget, merge_queued_refines.
  - apply wp_forget, preflight_failure_refines.
  - by apply wp_forget, commit_mutation_refines.
  - apply wp_forget, reserve_effect_refines.
  - by apply wp_forget, mark_started_refines.
  - by apply wp_forget, record_outcome_refines.
  - by apply wp_forget, record_preflight_refines.
  - by apply wp_forget, commit_workflow_refines.
Qed.

Lemma op_steps op w :
  inv w →
  (w_ticks w ≤ w_ticks (run op w).2)%nat ∧
  rtc (dated_step clock (w_ticks w) (w_ticks (run op w).2)) (w_store w) (w_store (run op w).2).
Proof.
  intros Hw. destruct (is_acquire op) eqn:Hop.
  - destruct op; try done. cbn [run_store_op].
    enough (wp (forget (acquire_runtime clock gateway_id owner_token duration)) (λ _ w',
      (w_ticks w ≤ w_ticks w')%nat ∧
      rtc (dated_step clock (w_ticks w) (w_ticks w')) (w_store w) (w_store w')) w) as H by exact H.
    apply wp_bind. eapply wp_mono; [apply (acquire_spec clock gateway_id owner_token duration), Hw|].
    intros [l|e] w' (Ht & Hs & _); [apply wp_ret|]; done.
  - pose proof (op_refines op w Hw Hop) as [Ht H]. split; [done|].
    destruct (run op w) as [[?|?] w']; cbn in *; [done|]. rewrite H. constructor.
Qed.

Lemma steps_keep_inv n n' s s' :
  (n ≤ n')%nat → store_inv s →
  d_all (λ _ r, ∀ j, (n' ≤ j)%nat → dt_us (er_updated_at r) ≤ dt_us (clock j)) (ms_effect_receipts s) →
  rtc (dated_step clock n n') s s' →
  store_inv s' ∧
  d_all (λ _ r, ∀ j, (n' ≤ j)%nat → dt_us (er_updated_at r) ≤ dt_us (clock j)) (ms_effect_receipts s').
Proof.
  intros Hn. induction 3 as [|s1 s2 s3 (k & Hk & Hs) _ IH]; [done|].
  apply IH; [by eapply store_step_inv|].
  apply d_all_lookup; [apply (store_step_inv _ _ _ H Hs)|].
  intros key r Hr j Hj. destruct (store_step_receipts _ _ _ H Hs) as [Hold Hnew].
  destruct (Hnew key r Hr) as [[r0 Hr0]|[-> _]]; [|apply clock_mono; lia].
  destruct (Hold key r0 Hr0) as (r' & Hr' & [Heq|[_ Hu]]).
  - assert (r = r0) as -> by congruence. by apply (d_all_get _ _ _ _ H0 Hr0).
  - assert (r = r') as -> by congruence. rewrite Hu. apply clock_mono. lia.
Qed.

Lemma op_keeps_inv op w : inv w → inv (run op w).2.
Proof.
  intros Hw. destruct (op_steps op w Hw) as [Ht Hs]. destruct Hw as [Hi Hp].
  destruct (steps_keep_inv _ _ (w_store w) (w_store (run op w).2) Ht) as [Hi' Hp']; [done| |done|by split].
  eapply Forall_impl; [exact Hp|]. intros [k r] H j Hj. apply H. lia.
Qed.

Definition world_step (w w' : world) : Prop := ∃ op, w' = (run op w).2.

Lemma reachable_inv w w' : inv w → rtc world_step w w' → inv w'.
Proof. intros Hi. induction 1 as [|w1 w2 w3 [op ->] _ IH]; [done|]. by apply IH, op_keeps_inv. Qed.

Lemma new_world_inv receipts records submissions s ticks :
  new_memory_store receipts records submissions = Ok s → inv {| w_store := s; w_ticks := ticks |}.
Proof.
  unfold new_memory_store. rewrite then_ok, for_each_ok, !Forall_cons, !raise_if_ok.
  intros ((Hr & _ & _ & _) & (i & Hidem & (sub & Hsub & [= <-])%res_bind_ok)%res_bind_ok).
  apply then_ok in Hidem as [_ [= <-]]. apply then_ok in Hsub as [Hsub%raise_if_ok [= <-]].
  split; [|constructor].
  split; cbn; try done; try (split; cbn);
    try apply well_formed_nil; try apply d_all_nil; try (unfold len; cbn; lia);
    intros ??; set_solver.
Qed.

(** ** Leases and receipts over any number of calls *)

Lemma steps_lease n n' s s' : store_inv s → rtc (dated_step clock n n') s s' → lease_evolves s s'.
Proof.
  intros Hi H. revert Hi. induction H as [|s1 s2 s3 (k & _ & Hs) _ IH]; intros Hi; [done|].
  etrans; [by eapply store_step_lease|]. apply IH. by eapply store_step_inv.
Qed.

Lemma reachable_lease w w' : inv w → rtc world_step w w' → lease_evolves (w_store w) (w_store w').
Proof.
  intros Hi H. revert Hi. induction H as [|w1 w2 w3 [op ->] _ IH]; intros Hi; [done|].
  etrans; [|by apply IH, op_keeps_inv]. eapply steps_lease; [apply Hi|]. by apply (op_steps op w1).
Qed.

Lemma steps_records n n' s s' : store_inv s → rtc (dated_step clock n n') s s' → records_stay s s'.
Proof.
  intros Hi H. revert Hi. induction H as [|s1 s2 s3 (k & _ & Hs) _ IH]; intros Hi; [done|].
  etrans; [by eapply store_step_records|]. apply IH. by eapply store_step_inv.
Qed.

Lemma steps_receipt n n' s s' key r :
  store_inv s → rtc (dated_step clock n n') s s' → d_get (ms_effect_receipts s) key = Some r →
  ∃ r', d_get (ms_effect_receipts s') key = Some r' ∧ rtc receipt_step r r'.
Proof.
  intros Hi H. revert Hi r. induction H as [|s1 s2 s3 (k & _ & Hs) _ IH]; intros Hi r Hr; [by eauto using rtc_refl|].
  destruct (store_step_receipts _ _ _ Hi Hs) as [Hold _].
  destruct (Hold key r Hr) as (r2 & Hr2 & Hstep).
  destruct (IH (store_step_inv _ _ _ Hi Hs) r2 Hr2) as (r3 & Hr3 & H23). exists r3. split; [done|].
  destruct Hstep as [->|[Hstep _]]; [done|]. by eapply rtc_l.
Qed.

Lemma reachable_receipt w w' key r :
  inv w → rtc world_step w w' → d_get (ms_effect_receipts (w_store w)) key = Some r →
  ∃ r', d_get (ms_effect_receipts (w_store w')) key = Some r' ∧ rtc receipt_step r r'.
Proof.
  intros Hi H. revert Hi r. induction H as [|w1 w2 w3 [op ->] _ IH]; intros Hi r Hr; [by eauto using rtc_refl|].
  destruct (op_steps op w1 Hi) as [_ Hs].
  destruct (steps_receipt _ _ _ _ _ _ (wi_store _ _ Hi) Hs Hr) as (r2 & Hr2 & H12).
  destruct (IH (op_keeps_inv _ _ Hi) r2 Hr2) as (r3 & Hr3 & H23). exists r3. split; [done|].
  by etrans.
Qed.

Definition phase_rank (p : EffectPhase) : Z :=
  match p with
  | PH_RESERVED => 0 | PH_NATIVE_SIDE_EFFECT_STARTED => 1
  | PH_NATIVE_RESULT_KNOWN => 2 | PH_TERMINAL => 3
  end.

Lemma receipt_steps_forward r r' :
  rtc receipt_step r r' →
  receipt_identity r' = receipt_identity r ∧ phase_rank (er_phase r) ≤ phase_rank (er_phase r') ∧
  (er_phase r = PH_TERMINAL → r' = r).
Proof.
  induction 1 as [|r1 r2 r3 Hs _ (Hid & Hle & Ht)]; [done|].
  pose proof (receipt_step_identity _ _ Hs) as Hid12. split_and!; [congruence| |].
  - etrans; [|exact Hle]. destruct Hs; cbn; match goal with H : er_phase _ = _ |- _ => rewrite H end; cbn; lia.
  - intros Hp. exfalso. by eapply terminal_has_no_step.
Qed.

(** ** Calls that carry a fence *)

Definition fence_of (op : store_op) : option RuntimeLease :=
  match op with
  | Acquire _ _ _ | Close => None
  | Renew f _ | Release f | OnBindings f _ _ _ | OnProjections f _ | OnIdempotency f _ _ _ _
  | OnRequests f _ | OnSubmissions f _ | CheckWorkspaces f _ | FenceQueued f _ _ _ _
  | MergeQueued f _ _ _ | PreflightFailure f _ _ | CommitMutation f _ | ReserveEffect f _ _ _ _
  | MarkStarted f _ | RecordOutcome f _ _ _ | RecordPreflight f _ _ | CommitWorkflow f _ _ _ => Some f
  end.

(** The postcondition "a success means the fence held when the call began". *)
Definition needs_fence {A} (f : RuntimeLease) (w : world) (r : res A) (_ : world) : Prop :=
  is_ok r = true → fence_holds f (w_store w) (clock (w_ticks w)).

Lemma needs_fence_fenced {A} f (m : M world A) w :
  wp (_assert_fence_locked clock f ;; m) (needs_fence f w) w.
Proof.
  apply wp_bind, wp_assert_fence; [done|]. intros Hf. unfold wp, needs_fence. done.
Qed.

Lemma needs_fence_lift {A B} f (r : res B) (m : B → M world A) w :
  (∀ b, wp (m b) (needs_fence f w) w) → wp (lift r ≫= m) (needs_fence f w) w.
Proof. intros Hm. apply wp_bind_lift; [intros; apply Hm|done]. Qed.

Lemma needs_fence_raise {A} f P `{Decision P} e (m : unit → M world A) w :
  wp (m ()) (needs_fence f w) w → wp (raise_if P e ≫= m) (needs_fence f w) w.
Proof. intros Hm. apply wp_bind, wp_raise_if; [done|done]. Qed.

Lemma needs_fence_forget {A} f (m : M world A) w :
  wp m (needs_fence f w) w → wp (forget m) (needs_fence f w) w.
Proof.
  intros Hm. apply wp_bind. eapply wp_mono; [exact Hm|]. intros [a|e] w' H; [|done].
  apply wp_ret. intros _. by apply H.
Qed.

Lemma needs_fence_release f w : wp (_release clock f) (needs_fence f w) w.
Proof. apply needs_fence_fenced. Qed.

Lemma op_needs_fence op f w : fence_of op = Some f → wp (run op) (needs_fence f w) w.
Proof.
  destruct op; try done; intros [= ->]; cbn [run_store_op]; try apply needs_fence_forget;
    repeat first [apply needs_fence_fenced | apply needs_fence_lift; intros ?
                 | apply needs_fence_raise].
Qed.

Lemma reachable_records w w' : inv w → rtc world_step w w' → records_stay (w_store w) (w_store w').
Proof.
  intros Hi H. revert Hi. induction H as [|w1 w2 w3 [op ->] _ IH]; intros Hi; [done|].
  etrans; [|by apply IH, op_keeps_inv]. destruct (op_steps op w1 Hi) as [_ Hs].
  eapply steps_records; [apply Hi|exact Hs].
Qed.

(** ** What the success of a call says *)

(** A call that returned is a call of the store, so what follows it is reachable. *)
Lemma call_keeps_inv {A} (m : M world A) op w r w' :
  (∀ w, (run op w).2 = (m w).2) → inv w → m w = (r, w') → inv w'.
Proof. intros Hop Hi Hm. apply (op_keeps_inv op) in Hi. by rewrite Hop, Hm in Hi. Qed.

(** The start of a native side effect. *)
Lemma mark_started_spec fence fp w :
  inv w →
  wp (_mark_native_side_effect_started clock fence fp) (λ r w',
    ∀ receipt started, r = Ok (receipt, started) →
      d_get (ms_effect_receipts (w_store w')) (af_action_key fp) = Some receipt ∧
      (started = true → er_phase receipt = PH_NATIVE_SIDE_EFFECT_STARTED ∧
         ∃ r0, d_get (ms_effect_receipts (w_store w)) (af_action_key fp) = Some r0 ∧
               er_phase r0 = PH_RESERVED)) w.
Proof.
  intros Hi. unfold _mark_native_side_effect_started.
  apply wp_bind, wp_assert_fence; [done|]. intros _.
  apply wp_bind, wp_require_receipt; [done|]. intros r Hr _ _. cbn [w_store tick] in Hr.
  apply wp_if; intros Hp.
  - apply wp_ret. by intros ? ? [= <- <-].
  - apply wp_bind, wp_now; [done|]. intros _. apply wp_bind, wp_store_receipt, wp_ret.
    intros ? ? [= <- <-]. cbn.
    destruct (receipts_at_key w _ r (wi_store _ _ Hi) Hr) as [Hk _].
    rewrite Hk, d_get_set_eq. split; [done|]. intros _. split; [done|].
    exists r. split; [done|by apply dec_stable].
Qed.

(** What a commit of a mutation that returned [receipt] has done: nothing, if
    the receipt was there, or what [commits] says and the receipt. *)
Definition commit_report (request : StoreMutationRequest) (w : world) (receipt : EffectReceipt)
    (w' : world) : Prop :=
  er_action_key receipt = af_action_key (sm_fingerprint request) ∧
  er_category receipt = GATEWAY ∧ er_phase receipt = PH_TERMINAL ∧
  (d_get (ms_effect_receipts (w_store w)) (er_action_key receipt) = Some receipt ∧
     w_store w' = w_store w ∨
   d_get (ms_effect_receipts (w_store w)) (er_action_key receipt) = None ∧
     ∃ outcome s', er_outcome receipt = Some outcome ∧
       commits (clock (S (w_ticks w))) (sm_plan request) (w_store w) outcome s' ∧
       w_store w' = put_receipt receipt s').

Lemma commit_mutation_spec fence request w :
  inv w →
  wp (_commit_store_mutation clock fence request) (λ r w', ∀ receipt, r = Ok receipt →
    commit_report request w receipt w') w.
Proof.
  intros Hi. unfold _commit_store_mutation.
  apply wp_bind_lift; [intros [] _|done]. apply wp_bind, wp_assert_fence; [done|]. intros _.
  apply wp_bind, wp_existing; [done| |].
  2: { intros r Hr _ _ Hc. cbn [w_store tick] in Hr. apply wp_ret. intros ? [= <-].
       destruct (receipts_at_key w _ r (wi_store _ _ Hi) Hr) as [Hk Hv].
       destruct (valid_receipt_facts _ Hv) as (_ & _ & _ & Hg & _).
       split_and!; [done|done|by apply Hg|left; by rewrite Hk]. }
  intros Hn. apply wp_bind, wp_capacity; [done|]. intros _.
  apply wp_bind, wp_now; [done|]. intros _. apply wp_bind, wp_sget. cbn [w_store tick id w_ticks] in *.
  assert (∀ outcome s',
    commits (clock (S (w_ticks w))) (sm_plan request) (w_store w) outcome s' →
    wp (receipt ← _new_receipt_locked (sm_fingerprint request) GATEWAY PH_TERMINAL None None
          (Some outcome) (clock (S (w_ticks w))) ;
        store_receipt receipt ;;
        mret receipt) (λ r w', ∀ receipt, r = Ok receipt → commit_report request w receipt w')
      (set_store s' (tick (tick w)))) as Hfin.
  { intros outcome s' Hcm. apply wp_bind, wp_new_receipt; [done|]. intros g _ r _.
    apply wp_bind, wp_store_receipt, wp_ret. intros ? [= <-]. split_and!; [done..|].
    right. split; [done|]. exists outcome, s'. done. }
  apply wp_bind. unfold _mutation_conversation. apply wp_if; intros Hstale.
  - apply wp_ret, (Hfin _ (w_store w)). unfold commits. by rewrite decide_True.
  - destruct (stage_mutation _ _ _ _) as [[value g]|e] eqn:Hst.
    + unfold publish. apply wp_bind, wp_sset, wp_ret, (Hfin _ (published g (w_store w))).
      unfold commits. rewrite decide_False by done. by rewrite Hst.
    + destruct (is_route_conflict e) eqn:Hconf; [|done].
      apply wp_ret, (Hfin _ (w_store w)). unfold commits. rewrite decide_False by done. by rewrite Hst.
Qed.

(** The binding commit of a workflow, likewise. *)
Definition workflow_report (fp : ActionFingerprint) (target : BindingTarget)
    (route : option ThreadProjectionRoute) (w : world) (receipt : EffectReceipt) (w' : world) : Prop :=
  er_action_key receipt = af_action_key fp ∧ er_category receipt = WORKFLOW ∧
  er_phase receipt = PH_TERMINAL ∧
  (d_get (ms_effect_receipts (w_store w)) (er_action_key receipt) = Some receipt ∧
     w_store w' = w_store w ∨
   (∀ p, route = Some p → tr_conversation_ref p = bt_conversation_ref target) ∧
   ∃ r created outcome s',
     d_get (ms_effect_receipts (w_store w)) (er_action_key receipt) = Some r ∧
     er_phase r = PH_NATIVE_RESULT_KNOWN ∧ er_outcome r = Some (Succeeded created) ∧
     receipt = advance_receipt r PH_TERMINAL (Some outcome) (clock (S (w_ticks w))) ∧
     commits_workflow (clock (S (w_ticks w))) target route r created (w_store w) outcome s' ∧
     w_store w' = put_receipt receipt s').

Lemma commit_workflow_spec fence fp target route w :
  inv w →
  wp (_commit_workflow_binding clock fence fp target route) (λ r w', ∀ receipt, r = Ok receipt →
    workflow_report fp target route w receipt w') w.
Proof.
  intros Hi. unfold _commit_workflow_binding.
  apply wp_bind_lift; [intros [] _|done]. apply wp_bind_lift; [intros [] Hroute|done].
  assert (∀ p, route = Some p → tr_conversation_ref p = bt_conversation_ref target) as Hrc.
  { intros p Hp. rewrite when_some_ok in Hroute. specialize (Hroute p Hp).
    by apply seq_ok in Hroute as [_ ?%raise_if_ok%dec_stable]. }
  apply wp_bind, wp_assert_fence; [done|]. intros _.
  apply wp_bind, wp_require_receipt; [done|]. intros r Hr _ _. cbn [w_store tick] in Hr.
  destruct (receipts_at_key w _ r (wi_store _ _ Hi) Hr) as [Hk _].
  apply wp_bind, wp_raise_if; [done|]. intros Hcat%dec_stable.
  apply wp_if; intros Hterm.
  { apply wp_ret. intros ? [= <-]. split_and!; [done..|left; by rewrite Hk]. }
  destruct (er_phase r) eqn:Hph; try done.
  destruct (er_outcome r) as [[created| | |]|] eqn:Hout; try done.
  apply wp_bind, wp_sget. cbv zeta. apply wp_bind, wp_now; [done|]. intros _.
  cbn [w_store tick id w_ticks] in *. set (now := clock (S (w_ticks w))) in *.
  assert (∀ outcome s', commits_workflow now target route r created (w_store w) outcome s' →
    wp (lift (validate_effect_receipt (advance_receipt r PH_TERMINAL (Some outcome) now)) ;;
        store_receipt (advance_receipt r PH_TERMINAL (Some outcome) now) ;;
        mret (advance_receipt r PH_TERMINAL (Some outcome) now))
      (λ r w', ∀ receipt, r = Ok receipt → workflow_report fp target route w receipt w')
      (set_store s' (tick (tick w)))) as Hfin.
  { intros outcome s' Hcm. apply wp_bind_lift; [intros [] _|done].
    apply wp_bind, wp_store_receipt, wp_ret. intros ? [= <-]. split_and!; [done..|right].
    split; [done|]. exists r, created, outcome, s'. cbn. by rewrite Hk. }
  apply wp_bind. apply wp_if; intros Hstale.
  - apply wp_ret, (Hfin _ (w_store w)). unfold commits_workflow. by rewrite decide_True.
  - destruct (stage_workflow _ _ _ _ _ _) as [[stored g]|e] eqn:Hst.
    + unfold publish. apply wp_bind, wp_sset, wp_ret, (Hfin _ (published g (w_store w))).
      unfold commits_workflow. rewrite decide_False by done. by rewrite Hst.
    + destruct (is_route_conflict e) eqn:Hconf; [|done].
      apply wp_ret, (Hfin _ (w_store w)). unfold commits_workflow.
      rewrite decide_False by done. by rewrite Hst.
Qed.

(** The fence of a queued input. *)
Lemma fence_queued_spec fence origin scope key owner w :
  wp (_fence_queued_input clock fence origin scope key owner) (λ r w', ∀ record, r = Ok record →
    let k := (qo_conversation_ref origin, qo_message_id origin) in
    qc_origin record = origin ∧
    (scope, key) = _inbound_idempotency_identity (qo_conversation_ref origin) (qo_message_id origin) ∧
    d_get (ms_queued_inputs (w_store w)) k = None ∧
    d_get (ir_records (ms_idempotency (w_store w))) (scope, key) = Some (InFlight, Some owner) ∧
    (∃ b, d_get (br_bindings (ms_bindings (w_store w))) (qo_conversation_ref origin) = Some b ∧
          cb_thread_ref b = Some (qo_thread_ref origin) ∧
          cb_generation b = qo_binding_generation origin) ∧
    d_get (ms_queued_inputs (w_store w')) k = Some record ∧
    d_get (ir_records (ms_idempotency (w_store w'))) (scope, key)
      = Some (SideEffectStarted, Some owner)) w.
Proof.
  unfold _fence_queued_input.
  apply wp_bind_lift; [intros [] _|done]. apply wp_bind_lift; [intros [] _|done].
  apply wp_bind, wp_raise_if; [done|]. intros Hid%dec_stable.
  apply wp_bind, wp_assert_fence; [done|]. intros _. apply wp_bind, wp_sget. cbn [w_store tick id].
  apply wp_bind, wp_raise_if; [done|]. intros Hq%eq_None_not_Some.
  apply wp_bind, wp_raise_if; [done|]. intros Hcl%dec_stable.
  apply wp_bind. destruct (d_get (br_bindings _) _) as [b|] eqn:Hb; [|done].
  apply wp_raise_if; [done|]. intros Hbind.
  apply wp_bind, wp_capacity; [done|]. intros _. apply wp_bind, wp_now; [done|]. intros _.
  apply wp_bind_lift; [intros [] _|done].
  apply wp_bind, wp_sset, wp_bind, wp_sset, wp_ret. intros ? [= <-]. cbn.
  rewrite !d_get_set_eq. split_and!; try done.
  exists b. split; [done|]. split; apply dec_stable; tauto.
Qed.
End theorems.
