(* ===== verification/StoreExamples.v ===== *)
(** Concrete stores for the applications of the theorems on the coherent store: a
    clock, a new store, a lease, requests, and runs of calls from them. *)

From S2P Require Export StoreTheorems Identities.
From stdpp Require Import list.
#[local] Open Scope Z_scope.
#[local] Open Scope stdpp_scope.

Module Examples.
(** A clock that advances by a second a reading. *)
Definition clock (n : nat) : datetime := Aware (1000000 * Z.of_nat n).
Definition utc_now (n : nat) : Z := 1000000 * Z.of_nat n.
Lemma clock_mono i j : (i ≤ j)%nat → dt_us (clock i) ≤ dt_us (clock j).
Proof. unfold clock. cbn. lia. Qed.

Abbreviation run := (run_store_op clock utc_now).
Definition run_all (ops : list store_op) (w : world) : world := fold_left (λ w op, (run op w).2) ops w.

Lemma run_all_reaches ops w : rtc (world_step clock utc_now) w (run_all ops w).
Proof.
  revert w. induction ops as [|op ops IH]; intros w; [constructor|].
  eapply rtc_l; [by exists op|apply IH].
Qed.

Definition empty_store : MemoryGatewayStore := {|
  ms_max_effect_receipts := 10; ms_namespace_id := None; ms_lease := None; ms_epoch := 0;
  ms_closed := false; ms_bindings := new_binding_repository;
  ms_projections := new_projection_repository;
  ms_idempotency := {| ir_max_records := 10; ir_records := [] |};
  ms_request_correlations := [];
  ms_delivery_submissions := {| sb_max_records := 10; sb_records := [] |};
  ms_workspace_identities := []; ms_effect_receipts := []; ms_queued_inputs := [] |}.
Definition empty_world : world := {| w_store := empty_store; w_ticks := 0 |}.
Lemma new_is_empty : new_memory_store 10 10 10 = Ok empty_store.
Proof. reflexivity. Qed.

Lemma empty_inv : world_inv clock empty_world.
Proof. by apply (new_world_inv clock clock_mono 10 10 10). Qed.
Lemma run_all_inv ops : world_inv clock (run_all ops empty_world).
Proof. eapply (reachable_inv clock utc_now clock_mono); [apply empty_inv|apply run_all_reaches]. Qed.

Definition hex (n : nat) : pystr := repeat (nth n (py "0123456789abcdef") 0%N) 64.
Definition action (n : nat) : ActionFingerprint := {|
  af_action_kind := py "act"; af_action_key := hex n; af_payload_fingerprint := hex 0 |}.
Definition gateway := py "gw".
Definition owner := py "worker".
Definition lease : RuntimeLease := Build_RuntimeLease gateway owner 1 (Aware 3600000000).
Definition acquire := Acquire gateway owner (seconds 3600).
Definition target : BindingTarget := {|
  bt_conversation_ref := example_conversation;
  bt_application_ref := Some {| ar_application_instance_id := py "app" |};
  bt_project_ref := Some (th_project_ref example_thread);
  bt_thread_ref := Some example_thread |}.
Definition bind_request (n : nat) (expected : option Z) : StoreMutationRequest := {|
  sm_fingerprint := action n;
  sm_plan := {|
    mp_conversation_ref := example_conversation; mp_binding_target := Some target;
    mp_binding_clear := None; mp_route_upsert := None; mp_route_delete_id := None;
    mp_route_delete_condition := None; mp_expected_generation := expected |} |}.
Definition created : EffectValue := {|
  ev_reference := Some (from_value (SV_thread example_thread)); ev_conversation_ref := None;
  ev_binding_generation := None; ev_route_id := None |}.
(** A workflow whose native result is known. *)
Definition workflow_ops (n : nat) : list store_op := [
  ReserveEffect lease (action n) WORKFLOW (py "create") (Some example_conversation);
  MarkStarted lease (action n);
  RecordOutcome lease (action n) PH_NATIVE_RESULT_KNOWN (Succeeded created)].

Definition origin : QueuedInputOrigin := {|
  qo_conversation_ref := example_conversation; qo_message_id := py "m1";
  qo_actor_fingerprint := hex 1; qo_thread_ref := example_thread; qo_binding_generation := 1;
  qo_client_message_id := py "client"; qo_input_fingerprint := hex 2;
  qo_continuation := QUEUE |}.

Definition leased : world := Eval vm_compute in run_all [acquire] empty_world.
End Examples.
