(* ===== verification/StoreProperties.v ===== *)
(** What the coherent store guarantees to its clients, over any sequence of its
    calls by any number of sessions: the invariant, all-or-nothing calls, the
    lifecycle and finality of receipts, the at-most-once start of a native side
    effect, fencing by epoch and the exclusivity of an epoch, the behaviour of
    the two atomic commits and of the queued-input fence.  The hypotheses common
    to the section are that the store's clock does not go back and that the run
    starts in a store that [world_inv] describes, such as a new one. *)

From S2P Require Export StoreExamples.
From stdpp Require Import list.
#[local] Open Scope Z_scope.
#[local] Open Scope stdpp_scope.

(** * The effect of a staged mutation *)

Definition changes_binding (plan : StoreMutationPlan) : Prop :=
  is_Some (mp_binding_target plan) ∨ is_Some (mp_binding_clear plan).
#[export] Instance changes_binding_dec plan : Decision (changes_binding plan).
Proof. apply _. Defined.

(** Outside the Conversation [c] nothing differs, and the generation of [c] has
    advanced by [delta]. *)
Record touches_only (c : ConversationRef) (delta : Z)
    (bindings bindings' : BindingRepository) (routes routes' : route_dict) : Prop := {
  to_generation : current_generation bindings' c = current_generation bindings c + delta;
  to_bindings : ∀ c', c' ≠ c →
    d_get (br_bindings bindings') c' = d_get (br_bindings bindings) c' ∧
    current_generation bindings' c' = current_generation bindings c';
  to_routes : ∀ key, key.2 ≠ c → d_get routes' key = d_get routes key;
}.

Lemma upsert_route_other routes candidate r stored routes' c key :
  upsert_route routes candidate r = Ok (stored, routes') → tr_conversation_ref r = c → key.2 ≠ c →
  d_get routes' key = d_get routes key.
Proof.
  unfold upsert_route. intros ([] & _ & (? & _ & [= <- <-])%res_bind_ok)%res_bind_ok <- Hk.
  rewrite d_get_set_ne; [done|]. intros <-. by apply Hk.
Qed.

Lemma route_plan_other pj plan binding now route routes' key :
  projection_inv pj →
  (∀ r, mp_route_upsert plan = Some r → tr_conversation_ref r = mp_conversation_ref plan) →
  _apply_route_plan (pj_routes pj) plan binding now = Ok (route, routes') →
  key.2 ≠ mp_conversation_ref plan → d_get routes' key = d_get (pj_routes pj) key.
Proof.
  unfold _apply_route_plan. intros Hi Hup H Hk.
  destruct (mp_route_upsert plan) as [r|]; [|destruct (mp_route_delete_id plan) as [i|]; [|by injection H as <- <-]].
  - apply res_bind_ok in H as ([stored rs] & H & [= <- <-]).
    eapply (upsert_route_other _ _ _ _ _ (mp_conversation_ref plan)); [exact H|exact (Hup r eq_refl)|done].
  - destruct (find_route i (pj_routes pj)) as [[k r]|] eqn:Hf; [|by injection H as <- <-].
    apply then_ok in H as [Hc%raise_if_ok%dec_stable H].
    case_decide; injection H as <- <-; [done|].
    rewrite d_get_pop. case_decide as Heq; [|done]. subst k.
    apply find_route_spec in Hf as [Hin _].
    apply (d_elem_get _ _ _ (pi_routes_distinct _ Hi)) in Hin.
    apply (d_all_get _ _ _ _ (pi_routes _ Hi)) in Hin as [-> _]. by destruct Hk.
Qed.

Lemma generation_set bindings c g bs :
  binding_inv bindings → current_generation bindings c < g →
  (∀ b, d_get bs c = Some b → cb_generation b = g) →
  current_generation {| br_bindings := bs; br_generation_floors := d_set (br_generation_floors bindings) c g |} c = g.
Proof.
  intros Hi Hlt Hb. unfold current_generation at 1; cbn. rewrite d_get_set_eq. cbn.
  destruct (binding_inv_generation bindings c Hi) as (? & _ & _).
  destruct (d_get bs c) as [b|] eqn:Hg; cbn; [rewrite (Hb b eq_refl); lia|lia].
Qed.

Lemma resolve_binding_change_spec plan bindings target del changed :
  binding_inv bindings →
  (∀ t, mp_binding_target plan = Some t → bt_conversation_ref t = mp_conversation_ref plan) →
  _resolve_binding_change plan (d_get (br_bindings bindings) (mp_conversation_ref plan))
    = (target, del, changed) →
  (∀ t, target = Some t → bt_conversation_ref t = mp_conversation_ref plan) ∧
  if decide (changes_binding plan) then changed = true ∧ (target = None → del = true)
  else changed = false ∧ target = None ∧ del = false.
Proof.
  intros Hi Ht. unfold _resolve_binding_change.
  pose proof (binding_of_current bindings (mp_conversation_ref plan)) as Hc.
  destruct (mp_binding_target plan) as [t|] eqn:Hp.
  { intros [= <- <- <-]. split; [by auto|]. rewrite decide_True; [done|]. left. by rewrite Hp. }
  destruct (mp_binding_clear plan) as [scope|] eqn:Hcl.
  2: { intros [= <- <- <-]. split; [done|]. rewrite decide_False; [done|].
       intros [Hx|Hx]; rewrite ?Hp, ?Hcl in Hx; by destruct Hx. }
  rewrite decide_True by (right; by rewrite Hcl).
  destruct scope, (d_get _ _) as [b|]; intros [= <- <- <-]; (split; [|done]); try done;
    intros ? [= <-]; by eapply Hc.
Qed.

Lemma stage_mutation_effect request bindings pj now value g :
  binding_inv bindings → projection_inv pj → validate_store_mutation_request request = Ok () →
  stage_mutation (sm_plan request) bindings (pj_routes pj) now = Ok (value, g) →
  let plan := sm_plan request in
  let c := mp_conversation_ref plan in
  touches_only c (if decide (changes_binding plan) then 1 else 0) bindings (sg_bindings g)
    (pj_routes pj) (sg_routes g) ∧
  ev_binding_generation value = Some (current_generation (sg_bindings g) c) ∧
  ev_conversation_ref value = Some c.
Proof.
  intros Hb Hp Hv. cbv zeta. set (plan := sm_plan request). set (c := mp_conversation_ref plan).
  assert ((∀ t, mp_binding_target plan = Some t → bt_conversation_ref t = c) ∧
    (∀ r, mp_route_upsert plan = Some r → tr_conversation_ref r = c)) as [Htarget Hup].
  { unfold validate_store_mutation_request in Hv. rewrite !seq_ok, !when_some_ok in Hv.
    destruct Hv as (_ & _ & _ & _ & Ht & Hr & _). split.
    - intros t Hx. specialize (Ht t Hx). by apply seq_ok in Ht as [_ ?%raise_if_ok%dec_stable].
    - intros r Hx. specialize (Hr r Hx). rewrite !seq_ok in Hr.
      by destruct Hr as (_ & ?%raise_if_ok%dec_stable & _). }
  unfold stage_mutation, _mutation_conversation. fold c.
  destruct (_resolve_binding_change plan _) as [[target del] changed] eqn:Hres.
  apply resolve_binding_change_spec in Hres as [Hc Hch]; [|done|done]. fold c in Hc.
  destruct (binding_inv_generation bindings c Hb) as (Hge & _ & _).
  intros H. apply res_bind_ok in H as (b' & Hb' & H).
  apply res_bind_ok in H as ([route rs] & H & [= <- <-]). cbn.
  assert (current_generation b' c = current_generation bindings c + (if changed then 1 else 0) ∧
    ∀ c', c' ≠ c → d_get (br_bindings b') c' = d_get (br_bindings bindings) c' ∧
      d_get (br_generation_floors b') c' = d_get (br_generation_floors bindings) c') as [Hg Ho].
  { destruct target as [t|].
    - assert (changed = true) as -> by (case_decide; [tauto|destruct Hch; naive_solver]).
      apply then_ok in Hb' as [_ [= <-]]. rewrite <- (Hc t eq_refl) in *. split.
      + apply generation_set; [done|lia|]. intros b. rewrite d_get_set_eq. by intros [= <-].
      + intros c' Hne. cbn. by rewrite !d_get_set_ne.
    - apply (inj Ok) in Hb' as <-. case_decide.
      + destruct Hch as [-> ->]; [|done]. split.
        * apply generation_set; [done|lia|]. intros b. rewrite d_get_pop, decide_True by done. done.
        * intros c' Hne. cbn. by rewrite d_get_pop, decide_False, d_get_set_ne.
      + destruct Hch as (-> & _ & ->). split; [lia|done]. }
  assert (changed = bool_decide (changes_binding plan)) as ->.
  { case_decide; [rewrite bool_decide_true|rewrite bool_decide_false]; tauto. }
  split_and!; [split|..].
  - rewrite Hg. case_bool_decide; case_decide; done.
  - intros c' Hne. destruct (Ho c' Hne) as [Hx Hy]. split; [done|].
    unfold current_generation. by rewrite Hx, Hy.
  - intros key Hk. by eapply route_plan_other.
  - rewrite Hg. f_equal. case_bool_decide; lia.
  - done.
Qed.

Lemma stage_workflow_effect target route bindings pj now stored g :
  binding_inv bindings →
  (∀ p, route = Some p → tr_conversation_ref p = bt_conversation_ref target) →
  stage_workflow target route (current_generation bindings (bt_conversation_ref target) + 1)
    bindings (pj_routes pj) now = Ok (stored, g) →
  touches_only (bt_conversation_ref target) 1 bindings (sg_bindings g) (pj_routes pj) (sg_routes g) ∧
  (cb_thread_ref <$> d_get (br_bindings (sg_bindings g)) (bt_conversation_ref target))
    = Some (bt_thread_ref target).
Proof.
  intros Hb Hr H. unfold stage_workflow in H. apply then_ok in H as [_ H].
  set (c := bt_conversation_ref target) in *.
  destruct (binding_inv_generation bindings c Hb) as (Hge & _ & _).
  assert (sg_bindings g = stage_binding bindings (bind_target target (current_generation bindings c + 1) now)
    ∧ ∀ key, key.2 ≠ c → d_get (sg_routes g) key = d_get (pj_routes pj) key) as [-> Hroutes].
  { destruct route as [r|]; [|by injection H as <- <-].
    apply res_bind_ok in H as ([st rs] & H & [= <- <-]). split; [done|]. intros key Hk.
    by eapply (upsert_route_other _ _ r _ _ c); [exact H|apply Hr|]. }
  split; [split; [..|done]|].
  - apply generation_set; [done|lia|]. intros b. cbn. rewrite d_get_set_eq. by intros [= <-].
  - intros c' Hne. unfold current_generation. cbn. fold c. by rewrite !d_get_set_ne.
  - cbn. fold c. by rewrite d_get_set_eq.
Qed.

(** * The guarantees *)

Section guarantees.
Context (clock : nat → datetime) (utc_now : nat → Z).
Hypothesis clock_mono : ∀ i j, (i ≤ j)%nat → dt_us (clock i) ≤ dt_us (clock j).
Abbreviation run := (run_store_op clock utc_now).
Abbreviation inv := (world_inv clock).
Abbreviation reaches := (rtc (world_step clock utc_now)).


(** C34. A new store, and every store that any sequence of calls makes of it,
    satisfies the invariant: the repositories are well formed, receipts are
    valid and of the bound Gateway, each is under its own action key, the
    lease is valid and not ahead of the epoch counter, and receipts and queued
    inputs together stay within the configured capacity. *)
Theorem store_invariant_holds_in_every_run receipts records submissions s ticks w :
  new_memory_store receipts records submissions = Ok s →
  reaches {| w_store := s; w_ticks := ticks |} w →
  store_inv (w_store w) ∧
  len (ms_effect_receipts (w_store w)) + len (ms_queued_inputs (w_store w))
    ≤ ms_max_effect_receipts (w_store w).
Proof.
  intros Hnew Hr. assert (store_inv (w_store w)) as Hi.
  { apply (reachable_inv clock utc_now clock_mono) in Hr; [apply Hr|].
    by apply (new_world_inv clock clock_mono receipts records submissions). }
  split; [done|]. apply Hi.
Qed.

(** C33. A receipt is never lost: in whatever the store becomes, the action still
    has its receipt, of the same Gateway, kind, payload, category, phase id,
    generation and creation time, reached by transitions of the lifecycle and
    so not earlier in it; a terminal receipt is the same receipt for ever. *)
Theorem receipts_only_move_forward w w' key r :
  inv w → reaches w w' → d_get (ms_effect_receipts (w_store w)) key = Some r →
  ∃ r', d_get (ms_effect_receipts (w_store w')) key = Some r' ∧ rtc receipt_step r r' ∧
    receipt_identity r' = receipt_identity r ∧
    phase_rank (er_phase r) ≤ phase_rank (er_phase r') ∧
    (er_phase r = PH_TERMINAL → r' = r).
Proof.
  intros Hi Hr Hg. destruct (reachable_receipt clock utc_now clock_mono w w' key r Hi Hr Hg) as (r' & ? & Hs).
  exists r'. split; [done|]. split; [done|]. by apply receipt_steps_forward.
Qed.

(** C3. The permission to run a native side effect is given once: after a call
    that returned it for an action, no call of any session of the same store
    returns it for that action again. *)
Theorem native_side_effect_is_started_once fence fp receipt w w1 w2 fence' fp' receipt' w3 :
  inv w →
  _mark_native_side_effect_started clock fence fp w = (Ok (receipt, true), w1) →
  reaches w1 w2 →
  _mark_native_side_effect_started clock fence' fp' w2 = (Ok (receipt', true), w3) →
  af_action_key fp' ≠ af_action_key fp.
Proof.
  intros Hi Hm1 Hr Hm2 Heq.
  assert (inv w1) as Hi1.
  { eapply (call_keeps_inv clock utc_now clock_mono _ (MarkStarted fence fp)); [|exact Hi|exact Hm1].
    intros. apply forget_world. }
  assert (inv w2) as Hi2 by by eapply reachable_inv.
  pose proof (mark_started_spec clock fence fp w Hi) as H1.
  pose proof (mark_started_spec clock fence' fp' w2 Hi2) as H2.
  unfold wp in *. rewrite Hm1 in H1. rewrite Hm2 in H2. cbn in *.
  destruct (H1 _ _ eq_refl) as [Hg1 [Hp1 _]]; [done|].
  destruct (H2 _ _ eq_refl) as [_ [_ (r0 & Hg2 & Hp2)]]; [done|].
  destruct (reachable_receipt clock utc_now clock_mono w1 w2 _ _ Hi1 Hr Hg1) as (r' & Hg' & Hs).
  rewrite Heq, Hg' in Hg2. injection Hg2 as ->.
  apply receipt_steps_forward in Hs as (_ & Hle & _). rewrite Hp1, Hp2 in Hle. cbn in Hle. lia.
Qed.

(** A fence whose epoch was overtaken is refused for ever: once the store
    has a lease of a later epoch, every call that carries the old fence raises
    and writes nothing, whatever happened in between. *)
Theorem overtaken_fence_is_refused_for_ever fence lease op w w' :
  inv w → ms_lease (w_store w) = Some lease → rl_epoch fence < rl_epoch lease →
  reaches w w' → fence_of op = Some fence →
  is_ok (run op w').1 = false ∧ w_store (run op w').2 = w_store w'.
Proof.
  intros Hi Hl Hlt Hr Hf. assert (inv w') as Hi' by by eapply reachable_inv.
  assert (is_ok (run op w').1 = false) as Hno.
  { apply not_true_is_false. intros Hok.
    destruct (op_needs_fence clock utc_now op fence w' Hf Hok) as (_ & _ & c & Hc & _ & _ & Hce & _).
    destruct (reachable_lease clock utc_now clock_mono w w' Hi Hr) as [_ Hev].
    destruct (Hev lease Hl) as (c' & Hc' & Hcase). assert (c' = c) as -> by congruence.
    destruct Hcase as [?|(? & _)]; lia. }
  split; [done|]. assert (is_acquire op = false) as Hop by by destruct op.
  pose proof (op_refines clock utc_now clock_mono op w' Hi' Hop) as [_ Hr'].
  by destruct (run op w').1.
Qed.

(** An epoch belongs to one owner: two acquisitions, any number of calls
    apart, that returned leases of the same epoch were made by the same owner
    of the same Gateway. *)
Theorem an_epoch_has_one_owner g o d l w w1 w2 g' o' d' l' w3 :
  inv w →
  acquire_runtime clock g o d w = (Ok l, w1) → reaches w1 w2 →
  acquire_runtime clock g' o' d' w2 = (Ok l', w3) →
  rl_epoch l' = rl_epoch l → o' = o ∧ g' = g.
Proof.
  intros Hi H1 Hr H2 He.
  assert (inv w1) as Hi1.
  { eapply (call_keeps_inv clock utc_now clock_mono _ (Acquire g o d)); [|exact Hi|exact H1].
    intros. apply forget_world. }
  assert (inv w2) as Hi2 by by eapply reachable_inv.
  pose proof (acquire_spec clock g o d w (wi_store _ _ Hi)) as A1.
  pose proof (acquire_spec clock g' o' d' w2 (wi_store _ _ Hi2)) as A2.
  unfold wp in *. rewrite H1 in A1. rewrite H2 in A2. cbn in A1, A2.
  destruct A1 as (_ & _ & Hl1 & Hg1 & Ho1 & _).
  destruct A2 as (_ & Hsteps & Hl2 & Hg2 & Ho2 & Hcase).
  destruct (reachable_lease clock utc_now clock_mono w1 w2 Hi1 Hr) as [_ Hev].
  destruct (Hev l Hl1) as (c & Hc & Hce).
  destruct (st_lease _ (wi_store _ _ Hi2) c Hc) as (Hns & Hle & _).
  destruct Hcase as [[Hnew _]|(c' & Hc' & Hco & Hceq)].
  - exfalso. destruct Hce as [?|(? & _)]; lia.
  - assert (c' = c) as -> by congruence.
    destruct Hce as [?|(Hce1 & Hce2 & Hce3)]; [lia|]. split; [congruence|].
    destruct (steps_lease clock _ _ _ _ (wi_store _ _ Hi2) Hsteps) as [_ Hev2].
    destruct (Hev2 c Hc) as (c2 & Hc2 & Hcase2). assert (c2 = l') as -> by congruence.
    destruct Hcase2 as [?|(_ & _ & ?)]; [lia|congruence].
Qed.

(** A lease in force excludes others: as long as the store's clock has not
    reached its expiry, an acquisition by another owner or of another Gateway
    raises, and the lease stays. *)
Theorem a_lease_in_force_excludes_other_owners c g o d w :
  inv w → ms_lease (w_store w) = Some c →
  dt_us (clock (w_ticks w)) < dt_us (rl_expires_at c) →
  rl_owner_token c ≠ o ∨ rl_gateway_id c ≠ g →
  let '(r, w') := acquire_runtime clock g o d w in
  is_ok r = false ∧ ms_lease (w_store w') = Some c.
Proof.
  intros Hi Hc Hexp Hother.
  pose proof (acquire_spec clock g o d w (wi_store _ _ Hi)) as Ha.
  unfold wp in Ha. destruct (acquire_runtime clock g o d w) as [[l|e] w']; cbn in *.
  - exfalso. destruct Ha as (_ & Hsteps & Hl & Hg & Ho & [[_ Hfree]|(c' & Hc' & Hco & Hce)]).
    + specialize (Hfree c Hc). lia.
    + assert (c' = c) as -> by congruence. destruct Hother as [?|Hng]; [done|].
      destruct (steps_lease clock _ _ _ _ (wi_store _ _ Hi) Hsteps) as [_ Hev].
      destruct (Hev c Hc) as (c2 & Hc2 & Hcase). assert (c2 = l) as -> by congruence.
      destruct Hcase as [?|(_ & _ & ?)]; [lia|congruence].
  - destruct Ha as (_ & _ & Hid). split; [done|]. rewrite <- Hc.
    by apply (f_equal ms_lease) in Hid.
Qed.

(** ** The commits *)


(** C5. A committed mutation is replayed, not repeated: whatever the store has
    become, a later commit of the same action that returns gives the very same
    receipt and leaves the store as it is. *)
Theorem committed_mutation_is_replayed fence request receipt w w1 w2 fence' request' receipt' w3 :
  inv w →
  _commit_store_mutation clock fence request w = (Ok receipt, w1) →
  reaches w1 w2 →
  _commit_store_mutation clock fence' request' w2 = (Ok receipt', w3) →
  af_action_key (sm_fingerprint request') = af_action_key (sm_fingerprint request) →
  receipt' = receipt ∧ w_store w3 = w_store w2.
Proof.
  intros Hi H1 Hr H2 Heq.
  assert (inv w1) as Hi1.
  { eapply (call_keeps_inv clock utc_now clock_mono _ (CommitMutation fence request)); [|exact Hi|exact H1].
    intros. apply forget_world. }
  assert (inv w2) as Hi2 by by eapply reachable_inv.
  pose proof (commit_mutation_spec clock fence request w Hi) as S1.
  pose proof (commit_mutation_spec clock fence' request' w2 Hi2) as S2.
  unfold wp in *. rewrite H1 in S1. rewrite H2 in S2. cbn in S1, S2.
  destruct (S1 _ eq_refl) as (Hk1 & _ & Hp1 & Hcase1).
  destruct (S2 _ eq_refl) as (Hk2 & _ & _ & Hcase2).
  assert (d_get (ms_effect_receipts (w_store w1)) (er_action_key receipt) = Some receipt) as Hg1.
  { destruct Hcase1 as [[Hg ->]|(_ & ? & s' & _ & _ & ->)]; [done|cbn; by rewrite d_get_set_eq]. }
  destruct (reachable_receipt clock utc_now clock_mono w1 w2 _ _ Hi1 Hr Hg1) as (r' & Hg2 & Hs).
  apply receipt_steps_forward in Hs as (_ & _ & Hfin). rewrite (Hfin Hp1) in Hg2.
  rewrite <- Hk1, <- Heq, <- Hk2 in *.
  destruct Hcase2 as [[Hg3 ?]|(Hn & _)]; [split; [congruence|done]|congruence].
Qed.

(** The binding commit of a workflow is a compare-and-set on the generation
    that was current when the effect was reserved.  A call that raises has
    written nothing; if the generation has moved, or the route conflicts, the
    created object is reported as a partial outcome and only the receipt is
    written; otherwise the Conversation is bound to the target at the next
    generation and no other Conversation is touched. *)
Theorem workflow_binding_is_compare_and_set fence fp target route w :
  inv w →
  let c := bt_conversation_ref target in
  let s := w_store w in
  let '(r, w') := _commit_workflow_binding clock fence fp target route w in
  match r with
  | Err _ => w_store w' = s
  | Ok receipt =>
      d_get (ms_effect_receipts (w_store w')) (af_action_key fp) = Some receipt ∧
      er_phase receipt = PH_TERMINAL ∧
      (w_store w' = s ∨
       ∃ created reserved, er_binding_generation receipt = reserved ∧
         match er_outcome receipt with
         | Some (Succeeded value) =>
             reserved = Some (current_generation (ms_bindings s) c) ∧
             ev_reference value = ev_reference created ∧
             ∃ g, w_store w' = put_receipt receipt (published g s) ∧
               touches_only c 1 (ms_bindings s) (sg_bindings g)
                 (pj_routes (ms_projections s)) (sg_routes g) ∧
               (cb_thread_ref <$> d_get (br_bindings (sg_bindings g)) c) = Some (bt_thread_ref target)
         | Some (Partial value e) =>
             value = created ∧ w_store w' = put_receipt receipt s ∧
             (e = action_error AE_STALE_BINDING ∧
                reserved ≠ Some (current_generation (ms_bindings s) c)
              ∨ e = action_error AE_CONFLICT)
         | _ => False
         end)
  end.
Proof.
  intros Hi. cbv zeta.
  pose proof (commit_workflow_refines clock fence fp target route w Hi) as [_ Href].
  pose proof (commit_workflow_spec clock fence fp target route w Hi) as Hs.
  unfold wp in Hs.
  destruct (_commit_workflow_binding clock fence fp target route w) as [[receipt|e] w']; [|done].
  cbn in *. destruct (Hs _ eq_refl) as (Hk & _ & Hp & Hcase). rewrite <- Hk. clear Hs Href.
  destruct Hcase as [[Hg Hw]|(Hroute & r & created & outcome & s' & Hn & _ & _ & Hadv & Hc & Hw)].
  { rewrite Hw. split_and!; [done|done|by left]. }
  rewrite Hw. split_and!; [by cbn; rewrite d_get_set_eq|done|right].
  exists created, (er_binding_generation receipt). split; [done|].
  assert (er_outcome receipt = Some outcome ∧ er_binding_generation receipt = er_binding_generation r)
    as [-> ->] by by rewrite Hadv.
  unfold commits_workflow in Hc. case_decide as Hst.
  - destruct Hc as [-> ->]. split_and!; [done|done|]. left. split; [done|]. congruence.
  - destruct (stage_workflow _ _ _ _ _ _) as [[stored g]|e] eqn:Hstage.
    + destruct Hc as [-> ->]. apply stage_workflow_effect in Hstage as (? & ?); [|apply Hi|done].
      split_and!; [done|done|by exists g].
    + destruct Hc as (_ & -> & ->). split_and!; [done|done|by right].
Qed.

(** ** Queued inputs and workspaces *)

(** An inbound message is fenced as a queued input once, atomically with its
    idempotency claim: the claim was in flight for the caller and is now
    started, the Conversation was bound to the Thread at the stated
    generation, the record is stored; and no later call, by any session,
    fences the same message of the same Conversation again. *)
Theorem queued_input_is_fenced_once fence origin scope key owner record w w1 w2 :
  inv w →
  _fence_queued_input clock fence origin scope key owner w = (Ok record, w1) →
  reaches w1 w2 →
  d_get (ir_records (ms_idempotency (w_store w))) (scope, key) = Some (InFlight, Some owner) ∧
  d_get (ir_records (ms_idempotency (w_store w1))) (scope, key) = Some (SideEffectStarted, Some owner) ∧
  (∃ b, d_get (br_bindings (ms_bindings (w_store w))) (qo_conversation_ref origin) = Some b ∧
     cb_thread_ref b = Some (qo_thread_ref origin) ∧ cb_generation b = qo_binding_generation origin) ∧
  (∃ record', d_get (ms_queued_inputs (w_store w2)) (qo_conversation_ref origin, qo_message_id origin)
     = Some record' ∧ qc_origin record' = origin) ∧
  ∀ fence' origin' scope' key' owner',
    qo_conversation_ref origin' = qo_conversation_ref origin →
    qo_message_id origin' = qo_message_id origin →
    is_ok (_fence_queued_input clock fence' origin' scope' key' owner' w2).1 = false.
Proof.
  intros Hi H1 Hr.
  assert (inv w1) as Hi1.
  { eapply (call_keeps_inv clock utc_now clock_mono _ (FenceQueued fence origin scope key owner));
      [|exact Hi|exact H1]. intros. apply forget_world. }
  pose proof (fence_queued_spec clock fence origin scope key owner w) as S1.
  unfold wp in S1. rewrite H1 in S1. cbn in S1.
  destruct (S1 _ eq_refl) as (Ho & _ & _ & Hcl & Hb & Hq & Hcl').
  destruct (reachable_records clock utc_now clock_mono w1 w2 Hi1 Hr) as [_ Hqs].
  destruct (Hqs _ _ Hq) as (record' & Hq' & Ho').
  split_and!; [done|done|done|exists record'; split; [done|congruence]|].
  intros f2 o2 sc2 k2 ow2 Hc Hm. pose proof (fence_queued_spec clock f2 o2 sc2 k2 ow2 w2) as S2.
  unfold wp in S2. destruct (_fence_queued_input clock f2 o2 sc2 k2 ow2 w2) as [[r2|e] w3]; [|done].
  destruct (S2 _ eq_refl) as (_ & _ & Hnone & _). rewrite Hc, Hm in Hnone. congruence.
Qed.

(** The root fingerprint of a workspace, once recorded, never changes. *)
Theorem workspace_identity_is_permanent w w' project fingerprint :
  inv w → reaches w w' →
  d_get (ms_workspace_identities (w_store w)) project = Some fingerprint →
  d_get (ms_workspace_identities (w_store w')) project = Some fingerprint.
Proof.
  intros Hi Hr. destruct (reachable_records clock utc_now clock_mono w w' Hi Hr) as [Hw _]. apply Hw.
Qed.
End guarantees.

(** ** The theorems applied *)

Section witnesses.
Import Examples.
Abbreviation worlds ops := (run_all ops empty_world).


Lemma store_invariant_holds_in_every_run_witness :
  new_memory_store 10 10 10 = Ok empty_store ∧ store_inv (w_store (worlds [acquire])).
Proof.
  split; [reflexivity|].
  apply (store_invariant_holds_in_every_run clock utc_now clock_mono 10 10 10 empty_store 0);
    [reflexivity|apply run_all_reaches].
Defined.

(** The receipt of a committed mutation is still there after another. *)
Definition committed : world := Eval vm_compute in worlds [acquire; CommitMutation lease (bind_request 3 None)].
Lemma committed_inv : world_inv clock committed.
Proof.
  assert (worlds [acquire; CommitMutation lease (bind_request 3 None)] = committed) as <-
    by (vm_compute; reflexivity). apply run_all_inv.
Qed.
Definition committed_receipt : EffectReceipt := new_receipt gateway (action 3) GATEWAY PH_TERMINAL
  None None (Some (Succeeded {|
    ev_reference := Some (from_value (SV_thread example_thread));
    ev_conversation_ref := Some example_conversation;
    ev_binding_generation := Some 1; ev_route_id := None |})) (clock 2).

Lemma receipts_only_move_forward_witness :
  d_get (ms_effect_receipts (w_store committed)) (hex 3) = Some committed_receipt ∧
  ∃ r', d_get (ms_effect_receipts
          (w_store (run_all [CommitMutation lease (bind_request 4 None)] committed))) (hex 3) = Some r'
    ∧ r' = committed_receipt.
Proof.
  assert (d_get (ms_effect_receipts (w_store committed)) (hex 3) = Some committed_receipt) as Hg
    by (vm_compute; reflexivity).
  split; [exact Hg|].
  destruct (receipts_only_move_forward clock utc_now clock_mono committed
    (run_all [CommitMutation lease (bind_request 4 None)] committed) (hex 3) committed_receipt)
    as (r' & Hr' & _ & _ & _ & Hfin); [exact committed_inv|apply run_all_reaches|exact Hg|].
  exists r'. split; [exact Hr'|]. apply Hfin. reflexivity.
Defined.

(** Two actions are reserved; each is started. *)
Definition reserved : world := worlds [acquire;
  ReserveEffect lease (action 5) NATIVE (py "send") None;
  ReserveEffect lease (action 6) NATIVE (py "send") None].

Lemma native_side_effect_is_started_once_witness :
  is_ok (_mark_native_side_effect_started clock lease (action 5) reserved).1 = true ∧ hex 6 ≠ hex 5.
Proof.
  split; [vm_compute; reflexivity|].
  eapply (native_side_effect_is_started_once clock utc_now clock_mono lease (action 5) _ reserved _ _
    lease (action 6)); [apply run_all_inv|vm_compute; reflexivity|constructor|vm_compute; reflexivity].
Defined.

(** The lease is released, another worker takes over. *)
Definition overtaken : world := worlds [acquire; Release lease; Acquire gateway (py "other") (seconds 60)].

Lemma overtaken_fence_is_refused_for_ever_witness :
  (rl_epoch <$> ms_lease (w_store overtaken)) = Some 2 ∧
  is_ok (run (CommitMutation lease (bind_request 3 None)) (run_all [Close] overtaken)).1 = false.
Proof.
  split; [vm_compute; reflexivity|].
  eapply (overtaken_fence_is_refused_for_ever clock utc_now clock_mono lease
    (Build_RuntimeLease gateway (py "other") 2 (Aware 63000000)) _ overtaken);
    [apply run_all_inv|vm_compute; reflexivity|reflexivity|apply run_all_reaches|reflexivity].
Defined.

Lemma an_epoch_has_one_owner_witness :
  is_ok (acquire_runtime clock gateway owner (seconds 60) (worlds [acquire])).1 = true ∧
  owner = owner ∧ gateway = gateway.
Proof.
  split; [vm_compute; reflexivity|].
  eapply (an_epoch_has_one_owner clock utc_now clock_mono gateway owner (seconds 3600) _ empty_world _ _
    gateway owner (seconds 60));
    [apply empty_inv|vm_compute; reflexivity|constructor|vm_compute; reflexivity|reflexivity].
Defined.


Lemma committed_mutation_is_replayed_witness :
  ∃ r w3, _commit_store_mutation clock lease (bind_request 3 (Some 7)) committed = (Ok r, w3) ∧
    w_store w3 = w_store committed.
Proof.
  destruct (_commit_store_mutation clock lease (bind_request 3 (Some 7)) committed)
    as [[r|e] w3] eqn:Heq; [|vm_compute in Heq; discriminate].
  exists r, w3. split; [reflexivity|].
  refine (proj2 (committed_mutation_is_replayed clock utc_now clock_mono lease (bind_request 3 None)
    committed_receipt (worlds [acquire]) committed committed lease (bind_request 3 (Some 7)) r w3
    _ _ _ Heq _)); [exact (run_all_inv [acquire])|vm_compute; reflexivity|constructor|reflexivity].
Defined.

Definition workflow_world : world := Eval vm_compute in worlds (acquire :: workflow_ops 5).
Lemma workflow_world_inv : world_inv clock workflow_world.
Proof.
  assert (worlds (acquire :: workflow_ops 5) = workflow_world) as <-
    by (vm_compute; reflexivity). apply run_all_inv.
Qed.

Lemma workflow_binding_is_compare_and_set_witness :
  (∃ r w', _commit_workflow_binding clock lease (action 5) target None workflow_world = (Ok r, w') ∧
     er_phase r = PH_TERMINAL ∧ is_succeeded (er_outcome r) = true).
Proof.
  pose proof (workflow_binding_is_compare_and_set clock lease (action 5) target None workflow_world
    workflow_world_inv) as H.
  destruct (_commit_workflow_binding clock lease (action 5) target None workflow_world)
    as [[r|e] w'] eqn:Heq; [|vm_compute in Heq; discriminate].
  exists r, w'. destruct H as (_ & Hp & _). split; [reflexivity|]. split; [exact Hp|].
  vm_compute in Heq. injection Heq as <- _. reflexivity.
Defined.

(** The Conversation is bound and the message claimed. *)
Definition claimed : world := Eval vm_compute in worlds [acquire; CommitMutation lease (bind_request 3 None);
  OnIdempotency lease OpClaim (py "inbound:qq") (py "c:m1") (Some owner)].
Lemma claimed_inv : world_inv clock claimed.
Proof.
  assert (worlds [acquire; CommitMutation lease (bind_request 3 None);
    OnIdempotency lease OpClaim (py "inbound:qq") (py "c:m1") (Some owner)] = claimed) as <-
    by (vm_compute; reflexivity). apply run_all_inv.
Qed.

Lemma queued_input_is_fenced_once_witness :
  ∃ record w1, _fence_queued_input clock lease origin (py "inbound:qq") (py "c:m1") owner claimed
      = (Ok record, w1) ∧
    is_ok (_fence_queued_input clock lease origin (py "inbound:qq") (py "c:m1") owner w1).1 = false.
Proof.
  destruct (_fence_queued_input clock lease origin (py "inbound:qq") (py "c:m1") owner claimed)
    as [[record|e] w1] eqn:Heq; [|vm_compute in Heq; discriminate].
  exists record, w1. split; [reflexivity|].
  apply (queued_input_is_fenced_once clock utc_now clock_mono lease origin (py "inbound:qq")
    (py "c:m1") owner record claimed w1 w1); [exact claimed_inv|exact Heq|constructor|reflexivity|reflexivity].
Defined.

Definition workspace : WorkspaceIdentity :=
  {| wi_project_ref := th_project_ref example_thread; wi_root_fingerprint := hex 1 |}.
Definition checked : world := worlds [acquire; CheckWorkspaces lease [workspace]].

Lemma workspace_identity_is_permanent_witness :
  let w' := run_all [CheckWorkspaces lease
    [{| wi_project_ref := th_project_ref example_thread; wi_root_fingerprint := hex 2 |}]] checked in
  d_get (ms_workspace_identities (w_store w')) (th_project_ref example_thread) = Some (hex 1).
Proof.
  apply (workspace_identity_is_permanent clock utc_now clock_mono checked);
    [apply run_all_inv|apply run_all_reaches|vm_compute; reflexivity].
Defined.
End witnesses.
