(* ===== verification/StoreSession.v ===== *)
(** The sessions of the coherent store, [_MemoryGatewayStoreSession] of
    [gateway/persistence/memory_store.py]: a lease, a closed flag, and one
    method per operation, which checks the flag and calls the store with the
    lease.  A method is one atomic step, like the store's operation it awaits.
    [session_call] lists the methods; the theorems reduce them to the calls of
    [StoreRefinement] and show what a closed or overtaken session can still do. *)

From S2P Require Export StoreExamples.
From stdpp Require Import list.
#[local] Open Scope Z_scope.
#[local] Open Scope stdpp_scope.

(** [gateway/persistence/memory_store.py:838-842] _MemoryGatewayStoreSession *)
Record StoreSession := {
  ss_lease : RuntimeLease;
  ss_closed : bool;
}.
Definition set_session_lease lease (s : StoreSession) : StoreSession :=
  {| ss_lease := lease; ss_closed := ss_closed s |}.
Definition set_session_closed closed (s : StoreSession) : StoreSession :=
  {| ss_lease := ss_lease s; ss_closed := closed |}.

(** A session and the store it is a session of. *)
Record session_world := { sw_session : StoreSession; sw_world : world }.
Definition set_session s (x : session_world) : session_world :=
  {| sw_session := s; sw_world := sw_world x |}.
Definition set_world w (x : session_world) : session_world :=
  {| sw_session := sw_session x; sw_world := w |}.

(** A call on the store the session holds. *)
Definition on_store {A} (m : M world A) : M session_world A := zoom sw_world set_world m.

(** [gateway/persistence/memory_store.py:844-846] _MemoryGatewayStoreSession.lease *)
Definition session_lease : M session_world RuntimeLease := gets (λ x, ss_lease (sw_session x)).

(** [gateway/persistence/memory_store.py:1329-1331] _MemoryGatewayStoreSession._require_open *)
Definition session_require_open : M session_world unit :=
  closed ← gets (λ x, ss_closed (sw_session x)) ;
  raise_if (closed = true) StaleRuntimeFence.

(** The shape of the methods: the check, then the store's operation with the lease. *)
Definition fenced {A} (m : RuntimeLease → M world A) : M session_world A :=
  session_require_open ;; lease ← session_lease ; on_store (m lease).

Section session.
Context (clock : nat → datetime) (utc_now : nat → Z).

(** [gateway/persistence/memory_store.py:138-179] MemoryGatewayStore.acquire_runtime:
    the session it returns *)
Definition open_session (gateway_id owner_token : pystr) (lease_duration_seconds : pyfloat)
    : M world StoreSession :=
  lease ← acquire_runtime clock gateway_id owner_token lease_duration_seconds ;
  mret {| ss_lease := lease; ss_closed := false |}.

(** [gateway/persistence/memory_store.py:848-854] _MemoryGatewayStoreSession.renew *)
Definition session_renew (lease_duration_seconds : pyfloat) : M session_world RuntimeLease :=
  session_require_open ;;
  lease ← session_lease ;
  renewed ← on_store (_renew clock lease lease_duration_seconds) ;
  modify (λ x, set_session (set_session_lease renewed (sw_session x)) x) ;;
  mret renewed.

(** [gateway/persistence/memory_store.py:856-860] _MemoryGatewayStoreSession.release_runtime *)
Definition session_release_runtime : M session_world unit :=
  closed ← gets (λ x, ss_closed (sw_session x)) ;
  if (closed : bool) then mret ()
  else
    lease ← session_lease ;
    on_store (_release clock lease) ;;
    modify (λ x, set_session (set_session_closed true (sw_session x)) x).

(** [gateway/persistence/memory_store.py:862-863] _MemoryGatewayStoreSession.close *)
Definition session_close : M session_world unit := session_release_runtime.

(** [gateway/persistence/memory_store.py:865-870] _MemoryGatewayStoreSession.check_workspace_identities *)
Definition session_check_workspace_identities (identities : list WorkspaceIdentity)
    : M session_world unit :=
  fenced (λ lease, _check_workspace_identities clock lease identities).

(** [gateway/persistence/memory_store.py:872-873] _MemoryGatewayStoreSession.get_binding_generation *)
Definition session_get_binding_generation (conversation_ref : ConversationRef) : M session_world Z :=
  on_store (_get_binding_generation conversation_ref).

(** [gateway/persistence/memory_store.py:875-890] _MemoryGatewayStoreSession.fence_queued_input *)
Definition session_fence_queued_input (origin : QueuedInputOrigin)
    (claim_scope claim_key_ owner_token : pystr) : M session_world QueuedInputCorrelation :=
  fenced (λ lease, _fence_queued_input clock lease origin claim_scope claim_key_ owner_token).

(** [gateway/persistence/memory_store.py:892-898] _MemoryGatewayStoreSession.get_queued_input *)
Definition session_get_queued_input (conversation_ref : ConversationRef) (message_id : pystr)
    : M session_world (option QueuedInputCorrelation) :=
  session_require_open ;; on_store (_get_queued_input conversation_ref message_id).

(** [gateway/persistence/memory_store.py:900-905] _MemoryGatewayStoreSession.list_queued_inputs *)
Definition session_list_queued_inputs (thread_ref : option ThreadRef)
    : M session_world (list QueuedInputCorrelation) :=
  session_require_open ;; on_store (_list_queued_inputs thread_ref).

(** [gateway/persistence/memory_store.py:907-920] _MemoryGatewayStoreSession.merge_queued_input_receipt *)
Definition session_merge_queued_input_receipt (origin : QueuedInputOrigin)
    (receipt : QueuedInputReceipt) (turn_correlation : option TurnReplyCorrelation)
    : M session_world QueuedInputCorrelation :=
  fenced (λ lease, _merge_queued_input_receipt clock lease origin receipt turn_correlation).

(** [gateway/persistence/memory_store.py:922-927] _MemoryGatewayStoreSession.get_store_mutation_receipt *)
Definition session_get_store_mutation_receipt (fingerprint : ActionFingerprint)
    : M session_world (option EffectReceipt) :=
  fenced (λ lease, _get_store_mutation_receipt clock lease fingerprint).

(** [gateway/persistence/memory_store.py:929-940] _MemoryGatewayStoreSession.commit_store_preflight_failure *)
Definition session_commit_store_preflight_failure (fingerprint : ActionFingerprint)
    (error : ActionError) : M session_world EffectReceipt :=
  fenced (λ lease, _commit_store_preflight_failure clock lease fingerprint error).

(** [gateway/persistence/memory_store.py:942-944] _MemoryGatewayStoreSession.commit_store_mutation *)
Definition session_commit_store_mutation (request : StoreMutationRequest)
    : M session_world EffectReceipt :=
  fenced (λ lease, _commit_store_mutation clock lease request).

(** [gateway/persistence/memory_store.py:946-961] _MemoryGatewayStoreSession.reserve_effect *)
Definition session_reserve_effect (fingerprint : ActionFingerprint) (category : EffectCategory)
    (native_phase_id : pystr) (conversation_ref : option ConversationRef)
    : M session_world EffectReceipt :=
  fenced (λ lease, _reserve_effect clock lease fingerprint category native_phase_id conversation_ref).

(** [gateway/persistence/memory_store.py:963-967] _MemoryGatewayStoreSession.get_effect_receipt *)
Definition session_get_effect_receipt (fingerprint : ActionFingerprint)
    : M session_world (option EffectReceipt) :=
  on_store (_get_effect_receipt fingerprint).

(** [gateway/persistence/memory_store.py:969-977] _MemoryGatewayStoreSession.mark_native_side_effect_started *)
Definition session_mark_native_side_effect_started (fingerprint : ActionFingerprint)
    : M session_world (EffectReceipt * bool) :=
  fenced (λ lease, _mark_native_side_effect_started clock lease fingerprint).

(** [gateway/persistence/memory_store.py:979-992] _MemoryGatewayStoreSession.record_effect_outcome *)
Definition session_record_effect_outcome (fingerprint : ActionFingerprint) (phase : EffectPhase)
    (outcome : ActionOutcome) : M session_world EffectReceipt :=
  fenced (λ lease, _record_effect_outcome clock lease fingerprint phase outcome).

(** [gateway/persistence/memory_store.py:994-1005] _MemoryGatewayStoreSession.record_effect_preflight_failure *)
Definition session_record_effect_preflight_failure (fingerprint : ActionFingerprint)
    (error : ActionError) : M session_world EffectReceipt :=
  fenced (λ lease, _record_effect_preflight_failure clock lease fingerprint error).

(** [gateway/persistence/memory_store.py:1007-1020] _MemoryGatewayStoreSession.commit_workflow_binding *)
Definition session_commit_workflow_binding (fingerprint : ActionFingerprint)
    (binding_target : BindingTarget) (route : option ThreadProjectionRoute)
    : M session_world EffectReceipt :=
  fenced (λ lease, _commit_workflow_binding clock lease fingerprint binding_target route).

(** [gateway/persistence/memory_store.py:1022-1023] _MemoryGatewayStoreSession.get *)
Definition session_get (conversation : ConversationRef)
    : M session_world (option ConversationBinding) :=
  on_store (_read (on_bindings (get_binding conversation))).

(** [gateway/persistence/memory_store.py:1025-1034] _MemoryGatewayStoreSession.put *)
Definition session_put (binding : ConversationBinding) (expected_generation : option Z)
    : M session_world ConversationBinding :=
  fenced (λ lease, _mutate clock lease (
    now ← datetime_now_utc utc_now ; on_bindings (put_binding now binding expected_generation))).

(** [gateway/persistence/memory_store.py:1036-1045] _MemoryGatewayStoreSession.delete *)
Definition session_delete (conversation : ConversationRef) (expected_generation : option Z)
    : M session_world unit :=
  fenced (λ lease, _mutate clock lease (on_bindings (delete_binding conversation expected_generation))).

(** [gateway/persistence/memory_store.py:1047-1053] _MemoryGatewayStoreSession.list_projection_routes *)
Definition session_list_projection_routes (thread_ref : option ThreadRef)
    : M session_world (list ThreadProjectionRoute) :=
  on_store (_read (on_projections (list_projection_routes thread_ref))).

(** [gateway/persistence/memory_store.py:1055-1060] _MemoryGatewayStoreSession.put_projection_route *)
Definition session_put_projection_route (route : ThreadProjectionRoute)
    : M session_world ThreadProjectionRoute :=
  fenced (λ lease, _mutate clock lease (on_projections (put_projection_route route))).

(** [gateway/persistence/memory_store.py:1062-1070] _MemoryGatewayStoreSession.replace_thread_projection_routes *)
Definition session_replace_thread_projection_routes (route : ThreadProjectionRoute)
    : M session_world ThreadProjectionRoute :=
  fenced (λ lease, _mutate clock lease (on_projections (replace_thread_projection_routes route))).

(** [gateway/persistence/memory_store.py:1072-1089] _MemoryGatewayStoreSession.advance_projection_checkpoint *)
Definition session_advance_projection_checkpoint (route_id : pystr)
    (expected_agent_item_id : option pystr) (agent_item_id : pystr) (checkpointed_at : datetime)
    : M session_world ThreadProjectionRoute :=
  fenced (λ lease, _mutate clock lease (on_projections
    (advance_projection_checkpoint route_id expected_agent_item_id agent_item_id checkpointed_at))).

(** [gateway/persistence/memory_store.py:1091-1103] _MemoryGatewayStoreSession.delete_projection_routes *)
Definition session_delete_projection_routes (thread_ref : ThreadRef)
    (conversation_ref : option ConversationRef) : M session_world Z :=
  fenced (λ lease, _mutate clock lease (on_projections
    (delete_projection_routes thread_ref conversation_ref))).

(** [gateway/persistence/memory_store.py:1105-1112] _MemoryGatewayStoreSession.get_turn_reply_correlation *)
Definition session_get_turn_reply_correlation (thread_ref : ThreadRef) (turn_id : pystr)
    : M session_world (option TurnReplyCorrelation) :=
  on_store (_read (on_projections (get_turn_reply_correlation thread_ref turn_id))).

(** [gateway/persistence/memory_store.py:1114-1120] _MemoryGatewayStoreSession.list_turn_reply_correlations *)
Definition session_list_turn_reply_correlations (thread_ref : option ThreadRef)
    : M session_world (list TurnReplyCorrelation) :=
  on_store (_read (on_projections (list_turn_reply_correlations thread_ref))).

(** [gateway/persistence/memory_store.py:1122-1130] _MemoryGatewayStoreSession.put_turn_reply_correlation *)
Definition session_put_turn_reply_correlation (correlation : TurnReplyCorrelation)
    : M session_world TurnReplyCorrelation :=
  fenced (λ lease, _mutate clock lease (on_projections (put_turn_reply_correlation correlation))).

(** [gateway/persistence/memory_store.py:1132-1141] _MemoryGatewayStoreSession.delete_turn_reply_correlation *)
Definition session_delete_turn_reply_correlation (thread_ref : ThreadRef) (turn_id : pystr)
    : M session_world bool :=
  fenced (λ lease, _mutate clock lease (on_projections
    (delete_turn_reply_correlation thread_ref turn_id))).

(** [gateway/persistence/memory_store.py:1143-1158] _MemoryGatewayStoreSession.delete_turn_reply_correlations *)
Definition session_delete_turn_reply_correlations (thread_ref : option ThreadRef)
    (conversation_ref : option ConversationRef) (older_than : option datetime) : M session_world Z :=
  fenced (λ lease, _mutate clock lease (on_projections
    (delete_turn_reply_correlations thread_ref conversation_ref older_than))).

(** [gateway/persistence/memory_store.py:1160-1171] _MemoryGatewayStoreSession.claim *)
Definition session_claim (scope key : pystr) (owner_token : option pystr)
    : M session_world IdempotencyClaimStatus :=
  fenced (λ lease, _mutate clock lease (on_idempotency (claim scope key owner_token))).

(** [gateway/persistence/memory_store.py:1173-1188] _MemoryGatewayStoreSession.mark_side_effect_started *)
Definition session_mark_side_effect_started (scope key : pystr) (owner_token : option pystr)
    : M session_world unit :=
  fenced (λ lease, _mutate clock lease (on_idempotency (mark_side_effect_started scope key owner_token))).

(** [gateway/persistence/memory_store.py:1190-1201] _MemoryGatewayStoreSession.refresh *)
Definition session_refresh (scope key : pystr) (owner_token : option pystr) : M session_world unit :=
  fenced (λ lease, _mutate clock lease (on_idempotency (refresh scope key owner_token))).

(** [gateway/persistence/memory_store.py:1203-1214] _MemoryGatewayStoreSession.complete *)
Definition session_complete (scope key : pystr) (owner_token : option pystr) : M session_world unit :=
  fenced (λ lease, _mutate clock lease (on_idempotency (complete scope key owner_token))).

(** [gateway/persistence/memory_store.py:1216-1227] _MemoryGatewayStoreSession.release *)
Definition session_release (scope key : pystr) (owner_token : option pystr) : M session_world unit :=
  fenced (λ lease, _mutate clock lease (on_idempotency (release scope key owner_token))).

(** [gateway/persistence/memory_store.py:1229-1242] _MemoryGatewayStoreSession.list_request_correlations *)
Definition session_list_request_correlations (request_ref : option RequestRef)
    (thread_ref : option ThreadRef) (conversation_ref : option ConversationRef)
    : M session_world (list RequestRouteCorrelation) :=
  on_store (_read (on_request_correlations
    (list_request_correlations request_ref thread_ref conversation_ref))).

(** [gateway/persistence/memory_store.py:1244-1252] _MemoryGatewayStoreSession.put_request_correlation *)
Definition session_put_request_correlation (correlation : RequestRouteCorrelation)
    : M session_world RequestRouteCorrelation :=
  fenced (λ lease, _mutate clock lease (on_request_correlations (put_request_correlation correlation))).

(** [gateway/persistence/memory_store.py:1254-1271] _MemoryGatewayStoreSession.transition_request_correlations *)
Definition session_transition_request_correlations (request_ref : RequestRef)
    (expected_states : list RequestRouteState) (state : RequestRouteState) (updated_at : datetime)
    : M session_world (list RequestRouteCorrelation) :=
  fenced (λ lease, _mutate clock lease (on_request_correlations
    (transition_request_correlations request_ref expected_states state updated_at))).

(** [gateway/persistence/memory_store.py:1273-1290] _MemoryGatewayStoreSession.delete_request_correlations *)
Definition session_delete_request_correlations (request_ref : option RequestRef)
    (thread_ref : option ThreadRef) (conversation_ref : option ConversationRef)
    (older_than : option datetime) : M session_world Z :=
  fenced (λ lease, _mutate clock lease (on_request_correlations
    (delete_request_correlations request_ref thread_ref conversation_ref older_than))).

(** [gateway/persistence/memory_store.py:1292-1298] _MemoryGatewayStoreSession.get_delivery_submission *)
Definition session_get_delivery_submission (submission_id : pystr)
    : M session_world (option DeliverySubmissionRecord) :=
  on_store (_read (on_delivery_submissions (get_delivery_submission submission_id))).

(** [gateway/persistence/memory_store.py:1300-1308] _MemoryGatewayStoreSession.reserve_delivery_submission *)
Definition session_reserve_delivery_submission (record : DeliverySubmissionRecord)
    : M session_world DeliveryReservation :=
  fenced (λ lease, _mutate clock lease (on_delivery_submissions (reserve_delivery_submission record))).

(** [gateway/persistence/memory_store.py:1310-1327] _MemoryGatewayStoreSession.update_delivery_destination *)
Definition session_update_delivery_destination (submission_id destination_delivery_id : pystr)
    (expected_state : DeliverySubmissionState) (destination : DestinationDeliveryRecord)
    : M session_world DeliverySubmissionRecord :=
  fenced (λ lease, _mutate clock lease (on_delivery_submissions
    (update_delivery_destination submission_id destination_delivery_id expected_state destination))).

End session.

(** * The methods as calls *)

(** The methods that read; they take no fence. *)
Inductive session_query : Type :=
| QLease
| QBindingGeneration (c : ConversationRef)
| QQueuedInput (c : ConversationRef) (message_id : pystr)
| QListQueuedInputs (th : option ThreadRef)
| QEffectReceipt (fp : ActionFingerprint)
| QBinding (c : ConversationRef)
| QRoutes (th : option ThreadRef)
| QTurn (th : ThreadRef) (turn_id : pystr)
| QTurns (th : option ThreadRef)
| QRequests (rq : option RequestRef) (th : option ThreadRef) (cv : option ConversationRef)
| QSubmission (submission_id : pystr).

(** Every method of a session: the queries, the release, and those that call
    the store with the lease. *)
Inductive session_call : Type :=
| SQuery (q : session_query)
| SClose
| SRelease
| SRenew (duration : pyfloat)
| SCheckWorkspaces (identities : list WorkspaceIdentity)
| SFenceQueued (origin : QueuedInputOrigin) (scope key owner : pystr)
| SMergeQueued (origin : QueuedInputOrigin) (receipt : QueuedInputReceipt)
    (turn : option TurnReplyCorrelation)
| SStoreReceipt (fp : ActionFingerprint)
| SPreflightFailure (fp : ActionFingerprint) (error : ActionError)
| SCommitMutation (request : StoreMutationRequest)
| SReserveEffect (fp : ActionFingerprint) (category : EffectCategory) (native_phase_id : pystr)
    (c : option ConversationRef)
| SMarkStarted (fp : ActionFingerprint)
| SRecordOutcome (fp : ActionFingerprint) (phase : EffectPhase) (outcome : ActionOutcome)
| SRecordPreflight (fp : ActionFingerprint) (error : ActionError)
| SCommitWorkflow (fp : ActionFingerprint) (target : BindingTarget)
    (route : option ThreadProjectionRoute)
| SPut (binding : ConversationBinding) (expected : option Z)
| SDelete (c : ConversationRef) (expected : option Z)
| SProjection (op : projection_op)
| SIdempotency (op : idem_op) (scope key : pystr) (owner : option pystr)
| SRequests (op : rc_op)
| SSubmission (op : submission_op).

Definition ignore {A} (m : M session_world A) : M session_world unit := m ;; mret ().

Section calls.
Context (clock : nat → datetime) (utc_now : nat → Z).

Definition run_session_query (q : session_query) : M session_world unit :=
  match q with
  | QLease => ignore session_lease
  | QBindingGeneration c => ignore (session_get_binding_generation c)
  | QQueuedInput c m => ignore (session_get_queued_input c m)
  | QListQueuedInputs th => ignore (session_list_queued_inputs th)
  | QEffectReceipt fp => ignore (session_get_effect_receipt fp)
  | QBinding c => ignore (session_get c)
  | QRoutes th => ignore (session_list_projection_routes th)
  | QTurn th i => ignore (session_get_turn_reply_correlation th i)
  | QTurns th => ignore (session_list_turn_reply_correlations th)
  | QRequests rq th cv => ignore (session_list_request_correlations rq th cv)
  | QSubmission i => ignore (session_get_delivery_submission i)
  end.

Definition run_session_projection (op : projection_op) : M session_world unit :=
  match op with
  | PutRoute r => ignore (session_put_projection_route clock r)
  | ReplaceRoutes r => ignore (session_replace_thread_projection_routes clock r)
  | AdvanceCheckpoint i e a t => ignore (session_advance_projection_checkpoint clock i e a t)
  | DeleteRoutes th cv => ignore (session_delete_projection_routes clock th cv)
  | PutTurn c => ignore (session_put_turn_reply_correlation clock c)
  | DeleteTurn th i => ignore (session_delete_turn_reply_correlation clock th i)
  | DeleteTurns th cv older => ignore (session_delete_turn_reply_correlations clock th cv older)
  end.

Definition run_session_idempotency (op : idem_op) (scope key : pystr) (owner : option pystr)
    : M session_world unit :=
  match op with
  | OpClaim => ignore (session_claim clock scope key owner)
  | OpComplete => session_complete clock scope key owner
  | OpMarkStarted => session_mark_side_effect_started clock scope key owner
  | OpRefresh => session_refresh clock scope key owner
  | OpRelease => session_release clock scope key owner
  end.

Definition run_session_requests (op : rc_op) : M session_world unit :=
  match op with
  | PutCorrelation c => ignore (session_put_request_correlation clock c)
  | TransitionCorrelations rq e st t => ignore (session_transition_request_correlations clock rq e st t)
  | DeleteCorrelations rq th cv older => ignore (session_delete_request_correlations clock rq th cv older)
  end.

Definition run_session_submission (op : submission_op) : M session_world unit :=
  match op with
  | Reserve r => ignore (session_reserve_delivery_submission clock r)
  | UpdateDestination i d e r => ignore (session_update_delivery_destination clock i d e r)
  end.

Definition run_session_call (c : session_call) : M session_world unit :=
  match c with
  | SQuery q => run_session_query q
  | SClose => session_close clock
  | SRelease => session_release_runtime clock
  | SRenew d => ignore (session_renew clock d)
  | SCheckWorkspaces ids => session_check_workspace_identities clock ids
  | SFenceQueued o s k t => ignore (session_fence_queued_input clock o s k t)
  | SMergeQueued o r t => ignore (session_merge_queued_input_receipt clock o r t)
  | SStoreReceipt fp => ignore (session_get_store_mutation_receipt clock fp)
  | SPreflightFailure fp e => ignore (session_commit_store_preflight_failure clock fp e)
  | SCommitMutation r => ignore (session_commit_store_mutation clock r)
  | SReserveEffect fp cat n r => ignore (session_reserve_effect clock fp cat n r)
  | SMarkStarted fp => ignore (session_mark_native_side_effect_started clock fp)
  | SRecordOutcome fp p o => ignore (session_record_effect_outcome clock fp p o)
  | SRecordPreflight fp e => ignore (session_record_effect_preflight_failure clock fp e)
  | SCommitWorkflow fp t r => ignore (session_commit_workflow_binding clock fp t r)
  | SPut b e => ignore (session_put clock utc_now b e)
  | SDelete r e => session_delete clock r e
  | SProjection op => run_session_projection op
  | SIdempotency op s k o => run_session_idempotency op s k o
  | SRequests op => run_session_requests op
  | SSubmission op => run_session_submission op
  end.

(** The store's call behind a method that writes. *)
Definition store_call_of (c : session_call) (fence : RuntimeLease) : option store_op :=
  match c with
  | SQuery _ | SStoreReceipt _ => None
  | SClose | SRelease => Some (Release fence)
  | SRenew d => Some (Renew fence d)
  | SCheckWorkspaces ids => Some (CheckWorkspaces fence ids)
  | SFenceQueued o s k t => Some (FenceQueued fence o s k t)
  | SMergeQueued o r t => Some (MergeQueued fence o r t)
  | SPreflightFailure fp e => Some (PreflightFailure fence fp e)
  | SCommitMutation r => Some (CommitMutation fence r)
  | SReserveEffect fp cat n r => Some (ReserveEffect fence fp cat n r)
  | SMarkStarted fp => Some (MarkStarted fence fp)
  | SRecordOutcome fp p o => Some (RecordOutcome fence fp p o)
  | SRecordPreflight fp e => Some (RecordPreflight fence fp e)
  | SCommitWorkflow fp t r => Some (CommitWorkflow fence fp t r)
  | SPut b e => Some (OnBindings fence (Some b) (cb_conversation_ref b) e)
  | SDelete r e => Some (OnBindings fence None r e)
  | SProjection op => Some (OnProjections fence op)
  | SIdempotency op s k o => Some (OnIdempotency fence op s k o)
  | SRequests op => Some (OnRequests fence op)
  | SSubmission op => Some (OnSubmissions fence op)
  end.

(** ** Two computations with the same effect and success *)

Definition same_effect {A B} (m : M world A) (m' : M world B) : Prop :=
  ∀ w, (m w).2 = (m' w).2 ∧ is_ok (m w).1 = is_ok (m' w).1.

Lemma same_effect_refl {A} (m : M world A) : same_effect m m.
Proof. done. Qed.

Lemma same_effect_forget {A} (m : M world A) : same_effect m (forget m).
Proof. intros w. by rewrite forget_world, forget_ok. Qed.

Lemma same_effect_after {A B C} (m0 : M world C) (m : C → M world A) (m' : C → M world B) :
  (∀ c, same_effect (m c) (m' c)) → same_effect (m0 ≫= m) (m0 ≫= m').
Proof. intros H w. unfold mbind, M_bind. destruct (m0 w) as [[c|e] w0]; [apply H|done]. Qed.

Lemma same_effect_on_repo {R A} (view : MemoryGatewayStore → R) upd (m : M R A) :
  same_effect (on_repo view upd m) (on_repo view upd (m ;; mret ())).
Proof. intros w. unfold on_repo, zoom, mbind, M_bind. by destruct (m (view (w_store w))) as [[a|e] t]. Qed.

Lemma same_effect_mutate {A B} fence (m : M world A) (m' : M world B) :
  same_effect m m' → same_effect (_mutate clock fence m) (_mutate clock fence m').
Proof. intros H. apply same_effect_after. intros _. exact H. Qed.

(** A method that calls the store with the lease, against a call of the store. *)
Definition acts_as {A} (m : M session_world A) (op : RuntimeLease → store_op) : Prop :=
  ∀ x, let '(r, x') := m x in
    let done := run_store_op clock utc_now (op (ss_lease (sw_session x))) (sw_world x) in
    if ss_closed (sw_session x) then x' = x ∧ r = Err StaleRuntimeFence
    else sw_world x' = done.2 ∧ is_ok r = is_ok done.1.

Lemma after_require_open {A} (m : M session_world A) x :
  (session_require_open ;; m) x
    = if ss_closed (sw_session x) then (Err StaleRuntimeFence, x) else m x.
Proof. by destruct x as [[lease []] w]. Qed.

Lemma fenced_acts_as {A} (m : RuntimeLease → M world A) op :
  (∀ lease, same_effect (m lease) (run_store_op clock utc_now (op lease))) →
  acts_as (fenced m) op.
Proof.
  intros H [[lease closed] w]. unfold fenced. rewrite after_require_open. cbn [ss_closed sw_session].
  destruct closed; [done|]. destruct (H lease w) as [Hw Hr].
  unfold session_lease, on_store, zoom, gets, mbind, M_bind. cbn [sw_session sw_world ss_lease].
  by destruct (m lease w) as [r w'].
Qed.

Lemma ignore_acts_as {A} (m : M session_world A) op : acts_as m op → acts_as (ignore m) op.
Proof.
  intros H x. specialize (H x). unfold ignore, mbind, M_bind.
  destruct (m x) as [[a|e] x'], (ss_closed (sw_session x)); try done.
  - by destruct H.
  - by destruct H as [-> [= ->]].
Qed.

Lemma renew_acts_as d : acts_as (session_renew clock d) (λ lease, Renew lease d).
Proof.
  intros [[lease closed] w]. unfold session_renew. rewrite after_require_open.
  cbn [ss_closed sw_session]. destruct closed; [done|].
  unfold session_lease, on_store, zoom, gets, modify, mbind, M_bind.
  cbn [sw_session sw_world ss_lease run_store_op].
  pose proof (forget_world (_renew clock lease d) w) as Hw.
  pose proof (forget_ok (_renew clock lease d) w) as Hr.
  by destruct (_renew clock lease d w) as [[l|e] w'].
Qed.

Definition is_release (c : session_call) : bool :=
  match c with SClose | SRelease => true | _ => false end.

(** Every writing method but the release acts as its call of the store. *)
Lemma session_call_acts_as c :
  is_release c = false → (∃ fence op, store_call_of c fence = Some op) →
  ∃ opf, (∀ fence, store_call_of c fence = Some (opf fence)) ∧ acts_as (run_session_call c) opf.
Proof.
  intros Hr (fence & op & Hop). destruct c; try done; (eexists; split; [intros; reflexivity|]);
    cbn [run_session_call];
    try (apply ignore_acts_as; first
      [apply renew_acts_as | apply fenced_acts_as; intros lease; exact (same_effect_forget _)]).
  - by apply fenced_acts_as.
  - apply ignore_acts_as, fenced_acts_as. intros lease. apply same_effect_mutate.
    apply (same_effect_after (datetime_now_utc utc_now)). intros now. apply same_effect_forget.
  - by apply fenced_acts_as.
  - destruct op0; cbn [run_session_projection];
      apply ignore_acts_as, fenced_acts_as; intros lease; apply same_effect_mutate, same_effect_on_repo.
  - destruct op0; cbn [run_session_idempotency]; try (by apply fenced_acts_as).
    apply ignore_acts_as, fenced_acts_as; intros lease; apply same_effect_mutate, same_effect_on_repo.
  - destruct op0; cbn [run_session_requests];
      apply ignore_acts_as, fenced_acts_as; intros lease; apply same_effect_mutate, same_effect_on_repo.
  - destruct op0; cbn [run_session_submission];
      apply ignore_acts_as, fenced_acts_as; intros lease; apply same_effect_mutate, same_effect_on_repo.
Qed.

Lemma release_call x :
  let '(r, x') := session_release_runtime clock x in
  let done := _release clock (ss_lease (sw_session x)) (sw_world x) in
  if ss_closed (sw_session x) then x' = x ∧ r = Ok ()
  else sw_world x' = done.2 ∧ is_ok r = is_ok done.1 ∧
       ss_lease (sw_session x') = ss_lease (sw_session x) ∧ ss_closed (sw_session x') = is_ok r.
Proof.
  destruct x as [[lease closed] w]. unfold session_release_runtime, session_lease, on_store, zoom,
    gets, modify, mbind, M_bind. destruct closed; cbn; [done|].
  by destruct (_release clock lease w) as [[[]|e] w'].
Qed.

(** ** The queries *)

Definition reads_only {A} (m : M session_world A) : Prop :=
  ∀ x, w_store (sw_world (m x).2) = w_store (sw_world x) ∧ sw_session (m x).2 = sw_session x.

Lemma reads_only_ignore {A} (m : M session_world A) : reads_only m → reads_only (ignore m).
Proof. intros H x. specialize (H x). unfold ignore, mbind, M_bind. by destruct (m x) as [[a|e] x']. Qed.

Lemma reads_only_on_store {A} (m : M world A) :
  (∀ w, wp m (λ _ w', w_store w' = w_store w) w) → reads_only (on_store m).
Proof.
  intros H [s w]. specialize (H w). unfold on_store, zoom, wp in *. cbn.
  by destruct (m w) as [r w'].
Qed.

Lemma reads_only_open {A} (m : M session_world A) :
  reads_only m → reads_only (session_require_open ;; m).
Proof. intros H x. rewrite after_require_open. by destruct (ss_closed _). Qed.

Lemma reads_only_fenced {A} (m : RuntimeLease → M world A) :
  (∀ lease w, wp (m lease) (λ _ w', w_store w' = w_store w) w) → reads_only (fenced m).
Proof. intros H. apply reads_only_open. intros x. apply reads_only_on_store, H. Qed.

(** A query of a repository: it does not change its state. *)
Lemma read_query {R A} (view : MemoryGatewayStore → R) upd (m : M R A) w :
  (∀ s, upd (view s) s = s) → (∀ r, (m r).2 = r) →
  wp (_read (on_repo view upd m)) (λ _ w', w_store w' = w_store w) w.
Proof.
  intros Hid Hm. apply wp_bind, wp_require_open; [done|]. intros _. apply wp_zoom. unfold wp.
  cbn. by rewrite Hm, Hid.
Qed.

Lemma query_reads_only q : reads_only (run_session_query q).
Proof.
  destruct q; cbn [run_session_query]; apply reads_only_ignore;
    try (apply reads_only_on_store; intros w; apply read_query; by intros []).
  - by intros [s w].
  - apply reads_only_on_store. intros w. by apply wp_bind, wp_require_open.
  - apply reads_only_open, reads_only_on_store. intros w.
    apply wp_bind_lift; [intros [] _|done]. by apply wp_bind, wp_require_open.
  - apply reads_only_open, reads_only_on_store. intros w.
    apply wp_bind_lift; [intros [] _|done]. by apply wp_bind, wp_require_open.
  - apply reads_only_on_store. intros w. apply wp_bind_lift; [intros [] _|done].
    apply wp_bind, wp_require_open; [done|]. intros _. apply wp_bind, wp_sget.
    destruct (d_get _ _); [|done]. apply wp_bind_lift; [intros [] _|done]. done.
Qed.

Lemma store_receipt_reads_only fp : reads_only (session_get_store_mutation_receipt clock fp).
Proof.
  apply reads_only_fenced. intros lease w. apply wp_bind_lift; [intros [] _|done].
  apply wp_bind, wp_assert_fence; [done|]. intros _. by apply wp_existing.
Qed.
End calls.

Lemma is_ok_Ok {A} (r : res A) : is_ok r = true → ∃ a, r = Ok a.
Proof. destruct r; [by eexists|done]. Qed.

(** A release that returned: the fence held, and the lease now ends at the
    second reading of the clock. *)
Lemma release_ok clock fence w :
  (_release clock fence w).1 = Ok () →
  fence_holds fence (w_store w) (clock (w_ticks w)) ∧
  (_release clock fence w).2 =
    {| w_store := set_lease (Some (with_expiry fence (clock (S (w_ticks w))))) (w_store w);
       w_ticks := S (S (w_ticks w)) |}.
Proof.
  enough (wp (_release clock fence) (λ r w', r = Ok () →
    fence_holds fence (w_store w) (clock (w_ticks w)) ∧
    w' = {| w_store := set_lease (Some (with_expiry fence (clock (S (w_ticks w))))) (w_store w);
            w_ticks := S (S (w_ticks w)) |}) w) as H by exact H.
  apply wp_bind, wp_assert_fence; [done|]. intros Hf.
  apply wp_bind, wp_now; [done|]. intros _. by apply wp_sset.
Qed.

Lemma wp_open_ok (Q : res unit → world → Prop) w :
  ms_closed (w_store w) = false → Q (Ok ()) w → wp _require_open_locked Q w.
Proof. intros Ho HQ. apply wp_bind, wp_sget, wp_raise_if; [congruence|done]. Qed.

Lemma wp_now_ok clock (Q : res datetime → world → Prop) w :
  ¬ tz_is_none (clock (w_ticks w)) → Q (Ok (clock (w_ticks w))) (tick w) → wp (_now_locked clock) Q w.
Proof. intros Htz HQ. apply wp_bind. unfold read_clock. wp_run; done. Qed.

(** * The guarantees of a session *)

Section guarantees.
Context (clock : nat → datetime) (utc_now : nat → Z).
Abbreviation run := (run_store_op clock utc_now).
Abbreviation call := (run_session_call clock utc_now).

(** Every method of a session is a call of the store with the lease of the
    session, or a query: a method of an open session does to the store what
    its call does and succeeds when the call does; a closed session refuses
    every writing method without touching the store, other than its release,
    which returns; a query leaves the store as it is. *)
Theorem session_methods_are_fenced_store_calls c x :
  let '(r, x') := call c x in
  match store_call_of c (ss_lease (sw_session x)) with
  | None => w_store (sw_world x') = w_store (sw_world x)
  | Some op =>
      fence_of op = Some (ss_lease (sw_session x)) ∧
      if ss_closed (sw_session x) then x' = x ∧ is_ok r = is_release c
      else sw_world x' = (run op (sw_world x)).2 ∧ is_ok r = is_ok (run op (sw_world x)).1
  end.
Proof.
  destruct (is_release c) eqn:Hrel.
  { pose proof (release_call clock x) as H.
    destruct c; try done; cbn [run_session_call store_call_of]; unfold session_close;
      destruct (session_release_runtime clock x) as [r x']; (split; [done|]);
      destruct (ss_closed (sw_session x)); try (destruct H as [-> ->]; done);
      by destruct H as (? & ? & _). }
  destruct (store_call_of c (ss_lease (sw_session x))) as [op|] eqn:Hop.
  - assert (fence_of op = Some (ss_lease (sw_session x))) as Hf
      by (destruct c; try done; by injection Hop as <-).
    destruct (session_call_acts_as clock utc_now c Hrel) as (opf & Hopf & Hact); [by eauto|].
    specialize (Hact x). rewrite Hopf in Hop. injection Hop as <-.
    destruct (call c x) as [r x']. split; [exact Hf|].
    destruct (ss_closed (sw_session x)); [by destruct Hact as [-> ->]|exact Hact].
  - assert (reads_only (call c)) as Hro.
    { destruct c; try done; cbn [run_session_call]; [apply query_reads_only|].
      apply reads_only_ignore, store_receipt_reads_only. }
    destruct (Hro x) as [Hw _]. by destruct (call c x).
Qed.

Hypothesis clock_mono : ∀ i j, (i ≤ j)%nat → dt_us (clock i) ≤ dt_us (clock j).

(** C4. A session without the lease is powerless: from the moment its lease has
    been released through it, or the store holds a lease of a later epoch, no
    method of the session changes the store, however the store is used by
    others in between. *)
Theorem session_without_the_lease_writes_nothing c w x lease :
  world_inv clock w → ms_lease (w_store w) = Some lease →
  rtc (world_step clock utc_now) w (sw_world x) →
  ss_closed (sw_session x) = true ∨ rl_epoch (ss_lease (sw_session x)) < rl_epoch lease →
  w_store (sw_world (call c x).2) = w_store (sw_world x).
Proof.
  intros Hi Hl Hr Hno.
  assert (world_inv clock (sw_world x)) as Hi' by by eapply reachable_inv.
  destruct (store_call_of c (ss_lease (sw_session x))) as [op|] eqn:Hop.
  2: { destruct (is_release c) eqn:Hrel; [by destruct c|].
       assert (reads_only (call c)) as Hro.
       { destruct c; try done; cbn [run_session_call]; [apply query_reads_only|].
         apply reads_only_ignore, store_receipt_reads_only. }
       by destruct (Hro x). }
  assert (∀ done : res unit * world, run op (sw_world x) = done →
    fence_of op = Some (ss_lease (sw_session x)) → rl_epoch (ss_lease (sw_session x)) < rl_epoch lease →
    w_store done.2 = w_store (sw_world x)) as Hover.
  { intros done <- Hf Hlt. pose proof (op_needs_fence clock utc_now op _ (sw_world x) Hf) as Hneed.
    pose proof (op_refines clock utc_now clock_mono op (sw_world x) Hi' ltac:(by destruct op)) as [_ Href].
    destruct (run op (sw_world x)) as [[u|e] w'] eqn:Hrun; cbn in *; [|exact Href].
    exfalso. unfold wp in Hneed. rewrite Hrun in Hneed.
    destruct (Hneed eq_refl) as (_ & _ & c' & Hc' & _ & _ & He & _).
    destruct (reachable_lease clock utc_now clock_mono w (sw_world x) Hi Hr) as [_ Hev].
    destruct (Hev lease Hl) as (c2 & Hc2 & Hcase). assert (c2 = c') as -> by congruence.
    destruct Hcase as [?|(? & _)]; lia. }
  assert (fence_of op = Some (ss_lease (sw_session x))) as Hf
    by (destruct c; try done; by injection Hop as <-).
  destruct (is_release c) eqn:Hrel.
  - pose proof (release_call clock x) as H. destruct c; try done; injection Hop as <-;
      cbn [run_session_call]; unfold session_close;
      destruct (session_release_runtime clock x) as [r x']; cbn;
      destruct (ss_closed (sw_session x)); try (by destruct H as [-> _]);
      destruct H as [-> _]; destruct Hno as [?|Hlt]; try done;
      by apply (Hover (run (Release (ss_lease (sw_session x))) (sw_world x))).
  - destruct (session_call_acts_as clock utc_now c Hrel) as (opf & Hopf & Hact); [by eauto|].
    specialize (Hact x). rewrite Hopf in Hop. injection Hop as <-.
    destruct (call c x) as [r x']. cbn.
    destruct (ss_closed (sw_session x)); [by destruct Hact as [-> _]|].
    destruct Hact as [-> _], Hno as [?|Hlt]; [done|]. by apply (Hover _ eq_refl).
Qed.

(** A released lease is free at once: after a release that returned, any
    owner acquires the same Gateway in an open store, with the next epoch, as
    long as the clock reads aware times and the lease's end is a valid time. *)
Theorem released_lease_is_free x x' g o d expiry :
  world_inv clock (sw_world x) → ss_closed (sw_session x) = false →
  session_release_runtime clock x = (Ok (), x') →
  rl_gateway_id (ss_lease (sw_session x)) = g → identifier o → validate_lease_duration d = Ok () →
  (∀ n, ¬ tz_is_none (clock n)) → lease_expiry (clock (w_ticks (sw_world x'))) d = Ok expiry →
  ∃ l w', acquire_runtime clock g o d (sw_world x') = (Ok l, w') ∧
    rl_epoch l = ms_epoch (w_store (sw_world x')) + 1 ∧ rl_owner_token l = o.
Proof.
  intros Hi Hopen Hrel Hg Ho Hd Haware Hexp.
  pose proof (release_call clock x) as Hcall. rewrite Hrel, Hopen in Hcall.
  destruct Hcall as (Hw & Hok & _ & _). destruct (is_ok_Ok _ (eq_sym Hok)) as [[] Hok'].
  destruct (release_ok clock (ss_lease (sw_session x)) (sw_world x)) as (Hf & Hw'); [done|].
  rewrite Hw' in Hw. destruct x' as [s' w']; cbn in *. subst w'.
  set (fence := ss_lease (sw_session x)) in *. set (n := w_ticks (sw_world x)) in *.
  destruct Hf as (Hclosed & _ & l & Hl & Hlg & _).
  destruct (st_lease _ (wi_store _ _ Hi) l Hl) as (Hns & _ & _).
  assert (identifier g) as Hgid.
  { apply (st_namespace _ (wi_store _ _ Hi)). rewrite Hns. congruence. }
  pose proof (st_epoch _ (wi_store _ _ Hi)) as Hep.
  enough (wp (acquire_runtime clock g o d) (λ r _, ∃ l, r = Ok l ∧
    rl_epoch l = ms_epoch (w_store (sw_world x)) + 1 ∧ rl_owner_token l = o)
    {| w_store := set_lease (Some (with_expiry fence (clock (S n)))) (w_store (sw_world x));
       w_ticks := S (S n) |}) as H.
  { unfold wp in H. destruct (acquire_runtime _ _ _ _ _) as [r w2].
    cbn in H. destruct H as (l2 & -> & ?). by exists l2, w2. }
  unfold acquire_runtime.
  rewrite (proj2 (require_identifier_ok g "gateway_id" tt)), (proj2 (require_identifier_ok o "owner_token" tt)), Hd by done.
  do 3 (apply wp_bind_lift; [intros [] _|done]).
  apply wp_bind, wp_open_ok; [done|].
  apply wp_bind, wp_sget. cbn [w_store ms_namespace_id set_lease].
  rewrite Hns, Hlg, Hg. apply wp_bind, wp_raise_if; [by intros []|]. intros _.
  apply wp_bind, wp_now_ok; [done|]. apply wp_bind, wp_sget. cbn [w_store w_ticks ms_lease set_lease tick].
  assert (dt_ltb (clock (S (S n))) (rl_expires_at (with_expiry fence (clock (S n)))) = Ok false) as ->.
  { cbn. pose proof (clock_mono (S n) (S (S n)) ltac:(lia)) as Hm.
    pose proof (Haware (S n)) as H1. pose proof (Haware (S (S n))) as H2. unfold dt_ltb.
    destruct (clock (S n)), (clock (S (S n))); cbn in *; try done. f_equal. case_bool_decide; [lia|done]. }
  apply wp_bind_lift; [intros ? [= <-]|done]. apply wp_bind, wp_bind, wp_sset, wp_bind, wp_sget.
  cbn [w_ticks] in Hexp. rewrite Hexp. apply wp_bind_lift; [intros e [= <-]|done]. apply wp_ret. cbn.
  assert (¬ tz_is_none expiry) as Haw by (eapply lease_expiry_aware; [exact Hexp|apply Haware]).
  apply wp_bind_lift.
  - intros [] _. apply wp_bind, wp_sset, wp_ret. eexists. done.
  - intros e He. exfalso. revert He. unfold validate_runtime_lease. cbn.
    rewrite (proj2 (require_identifier_ok g "gateway_id" tt)), (proj2 (require_identifier_ok o "owner_token" tt)) by done.
    unfold raise_if. rewrite !decide_False by (done || lia). done.
Qed.
End guarantees.

(** ** The theorems applied *)

Section witnesses.
Import Examples.

(** An open session that has the lease, and one whose lease was overtaken. *)
Definition example_session : session_world := {|
  sw_session := {| ss_lease := lease; ss_closed := false |}; sw_world := leased |}.
Definition overtaken_world : world := Eval vm_compute in
  run_all [acquire; Release lease; Acquire gateway (py "other") (seconds 60)] empty_world.
Definition overtaken_session : session_world := {|
  sw_session := {| ss_lease := lease; ss_closed := false |}; sw_world := overtaken_world |}.
Lemma overtaken_world_inv : world_inv clock overtaken_world.
Proof.
  assert (run_all [acquire; Release lease; Acquire gateway (py "other") (seconds 60)] empty_world
    = overtaken_world) as <- by (vm_compute; reflexivity). apply run_all_inv.
Qed.

Lemma session_without_the_lease_writes_nothing_witness :
  w_store (sw_world (run_session_call clock utc_now (SCommitMutation (bind_request 3 None))
    overtaken_session).2) = w_store overtaken_world.
Proof.
  apply (session_without_the_lease_writes_nothing clock utc_now clock_mono
    (SCommitMutation (bind_request 3 None)) overtaken_world
    overtaken_session (Build_RuntimeLease gateway (py "other") 2 (Aware 63000000)));
    [exact overtaken_world_inv|reflexivity|constructor|right; reflexivity].
Defined.

Definition released_session : session_world := Eval vm_compute in
  (session_release_runtime clock example_session).2.
Lemma leased_inv : world_inv clock leased.
Proof. exact (run_all_inv [acquire]). Qed.

Lemma released_lease_is_free_witness :
  session_release_runtime clock example_session = (Ok (), released_session) ∧
  ∃ l w', acquire_runtime clock gateway (py "other") (seconds 60) (sw_world released_session)
      = (Ok l, w') ∧ rl_epoch l = 2.
Proof.
  assert (session_release_runtime clock example_session = (Ok (), released_session)) as Heq
    by (vm_compute; reflexivity). split; [exact Heq|].
  destruct (released_lease_is_free clock clock_mono example_session released_session gateway (py "other")
    (seconds 60) (Aware 63000000)) as (l & w' & Ha & He & _);
    [exact leased_inv|reflexivity|exact Heq|reflexivity|split; [discriminate|vm_compute; discriminate]
    |vm_compute; reflexivity|intros n []|vm_compute; reflexivity|].
  exists l, w'. split; [exact Ha|exact He].
Defined.
End witnesses.
