(* ===== verification/EffectExecution.v ===== *)
(** The durable executor of [gateway/effect_execution.py],
    [StoreBackedGatewayEffectExecutor], over the interface of a store session.

    The executor is asynchronous: whenever it awaits, other tasks may run and
    its own task may be cancelled.  Its state counts the awaits; [schedule k] is
    what others do to the session and its store before the [k]-th await is
    served, [interrupts k] whether the await is cancelled, before or after the
    awaited operation took place.  A callback is the outcome it would have at
    each await.  The native invocations are logged by their phase id. *)

From S2P Require Export StoreSession.
From stdpp Require Import list.
#[local] Open Scope Z_scope.
#[local] Open Scope stdpp_scope.

(** [try: m except ...: h]. *)
Definition catch {S A} (m : M S A) (h : exn → M S A) : M S A := λ s,
  match m s with
  | (Ok a, s') => (Ok a, s')
  | (Err e, s') => h e s'
  end.

(** * The interface of a session *)

(** The operations of [GatewayStoreSession] the executor uses.
    [gateway/persistence/store.py] *)
Class EffectSession (S : Type) := {
  get_store_mutation_receipt : ActionFingerprint → M S (option EffectReceipt);
  commit_store_preflight_failure : ActionFingerprint → ActionError → M S EffectReceipt;
  commit_store_mutation : StoreMutationRequest → M S EffectReceipt;
  reserve_effect : ActionFingerprint → EffectCategory → pystr → option ConversationRef →
    M S EffectReceipt;
  get_effect_receipt : ActionFingerprint → M S (option EffectReceipt);
  mark_native_side_effect_started : ActionFingerprint → M S (EffectReceipt * bool);
  record_effect_outcome : ActionFingerprint → EffectPhase → ActionOutcome → M S EffectReceipt;
  record_effect_preflight_failure : ActionFingerprint → ActionError → M S EffectReceipt;
  commit_workflow_binding : ActionFingerprint → BindingTarget → option ThreadProjectionRoute →
    M S EffectReceipt;
}.

(** The session of the in-memory store is one. *)
Definition memory_effect_session (clock : nat → datetime) : EffectSession session_world := {|
  get_store_mutation_receipt := session_get_store_mutation_receipt clock;
  commit_store_preflight_failure := session_commit_store_preflight_failure clock;
  commit_store_mutation := session_commit_store_mutation clock;
  reserve_effect := session_reserve_effect clock;
  get_effect_receipt := session_get_effect_receipt;
  mark_native_side_effect_started := session_mark_native_side_effect_started clock;
  record_effect_outcome := session_record_effect_outcome clock;
  record_effect_preflight_failure := session_record_effect_preflight_failure clock;
  commit_workflow_binding := session_commit_workflow_binding clock;
|}.

(** * Awaiting *)

Inductive interrupt : Type := Runs | CancelledBefore | CancelledAfter.
#[export] Instance interrupt_eq_dec : EqDecision interrupt.
Proof. solve_decision. Defined.

Record exec_world (S : Type) := {
  xw_session : S;
  xw_awaits : nat;
  xw_invoked : list pystr;
}.
Arguments Build_exec_world {S} _ _ _.
Arguments xw_session {S} _.
Arguments xw_awaits {S} _.
Arguments xw_invoked {S} _.

(** A callback of the executor: its outcome at each await. *)
Definition callback (A : Type) : Type := nat → res A.

(** [gateway/effect_execution.py:51-58] StoreEffectCommitFence: entering gives
    the error to report, if any; leaving does not swallow an exception *)
Record CommitFence := {
  cf_enter : callback (option ActionError);
  cf_exit : callback unit;
}.

(** * Outcomes and codes *)

(** [gateway/persistence/store.py:37-70] GatewayStoreError and its subclasses *)
Definition is_store_error (e : exn) : bool :=
  match e with
  | GatewayNamespaceConflict | RuntimeLeaseUnavailable | StaleRuntimeFence | EffectReceiptConflict
  | EffectReceiptCapacityError | QueuedInputFenceConflict | QueuedInputReceiptConflict
  | WorkspaceIdentityConflict => true
  | _ => false
  end.

(** [gateway/effect_execution.py:769-776] _store_error_code *)
Definition _store_error_code (error : exn) : ActionErrorCode :=
  match error with
  | EffectReceiptConflict => AE_CONFLICT
  | EffectReceiptCapacityError => AE_CAPACITY_EXHAUSTED
  | StaleRuntimeFence => AE_STALE_RUNTIME
  | _ => AE_STORE_FAILURE
  end.

(** [gateway/effect_execution.py:779-782] _required_outcome *)
Definition _required_outcome {S} (receipt : EffectReceipt) : M S ActionOutcome :=
  match er_outcome receipt with
  | None => mraise RuntimeError
  | Some outcome => mret outcome
  end.

(** [gateway/effect_execution.py:785-788] _unknown_outcome *)
Definition _unknown_outcome (code : ActionErrorCode) : ActionOutcome :=
  OutcomeUnknown (action_error code).
Definition failed (code : ActionErrorCode) : ActionOutcome := Failed (action_error code).

(** [gateway/effect_execution.py:791-798] _validate_known_native_outcome *)
Definition _validate_known_native_outcome (outcome : ActionOutcome) : res unit :=
  match outcome with
  | Succeeded value => validate_effect_value value
  | Failed _ => Ok ()
  | _ => Err TypeError
  end.

(** [gateway/effect_execution.py:801-822] _validate_workflow_created_value *)
Definition _validate_workflow_created_value (request : CreateBindingWorkflowRequest)
    (value : EffectValue) : res unit :=
  match ev_reference value with
  | None => Err ValueError
  | Some reference =>
      match cw_kind request with
      | CREATE_AND_SELECT_PROJECT =>
          raise_if (sf_kind reference ≠ SK_PROJECT
                    ∨ sf_application_instance_id reference
                      ≠ ar_application_instance_id (cw_application_ref request)) ValueError
      | CREATE_AND_BIND_THREAD =>
          match cw_project_ref request with
          | None => Err ValueError
          | Some project_ref =>
              raise_if (sf_kind reference ≠ SK_THREAD
                        ∨ sf_application_instance_id reference ≠ pr_application_instance_id project_ref
                        ∨ sf_project_id reference ≠ Some (pr_project_id project_ref)) ValueError
          end
      end
  end.

(** [gateway/effect_execution.py:825-830] _validate_workflow_known_outcome *)
Definition _validate_workflow_known_outcome (request : CreateBindingWorkflowRequest)
    (outcome : ActionOutcome) : res unit :=
  match outcome with
  | Succeeded value => _validate_workflow_created_value request value
  | _ => Ok ()
  end.

(** [gateway/effect_execution.py:833-869] _workflow_binding_plan *)
Definition _workflow_binding_plan (request : CreateBindingWorkflowRequest) (value : EffectValue)
    : res (BindingTarget * option ThreadProjectionRoute) :=
  match ev_reference value with
  | None => Err ValueError
  | Some reference =>
      resource ← to_value reference ;
      match cw_kind request, resource with
      | CREATE_AND_SELECT_PROJECT, SV_project project_ref =>
          Ok ({|
            bt_conversation_ref := cw_conversation_ref request;
            bt_application_ref := Some (cw_application_ref request);
            bt_project_ref := Some project_ref;
            bt_thread_ref := None;
          |}, None)
      | CREATE_AND_SELECT_PROJECT, _ => Err ValueError
      | CREATE_AND_BIND_THREAD, SV_thread thread_ref =>
          let target := {|
            bt_conversation_ref := cw_conversation_ref request;
            bt_application_ref := Some (cw_application_ref request);
            bt_project_ref := Some (th_project_ref thread_ref);
            bt_thread_ref := Some thread_ref;
          |} in
          if cw_foreground_route request then
            route_id ← derive_projection_route_id thread_ref (cw_conversation_ref request) ;
            Ok (target, Some {|
              tr_route_id := route_id;
              tr_thread_ref := thread_ref;
              tr_conversation_ref := cw_conversation_ref request;
              tr_reply_to_message_id := None;
              tr_checkpoint_agent_item_id := None;
              tr_checkpointed_at := None;
              tr_updated_at := None;
            |})
          else Ok (target, None)
      | CREATE_AND_BIND_THREAD, _ => Err ValueError
      end
  end.

(** * The executor *)

Section executor.
Context {S : Type} `{EffectSession S}.
Context (schedule : nat → S → S) (interrupts : nat → interrupt).
Abbreviation E := (M (exec_world S)).

(** What others do before the await at hand is served; then it is the next. *)
Definition others_run (x : exec_world S) : exec_world S := {|
  xw_session := schedule (xw_awaits x) (xw_session x);
  xw_awaits := Datatypes.S (xw_awaits x);
  xw_invoked := xw_invoked x |}.
Definition set_exec_session (s : S) (x : exec_world S) : exec_world S := {|
  xw_session := s; xw_awaits := xw_awaits x; xw_invoked := xw_invoked x |}.

(** Run an operation of the session, with others out of the way. *)
Definition run_operation {A} (m : M S A) : E A := zoom xw_session set_exec_session m.

(** [await self._session.operation(...)]. *)
Definition await {A} (m : M S A) : E A := λ x,
  let x0 := others_run x in
  match interrupts (xw_awaits x) with
  | Runs => run_operation m x0
  | CancelledBefore => (Err CancelledError, x0)
  | CancelledAfter => (Err CancelledError, (run_operation m x0).2)
  end.

(** [await callback(...)]. *)
Definition await_callback {A} (f : callback A) : E A := λ x,
  match interrupts (xw_awaits x) with
  | Runs => (f (xw_awaits x), others_run x)
  | _ => (Err CancelledError, others_run x)
  end.

(** [task = create_task(...)], [await asyncio.shield(task)] and, when that is
    cancelled, [await task]: cancelling the first wait leaves the task running,
    cancelling the second cancels it.  Whatever comes of it is a value. *)
Definition shielded {A} (m : M S A) : E (res A) := λ x,
  let x0 := others_run x in
  let finish y := let '(r, y') := run_operation m y in (Ok r, y') in
  match interrupts (xw_awaits x) with
  | Runs | CancelledAfter => finish x0
  | CancelledBefore =>
      let x1 := others_run x0 in
      match interrupts (xw_awaits x0) with
      | Runs => finish x1
      | CancelledBefore => (Ok (Err CancelledError), x1)
      | CancelledAfter => (Ok (Err CancelledError), (run_operation m x1).2)
      end
  end.

(** [async with fence() as error: body(error)]. *)
Definition finally {A} (m : E A) (last : E unit) : E A := λ x,
  let '(r, x') := m x in
  match last x' with
  | (Ok _, x'') => (r, x'')
  | (Err e, x'') => (Err e, x'')
  end.
Definition async_with {A} (fence : CommitFence) (body : option ActionError → E A) : E A :=
  fence_error ← await_callback (cf_enter fence) ;
  finally (body fence_error) (await_callback (cf_exit fence)).

(** [gateway/effect_execution.py:733-746] _shielded_receipt_read *)
Definition _shielded_receipt_read (fingerprint : ActionFingerprint) : E (option EffectReceipt) :=
  r ← shielded (get_effect_receipt fingerprint) ;
  match r with
  | Ok receipt => mret receipt
  | Err _ => mret None
  end.

(** [gateway/effect_execution.py:749-766] _shielded_store_receipt_read *)
Definition _shielded_store_receipt_read (fingerprint : ActionFingerprint) : E (option EffectReceipt) :=
  r ← shielded (get_store_mutation_receipt fingerprint) ;
  match r with
  | Ok receipt => mret receipt
  | Err EffectReceiptConflict => mraise EffectReceiptConflict
  | Err _ => mret None
  end.

(** ** Store mutations *)

(** The handlers that turn an exception of the store into an outcome. *)
Definition store_failure (error : exn) : E ActionOutcome :=
  match error with
  | CancelledError => mraise CancelledError
  | _ => mret (failed (_store_error_code error))
  end.

(** [gateway/effect_execution.py:165-185] StoreBackedGatewayEffectExecutor._read_store_mutation_receipt *)
Definition _read_store_mutation_receipt (fingerprint : ActionFingerprint) : E (option ActionOutcome) :=
  read ← catch (receipt ← await (get_store_mutation_receipt fingerprint) ; mret (inl receipt))
    (λ e, outcome ← store_failure e ; mret (inr outcome)) ;
  match read with
  | inr outcome => mret (Some outcome)
  | inl None => mret None
  | inl (Some receipt) =>
      raise_if (er_phase receipt ≠ PH_TERMINAL) RuntimeError ;;
      outcome ← _required_outcome receipt ;
      mret (Some outcome)
  end.

(** [gateway/effect_execution.py:104-111] StoreBackedGatewayEffectExecutor.replay_store_mutation *)
Definition replay_store_mutation (request : StoreMutationRequest) : E (option ActionOutcome) :=
  lift (validate_store_mutation_request request) ;;
  _read_store_mutation_receipt (sm_fingerprint request).

(** [gateway/effect_execution.py:187-199] StoreBackedGatewayEffectExecutor._recover_store_mutation_outcome *)
Definition _recover_store_mutation_outcome (fingerprint : ActionFingerprint)
    : E (option ActionOutcome) :=
  read ← catch (receipt ← _shielded_store_receipt_read fingerprint ; mret (inl receipt))
    (λ e, match e with
          | EffectReceiptConflict => mret (inr (failed AE_CONFLICT))
          | _ => mraise e
          end) ;
  match read with
  | inr outcome => mret (Some outcome)
  | inl None => mret None
  | inl (Some receipt) =>
      if decide (er_phase receipt ≠ PH_TERMINAL) then mret (Some (failed AE_STORE_FAILURE))
      else outcome ← _required_outcome receipt ; mret (Some outcome)
  end.

(** [gateway/effect_execution.py:201-211] StoreBackedGatewayEffectExecutor._commit_store_result *)
Definition _commit_store_result (request : StoreMutationRequest) (preflight_error : option ActionError)
    : E EffectReceipt :=
  match preflight_error with
  | None => await (commit_store_mutation request)
  | Some error => await (commit_store_preflight_failure (sm_fingerprint request) error)
  end.

(** [gateway/effect_execution.py:213-230] StoreBackedGatewayEffectExecutor._run_store_preflight *)
Definition _run_store_preflight (fingerprint : ActionFingerprint)
    (preflight : callback (option ActionError)) : E (option (ActionError + ActionOutcome)) :=
  catch (error ← await_callback preflight ; mret (inl <$> error))
    (λ e, match e with
          | CancelledError =>
              recovered ← _recover_store_mutation_outcome fingerprint ;
              match recovered with
              | Some outcome => mret (Some (inr outcome))
              | None => mraise CancelledError
              end
          | _ => mret (Some (inr (failed AE_STORE_FAILURE)))
          end).

(** [gateway/effect_execution.py:137-160] execute_store_mutation: the [try] that
    commits, with or without a commit fence, and its handlers *)
Definition commit_recovering (request : StoreMutationRequest) (preflight_error : option ActionError)
    (commit_fence : option CommitFence) : E (EffectReceipt + ActionOutcome) :=
  catch
    match commit_fence with
    | None => receipt ← _commit_store_result request preflight_error ; mret (inl receipt)
    | Some fence =>
        async_with fence (λ fence_error,
          match fence_error with
          | Some error => mret (inr (Failed error))
          | None => receipt ← _commit_store_result request preflight_error ; mret (inl receipt)
          end)
    end
    (λ e,
      recovered ← _recover_store_mutation_outcome (sm_fingerprint request) ;
      match recovered with
      | Some outcome => mret (inr outcome)
      | None =>
          match e with
          | CancelledError => mraise CancelledError
          | _ => mret (inr (failed (if is_store_error e then _store_error_code e else AE_STORE_FAILURE)))
          end
      end).

(** [gateway/effect_execution.py:113-163] StoreBackedGatewayEffectExecutor.execute_store_mutation *)
Definition execute_store_mutation (request : StoreMutationRequest)
    (preflight : option (callback (option ActionError))) (commit_fence : option CommitFence)
    : E ActionOutcome :=
  lift (validate_store_mutation_request request) ;;
  replay ←
    (if decide (is_Some preflight ∨ is_Some commit_fence)
     then _read_store_mutation_receipt (sm_fingerprint request) else mret None) ;
  match replay with
  | Some outcome => mret outcome
  | None =>
      preflight_result ←
        match preflight with
        | None => mret None
        | Some f => _run_store_preflight (sm_fingerprint request) f
        end ;
      match preflight_result with
      | Some (inr outcome) => mret outcome
      | None | Some (inl _) =>
          let preflight_error :=
            match preflight_result with Some (inl error) => Some error | _ => None end in
          committed ← commit_recovering request preflight_error commit_fence ;
          match committed with
          | inr outcome => mret outcome
          | inl receipt => _required_outcome receipt
          end
      end
  end.

(** ** Native effects *)

(** The outcome of a receipt that a handler reads back, if it is terminal. *)
Definition terminal_or (fingerprint : ActionFingerprint)
    (otherwise : option EffectReceipt → E ActionOutcome) : E ActionOutcome :=
  receipt ← _shielded_receipt_read fingerprint ;
  match receipt with
  | Some r => if decide (er_phase r = PH_TERMINAL) then _required_outcome r else otherwise receipt
  | None => otherwise None
  end.

Definition in_phase (receipt : option EffectReceipt) (phase : EffectPhase) : Prop :=
  er_phase <$> receipt = Some phase.
#[local] Instance in_phase_dec receipt phase : Decision (in_phase receipt phase).
Proof. unfold in_phase. apply _. Defined.

(** [gateway/effect_execution.py:595-613] StoreBackedGatewayEffectExecutor._persist_unknown *)
Definition _persist_unknown (fingerprint : ActionFingerprint) : E ActionOutcome :=
  let unknown := _unknown_outcome AE_NATIVE_OUTCOME_UNKNOWN in
  r ← shielded (record_effect_outcome fingerprint PH_NATIVE_SIDE_EFFECT_STARTED unknown) ;
  match r with
  | Ok receipt => _required_outcome receipt
  | Err _ => mret unknown
  end.

(** [gateway/effect_execution.py:624-630] _run_native_preflight: the
    handler of a cancellation, here and at lines 641 to 647 *)
Definition preflight_cancelled (fingerprint : ActionFingerprint) : E ActionOutcome :=
  terminal_or fingerprint (λ receipt,
    match receipt with
    | Some r =>
        if decide (er_phase r ≠ PH_RESERVED) then mret (_unknown_outcome AE_NATIVE_OUTCOME_UNKNOWN)
        else mraise CancelledError
    | None => mraise CancelledError
    end).

(** [gateway/effect_execution.py:615-662] StoreBackedGatewayEffectExecutor._run_native_preflight *)
Definition _run_native_preflight (fingerprint : ActionFingerprint)
    (preflight : option (callback (option ActionError))) : E (option ActionOutcome) :=
  match preflight with
  | None => mret None
  | Some preflight =>
      result ← catch (error ← await_callback preflight ; mret (inl error))
        (λ e, match e with
              | CancelledError => outcome ← preflight_cancelled fingerprint ; mret (inr outcome)
              | _ => mret (inr (failed AE_STORE_FAILURE))
              end) ;
      match result with
      | inr outcome => mret (Some outcome)
      | inl None => mret None
      | inl (Some error) =>
          recorded ← catch
            (receipt ← await (record_effect_preflight_failure fingerprint error) ; mret (inl receipt))
            (λ e, match e with
                  | CancelledError => outcome ← preflight_cancelled fingerprint ; mret (inr outcome)
                  | StaleRuntimeFence => mret (inr (failed AE_STALE_RUNTIME))
                  | _ => outcome ← terminal_or fingerprint (λ _, mret (failed AE_STORE_FAILURE)) ;
                         mret (inr outcome)
                  end) ;
          match recorded with
          | inr outcome => mret (Some outcome)
          | inl receipt =>
              if decide (er_phase receipt = PH_TERMINAL)
              then outcome ← _required_outcome receipt ; mret (Some outcome)
              else mret (Some (_unknown_outcome AE_NATIVE_OUTCOME_UNKNOWN))
          end
      end
  end.

(** [gateway/effect_execution.py:491-512] StoreBackedGatewayEffectExecutor._enter_native_fence *)
Definition _enter_native_fence (fingerprint : ActionFingerprint) : E (bool * option ActionOutcome) :=
  catch
    ('(receipt, acquired) ← await (mark_native_side_effect_started fingerprint) ;
     raise_if (er_phase receipt = PH_RESERVED) RuntimeError ;;
     mret (acquired, None))
    (λ e, match e with
          | CancelledError =>
              receipt ← _shielded_receipt_read fingerprint ;
              match receipt with
              | None => mraise CancelledError
              | Some r =>
                  if decide (er_phase r = PH_RESERVED) then mraise CancelledError
                  else if decide (er_phase r = PH_TERMINAL)
                  then outcome ← _required_outcome r ; mret (false, Some outcome)
                  else outcome ← _persist_unknown fingerprint ; mret (false, Some outcome)
              end
          | StaleRuntimeFence => mret (false, Some (failed AE_STALE_RUNTIME))
          | _ => mret (false, Some (failed AE_STORE_FAILURE))
          end).

(** [gateway/effect_execution.py:548-592] _reconcile_native: the handlers of the
    recording of a known outcome *)
Definition reconcile_recording_failed (fingerprint : ActionFingerprint) (terminal : bool)
    (known : ActionOutcome) (e : exn) : E ActionOutcome :=
  let known_result receipt := is_succeeded (Some known) = true ∧ terminal = false
    ∧ in_phase receipt PH_NATIVE_RESULT_KNOWN in
  let partial code :=
    match known with
    | Succeeded value => if terminal then None else Some (Partial value (action_error code))
    | _ => None
    end in
  match e with
  | CancelledError =>
      terminal_or fingerprint (λ receipt,
        if decide (known_result receipt) then mret known
        else match partial AE_STORE_FAILURE with
             | Some outcome => mret outcome
             | None => mret (_unknown_outcome AE_NATIVE_OUTCOME_UNKNOWN)
             end)
  | StaleRuntimeFence =>
      terminal_or fingerprint (λ _,
        match partial AE_STALE_RUNTIME with
        | Some outcome => mret outcome
        | None => mret (_unknown_outcome AE_STALE_RUNTIME)
        end)
  | _ =>
      terminal_or fingerprint (λ receipt,
        if decide (known_result receipt) then mret known
        else mret (_unknown_outcome AE_STORE_FAILURE))
  end.

(** [gateway/effect_execution.py:514-593] StoreBackedGatewayEffectExecutor._reconcile_native *)
Definition _reconcile_native (fingerprint : ActionFingerprint) (phase_id : pystr)
    (reconcile : option (pystr → callback (option ActionOutcome))) (terminal : bool)
    (known_validator : ActionOutcome → res unit) : E ActionOutcome :=
  match reconcile with
  | None => _persist_unknown fingerprint
  | Some reconcile =>
      known ← catch
        (known ← await_callback (reconcile phase_id) ;
         lift (when_some known (λ k, _validate_known_native_outcome k ;; known_validator k)) ;;
         mret (inl known))
        (λ _, outcome ← _persist_unknown fingerprint ; mret (inr outcome)) ;
      match known with
      | inr outcome => mret outcome
      | inl None => _persist_unknown fingerprint
      | inl (Some known) =>
          let phase := if decide (terminal = true ∨ is_failed (Some known) = true)
                       then PH_TERMINAL else PH_NATIVE_RESULT_KNOWN in
          recorded ← catch
            (receipt ← await (record_effect_outcome fingerprint phase known) ; mret (inl receipt))
            (λ e, outcome ← reconcile_recording_failed fingerprint terminal known e ;
                  mret (inr outcome)) ;
          match recorded with
          | inr outcome => mret outcome
          | inl receipt => _required_outcome receipt
          end
      end
  end.

(** [await invoke(phase_id)], which the log of invocations shows. *)
Definition invoke_native (invoke : pystr → callback ActionOutcome) (phase_id : pystr)
    : E ActionOutcome :=
  modify (λ x, {| xw_session := xw_session x; xw_awaits := xw_awaits x;
                  xw_invoked := phase_id :: xw_invoked x |}) ;;
  await_callback (invoke phase_id).

(** [gateway/effect_execution.py:292-318] execute_native_mutation: recording a
    known outcome, and the handlers that read it back *)
Definition record_terminal (fingerprint : ActionFingerprint) (known : ActionOutcome) : E ActionOutcome :=
  recorded ← catch
    (receipt ← await (record_effect_outcome fingerprint PH_TERMINAL known) ; mret (inl receipt))
    (λ e,
      let code := match e with
                  | CancelledError => AE_NATIVE_OUTCOME_UNKNOWN
                  | StaleRuntimeFence => AE_STALE_RUNTIME
                  | _ => AE_STORE_FAILURE
                  end in
      outcome ← terminal_or fingerprint (λ _, mret (_unknown_outcome code)) ;
      mret (inr outcome)) ;
  match recorded with
  | inr outcome => mret outcome
  | inl receipt => _required_outcome receipt
  end.

(** What both executions do once the receipt is reserved: the preflight, the
    fence, and [fresh] if the fence was acquired, [again] if it was not. *)
Definition enter_and_run (fingerprint : ActionFingerprint)
    (preflight : option (callback (option ActionError))) (fresh again : E ActionOutcome)
    : E ActionOutcome :=
  preflight_outcome ← _run_native_preflight fingerprint preflight ;
  match preflight_outcome with
  | Some outcome => mret outcome
  | None =>
      '(acquired, fence_outcome) ← _enter_native_fence fingerprint ;
      match fence_outcome with
      | Some outcome => mret outcome
      | None => if (acquired : bool) then fresh else again
      end
  end.

(** [gateway/effect_execution.py:285-318] execute_native_mutation: the invocation
    of the native application and what follows it *)
Definition run_native (fingerprint : ActionFingerprint) (phase_id : pystr)
    (invoke : pystr → callback ActionOutcome) : E ActionOutcome :=
  invoked ← catch
    (known ← invoke_native invoke phase_id ;
     lift (_validate_known_native_outcome known) ;;
     mret (inl known))
    (λ _, outcome ← _persist_unknown fingerprint ; mret (inr outcome)) ;
  match invoked with
  | inr outcome => mret outcome
  | inl known => record_terminal fingerprint known
  end.

(** [gateway/effect_execution.py:232-318] execute_native_mutation: one attempt,
    with the recursive call as a parameter *)
Definition native_attempt (request : NativeMutationRequest) (invoke : pystr → callback ActionOutcome)
    (preflight : option (callback (option ActionError)))
    (reconcile : option (pystr → callback (option ActionOutcome))) (again : E ActionOutcome)
    : E ActionOutcome :=
  lift (validate_native_mutation_request request) ;;
  let fingerprint := nm_fingerprint request in
  phase_id ← lift (phase_id fingerprint (py "native")) ;
  reserved ← catch
    (receipt ← await (reserve_effect fingerprint (nm_category request) phase_id None) ;
     mret (inl receipt))
    (λ e, outcome ← store_failure e ; mret (inr outcome)) ;
  match reserved with
  | inr outcome => mret outcome
  | inl receipt =>
      match er_phase receipt with
      | PH_TERMINAL => _required_outcome receipt
      | PH_NATIVE_SIDE_EFFECT_STARTED =>
          _reconcile_native fingerprint phase_id reconcile true (λ _, Ok ())
      | PH_NATIVE_RESULT_KNOWN => mraise RuntimeError
      | PH_RESERVED =>
          enter_and_run fingerprint preflight (run_native fingerprint phase_id invoke) again
      end
  end.

(** [gateway/effect_execution.py:232-318] StoreBackedGatewayEffectExecutor.execute_native_mutation,
    with the depth of the recursion Python allows *)
Fixpoint execute_native_mutation (depth : nat) (request : NativeMutationRequest)
    (invoke : pystr → callback ActionOutcome) (preflight : option (callback (option ActionError)))
    (reconcile : option (pystr → callback (option ActionOutcome))) : E ActionOutcome :=
  match depth with
  | O => mraise RecursionError
  | Datatypes.S depth' =>
      native_attempt request invoke preflight reconcile
        (execute_native_mutation depth' request invoke preflight reconcile)
  end.

(** ** Workflows: create natively, then bind *)

(** [gateway/effect_execution.py:681-697] _commit_known_workflow: the commit, with
    or without a commit fence *)
Definition commit_workflow_fenced (request : CreateBindingWorkflowRequest) (created : EffectValue)
    (target : BindingTarget) (route : option ThreadProjectionRoute)
    (commit_fence : option (pystr → CommitFence)) : E (EffectReceipt + ActionOutcome) :=
  let commit :=
    receipt ← await (commit_workflow_binding (cw_fingerprint request) target route) ;
    mret (inl receipt) in
  match route, commit_fence with
  | Some r, Some fence =>
      async_with (fence (tr_route_id r)) (λ fence_error,
        match fence_error with
        | Some error => mret (inr (Partial created error))
        | None => commit
        end)
  | _, _ => commit
  end.

(** [gateway/effect_execution.py:664-730] StoreBackedGatewayEffectExecutor._commit_known_workflow *)
Definition _commit_known_workflow (request : CreateBindingWorkflowRequest) (receipt : EffectReceipt)
    (commit_fence : option (pystr → CommitFence)) : E ActionOutcome :=
  match er_outcome receipt with
  | Some (Succeeded created) =>
      match _validate_workflow_created_value request created with
      | Err _ => mret (Partial created (action_error AE_STORE_FAILURE))
      | Ok _ =>
          '(target, route) ← lift (_workflow_binding_plan request created) ;
          committed ← catch (commit_workflow_fenced request created target route commit_fence)
            (λ e,
              let code := match e with
                          | StaleRuntimeFence => AE_STALE_RUNTIME
                          | _ => AE_STORE_FAILURE
                          end in
              outcome ← terminal_or (cw_fingerprint request)
                (λ _, mret (Partial created (action_error code))) ;
              mret (inr outcome)) ;
          match committed with
          | inr outcome => mret outcome
          | inl terminal => _required_outcome terminal
          end
      end
  | _ => mraise RuntimeError
  end.

(** [gateway/effect_execution.py:445-489] execute_create_binding_workflow: recording
    the created object, and the handlers that read it back *)
Definition record_created (request : CreateBindingWorkflowRequest) (known : ActionOutcome)
    (created : EffectValue) (commit_fence : option (pystr → CommitFence)) : E ActionOutcome :=
  let fingerprint := cw_fingerprint request in
  let partial code := Partial created (action_error code) in
  recorded ← catch
    (receipt ← await (record_effect_outcome fingerprint PH_NATIVE_RESULT_KNOWN known) ;
     mret (inl receipt))
    (λ e, outcome ←
      match e with
      | CancelledError => terminal_or fingerprint (λ _, mret (partial AE_STORE_FAILURE))
      | StaleRuntimeFence => terminal_or fingerprint (λ _, mret (partial AE_STALE_RUNTIME))
      | _ =>
          terminal_or fingerprint (λ receipt,
            match receipt with
            | Some r =>
                if decide (er_phase r = PH_NATIVE_RESULT_KNOWN)
                then _commit_known_workflow request r commit_fence
                else mret (partial AE_STORE_FAILURE)
            | None => mret (partial AE_STORE_FAILURE)
            end)
      end ;
      mret (inr outcome)) ;
  match recorded with
  | inr outcome => mret outcome
  | inl receipt => _commit_known_workflow request receipt commit_fence
  end.

(** [gateway/effect_execution.py:397-489] execute_create_binding_workflow: the
    invocation of the native application and what follows it *)
Definition run_workflow (request : CreateBindingWorkflowRequest) (phase_id : pystr)
    (invoke : pystr → callback ActionOutcome) (commit_fence : option (pystr → CommitFence))
    : E ActionOutcome :=
  let fingerprint := cw_fingerprint request in
  invoked ← catch
    (known ← invoke_native invoke phase_id ;
     lift (_validate_known_native_outcome known ;; _validate_workflow_known_outcome request known) ;;
     mret (inl known))
    (λ _, outcome ← _persist_unknown fingerprint ; mret (inr outcome)) ;
  match invoked with
  | inr outcome => mret outcome
  | inl known =>
      match known with
      | Succeeded created => record_created request known created commit_fence
      | _ => record_terminal fingerprint known
      end
  end.

(** [gateway/effect_execution.py:356-377] execute_create_binding_workflow: the
    receipt was found started *)
Definition resume_workflow (request : CreateBindingWorkflowRequest) (phase_id : pystr)
    (reconcile : option (pystr → callback (option ActionOutcome)))
    (commit_fence : option (pystr → CommitFence)) : E ActionOutcome :=
  let fingerprint := cw_fingerprint request in
  known ← _reconcile_native fingerprint phase_id reconcile false
    (_validate_workflow_known_outcome request) ;
  match known with
  | Succeeded _ =>
      receipt ← await (get_effect_receipt fingerprint) ;
      match receipt with
      | None => mret (_unknown_outcome AE_STORE_FAILURE)
      | Some r =>
          if decide (er_phase r = PH_TERMINAL) then _required_outcome r
          else _commit_known_workflow request r commit_fence
      end
  | _ => mret known
  end.

(** [gateway/effect_execution.py:320-489] execute_create_binding_workflow: one
    attempt, with the recursive call as a parameter *)
Definition workflow_attempt (request : CreateBindingWorkflowRequest)
    (invoke : pystr → callback ActionOutcome) (preflight : option (callback (option ActionError)))
    (reconcile : option (pystr → callback (option ActionOutcome)))
    (commit_fence : option (pystr → CommitFence)) (again : E ActionOutcome) : E ActionOutcome :=
  lift (validate_create_binding_workflow_request request) ;;
  let fingerprint := cw_fingerprint request in
  phase_id ← lift (phase_id fingerprint (py "native_create")) ;
  reserved ← catch
    (receipt ← await (reserve_effect fingerprint WORKFLOW phase_id (Some (cw_conversation_ref request))) ;
     mret (inl receipt))
    (λ e, outcome ← store_failure e ; mret (inr outcome)) ;
  match reserved with
  | inr outcome => mret outcome
  | inl receipt =>
      match er_phase receipt with
      | PH_TERMINAL => _required_outcome receipt
      | PH_NATIVE_RESULT_KNOWN => _commit_known_workflow request receipt commit_fence
      | PH_NATIVE_SIDE_EFFECT_STARTED => resume_workflow request phase_id reconcile commit_fence
      | PH_RESERVED =>
          enter_and_run fingerprint preflight (run_workflow request phase_id invoke commit_fence) again
      end
  end.

(** [gateway/effect_execution.py:320-489] StoreBackedGatewayEffectExecutor.execute_create_binding_workflow,
    with the depth of the recursion Python allows *)
Fixpoint execute_create_binding_workflow (depth : nat) (request : CreateBindingWorkflowRequest)
    (invoke : pystr → callback ActionOutcome) (preflight : option (callback (option ActionError)))
    (reconcile : option (pystr → callback (option ActionOutcome)))
    (commit_fence : option (pystr → CommitFence)) : E ActionOutcome :=
  match depth with
  | O => mraise RecursionError
  | Datatypes.S depth' =>
      workflow_attempt request invoke preflight reconcile commit_fence
        (execute_create_binding_workflow depth' request invoke preflight reconcile commit_fence)
  end.

End executor.
