(* ===== verification/SessionLaws.v ===== *)
(** What a session promises to the executor, as a class of laws, and that the
    session of the in-memory store keeps the promises. *)

From S2P Require Export EffectExecution.
From stdpp Require Import list.
#[local] Open Scope Z_scope.
#[local] Open Scope stdpp_scope.

(** * The laws of a session *)

(** An operation that leads on in the order [le], and returns what [P] says. *)
Definition leads {S A} (le : relation S) (P : A → S → Prop) (s : S) (r : res A) (s' : S) : Prop :=
  le s s' ∧ ∀ a, r = Ok a → P a s'.

(** What is stored under an action key, and what the executor relies on: the
    receipts that the operations return are stored, stay, and move along their
    lifecycle. *)
Class EffectSessionLaws (S : Type) `{EffectSession S} := {
  ses_ok : S → Prop;
  ses_receipt : S → pystr → option EffectReceipt;
  ses_le : relation S;
  ses_le_preorder :: PreOrder ses_le;
  ses_le_ok s s' : ses_le s s' → ses_ok s → ses_ok s';
  ses_le_receipt s s' key r :
    ses_ok s → ses_le s s' → ses_receipt s key = Some r →
    ∃ r', ses_receipt s' key = Some r' ∧ rtc receipt_step r r';
  ses_valid s key r :
    ses_ok s → ses_receipt s key = Some r → validate_effect_receipt r = Ok ();
  ses_store_receipt fp s : ses_ok s →
    wp (get_store_mutation_receipt fp) (leads ses_le (λ receipt s', ∀ r, receipt = Some r →
      ses_receipt s' (af_action_key fp) = Some r) s) s;
  ses_get_receipt fp s : ses_ok s →
    wp (get_effect_receipt fp) (leads ses_le (λ receipt s', ∀ r, receipt = Some r →
      ses_receipt s' (af_action_key fp) = Some r) s) s;
  ses_commit request s : ses_ok s →
    wp (commit_store_mutation request) (leads ses_le (λ receipt s',
      ses_receipt s' (af_action_key (sm_fingerprint request)) = Some receipt ∧
      er_phase receipt = PH_TERMINAL) s) s;
  ses_preflight_failure fp error s : ses_ok s →
    wp (commit_store_preflight_failure fp error) (leads ses_le (λ receipt s',
      ses_receipt s' (af_action_key fp) = Some receipt ∧ er_phase receipt = PH_TERMINAL) s) s;
  ses_reserve fp category phase_id c s : ses_ok s →
    wp (reserve_effect fp category phase_id c) (leads ses_le (λ receipt s',
      ses_receipt s' (af_action_key fp) = Some receipt ∧ er_category receipt = category) s) s;
  ses_mark fp s : ses_ok s →
    wp (mark_native_side_effect_started fp) (leads ses_le (λ '(receipt, started) s',
      ses_receipt s' (af_action_key fp) = Some receipt ∧
      (started = true → er_phase receipt = PH_NATIVE_SIDE_EFFECT_STARTED ∧
         ∃ r0, ses_receipt s (af_action_key fp) = Some r0 ∧ er_phase r0 = PH_RESERVED)) s) s;
  ses_record fp phase outcome s : ses_ok s →
    wp (record_effect_outcome fp phase outcome) (leads ses_le (λ receipt s',
      ses_receipt s' (af_action_key fp) = Some receipt ∧
      (er_phase receipt = PH_TERMINAL ∨
       er_phase receipt = phase ∧ er_outcome receipt = Some outcome)) s) s;
  ses_record_preflight fp error s : ses_ok s →
    wp (record_effect_preflight_failure fp error) (leads ses_le (λ receipt s',
      ses_receipt s' (af_action_key fp) = Some receipt) s) s;
  ses_workflow fp target route s : ses_ok s →
    wp (commit_workflow_binding fp target route) (leads ses_le (λ receipt s',
      ses_receipt s' (af_action_key fp) = Some receipt ∧ er_phase receipt = PH_TERMINAL) s) s;
}.

(** * The session of the in-memory store *)

Section memory.
Context (clock : nat → datetime) (utc_now : nat → Z).
Hypothesis clock_mono : ∀ i j, (i ≤ j)%nat → dt_us (clock i) ≤ dt_us (clock j).
Abbreviation inv := (world_inv clock).
Abbreviation run := (run_store_op clock utc_now).

Definition world_receipt (w : world) (key : pystr) : option EffectReceipt :=
  d_get (ms_effect_receipts (w_store w)) key.

(** The store is sound and its receipts move along their lifecycle. *)
Definition world_le (w w' : world) : Prop :=
  inv w → inv w' ∧ ∀ key r, world_receipt w key = Some r →
    ∃ r', world_receipt w' key = Some r' ∧ rtc receipt_step r r'.

#[export] Instance world_le_preorder : PreOrder world_le.
Proof.
  split; [intros w Hw; split; [done|]; eauto using rtc_refl|].
  intros w1 w2 w3 H12 H23 H1. destruct (H12 H1) as [H2 Hr2]. destruct (H23 H2) as [H3 Hr3].
  split; [done|]. intros key r Hr. destruct (Hr2 key r Hr) as (r2 & ? & ?).
  destruct (Hr3 key r2) as (r3 & ? & ?); [done|]. exists r3. split; [done|]. by etrans.
Qed.

Lemma reachable_world_le w w' : rtc (world_step clock utc_now) w w' → world_le w w'.
Proof.
  intros H Hw. split; [by eapply reachable_inv|]. intros key r. by eapply reachable_receipt.
Qed.

Lemma read_world_le w w' :
  w_store w' = w_store w → (w_ticks w ≤ w_ticks w')%nat → world_le w w'.
Proof.
  intros Hs Ht [Hi Hp]. unfold world_receipt. rewrite Hs. split; [|by eauto using rtc_refl].
  split; [by rewrite Hs|]. unfold receipts_past in *. rewrite Hs.
  eapply Forall_impl; [exact Hp|]. intros [k r] H j Hj. apply H. lia.
Qed.

Lemma op_world_le {A} (m : M world A) op w :
  same_effect m (run op) → world_le w (m w).2.
Proof. intros Hm. destruct (Hm w) as [-> _]. apply reachable_world_le, rtc_once. by exists op. Qed.

Lemma wp_fenced_session {A} (m : RuntimeLease → M world A) (Q : res A → session_world → Prop) x :
  Q (Err StaleRuntimeFence) x →
  (∀ lease, wp (m lease) (λ r w, Q r (set_world w x)) (sw_world x)) → wp (fenced m) Q x.
Proof.
  intros He Hm. unfold wp, fenced. rewrite after_require_open. destruct (ss_closed _); [exact He|].
  exact (wp_zoom sw_world set_world (m (ss_lease (sw_session x))) Q x (Hm _)).
Qed.

Definition session_ok (x : session_world) : Prop := inv (sw_world x).
Definition session_le (x x' : session_world) : Prop := world_le (sw_world x) (sw_world x').
Definition session_receipt (x : session_world) := world_receipt (sw_world x).

#[export] Instance session_le_preorder : PreOrder session_le.
Proof. split; [intros x; unfold session_le; reflexivity|]. intros x y z. unfold session_le. by etrans. Qed.

(** A fenced operation that is a call of the store. *)
Lemma fenced_leads {A} (m : RuntimeLease → M world A) op (P : A → session_world → Prop) x :
  (∀ lease, same_effect (m lease) (run (op lease))) →
  (∀ lease, wp (m lease) (λ r w', ∀ a, r = Ok a → P a (set_world w' x)) (sw_world x)) →
  wp (fenced m) (leads session_le P x) x.
Proof.
  intros Hop HP. apply wp_fenced_session; [by split|]. intros lease.
  specialize (HP lease). pose proof (op_world_le (m lease) (op lease) (sw_world x) (Hop lease)) as Hle.
  unfold wp in *. by destruct (m lease (sw_world x)).
Qed.

(** *** What the calls of the store return is stored *)

(** The receipt of a call is the one stored under the key of the fingerprint. *)
Definition stored (fp : ActionFingerprint) (P : EffectReceipt → Prop) (r : res EffectReceipt)
    (w : world) : Prop :=
  ∀ receipt, r = Ok receipt → world_receipt w (af_action_key fp) = Some receipt ∧ P receipt.

Lemma stored_put fp (P : EffectReceipt → Prop) receipt w :
  er_action_key receipt = af_action_key fp → P receipt →
  stored fp P (Ok receipt) (set_store (put_receipt receipt (w_store w)) w).
Proof. intros Hk HP ? [= <-]. unfold world_receipt. cbn. by rewrite Hk, d_get_set_eq. Qed.

Lemma preflight_failure_stored fence fp error w :
  inv w →
  wp (_commit_store_preflight_failure clock fence fp error)
    (stored fp (λ r, er_phase r = PH_TERMINAL)) w.
Proof.
  intros [Hi _]. unfold _commit_store_preflight_failure.
  apply wp_bind_lift; [intros [] _|done]. apply wp_bind, wp_assert_fence; [done|]. intros _.
  apply wp_bind, wp_existing; [done| |].
  - intros _. apply wp_bind, wp_capacity; [done|]. intros _. apply wp_bind, wp_now; [done|]. intros _.
    apply wp_bind, wp_new_receipt; [done|]. intros g _ r _. by apply wp_bind, wp_store_receipt, wp_ret, stored_put.
  - intros r Hr _ _ Hc. apply wp_ret. intros ? [= <-]. split; [done|].
    destruct (receipts_at_key (tick w) _ r Hi Hr) as [_ Hv].
    destruct (valid_receipt_facts _ Hv) as (_ & _ & _ & Hg & _). by apply Hg.
Qed.

Lemma reserve_effect_stored fence fp category np c w :
  inv w →
  wp (_reserve_effect clock fence fp category np c) (stored fp (λ r, er_category r = category)) w.
Proof.
  intros _. unfold _reserve_effect. do 2 (apply wp_bind_lift; [intros [] _|done]).
  apply wp_bind, wp_raise_if; [done|]. intros _. apply wp_bind, wp_assert_fence; [done|]. intros _.
  apply wp_bind, wp_existing; [done| |].
  - intros _. apply wp_bind, wp_capacity; [done|]. intros _. apply wp_bind, wp_sget. cbv zeta.
    apply wp_bind, wp_now; [done|]. intros _. apply wp_bind, wp_new_receipt; [done|].
    intros g _ r _. by apply wp_bind, wp_store_receipt, wp_ret, stored_put.
  - intros r Hr _ _ Hc. apply wp_bind, wp_raise_if; [done|]. intros _. apply wp_ret.
    by intros ? [= <-].
Qed.

Lemma record_outcome_stored fence fp phase outcome w :
  inv w →
  wp (_record_effect_outcome clock fence fp phase outcome)
    (stored fp (λ r, er_phase r = PH_TERMINAL ∨ er_phase r = phase ∧ er_outcome r = Some outcome)) w.
Proof.
  intros [Hi _]. unfold _record_effect_outcome. do 2 (apply wp_bind, wp_raise_if; [done|]; intros _).
  apply wp_bind, wp_assert_fence; [done|]. intros _.
  apply wp_bind, wp_require_receipt; [done|]. intros r Hr _ _.
  destruct (receipts_at_key (tick w) _ r Hi Hr) as [Hk _].
  apply wp_if; intros Ht; [apply wp_ret; intros ? [= <-]; by auto|].
  do 4 (apply wp_bind, wp_raise_if; [done|]; intros _). apply wp_bind, wp_now; [done|]. intros _.
  apply wp_bind_lift; [intros [] _|done]. apply wp_bind, wp_store_receipt, wp_ret, stored_put; auto.
Qed.

Lemma record_preflight_stored fence fp error w :
  inv w →
  wp (_record_effect_preflight_failure clock fence fp error) (stored fp (λ _, True)) w.
Proof.
  intros [Hi _]. unfold _record_effect_preflight_failure.
  apply wp_bind, wp_assert_fence; [done|]. intros _.
  apply wp_bind, wp_require_receipt; [done|]. intros r Hr _ _.
  destruct (receipts_at_key (tick w) _ r Hi Hr) as [Hk _].
  apply wp_if; intros Ht; [apply wp_ret; intros ? [= <-]; by auto|].
  apply wp_bind, wp_now; [done|]. intros _. apply wp_bind_lift; [intros [] _|done].
  apply wp_bind, wp_store_receipt, wp_ret, stored_put; auto.
Qed.

Lemma commit_mutation_stored fence request w :
  inv w →
  wp (_commit_store_mutation clock fence request)
    (stored (sm_fingerprint request) (λ r, er_phase r = PH_TERMINAL)) w.
Proof.
  intros Hw. eapply wp_mono; [by apply commit_mutation_spec|].
  intros r w' H receipt ->. destruct (H receipt eq_refl) as (Hk & _ & Ht & Hs). split; [|done].
  unfold world_receipt. rewrite <- Hk. destruct Hs as [[Hs ->]|(_ & o & s' & _ & _ & ->)]; [done|].
  apply d_get_set_eq.
Qed.

Lemma commit_workflow_stored fence fp target route w :
  inv w →
  wp (_commit_workflow_binding clock fence fp target route)
    (stored fp (λ r, er_phase r = PH_TERMINAL)) w.
Proof.
  intros Hw. eapply wp_mono; [by apply commit_workflow_spec|].
  intros r w' H receipt ->. destruct (H receipt eq_refl) as (Hk & _ & Ht & Hs). split; [|done].
  unfold world_receipt. rewrite <- Hk.
  destruct Hs as [[Hs ->]|(_ & r0 & v & o & s' & _ & _ & _ & _ & _ & ->)]; [done|]. apply d_get_set_eq.
Qed.

(** *** The laws *)

Lemma fenced_stored m op fp P x :
  (∀ lease, same_effect (m lease) (run (op lease))) →
  (∀ lease, wp (m lease) (stored fp P) (sw_world x)) →
  wp (fenced m) (leads session_le (λ receipt x',
    session_receipt x' (af_action_key fp) = Some receipt ∧ P receipt) x) x.
Proof.
  intros Hop HP. apply (fenced_leads m op); [done|]. intros lease.
  eapply wp_mono; [apply HP|]. intros r w' H a ->. by apply H.
Qed.

Lemma get_receipt_leads fp x :
  wp (session_get_effect_receipt fp) (leads session_le (λ receipt x', ∀ r, receipt = Some r →
    session_receipt x' (af_action_key fp) = Some r) x) x.
Proof.
  apply wp_zoom. assert (session_le x (set_world (sw_world x) x)) as Hx by by unfold session_le.
  apply wp_bind_lift; [intros [] _|by split]. apply wp_bind, wp_require_open; [by split|]. intros _.
  apply wp_bind, wp_sget. destruct (d_get _ _) eqn:Hr; [|by split; [|intros ? [= <-]]].
  apply wp_bind_lift; [intros [] _|by split]. apply wp_ret. split; [done|]. by intros ? [= <-] ? [= <-].
Qed.

Lemma store_receipt_leads fp x :
  wp (session_get_store_mutation_receipt clock fp) (leads session_le (λ receipt x', ∀ r,
    receipt = Some r → session_receipt x' (af_action_key fp) = Some r) x) x.
Proof.
  apply wp_fenced_session; [by split|]. intros lease.
  assert (session_le x (set_world (sw_world x) x)) as Hx by by unfold session_le.
  assert (session_le x (set_world (tick (sw_world x)) x)) as Ht by (apply read_world_le; cbn; [done|lia]).
  apply wp_bind_lift; [intros [] _|by split]. apply wp_bind, wp_assert_fence.
  { intros e w' Hs [Ht' _]. split; [by apply read_world_le|done]. }
  intros _. apply wp_existing; [by split|by split; [|intros ? [= <-]]|].
  intros r Hr _ _ _. split; [done|]. by intros ? [= <-] ? [= <-].
Qed.

Lemma mark_leads fp x :
  session_ok x →
  wp (session_mark_native_side_effect_started clock fp) (leads session_le (λ '(receipt, started) x',
    session_receipt x' (af_action_key fp) = Some receipt ∧
    (started = true → er_phase receipt = PH_NATIVE_SIDE_EFFECT_STARTED ∧
       ∃ r0, session_receipt x (af_action_key fp) = Some r0 ∧ er_phase r0 = PH_RESERVED)) x) x.
Proof.
  intros Hx. apply (fenced_leads _ (λ lease, MarkStarted lease fp)).
  - intros lease. apply same_effect_forget.
  - intros lease. eapply wp_mono; [by apply mark_started_spec|]. intros r w' H [receipt started] ->.
    by apply H.
Qed.

#[local] Existing Instance memory_effect_session | 0.

Definition memory_session_laws : @EffectSessionLaws session_world (memory_effect_session clock).
Proof.
  refine {| ses_ok := session_ok; ses_le := session_le; ses_receipt := session_receipt |}.
  - intros x x' H Hx. by apply H.
  - intros x x' key r Hx Hle. by apply Hle.
  - intros x key r [Hi _] Hr. by apply (receipts_at_key _ _ _ Hi) in Hr as [_ ?].
  - intros fp x _. apply store_receipt_leads.
  - intros fp x _. apply get_receipt_leads.
  - intros request x Hx. apply (fenced_stored _ (λ lease, CommitMutation lease request));
      intros lease; [apply same_effect_forget|by apply commit_mutation_stored].
  - intros fp error x Hx. apply (fenced_stored _ (λ lease, PreflightFailure lease fp error));
      intros lease; [apply same_effect_forget|by apply preflight_failure_stored].
  - intros fp category np c x Hx. apply (fenced_stored _ (λ lease, ReserveEffect lease fp category np c));
      intros lease; [apply same_effect_forget|by apply reserve_effect_stored].
  - apply mark_leads.
  - intros fp phase outcome x Hx. apply (fenced_stored _ (λ lease, RecordOutcome lease fp phase outcome));
      intros lease; [apply same_effect_forget|by apply record_outcome_stored].
  - intros fp error x Hx. eapply wp_mono.
    + apply (fenced_stored _ (λ lease, RecordPreflight lease fp error)); intros lease;
        [apply same_effect_forget|by apply record_preflight_stored].
    + intros r x' [? H]. split; [done|]. intros a Ha. by apply H.
  - intros fp target route x Hx. apply (fenced_stored _ (λ lease, CommitWorkflow lease fp target route));
      intros lease; [apply same_effect_forget|by apply commit_workflow_stored].
Defined.
End memory.
