(* ===== verification/ExecutionTheorems.v ===== *)
(** The specifications of the executor's methods, from the laws of a session
    alone. *)

From S2P Require Export SessionLaws.
From stdpp Require Import list.
#[local] Open Scope Z_scope.
#[local] Open Scope stdpp_scope.

Lemma wp_catch_with {S A} (m : M S A) h (Q : res A → S → Prop) s :
  wp m (λ r s', match r with Ok a => Q (Ok a) s' | Err e => wp (h e) Q s' end) s → wp (catch m h) Q s.
Proof. unfold wp, catch. by destruct (m s) as [[a|e] s']. Qed.

Lemma wp_catch_return {S A B} (m : M S A) (f : A → B) h (Q : res B → S → Prop) s :
  wp m (λ r s', match r with Ok a => Q (Ok (f a)) s' | Err e => wp (h e) Q s' end) s →
  wp (catch (a ← m ; mret (f a)) h) Q s.
Proof. intros Hm. apply wp_catch_with, wp_bind. eapply wp_mono; [exact Hm|]. by intros [a|e]. Qed.

(** * The executor from the laws *)

Section executor.
Context {S : Type} `{EffectSessionLaws S}.
Context (schedule : nat → S → S) (interrupts : nat → interrupt).
(** Others keep to the promises of the session. *)
Hypothesis others_fair : ∀ k s, ses_ok s → ses_le s (schedule k s).
Abbreviation world := (exec_world S).
Abbreviation E := (M world).

Definition xw_ok (x : world) : Prop := ses_ok (xw_session x).
Definition xw_le (x x' : world) : Prop := ses_le (xw_session x) (xw_session x').
Definition xw_receipt (x : world) (key : pystr) : option EffectReceipt := ses_receipt (xw_session x) key.

#[local] Instance xw_le_preorder : PreOrder xw_le.
Proof. split; [intros x; unfold xw_le; reflexivity|]. intros x y z. unfold xw_le. by etrans. Qed.

Lemma xw_le_ok x x' : xw_le x x' → xw_ok x → xw_ok x'.
Proof. apply ses_le_ok. Qed.

(** Progress that does not invoke the native application. *)
Definition quiet (x x' : world) : Prop := xw_le x x' ∧ xw_invoked x' = xw_invoked x.
#[local] Instance quiet_preorder : PreOrder quiet.
Proof.
  split; [by split; [reflexivity|]|]. intros x y z [? Hi] [? Hi']. split; [by etrans|]. congruence.
Qed.
Lemma quiet_ok x x' : quiet x x' → xw_ok x → xw_ok x'.
Proof. intros [? _]. by apply xw_le_ok. Qed.

Lemma others_run_quiet x : xw_ok x → quiet x (others_run schedule x).
Proof. intros Hx. split; [|done]. by apply others_fair. Qed.

(** An operation of the session, by its law. *)
Lemma wp_operation {A} (m : M S A) (P : S → A → S → Prop) x :
  (∀ s, ses_ok s → wp m (leads ses_le (P s) s) s) → xw_ok x →
  wp (run_operation m) (λ r x', quiet x x' ∧
    ∀ a, r = Ok a → P (xw_session x) a (xw_session x')) x.
Proof.
  intros Hm Hx. apply wp_zoom. eapply wp_mono; [by apply Hm|]. intros r s' [? ?]. by split; [split|].
Qed.

(** An await: others run, then the operation returns as its law says, or the
    await raises. *)
Lemma wp_await {A} (m : M S A) (P : S → A → S → Prop) (Q : res A → world → Prop) x :
  (∀ s, ses_ok s → wp m (leads ses_le (P s) s) s) → xw_ok x →
  (∀ a s x', ses_le (xw_session x) s → quiet x x' → P s a (xw_session x') → Q (Ok a) x') →
  (∀ e x', quiet x x' → Q (Err e) x') →
  wp (await schedule interrupts m) Q x.
Proof.
  intros Hm Hx HQ He. pose proof (others_run_quiet x Hx) as Hq.
  pose proof (wp_operation m P _ Hm (quiet_ok _ _ Hq Hx)) as Hop. unfold wp, await in *.
  destruct (interrupts (xw_awaits x)); [|by apply He|apply He; etrans; [done|apply Hop]].
  destruct (run_operation m _) as [[a|e] x'], Hop as [Hq' HP]; [|apply He; by etrans].
  eapply HQ; [apply Hq|by etrans|by apply HP].
Qed.

Lemma wp_shielded {A} (m : M S A) (P : S → A → S → Prop) (Q : res (res A) → world → Prop) x :
  (∀ s, ses_ok s → wp m (leads ses_le (P s) s) s) → xw_ok x →
  (∀ a s x', quiet x x' → P s a (xw_session x') → Q (Ok (Ok a)) x') →
  (∀ e x', quiet x x' → Q (Ok (Err e)) x') →
  wp (shielded schedule interrupts m) Q x.
Proof.
  intros Hm Hx HQ He. pose proof (others_run_quiet x Hx) as Hq. pose proof (quiet_ok _ _ Hq Hx) as Hx0.
  pose proof (others_run_quiet _ Hx0) as Hq1. pose proof (quiet_ok _ _ Hq1 Hx0) as Hx1.
  assert (∀ y, quiet x y → xw_ok y →
    wp (λ z, let '(r, z') := run_operation m z in (Ok r, z')) Q y) as Hfin.
  { intros y Hy Hok. pose proof (wp_operation m P y Hm Hok) as Hop. unfold wp in *.
    destruct (run_operation m y) as [[a|e] z], Hop as [Hz HP].
    - eapply HQ; [by etrans|by apply HP].
    - apply He. by etrans. }
  assert (quiet x (others_run schedule (others_run schedule x))) as Hq01 by by etrans.
  unfold wp, shielded. destruct (interrupts (xw_awaits x));
    [exact (Hfin _ Hq Hx0)| |exact (Hfin _ Hq Hx0)].
  destruct (interrupts (xw_awaits (others_run schedule x))); [exact (Hfin _ Hq01 Hx1)|by apply He|].
  apply He. etrans; [exact Hq01|]. apply (wp_operation m P _ Hm Hx1).
Qed.

Lemma wp_callback {A} (f : callback A) (Q : res A → world → Prop) x :
  xw_ok x → (∀ r x', quiet x x' → Q r x') → wp (await_callback schedule interrupts f) Q x.
Proof.
  intros Hx HQ. pose proof (others_run_quiet x Hx). unfold wp, await_callback.
  destruct (interrupts _); by apply HQ.
Qed.

(** ** Receipts of the session over time *)

Definition terminal (key : pystr) (o : ActionOutcome) (x : world) : Prop :=
  ∃ r, xw_receipt x key = Some r ∧ er_phase r = PH_TERMINAL ∧ er_outcome r = Some o.
(** The native side effect may have begun. *)
Definition begun (key : pystr) (x : world) : Prop :=
  ∃ r, xw_receipt x key = Some r ∧ er_phase r ≠ PH_RESERVED.

Lemma terminal_stays key o x x' : xw_ok x → xw_le x x' → terminal key o x → terminal key o x'.
Proof.
  intros Hx Hle (r & Hr & Ht & Ho). destruct (ses_le_receipt _ _ _ _ Hx Hle Hr) as (r' & Hr' & Hs).
  assert (r' = r) as ->; [|by exists r].
  destruct Hs as [|r r1 r2 Hs _]; [done|]. by apply terminal_has_no_step in Hs.
Qed.

Lemma begun_stays key x x' : xw_ok x → xw_le x x' → begun key x → begun key x'.
Proof.
  intros Hx Hle (r & Hr & Hp). destruct (ses_le_receipt _ _ _ _ Hx Hle Hr) as (r' & Hr' & Hs).
  exists r'. split; [done|]. clear Hr Hr'. induction Hs as [|r r1 r2 Hs _ IH]; [done|].
  apply IH. by destruct Hs; cbn; intros [=].
Qed.

Lemma stored_terminal key r x :
  xw_ok x → xw_receipt x key = Some r → er_phase r = PH_TERMINAL →
  ∃ o, er_outcome r = Some o ∧ terminal key o x.
Proof.
  intros Hx Hr Ht. pose proof (ses_valid _ _ _ Hx Hr) as Hv.
  apply validate_effect_receipt_ok in Hv. destruct (er_outcome r) as [o|] eqn:Ho; [|tauto].
  exists o. split; [done|]. by exists r.
Qed.

(** ** Outcomes that are reported *)

(** A success is reported only once it is stored for good. *)
Definition durable (key : pystr) (o : ActionOutcome) (x : world) : Prop :=
  is_succeeded (Some o) = true → terminal key o x.

Definition settled (P : exn → Prop) (key : pystr) (r : res ActionOutcome) (x : world) : Prop :=
  match r with Ok o => durable key o x | Err e => P e end.
(** A method that does not invoke the native application, and its outcome. *)
Definition settles (P : exn → Prop) (key : pystr) (x : world) (r : res ActionOutcome) (x' : world)
    : Prop :=
  quiet x x' ∧ settled P key r x'.
Definition never : exn → Prop := λ _, False.
Definition cancelled : exn → Prop := λ e, e = CancelledError.

Lemma settles_weaken (P P' : exn → Prop) key x0 x r x' :
  (∀ e, P e → P' e) → quiet x0 x → settles P key x r x' → settles P' key x0 r x'.
Proof. intros HP Hq [? Hr]. split; [by etrans|]. destruct r; [done|by apply HP]. Qed.

Lemma wp_settles_weaken (P P' : exn → Prop) key x0 x m :
  (∀ e, P e → P' e) → quiet x0 x → wp m (settles P key x) x → wp m (settles P' key x0) x.
Proof. intros HP Hq Hm. eapply wp_mono; [exact Hm|]. intros r x'. by apply settles_weaken. Qed.

(** An outcome that is no success needs no receipt. *)
Lemma settles_other P key x o x' :
  quiet x x' → is_succeeded (Some o) = false → settles P key x (Ok o) x'.
Proof. intros Hq Ho. split; [done|]. unfold settled, durable. by rewrite Ho. Qed.

Lemma settles_terminal P key x o x' : quiet x x' → terminal key o x' → settles P key x (Ok o) x'.
Proof. intros Hq Ht. split; [done|]. intros _. exact Ht. Qed.

Lemma required_settles P key x0 x r :
  xw_ok x → quiet x0 x → xw_receipt x key = Some r → er_phase r = PH_TERMINAL →
  wp (_required_outcome r) (settles P key x0) x.
Proof.
  intros Hx Hq Hr Ht. destruct (stored_terminal _ _ _ Hx Hr Ht) as (o & Ho & Hterm).
  unfold _required_outcome. rewrite Ho. by apply wp_ret, settles_terminal.
Qed.

(** ** Reading a receipt back *)

Lemma wp_terminal_or fp f (Q : res ActionOutcome → world → Prop) x :
  xw_ok x →
  (∀ o x', quiet x x' → terminal (af_action_key fp) o x' → Q (Ok o) x') →
  (∀ receipt x', quiet x x' →
    (∀ r, receipt = Some r → xw_receipt x' (af_action_key fp) = Some r) → wp (f receipt) Q x') →
  wp (terminal_or schedule interrupts fp f) Q x.
Proof.
  intros Hx Ht Hf. unfold terminal_or, _shielded_receipt_read. apply wp_bind, wp_bind.
  eapply wp_shielded; [intros s Hs; by apply ses_get_receipt|done| |].
  2: { intros e x' Hq. apply wp_ret, Hf; [done|]. intros r [=]. }
  intros receipt s x' Hq HP. apply wp_ret. destruct receipt as [r|]; [|apply Hf; [done|by intros ? [=]]].
  pose proof (HP r eq_refl) as Hr. pose proof (quiet_ok _ _ Hq Hx) as Hx'.
  apply wp_if; intros Hp; [|apply Hf; [done|by intros ? [= <-]]].
  destruct (stored_terminal _ _ _ Hx' Hr Hp) as (o & Ho & Hterm).
  unfold _required_outcome. rewrite Ho. by apply wp_ret, Ht.
Qed.

(** A handler that reads the receipt back and else reports no success. *)
Lemma terminal_or_settles P fp f x0 x :
  xw_ok x → quiet x0 x →
  (∀ receipt x', quiet x0 x' → wp (f receipt) (settles P (af_action_key fp) x0) x') →
  wp (terminal_or schedule interrupts fp f) (settles P (af_action_key fp) x0) x.
Proof.
  intros Hx Hq Hf. apply wp_terminal_or; [done| |].
  - intros o x' Hq' Ht. apply settles_terminal; [by etrans|done].
  - intros receipt x' Hq' _. apply Hf. by etrans.
Qed.

Lemma persist_unknown_settles fp x0 x :
  xw_ok x → quiet x0 x →
  wp (_persist_unknown schedule interrupts fp) (settles never (af_action_key fp) x0) x.
Proof.
  intros Hx Hq. unfold _persist_unknown. apply wp_bind.
  eapply wp_shielded; [intros s Hs; by apply ses_record|done| |].
  2: { intros e x' Hq'. apply wp_ret, settles_other; [by etrans|done]. }
  intros r s x' Hq' [Hr [Ht|[_ Ho]]]; [apply required_settles; try done|].
  - by eapply quiet_ok.
  - by etrans.
  - unfold _required_outcome. rewrite Ho. apply wp_ret, settles_other; [by etrans|done].
Qed.

(** ** The native methods *)

(** Bind after a method that settles: its outcome is the result. *)
Lemma wp_settles_bind {B} P key x0 x (m : E ActionOutcome) (k : ActionOutcome → E B)
    (Q : res B → world → Prop) :
  wp m (settles P key x0) x →
  (∀ o x', quiet x0 x' → durable key o x' → wp (k o) Q x') →
  (∀ e x', quiet x0 x' → P e → Q (Err e) x') →
  wp (m ≫= k) Q x.
Proof.
  intros Hm Hk He. apply wp_bind. eapply wp_mono; [exact Hm|].
  intros [o|e] x' [Hq Hr]; [by apply Hk|by apply He].
Qed.

Lemma preflight_cancelled_settles fp x0 x :
  xw_ok x → quiet x0 x →
  wp (preflight_cancelled schedule interrupts fp) (settles cancelled (af_action_key fp) x0) x.
Proof.
  intros Hx Hq. apply terminal_or_settles; [done..|]. intros [r|] x' Hq'; [|by apply wp_raise].
  apply wp_if; intros _; [by apply wp_ret, settles_other|by apply wp_raise].
Qed.

Definition preflight_settles (key : pystr) (x0 : world) (r : res (option ActionOutcome)) (x : world) : Prop :=
  quiet x0 x ∧
  match r with Ok None => True | Ok (Some o) => durable key o x | Err e => cancelled e end.

Lemma native_preflight_spec fp preflight x :
  xw_ok x →
  wp (_run_native_preflight schedule interrupts fp preflight)
    (preflight_settles (af_action_key fp) x) x.
Proof.
  intros Hx. assert (quiet x x) as Hxx by reflexivity.
  destruct preflight as [preflight|]; [|by apply wp_ret]. cbn [_run_native_preflight].
  apply wp_bind, wp_catch_return, wp_callback; [done|]. intros [[error|]|e] x1 Hq.
  3: { destruct e; try (by apply wp_ret, wp_ret; split; [|by intros [=]]).
       eapply wp_settles_bind; [apply preflight_cancelled_settles; [by eapply quiet_ok|exact Hq]|..].
       - intros o x' Hq' Ho. by apply wp_ret, wp_ret.
       - by intros e x' Hq' ->. }
  2: by apply wp_ret.
  pose proof (quiet_ok _ _ Hq Hx) as Hx1. apply wp_bind, wp_catch_return.
  eapply wp_await; [intros s Hs; by apply ses_record_preflight|done| |].
  - intros r s x' _ Hq' Hr. assert (quiet x x') as Hqx by by etrans.
    apply wp_if; intros Ht.
    + eapply wp_settles_bind;
        [apply (required_settles cancelled); [by eapply quiet_ok|exact Hqx|exact Hr|done]|..].
      * intros o x2 Hq2 Ho. by apply wp_ret.
      * by intros e x2 Hq2 ->.
    + apply wp_ret. split; [done|]. intros [=].
  - intros e x' Hq'. assert (quiet x x') as Hqx by by etrans.
    pose proof (quiet_ok _ _ Hqx Hx) as Hx'.
    assert (∀ m, wp m (settles cancelled (af_action_key fp) x) x' →
      wp (outcome ← m ; mret (inr (A := EffectReceipt) outcome))
        (λ r s, match r with
                | Ok recorded => wp match recorded with
                                    | inl receipt =>
                                        if decide (er_phase receipt = PH_TERMINAL)
                                        then outcome ← _required_outcome receipt ; mret (Some outcome)
                                        else mret (Some (_unknown_outcome AE_NATIVE_OUTCOME_UNKNOWN))
                                    | inr outcome => mret (Some outcome)
                                    end (preflight_settles (af_action_key fp) x) s
                | Err e => preflight_settles (af_action_key fp) x (Err e) s
                end) x') as Hfin.
    { intros m Hm. eapply wp_settles_bind; [exact Hm|..].
      - intros o x2 Hq2 Ho. by apply wp_ret, wp_ret.
      - by intros e' x2 Hq2 ->. }
    destruct e; try (by apply wp_ret, wp_ret; split; [|by intros [=]]);
      apply Hfin; first [by apply preflight_cancelled_settles|apply terminal_or_settles; [done..|]];
      intros receipt x2 Hq2; by apply wp_ret, settles_other.
Qed.

(** What entering the fence settles: an outcome, or that the native side effect
    has begun, and, if this call acquired the fence, only now. *)
Definition fence_settles (key : pystr) (x0 : world) (r : res (bool * option ActionOutcome))
    (x : world) : Prop :=
  quiet x0 x ∧
  match r with
  | Ok (_, Some o) => durable key o x
  | Ok (acquired, None) => begun key x ∧ (acquired = true → ¬ begun key x0)
  | Err e => cancelled e
  end.

Lemma fence_outcome fp x0 x m :
  wp m (settles cancelled (af_action_key fp) x0) x →
  wp (outcome ← m ; mret (false, Some outcome)) (fence_settles (af_action_key fp) x0) x.
Proof. intros Hm. eapply wp_settles_bind; [exact Hm|by intros; apply wp_ret|done]. Qed.

Lemma enter_native_fence_spec fp x0 x :
  xw_ok x0 → quiet x0 x →
  wp (_enter_native_fence schedule interrupts fp) (fence_settles (af_action_key fp) x0) x.
Proof.
  intros Hx0 Hq0. pose proof (quiet_ok _ _ Hq0 Hx0) as Hx. unfold _enter_native_fence.
  apply wp_catch_with, wp_bind. eapply wp_await; [intros s Hs; by apply ses_mark|done| |].
  - intros [r acquired] s x1 Hs Hq [Hr Hacq]. assert (quiet x0 x1) as Hq1 by by etrans.
    apply wp_bind, wp_raise_if; intros Hp; [by apply wp_ret; split; [|intros [=]]|]. apply wp_ret.
    split; [done|]. split; [by exists r|]. intros ->. destruct (Hacq eq_refl) as (_ & r0 & Hr0 & Hp0).
    intros Hb. assert (xw_le x0 (Build_exec_world s 0 [])) as Hle by (etrans; [apply Hq0|exact Hs]).
    destruct (begun_stays _ _ _ Hx0 Hle Hb) as (r' & Hr' & Hp'). unfold xw_receipt in Hr'.
    cbn in Hr'. congruence.
  - intros e x1 Hq. assert (quiet x0 x1) as Hq1 by by etrans. pose proof (quiet_ok _ _ Hq1 Hx0) as Hx1.
    destruct e; try (by apply wp_ret; split; [|intros [=]]).
    unfold _shielded_receipt_read. apply wp_bind, wp_bind.
    eapply wp_shielded; [intros s Hs; by apply ses_get_receipt|done| |].
    2: { intros e x2 Hq2. apply wp_ret, wp_raise. split; [by etrans|done]. }
    intros receipt s x2 Hq2 HP. assert (quiet x0 x2) as Hq02 by by etrans.
    pose proof (quiet_ok _ _ Hq02 Hx0) as Hx2. apply wp_ret.
    destruct receipt as [r|]; [|by apply wp_raise]. apply wp_if; intros Hp; [by apply wp_raise|].
    apply wp_if; intros Ht; apply fence_outcome.
    + by apply required_settles; [..|apply HP|].
    + apply (wp_settles_weaken never _ _ _ x2); [done|done|]. by apply persist_unknown_settles.
Qed.

(** ** Recording what the native application said *)

Lemma record_terminal_settles fp known x0 x :
  xw_ok x → quiet x0 x →
  wp (record_terminal schedule interrupts fp known) (settles never (af_action_key fp) x0) x.
Proof.
  intros Hx Hq. unfold record_terminal. apply wp_bind, wp_catch_return.
  eapply wp_await; [intros s Hs; by apply ses_record|done| |].
  - intros r s x1 _ Hq1 [Hr Ht]. apply required_settles; [by eapply quiet_ok|by etrans|done|].
    by destruct Ht as [?|[? _]].
  - intros e x1 Hq1. assert (quiet x0 x1) as Hq01 by by etrans. pose proof (quiet_ok _ _ Hq1 Hx) as Hx1.
    eapply wp_settles_bind; [apply (terminal_or_settles never); [done..|]|by intros; apply wp_ret|done].
    intros receipt x2 Hq2. by apply wp_ret, settles_other.
Qed.

(** Reconciling never raises; to a primitive effect its success is stored for
    good, to a workflow it is what the native application said. *)
Definition reconciles (primitive : bool) (key : pystr) (x0 : world) (r : res ActionOutcome) (x : world)
    : Prop :=
  quiet x0 x ∧ match r with Ok o => primitive = true → durable key o x | Err _ => False end.

Lemma settles_reconciles primitive key x0 x m :
  wp m (settles never key x0) x → wp m (reconciles primitive key x0) x.
Proof. intros Hm. eapply wp_mono; [exact Hm|]. intros [o|e] x' [Hq Hr]; [|done]. by split. Qed.

Lemma reconciles_return {A} primitive key x0 x (m : E ActionOutcome) (k : A + ActionOutcome → E ActionOutcome) :
  wp m (reconciles primitive key x0) x → (∀ o, k (inr o) = mret o) →
  wp (outcome ← m ; mret (inr outcome)) (λ r x', match r with
    | Ok a => wp (k a) (reconciles primitive key x0) x'
    | Err e => reconciles primitive key x0 (Err e) x' end) x.
Proof.
  intros Hm Hk. apply wp_bind. eapply wp_mono; [exact Hm|]. intros [o|e] x' [Hq Hr]; [|done].
  apply wp_ret. rewrite Hk. apply wp_ret. by split.
Qed.

Lemma reconcile_recording_failed_spec fp primitive known e x0 x :
  xw_ok x → quiet x0 x →
  wp (reconcile_recording_failed schedule interrupts fp primitive known e)
    (reconciles primitive (af_action_key fp) x0) x.
Proof.
  intros Hx Hq. unfold reconcile_recording_failed.
  assert (∀ o x', quiet x x' → (primitive = true → is_succeeded (Some o) = false) →
    reconciles primitive (af_action_key fp) x0 (Ok o) x') as Hret.
  { intros o x' Hq' Ho. split; [by etrans|]. intros Hp. unfold durable. by rewrite (Ho Hp). }
  assert (∀ o x', quiet x x' → terminal (af_action_key fp) o x' →
    reconciles primitive (af_action_key fp) x0 (Ok o) x') as Hterm.
  { intros o x' Hq' Ht. split; [by etrans|]. intros _ _. exact Ht. }
  destruct e; (apply wp_terminal_or; [done|exact Hterm|intros receipt x' Hq' _]);
    try (apply wp_if; [intros (_ & Hp & _); apply wp_ret, Hret; [done|congruence]|intros _]);
    destruct known, primitive; by apply wp_ret, Hret.
Qed.

Lemma reconcile_spec fp phase_id reconcile primitive validator x0 x :
  xw_ok x → quiet x0 x →
  wp (_reconcile_native schedule interrupts fp phase_id reconcile primitive validator)
    (reconciles primitive (af_action_key fp) x0) x.
Proof.
  intros Hx Hq. destruct reconcile as [f|]; [|by apply settles_reconciles, persist_unknown_settles].
  cbn [_reconcile_native]. assert (∀ x1, quiet x x1 → quiet x0 x1) as Hq0 by (intros; by etrans).
  apply wp_bind, wp_catch_with, wp_bind, wp_callback; [done|]. intros [known|e] x1 Hq1.
  2: { apply reconciles_return; [|done]. apply settles_reconciles, persist_unknown_settles; [|by auto].
       by eapply quiet_ok. }
  pose proof (quiet_ok _ _ Hq1 Hx) as Hx1. apply wp_bind_lift; [intros [] _|intros e _].
  2: { apply reconciles_return; [|done]. apply settles_reconciles, persist_unknown_settles; auto. }
  apply wp_ret. destruct known as [known|]; [|apply settles_reconciles, persist_unknown_settles; auto].
  apply wp_bind, wp_catch_return. eapply wp_await; [intros s Hs; by apply ses_record|done| |].
  - intros r s x2 _ Hq2 [Hr Ht]. assert (quiet x0 x2) as Hq02 by (apply Hq0; by etrans).
    pose proof (quiet_ok _ _ Hq2 Hx1) as Hx2. destruct (decide (er_phase r = PH_TERMINAL)) as [Hp|Hp].
    + by apply settles_reconciles, required_settles.
    + destruct Ht as [?|[Hph Ho]]; [done|]. unfold _required_outcome. rewrite Ho. apply wp_ret.
      split; [done|]. intros ->. rewrite decide_True in Hph by by left. congruence.
  - intros e x2 Hq2. apply reconciles_return; [|done]. apply reconcile_recording_failed_spec.
    + by eapply quiet_ok.
    + apply Hq0. by etrans.
Qed.

(** ** One native execution *)

(** What an execution does: it does not invoke the native application, and
    raises only what [P] allows, or it invokes it once, although the side effect
    had not begun, and raises only what [P'] allows; it has then begun. *)
Definition attempts (P P' : exn → Prop) (key : pystr) (x0 : world) (r : res ActionOutcome) (x : world)
    : Prop :=
  xw_le x0 x ∧
  (xw_invoked x = xw_invoked x0 ∧ settled P key r x ∨
   (∃ phase_id, xw_invoked x = phase_id :: xw_invoked x0) ∧
   ¬ begun key x0 ∧ begun key x ∧ settled P' key r x).

Lemma settles_attempts P P' key x0 r x : settles P key x0 r x → attempts P P' key x0 r x.
Proof. intros [[? ?] ?]. split; [done|]. by left. Qed.

(** The invocation and what follows it. *)
Definition invokes (P : exn → Prop) (key : pystr) (x0 : world) (r : res ActionOutcome) (x : world)
    : Prop :=
  xw_le x0 x ∧ (∃ phase_id, xw_invoked x = phase_id :: xw_invoked x0) ∧ settled P key r x.

Lemma wp_invoke_native (Q : res ActionOutcome → world → Prop) invoke phase_id x :
  xw_ok x →
  (∀ r x', xw_ok x' → xw_le x x' → xw_invoked x' = phase_id :: xw_invoked x → Q r x') →
  wp (invoke_native schedule interrupts invoke phase_id) Q x.
Proof.
  intros Hx HQ. unfold invoke_native. apply wp_bind, wp_modify.
  set (x1 := {| xw_session := _ |}). assert (xw_ok x1) as Hx1 by done.
  apply wp_callback; [done|]. intros r x' Hq. apply HQ; [by eapply quiet_ok|by destruct Hq|by destruct Hq].
Qed.

Lemma settles_invokes P key x0 x1 phase_id r x :
  xw_le x0 x1 → xw_invoked x1 = phase_id :: xw_invoked x0 → settles P key x1 r x → invokes P key x0 r x.
Proof. intros Hle Hi [[? Hi'] ?]. split; [by etrans|]. split; [|done]. exists phase_id. congruence. Qed.

Lemma run_native_spec fp phase_id invoke x :
  xw_ok x →
  wp (run_native schedule interrupts fp phase_id invoke) (invokes never (af_action_key fp) x) x.
Proof.
  intros Hx. unfold run_native. apply wp_bind, wp_catch_with, wp_bind, wp_invoke_native; [done|].
  intros r x1 Hx1 Hle Hi. assert (quiet x1 x1) as Hq1 by reflexivity.
  assert (∀ m, wp m (settles never (af_action_key fp) x1) x1 →
    wp m (invokes never (af_action_key fp) x) x1) as Hfin.
  { intros m Hm. eapply wp_mono; [exact Hm|]. intros r' x'. by apply (settles_invokes _ _ _ _ phase_id). }
  assert (wp (outcome ← _persist_unknown schedule interrupts fp ; mret (inr (A := ActionOutcome) outcome))
    (λ r s, match r with
            | Ok invoked => wp match invoked with
                               | inl known => record_terminal schedule interrupts fp known
                               | inr outcome => mret outcome
                               end (invokes never (af_action_key fp) x) s
            | Err e => invokes never (af_action_key fp) x (Err e) s
            end) x1) as Hunknown.
  { eapply wp_settles_bind; [by apply persist_unknown_settles| |done].
    intros o x2 Hq2 Ho. apply wp_ret, wp_ret, (settles_invokes _ _ _ x1 phase_id); [done..|]. by split. }
  destruct r as [known|e]; [|exact Hunknown].
  apply wp_bind_lift; [intros [] _|intros e _; exact Hunknown].
  apply wp_ret, Hfin. by apply record_terminal_settles.
Qed.

Lemma enter_and_run_spec P P' fp preflight fresh again x0 x :
  xw_ok x0 → quiet x0 x → P CancelledError →
  (∀ x1, xw_ok x1 → wp fresh (invokes P' (af_action_key fp) x1) x1) →
  (∀ x1, xw_ok x1 → begun (af_action_key fp) x1 → wp again (settles P (af_action_key fp) x1) x1) →
  wp (enter_and_run schedule interrupts fp preflight fresh again)
    (attempts P P' (af_action_key fp) x0) x.
Proof.
  intros Hx0 Hq HP Hfresh Hagain. unfold enter_and_run.
  assert (∀ r x', quiet x0 x' → settled P (af_action_key fp) r x' →
    attempts P P' (af_action_key fp) x0 r x') as Hret by (intros; by apply settles_attempts).
  apply wp_bind. eapply wp_mono; [apply native_preflight_spec; by eapply quiet_ok|].
  intros [[o|]|e] x1 [Hq1 Hr]; [apply wp_ret, Hret; [by etrans|done]| |].
  2: { rewrite Hr. apply Hret; [by etrans|done]. }
  apply wp_bind. eapply wp_mono; [apply (enter_native_fence_spec fp x0); [done|by etrans]|].
  intros [[acquired [o|]]|e] x2 [Hq2 Hr2]; [by apply wp_ret, Hret| |].
  2: { rewrite Hr2. by apply Hret. }
  destruct Hr2 as [Hb Hnb]. pose proof (quiet_ok _ _ Hq2 Hx0) as Hx2. destruct acquired.
  - eapply wp_mono; [by apply Hfresh|]. intros r x3 (Hle & [p Hi] & Hr3).
    split; [by etrans; [apply Hq2|]|]. right. split_and!; [|by apply Hnb|by eapply begun_stays|done].
    exists p. destruct Hq2. congruence.
  - eapply wp_mono; [by apply Hagain|]. intros r x3 Hs. apply settles_attempts.
    by apply (settles_weaken P P _ _ x2).
Qed.

(** *** [execute_native_mutation] *)

Lemma reserved_not_begun key r x : xw_receipt x key = Some r → er_phase r = PH_RESERVED → ¬ begun key x.
Proof. intros Hr Hp (r' & Hr' & Hp'). congruence. Qed.

Lemma store_failure_settles key e x0 x :
  quiet x0 x → wp (store_failure e) (settles cancelled key x0) x.
Proof. intros Hq. destruct e; first [by apply wp_ret, settles_other|by apply wp_raise]. Qed.

(** The start both executions share: the reservation, and what [k] does with the
    receipt it gives. *)
Lemma wp_reserved {A} fp category phase_id c (k : EffectReceipt + ActionOutcome → E A)
    (Q : res A → world → Prop) x :
  xw_ok x →
  (∀ r x', quiet x x' → xw_receipt x' (af_action_key fp) = Some r → er_category r = category →
    wp (k (inl r)) Q x') →
  (∀ o x', quiet x x' → durable (af_action_key fp) o x' → wp (k (inr o)) Q x') →
  (∀ x', quiet x x' → Q (Err CancelledError) x') →
  wp (reserved ← catch
        (receipt ← await schedule interrupts (reserve_effect fp category phase_id c) ;
         mret (inl receipt))
        (λ e, outcome ← store_failure e ; mret (inr outcome)) ;
      k reserved) Q x.
Proof.
  intros Hx Hr Ho He. apply wp_bind, wp_catch_return.
  eapply wp_await; [intros s Hs; by apply ses_reserve|done|intros r s x' _ Hq [? ?]; by apply Hr|].
  intros e x' Hq. eapply wp_settles_bind; [by apply (store_failure_settles (af_action_key fp))| |].
  - intros o x2 Hq2 Hd. by apply wp_ret, Ho.
  - intros e' x2 Hq2 ->. by apply He.
Qed.

Section native.
Context (request : NativeMutationRequest).
Abbreviation fp := (nm_fingerprint request).
Abbreviation key := (af_action_key (nm_fingerprint request)).

(** The exceptions of an execution that did not invoke the native application. *)
Definition native_rejected (e : exn) : Prop :=
  e = CancelledError ∨ validate_native_mutation_request request = Err e
  ∨ phase_id fp (py "native") = Err e.

Context (invoke : pystr → callback ActionOutcome) (preflight : option (callback (option ActionError)))
  (reconcile : option (pystr → callback (option ActionOutcome))).

Lemma native_attempt_cases again (Q : res ActionOutcome → world → Prop) x :
  xw_ok x →
  (∀ r x', settles native_rejected key x r x' → Q r x') →
  (∀ x' p, quiet x x' → ¬ begun key x' →
    wp (enter_and_run schedule interrupts fp preflight (run_native schedule interrupts fp p invoke) again) Q x') →
  wp (native_attempt schedule interrupts request invoke preflight reconcile again) Q x.
Proof.
  intros Hx HQ Hrun. assert (quiet x x) as Hxx by reflexivity.
  assert (∀ m x', (∀ e, ¬ never e) → wp m (settles never key x) x' → wp m Q x') as Hnever.
  { intros m x' _ Hm. eapply wp_mono; [exact Hm|]. intros r x2 Hs. apply HQ.
    by apply (settles_weaken never _ _ _ x). }
  unfold native_attempt. apply wp_bind_lift; [intros [] Hval|].
  2: { intros e He. apply HQ. split; [done|]. by right; left. }
  cbv zeta. apply wp_bind_lift; [intros p Hp|].
  2: { intros e He. apply HQ. split; [done|]. by right; right. }
  apply wp_reserved; [done| | |].
  2: { intros o x' Hq Ho. by apply wp_ret, HQ. }
  2: { intros x' Hq. apply HQ. split; [done|]. by left. }
  intros r x' Hq Hr Hc. pose proof (quiet_ok _ _ Hq Hx) as Hx'. destruct (er_phase r) eqn:Hph.
  - apply Hrun; [done|]. by eapply reserved_not_begun.
  - apply Hnever; [by intros ? []|]. eapply wp_mono; [by apply (reconcile_spec _ _ _ true _ x)|].
    intros [o|e] x2 [Hq2 Ho]; [|done]. split; [done|by apply Ho].
  - apply seq_ok in Hval as [_ Hcat%raise_if_ok].
    pose proof (ses_valid _ _ _ Hx' Hr) as Hv.
    apply validate_effect_receipt_ok in Hv as (_ & _ & _ & _ & _ & _ & _ & _ & _ & _ & Hknown & _).
    exfalso. apply Hcat. rewrite <- Hc. intros Hin. apply Hknown. split; [done|]. left. intros Hw.
    rewrite Hw in Hin. rewrite !elem_of_cons, elem_of_nil in Hin. naive_solver.
  - by apply Hnever, required_settles; [by intros ? []|..].
Qed.

Lemma native_attempt_begun again x :
  xw_ok x → begun key x →
  wp (native_attempt schedule interrupts request invoke preflight reconcile again)
    (settles native_rejected key x) x.
Proof.
  intros Hx Hb. apply native_attempt_cases; [done..|]. intros x' p [Hle _] Hnb. exfalso. apply Hnb.
  by apply (begun_stays _ x).
Qed.

Lemma native_attempt_spec again x :
  xw_ok x →
  (∀ x1, xw_ok x1 → begun key x1 → wp again (settles native_rejected key x1) x1) →
  wp (native_attempt schedule interrupts request invoke preflight reconcile again)
    (attempts native_rejected never key x) x.
Proof.
  intros Hx Hagain. apply native_attempt_cases; [done|intros r x'; apply settles_attempts|].
  intros x' p Hq _. apply enter_and_run_spec; [done|done|by left|intros; by apply run_native_spec|done].
Qed.

Lemma execute_native_spec depth x :
  (2 ≤ depth)%nat → xw_ok x →
  wp (execute_native_mutation schedule interrupts depth request invoke preflight reconcile)
    (attempts native_rejected never key x) x.
Proof.
  intros Hd Hx. destruct depth as [|[|depth]]; [lia..|]. apply native_attempt_spec; [done|].
  intros x1 Hx1 Hb. by apply native_attempt_begun.
Qed.
End native.

(** ** Commits, with or without a fence *)

Definition anything : exn → Prop := λ _, True.

(** A commit: a terminal receipt that is stored, or an outcome that settles. *)
Definition committed (P : exn → Prop) (key : pystr) (x0 : world) (r : res (EffectReceipt + ActionOutcome))
    (x : world) : Prop :=
  quiet x0 x ∧
  match r with
  | Ok (inl receipt) => xw_receipt x key = Some receipt ∧ er_phase receipt = PH_TERMINAL
  | Ok (inr o) => durable key o x
  | Err e => P e
  end.

Lemma committed_stays key x0 x x' r :
  xw_ok x0 → quiet x x' → committed anything key x0 r x → committed anything key x0 r x'.
Proof.
  intros Hx0 Hq [Hq0 Hr]. pose proof (quiet_ok _ _ Hq0 Hx0) as Hx. split; [by etrans|].
  destruct r as [[receipt|o]|e]; [|intros Ho; eapply terminal_stays; [done|apply Hq|by apply Hr]|done].
  destruct Hr as [Hr Ht]. destruct Hq as [Hle _].
  destruct (ses_le_receipt _ _ _ _ Hx Hle Hr) as (r' & Hr' & Hs).
  assert (r' = receipt) as ->; [|done].
  destruct Hs as [|r1 r2 r3 Hs _]; [done|]. by apply terminal_has_no_step in Hs.
Qed.

(** The body of a commit: what it commits, or the error the fence reports. *)
Lemma async_with_committed key fence (body : option ActionError → E (EffectReceipt + ActionOutcome)) x :
  xw_ok x →
  (∀ error x', xw_ok x' → wp (body error) (committed anything key x') x') →
  wp (async_with schedule interrupts fence body) (committed anything key x) x.
Proof.
  intros Hx Hbody. unfold async_with. apply wp_bind, wp_callback; [done|].
  intros [error|e] x1 Hq1; [|by split]. pose proof (quiet_ok _ _ Hq1 Hx) as Hx1.
  specialize (Hbody error x1 Hx1). unfold wp in *. unfold finally.
  destruct (body error x1) as [r x2]. assert (quiet x1 x2) as Hq2 by by destruct Hbody.
  assert (quiet x x2) as Hq02 by by etrans.
  pose proof (wp_callback (cf_exit fence) (λ r' x3, quiet x2 x3) x2
    (quiet_ok _ _ Hq02 Hx) (λ _ _ H, H)) as Hexit. unfold wp in Hexit.
  destruct (await_callback schedule interrupts (cf_exit fence) x2) as [[[]|e] x3]; cbn in *.
  - destruct (committed_stays key x1 x2 x3 r Hx1 Hexit Hbody) as [Hq3 Hr]. by split; [etrans|].
  - split; [|done]. by etrans.
Qed.

(** A commit and the use of its receipt. *)
Lemma wp_committed key x0 x (m : E (EffectReceipt + ActionOutcome)) :
  xw_ok x0 → wp m (committed anything key x0) x →
  wp (c ← m ; match c with inl receipt => _required_outcome receipt | inr outcome => mret outcome end)
    (settles anything key x0) x.
Proof.
  intros Hx0 Hm. apply wp_bind. eapply wp_mono; [exact Hm|]. intros [[receipt|o]|e] x' [Hq Hr].
  - destruct Hr as [Hr Ht]. apply required_settles; [by eapply quiet_ok|done..].
  - by apply wp_ret.
  - done.
Qed.

(** *** [_commit_known_workflow] *)

Lemma commit_workflow_fenced_spec request created target route fence x :
  xw_ok x →
  wp (commit_workflow_fenced schedule interrupts request created target route fence)
    (committed anything (af_action_key (cw_fingerprint request)) x) x.
Proof.
  intros Hx. unfold commit_workflow_fenced. cbv zeta.
  assert (∀ x', xw_ok x' →
    wp (receipt ← await schedule interrupts (commit_workflow_binding (cw_fingerprint request) target route) ;
        mret (inl receipt)) (committed anything (af_action_key (cw_fingerprint request)) x') x') as Hcommit.
  { intros x' Hx'. apply wp_bind. eapply wp_await; [intros s Hs; by apply ses_workflow|done| |done].
    intros r s x2 _ Hq Hr. by apply wp_ret. }
  destruct route as [r|], fence as [f|]; try (by apply Hcommit).
  apply async_with_committed; [done|]. intros [error|] x' Hx'; [|by apply Hcommit].
  apply wp_ret. split; [reflexivity|]. intros [=].
Qed.

Lemma commit_known_workflow_spec request receipt fence x0 x :
  xw_ok x → quiet x0 x →
  wp (_commit_known_workflow schedule interrupts request receipt fence)
    (settles anything (af_action_key (cw_fingerprint request)) x0) x.
Proof.
  intros Hx Hq. unfold _commit_known_workflow.
  destruct (er_outcome receipt) as [[created| | |]|]; try (by apply wp_raise).
  destruct (_validate_workflow_created_value request created); [|by apply wp_ret, settles_other].
  apply wp_bind_lift; [intros [target route] _|done].
  apply (wp_settles_weaken anything _ _ _ x); [done|done|]. apply wp_committed; [done|].
  apply wp_catch_with. eapply wp_mono; [by apply commit_workflow_fenced_spec|].
  intros [c|e] x1 [Hq1 Hr]; [by split|].
  eapply (wp_settles_bind anything); [apply (terminal_or_settles anything _ _ x)|..].
  - by eapply quiet_ok.
  - done.
  - intros r' x2 Hq2. by apply wp_ret, settles_other.
  - intros o x2 Hq2 Ho. by apply wp_ret.
  - done.
Qed.

(** *** [execute_create_binding_workflow] *)

Section workflow.
Context (request : CreateBindingWorkflowRequest).
Abbreviation fp := (cw_fingerprint request).
Abbreviation key := (af_action_key (cw_fingerprint request)).
Context (invoke : pystr → callback ActionOutcome) (preflight : option (callback (option ActionError)))
  (reconcile : option (pystr → callback (option ActionOutcome)))
  (commit_fence : option (pystr → CommitFence)).

Lemma record_created_spec known created x0 x :
  xw_ok x0 → quiet x0 x →
  wp (record_created schedule interrupts request known created commit_fence) (settles anything key x0) x.
Proof.
  intros Hx0 Hq. pose proof (quiet_ok _ _ Hq Hx0) as Hx. unfold record_created. cbv zeta. apply wp_bind, wp_catch_return.
  assert (∀ x', quiet x x' → quiet x0 x' ∧ xw_ok x') as Hx'.
  { intros x' Hq'. split; [by etrans|by eapply quiet_ok]. }
  eapply wp_await; [intros s Hs; by apply ses_record|done| |].
  - intros r s x' _ Hq' _. destruct (Hx' x' Hq'). by apply commit_known_workflow_spec.
  - intros e x' Hq'. destruct (Hx' x' Hq') as [Hq0 Hok].
    eapply (wp_settles_bind anything key x0); [|by intros o x2 Hq2 Ho; apply wp_ret, wp_ret|done].
    destruct e; (apply (terminal_or_settles anything); [done..|]); intros receipt x2 Hq2;
      try (by apply wp_ret, settles_other);
      (destruct receipt as [r|]; [apply wp_if; intros _|]); try (by apply wp_ret, settles_other);
      apply commit_known_workflow_spec; try done; by apply (quiet_ok x0).
Qed.

Lemma run_workflow_spec phase_id x :
  xw_ok x →
  wp (run_workflow schedule interrupts request phase_id invoke commit_fence)
    (invokes anything key x) x.
Proof.
  intros Hx. unfold run_workflow. cbv zeta. apply wp_bind, wp_catch_with, wp_bind, wp_invoke_native; [done|].
  intros r x1 Hx1 Hle Hi. assert (quiet x1 x1) as Hq1 by reflexivity.
  assert (∀ m, wp m (settles anything key x1) x1 → wp m (invokes anything key x) x1) as Hfin.
  { intros m Hm. eapply wp_mono; [exact Hm|]. intros r' x'. by apply (settles_invokes _ _ _ _ phase_id). }
  assert (∀ k : ActionOutcome → E ActionOutcome,
    wp (outcome ← _persist_unknown schedule interrupts fp ; mret (inr (A := ActionOutcome) outcome))
    (λ r s, match r with
            | Ok invoked => wp match invoked with
                               | inl known => k known
                               | inr outcome => mret outcome
                               end (invokes anything key x) s
            | Err e => invokes anything key x (Err e) s
            end) x1) as Hunknown.
  { intros k. eapply wp_settles_bind; [by apply persist_unknown_settles| |done].
    intros o x2 Hq2 Ho. apply wp_ret, wp_ret, (settles_invokes _ _ _ x1 phase_id); [done..|]. by split. }
  destruct r as [known|e]; [|apply Hunknown].
  apply wp_bind_lift; [intros [] _|intros e _; apply Hunknown].
  apply wp_ret, Hfin. destruct known as [created| | |]; [by apply record_created_spec|..];
    apply (wp_settles_weaken never _ _ _ x1); try done; by apply record_terminal_settles.
Qed.

Lemma resume_workflow_spec phase_id x0 x :
  xw_ok x0 → quiet x0 x →
  wp (resume_workflow schedule interrupts request phase_id reconcile commit_fence)
    (settles anything key x0) x.
Proof.
  intros Hx0 Hq. unfold resume_workflow. apply wp_bind.
  eapply wp_mono; [apply (reconcile_spec _ _ _ false _ x0); [by eapply quiet_ok|done]|].
  intros [known|e] x1 [Hq1 _]; [|done]. destruct known; try (by apply wp_ret, settles_other).
  apply wp_bind. eapply wp_await; [intros s Hs; by apply ses_get_receipt|by eapply quiet_ok| |].
  - intros receipt s x2 _ Hq2 HP. assert (quiet x0 x2) as Hq02 by by etrans.
    pose proof (quiet_ok _ _ Hq02 Hx0) as Hx2.
    destruct receipt as [r|]; [|by apply wp_ret, settles_other].
    apply wp_if; intros Ht; [by apply required_settles; [..|apply HP|]|].
    by apply commit_known_workflow_spec.
  - intros e x2 Hq2. split; [by etrans|done].
Qed.

Lemma workflow_attempt_cases again (Q : res ActionOutcome → world → Prop) x :
  xw_ok x →
  (∀ r x', settles anything key x r x' → Q r x') →
  (∀ x' p, quiet x x' → ¬ begun key x' →
    wp (enter_and_run schedule interrupts fp preflight
          (run_workflow schedule interrupts request p invoke commit_fence) again) Q x') →
  wp (workflow_attempt schedule interrupts request invoke preflight reconcile commit_fence again) Q x.
Proof.
  intros Hx HQ Hrun. assert (quiet x x) as Hxx by reflexivity.
  assert (∀ m x', wp m (settles anything key x) x' → wp m Q x') as Hany.
  { intros m x' Hm. eapply wp_mono; [exact Hm|]. apply HQ. }
  unfold workflow_attempt. apply wp_bind_lift; [intros [] _|by intros; apply HQ].
  cbv zeta. apply wp_bind_lift; [intros p Hp|by intros; apply HQ].
  apply wp_reserved; [done| | |].
  2: { intros o x' Hq Ho. by apply wp_ret, HQ. }
  2: { intros x' Hq. by apply HQ. }
  intros r x' Hq Hr Hc. pose proof (quiet_ok _ _ Hq Hx) as Hx'. destruct (er_phase r) eqn:Hph.
  - apply Hrun; [done|]. by eapply reserved_not_begun.
  - by apply Hany, resume_workflow_spec.
  - by apply Hany, commit_known_workflow_spec.
  - by apply Hany, required_settles.
Qed.

Lemma workflow_attempt_begun again x :
  xw_ok x → begun key x →
  wp (workflow_attempt schedule interrupts request invoke preflight reconcile commit_fence again)
    (settles anything key x) x.
Proof.
  intros Hx Hb. apply workflow_attempt_cases; [done..|]. intros x' p [Hle _] Hnb. exfalso. apply Hnb.
  by apply (begun_stays _ x).
Qed.

Lemma workflow_attempt_spec again x :
  xw_ok x →
  (∀ x1, xw_ok x1 → begun key x1 → wp again (settles anything key x1) x1) →
  wp (workflow_attempt schedule interrupts request invoke preflight reconcile commit_fence again)
    (attempts anything anything key x) x.
Proof.
  intros Hx Hagain. apply workflow_attempt_cases; [done|intros r x'; apply settles_attempts|].
  intros x' p Hq _. by apply enter_and_run_spec; [..|intros; apply run_workflow_spec|].
Qed.

Lemma execute_workflow_spec depth x :
  (2 ≤ depth)%nat → xw_ok x →
  wp (execute_create_binding_workflow schedule interrupts depth request invoke preflight reconcile commit_fence)
    (attempts anything anything key x) x.
Proof.
  intros Hd Hx. destruct depth as [|[|depth]]; [lia..|]. apply workflow_attempt_spec; [done|].
  intros x1 Hx1 Hb. by apply workflow_attempt_begun.
Qed.
End workflow.

(** ** Store mutations *)

Section store.
Context (request : StoreMutationRequest).
Abbreviation fp := (sm_fingerprint request).
Abbreviation key := (af_action_key (sm_fingerprint request)).

(** The outcome a read finds, if it finds one. *)
Definition found (x0 : world) (r : res (option ActionOutcome)) (x : world) : Prop :=
  quiet x0 x ∧ match r with Ok (Some o) => durable key o x | _ => True end.

Lemma read_store_receipt_spec x :
  xw_ok x → wp (_read_store_mutation_receipt schedule interrupts fp) (found x) x.
Proof.
  intros Hx. unfold _read_store_mutation_receipt. apply wp_bind, wp_catch_return.
  eapply wp_await; [intros s Hs; by apply ses_store_receipt|done| |].
  - intros [r|] s x' _ Hq HP; [|by apply wp_ret]. apply wp_bind, wp_raise_if; [done|]. intros Ht%dec_stable.
    eapply (wp_settles_bind anything); [apply (required_settles anything key x);
      [by eapply quiet_ok|done|by apply HP|done]| |done].
    intros o x2 Hq2 Ho. by apply wp_ret.
  - intros e x' Hq. eapply (wp_settles_bind cancelled); [by apply (store_failure_settles key)| |done].
    intros o x2 Hq2 Ho. by apply wp_ret, wp_ret.
Qed.

Lemma recover_outcome_spec x0 x :
  xw_ok x → quiet x0 x →
  wp (_recover_store_mutation_outcome schedule interrupts fp) (found x0) x.
Proof.
  intros Hx Hq. unfold _recover_store_mutation_outcome, _shielded_store_receipt_read.
  apply wp_bind, wp_catch_with, wp_bind, wp_bind.
  eapply wp_shielded; [intros s Hs; by apply ses_store_receipt|done| |].
  - intros receipt s x' Hq' HP. assert (quiet x0 x') as Hq0 by by etrans. apply wp_ret, wp_ret.
    destruct receipt as [r|]; [|by apply wp_ret]. apply wp_if; intros Ht.
    + apply wp_ret. split; [done|]. intros [=].
    + apply dec_stable in Ht. eapply (wp_settles_bind anything); [apply (required_settles anything key x0);
        [exact (quiet_ok _ _ Hq' Hx)|done|by apply HP|done]| |done].
      intros o x2 Hq2 Ho. by apply wp_ret.
  - intros e x' Hq'. assert (quiet x0 x') as Hq0 by by etrans.
    destruct e; try (by apply wp_ret, wp_ret, wp_ret).
    apply wp_raise, wp_ret, wp_ret. split; [done|]. intros [=].
Qed.

Lemma store_preflight_spec preflight x :
  xw_ok x →
  wp (_run_store_preflight schedule interrupts fp preflight) (λ r x', quiet x x' ∧
    match r with Ok (Some (inr o)) => durable key o x' | _ => True end) x.
Proof.
  intros Hx. unfold _run_store_preflight. apply wp_catch_with, wp_bind, wp_callback; [done|].
  intros [error|e] x1 Hq1; [by apply wp_ret; split; [|destruct error]|].
  destruct e; try (by apply wp_ret; split; [|intros [=]]).
  apply wp_bind. eapply wp_mono; [apply (recover_outcome_spec x); [by eapply quiet_ok|done]|].
  intros [[o|]|e] x2 [Hq2 Ho]; [by apply wp_ret|by apply wp_raise|done].
Qed.

Lemma commit_store_result_spec preflight_error x :
  xw_ok x →
  wp (receipt ← _commit_store_result schedule interrupts request preflight_error ; mret (inl receipt))
    (committed anything key x) x.
Proof.
  intros Hx. apply wp_bind. unfold _commit_store_result. destruct preflight_error as [error|].
  - eapply wp_await; [intros s Hs; by apply ses_preflight_failure|done| |done].
    intros r s x' _ Hq Hr. by apply wp_ret.
  - eapply wp_await; [intros s Hs; by apply ses_commit|done| |done].
    intros r s x' _ Hq Hr. by apply wp_ret.
Qed.

Lemma commit_recovering_spec preflight_error fence x :
  xw_ok x →
  wp (commit_recovering schedule interrupts request preflight_error fence) (committed anything key x) x.
Proof.
  intros Hx. unfold commit_recovering. apply wp_catch_with.
  assert (∀ m, wp m (committed anything key x) x →
    wp m (λ r x', match r with Ok a => committed anything key x (Ok a) x' | Err e =>
      wp (recovered ← _recover_store_mutation_outcome schedule interrupts fp ;
          match recovered with
          | Some outcome => mret (inr outcome)
          | None => match e with
                    | CancelledError => mraise CancelledError
                    | _ => mret (inr (failed (if is_store_error e then _store_error_code e
                                              else AE_STORE_FAILURE)))
                    end
          end) (committed anything key x) x' end) x) as Hrec.
  { intros m Hm. eapply wp_mono; [exact Hm|]. intros [c|e] x1 [Hq1 Hr]; [by split|].
    apply wp_bind. eapply wp_mono; [apply (recover_outcome_spec x); [by eapply quiet_ok|done]|].
    intros [[o|]|e'] x2 [Hq2 Ho]; [by apply wp_ret| |done].
    destruct e; try (by apply wp_raise); apply wp_ret; (split; [done|]); intros [=]. }
  apply Hrec. destruct fence as [f|]; [|by apply commit_store_result_spec].
  apply async_with_committed; [done|]. intros [error|] x' Hx'; [|by apply commit_store_result_spec].
  apply wp_ret. split; [reflexivity|]. intros [=].
Qed.

Lemma execute_store_spec preflight fence x :
  xw_ok x →
  wp (execute_store_mutation schedule interrupts request preflight fence) (settles anything key x) x.
Proof.
  intros Hx. assert (quiet x x) as Hxx by reflexivity. unfold execute_store_mutation.
  apply wp_bind_lift; [intros [] _|done]. apply wp_bind.
  enough (∀ x1, quiet x x1 → wp (preflight_result ←
      match preflight with None => mret None | Some f => _run_store_preflight schedule interrupts fp f end ;
      match preflight_result with
      | Some (inr outcome) => mret outcome
      | None | Some (inl _) =>
          let preflight_error :=
            match preflight_result with Some (inl error) => Some error | _ => None end in
          committed ← commit_recovering schedule interrupts request preflight_error fence ;
          match committed with
          | inr outcome => mret outcome
          | inl receipt => _required_outcome receipt
          end
      end) (settles anything key x) x1) as Hrest.
  { apply wp_if; intros _; [|by apply wp_ret, Hrest].
    eapply wp_mono; [by apply read_store_receipt_spec|].
    intros [[o|]|e] x1 [Hq1 Ho]; [by apply wp_ret|by apply Hrest|done]. }
  intros x1 Hq1. pose proof (quiet_ok _ _ Hq1 Hx) as Hx1. apply wp_bind.
  assert (∀ error x2, quiet x1 x2 →
    wp (committed ← commit_recovering schedule interrupts request error fence ;
        match committed with inl receipt => _required_outcome receipt | inr outcome => mret outcome end)
      (settles anything key x) x2) as Hcommit.
  { intros error x2 Hq2. pose proof (quiet_ok _ _ Hq2 Hx1) as Hx2.
    apply (wp_settles_weaken anything _ _ _ x2); [done|by etrans|].
    apply wp_committed; [done|]. by apply commit_recovering_spec. }
  destruct preflight as [f|]; [|apply wp_ret, Hcommit; reflexivity].
  eapply wp_mono; [by apply store_preflight_spec|].
  intros [[[error|o]|]|e] x2 [Hq2 Ho]; [by apply Hcommit| |by apply Hcommit|].
  - apply wp_ret. split; [by etrans|done].
  - split; [by etrans|done].
Qed.

Lemma replay_store_spec x :
  xw_ok x → wp (replay_store_mutation schedule interrupts request) (found x) x.
Proof.
  intros Hx. unfold replay_store_mutation. apply wp_bind_lift; [intros [] _|done].
  by apply read_store_receipt_spec.
Qed.
End store.

(** ** The recursion *)

(** Two continuations that agree wherever [m] may lead. *)
Lemma bind_ext {A B} (m : E A) (k k' : A → E B) x :
  wp m (λ r x', ∀ a, r = Ok a → k a x' = k' a x') x → (m ≫= k) x = (m ≫= k') x.
Proof. unfold wp, mbind, M_bind. destruct (m x) as [[a|e] x']; [|done]. intros H'. by apply H'. Qed.

Lemma lift_ext {A B} (r : res A) (k k' : A → E B) x :
  (∀ a, r = Ok a → k a x = k' a x) → (lift r ≫= k) x = (lift r ≫= k') x.
Proof. intros Hk. by apply bind_ext, wp_lift. Qed.

Lemma reserved_ext {A} fp category phase_id c (k k' : EffectReceipt + ActionOutcome → E A) x :
  xw_ok x →
  (∀ r x', quiet x x' → xw_receipt x' (af_action_key fp) = Some r → k (inl r) x' = k' (inl r) x') →
  (∀ o x', k (inr o) x' = k' (inr o) x') →
  let reserved := catch
    (receipt ← await schedule interrupts (reserve_effect fp category phase_id c) ; mret (inl receipt))
    (λ e, outcome ← store_failure e ; mret (inr outcome)) in
  (reserved ≫= k) x = (reserved ≫= k') x.
Proof.
  intros Hx Hr Ho. cbv zeta. apply bind_ext, wp_catch_return.
  eapply wp_await; [intros s Hs; by apply ses_reserve|done| |].
  - intros r s x' _ Hq [Hk _] a [= <-]. by apply Hr.
  - intros e x' _. apply wp_bind. destruct e; unfold wp; cbn; intros a [=]; subst; apply Ho.
Qed.

Lemma enter_and_run_ext fp preflight fresh again again' x :
  xw_ok x →
  (∀ x', xw_ok x' → begun (af_action_key fp) x' → again x' = again' x') →
  enter_and_run schedule interrupts fp preflight fresh again x
    = enter_and_run schedule interrupts fp preflight fresh again' x.
Proof.
  intros Hx Ha. apply bind_ext. eapply wp_mono; [by apply native_preflight_spec|].
  intros r x1 [Hq1 _] [o|] ->; [done|]. pose proof (quiet_ok _ _ Hq1 Hx) as Hx1.
  apply bind_ext. eapply wp_mono; [by apply (enter_native_fence_spec fp x1)|].
  intros r x2 [Hq2 Hr] [acquired [o|]] ->; [done|]. destruct acquired; [done|].
  apply Ha; [by eapply quiet_ok|apply Hr].
Qed.

Section recursion.
Context (invoke : pystr → callback ActionOutcome) (preflight : option (callback (option ActionError)))
  (reconcile : option (pystr → callback (option ActionOutcome)))
  (commit_fence : option (pystr → CommitFence)).

(** The recursive call matters only if the fence was taken between the
    reservation and the mark; then the call itself does not recur. *)
Lemma native_attempt_ext request again again' x :
  xw_ok x →
  (∀ x', xw_ok x' → ¬ begun (af_action_key (nm_fingerprint request)) x →
    begun (af_action_key (nm_fingerprint request)) x' → again x' = again' x') →
  native_attempt schedule interrupts request invoke preflight reconcile again x
    = native_attempt schedule interrupts request invoke preflight reconcile again' x.
Proof.
  intros Hx Ha. unfold native_attempt. apply lift_ext. intros [] _. cbv zeta. apply lift_ext. intros p _.
  apply reserved_ext; [done| |done]. intros r x' Hq Hr. destruct (er_phase r) eqn:Hph; try done.
  apply enter_and_run_ext; [by eapply quiet_ok|]. intros x2 Hx2. apply Ha; [done|]. intros Hb.
  apply (reserved_not_begun _ _ _ Hr Hph), (begun_stays _ x); [done|apply Hq|done].
Qed.

Lemma workflow_attempt_ext request again again' x :
  xw_ok x →
  (∀ x', xw_ok x' → ¬ begun (af_action_key (cw_fingerprint request)) x →
    begun (af_action_key (cw_fingerprint request)) x' → again x' = again' x') →
  workflow_attempt schedule interrupts request invoke preflight reconcile commit_fence again x
    = workflow_attempt schedule interrupts request invoke preflight reconcile commit_fence again' x.
Proof.
  intros Hx Ha. unfold workflow_attempt. apply lift_ext. intros [] _. cbv zeta. apply lift_ext. intros p _.
  apply reserved_ext; [done| |done]. intros r x' Hq Hr. destruct (er_phase r) eqn:Hph; try done.
  apply enter_and_run_ext; [by eapply quiet_ok|]. intros x2 Hx2. apply Ha; [done|]. intros Hb.
  apply (reserved_not_begun _ _ _ Hr Hph), (begun_stays _ x); [done|apply Hq|done].
Qed.
End recursion.

End executor.
