(* ===== verification/ExecutionProperties.v ===== *)
(** The theorems on the durable executor: at most one native invocation an action,
    durable successes, and how an execution ends, however it is interleaved and
    cancelled. *)

From S2P Require Export ExecutionTheorems.
From stdpp Require Import list.
#[local] Open Scope Z_scope.
#[local] Open Scope stdpp_scope.

(** A native effect, primitive or the creating half of a workflow, with its
    callbacks. *)
Inductive execution : Type :=
| NativeExecution (request : NativeMutationRequest) (invoke : pystr → callback ActionOutcome)
    (preflight : option (callback (option ActionError)))
    (reconcile : option (pystr → callback (option ActionOutcome)))
| WorkflowExecution (request : CreateBindingWorkflowRequest) (invoke : pystr → callback ActionOutcome)
    (preflight : option (callback (option ActionError)))
    (reconcile : option (pystr → callback (option ActionOutcome)))
    (commit_fence : option (pystr → CommitFence)).

Definition execution_key (e : execution) : pystr :=
  match e with
  | NativeExecution request _ _ _ => af_action_key (nm_fingerprint request)
  | WorkflowExecution request _ _ _ _ => af_action_key (cw_fingerprint request)
  end.

Section executions.
Context {S : Type} `{EffectSessionLaws S}.

Definition execute (depth : nat) (schedule : nat → S → S) (interrupts : nat → interrupt) (e : execution)
    : M (exec_world S) ActionOutcome :=
  match e with
  | NativeExecution request invoke preflight reconcile =>
      execute_native_mutation schedule interrupts depth request invoke preflight reconcile
  | WorkflowExecution request invoke preflight reconcile commit_fence =>
      execute_create_binding_workflow schedule interrupts depth request invoke preflight reconcile
        commit_fence
  end.

(** One attempt, with what the recursive call would do. *)
Definition attempt (schedule : nat → S → S) (interrupts : nat → interrupt) (e : execution)
    (again : M (exec_world S) ActionOutcome) : M (exec_world S) ActionOutcome :=
  match e with
  | NativeExecution request invoke preflight reconcile =>
      native_attempt schedule interrupts request invoke preflight reconcile again
  | WorkflowExecution request invoke preflight reconcile commit_fence =>
      workflow_attempt schedule interrupts request invoke preflight reconcile commit_fence again
  end.

(** Others keep to the promises of the session. *)
Definition fair (schedule : nat → S → S) : Prop := ∀ k s, ses_ok s → ses_le s (schedule k s).

Lemma execution_spec depth schedule interrupts e x :
  (2 ≤ depth)%nat → fair schedule → xw_ok x →
  wp (execute depth schedule interrupts e) (attempts anything anything (execution_key e) x) x.
Proof.
  intros Hd Hf Hx. destruct e; cbn; [|by apply execute_workflow_spec].
  eapply wp_mono; [by apply execute_native_spec|]. intros r x' [Hle Hr]. split; [done|].
  destruct Hr as [[Hi Hr]|(Hi & Hb & Hb' & Hr)]; [left|right]; split_and!; try done; by destruct r.
Qed.

(** A run of executions one after the other, each with its own schedule. *)
Definition run_executions (depth : nat)
    (runs : list (execution * (nat → S → S) * (nat → interrupt))) (x : exec_world S) : exec_world S :=
  fold_left (λ x '(e, schedule, interrupts), (execute depth schedule interrupts e x).2) runs x.

Lemma run_begun depth key runs x :
  (2 ≤ depth)%nat → xw_ok x → begun key x →
  Forall (λ '(e, schedule, _), execution_key e = key ∧ fair schedule) runs →
  xw_invoked (run_executions depth runs x) = xw_invoked x.
Proof.
  intros Hd Hx Hb Hruns. revert x Hx Hb.
  induction Hruns as [|[[e schedule] interrupts] runs [Hk Hf] _ IH]; intros x Hx Hb; [done|]. cbn.
  pose proof (execution_spec depth schedule interrupts e x Hd Hf Hx) as Hspec. unfold wp in Hspec.
  destruct (execute depth schedule interrupts e x) as [r x1]. cbn in *.
  rewrite Hk in Hspec. destruct Hspec as [Hle [[Hi _]|(_ & Hnb & _)]]; [|done].
  fold (run_executions depth runs x1). rewrite IH; [done|by eapply xw_le_ok|by eapply begun_stays].
Qed.


(** C11. A success that an execution reports is stored: the receipt of the action
    is terminal with that very outcome, and stays so in every later state of
    the session. *)
Theorem reported_success_is_durable depth schedule interrupts e x value x' s :
  (2 ≤ depth)%nat → fair schedule → ses_ok (xw_session x) →
  execute depth schedule interrupts e x = (Ok (Succeeded value), x') →
  ses_le (xw_session x') s →
  ∃ receipt, ses_receipt s (execution_key e) = Some receipt ∧ er_phase receipt = PH_TERMINAL ∧
    er_outcome receipt = Some (Succeeded value).
Proof.
  intros Hd Hf Hx Hrun Hle. pose proof (execution_spec depth schedule interrupts e x Hd Hf Hx) as Hspec.
  apply (wp_intro _ _ _ _ _ Hrun) in Hspec as [Hle' Hr].
  assert (terminal (execution_key e) (Succeeded value) x') as Ht
    by (destruct Hr as [[_ Hr]|(_ & _ & _ & Hr)]; by apply Hr).
  apply (terminal_stays _ _ x' {| xw_session := s; xw_awaits := 0; xw_invoked := [] |});
    [by eapply xw_le_ok|exact Hle|exact Ht].
Qed.

(** The same of a mutation of the Gateway's own state: a success that
    [execute_store_mutation] or [replay_store_mutation] reports is the outcome
    of a terminal receipt that stays stored. *)
Theorem reported_store_success_is_durable schedule interrupts request preflight fence x value x' s :
  fair schedule → ses_ok (xw_session x) →
  execute_store_mutation schedule interrupts request preflight fence x = (Ok (Succeeded value), x') ∨
  replay_store_mutation schedule interrupts request x = (Ok (Some (Succeeded value)), x') →
  ses_le (xw_session x') s →
  ∃ receipt, ses_receipt s (af_action_key (sm_fingerprint request)) = Some receipt ∧
    er_phase receipt = PH_TERMINAL ∧ er_outcome receipt = Some (Succeeded value).
Proof.
  intros Hf Hx Hrun Hle. change (xw_ok x) in Hx.
  assert (quiet x x' ∧ durable (af_action_key (sm_fingerprint request)) (Succeeded value) x') as [Hq Hd].
  { destruct Hrun as [Hrun|Hrun].
    - exact (wp_intro _ _ _ _ _ Hrun (execute_store_spec _ _ Hf _ _ _ _ Hx)).
    - exact (wp_intro _ _ _ _ _ Hrun (replay_store_spec _ _ Hf _ _ Hx)). }
  apply (terminal_stays _ _ x' {| xw_session := s; xw_awaits := 0; xw_invoked := [] |});
    [by eapply quiet_ok|exact Hle|by apply Hd].
Qed.

(** An execution calls itself again at most once: two levels are enough,
    whatever a third would do. *)
Theorem execution_recurs_at_most_once depth schedule interrupts e again x :
  (2 ≤ depth)%nat → fair schedule → ses_ok (xw_session x) →
  execute depth schedule interrupts e x
    = attempt schedule interrupts e (attempt schedule interrupts e again) x.
Proof.
  intros Hd Hf Hx. destruct depth as [|[|depth]]; [lia..|].
  destruct e; cbn; [apply native_attempt_ext|apply workflow_attempt_ext]; try done; intros x1 Hx1 _ Hb;
    [apply native_attempt_ext|apply workflow_attempt_ext]; done.
Qed.

(** A primitive native execution that raises has not invoked the native
    application, and it was cancelled or its request was rejected: once the
    native side effect is under way every failure of the store, the callback
    or the task is reported as an outcome. *)
Theorem native_execution_that_raises_did_not_invoke depth schedule interrupts request invoke preflight
    reconcile x e x' :
  (2 ≤ depth)%nat → fair schedule → ses_ok (xw_session x) →
  execute_native_mutation schedule interrupts depth request invoke preflight reconcile x = (Err e, x') →
  xw_invoked x' = xw_invoked x ∧
  (e = CancelledError ∨ validate_native_mutation_request request = Err e
   ∨ phase_id (nm_fingerprint request) (py "native") = Err e).
Proof.
  intros Hd Hf Hx Hrun.
  pose proof (execute_native_spec schedule interrupts Hf request invoke preflight reconcile depth x Hd Hx)
    as Hspec. by apply (wp_intro _ _ _ _ _ Hrun) in Hspec as [_ [?|(_ & _ & _ & [])]].
Qed.
End executions.

(** * The theorems applied *)

Module ExecutionExamples.
Import Examples.

#[export] Instance example_effects : EffectSession session_world := memory_effect_session clock.
#[export] Instance example_laws : EffectSessionLaws session_world :=
  memory_session_laws clock utc_now clock_mono.

(** Nobody else runs, and nothing is cancelled. *)
Definition alone (k : nat) (s : session_world) : session_world := s.
Definition uninterrupted (k : nat) : interrupt := Runs.
Definition cancelled_at (n k : nat) : interrupt := if decide (n = k) then CancelledAfter else Runs.
Lemma alone_fair : fair alone.
Proof. intros k s _. reflexivity. Qed.

Definition start : exec_world session_world := {|
  xw_session := {| sw_session := {| ss_lease := lease; ss_closed := false |}; sw_world := leased |};
  xw_awaits := 0; xw_invoked := [] |}.
Lemma start_ok : ses_ok (xw_session start).
Proof. exact (run_all_inv [acquire]). Qed.

Definition native_request : NativeMutationRequest :=
  {| nm_fingerprint := action 3; nm_category := NATIVE |}.
Definition workflow_request : CreateBindingWorkflowRequest := {|
  cw_fingerprint := action 3; cw_kind := CREATE_AND_BIND_THREAD;
  cw_conversation_ref := example_conversation;
  cw_application_ref := {| ar_application_instance_id := pr_application_instance_id (th_project_ref example_thread) |};
  cw_project_ref := Some (th_project_ref example_thread);
  cw_foreground_route := true |}.
Definition creates (phase_id : pystr) : callback ActionOutcome := λ _, Ok (Succeeded created).
Definition native : execution := NativeExecution native_request creates None None.
Definition workflow : execution := WorkflowExecution workflow_request creates None None None.

(** Another executor of the same action reconciles it while the native
    application creates: it found nothing yet, and records a failure. *)
Definition reconciled_meanwhile (k : nat) (s : session_world) : session_world :=
  if decide (k = 3%nat) then
    (record_effect_outcome (action 3) PH_TERMINAL (Failed (action_error AE_NATIVE_REJECTED)) s).2
  else s.
End ExecutionExamples.

Section witnesses.
Import Examples ExecutionExamples.


Definition native_done : exec_world session_world := Eval vm_compute in
  (execute 2 alone uninterrupted native start).2.
Lemma reported_success_is_durable_witness :
  execute 2 alone uninterrupted native start = (Ok (Succeeded created), native_done) ∧
  ∃ receipt, ses_receipt (xw_session native_done) (hex 3) = Some receipt ∧
    er_phase receipt = PH_TERMINAL ∧ er_outcome receipt = Some (Succeeded created).
Proof.
  assert (execute 2 alone uninterrupted native start = (Ok (Succeeded created), native_done)) as Hrun
    by (vm_compute; reflexivity). split; [exact Hrun|].
  apply (reported_success_is_durable 2 alone uninterrupted native start created native_done);
    [lia|exact alone_fair|exact start_ok|exact Hrun|reflexivity].
Defined.

Definition bound : EffectValue := {|
  ev_reference := Some (from_value (SV_thread example_thread));
  ev_conversation_ref := Some example_conversation; ev_binding_generation := Some 1;
  ev_route_id := None |}.
Definition store_done : exec_world session_world := Eval vm_compute in
  (execute_store_mutation alone uninterrupted (bind_request 4 None) (Some (λ _, Ok None)) None start).2.
Lemma execution_recurs_at_most_once_witness :
  execute 7 alone uninterrupted workflow start
    = attempt alone uninterrupted workflow (attempt alone uninterrupted workflow (mraise ValueError)) start.
Proof.
  apply (execution_recurs_at_most_once 7); [lia|exact alone_fair|exact start_ok].
Defined.

(** Cancelled at its preflight. *)
Definition native_cancelled : exec_world session_world := Eval vm_compute in
  (execute_native_mutation alone (cancelled_at 1) 2 native_request creates (Some (λ _, Ok None)) None start).2.
Lemma native_execution_that_raises_did_not_invoke_witness :
  execute_native_mutation alone (cancelled_at 1) 2 native_request creates (Some (λ _, Ok None)) None start
    = (Err CancelledError, native_cancelled) ∧ xw_invoked native_cancelled = [].
Proof.
  assert (execute_native_mutation alone (cancelled_at 1) 2 native_request creates (Some (λ _, Ok None))
    None start = (Err CancelledError, native_cancelled)) as Hrun by (vm_compute; reflexivity).
  split; [exact Hrun|].
  apply (native_execution_that_raises_did_not_invoke 2 alone (cancelled_at 1) native_request creates
    (Some (λ _, Ok None)) None start CancelledError native_cancelled);
    [lia|exact alone_fair|exact start_ok|exact Hrun].
Defined.

(** A workflow can raise after its object was created: if, while it creates, another execution of the action
    reconciles it to a failure, the recording gives back that terminal receipt;
    [_commit_known_workflow] takes it for a known result and raises, although
    the native application was invoked and reported a success. *)
Theorem workflow_raises_after_native_creation :
  fair reconciled_meanwhile ∧
  let '(r, x) := execute 2 reconciled_meanwhile uninterrupted workflow start in
  r = Err RuntimeError ∧ length (xw_invoked x) = 1%nat ∧ ∀ p k, creates p k = Ok (Succeeded created).
Proof.
  split.
  - intros k s Hs. unfold reconciled_meanwhile. case_decide; [|reflexivity].
    apply (ses_record (action 3) PH_TERMINAL (Failed (action_error AE_NATIVE_REJECTED)) s Hs).
  - vm_compute. split_and!; reflexivity.
Qed.
End witnesses.
