(* ===== verification/Witnesses.v ===== *)
(** The theorems on the components of the store applied to concrete stores and
    records, and two places where the coherent store does less than it means to. *)

From S2P Require Export StoreProperties.
From stdpp Require Import list.
#[local] Open Scope Z_scope.
#[local] Open Scope stdpp_scope.

Module Component.
Definition app : ApplicationRef := {| ar_application_instance_id := py "app" |}.
Definition request : RequestRef := {| rq_application_ref := app; rq_native_request_id := py "r1" |}.
Definition turn : TurnRef := {| tn_thread_ref := example_thread; tn_turn_id := py "turn" |}.
Definition yes : RequestChoice :=
  {| rc_choice_id := py "yes"; rc_label := py "Yes"; rc_description := None |}.
Definition approval : InteractiveRequest := Approval {|
  ap_request_ref := request; ap_turn_ref := turn; ap_prompt := py "Run it?";
  ap_choices := [yes]; ap_expires_at := None |}.
Definition other_conversation : ConversationRef := {|
  cv_channel_instance_id := py "qq"; cv_native_conversation_id := py "d" |}.
Definition t0 : datetime := Aware 1000000.
Definition t1 : datetime := Aware 2000000.
End Component.
Import Component.

(** * Requests and receipts *)

Definition text : Content := TextContent (py "hello") PLAIN.
Definition accepted_receipt : DeliveryReceipt := {|
  dr_status := ACCEPTED_BY_PLATFORM; dr_native_message_id := Some (py "n1"); dr_detail := None;
  dr_items := [{| di_content_index := 0; di_status := ITEM_ACCEPTED; di_attachment_id := None;
                  di_native_message_id := Some (py "n1"); di_detail := None |}];
  dr_segments := []; dr_retry_after_seconds := None |}.

(** * Idempotency *)

Definition completed_claim : IdempotencyRepository := {|
  ir_max_records := 10; ir_records := [((py "s", py "k"), (Completed, Some (py "w")))] |}.

Lemma completed_claim_is_final_witness :
  let s' := (release (py "s") (py "k") (Some (py "w")) completed_claim).2 in
  claim (py "s") (py "k") (Some (py "v")) s' = (Ok ALREADY_COMPLETED, s').
Proof.
  apply (completed_claim_is_final (py "s") (py "k") (Some (py "w")) (Some (py "v")) completed_claim);
    [reflexivity|].
  apply rtc_once. exists OpRelease, (py "s"), (py "k"), (Some (py "w")). reflexivity.
Defined.

Definition held_claim : IdempotencyRepository := {|
  ir_max_records := 10; ir_records := [((py "s", py "k"), (InFlight, Some (py "w")))] |}.

(** * Request correlations *)

Definition correlation (i : string) (c : ConversationRef) (st : RequestRouteState)
    : RequestRouteCorrelation := {|
  rr_correlation_id := py i; rr_request_ref := request; rr_turn_ref := turn;
  rr_conversation_ref := c; rr_delivery_id := py "d";
  rr_response_shape := ApprovalResponseShape [py "yes"]; rr_state := st;
  rr_created_at := t0; rr_updated_at := t1; rr_expires_at := None |}.
Definition one_correlation (st : RequestRouteState) : RequestCorrelationRepository :=
  [(py "c1", correlation "c1" example_conversation st)].

Lemma one_correlation_inv st : rc_inv (one_correlation st).
Proof.
  split.
  - apply (well_formed_set [] _ _ well_formed_nil).
  - apply (d_all_set _ [] _ _ (d_all_nil _)). split; [reflexivity|destruct st; vm_compute; reflexivity].
  - intros c c' Hc Hc'. cbn in Hc, Hc'. set_solver.
Qed.

Lemma request_state_never_regresses_witness :
  rc_evolves (one_correlation OPEN) (run_rc_op (TransitionCorrelations request [OPEN] RESOLVED t1)
    (one_correlation OPEN)).2.
Proof. apply request_state_never_regresses, one_correlation_inv. Defined.

(** * Bindings and routes *)

Definition a_binding : ConversationBinding := {|
  cb_conversation_ref := example_conversation; cb_application_ref := Some app;
  cb_project_ref := Some (th_project_ref example_thread); cb_thread_ref := Some example_thread;
  cb_generation := 0; cb_updated_at := None |}.
Definition bind_op : binding_op := PutBinding t0 a_binding (Some 0).

Lemma new_binding_repository_inv : binding_inv new_binding_repository.
Proof. apply (new_world_inv Examples.clock Examples.clock_mono 10 10 10 Examples.empty_store 0). reflexivity. Qed.
Lemma new_projection_repository_inv : projection_inv new_projection_repository.
Proof. apply (new_world_inv Examples.clock Examples.clock_mono 10 10 10 Examples.empty_store 0). reflexivity. Qed.

Lemma binding_call_advances_one_generation_witness :
  (run_binding_op bind_op new_binding_repository).1 = Ok () ∧
  generations_advance example_conversation new_binding_repository
    (run_binding_op bind_op new_binding_repository).2.
Proof.
  assert ((run_binding_op bind_op new_binding_repository).1 = Ok ()) as Hr by (vm_compute; reflexivity).
  split; [exact Hr|].
  pose proof (binding_call_advances_one_generation bind_op new_binding_repository
    new_binding_repository_inv) as H.
  unfold wp in H. rewrite Hr in H. exact (proj1 H).
Defined.

Definition route (i : string) (c : ConversationRef) (checkpoint : option (pystr * datetime))
    : ThreadProjectionRoute := {|
  tr_route_id := py i; tr_thread_ref := example_thread; tr_conversation_ref := c;
  tr_reply_to_message_id := None; tr_checkpoint_agent_item_id := fst <$> checkpoint;
  tr_checkpointed_at := snd <$> checkpoint; tr_updated_at := None |}.
Definition checkpointed := route "r1" example_conversation (Some (py "item", t0)).
Definition with_route : ProjectionRepository :=
  (run_projection_op (PutRoute checkpointed) new_projection_repository).2.
Lemma with_route_inv : projection_inv with_route.
Proof. apply run_projection_op_keeps_inv, new_projection_repository_inv. Qed.

(** A refresh without a checkpoint keeps the one there was. *)
Lemma checkpoint_moves_only_by_advance_witness :
  route_evolves (PutRoute (route "r1" example_conversation None)) checkpointed checkpointed.
Proof.
  apply (checkpoint_moves_only_by_advance (PutRoute (route "r1" example_conversation None)) with_route
    (example_thread, example_conversation)); [exact with_route_inv|vm_compute; reflexivity..].
Defined.

Definition reply (c : ConversationRef) : TurnReplyCorrelation := {|
  tc_correlation_id := py "tc"; tc_turn_ref := turn; tc_client_message_id := py "m";
  tc_conversation_ref := c; tc_reply_to_message_id := py "m"; tc_created_at := t0 |}.
Definition with_turn : ProjectionRepository :=
  (put_turn_reply_correlation (reply example_conversation) new_projection_repository).2.

(** * Delivery submissions *)

Definition destination (st : DeliverySubmissionState) : DestinationDeliveryRecord := {|
  dd_delivery_id := py "d1";
  dd_snapshot := {| ds_conversation_ref := example_conversation; ds_thread_ref := None;
    ds_route_id := None; ds_route_updated_at := None; ds_reply_to_message_id := None |};
  dd_state := st; dd_updated_at := t0; dd_receipt := None |}.
Definition submission (destinations : list DestinationDeliveryRecord) : DeliverySubmissionRecord := {|
  sr_submission_id := py "s1"; sr_delivery_id := py "d"; sr_origin := EXTERNAL;
  sr_principal_id := py "p"; sr_target_fingerprint := py "t"; sr_payload_fingerprint := py "f";
  sr_destinations := destinations; sr_created_at := t0; sr_updated_at := t0 |}.
Definition no_submissions : SubmissionRepository := {| sb_max_records := 10; sb_records := [] |}.
Definition submitted : SubmissionRepository :=
  (reserve_delivery_submission (submission [destination IN_FLIGHT]) no_submissions).2.

(** * Queued inputs *)

Definition queued_receipt : QueuedInputReceipt := {|
  qr_thread_ref := example_thread; qr_client_message_id := py "client"; qr_queued_item_id := py "q1";
  qr_state := QUEUED; qr_turn_ref := None; qr_input_fingerprint := Examples.hex 2 |}.
Definition queued : QueuedInputCorrelation := {|
  qc_origin := Examples.origin; qc_receipt := None; qc_created_at := t0; qc_updated_at := t0 |}.
Definition queued_merged : QueuedInputCorrelation := with_receipt queued queued_receipt t1.

Lemma queued_merged_ok :
  _merge_queued_receipt queued Examples.origin queued_receipt None t1 = Ok queued_merged.
Proof. vm_compute. reflexivity. Qed.

(** * Fingerprints *)

Definition identity (i : string) : ActionIdentity := {|
  ai_gateway_id := py "gw"; ai_principal_id := py "p"; ai_action_kind := py "bind";
  ai_action_id := py i; ai_conversation_ref := Some example_conversation |}.
Definition payload : FingerprintPayload := [(py "a", JStr (py "x")); (py "b", JNull)].

Lemma fingerprint_identifies_action_witness :
  derive_action_fingerprint (identity "1") payload
    = derive_action_fingerprint (identity "1") (reverse payload).
Proof.
  destruct (derive_action_fingerprint (identity "1") payload) as [f|e] eqn:Hf;
    [|vm_compute in Hf; discriminate].
  symmetry. apply (fingerprint_identifies_action (identity "1") (identity "1") payload payload f f Hf Hf).
  symmetry. apply reverse_Permutation.
Defined.

Lemma accepted_payload_is_bounded_witness :
  ∃ e, _canonical_payload payload = Ok e ∧ len payload ≤ 128.
Proof.
  destruct (_canonical_payload payload) as [e|e] eqn:He; [|vm_compute in He; discriminate].
  exists e. split; [reflexivity|]. exact (proj1 (accepted_payload_is_bounded payload e He)).
Defined.

Lemma stable_reference_round_trip_witness :
  from_value (SV_thread example_thread) = from_value (SV_thread example_thread).
Proof.
  apply (stable_reference_round_trip (SV_thread example_thread) (SV_thread example_thread)
    (from_value (SV_thread example_thread)) (SV_thread example_thread)).
  vm_compute. reflexivity.
Defined.

(** Two places where the coherent store does less than it means to: the claim
    key of an inbound message does not determine the message, and the binding
    commit of a workflow is published before its receipt is checked. *)

(** * The claim key of an inbound message *)

Definition colon : N := 58.

Lemma split_at_colon (a b x y : pystr) :
  colon ∉ a → colon ∉ b → a ++ py ":" ++ x = b ++ py ":" ++ y → a = b ∧ x = y.
Proof.
  change (py ":") with [colon]. revert b.
  induction a as [|c a IH]; intros [|d b] Ha Hb H; simplify_eq/=; [done|set_solver|set_solver|].
  destruct (IH b) as [-> ->]; [set_solver|set_solver|done|done].
Qed.

(** The claim key determines the message as long as the native ids of
    Conversations have no colon: then two messages have the same key only if
    they are the same message of the same Conversation. *)
Theorem inbound_identity_determines_the_message c c' m m' :
  colon ∉ cv_native_conversation_id c → colon ∉ cv_native_conversation_id c' →
  _inbound_idempotency_identity c m = _inbound_idempotency_identity c' m' → c = c' ∧ m = m'.
Proof.
  unfold _inbound_idempotency_identity. intros Hc Hc' [= Hchannel Hid].
  destruct (split_at_colon _ _ _ _ Hc Hc' Hid) as [? ->]. split; [|done].
  destruct c, c'; cbn in *. by f_equal.
Qed.

Lemma inbound_identity_determines_the_message_witness :
  colon ∉ cv_native_conversation_id example_conversation ∧
  example_conversation = example_conversation ∧ py "a:b" = py "a:b".
Proof.
  split; [vm_compute; set_solver|].
  apply inbound_identity_determines_the_message; [vm_compute; set_solver..|reflexivity].
Defined.

(** With a colon in an id it does not: two messages of two valid
    Conversations of a channel have one claim key, so that after the first is
    claimed the second is taken for a message in flight and is not processed. *)
Theorem inbound_identity_collides :
  ∃ c c' m m' owner,
    _validate_conversation_ref c = Ok () ∧ _validate_conversation_ref c' = Ok () ∧
    require_identifier m "message_id" = Ok () ∧ require_identifier m' "message_id" = Ok () ∧
    c ≠ c' ∧ m ≠ m' ∧
    let '(scope, key) := _inbound_idempotency_identity c m in
    let '(scope', key') := _inbound_idempotency_identity c' m' in
    ∃ s1, claim scope key (Some owner) {| ir_max_records := 10; ir_records := [] |} = (Ok ACQUIRED, s1) ∧
      (claim scope' key' (Some owner) s1).1 = Ok CLAIM_IN_FLIGHT.
Proof.
  exists {| cv_channel_instance_id := py "qq"; cv_native_conversation_id := py "a" |},
    {| cv_channel_instance_id := py "qq"; cv_native_conversation_id := py "a:b" |},
    (py "b:c"), (py "c"), (py "worker").
  split_and!; try (vm_compute; reflexivity); try discriminate.
  eexists. split; [vm_compute; reflexivity|vm_compute; reflexivity].
Qed.

(** * The publication of a workflow's binding *)

Module SetBack.
Import Examples.
(** A wall clock that is set back by ten seconds after its tenth reading. *)
Definition clock (n : nat) : datetime :=
  Aware (20000000 + 1000000 * Z.of_nat n - if bool_decide (10 ≤ n)%nat then 10000000 else 0).
Definition run_all (ops : list store_op) (w : world) : world :=
  fold_left (λ w op, (run_store_op clock utc_now op w).2) ops w.
Lemma set_back_run_reaches ops w : rtc (world_step clock utc_now) w (run_all ops w).
Proof.
  revert w. induction ops as [|op ops IH]; intros w; [constructor|].
  eapply rtc_l; [by exists op|apply IH].
Qed.
End SetBack.

(** When the clock was set back between the reservation of a workflow and its
    binding commit, the commit raises and yet the Conversation is bound at a
    new generation: the dictionaries are assigned before the receipt, now dated
    before its creation, is validated.  The receipt is left without an outcome
    of the commit. *)
Theorem workflow_commit_raises_after_publishing :
  ∃ clock utc_now w fence fp target,
    rtc (world_step clock utc_now) Examples.empty_world w ∧
    let '(r, w') := _commit_workflow_binding clock fence fp target None w in
    is_ok r = false ∧
    current_generation (ms_bindings (w_store w')) (bt_conversation_ref target)
      = current_generation (ms_bindings (w_store w)) (bt_conversation_ref target) + 1 ∧
    ms_effect_receipts (w_store w') = ms_effect_receipts (w_store w).
Proof.
  exists SetBack.clock, Examples.utc_now,
    (SetBack.run_all (Examples.acquire :: Examples.workflow_ops 5 ++ [Renew Examples.lease (seconds 3600);
       CheckWorkspaces Examples.lease []]) Examples.empty_world),
    Examples.lease, (Examples.action 5), Examples.target.
  split; [apply SetBack.set_back_run_reaches|].
  vm_compute. split_and!; reflexivity.
Qed.
