(* ===== verification/InputDispatch.v ===== *)
(** From a claimed message to the native input: [gateway/input/dispatch.py],
    [gateway/input/failure_presentation.py] (the fence) and [_process_message] of
    [gateway/orchestration.py].

    Controllers and Application adapters are programs of their own, with few
    operations: a Controller may enter the effect fence, an adapter offers a plan
    before it sends.  The closures they are given keep the variables they share
    as a state that [interpret] threads. *)

From S2P Require Export Applications DeliveryPlanning Identities MemoryStore Programs.
From stdpp Require Import list.
#[local] Open Scope Z_scope.
#[local] Open Scope stdpp_scope.

(** * Messages and plans *)

(** [interaction/messages.py:47-55] InboundMessage *)
Record InboundMessage := {
  im_message_id : pystr;
  im_conversation_ref : ConversationRef;
  im_sender : pystr;
  im_content : list Content;
  im_created_at : datetime;
  im_reply_to : option pystr;
  im_metadata : Metadata;
}.

(** [applications/contract.py:209-214] AgentInput *)
Record AgentInput := {
  ag_client_message_id : pystr;
  ag_content : list Content;
  ag_sender : option pystr;
}.

(** [applications/contract.py:101-103] InputDisposition *)
Inductive InputDisposition : Type := STARTED | STEERED.
#[export] Instance InputDisposition_eq_dec : EqDecision InputDisposition.
Proof. solve_decision. Defined.

(** [applications/contract.py:106-108] TurnReplyCorrelationPolicy *)
Inductive TurnReplyCorrelationPolicy : Type := CREATE_NEW | PRESERVE_EXISTING.
#[export] Instance TurnReplyCorrelationPolicy_eq_dec : EqDecision TurnReplyCorrelationPolicy.
Proof. solve_decision. Defined.

(** [applications/contract.py:316-321] AcceptedTurn *)
Record AcceptedTurn := {
  at_turn_ref : TurnRef;
  at_client_message_id : pystr;
  at_disposition : InputDisposition;
  at_correlation_policy : TurnReplyCorrelationPolicy;
}.

(** [applications/contract.py:324-330] ApplicationInputDispatch *)
Record ApplicationInputDispatch := {
  id_thread_ref : ThreadRef;
  id_client_message_id : pystr;
  id_disposition : InputDisposition;
  id_correlation_policy : TurnReplyCorrelationPolicy;
  id_expected_turn_ref : option TurnRef;
}.

(** [applications/contract.py:409-409] ApplicationInputPlan *)
Inductive ApplicationInputPlan : Type :=
| TurnPlan (dispatch : ApplicationInputDispatch)
| QueuePlan (dispatch : QueuedInputDispatch).

(** [applications/contract.py:410-410] ApplicationInputAcceptance *)
Inductive ApplicationInputAcceptance : Type :=
| AcceptedInput (accepted : AcceptedTurn)
| QueuedInput (receipt : QueuedInputReceipt).

(** [gateway/admission.py:24-29] ClaimedInbound *)
Record ClaimedInbound := {
  cl_message : InboundMessage;
  cl_scope : pystr;
  cl_key : pystr;
  cl_owner_token : pystr;
}.

(** [gateway/input/failure_presentation.py:35-40] InboundFailurePhase *)
Inductive InboundFailurePhase : Type :=
| PRE_ACCEPTANCE | OUTCOME_UNKNOWN | PHASE_TURN_ENDED | PHASE_THREAD_BUSY | POST_ACCEPTANCE.
#[export] Instance InboundFailurePhase_eq_dec : EqDecision InboundFailurePhase.
Proof. solve_decision. Defined.

(** [gateway/input/failure_presentation.py:71-75] InboundFailurePresentation *)
Record InboundFailurePresentation := {
  fp_phase : InboundFailurePhase;
  fp_conversation_ref : ConversationRef;
  fp_delivery_id : pystr;
  fp_reply_to_message_id : pystr;
}.

(** * What is awaited *)

(** Operations of other owners: what they do and answer is theirs. *)
Inductive question : Type → Type :=
| HoldConversation (conversation_ref : ConversationRef) : question unit
| LeaveConversation (conversation_ref : ConversationRef) : question unit
| CurrentBinding (conversation_ref : ConversationRef) : question (option ConversationBinding)
| ExecuteApplication (operation : ApplicationOperation) : question ApplicationOperationResult
| UtcNow : question datetime
| TransformContent (message : InboundMessage) : question (list Content)
| PrepareInputRoute (thread_ref : ThreadRef) (conversation_ref : ConversationRef) : question unit
| EnsureObserving (thread_ref : ThreadRef) : question unit
| BeginAcceptance (thread_ref : ThreadRef) : question unit
| FinishAcceptance (thread_ref : ThreadRef) : question unit
| AuthorizeInputDispatch (dispatch : ApplicationInputDispatch) (thread_ref : ThreadRef)
    (client_message_id : pystr) : question unit
| CorrelateAcceptedTurn (accepted : AcceptedTurn) (dispatch : ApplicationInputDispatch)
    (thread_ref : ThreadRef) (client_message_id : pystr) (conversation_ref : ConversationRef)
    (reply_to_message_id : pystr) : question unit
| AcceptQueued (origin : QueuedInputOrigin) (receipt : QueuedInputReceipt) : question unit
| NotifyAdmission (origin : QueuedInputOrigin) : question unit
| PresentFailure (facts : InboundFailurePresentation) : question OutboundMessage
| DeliverOutbound (message : OutboundMessage) : question unit
(* what a Controller or an adapter asks of the world *)
| Ask (label : pystr) : question pystr.

(** The operations of the Gateway: those of the claims, the native input, and those
    of other owners. *)
Inductive gateway_event : Type → Type :=
| ClaimInbound (scope key owner_token : pystr) : gateway_event IdempotencyClaimStatus
| RefreshClaim (scope key owner_token : pystr) : gateway_event unit
| ReleaseClaim (scope key owner_token : pystr) : gateway_event unit
| CompleteClaim (scope key owner_token : pystr) : gateway_event unit
| MarkStarted (scope key owner_token : pystr) : gateway_event unit
| FenceQueued (origin : QueuedInputOrigin) (scope key owner_token : pystr) : gateway_event unit
| Uuid4 : gateway_event pystr
(* the native mutation an adapter makes for the message of a claim *)
| SendNative (claim : claim_key) (label : pystr) : gateway_event pystr
| Other {X : Type} (q : question X) : gateway_event X.

(** The operations of [_process_message]: it is handed a fence. *)
Inductive process_event : Type → Type :=
| EnterFence : process_event unit
| EnterQueueFence (origin : QueuedInputOrigin) : process_event unit
| FenceOrigin : process_event (option QueuedInputOrigin)
| Base {X : Type} (e : gateway_event X) : process_event X.

(** [gateway/actions.py] what the command fence of a scope is told of an invocation *)
Record CommandInvocation := {
  ci_conversation_ref : ConversationRef;
  ci_message_id : pystr;
  ci_actor : pystr;
  ci_created_at : datetime;
}.

(** A Controller enters the fence of an effectful command, and does anything else. *)
Inductive controller_event : Type → Type :=
| EnterEffectfulCommand (invocation : CommandInvocation) : controller_event unit
| ControllerAsks (label : pystr) : controller_event pystr.

(** An adapter offers a plan before it sends, sends, and does anything else. *)
Inductive adapter_event : Type → Type :=
| BeforeDispatch (plan : ApplicationInputPlan) : adapter_event unit
| AdapterSends (label : pystr) : adapter_event pystr
| AdapterAsks (label : pystr) : adapter_event pystr.

Section dispatch.
Context {S : Type}.
Abbreviation gprog := (prog S gateway_event).
Abbreviation pprog := (prog S process_event).

Definition ask {X} (q : question X) : pprog X := await (Base (Other q)).

(** The text of an exception, [str(error)]. *)
Context (error_text : exn → pystr).

(** * Errors of operations *)

(** [interaction/operations.py:33-46] OperationErrorCode: the values *)
Definition operation_code_value (code : OperationErrorCode) : string :=
  match code with
  | INVALID_OPERATION => "invalid_operation"
  | OP_UNSUPPORTED => "unsupported"
  | NOT_FOUND => "not_found"
  | MISSING_BINDING => "missing_binding"
  | OP_STALE_BINDING => "stale_binding"
  | OP_CONFLICT => "conflict"
  | ADAPTER_FAILURE => "adapter_failure"
  | OP_CAPACITY_EXHAUSTED => "capacity_exhausted"
  | UNAUTHORIZED_DESTINATION => "unauthorized_destination"
  | REQUEST_DUPLICATE => "request_duplicate"
  | REQUEST_RESOLVED => "request_resolved"
  | REQUEST_STALE => "request_stale"
  | REQUEST_DELIVERY_PENDING => "request_delivery_pending"
  end.
(** [interaction/operations.py:33-46] OperationErrorCode *)
Definition operation_codes : list OperationErrorCode := [
  INVALID_OPERATION; OP_UNSUPPORTED; NOT_FOUND; MISSING_BINDING; OP_STALE_BINDING; OP_CONFLICT;
  ADAPTER_FAILURE; OP_CAPACITY_EXHAUSTED; UNAUTHORIZED_DESTINATION; REQUEST_DUPLICATE;
  REQUEST_RESOLVED; REQUEST_STALE; REQUEST_DELIVERY_PENDING].
(** [gateway/input/dispatch.py:125-128] _raise_binding_preflight_failure: [OperationErrorCode(value)]. *)
Definition parse_operation_code (value : pystr) : option OperationErrorCode :=
  head (filter (λ code, py (operation_code_value code) = value) operation_codes).

(** [interaction/operations.py:55-76] operation_error: the code *)
Definition operation_error_code (error : exn) : string :=
  match error with
  | NotImplementedError => "unsupported"
  | KeyError => "not_found"
  | MissingBindingError => "missing_binding"
  | StaleBindingError => "stale_binding"
  | BindingPreflightError code => code
  | e => if is_value_error e then "invalid_operation" else "adapter_failure"
  end.

(** [gateway/orchestration.py:1490-1500] _contract_error *)
Definition _contract_error (error : exn) : ContractError :=
  match error with
  | KeyedLockCapacityError | ProjectionWorkerCapacityError => {|
      ce_code := py "capacity_exhausted"; ce_message := error_text error; ce_retryable := true |}
  | _ =>
      let code := py (match error with BindingConflict => "conflict" | e => operation_error_code e end) in {|
      ce_code := code;
      ce_message := match error_text error with [] => code | text => text end;
      ce_retryable := false |}
  end.

(** * Reading the binding's resources *)

Section runtime.
(** [float.__repr__]. *)
Context (float_repr : Qcanon.Qc → pystr).

(** [gateway/orchestration.py:715-732] _GatewayRuntime._execute_scoped_application: for the
    Applications there are by ID, and a caller's way to run one and to read the clock *)
Definition _execute_scoped_application {E V} (execute : ApplicationOperation → prog S E ApplicationOperationResult)
    (utc_now : prog S E datetime) (applications : dict pystr V) (operation : ApplicationOperation)
    : prog S E ApplicationOperationResult :=
  r ← try (
    returns (validate_application_operation float_repr operation) ;;
    match d_get applications (ar_application_instance_id (ao_application_ref operation)) with
    | None => mraise KeyError
    | Some _ =>
        result ← execute operation ;
        returns (validate_application_operation_result operation result) ;;
        mret result
    end) ;
  match r with
  | Ok result => mret result
  | Err e =>
      if is_exception e then
        now ← utc_now ;
        mret (ApplicationOperationFailed (ao_operation_id operation) (ao_type operation)
          (_contract_error e) now)
      else mraise e
  end.

(** The Applications by ID. *)
Context (applications : dict pystr ApplicationRef).

(** [gateway/input/dispatch.py:124-131] _raise_binding_preflight_failure *)
Definition _raise_binding_preflight_failure {A} (error : ContractError) : res A :=
  let code := default ADAPTER_FAILURE (parse_operation_code (ce_code error)) in
  if decide (code = NOT_FOUND) then Err StaleBindingError
  else Err (BindingPreflightError (operation_code_value code)).

(** [gateway/input/dispatch.py:103-108] preflight_authoritative_binding: the reading of one resource, with what has to come back. *)
Definition preflight_read (operation : ApplicationOperation) (expected : operation_answer → bool)
    : pprog unit :=
  result ← _execute_scoped_application (λ operation, ask (ExecuteApplication operation)) (ask UtcNow) applications operation ;
  returns (validate_application_operation_result operation result) ;;
  match result with
  | ApplicationOperationFailed _ _ error _ => returns (_raise_binding_preflight_failure error)
  | ApplicationOperationSucceeded _ _ answer =>
      if expected answer then mret ()
      else mraise (BindingPreflightError (operation_code_value ADAPTER_FAILURE))
  end.

(** [gateway/input/dispatch.py:87-121] preflight_authoritative_binding *)
Definition preflight_authoritative_binding (application : ApplicationRef) (thread_ref : ThreadRef)
    (operation_id_prefix : pystr) (created_at : datetime) : pprog unit :=
  preflight_read {|
    ao_operation_id := operation_id_prefix ++ py ":project.get";
    ao_application_ref := application;
    ao_created_at := created_at;
    ao_request := GetProject (th_project_ref thread_ref) |}
    (λ answer, match answer with ProjectRead _ => true | _ => false end) ;;
  preflight_read {|
    ao_operation_id := operation_id_prefix ++ py ":thread.get";
    ao_application_ref := application;
    ao_created_at := created_at;
    ao_request := GetThread thread_ref |}
    (λ answer, match answer with ThreadRead _ => true | _ => false end).

(** * Dispatch *)

(** [gateway/input/queue_runtime.py:74-95] QueuedInputRuntime.origin *)
Definition queued_origin (plan : QueuedInputDispatch) (message : InboundMessage) (thread_ref : ThreadRef)
    (binding_generation : Z) (client_message_id : pystr) : res QueuedInputOrigin :=
  validate_queued_input_dispatch plan ;;
  raise_if (qd_thread_ref plan ≠ thread_ref ∨ qd_client_message_id plan ≠ client_message_id) ValueError ;;
  actor_fingerprint ← _actor_fingerprint (im_sender message) ;
  Ok {|
    qo_conversation_ref := im_conversation_ref message;
    qo_message_id := im_message_id message;
    qo_actor_fingerprint := actor_fingerprint;
    qo_thread_ref := thread_ref;
    qo_binding_generation := binding_generation;
    qo_client_message_id := client_message_id;
    qo_input_fingerprint := qd_input_fingerprint plan;
    qo_continuation := QUEUE |}.

(** The adapter's [send_input], and whether queued input is enabled. *)
Context (send_input : ThreadRef → AgentInput → InputContinuationPreference →
  prog unit adapter_event ApplicationInputAcceptance).
Context (queued_inputs : bool).

(** [gateway/input/dispatch.py:364-365] InputDispatchRuntime.dispatch: the variables [authorize_dispatch] shares with [dispatch]. *)
Record authorization := {
  az_authorized_dispatch : option ApplicationInputPlan;
  az_queue_origin : option QueuedInputOrigin;
}.
Definition unauthorized : authorization := {| az_authorized_dispatch := None; az_queue_origin := None |}.

(** [gateway/input/dispatch.py:368-403] InputDispatchRuntime.dispatch: authorize_dispatch *)
Definition authorize_dispatch (message : InboundMessage) (thread_ref : ThreadRef)
    (continuation : InputContinuationPreference) (binding_generation : Z) (client_message_id : pystr)
    (plan : ApplicationInputPlan) (a : authorization) : pprog (res unit * authorization) :=
  if decide (is_Some (az_authorized_dispatch a)) then mret (Err InputDispatchRejected, a)
  else
    match plan with
    | QueuePlan dispatch =>
        if decide (continuation ≠ QUEUE ∨ queued_inputs = false) then mret (Err InputDispatchRejected, a)
        else
          match queued_origin dispatch message thread_ref binding_generation client_message_id with
          | Err e => mret (Err e, a)
          | Ok origin =>
              r ← try (await (EnterQueueFence origin)) ;
              mret (r, {| az_authorized_dispatch := Some plan; az_queue_origin := Some origin |})
          end
    | TurnPlan dispatch =>
        if decide (continuation = QUEUE) then mret (Err InputDispatchRejected, a)
        else
          authorized ← try (ask (AuthorizeInputDispatch dispatch thread_ref client_message_id)) ;
          match authorized with
          | Err e => mret (Err (if is_value_error e then InputDispatchRejected else e), a)
          | Ok _ =>
              r ← try (await EnterFence) ;
              mret (r, {| az_authorized_dispatch := Some plan; az_queue_origin := az_queue_origin a |})
          end
    end.

(** [gateway/input/dispatch.py:405-412] InputDispatchRuntime.dispatch: the operations of an adapter, for a message of a claim. *)
Definition adapter_handler (message : InboundMessage) (thread_ref : ThreadRef)
    (continuation : InputContinuationPreference) (binding_generation : Z) (client_message_id : pystr)
    (X : Type) (e : adapter_event X) (a : authorization) : pprog (res X * authorization) :=
  match e with
  | BeforeDispatch plan =>
      authorize_dispatch message thread_ref continuation binding_generation client_message_id plan a
  | AdapterSends label =>
      r ← try (await (Base (SendNative
        (_inbound_idempotency_identity (im_conversation_ref message) (im_message_id message)) label))) ;
      mret (r, a)
  | AdapterAsks label => r ← try (ask (Ask label)) ; mret (r, a)
  end.

(** [gateway/input/dispatch.py:413-429] InputDispatchRuntime.dispatch: what follows an acceptance. *)
Definition after_acceptance (message : InboundMessage) (thread_ref : ThreadRef) (client_message_id : pystr)
    (a : authorization) (acceptance : ApplicationInputAcceptance) : pprog unit :=
  match acceptance with
  | QueuedInput receipt =>
      match az_queue_origin a with
      | Some origin => if queued_inputs then ask (AcceptQueued origin receipt) else mraise RuntimeError
      | None => mraise RuntimeError
      end
  | AcceptedInput accepted =>
      match az_authorized_dispatch a with
      | Some (TurnPlan dispatch) =>
          ask (CorrelateAcceptedTurn accepted dispatch thread_ref client_message_id
            (im_conversation_ref message) (im_message_id message))
      | _ => mraise RuntimeError
      end
  end.

(** [gateway/input/dispatch.py:341-463] InputDispatchRuntime.dispatch *)
Definition dispatch (thread_ref : ThreadRef) (message : InboundMessage) (content : list Content)
    (continuation : InputContinuationPreference) (binding_generation : Z)
    : pprog ApplicationInputAcceptance :=
  client_message_id ← returns (derive_client_message_id (im_conversation_ref message) (im_message_id message)) ;
  let agent_input := {|
    ag_client_message_id := client_message_id;
    ag_content := content;
    ag_sender := Some (im_sender message) |} in
  ask (BeginAcceptance thread_ref) ;;
  '(sent, a) ← interpret
    (adapter_handler message thread_ref continuation binding_generation client_message_id) tt
    (send_input thread_ref agent_input continuation) unauthorized ;
  '(accepted, primary_error) ←
    match sent with
    | Err e => mret (None, Some e)
    | Ok acceptance =>
        r ← try (after_acceptance message thread_ref client_message_id a acceptance) ;
        mret (Some acceptance, match r with Ok _ => None | Err e => Some e end)
    end ;
  finished ← try (ask (FinishAcceptance thread_ref)) ;
  let primary_error :=
    match primary_error, finished with
    | None, Err drain_error => Some drain_error
    | _, _ => primary_error
    end in
  match primary_error, accepted with
  | Some e, Some _ => mraise (InputPostAcceptanceError e)
  | Some e, None => mraise e
  | None, Some acceptance => mret acceptance
  | None, None => mraise RuntimeError
  end.

(** * The processing of a message *)

(** The Controller, with its coherent session, and how the Gateway is composed. *)
Context (controller : option (InboundMessage → prog unit controller_event (option (list OutboundMessage)))).
Context (coherent_session transforms : bool) (continuation : InputContinuationPreference).

(** [gateway/actions.py:1657-1668] ConversationActions._enter_effectful_command, with the
    fence's own flag *)
Definition _enter_effectful_command (message : InboundMessage) (invocation : CommandInvocation)
    (entered : bool) : pprog (res unit * bool) :=
  if decide (ci_conversation_ref invocation ≠ im_conversation_ref message
             ∨ ci_actor invocation ≠ im_sender message) then mret (Err ValueError, entered)
  else if entered then mret (Err RuntimeError, entered)
  else if decide (ci_message_id invocation ≠ im_message_id message
                  ∨ ci_created_at invocation ≠ im_created_at message) then mret (Err ValueError, entered)
  else r ← try (await EnterFence) ; mret (r, true).

(** [gateway/orchestration.py:1153-1166] _GatewayRuntime._process_message *)
Definition controller_handler (message : InboundMessage) (X : Type) (e : controller_event X)
    (entered : bool) : pprog (res X * bool) :=
  match e with
  | EnterEffectfulCommand invocation => _enter_effectful_command message invocation entered
  | ControllerAsks label => r ← try (ask (Ask label)) ; mret (r, entered)
  end.

(** [gateway/orchestration.py:1170-1178] _GatewayRuntime._process_message: the outputs of a Controller are delivered in turn. *)
Fixpoint deliver_outputs (message : InboundMessage) (outputs : list OutboundMessage) : pprog unit :=
  match outputs with
  | [] => mret ()
  | output :: rest =>
      if decide (om_conversation_ref output ≠ im_conversation_ref message) then mraise ValueError
      else ask (DeliverOutbound output) ;; deliver_outputs message rest
  end.

(** [gateway/orchestration.py:1178-1233] _GatewayRuntime._process_message: what follows the Controller *)
Definition process_unconsumed (message : InboundMessage) : pprog unit :=
  binding ← ask (CurrentBinding (im_conversation_ref message)) ;
  when_some binding (λ b,
    returns (validate_binding b) ;;
    raise_if (cb_conversation_ref b ≠ im_conversation_ref message)
      (ContractViolation "binding belongs to a different Conversation")) ;;
  match binding with
  | Some {| cb_application_ref := Some application_ref; cb_project_ref := Some _;
            cb_thread_ref := Some thread_ref; cb_generation := generation |} =>
      match d_get applications (ar_application_instance_id application_ref) with
      | None => mraise StaleBindingError
      | Some application =>
          prefix ← returns (derive_client_message_id (im_conversation_ref message) (im_message_id message)) ;
          preflight_authoritative_binding application thread_ref prefix (im_created_at message) ;;
          content ← (if transforms then ask (TransformContent message) else mret (im_content message)) ;
          ask (PrepareInputRoute thread_ref (im_conversation_ref message)) ;;
          (if decide (continuation = QUEUE) then ask (EnsureObserving thread_ref) else mret ()) ;;
          accepted ← dispatch thread_ref message content continuation generation ;
          origin ← await FenceOrigin ;
          match origin with
          | Some origin =>
              if queued_inputs then
                r ← try (ask (NotifyAdmission origin)) ;
                match r with Ok _ => mret () | Err e => mraise (InputPostAcceptanceError e) end
              else mret ()
          | None => mret ()
          end
      end
  | _ => mraise MissingBindingError
  end.

(** [gateway/orchestration.py:1130-1233] _GatewayRuntime._process_message *)
Definition _process_message (message : InboundMessage) (idempotency_owner_token : pystr) : pprog unit :=
  ask (HoldConversation (im_conversation_ref message)) ;;
  r ← try (
    let '(scope, key) := _inbound_idempotency_identity (im_conversation_ref message) (im_message_id message) in
    await (Base (RefreshClaim scope key idempotency_owner_token)) ;;
    outputs ← match controller with
      | None => mret None
      | Some handle =>
          if coherent_session then
            '(outputs, _) ← interpret (controller_handler message) tt (handle message) false ;
            returns outputs
          else mraise RuntimeError
      end ;
    match outputs with
    | Some outputs => deliver_outputs message outputs
    | None => process_unconsumed message
    end) ;
  ask (LeaveConversation (im_conversation_ref message)) ;;
  returns r.
End runtime.
End dispatch.
