(* ===== verification/Inbound.v ===== *)
(** The admission of inbound messages: [gateway/admission.py],
    [gateway/input/failure_presentation.py], the startup buffer of
    [gateway/lifecycle.py] and the entries of [gateway/orchestration.py].

    A message is claimed before it is prepared, under a token of its own; the
    claim goes with a lease, with an entry of the startup buffer, or with the task
    that handles it. *)

From S2P Require Export InputDispatch.
From stdpp Require Import gmap.
From stdpp Require Import list.
#[local] Open Scope Z_scope.
#[local] Open Scope stdpp_scope.

(** * The store of claims, as an interface *)

(** What the Gateway uses of an [IdempotencyRepository], and of the coherent session
    where there is one. *)
Class InboundStore (R : Type) := {
  in_claim : pystr → pystr → option pystr → M R IdempotencyClaimStatus;
  in_refresh : pystr → pystr → option pystr → M R unit;
  in_release : pystr → pystr → option pystr → M R unit;
  in_complete : pystr → pystr → option pystr → M R unit;
  in_mark_started : pystr → pystr → option pystr → M R unit;
  in_fence_queued : QueuedInputOrigin → pystr → pystr → pystr → M R unit;
}.

(** * The memory of a Gateway *)

(** [gateway/admission.py:110-110] _InboundAdmissionLease: the states of a lease, ["open"] and the like. *)
Inductive lease_state : Type :=
| LEASE_OPEN | LEASE_REFRESHING | LEASE_CLOSED | LEASE_TRANSFERRED | LEASE_RELEASING | LEASE_RELEASED.
#[export] Instance lease_state_eq_dec : EqDecision lease_state.
Proof. solve_decision. Defined.

(** [gateway/admission.py:78-110] _InboundAdmissionLease *)
Record _InboundAdmissionLease := {
  ls_conversation_ref : ConversationRef;
  ls_message_id : pystr;
  ls_scope : pystr;
  ls_key : pystr;
  ls_owner_token : pystr;
  ls_state : lease_state;
}.
Definition set_lease_state state (l : _InboundAdmissionLease) : _InboundAdmissionLease := {|
  ls_conversation_ref := ls_conversation_ref l; ls_message_id := ls_message_id l;
  ls_scope := ls_scope l; ls_key := ls_key l; ls_owner_token := ls_owner_token l; ls_state := state |}.

(** [gateway/lifecycle.py:206-215] GatewayStartupAdmission *)
Record GatewayStartupAdmission := {
  sa_max_pending : Z;
  sa_entries : list ClaimedInbound;
  sa_overflow : bool;
  sa_overflow_count : Z;
}.

(** [gateway/lifecycle.py:209-215] GatewayStartupAdmission.__init__ *)
Definition new_startup_admission (max_pending : Z) : res GatewayStartupAdmission :=
  raise_if (max_pending < 1) ValueError ;;
  Ok {| sa_max_pending := max_pending; sa_entries := []; sa_overflow := false; sa_overflow_count := 0 |}.

(** What the tasks share; the leases are objects of a heap. *)
Record gateway_memory := {
  gm_accepting_inbound : bool;
  gm_starting : bool;
  gm_startup : GatewayStartupAdmission;
  gm_leases : list _InboundAdmissionLease;
}.
Definition set_flags accepting starting (s : gateway_memory) : gateway_memory := {|
  gm_accepting_inbound := accepting; gm_starting := starting; gm_startup := gm_startup s;
  gm_leases := gm_leases s |}.
Definition set_startup startup (s : gateway_memory) : gateway_memory := {|
  gm_accepting_inbound := gm_accepting_inbound s; gm_starting := gm_starting s; gm_startup := startup;
  gm_leases := gm_leases s |}.
Definition set_leases leases (s : gateway_memory) : gateway_memory := {|
  gm_accepting_inbound := gm_accepting_inbound s; gm_starting := gm_starting s;
  gm_startup := gm_startup s; gm_leases := leases |}.
(** [gateway/admission.py:158-158] _InboundAdmissionLease: [self._state = state] of the lease [l] at [id]; its other fields never change. *)
Definition with_lease (id : nat) (l : _InboundAdmissionLease) (state : lease_state) (s : gateway_memory)
    : gateway_memory :=
  set_leases (<[id := set_lease_state state l]> (gm_leases s)) s.

(** * The startup buffer *)

Definition with_entries entries (a : GatewayStartupAdmission) : GatewayStartupAdmission := {|
  sa_max_pending := sa_max_pending a; sa_entries := entries; sa_overflow := sa_overflow a;
  sa_overflow_count := sa_overflow_count a |}.

(** [gateway/lifecycle.py:220-222] GatewayStartupAdmission.reset *)
Definition startup_reset (a : GatewayStartupAdmission) : GatewayStartupAdmission := {|
  sa_max_pending := sa_max_pending a; sa_entries := []; sa_overflow := false;
  sa_overflow_count := sa_overflow_count a |}.

(** [gateway/lifecycle.py:238-240] GatewayStartupAdmission.raise_if_overflowed *)
Definition raise_if_overflowed : M GatewayStartupAdmission unit :=
  a ← get_st ; raise_if (sa_overflow a = true) GatewayStartupOverflow.

(** [gateway/lifecycle.py:227-233] GatewayStartupAdmission.admit *)
Definition startup_admit (entry : ClaimedInbound) : M GatewayStartupAdmission unit :=
  raise_if_overflowed ;;
  a ← get_st ;
  if decide (sa_max_pending a ≤ len (sa_entries a)) then
    modify (λ a, {| sa_max_pending := sa_max_pending a; sa_entries := sa_entries a; sa_overflow := true;
                    sa_overflow_count := sa_overflow_count a + 1 |}) ;;
    mraise GatewayStartupOverflow
  else modify (λ a, with_entries (sa_entries a ++ [entry]) a).

(** [gateway/lifecycle.py:235-236] GatewayStartupAdmission.popleft *)
Definition startup_popleft : M GatewayStartupAdmission ClaimedInbound :=
  a ← get_st ;
  match sa_entries a with
  | [] => mraise IndexError
  | entry :: rest => modify (with_entries rest) ;; mret entry
  end.

Definition on_startup {A} (m : M GatewayStartupAdmission A) : M gateway_memory A :=
  zoom gm_startup set_startup m.

(** * The effect fence *)

(** [gateway/input/failure_presentation.py:220-234] InboundEffectFence: its flags *)
Record InboundEffectFence := {
  ef_entered : bool;
  ef_started : bool;
  ef_origin : option QueuedInputOrigin;
}.
(** [gateway/input/failure_presentation.py:229-234] InboundEffectFence.__init__ *)
Definition new_fence : InboundEffectFence := {| ef_entered := false; ef_started := false; ef_origin := None |}.

Abbreviation gateway_prog := (prog gateway_memory gateway_event).
Definition does {X} (e : gateway_event X) : gateway_prog X := await e.
Definition asks {X} (q : question X) : gateway_prog X := await (Other q).

Section fence.
Context (claimed : ClaimedInbound) (coherent_session : bool).

(** [gateway/input/failure_presentation.py:236-241] InboundEffectFence.__call__ *)
Definition enter_fence (f : InboundEffectFence) : gateway_prog (res unit * InboundEffectFence) :=
  r ← try (does (MarkStarted (cl_scope claimed) (cl_key claimed) (cl_owner_token claimed))) ;
  mret (r, {| ef_entered := true; ef_started := ef_started f || is_ok r; ef_origin := ef_origin f |}).

(** [gateway/input/failure_presentation.py:256-256] InboundEffectFence.queue: the rejections that prove that nothing was written. *)
Definition fence_rejected (e : exn) : bool :=
  match e with EffectReceiptCapacityError | QueuedInputFenceConflict | StaleRuntimeFence => true | _ => false end.

(** [gateway/input/failure_presentation.py:243-263] InboundEffectFence.queue *)
Definition queue_fence (origin : QueuedInputOrigin) (f : InboundEffectFence)
    : gateway_prog (res unit * InboundEffectFence) :=
  if coherent_session then
    match validate_queued_input_origin origin with
    | Err e => mret (Err e, f)
    | Ok _ =>
        r ← try (does (FenceQueued origin (cl_scope claimed) (cl_key claimed) (cl_owner_token claimed))) ;
        match r with
        | Ok _ => mret (r, {| ef_entered := true; ef_started := true; ef_origin := Some origin |})
        | Err e =>
            if fence_rejected e
            then mret (r, {| ef_entered := false; ef_started := ef_started f; ef_origin := None |})
            else mret (r, {| ef_entered := true; ef_started := ef_started f; ef_origin := Some origin |})
        end
    end
  else mret (Err RuntimeError, f).

(** The operations of [process] with the fence of a claim. *)
Definition fence_handler (X : Type) (e : process_event X) (f : InboundEffectFence)
    : gateway_prog (res X * InboundEffectFence) :=
  match e with
  | EnterFence => enter_fence f
  | EnterQueueFence origin => queue_fence origin f
  | FenceOrigin => mret (Ok (ef_origin f), f)
  | Base e => r ← try (does e) ; mret (r, f)
  end.

(** * The handling of a claimed message *)

(** [gateway/input/failure_presentation.py:392-397] _failure_delivery_id *)
Definition _failure_delivery_id (message : InboundMessage) : pystr :=
  py "imagent:gateway:" ++ cv_channel_instance_id (im_conversation_ref message) ++ py ":"
  ++ cv_native_conversation_id (im_conversation_ref message) ++ py ":"
  ++ im_message_id message ++ py ":inbound-failure".

(** [gateway/input/failure_presentation.py:377-389] _present_failure *)
Definition _present_failure (message : InboundMessage) (phase : InboundFailurePhase) : gateway_prog unit :=
  output ← asks (PresentFailure {|
    fp_phase := phase;
    fp_conversation_ref := im_conversation_ref message;
    fp_delivery_id := _failure_delivery_id message;
    fp_reply_to_message_id := im_message_id message |}) ;
  asks (DeliverOutbound output).

(** Whether failures are presented, and whether queued input of unknown outcome is
    announced. *)
Context (presents announces_unknown : bool).

(** [gateway/input/failure_presentation.py:370-374] handle_claimed_inbound *)
Definition complete_claim : gateway_prog unit :=
  does (CompleteClaim (cl_scope claimed) (cl_key claimed) (cl_owner_token claimed)).
(** [gateway/input/failure_presentation.py:327-331] handle_claimed_inbound *)
Definition release_claim : gateway_prog unit :=
  does (ReleaseClaim (cl_scope claimed) (cl_key claimed) (cl_owner_token claimed)).

(** [gateway/input/failure_presentation.py:278-374] handle_claimed_inbound: what follows
    [process], by what it raised and how far the fence was entered *)
Definition settle_claim (r : res unit) (f : InboundEffectFence) : gateway_prog unit :=
  let present := _present_failure (cl_message claimed) in
  match r with
  | Ok _ => complete_claim
  | Err (InputPostAcceptanceError cause) =>
      complete_claim ;;
      if presents then present POST_ACCEPTANCE else mraise cause
  | Err (ApplicationInputRejected thread_busy) =>
      complete_claim ;;
      if presents then present (if thread_busy then PHASE_THREAD_BUSY else PHASE_TURN_ENDED)
      else mraise (ApplicationInputRejected thread_busy)
  | Err (ApplicationInputOutcomeUnknown cause) =>
      match ef_origin f, announces_unknown with
      | Some origin, true => asks (NotifyAdmission origin)
      | _, _ => if presents then present OUTCOME_UNKNOWN else mraise cause
      end
  | Err CancelledError =>
      (if ef_entered f then mret () else release_claim) ;; mraise CancelledError
  | Err e =>
      if ef_entered f then
        match ef_origin f, announces_unknown && is_exception e with
        | Some origin, true => asks (NotifyAdmission origin)
        | _, _ => if presents && is_exception e then present OUTCOME_UNKNOWN else mraise e
        end
      else if presents && is_exception e then complete_claim ;; present PRE_ACCEPTANCE
      else release_claim ;; mraise e
  end.

(** [gateway/input/failure_presentation.py:266-374] handle_claimed_inbound *)
Definition handle_claimed_inbound (process : prog unit process_event unit) : gateway_prog unit :=
  '(r, f) ← interpret fence_handler tt process new_fence ; settle_claim r f.
End fence.

(** * The entries of the Gateway *)

Section gateway.
Context (coherent_session presents announces_unknown : bool).
(** What is done with a claimed message. *)
Context (process : ClaimedInbound → prog unit process_event unit).

(** [gateway/orchestration.py:1049-1067] _GatewayRuntime._handle_claimed_message *)
Definition _handle_claimed_message (claimed : ClaimedInbound) : gateway_prog unit :=
  handle_claimed_inbound claimed coherent_session presents announces_unknown (process claimed).

(** What becomes of a claim that is handed over: decided without a pause. *)
Inductive handover : Type := HandoverRefused | HandoverBuffered (r : res unit) | HandoverLive.

(** [gateway/orchestration.py:1100-1127] _GatewayRuntime._handle_claimed_message_entry *)
Definition decide_handover (claimed : ClaimedInbound) : M gateway_memory handover :=
  s ← get_st ;
  if gm_accepting_inbound s then
    if gm_starting s then r ← mcatch (on_startup (startup_admit claimed)) ; mret (HandoverBuffered r)
    else mret HandoverLive
  else mret HandoverRefused.

(** [gateway/orchestration.py:1099-1128] _GatewayRuntime._handle_claimed_message_entry *)
Definition _handle_claimed_message_entry (claimed : ClaimedInbound) : gateway_prog unit :=
  let release := does (ReleaseClaim (cl_scope claimed) (cl_key claimed) (cl_owner_token claimed)) in
  decision ← sync (decide_handover claimed) ;
  match decision with
  | HandoverRefused => release
  | HandoverBuffered (Ok _) => mret ()
  | HandoverBuffered (Err e) => try release ;; mraise e
  | HandoverLive => _handle_claimed_message claimed
  end.

(** [gateway/admission.py:56-75] InboundAdmissionService.begin: the lease, by its place in
    the heap *)
Definition admission_begin (channel_instance_id : pystr) (conversation_ref : ConversationRef)
    (message_id : pystr) : gateway_prog (option nat) :=
  raise_if (cv_channel_instance_id conversation_ref ≠ channel_instance_id) ValueError ;;
  let '(scope, key) := _inbound_idempotency_identity conversation_ref message_id in
  owner_token ← does Uuid4 ;
  claim ← does (ClaimInbound scope key owner_token) ;
  if decide (claim ≠ ACQUIRED) then mret None
  else
    sync (s ← get_st ;
      modify (set_leases (gm_leases s ++ [{|
        ls_conversation_ref := conversation_ref; ls_message_id := message_id; ls_scope := scope;
        ls_key := key; ls_owner_token := owner_token; ls_state := LEASE_OPEN |}])) ;;
      mret (Some (length (gm_leases s)))).

(** [gateway/admission.py:156-158] _InboundAdmissionLease.release: an open lease begins something, without a pause; [None] for one that is not open. *)
Definition take_lease (id : nat) (next : lease_state) : M gateway_memory (option _InboundAdmissionLease) :=
  s ← get_st ;
  match gm_leases s !! id with
  | Some l =>
      if decide (ls_state l = LEASE_OPEN) then modify (with_lease id l next) ;; mret (Some l) else mret None
  | None => mret None
  end.

(** [gateway/admission.py:155-168] _InboundAdmissionLease.release *)
Definition lease_release (id : nat) : gateway_prog unit :=
  taken ← sync (take_lease id LEASE_RELEASING) ;
  match taken with
  | None => mret ()
  | Some l =>
      r ← try (does (ReleaseClaim (ls_scope l) (ls_key l) (ls_owner_token l))) ;
      match r with
      | Ok _ => sync (modify (with_lease id l LEASE_RELEASED))
      | Err e => sync (modify (with_lease id l LEASE_OPEN)) ;; mraise e
      end
  end.

(** [gateway/admission.py:113-121] _InboundAdmissionLease.deliver: the checks of [deliver]; [None] when the message is not the one claimed. *)
Definition take_for_delivery (id : nat) (message : InboundMessage)
    : M gateway_memory (option _InboundAdmissionLease) :=
  s ← get_st ;
  match gm_leases s !! id with
  | Some l =>
      raise_if (ls_state l ≠ LEASE_OPEN) RuntimeError ;;
      if decide (im_conversation_ref message ≠ ls_conversation_ref l
                 ∨ im_message_id message ≠ ls_message_id l)
      then mret None
      else modify (with_lease id l LEASE_REFRESHING) ;; mret (Some l)
  | None => mraise RuntimeError
  end.

(** [gateway/admission.py:112-153] _InboundAdmissionLease.deliver *)
Definition lease_deliver (id : nat) (message : InboundMessage) : gateway_prog unit :=
  taken ← sync (take_for_delivery id message) ;
  match taken with
  | None => lease_release id ;; mraise ValueError
  | Some l =>
      r ← try (does (RefreshClaim (ls_scope l) (ls_key l) (ls_owner_token l))) ;
      match r with
      | Err e =>
          sync (modify (with_lease id l LEASE_CLOSED)) ;;
          try (does (ReleaseClaim (ls_scope l) (ls_key l) (ls_owner_token l))) ;;
          mraise e
      | Ok _ =>
          sync (modify (with_lease id l LEASE_TRANSFERRED)) ;;
          _handle_claimed_message_entry {|
            cl_message := message; cl_scope := ls_scope l; cl_key := ls_key l;
            cl_owner_token := ls_owner_token l |}
      end
  end.

(** [gateway/orchestration.py:1081-1097] _GatewayRuntime._begin_inbound *)
Definition _begin_inbound (channel_instance_id : pystr) (conversation_ref : ConversationRef)
    (message_id : pystr) : gateway_prog (option nat) :=
  accepting ← sync (gets gm_accepting_inbound) ;
  if (accepting : bool) then
    admission ← admission_begin channel_instance_id conversation_ref message_id ;
    match admission with
    | None => mret None
    | Some id =>
        accepting ← sync (gets gm_accepting_inbound) ;
        if (accepting : bool) then mret (Some id) else lease_release id ;; mret None
    end
  else mret None.

(** [gateway/orchestration.py:1069-1079] _GatewayRuntime._handle_message_entry *)
Definition _handle_message_entry (message : InboundMessage) : gateway_prog unit :=
  accepting ← sync (gets gm_accepting_inbound) ;
  if (accepting : bool) then
    admission ← _begin_inbound (cv_channel_instance_id (im_conversation_ref message))
      (im_conversation_ref message) (im_message_id message) ;
    match admission with
    | None => mret ()
    | Some id => lease_deliver id message
    end
  else mraise GatewayNotRunning.

(** [gateway/orchestration.py:472-477] _GatewayRuntime.start: the buffered messages are handled; at
    most [n] of them here *)
Fixpoint drain_startup (n : nat) : gateway_prog unit :=
  match n with
  | O => mraise RuntimeError
  | S n' =>
      entry ← sync (s ← get_st ;
        if decide (sa_entries (gm_startup s) = []) then
          modify (set_flags (gm_accepting_inbound s) false) ;; mret None
        else entry ← on_startup startup_popleft ; mret (Some entry)) ;
      match entry with
      | None => mret ()
      | Some entry =>
          _handle_claimed_message entry ;;
          sync (on_startup raise_if_overflowed) ;;
          drain_startup n'
      end
  end.

(** [gateway/orchestration.py:482-500] _GatewayRuntime.start: a failed startup gives the buffered
    claims back; at most [n] of them here *)
Fixpoint rollback_startup (n : nat) : gateway_prog unit :=
  match n with
  | O => mraise RuntimeError
  | S n' =>
      entry ← sync (s ← get_st ;
        if decide (sa_entries (gm_startup s) = []) then mret None
        else entry ← on_startup startup_popleft ; mret (Some entry)) ;
      match entry with
      | None => mret ()
      | Some entry =>
          try (does (ReleaseClaim (cl_scope entry) (cl_key entry) (cl_owner_token entry))) ;;
          rollback_startup n'
      end
  end.

(** [gateway/orchestration.py:413-500] _GatewayRuntime.start: what it does with inbound messages,
    with or without preparations; the start of the other owners is asked for, and may fail *)
Definition start_inbound (preparations : bool) (n : nat) : gateway_prog unit :=
  sync (modify (λ s, set_startup (startup_reset (gm_startup s)) (set_flags (negb preparations) true s))) ;;
  r ← try (
    (if preparations then asks (Ask (py "prepare")) ;; mret () else mret ()) ;;
    sync (modify (λ s, set_flags true (gm_starting s) s)) ;;
    asks (Ask (py "start")) ;;
    sync (on_startup raise_if_overflowed) ;;
    drain_startup n) ;
  match r with
  | Ok _ => mret ()
  | Err e =>
      sync (modify (set_flags false false)) ;;
      rollback_startup n ;;
      sync (modify (λ s, set_startup (with_entries [] (gm_startup s)) s)) ;;
      mraise e
  end.

(** [gateway/orchestration.py:566-568] _GatewayRuntime.stop: what it does with inbound messages *)
Definition stop_inbound : gateway_prog unit := sync (modify (set_flags false false)).

(** What tasks are started with: the start and stop of the Gateway, a message from a
    Channel, an admission a Channel asks for, and its use of the lease. *)
Inductive gateway_entry : gateway_prog unit → Prop :=
| entry_start preparations n : gateway_entry (start_inbound preparations n)
| entry_stop : gateway_entry stop_inbound
| entry_message message : gateway_entry (_handle_message_entry message)
| entry_begin channel conversation_ref message_id :
    gateway_entry (_begin_inbound channel conversation_ref message_id ;; mret ())
| entry_deliver id message : gateway_entry (lease_deliver id message)
| entry_release id : gateway_entry (lease_release id).
End gateway.

(** A new process. *)
Definition gateway_boot (s : gateway_memory) : Prop :=
  ∃ m a, new_startup_admission m = Ok a ∧
    s = {| gm_accepting_inbound := false; gm_starting := false; gm_startup := a; gm_leases := [] |}.

(** * The world of a Gateway *)

(** The store, the tokens given so far, the side effects begun with their tokens, and
    the native inputs. *)
Record inbound_world (R : Type) := {
  iw_store : R;
  iw_tokens : list pystr;
  iw_started : list (claim_key * pystr);
  iw_native : list claim_key;
}.
Arguments Build_inbound_world {R} _ _ _ _.
Arguments iw_store {R} _.
Arguments iw_tokens {R} _.
Arguments iw_started {R} _.
Arguments iw_native {R} _.

Section world.
Context {R : Type} `{InboundStore R}.

(** A call of the store. *)
Definition calls {A} (m : M R A) (w : inbound_world R) (r : res A) (w' : inbound_world R) : Prop :=
  r = (m (iw_store w)).1 ∧
  w' = Build_inbound_world (m (iw_store w)).2 (iw_tokens w) (iw_started w) (iw_native w).

(** A call that begins the side effect of a claim when it returns. *)
Definition starts (claim : claim_key) (token : pystr) (m : M R unit) (w : inbound_world R) (r : res unit)
    (w' : inbound_world R) : Prop :=
  r = (m (iw_store w)).1 ∧
  w' = Build_inbound_world (m (iw_store w)).2 (iw_tokens w)
    (if is_ok (m (iw_store w)).1 then iw_started w ++ [(claim, token)] else iw_started w) (iw_native w).

(** What takes place: the store as it is; a token [uuid4] never gave before; the native
    input, whatever comes back; and anything in what other owners do, who leave the
    claims alone. *)
Definition gateway_perform (X : Type) (e : gateway_event X) :
    inbound_world R → res X → inbound_world R → Prop :=
  match e with
  | ClaimInbound scope key token => calls (in_claim scope key (Some token))
  | RefreshClaim scope key token => calls (in_refresh scope key (Some token))
  | ReleaseClaim scope key token => calls (in_release scope key (Some token))
  | CompleteClaim scope key token => calls (in_complete scope key (Some token))
  | MarkStarted scope key token => starts (scope, key) token (in_mark_started scope key (Some token))
  | FenceQueued origin scope key token => starts (scope, key) token (in_fence_queued origin scope key token)
  | Uuid4 => λ w r w', ∃ token, token ∉ iw_tokens w ∧ r = Ok token ∧
      w' = Build_inbound_world (iw_store w) (token :: iw_tokens w) (iw_started w) (iw_native w)
  | SendNative claim _ => λ w r w',
      w' = Build_inbound_world (iw_store w) (iw_tokens w) (iw_started w) (iw_native w ++ [claim])
  | Other _ => λ w r w', w' = w
  end.

(** Reading a clock, making a token and leaving a lock are no pause. *)
Definition gateway_immediate (X : Type) (e : gateway_event X) : bool :=
  match e with
  | Uuid4 => true
  | Other UtcNow | Other (LeaveConversation _) | Other (BeginAcceptance _) => true
  | _ => false
  end.
End world.
