(* ===== verification/InboundStores.v ===== *)
(** The stores of claims, behind one interface with laws: what the Gateway relies on,
    and the two stores that keep it: the process-local repository and a session of
    the coherent store. *)

From S2P Require Export Inbound StoreSession.
From S2P Require Import SessionLaws.
From stdpp Require Import list.
#[local] Open Scope stdpp_scope.

(** * The laws *)

(** A claim may be acquired: there is none, or none that has begun its side effect. *)
Definition claimable (r : option claim_record) : Prop :=
  match r with None | Some (InFlight, _) => True | Some _ => False end.

(** The side effect of a claim has begun, under an owner. *)
Definition effective (owner : option pystr) (r : option claim_record) : Prop :=
  ∃ st, st ≠ InFlight ∧ r = Some (st, owner).

Section moved.
Context {R : Type} (record : R → claim_key → option claim_record).

Definition records_same (x x' : R) : Prop := ∀ k, record x' k = record x k.
(** The record of one key was [old] and is [new]; the others stay. *)
Definition record_moved (key : claim_key) (old new : option claim_record) (x x' : R) : Prop :=
  record x key = old ∧ ∀ k, record x' k = if decide (k = key) then new else record x k.
End moved.

(** Calls change the record of the key they name and of an owner they name; a fence
    that is refused changes nothing. *)
Class InboundStoreLaws (R : Type) `{InboundStore R} := {
  in_record : R → claim_key → option claim_record;
  law_claim scope key owner x : wp (in_claim scope key owner) (λ r x',
    records_same in_record x x' ∧ r ≠ Ok ACQUIRED ∨
    r = Ok ACQUIRED ∧ ∃ old, claimable old ∧
      record_moved in_record (scope, key) old (Some (InFlight, owner)) x x') x;
  law_refresh scope key owner x : wp (in_refresh scope key owner) (λ _ x', records_same in_record x x') x;
  law_release scope key owner x : wp (in_release scope key owner) (λ _ x',
    records_same in_record x x' ∨ ∃ st, record_moved in_record (scope, key) (Some (st, owner)) None x x') x;
  law_complete scope key owner x : wp (in_complete scope key owner) (λ _ x',
    records_same in_record x x' ∨
    ∃ st, record_moved in_record (scope, key) (Some (st, owner)) (Some (Completed, owner)) x x') x;
  law_mark_started scope key owner x : wp (in_mark_started scope key owner) (λ r x',
    match r with
    | Ok _ => record_moved in_record (scope, key) (Some (InFlight, owner)) (Some (SideEffectStarted, owner)) x x'
    | Err _ => records_same in_record x x'
    end) x;
  law_fence_queued origin scope key owner x : wp (in_fence_queued origin scope key owner) (λ r x',
    match r with
    | Ok _ => record_moved in_record (scope, key) (Some (InFlight, Some owner))
                (Some (SideEffectStarted, Some owner)) x x'
    | Err _ => records_same in_record x x'
    end) x;
}.

(** * The process-local repository *)

(** Without a coherent session there is no fence of queued input. *)
#[export] Instance memory_inbound_store : InboundStore IdempotencyRepository := {|
  in_claim := claim; in_refresh := refresh; in_release := release; in_complete := complete;
  in_mark_started := mark_side_effect_started;
  in_fence_queued _ _ _ _ := mraise RuntimeError |}.

Definition memory_record (s : IdempotencyRepository) : claim_key → option claim_record := d_get (ir_records s).

Lemma memory_set_moved scope key old new (s : IdempotencyRepository) :
  memory_record s (scope, key) = old →
  record_moved memory_record (scope, key) old (Some new) s
    (set_records (d_set (ir_records s) (scope, key) new) s).
Proof.
  intros Hold. split; [done|]. intros k. unfold memory_record; cbn. rewrite d_get_set.
  destruct (decide (k = _)), (decide (_ = k)); congruence.
Qed.

Lemma memory_pop_moved scope key old (s : IdempotencyRepository) :
  memory_record s (scope, key) = old →
  record_moved memory_record (scope, key) old None s (set_records (d_pop (ir_records s) (scope, key)) s).
Proof.
  intros Hold. split; [done|]. intros k. unfold memory_record; cbn. rewrite d_get_pop.
  destruct (decide (k = _)), (decide (_ = k)); congruence.
Qed.

Section memory.
Context (scope key : pystr) (owner : option pystr) (s : IdempotencyRepository).

Lemma memory_claim_law : wp (claim scope key owner) (λ r s',
  records_same memory_record s s' ∧ r ≠ Ok ACQUIRED ∨
  r = Ok ACQUIRED ∧ ∃ old, claimable old ∧
    record_moved memory_record (scope, key) old (Some (InFlight, owner)) s s') s.
Proof.
  unfold claim. wp_run; try by left.
  right. split; [done|]. exists None. split; [done|]. by apply memory_set_moved.
Qed.

Lemma memory_refresh_law : wp (refresh scope key owner) (λ _ s', records_same memory_record s s') s.
Proof. unfold refresh. by wp_run. Qed.

Lemma memory_release_law : wp (release scope key owner) (λ _ s',
  records_same memory_record s s' ∨
  ∃ st, record_moved memory_record (scope, key) (Some (st, owner)) None s s') s.
Proof.
  unfold release. wp_run; [|by left]. right.
  match goal with H : _ ∨ _ |- _ => destruct H end; eexists; by apply memory_pop_moved.
Qed.

Lemma memory_complete_law : wp (complete scope key owner) (λ _ s',
  records_same memory_record s s' ∨
  ∃ st, record_moved memory_record (scope, key) (Some (st, owner)) (Some (Completed, owner)) s s') s.
Proof.
  unfold complete. wp_run; [by left|]. right.
  match goal with H : ¬ (_ ≠ _) |- _ => apply dec_stable in H; rename H into Ho end.
  destruct (d_get (ir_records s) (scope, key)) as [[st o]|] eqn:Hr; cbn in Ho; [|done].
  injection Ho as ->. exists st. by apply memory_set_moved.
Qed.

Lemma memory_mark_started_law : wp (mark_side_effect_started scope key owner) (λ r s',
  match r with
  | Ok _ => record_moved memory_record (scope, key) (Some (InFlight, owner)) (Some (SideEffectStarted, owner)) s s'
  | Err _ => records_same memory_record s s'
  end) s.
Proof.
  unfold mark_side_effect_started. wp_run; [done|].
  match goal with H : ¬ (_ ≠ _) |- _ => apply dec_stable in H end. by apply memory_set_moved.
Qed.
End memory.

#[export] Instance memory_inbound_laws : InboundStoreLaws IdempotencyRepository := {|
  in_record := memory_record;
  law_claim := memory_claim_law;
  law_refresh := memory_refresh_law;
  law_release := memory_release_law;
  law_complete := memory_complete_law;
  law_mark_started := memory_mark_started_law;
  law_fence_queued _ _ _ _ _ _ := eq_refl |}.

(** * A session of the coherent store *)

Section session.
Context (clock : nat → datetime).

Definition session_inbound_store : InboundStore session_world := {|
  in_claim := session_claim clock; in_refresh := session_refresh clock;
  in_release := session_release clock; in_complete := session_complete clock;
  in_mark_started := session_mark_side_effect_started clock;
  in_fence_queued origin scope key owner :=
    session_fence_queued_input clock origin scope key owner ;; mret () |}.

Definition session_record (x : session_world) : claim_key → option claim_record :=
  memory_record (ms_idempotency (w_store (sw_world x))).

(** A call of the store's repository of claims, for a session. *)
Lemma session_call {A} (m : M IdempotencyRepository A) (Q : res A → IdempotencyRepository → Prop) x :
  (∀ e, Q (Err e) (ms_idempotency (w_store (sw_world x)))) →
  wp m Q (ms_idempotency (w_store (sw_world x))) →
  wp (fenced (λ lease, _mutate clock lease (on_idempotency m)))
    (λ r x', Q r (ms_idempotency (w_store (sw_world x')))) x.
Proof.
  intros He Hm. apply wp_fenced_session; [apply He|]. intros lease.
  apply wp_bind, wp_assert_fence.
  - intros e w' Hw _. cbn. rewrite Hw. apply He.
  - intros _. apply wp_zoom. eapply wp_mono; [exact Hm|]. by intros r s'.
Qed.

(** The fence of queued input moves the claim, or changes nothing of the claims. *)
Lemma fence_queued_moves fence origin scope key owner w :
  let claims w := memory_record (ms_idempotency (w_store w)) in
  wp (_fence_queued_input clock fence origin scope key owner) (λ r w',
    match r with
    | Ok _ => record_moved claims (scope, key) (Some (InFlight, Some owner))
                (Some (SideEffectStarted, Some owner)) w w'
    | Err _ => records_same claims w w'
    end) w.
Proof.
  intros claims. unfold _fence_queued_input.
  apply wp_bind_lift; [intros [] _|done]. apply wp_bind_lift; [intros [] _|done].
  apply wp_bind, wp_raise_if; [done|]. intros _.
  apply wp_bind, wp_assert_fence; [intros e w' Hw _ k; unfold claims; by rewrite Hw|].
  intros _. apply wp_bind, wp_sget. cbn [w_store tick id].
  apply wp_bind, wp_raise_if; [done|]. intros _.
  apply wp_bind, wp_raise_if; [done|]. intros Hcl%dec_stable.
  apply wp_bind. destruct (d_get (br_bindings _) _) as [b|]; [|done].
  apply wp_raise_if; [done|]. intros _.
  apply wp_bind, wp_capacity; [done|]. intros _. apply wp_bind, wp_now; [done|]. intros _.
  apply wp_bind_lift; [intros [] _|done].
  apply wp_bind, wp_sset, wp_bind, wp_sset, wp_ret.
  by apply (memory_set_moved _ _ (Some (InFlight, Some owner))).
Qed.

Definition session_inbound_laws : @InboundStoreLaws session_world session_inbound_store.
Proof.
  refine (@Build_InboundStoreLaws _ session_inbound_store session_record _ _ _ _ _ _).
  - intros. apply (session_call (claim scope key owner) (λ r s', records_same memory_record _ s' ∧ _ ∨
      _ ∧ ∃ old, _ ∧ record_moved memory_record _ old _ _ s')); [by left|apply memory_claim_law].
  - intros. apply (session_call (refresh scope key owner) (λ _ s', records_same memory_record _ s'));
      [done|apply memory_refresh_law].
  - intros. apply (session_call (release scope key owner) (λ _ s', records_same memory_record _ s' ∨
      ∃ st, record_moved memory_record _ _ _ _ s')); [by left|apply memory_release_law].
  - intros. apply (session_call (complete scope key owner) (λ _ s', records_same memory_record _ s' ∨
      ∃ st, record_moved memory_record _ _ _ _ s')); [by left|apply memory_complete_law].
  - intros. apply (session_call (mark_side_effect_started scope key owner) (λ r s', match r with
      | Ok _ => record_moved memory_record _ _ _ _ s' | Err _ => records_same memory_record _ s' end));
      [done|apply memory_mark_started_law].
  - intros. cbn. apply wp_bind, wp_fenced_session; [done|]. intros lease.
    eapply wp_mono; [apply fence_queued_moves|]. intros [[]|e] w' Hr; exact Hr.
Defined.
End session.
