(* ===== verification/InboundProtocol.v ===== *)
(** The protocol of a claimed message: what Controllers and adapters promise, what may
    be done with the message of a claim, and why [_process_message] keeps to it. *)

From S2P Require Export Inbound.
From stdpp Require Import gmap.
From stdpp Require Import list.
#[local] Open Scope stdpp_scope.

(** * The protocols *)

(** How far a claim has come: nothing begun; perhaps begun; begun, with the native
    input still to be made. *)
Inductive phase : Type := Held | Entered | Licensed.
#[export] Instance phase_eq_dec : EqDecision phase.
Proof. solve_decision. Defined.

(** The contract of an adapter: it sends once at most, after a plan was admitted. *)
Definition adapter_rule (X : Type) (e : adapter_event X) (licensed : bool)
    : (res X → bool → Prop) → Prop :=
  match e with
  | BeforeDispatch _ => λ Post, Post (Ok ()) true ∧ ∀ x, Post (Err x) false
  | AdapterSends _ => λ Post, licensed = true ∧ ∀ r, Post r false
  | AdapterAsks _ => λ Post, ∀ r, Post r licensed
  end.

(** A Controller may enter the fence of a command; what it has entered is noted. *)
Definition controller_rule (X : Type) (e : controller_event X) (entered : bool)
    : (res X → bool → Prop) → Prop :=
  match e with
  | EnterEffectfulCommand _ => λ Post, ∀ r, Post r true
  | ControllerAsks _ => λ Post, ∀ r, Post r entered
  end.

(** What may be done with a message of a claim.  A rejected fence of queued input
    leaves the claim as it was. *)
Definition process_rule (ck : claim_key) (X : Type) (e : process_event X) (ph : phase)
    : (res X → phase → Prop) → Prop :=
  match e with
  | EnterFence => λ Post, Post (Ok ()) Licensed ∧ ∀ x, Post (Err x) Entered
  | EnterQueueFence _ => λ Post,
      ph = Held ∧ Post (Ok ()) Licensed ∧ ∀ x, Post (Err x) Held ∧ Post (Err x) Entered
  | FenceOrigin => λ Post, ∀ r, Post r ph
  | Base (SendNative ck' _) => λ Post, ck' = ck ∧ ph = Licensed ∧ ∀ r, Post r Entered
  | Base (RefreshClaim _ _ _) => λ Post, ∀ r, Post r ph
  | Base (Other _) => λ Post, ∀ r, Post r ph
  | Base _ => λ _, False
  end.

Lemma process_rule_mono ck : monotone_rule (process_rule ck).
Proof. intros X e ph P Q. destruct e as [| | |X e]; cbn; [naive_solver..|]. destruct e; naive_solver. Qed.
#[local] Hint Resolve process_rule_mono : gateway.

Definition message_key (message : InboundMessage) : claim_key :=
  _inbound_idempotency_identity (im_conversation_ref message) (im_message_id message).

(** ** A message is processed by the protocol *)

Section process.
Context (error_text : exn → pystr) (float_repr : Qcanon.Qc → pystr).
Context (applications : dict pystr ApplicationRef).
Context (send_input : ThreadRef → AgentInput → InputContinuationPreference →
  prog unit adapter_event ApplicationInputAcceptance).
Context (queued_inputs : bool).
Context (controller : option (InboundMessage → prog unit controller_event (option (list OutboundMessage)))).
Context (coherent_session transforms : bool) (continuation : InputContinuationPreference).
Hypothesis adapter_contract : ∀ thread_ref input preference,
  keeps adapter_rule false (send_input thread_ref input preference) (λ _ _, True).
Hypothesis controller_contract : continuation = QUEUE → ∀ handle message,
  controller = Some handle →
  keeps controller_rule false (handle message) (λ r entered, entered = true → r ≠ Ok None).
Context (message : InboundMessage).
Abbreviation ck := (message_key message).
Abbreviation keeps_process := (keeps (S := unit) (process_rule ck)).

(** Operations of other owners leave the claim as it is. *)
Lemma keeps_ask {X} (q : question X) ph (Q : res X → phase → Prop) :
  (∀ r, Q r ph) → keeps_process ph (ask q) Q.
Proof. intros HQ r. apply HQ. Qed.

Lemma keeps_returns {A} (r : res A) ph (Q : res A → phase → Prop) :
  Q r ph → keeps_process ph (returns r) Q.
Proof. done. Qed.

(** What leaves the claim as it is and goes on in any case. *)
Definition inert {A} (p : prog unit process_event A) : Prop :=
  ∀ ph (Q : res A → phase → Prop), (∀ r, Q r ph) → keeps_process ph p Q.

Lemma inert_done {A} (r : res A) : inert (Done r).
Proof. intros ph Q HQ. apply HQ. Qed.
Lemma inert_ask {X} (q : question X) : inert (ask q).
Proof. intros ph Q HQ. by apply keeps_ask. Qed.
Lemma inert_bind {A B} (p : prog unit process_event A) (f : A → prog unit process_event B) :
  inert p → (∀ a, inert (f a)) → inert (p ≫= f).
Proof.
  intros Hp Hf ph Q HQ. apply keeps_bind; [auto with gateway|]. apply Hp. intros [a|e]; [|done]. by apply Hf.
Qed.
Lemma inert_try {A} (p : prog unit process_event A) : inert p → inert (try p).
Proof. intros Hp ph Q HQ. apply keeps_try; [auto with gateway|]. by apply Hp. Qed.

Lemma keeps_inert_bind {A B} (p : prog unit process_event A) (f : A → prog unit process_event B) ph Q :
  inert p → (∀ a, keeps_process ph (f a) Q) → (∀ e, Q (Err e) ph) → keeps_process ph (p ≫= f) Q.
Proof. intros Hp Hf He. apply keeps_bind; [auto with gateway|]. apply Hp. intros [a|e]; auto. Qed.

Lemma inert_any {A} (p : prog unit process_event A) ph : inert p → keeps_process ph p (λ _ _, True).
Proof. intros Hp. by apply Hp. Qed.

Ltac inert := repeat first
  [ apply inert_ask | apply inert_try | apply inert_done
  | apply inert_bind; [|intros ?] | case_match ].

Lemma inert_preflight application thread_ref prefix created_at :
  inert (preflight_authoritative_binding error_text float_repr applications application thread_ref
    prefix created_at).
Proof.
  unfold preflight_authoritative_binding, preflight_read, _execute_scoped_application, returns.
  unfold mret, prog_ret, mraise, prog_raise. inert.
Qed.

(** An adapter's state: once a plan was admitted under QUEUE, none is admitted again. *)
Definition adapter_inv (licensed : bool) (a : authorization) (ph : phase) : Prop :=
  (licensed = true → ph = Licensed) ∧
  (continuation = QUEUE → az_authorized_dispatch a = None → ph = Held).

Lemma authorize_keeps thread_ref generation client_message_id plan a ph (Post : res unit → bool → Prop) :
  (continuation = QUEUE → az_authorized_dispatch a = None → ph = Held) →
  Post (Ok ()) true → (∀ x, Post (Err x) false) →
  keeps_process ph
    (authorize_dispatch queued_inputs message thread_ref continuation generation client_message_id plan a)
    (λ out ph', match out with
      | Ok (r, a') => ∃ licensed, adapter_inv licensed a' ph' ∧ Post r licensed
      | Err x => ∃ licensed, adapter_inv licensed a ph' ∧ Post (Err x) licensed end).
Proof.
  intros Hph Hok Herr. unfold authorize_dispatch.
  destruct (decide (is_Some _)) as [|Hnone]; [cbn; by exists false|].
  apply eq_None_not_Some in Hnone. destruct plan as [dispatch|dispatch].
  - destruct (decide (continuation = QUEUE)); [cbn; by exists false|].
    apply keeps_inert_bind; [inert|intros [[]|x]|by exists false].
    + apply keeps_bind; [auto with gateway|]. apply keeps_try; [auto with gateway|]. cbn. split.
      * exists true. by repeat split.
      * intros x. exists false. by repeat split.
    + cbn. by exists false.
  - destruct (decide (continuation ≠ QUEUE ∨ queued_inputs = false)) as [|[Hq%dec_stable Hqi]%Decidable.not_or]; [cbn; by exists false|].
    destruct (queued_origin _ _ _ _ _) as [origin|x]; [|cbn; by exists false].
    apply keeps_bind; [auto with gateway|]. apply keeps_try; [auto with gateway|]. cbn. split; [by auto|]. split.
    + exists true. by repeat split.
    + intros x. split; exists false; by repeat split.
Qed.

Lemma adapter_keeps thread_ref generation client_message_id X (e : adapter_event X) licensed a ph Post :
  adapter_inv licensed a ph → adapter_rule X e licensed Post →
  keeps_process ph
    (adapter_handler queued_inputs message thread_ref continuation generation client_message_id X e a)
    (λ out ph', match out with
      | Ok (r, a') => ∃ licensed, adapter_inv licensed a' ph' ∧ Post r licensed
      | Err x => ∃ licensed, adapter_inv licensed a ph' ∧ Post (Err x) licensed end).
Proof.
  intros [Hl Hq] He. destruct e as [plan|label|label]; cbn in He.
  - destruct He. by apply authorize_keeps.
  - destruct He as [-> HPost]. apply keeps_bind; [auto with gateway|]. apply keeps_try; [auto with gateway|].
    cbn. split; [done|]. split; [by auto|]. intros r. exists false. split; [|done].
    split; [done|]. intros HQ Ha. rewrite (Hl eq_refl) in Hq. specialize (Hq HQ Ha). done.
  - apply keeps_inert_bind; [inert|intros r|]; [|intros x]; exists licensed; by repeat split.
Qed.

Lemma dispatch_keeps thread_ref content generation ph :
  (continuation = QUEUE → ph = Held) →
  keeps_process ph (dispatch send_input queued_inputs thread_ref message content continuation generation)
    (λ _ _, True).
Proof.
  intros Hph. unfold dispatch.
  apply keeps_inert_bind; [inert|intros client_message_id|done].
  apply keeps_inert_bind; [inert|intros _|done].
  apply keeps_bind; [auto with gateway|].
  eapply (keeps_interpret _ adapter_rule _ adapter_inv tt _ unauthorized false); [auto with gateway|..].
  - intros X e licensed a c Post. apply adapter_keeps.
  - intros sent licensed a ph' _ _. apply inert_any.
    unfold after_acceptance. unfold mret, prog_ret, mraise, prog_raise. inert.
  - split; [done|]. by auto.
  - apply adapter_contract.
Qed.

(** A Controller that is no further than its flag says. *)
Lemma controller_keeps X (e : controller_event X) entered l ph Post :
  (continuation = QUEUE → entered = false → ph = Held) → controller_rule X e entered Post →
  keeps_process ph (controller_handler message X e l) (λ out ph', match out with
    | Ok (r, _) => ∃ entered, (continuation = QUEUE → entered = false → ph' = Held) ∧ Post r entered
    | Err x => ∃ entered, (continuation = QUEUE → entered = false → ph' = Held) ∧ Post (Err x) entered end).
Proof.
  intros Hph He. destruct e as [invocation|label]; cbn in He.
  - unfold controller_handler, _enter_effectful_command.
    repeat case_match; try (exists true; by split).
    apply keeps_bind; [auto with gateway|]. apply keeps_try; [auto with gateway|]. cbn.
    split; [|intros x]; exists true; by split.
  - apply keeps_inert_bind; [inert|intros r|intros x]; exists entered; by split.
Qed.

Lemma controller_keeps_contract handle :
  controller = Some handle →
  keeps controller_rule false (handle message) (λ r entered, continuation = QUEUE → entered = true → r ≠ Ok None).
Proof.
  intros Hc. destruct (decide (continuation = QUEUE)) as [Hq|Hq].
  - eapply keeps_mono; [|by apply controller_contract|by auto].
    intros X e c P Q. destruct e; cbn; auto.
  - generalize false as entered. induction (handle message) as [r|X m k IH|X e k IH]; intros entered; cbn.
    + done.
    + intros r. apply IH.
    + destruct e; cbn; intros r; apply IH.
Qed.

Lemma inert_deliver_outputs outputs : inert (deliver_outputs message outputs).
Proof.
  induction outputs as [|output rest IH]; [apply inert_done|]. cbn [deliver_outputs].
  case_match; [apply inert_done|]. apply inert_bind; [inert|]. by intros _.
Qed.

Lemma unconsumed_keeps ph :
  (continuation = QUEUE → ph = Held) →
  keeps_process ph (process_unconsumed error_text float_repr applications send_input queued_inputs
    transforms continuation message) (λ _ _, True).
Proof.
  intros Hph. unfold process_unconsumed.
  apply keeps_inert_bind; [inert|intros binding|done].
  apply keeps_inert_bind; [|intros _|done].
  { unfold when_some, raise_if, returns, mret, prog_ret, mraise, prog_raise. inert. }
  destruct binding as [[c [a|] [p|] [t|] g ?]|]; try done.
  destruct (d_get _ _) as [application|]; [|done].
  apply keeps_inert_bind; [inert|intros prefix|done].
  apply keeps_inert_bind; [apply inert_preflight|intros _|done].
  apply keeps_inert_bind; [unfold mret, prog_ret; inert|intros content|done].
  apply keeps_inert_bind; [inert|intros _|done].
  apply keeps_inert_bind; [unfold mret, prog_ret; inert|intros _|done].
  apply keeps_bind; [auto with gateway|]. eapply keeps_mono; [auto with gateway|by apply dispatch_keeps|].
  intros [accepted|e] ph' _; [|done]. intros origin. apply inert_any.
  destruct origin as [[origin|]|]; unfold mret, prog_ret, mraise, prog_raise; inert.
Qed.

Lemma process_keeps token :
  keeps_process Held (_process_message error_text float_repr applications send_input queued_inputs
    controller coherent_session transforms continuation message token) (λ _ _, True).
Proof.
  unfold _process_message. apply keeps_inert_bind; [inert|intros _|done].
  apply keeps_bind; [auto with gateway|]. apply keeps_try; [auto with gateway|].
  eapply (keeps_mono _ (process_rule_mono ck) _ _ (λ _ _, True)); [|intros r ph _; by intros [[]|e]].
  destruct (_inbound_idempotency_identity _ _) as [scope key].
  assert (∀ ph, (continuation = QUEUE → ph = Held) → ∀ outputs : option (list OutboundMessage),
    keeps_process ph (match outputs with Some outputs => deliver_outputs message outputs
      | None => process_unconsumed error_text float_repr applications send_input queued_inputs
                  transforms continuation message end) (λ _ _, True)) as Hrest.
  { intros ph Hph [outputs|]; [by apply inert_any, inert_deliver_outputs|by apply unconsumed_keeps]. }
  apply keeps_bind; [auto with gateway|]. intros [[]|e]; [|done].
  pose proof controller_keeps_contract as Hck.
  destruct controller as [handle|]; [|by apply (Hrest Held (λ _, eq_refl) None)].
  destruct coherent_session; [|done].
  apply keeps_bind; [auto with gateway|]. apply keeps_bind; [auto with gateway|].
  eapply (keeps_interpret _ controller_rule _ (λ entered l ph, continuation = QUEUE → entered = false → ph = Held)
    tt _ false false _ (λ r entered, continuation = QUEUE → entered = true → r ≠ Ok None));
    [auto with gateway|intros; by eapply controller_keeps| |done|by apply Hck].
  intros [[outputs|]|e] entered l ph Hph HP; cbn; [by apply inert_any, inert_deliver_outputs| |done].
  apply unconsumed_keeps. intros Hq. destruct entered; [by destruct (HP Hq)|by apply Hph].
Qed.
End process.
