(* ===== verification/InboundTheorems.v ===== *)
(** The discipline of inbound claims: what the token of a claim allows, and why every
    task of the Gateway keeps to it. *)

From S2P Require Export InboundStores InboundProtocol.
From stdpp Require Import gmap.
From stdpp Require Import list.
#[local] Open Scope stdpp_scope.

Abbreviation claim_tokens := (gmap pystr (claim_key * phase)).
Abbreviation token t ck ph := ({[ t := (ck, ph) ]} : claim_tokens).

(** * The tokens of the memory *)

(** An open lease and an entry of the startup buffer hold the token of their claim. *)
Definition lease_claim (l : _InboundAdmissionLease) : option (pystr * (claim_key * phase)) :=
  if decide (ls_state l = LEASE_OPEN) then Some (ls_owner_token l, ((ls_scope l, ls_key l), Held)) else None.
Definition entry_claim (e : ClaimedInbound) : pystr * (claim_key * phase) :=
  (cl_owner_token e, ((cl_scope e, cl_key e), Held)).
Definition memory_claims (s : gateway_memory) : list (pystr * (claim_key * phase)) :=
  omap lease_claim (gm_leases s) ++ map entry_claim (sa_entries (gm_startup s)).
Definition memory_tokens (s : gateway_memory) : claim_tokens := list_to_map (memory_claims s).

(** A claim is one of the message it goes with. *)
Definition lease_valid (l : _InboundAdmissionLease) : Prop :=
  (ls_scope l, ls_key l) = _inbound_idempotency_identity (ls_conversation_ref l) (ls_message_id l).
Definition entry_valid (e : ClaimedInbound) : Prop := (cl_scope e, cl_key e) = message_key (cl_message e).
Definition memory_valid (s : gateway_memory) : Prop :=
  Forall lease_valid (gm_leases s) ∧ Forall entry_valid (sa_entries (gm_startup s)).
Definition memory_ok (s : gateway_memory) : Prop := NoDup (memory_claims s).*1 ∧ memory_valid s.

Lemma NoDup_sub {A} (l k : list A) : l ⊆+ k → NoDup k → NoDup l.
Proof. intros [l' ->]%submseteq_Permutation. by intros (? & _ & _)%NoDup_app. Qed.

(** A step that hands over claims, and drops some, between the task and the memory. *)
Lemma computes_claims {X} (m : M gateway_memory X) (own : list (pystr * (claim_key * phase))) Q :
  NoDup own.*1 →
  (∀ s, memory_valid s → memory_valid (m s).2 ∧
     ∃ own', own' ++ memory_claims (m s).2 ⊆+ own ++ memory_claims s ∧ Q (list_to_map own') (m s).1) →
  computes memory_tokens memory_ok (list_to_map own) m Q.
Proof.
  intros Hown Hm s [Hnd Hv] Hd. destruct (Hm s Hv) as (Hv' & own' & Hsub & HQ).
  assert (NoDup (own ++ memory_claims s).*1) as Hall.
  { rewrite fmap_app. apply NoDup_app. split_and!; [done| |done]. intros t Ht Ht'.
    apply list_elem_of_fmap in Ht as ((? & v) & -> & Ht). apply list_elem_of_fmap in Ht' as ((? & v') & ? & Ht').
    cbn in *. subst. apply elem_of_list_to_map in Ht, Ht'; [|done..].
    by eapply map_disjoint_spec in Hd. }
  assert (NoDup (own' ++ memory_claims (m s).2).*1) as Hall'.
  { eapply NoDup_sub; [|exact Hall]. by apply fmap_submseteq. }
  pose proof Hall' as Hsplit. rewrite fmap_app in Hsplit. apply NoDup_app in Hsplit as (Hn1 & Hdis & Hn2).
  split; [by split|]. exists (list_to_map own'). split_and!; [| |done].
  - apply map_disjoint_spec. intros t v v' H1 H2. apply elem_of_list_to_map_2 in H1, H2.
    eapply (Hdis t); apply list_elem_of_fmap; [by exists (t, v)|by exists (t, v')].
  - unfold memory_tokens. rewrite <- !list_to_map_app. apply map_subseteq_spec. intros t v Ht.
    apply elem_of_list_to_map_2 in Ht. apply elem_of_list_to_map; [done|]. by eapply elem_of_submseteq.
Qed.

Lemma omap_insert_submseteq {A B} (f : A → option B) (l : list A) i x :
  omap f (<[i := x]> l) ⊆+ option_list (f x) ++ omap f l.
Proof.
  revert i. induction l as [|y l IH]; intros [|i]; cbn; [apply submseteq_nil_l..| |].
  - destruct (f x), (f y); cbn; try done; [by apply submseteq_skip, submseteq_cons|by apply submseteq_cons].
  - specialize (IH i). destruct (f y); cbn; [|done].
    rewrite <- Permutation_middle. by apply submseteq_skip.
Qed.

Lemma lease_open_claim l : ls_state l = LEASE_OPEN → lease_claim l = Some (ls_owner_token l, ((ls_scope l, ls_key l), Held)).
Proof. intros Hl. unfold lease_claim. by rewrite decide_True. Qed.

(** A lease that is no longer open has no claim; the task has it. *)
Lemma take_lease_claims (ls : list _InboundAdmissionLease) id l state rest :
  ls !! id = Some l → ls_state l = LEASE_OPEN → state ≠ LEASE_OPEN →
  [(ls_owner_token l, ((ls_scope l, ls_key l), Held))] ++ omap lease_claim (<[id := set_lease_state state l]> ls) ++ rest
  ⊆+ omap lease_claim ls ++ rest.
Proof.
  intros Hid Ho Hs. rewrite (app_assoc [_]). apply submseteq_app; [|done].
  revert id Hid. induction ls as [|y ls IH]; intros [|id] Hid; cbn in *; [done|done| |].
  - injection Hid as ->. rewrite (lease_open_claim l Ho). unfold lease_claim; cbn. by rewrite decide_False.
  - specialize (IH id Hid). destruct (lease_claim y); [|done].
    etrans; [|apply submseteq_skip, IH]. cbn. by rewrite Permutation_swap.
Qed.

Lemma valid_insert id (l : _InboundAdmissionLease) state (s : gateway_memory) :
  memory_valid s → lease_valid l → memory_valid (with_lease id l state s).
Proof. intros [Hl He] Hv. split; [|done]. by apply Forall_insert. Qed.

Lemma valid_lookup (s : gateway_memory) id l : memory_valid s → gm_leases s !! id = Some l → lease_valid l.
Proof. intros [Hl _] Hid. by eapply Forall_lookup_1. Qed.

(** * The world *)

Section world.
Context {R : Type} `{HL : InboundStoreLaws R}.
Abbreviation world := (inbound_world R).
Definition world_record (w : world) : claim_key → option claim_record := in_record (iw_store w).

(** The tokens are given ones; a side effect that began is kept by its claim, which the
    task that began it holds no more as if it had not; and a native input is licensed. *)
Record world_ok (w : world) (m : claim_tokens) : Prop := {
  wk_given t v : m !! t = Some v → t ∈ iw_tokens w;
  wk_started ck t : (ck, t) ∈ iw_started w →
    t ∈ iw_tokens w ∧ effective (Some t) (world_record w ck) ∧ ∀ ck', m !! t ≠ Some (ck', Held);
  wk_once : NoDup (iw_started w).*1;
  wk_native ck : ck ∈ iw_native w → ck ∈ (iw_started w).*1;
  wk_native_once : NoDup (iw_native w);
  wk_licensed t ck : m !! t = Some (ck, Licensed) → (ck, t) ∈ iw_started w ∧ ck ∉ iw_native w;
}.

(** What others do to the store keeps the side effects that began. *)
Definition inbound_others (w w' : world) : Prop :=
  (∀ ck owner, effective owner (world_record w ck) → effective owner (world_record w' ck)) ∧
  iw_tokens w' = iw_tokens w ∧ iw_started w' = iw_started w ∧ iw_native w' = iw_native w.

Lemma world_ok_drop w m m' : world_ok w m → m' ⊆ m → world_ok w m'.
Proof.
  intros [Hg Hs Ho Hn Hno Hl] Hsub. split; try done.
  - intros t v Ht. by eapply Hg, lookup_weaken.
  - intros ck t Hct. destruct (Hs ck t Hct) as (? & ? & Hh). split_and!; [done..|].
    intros ck' Ht. by eapply (Hh ck'), lookup_weaken.
  - intros t ck Ht. by eapply Hl, lookup_weaken.
Qed.

(** A change of the store that keeps what began. *)
Lemma world_ok_keep w w' m :
  world_ok w m →
  (∀ ck t, (ck, t) ∈ iw_started w → effective (Some t) (world_record w ck) → effective (Some t) (world_record w' ck)) →
  iw_tokens w' = iw_tokens w → iw_started w' = iw_started w → iw_native w' = iw_native w → world_ok w' m.
Proof.
  intros [Hg Hs Ho Hn Hno Hl] Hr Ht Hst Hna. split; rewrite ?Ht, ?Hst, ?Hna; try done.
  intros ck t Hct. destruct (Hs ck t Hct) as (? & ? & ?). eauto.
Qed.

Lemma world_ok_others w w' m : world_ok w m → inbound_others w w' → world_ok w' m.
Proof. intros Hw (Hr & Ht & Hst & Hna). apply (world_ok_keep w); eauto. Qed.

(** The record of a claim moves, as long as it keeps what began. *)
Lemma world_ok_moved w m ck old new (x : R) :
  world_ok w m → record_moved in_record ck old new (iw_store w) x →
  (∀ t, (ck, t) ∈ iw_started w → effective (Some t) old → effective (Some t) new) →
  world_ok (Build_inbound_world x (iw_tokens w) (iw_started w) (iw_native w)) m.
Proof.
  intros Hw [Hold Hmoved] Hkeep. apply (world_ok_keep w); [done| |done..].
  intros ck' t Hst Heff. unfold world_record; cbn. rewrite Hmoved.
  destruct (decide (ck' = ck)) as [->|]; [|done]. apply Hkeep; [done|]. by rewrite <- Hold.
Qed.

Lemma world_ok_same w m (x : R) :
  world_ok w m → records_same in_record (iw_store w) x →
  world_ok (Build_inbound_world x (iw_tokens w) (iw_started w) (iw_native w)) m.
Proof.
  intros Hw Hsame. apply (world_ok_keep w); [done| |done..].
  intros ck t _. unfold world_record; cbn. by rewrite Hsame.
Qed.

(** ** Each operation, with the token of a claim *)

Abbreviation performs own e Q := (Programs.performs gateway_perform gateway_immediate world_ok own e Q).
Abbreviation follows own p Q :=
  (Programs.follows gateway_perform gateway_immediate memory_tokens memory_ok world_ok own p Q).

(** Operations after which the task has the same tokens. *)
Lemma performs_same {X : Type} (own : claim_tokens) (e : gateway_event X) (Q : claim_tokens → res X → Prop) :
  (∀ w r w' (rest : claim_tokens), own ##ₘ rest → world_ok w (own ∪ rest) → gateway_perform X e w r w' →
     world_ok w' (own ∪ rest)) →
  (∀ r, Q own r) → performs own e Q.
Proof.
  intros Hp HQ w r w' rest Hd Hw Ho. exists own. split; [done|]. split; [|done].
  destruct Ho as [Ho|(_ & _ & [->|[r0 Ho]])]; eauto.
Qed.

Lemma performs_claim (own : claim_tokens) (scope key t : pystr) (Q : claim_tokens → res IdempotencyClaimStatus → Prop) :
  (∀ r, Q own r) → performs own (ClaimInbound scope key t) Q.
Proof.
  apply performs_same. intros w r w' rest _ Hw [-> ->].
  pose proof (law_claim scope key (Some t) (iw_store w)) as Hlaw. unfold wp in Hlaw.
  destruct Hlaw as [[Hsame _]|(_ & old & Hold & Hmoved)]; [by apply world_ok_same|].
  eapply world_ok_moved; [done..|]. intros t' _ (st & Hst & ->). by destruct st.
Qed.

Lemma performs_refresh (own : claim_tokens) (scope key t : pystr) (Q : claim_tokens → res unit → Prop) :
  (∀ r, Q own r) → performs own (RefreshClaim scope key t) Q.
Proof.
  apply performs_same. intros w r w' rest _ Hw [-> ->]. apply world_ok_same; [done|].
  exact (law_refresh scope key (Some t) (iw_store w)).
Qed.

Lemma performs_complete (own : claim_tokens) (scope key t : pystr) (Q : claim_tokens → res unit → Prop) :
  (∀ r, Q own r) → performs own (CompleteClaim scope key t) Q.
Proof.
  apply performs_same. intros w r w' rest _ Hw [-> ->].
  destruct (law_complete scope key (Some t) (iw_store w)) as [Hsame|[st Hmoved]]; [by apply world_ok_same|].
  eapply world_ok_moved; [done..|]. intros t' _ (st' & Hst & [= -> ->]). by exists Completed.
Qed.

Lemma lookup_token_union (t : pystr) (v : claim_key * phase) (rest : claim_tokens) : ({[t := v]} ∪ rest) !! t = Some v.
Proof. by apply lookup_union_Some_l, lookup_singleton_eq. Qed.

(** A claim is released by the task that has not begun anything with it. *)
Lemma performs_release (scope key t : pystr) (ck : claim_key) (Q : claim_tokens → res unit → Prop) :
  (∀ r, Q (token t ck Held) r) → performs (token t ck Held) (ReleaseClaim scope key t) Q.
Proof.
  apply performs_same. intros w r w' rest _ Hw [-> ->].
  destruct (law_release scope key (Some t) (iw_store w)) as [Hsame|[st Hmoved]]; [by apply world_ok_same|].
  eapply world_ok_moved; [done..|]. intros t' Hst (st' & _ & [= -> ->]).
  destruct (wk_started _ _ Hw _ _ Hst) as (_ & _ & Hh). destruct (Hh ck).
  by rewrite lookup_token_union.
Qed.

Lemma performs_other {X : Type} (own : claim_tokens) (q : question X) (Q : claim_tokens → res X → Prop) :
  (∀ r, Q own r) → performs own (Other q) Q.
Proof. apply performs_same. by intros w r w' rest _ Hw ->. Qed.

(** A token never given before: the task has it for a claim of its choice. *)
Lemma performs_uuid4 (ck : claim_key) (Q : claim_tokens → res pystr → Prop) :
  (∀ t, Q (token t ck Held) (Ok t)) → performs ∅ Uuid4 Q.
Proof.
  intros HQ w r w' rest _ Hw Ho. destruct Ho as [(t & Ht & -> & ->)|[[=] _]].
  rewrite (left_id ∅ (∪)) in Hw.
  assert (rest !! t = None) as Hnone.
  { apply eq_None_not_Some. intros [v Hv]. by eapply Ht, wk_given. }
  exists (token t ck Held). split; [by apply map_disjoint_singleton_l|]. split; [|apply HQ].
  destruct Hw as [Hg Hs Ho Hn Hno Hl]. split; cbn; try done.
  - intros t' v. rewrite <- insert_union_singleton_l, lookup_insert_Some. intros [[<- _]|[_ Hv]]; [left|].
    right. by eapply Hg.
  - intros ck' t' Hst. destruct (Hs _ _ Hst) as (Hin & Heff & Hh). split; [by right|]. split; [done|].
    intros ck''. rewrite <- insert_union_singleton_l, lookup_insert_Some. naive_solver.
  - intros t' ck'. rewrite <- insert_union_singleton_l, lookup_insert_Some.
    intros [[_ [=]]|[_ Hv]]. by apply Hl.
Qed.

(** ** Beginning the side effect *)

(** The phase of a token changes. *)
Lemma lookup_rephase (t : pystr) (ck : claim_key) (ph : phase) (rest : claim_tokens) t0 v :
  (token t ck ph ∪ rest) !! t0 = Some v ↔ t0 = t ∧ v = (ck, ph) ∨ t0 ≠ t ∧ rest !! t0 = Some v.
Proof. rewrite <- insert_union_singleton_l, lookup_insert_Some. naive_solver. Qed.

Lemma disjoint_rephase (t : pystr) (ck : claim_key) (ph ph' : phase) (rest : claim_tokens) :
  token t ck ph ##ₘ rest → token t ck ph' ##ₘ rest.
Proof. by rewrite !map_disjoint_singleton_l. Qed.

(** The task knows less of its claim. *)
Lemma world_ok_entered (w : world) (t : pystr) (ck : claim_key) (ph : phase) (rest : claim_tokens) : world_ok w (token t ck ph ∪ rest) → world_ok w (token t ck Entered ∪ rest).
Proof.
  intros [Hg Hs Ho Hn Hno Hl]. split; try done.
  - intros t' v [[-> _]|[? Hv]]%lookup_rephase; [by eapply Hg, lookup_token_union|].
    eapply Hg, lookup_rephase. by right.
  - intros ck' t' Hst. destruct (Hs _ _ Hst) as (? & ? & Hh). split_and!; [done..|].
    intros ck'' [[_ [=]]|[? Hv]]%lookup_rephase. apply (Hh ck''), lookup_rephase. by right.
  - intros t' ck' [[_ [=]]|[? Hv]]%lookup_rephase. apply Hl, lookup_rephase. by right.
Qed.

(** A claim in flight begins its side effect. *)
Lemma world_ok_started (w : world) (t : pystr) (ck : claim_key) (ph : phase) (rest : claim_tokens) (x : R) :
  world_ok w (token t ck ph ∪ rest) → token t ck ph ##ₘ rest →
  record_moved in_record ck (Some (InFlight, Some t)) (Some (SideEffectStarted, Some t)) (iw_store w) x →
  world_ok (Build_inbound_world x (iw_tokens w) (iw_started w ++ [(ck, t)]) (iw_native w))
    (token t ck Licensed ∪ rest).
Proof.
  intros [Hg Hs Ho Hn Hno Hl] Hd [Hold Hmoved].
  assert (ck ∉ (iw_started w).*1) as Hnew.
  { intros ([? t'] & -> & Hst)%list_elem_of_fmap. destruct (Hs _ _ Hst) as (_ & (st & Hne & Heff) & _).
    unfold world_record in Heff; cbn in *. congruence. }
  split; cbn.
  - intros t' v [[-> _]|[? Hv]]%lookup_rephase; [by eapply Hg, lookup_token_union|].
    eapply Hg, lookup_rephase. by right.
  - intros ck' t' [Hst|[= -> ->]%list_elem_of_singleton]%elem_of_app.
    + destruct (Hs _ _ Hst) as (? & Heff & Hh). split_and!; [done| |].
      * unfold world_record; cbn. rewrite Hmoved. rewrite decide_False; [done|]. intros ->.
        apply Hnew, list_elem_of_fmap. by exists (ck, t').
      * intros ck'' [[_ [=]]|[? Hv]]%lookup_rephase. apply (Hh ck''), lookup_rephase. by right.
    + split_and!; [by eapply Hg, lookup_token_union| |].
      * unfold world_record; cbn. rewrite Hmoved, decide_True by done. by exists SideEffectStarted.
      * intros ck'' [[_ [=]]|[? _]]%lookup_rephase. done.
  - rewrite fmap_app. apply NoDup_app. split_and!; [done| |apply NoDup_singleton].
    intros ck' Hin ->%list_elem_of_singleton. done.
  - intros ck' Hna. rewrite fmap_app. apply elem_of_app. left. by apply Hn.
  - done.
  - intros t' ck' [[-> [= ->]]|[? Hv]]%lookup_rephase.
    + split; [apply elem_of_app; right; by left|]. intros Hna. by apply Hnew, Hn.
    + destruct (Hl t' ck') as [Hst Hna]; [apply lookup_rephase; by right|]. split; [|done].
      apply elem_of_app. by left.
Qed.

(** What a call that begins the side effect leaves: a license when it returns; a claim
    that may have begun when it is cancelled; the claim as it was when it is refused. *)
Lemma performs_starts (e : gateway_event unit) (t : pystr) (ck : claim_key) (ph : phase) (m : M R unit)
    (Q : claim_tokens → res unit → Prop) :
  (∀ w r w', gateway_perform unit e w r w' ↔ starts ck t m w r w') →
  (∀ x, wp m (λ r x', match r with
     | Ok _ => record_moved in_record ck (Some (InFlight, Some t)) (Some (SideEffectStarted, Some t)) x x'
     | Err _ => records_same in_record x x' end) x) →
  Q (token t ck Licensed) (Ok ()) →
  (∀ x, Q (token t ck Entered) (Err x) ∨ x ≠ CancelledError ∧ Q (token t ck ph) (Err x)) →
  performs (token t ck ph) e Q.
Proof.
  intros He Hm Hok Herr w r w' rest Hd Hw Ho.
  assert (∀ r w', gateway_perform unit e w r w' →
    r = Ok () ∧ world_ok w' (token t ck Licensed ∪ rest) ∨
    (∃ x, r = Err x) ∧ world_ok w' (token t ck ph ∪ rest)) as Hp.
  { intros r1 w1 [-> ->]%He. specialize (Hm (iw_store w)). unfold wp in Hm.
    destruct (m (iw_store w)) as [[[]|x] store']; cbn in *.
    - left. split; [done|]. by eapply world_ok_started.
    - right. split; [by eexists|]. by apply world_ok_same. }
  assert (∀ x, (∃ ph', (ph' = Entered ∨ ph' = ph ∧ x ≠ CancelledError) ∧ Q (token t ck ph') (Err x))) as Herr'.
  { intros x. destruct (Herr x) as [?|[? ?]]; eauto. }
  assert (world_ok w' (token t ck Entered ∪ rest) → Q (token t ck Entered) (Err CancelledError) →
    r = Err CancelledError → ∃ own', own' ##ₘ rest ∧ world_ok w' (own' ∪ rest) ∧ Q own' r) as Hcancel.
  { intros ? ? ->. exists (token t ck Entered). split; [by eapply disjoint_rephase|]. done. }
  destruct (Herr' CancelledError) as (phc & [->|[_ []]] & HQc); [|done].
  destruct Ho as [Ho|(_ & -> & [->|[r0 Ho]])].
  - destruct (Hp _ _ Ho) as [[-> Hw']|[[x ->] Hw']].
    + exists (token t ck Licensed). split; [by eapply disjoint_rephase|]. done.
    + destruct (Herr' x) as (ph' & Hph & HQ). exists (token t ck ph'). split; [by eapply disjoint_rephase|].
      split; [|done]. destruct Hph as [->|[-> _]]; [by eapply world_ok_entered|done].
  - apply Hcancel; [by eapply world_ok_entered|done..].
  - apply Hcancel; [|done..]. by destruct (Hp _ _ Ho) as [[_ Hw']|[_ Hw']]; eapply world_ok_entered.
Qed.

Lemma performs_mark_started (scope key t : pystr) (ph : phase) (Q : claim_tokens → res unit → Prop) :
  Q (token t (scope, key) Licensed) (Ok ()) → (∀ x, Q (token t (scope, key) Entered) (Err x)) →
  performs (token t (scope, key) ph) (MarkStarted scope key t) Q.
Proof.
  intros Hok Herr. eapply (performs_starts _ _ _ _ (in_mark_started scope key (Some t))); [done| |done|by left; auto].
  intros x. apply law_mark_started.
Qed.

Lemma performs_fence_queued (origin : QueuedInputOrigin) (scope key t : pystr) (ph : phase) (Q : claim_tokens → res unit → Prop) :
  Q (token t (scope, key) Licensed) (Ok ()) →
  (∀ x, Q (token t (scope, key) Entered) (Err x) ∨ x ≠ CancelledError ∧ Q (token t (scope, key) ph) (Err x)) →
  performs (token t (scope, key) ph) (FenceQueued origin scope key t) Q.
Proof.
  intros Hok Herr. eapply (performs_starts _ _ _ _ (in_fence_queued origin scope key t)); [done| |done|done].
  intros x. apply law_fence_queued.
Qed.

(** The native input is made under a license, once. *)
Lemma performs_send (t : pystr) (ck : claim_key) (label : pystr) (Q : claim_tokens → res pystr → Prop) :
  (∀ r, Q (token t ck Entered) r) → performs (token t ck Licensed) (SendNative ck label) Q.
Proof.
  intros HQ w r w' rest Hd Hw Ho. exists (token t ck Entered). split; [by eapply disjoint_rephase|].
  split; [|done].
  assert (world_ok w (token t ck Entered ∪ rest)) as Hw0 by by eapply world_ok_entered.
  assert (w' = w ∨ w' = Build_inbound_world (iw_store w) (iw_tokens w) (iw_started w) (iw_native w ++ [ck]))
    as [->| ->] by (destruct Ho as [->|(_ & _ & [->|[r0 ->]])]; auto); [done|].
  destruct (wk_licensed _ _ Hw t ck) as [Hst Hna]; [apply lookup_token_union|].
  assert (∀ t' ck', rest !! t' = Some (ck', Licensed) → t' ≠ t) as Hne.
  { intros t' ck' Hv ->. eapply map_disjoint_spec in Hd; [done|apply lookup_singleton_eq|exact Hv]. }
  destruct Hw0 as [Hg Hs Hon Hn Hno Hl]. split; cbn; try done.
  - intros ck' [Hin| ->%list_elem_of_singleton]%elem_of_app; [by apply Hn|].
    apply list_elem_of_fmap. by exists (ck, t).
  - apply NoDup_app. split_and!; [done| |apply NoDup_singleton]. by intros ck' Hin ->%list_elem_of_singleton.
  - intros t' ck' Ht'. destruct (Hl t' ck' Ht') as [Hst' Hna']. split; [done|].
    intros [?| ->%list_elem_of_singleton]%elem_of_app; [done|].
    apply lookup_rephase in Ht' as [[_ [=]]|[Hne' _]]. apply Hne'.
    enough ((ck, t') = (ck, t)) as [= ->] by done.
    f_equal. apply (elem_of_list_to_map (M := gmap claim_key)) in Hst, Hst'; congruence.
Qed.

(** A task may drop its tokens. *)
Lemma follows_dropped {A : Type} (own : claim_tokens) (p : gateway_prog A) :
  follows ∅ p (λ _ _, True) → follows own p (λ _ _, True).
Proof.
  intros Hp. eapply (follows_drop _ _ _ _ _ world_ok_drop); [exact Hp| |done]. apply map_empty_subseteq.
Qed.

(** * Each task *)

(** A program that leaves the task with the tokens it had, whatever comes. *)
Definition harmless {A : Type} (own : claim_tokens) (p : gateway_prog A) : Prop :=
  ∀ Q : claim_tokens → res A → Prop, (∀ r, Q own r) → follows own p Q.

Lemma follows_does {X : Type} (own : claim_tokens) (e : gateway_event X) Q : performs own e Q → follows own (does e) Q.
Proof. done. Qed.

Lemma harmless_done {A : Type} (own : claim_tokens) (r : res A) : harmless own (Done r).
Proof. intros Q HQ. apply HQ. Qed.
Lemma harmless_asks {X : Type} (own : claim_tokens) (q : question X) : harmless own (asks q).
Proof. intros Q HQ. by apply follows_does, performs_other. Qed.
Lemma harmless_complete (own : claim_tokens) claimed : harmless own (complete_claim claimed).
Proof. intros Q HQ. by apply follows_does, performs_complete. Qed.
Lemma harmless_release (scope key t : pystr) (ck : claim_key) : harmless (token t ck Held) (does (ReleaseClaim scope key t)).
Proof. intros Q HQ. by apply follows_does, performs_release. Qed.
Lemma harmless_release_claim claimed (ck : claim_key) :
  harmless (token (cl_owner_token claimed) ck Held) (release_claim claimed).
Proof. apply harmless_release. Qed.
Lemma harmless_bind {A B : Type} (own : claim_tokens) (p : gateway_prog A) (f : A → gateway_prog B) :
  harmless own p → (∀ a, harmless own (f a)) → harmless own (p ≫= f).
Proof. intros Hp Hf Q HQ. apply follows_bind, Hp. intros [a|e]; [|done]. by apply Hf. Qed.
Lemma harmless_try {A : Type} (own : claim_tokens) (p : gateway_prog A) : harmless own p → harmless own (try p).
Proof. intros Hp Q HQ. apply follows_try, Hp. auto. Qed.

Lemma harmless_follows {A : Type} (own : claim_tokens) (p : gateway_prog A) :
  harmless own p → follows own p (λ _ _, True).
Proof. intros Hp. by apply Hp. Qed.

(** A harmless program before another. *)
Lemma follows_after {A B : Type} (own : claim_tokens) (p : gateway_prog A) (f : A → gateway_prog B) Q :
  harmless own p → (∀ a, follows own (f a) Q) → (∀ e, Q own (Err e)) → follows own (p ≫= f) Q.
Proof. intros Hp Hf He. apply follows_bind, Hp. intros [a|e]; auto. Qed.

Ltac harmless := repeat first
  [ apply harmless_asks | apply harmless_complete | apply harmless_release_claim | apply harmless_release
  | apply harmless_try | apply harmless_done | apply harmless_bind; [|intros ?] | case_match ].

(** ** The handling of a claimed message *)

Section handle.
Context (claimed : ClaimedInbound) (coherent_session presents announces_unknown : bool).
Abbreviation ck := (cl_scope claimed, cl_key claimed).
Abbreviation t := (cl_owner_token claimed).

(** A claim is released when the fence was not entered. *)
Definition fence_inv (ph : phase) (f : InboundEffectFence) (own : claim_tokens) : Prop :=
  own = token t ck ph ∧ (ef_entered f = false → ph = Held).

Lemma settle_harmless r f ph :
  (ef_entered f = false → ph = Held) →
  harmless (token t ck ph) (settle_claim claimed presents announces_unknown r f).
Proof.
  intros Hph. assert (ef_entered f = true ∨ ph = Held) as Hcase by (destruct (ef_entered f); auto).
  unfold settle_claim, _present_failure, mret, prog_ret, mraise, prog_raise.
  destruct r as [[]|e]; [by harmless|].
  destruct Hcase as [Hf| ->]; [rewrite Hf; destruct e; by harmless|].
  destruct (ef_entered f), e; by harmless.
Qed.

Lemma fence_follows X (e : process_event X) ph f own (Post : res X → phase → Prop) :
  fence_inv ph f own → process_rule ck X e ph Post →
  follows own (fence_handler claimed coherent_session X e f) (λ own' out, match out with
    | Ok (r, f') => ∃ ph', fence_inv ph' f' own' ∧ Post r ph'
    | Err x => ∃ ph', fence_inv ph' f own' ∧ Post (Err x) ph' end).
Proof.
  intros [-> Hph] He. destruct e as [|origin| |X e]; cbn in He.
  - destruct He as [Hok Herr]. apply follows_bind, follows_try, follows_does, performs_mark_started; cbn.
    + exists Licensed. by split.
    + intros x. exists Entered. by split.
  - destruct He as (-> & Hok & Herr). cbn [fence_handler]. unfold queue_fence.
    destruct coherent_session; [|exists Held; split; [done|apply Herr]].
    destruct (validate_queued_input_origin origin) as [|x]; [|exists Held; split; [done|apply Herr]].
    apply follows_bind, follows_try, follows_does, performs_fence_queued; cbn.
    + exists Licensed. by split.
    + intros x. destruct (fence_rejected x) eqn:Hx.
      * right. split; [by intros ->|]. exists Held. split; [done|apply Herr].
      * left. exists Entered. split; [done|apply Herr].
  - by exists ph.
  - cbn [fence_handler]. destruct e; try done.
    + apply follows_bind, follows_try, follows_does, performs_refresh. cbn. intros r. exists ph. split; [by split|by apply He].
    + destruct He as (-> & -> & HPost).
      apply follows_bind, follows_try, follows_does, performs_send. cbn. intros r. exists Entered.
      split; [|done]. split; [done|]. intros Hf. by apply Hph in Hf.
    + apply follows_bind, follows_try, follows_does, performs_other. cbn. intros r. exists ph. split; [by split|by apply He].
Qed.

Lemma handle_follows (process : prog unit process_event unit) :
  keeps (process_rule ck) Held process (λ _ _, True) →
  follows (token t ck Held)
    (handle_claimed_inbound claimed coherent_session presents announces_unknown process) (λ _ _, True).
Proof.
  intros Hp. unfold handle_claimed_inbound. apply follows_bind.
  eapply (follows_interpret _ _ _ _ _ (process_rule ck) _ fence_inv tt process new_fence Held);
    [intros; by eapply fence_follows| |done|exact Hp].
  intros r ph f own' [-> Hph] _. by apply harmless_follows, settle_harmless.
Qed.
End handle.

(** ** The steps that hand claims over *)

Lemma follows_sync {X : Type} (own : claim_tokens) (m : M gateway_memory X) Q :
  computes memory_tokens memory_ok own m Q → follows own (sync m) Q.
Proof. done. Qed.

Lemma computes_none {X : Type} (m : M gateway_memory X) (Q : claim_tokens → res X → Prop) :
  (∀ s, memory_valid s → wp m (λ r s', memory_valid s' ∧
     ∃ own, own ++ memory_claims s' ⊆+ memory_claims s ∧ Q (list_to_map own) r) s) →
  computes memory_tokens memory_ok ∅ m Q.
Proof. apply (computes_claims m []). apply NoDup_nil_2. Qed.

Lemma computes_token {X : Type} (m : M gateway_memory X) (t : pystr) (ck : claim_key) (Q : claim_tokens → res X → Prop) :
  (∀ s, memory_valid s → wp m (λ r s', memory_valid s' ∧
     ∃ own, own ++ memory_claims s' ⊆+ (t, (ck, Held)) :: memory_claims s ∧ Q (list_to_map own) r) s) →
  computes memory_tokens memory_ok (token t ck Held) m Q.
Proof. apply (computes_claims m [(t, (ck, Held))]). apply NoDup_singleton. Qed.

(** A step that touches neither leases nor entries. *)
Definition keeps_claims {X} (m : M gateway_memory X) : Prop :=
  ∀ s, gm_leases (m s).2 = gm_leases s ∧ sa_entries (gm_startup (m s).2) = sa_entries (gm_startup s).

Lemma harmless_sync {X : Type} (own : claim_tokens) (m : M gateway_memory X) :
  keeps_claims m → harmless own (sync m).
Proof.
  intros Hm Q HQ. apply follows_sync. intros s [Hn Hv] Hd. destruct (Hm s) as [Hl He].
  assert (memory_claims (m s).2 = memory_claims s) as Hc by (unfold memory_claims; by rewrite Hl, He).
  unfold memory_ok, memory_valid, memory_tokens. rewrite Hl, He, Hc. split; [done|].
  exists own. split; [done|]. split; [done|]. apply HQ.
Qed.

Lemma memory_claims_append s e startup :
  sa_entries startup = sa_entries (gm_startup s) ++ [e] →
  memory_claims (set_startup startup s) ⊆+ entry_claim e :: memory_claims s.
Proof.
  intros He. unfold memory_claims; cbn. rewrite He, map_app, app_assoc. by rewrite Permutation_app_comm.
Qed.

Lemma handover_computes (claimed : ClaimedInbound) (Q : claim_tokens → res handover → Prop) :
  let own := token (cl_owner_token claimed) (cl_scope claimed, cl_key claimed) Held in
  entry_valid claimed →
  (∀ r, Q (match r with Ok (HandoverBuffered (Ok _)) => ∅ | _ => own end) r) →
  computes memory_tokens memory_ok own (decide_handover claimed) Q.
Proof.
  intros own Hv HQ. apply computes_token. intros s Hs.
  assert (∀ r s', memory_claims s' = memory_claims s → memory_valid s' →
    match r with Ok (HandoverBuffered (Ok _)) => False | _ => True end →
    memory_valid s' ∧ ∃ o, o ++ memory_claims s' ⊆+ entry_claim claimed :: memory_claims s
      ∧ Q (list_to_map o) r) as Hkeep.
  { intros r s' Hc Hv' Hr. split; [done|]. exists [entry_claim claimed]. rewrite Hc. split; [done|].
    specialize (HQ r). by destruct r as [[|[[]|]|]|]. }
  unfold decide_handover, on_startup, startup_admit, raise_if_overflowed. wp_run; try by apply Hkeep.
  destruct Hs as [Hl He]. split.
  - split; [done|]. apply Forall_app. split; [done|]. by apply Forall_singleton.
  - exists []. split; [by apply memory_claims_append|]. exact (HQ (Ok (HandoverBuffered (Ok _)))).
Qed.

(** A new open lease takes the claim of its task. *)
Lemma new_lease_computes (l : _InboundAdmissionLease) (Q : claim_tokens → res (option nat) → Prop) :
  ls_state l = LEASE_OPEN → lease_valid l → (∀ id, Q ∅ (Ok (Some id))) →
  computes memory_tokens memory_ok (token (ls_owner_token l) (ls_scope l, ls_key l) Held)
    (s ← get_st ; modify (set_leases (gm_leases s ++ [l])) ;; mret (Some (length (gm_leases s)))) Q.
Proof.
  intros Ho Hv HQ. apply computes_token. intros s [Hl He]. wp_run. split.
  - split; [|done]. apply Forall_app. split; [done|]. by apply Forall_singleton.
  - exists []. split; [|apply HQ]. unfold memory_claims; cbn. rewrite omap_app; cbn.
    rewrite (lease_open_claim l Ho), <- app_assoc. cbn. by rewrite <- Permutation_middle.
Qed.

(** A task takes the claim of an open lease. *)
Lemma take_lease_computes (id : nat) (next : lease_state) (Q : claim_tokens → res (option _InboundAdmissionLease) → Prop) :
  next ≠ LEASE_OPEN → Q ∅ (Ok None) →
  (∀ l, lease_valid l → Q (token (ls_owner_token l) (ls_scope l, ls_key l) Held) (Ok (Some l))) →
  computes memory_tokens memory_ok ∅ (take_lease id next) Q.
Proof.
  intros Hnext HNone HSome. apply computes_none. intros s Hs. unfold take_lease. wp_run.
  - match goal with H : gm_leases s !! id = Some ?x |- _ => rename x into l end.
    assert (lease_valid l) as Hv by by eapply valid_lookup.
    split; [by apply valid_insert|]. exists [(ls_owner_token l, ((ls_scope l, ls_key l), Held))].
    split; [by apply take_lease_claims|by apply HSome].
  - split; [done|]. by exists [].
  - split; [done|]. by exists [].
Qed.

Lemma take_for_delivery_computes (id : nat) (message : InboundMessage) (Q : claim_tokens → res (option _InboundAdmissionLease) → Prop) :
  Q ∅ (Ok None) → (∀ e, Q ∅ (Err e)) →
  (∀ l, lease_valid l → im_conversation_ref message = ls_conversation_ref l →
     im_message_id message = ls_message_id l →
     Q (token (ls_owner_token l) (ls_scope l, ls_key l) Held) (Ok (Some l))) →
  computes memory_tokens memory_ok ∅ (take_for_delivery id message) Q.
Proof.
  intros HNone HErr HSome. apply computes_none. intros s Hs.
  assert (∀ r, Q ∅ r → memory_valid s ∧ ∃ own, own ++ memory_claims s ⊆+ memory_claims s ∧ Q (list_to_map own) r)
    as Hkeep by (intros r Hr; split; [done|]; by exists []).
  unfold take_for_delivery. wp_run; try by apply Hkeep.
  match goal with H : gm_leases s !! id = Some ?x |- _ => rename x into l end.
  match goal with H : ¬ (_ ≠ _) |- _ => apply dec_stable in H end.
  match goal with H : ¬ (_ ∨ _) |- _ => apply Decidable.not_or in H as [Hc%dec_stable Hm%dec_stable] end.
  assert (lease_valid l) as Hv by by eapply valid_lookup.
  split; [by apply valid_insert|]. exists [(ls_owner_token l, ((ls_scope l, ls_key l), Held))].
  split; [by apply take_lease_claims|by apply HSome].
Qed.

(** A lease that is open again has its claim back; of one that is not, the task may keep
    the claim. *)
Lemma put_lease_computes (id : nat) (l : _InboundAdmissionLease) (state : lease_state)
    (Q : claim_tokens → res unit → Prop) (keep : bool) :
  lease_valid l → (keep = true → state ≠ LEASE_OPEN) →
  Q (if keep then token (ls_owner_token l) (ls_scope l, ls_key l) Held else ∅) (Ok ()) →
  computes memory_tokens memory_ok (token (ls_owner_token l) (ls_scope l, ls_key l) Held)
    (modify (with_lease id l state)) Q.
Proof.
  intros Hv Hkeep HQ. apply computes_token. intros s Hs. wp_run. split; [by apply valid_insert|].
  set (claim := (ls_owner_token l, ((ls_scope l, ls_key l), Held))).
  pose proof (omap_insert_submseteq lease_claim (gm_leases s) id (set_lease_state state l)) as Hsub.
  assert (option_list (lease_claim (set_lease_state state l)) ⊆+ if keep then [] else [claim]) as Hcl.
  { unfold lease_claim; cbn. destruct keep; [by rewrite decide_False by auto|].
    case_decide; cbn; [done|apply submseteq_nil_l]. }
  exists (if keep then [claim] else []). split; [|by destruct keep].
  unfold memory_claims; cbn. rewrite app_assoc, app_comm_cons. apply submseteq_app; [|done].
  etrans; [apply submseteq_app; [reflexivity|exact Hsub]|]. rewrite app_assoc.
  apply (submseteq_app _ [claim]); [|done]. destruct keep; cbn; [by apply submseteq_skip|done].
Qed.

(** The first entry of the startup buffer goes to the task. *)
Lemma popleft_computes (stop : gateway_memory → M gateway_memory (option ClaimedInbound))
    (Q : claim_tokens → res (option ClaimedInbound) → Prop) :
  (∀ s, wp (stop s) (λ r s', r = Ok None ∧ gm_leases s' = gm_leases s ∧
     sa_entries (gm_startup s') = sa_entries (gm_startup s)) s) →
  Q ∅ (Ok None) →
  (∀ e, entry_valid e → Q (token (cl_owner_token e) (cl_scope e, cl_key e) Held) (Ok (Some e))) →
  computes memory_tokens memory_ok ∅
    (s ← get_st ; if decide (sa_entries (gm_startup s) = []) then stop s
                  else entry ← on_startup startup_popleft ; mret (Some entry)) Q.
Proof.
  intros Hstop HNone HSome. apply computes_none. intros s [Hl He].
  apply wp_bind, wp_get. destruct (decide _) as [Hnil|Hne].
  - eapply wp_mono; [apply Hstop|]. intros r s' (-> & Hl' & He'). unfold memory_valid, memory_claims.
    rewrite Hl', He'. split; [done|]. by exists [].
  - unfold on_startup, startup_popleft. wp_run; [done|].
    match goal with H : sa_entries _ = ?e :: ?l |- _ => rename e into entry, l into rest; rename H into Heq end.
    apply Forall_cons in He as [He Hrest].
    split; [by split|]. exists [entry_claim entry]. split; [|by apply HSome].
    unfold memory_claims; cbn. rewrite Heq; cbn. by rewrite Permutation_middle.
Qed.

(** Entries are dropped. *)
Lemma drop_entries_harmless (f : gateway_memory → gateway_memory) :
  (∀ s, gm_leases (f s) = gm_leases s ∧ sa_entries (gm_startup (f s)) = []) → harmless ∅ (sync (modify f)).
Proof.
  intros Hf Q HQ. apply follows_sync, computes_none. intros s [Hl He]. wp_run. destruct (Hf s) as [Hl' He'].
  unfold memory_valid, memory_claims. rewrite Hl', He'. split; [done|]. exists []. split; [|apply HQ].
  cbn. rewrite app_nil_r. by apply submseteq_inserts_r.
Qed.

(** ** The entries *)

Section gateway.
Context (coherent_session presents announces_unknown : bool).
Context (process : ClaimedInbound → prog unit process_event unit).
Hypothesis process_ok : ∀ claimed, entry_valid claimed →
  keeps (process_rule (cl_scope claimed, cl_key claimed)) Held (process claimed) (λ _ _, True).

Lemma handled_follows (claimed : ClaimedInbound) :
  entry_valid claimed →
  follows (token (cl_owner_token claimed) (cl_scope claimed, cl_key claimed) Held)
    (_handle_claimed_message coherent_session presents announces_unknown process claimed) (λ _ _, True).
Proof. intros Hv. by apply handle_follows, process_ok. Qed.

Lemma entry_follows (claimed : ClaimedInbound) :
  entry_valid claimed →
  follows (token (cl_owner_token claimed) (cl_scope claimed, cl_key claimed) Held)
    (_handle_claimed_message_entry coherent_session presents announces_unknown process claimed) (λ _ _, True).
Proof.
  intros Hv. unfold _handle_claimed_message_entry. apply follows_bind, follows_sync, handover_computes; [done|].
  intros [[|[[]|e]|]|e]; [|done| |by apply handled_follows|done].
  - apply harmless_follows, harmless_release.
  - apply harmless_follows. unfold mraise, prog_raise. harmless.
Qed.

Lemma release_harmless (id : nat) : harmless ∅ (lease_release id).
Proof.
  intros Q HQ. unfold lease_release.
  apply follows_bind, follows_sync, take_lease_computes; [done|apply HQ|]. intros l Hv.
  apply follows_bind, follows_try, follows_does, performs_release. intros [[]|e].
  - by apply follows_sync, (put_lease_computes _ _ _ _ false).
  - by apply follows_bind, follows_sync, (put_lease_computes _ _ _ _ false); [..|apply HQ].
Qed.

Lemma deliver_follows (id : nat) message :
  follows ∅ (lease_deliver coherent_session presents announces_unknown process id message) (λ _ _, True).
Proof.
  unfold lease_deliver. apply follows_bind, follows_sync, take_for_delivery_computes; [|done|].
  - apply harmless_follows, harmless_bind; [apply release_harmless|]. intros _. apply harmless_done.
  - intros l Hv Hc Hm. apply follows_bind, follows_try, follows_does, performs_refresh. intros [[]|e].
    + apply follows_bind, follows_sync, (put_lease_computes _ _ _ _ true); [done..|].
      apply (entry_follows {| cl_message := message; cl_scope := ls_scope l; cl_key := ls_key l;
        cl_owner_token := ls_owner_token l |}).
      unfold entry_valid, message_key; cbn. by rewrite Hc, Hm.
    + apply follows_bind, follows_sync, (put_lease_computes _ _ _ _ true); [done..|].
      apply harmless_follows. unfold mraise, prog_raise. harmless.
Qed.

Lemma admission_follows channel_instance_id conversation_ref message_id :
  follows ∅ (admission_begin channel_instance_id conversation_ref message_id) (λ _ _, True).
Proof.
  unfold admission_begin. apply follows_after; [|intros []|done].
  { unfold raise_if, mret, prog_ret, mraise, prog_raise. harmless. }
  destruct (_inbound_idempotency_identity conversation_ref message_id) as [scope key] eqn:Hid.
  apply follows_bind, follows_does, (performs_uuid4 (scope, key)). intros t.
  apply follows_bind, follows_does, performs_claim. intros [claim|e]; [|done].
  case_match; [done|]. apply follows_sync.
  by apply (new_lease_computes {| ls_conversation_ref := conversation_ref; ls_message_id := message_id;
    ls_scope := scope; ls_key := key; ls_owner_token := t; ls_state := LEASE_OPEN |}).
Qed.

Lemma accepting_claims : keeps_claims (gets gm_accepting_inbound).
Proof. done. Qed.

(** A program before one that needs no tokens. *)
Lemma follows_then {A B : Type} (own : claim_tokens) (p : gateway_prog A) (f : A → gateway_prog B) :
  follows own p (λ _ _, True) → (∀ a, follows ∅ (f a) (λ _ _, True)) → follows own (p ≫= f) (λ _ _, True).
Proof.
  intros Hp Hf. apply follows_bind. eapply follows_mono; [exact Hp|].
  intros own' [a|e] _; [|done]. by apply follows_dropped.
Qed.

Lemma begin_follows channel_instance_id conversation_ref message_id :
  follows ∅ (_begin_inbound channel_instance_id conversation_ref message_id) (λ _ _, True).
Proof.
  unfold _begin_inbound. apply follows_after; [by apply harmless_sync| |done]. intros [|]; [|done].
  apply follows_then; [apply admission_follows|]. intros [id|]; [|done].
  apply follows_after; [by apply harmless_sync| |done]. intros [|]; [done|].
  by apply follows_after; [apply release_harmless|..].
Qed.

Lemma message_follows message :
  follows ∅ (_handle_message_entry coherent_session presents announces_unknown process message) (λ _ _, True).
Proof.
  unfold _handle_message_entry. apply follows_after; [by apply harmless_sync| |done].
  intros [|]; [|done]. apply follows_then; [apply begin_follows|].
  intros [id|]; [apply deliver_follows|done].
Qed.

Lemma overflowed_claims : keeps_claims (on_startup raise_if_overflowed).
Proof.
  intros s. enough (wp (on_startup raise_if_overflowed) (λ _ s', gm_leases s' = gm_leases s ∧
    sa_entries (gm_startup s') = sa_entries (gm_startup s)) s) as H0 by exact H0.
  unfold on_startup, raise_if_overflowed. by wp_run.
Qed.

Lemma drain_follows n :
  follows ∅ (drain_startup coherent_session presents announces_unknown process n) (λ _ _, True).
Proof.
  induction n as [|n IH]; [done|]. cbn [drain_startup].
  apply follows_bind, follows_sync, popleft_computes; [by intros s; wp_run|done|].
  intros e He. apply follows_then; [by apply handled_follows|]. intros _.
  apply follows_after; [apply harmless_sync, overflowed_claims|by intros _|done].
Qed.

Lemma rollback_follows n : follows ∅ (rollback_startup n) (λ _ _, True).
Proof.
  induction n as [|n IH]; [done|]. cbn [rollback_startup].
  apply follows_bind, follows_sync, popleft_computes; [by intros s; wp_run|done|].
  intros e He. apply follows_then; [|by intros _]. apply harmless_follows, harmless_try, harmless_release.
Qed.

Lemma start_follows preparations n :
  follows ∅ (start_inbound coherent_session presents announces_unknown process preparations n) (λ _ _, True).
Proof.
  unfold start_inbound. apply follows_after; [by apply drop_entries_harmless|intros _|done].
  apply follows_then.
  - apply follows_try. apply follows_after; [|intros _|done].
    { unfold mret, prog_ret. harmless. }
    apply follows_after; [by apply harmless_sync|intros _|done].
    apply follows_after; [apply harmless_asks|intros _|done].
    apply follows_after; [apply harmless_sync, overflowed_claims|intros _; apply drain_follows|done].
  - intros [[]|e]; [done|]. apply follows_after; [by apply harmless_sync|intros _|done].
    apply follows_then; [apply rollback_follows|intros _].
    apply follows_after; [by apply drop_entries_harmless|done|done].
Qed.

Lemma gateway_entry_follows p :
  gateway_entry coherent_session presents announces_unknown process p → follows ∅ p (λ _ _, True).
Proof.
  intros [preparations n| |message|channel conversation_ref message_id|id message|id].
  - apply start_follows.
  - by apply harmless_follows, harmless_sync.
  - apply message_follows.
  - by apply follows_then; [apply begin_follows|].
  - apply deliver_follows.
  - apply harmless_follows, release_harmless.
Qed.

Lemma gateway_boot_ok s : gateway_boot s → memory_ok s ∧ memory_tokens s = ∅.
Proof.
  intros (m & a & Ha & ->). unfold new_startup_admission in Ha. inv_ok. subst. cbn.
  split; [|done]. split; [apply NoDup_nil_2|by split].
Qed.

(** Every run keeps the world sound. *)
Lemma gateway_world_ok s (w : world) p :
  gateway_boot s → world_ok w ∅ →
  rtc (loop_step gateway_perform gateway_immediate inbound_others
        (gateway_entry coherent_session presents announces_unknown process) gateway_boot)
    {| lp_memory := s; lp_world := w; lp_tasks := [] |} p →
  ∃ m, world_ok (lp_world p) m.
Proof.
  intros Hs Hw Hsteps.
  destruct (loop_disciplined gateway_perform gateway_immediate inbound_others _ gateway_boot
    memory_tokens memory_ok world_ok world_ok_drop world_ok_others gateway_entry_follows gateway_boot_ok
    s w p Hs Hw Hsteps) as (_ & hold & _ & Hok & _). eauto.
Qed.
End gateway.
End world.
