(* ===== verification/InboundProperties.v ===== *)
(** What the Gateway guarantees of inbound messages: in every run an effect is begun
    and the native input made at most once for a message; a claim that was handled
    is completed, given back, or may have begun. *)

From S2P Require Export InboundTheorems.
From stdpp Require Import gmap.
From stdpp Require Import list.
#[local] Open Scope stdpp_scope.

(** * A Gateway *)

(** What a Gateway is composed of, as far as inbound messages go. *)
Record composition := {
  co_error_text : exn → pystr;
  co_float_repr : Qcanon.Qc → pystr;
  co_applications : dict pystr ApplicationRef;
  co_send_input : ThreadRef → AgentInput → InputContinuationPreference →
    prog unit adapter_event ApplicationInputAcceptance;
  co_queued_inputs : bool;
  co_controller : option (InboundMessage → prog unit controller_event (option (list OutboundMessage)));
  co_coherent_session : bool;
  co_transforms : bool;
  co_continuation : InputContinuationPreference;
  co_presents : bool;
  co_announces_unknown : bool;
}.

Definition co_process (c : composition) (claimed : ClaimedInbound) : prog unit process_event unit :=
  _process_message (co_error_text c) (co_float_repr c) (co_applications c) (co_send_input c)
    (co_queued_inputs c) (co_controller c) (co_coherent_session c) (co_transforms c) (co_continuation c)
    (cl_message claimed) (cl_owner_token claimed).
Definition co_entry (c : composition) : gateway_prog unit → Prop :=
  gateway_entry (co_coherent_session c) (co_presents c) (co_announces_unknown c) (co_process c).

(** The contract of an adapter, and of a Controller where inputs are queued: one that
    has entered the fence of a command does not leave the message to others. *)
Definition adapter_contract (c : composition) : Prop := ∀ thread_ref input preference,
  keeps adapter_rule false (co_send_input c thread_ref input preference) (λ _ _, True).
Definition controller_contract (c : composition) : Prop := co_continuation c = QUEUE →
  ∀ handle message, co_controller c = Some handle →
  keeps controller_rule false (handle message) (λ r entered, entered = true → r ≠ Ok None).

Section runs.
Context {R : Type} `{HL : InboundStoreLaws R} (c : composition).

(** The runs of a Gateway from a new process, with others at its store. *)
Definition gateway_runs (s : gateway_memory) (w : inbound_world R) (p : loop) : Prop :=
  rtc (loop_step gateway_perform gateway_immediate inbound_others (co_entry c) gateway_boot)
    {| lp_memory := s; lp_world := w; lp_tasks := [] |} p.

Definition new_world (store : R) : inbound_world R := Build_inbound_world store [] [] [].

End runs.

(** * Settlement *)

(** What is known of a claim in the task that handles it. *)
Inductive settlement : Type := StillHeld | MayHaveBegun | Settled.

(** A call that settles the claim is followed when it succeeds; a fence of queued input
    that is rejected leaves the claim as it was. *)
Definition settlement_rule (X : Type) (e : gateway_event X) (st : settlement)
    : (res X → settlement → Prop) → Prop :=
  match e with
  | CompleteClaim _ _ _ | ReleaseClaim _ _ _ => λ Post, Post (Ok ()) Settled
  | MarkStarted _ _ _ => λ Post, ∀ r, Post r (if st is Settled then Settled else MayHaveBegun)
  | FenceQueued _ _ _ _ => λ Post, ∀ r,
      Post r (match r with
              | Err e => if fence_rejected e then st else if st is Settled then Settled else MayHaveBegun
              | Ok _ => if st is Settled then Settled else MayHaveBegun
              end)
  | _ => λ Post, ∀ r, Post r st
  end.

Lemma settlement_rule_mono : monotone_rule settlement_rule.
Proof. intros X e st P Q. destruct e; cbn; auto. Qed.
#[local] Hint Resolve settlement_rule_mono : gateway.

(** What a process tells with [ApplicationInputOutcomeUnknown]: how far the fence it
    was handed is entered. *)
Definition entering_rule (X : Type) (e : process_event X) (entered : bool)
    : (res X → bool → Prop) → Prop :=
  match e with
  | EnterFence => λ Post, ∀ r, Post r true
  | EnterQueueFence _ => λ Post, Post (Ok ()) true ∧
      ∀ e, Post (Err e) entered ∧ Post (Err e) (negb (fence_rejected e))
  | _ => λ Post, ∀ r, Post r entered
  end.

(** An outcome is unknown only once the fence was entered. *)
Definition unknown_after_entry {A} (r : res A) (entered : bool) : Prop :=
  ∀ cause, r = Err (ApplicationInputOutcomeUnknown cause) → entered = true.

Section settlement.
Context (claimed : ClaimedInbound) (coherent_session presents announces_unknown : bool).
Abbreviation settles := (keeps (S := gateway_memory) settlement_rule).

(** A claim that is no longer held. *)
Definition not_held {A} (r : res A) (st : settlement) : Prop := st ≠ StillHeld.
Definition fence_knows (entered : bool) (f : InboundEffectFence) (st : settlement) : Prop :=
  entered = ef_entered f ∧ (ef_entered f = true → st ≠ StillHeld).

(** Programs that change nothing of a claim. *)
Definition indifferent {A} (p : gateway_prog A) : Prop :=
  ∀ st (Q : res A → settlement → Prop), (∀ r, Q r st) → settles st p Q.

Lemma indifferent_asks {X} (q : question X) : indifferent (asks q).
Proof. intros st Q HQ r. apply HQ. Qed.
Lemma indifferent_done {A} (r : res A) : indifferent (Done r).
Proof. intros st Q HQ. apply HQ. Qed.
Lemma indifferent_bind {A B} (p : gateway_prog A) (f : A → gateway_prog B) :
  indifferent p → (∀ a, indifferent (f a)) → indifferent (p ≫= f).
Proof.
  intros Hp Hf st Q HQ. apply keeps_bind; [auto with gateway|]. apply Hp. intros [a|e]; [|done]. by apply Hf.
Qed.
Lemma indifferent_not_held {A} (p : gateway_prog A) st :
  indifferent p → st ≠ StillHeld → settles st p not_held.
Proof. intros Hp Hst. by apply Hp. Qed.

Ltac indifferent := repeat first
  [ apply indifferent_asks | apply indifferent_done | apply indifferent_bind; [|intros ?] | case_match ].

(** A claim that is settled at last. *)
Lemma settles_complete {A} st (f : unit → gateway_prog A) :
  (∀ u, indifferent (f u)) → settles st (complete_claim claimed ≫= f) not_held.
Proof. intros Hf. apply keeps_bind; [auto with gateway|]. by apply indifferent_not_held. Qed.
Lemma settles_release {A} st (f : unit → gateway_prog A) :
  (∀ u, indifferent (f u)) → settles st (release_claim claimed ≫= f) not_held.
Proof. intros Hf. apply keeps_bind; [auto with gateway|]. by apply indifferent_not_held. Qed.

Lemma settle_settles r f st :
  (ef_entered f = true → st ≠ StillHeld) → unknown_after_entry r (ef_entered f) →
  settles st (settle_claim claimed presents announces_unknown r f) not_held.
Proof.
  intros Hf Hr. unfold settle_claim, _present_failure, mraise, prog_raise, mret, prog_ret.
  destruct r as [[]|e]; [done|].
  assert (∀ p : gateway_prog unit, ef_entered f = true → indifferent p → settles st p not_held) as Hin.
  { intros p He Hp. by apply indifferent_not_held, Hf. }
  destruct e; try (apply settles_complete; intros ?; by indifferent).
  all: try (apply Hin; [by eapply Hr|]; by indifferent).
  all: destruct (ef_entered f) eqn:He.
  all: try (apply Hin; [done|]; by indifferent).
  all: try (case_match; [apply settles_complete|apply settles_release]; intros ?; by indifferent).
  all: apply settles_release; intros ?; by indifferent.
Qed.

Lemma fence_settles X (e : process_event X) entered f st (Post : res X → bool → Prop) :
  fence_knows entered f st → entering_rule X e entered Post →
  settles st (fence_handler claimed coherent_session X e f) (λ out st', match out with
    | Ok (r, f') => ∃ entered', fence_knows entered' f' st' ∧ Post r entered'
    | Err x => ∃ entered', fence_knows entered' f st' ∧ Post (Err x) entered' end).
Proof.
  intros [-> Hf] He. destruct e as [|origin| |X e]; cbn in He.
  - intros r. cbn. exists true. split; [|apply He]. split; [done|]. by destruct st.
  - destruct He as [Hok Herr]. cbn [fence_handler]. unfold queue_fence.
    destruct coherent_session; [|exists (ef_entered f); split; [by split|apply Herr]].
    destruct (validate_queued_input_origin origin) as [|x]; [|exists (ef_entered f); split; [by split|apply Herr]].
    intros [[]|e]; cbn.
    + exists true. split; [|done]. split; [done|]. by destruct st.
    + destruct (fence_rejected e) eqn:Hrej; cbn.
      * exists false. split; [by split|]. specialize (Herr e) as [_ Herr]. by rewrite Hrej in Herr.
      * exists true. split; [|specialize (Herr e) as [_ Herr]; by rewrite Hrej in Herr].
        split; [done|]. by destruct st.
  - exists (ef_entered f). split; [by split|apply He].
  - cbn [fence_handler]. destruct e; cbn; try intros r; exists (ef_entered f); (split; [|apply He]);
      (split; [done|]); intros Hen; specialize (Hf Hen); repeat case_match; done.
Qed.

End settlement.
