(* ===== verification/InboundExamples.v ===== *)
(** Concrete Gateways and runs of them: a message whose native input is made, the
    theorems on inbound messages applied, and a run in which a command takes effect
    twice, because a rejected fence of queued input is taken to mean that nothing had
    begun. *)

From S2P Require Export InboundProperties.
From S2P Require StoreExamples.
From stdpp Require Import list.
#[local] Open Scope Z_scope.
#[local] Open Scope stdpp_scope.

Module Inbound.
Import StoreExamples.Examples.

Definition app : ApplicationRef := {| ar_application_instance_id := py "app" |}.
Definition message : InboundMessage := {|
  im_message_id := py "m1"; im_conversation_ref := example_conversation; im_sender := py "alice";
  im_content := [TextContent (py "hello") PLAIN]; im_created_at := Aware 0; im_reply_to := None;
  im_metadata := [] |}.
Definition binding : ConversationBinding := {|
  cb_conversation_ref := example_conversation; cb_application_ref := Some app;
  cb_project_ref := Some (th_project_ref example_thread); cb_thread_ref := Some example_thread;
  cb_generation := 1; cb_updated_at := Some (Aware 0) |}.
Definition client_message_id : pystr :=
  Eval vm_compute in default [] (match derive_client_message_id example_conversation (py "m1") with
    | Ok id => Some id | Err _ => None end).

(** What the other owners answer. *)
Definition question_answer (X : Type) (q : question X) : res X :=
  match q with
  | CurrentBinding _ => Ok (Some binding)
  | ExecuteApplication op =>
      match ao_request op with
      | GetProject p => Ok (ApplicationOperationSucceeded (ao_operation_id op) (Aware 0) (ProjectRead {|
          ps_ref := p; ps_display_name := py "P"; ps_root_path := None; ps_repo_url := None;
          ps_workspace_root_fingerprint := None |}))
      | GetThread t => Ok (ApplicationOperationSucceeded (ao_operation_id op) (Aware 0) (ThreadRead {|
          ts_ref := t; ts_status := TS_IDLE; ts_title := None; ts_updated_at := None |}))
      | _ => Err NotImplementedError
      end
  | UtcNow => Ok (Aware 0)
  | TransformContent m => Ok (im_content m)
  | PresentFailure _ => Err RuntimeError
  | Ask _ => Ok []
  | HoldConversation _ | LeaveConversation _ | PrepareInputRoute _ _ | EnsureObserving _
  | BeginAcceptance _ | FinishAcceptance _ | AuthorizeInputDispatch _ _ _
  | CorrelateAcceptedTurn _ _ _ _ _ _ | AcceptQueued _ _ | NotifyAdmission _ | DeliverOutbound _ => Ok ()
  end.

(** A token longer than all that were given. *)
Definition new_token (tokens : list pystr) : pystr := repeat 97%N (S (sum_list (length <$> tokens))).
Lemma new_token_fresh tokens : new_token tokens ∉ tokens.
Proof.
  intros Hin. enough (length (new_token tokens) ≤ sum_list (length <$> tokens))%nat as Hl.
  { unfold new_token in Hl. rewrite repeat_length in Hl. lia. }
  clear -Hin. induction Hin as [t l|t u l Hin IH]; cbn; lia.
Qed.

Section answers.
Context {R : Type} `{InboundStore R}.
Abbreviation world := (inbound_world R).

Definition answer (X : Type) (e : gateway_event X) : world → res X * world :=
  let call {A} (m : M R A) (w : world) :=
    ((m (iw_store w)).1,
     Build_inbound_world (m (iw_store w)).2 (iw_tokens w) (iw_started w) (iw_native w)) in
  let start claim token (m : M R unit) (w : world) :=
    ((m (iw_store w)).1,
     Build_inbound_world (m (iw_store w)).2 (iw_tokens w)
       (if is_ok (m (iw_store w)).1 then iw_started w ++ [(claim, token)] else iw_started w) (iw_native w)) in
  match e with
  | ClaimInbound scope key token => call (in_claim scope key (Some token))
  | RefreshClaim scope key token => call (in_refresh scope key (Some token))
  | ReleaseClaim scope key token => call (in_release scope key (Some token))
  | CompleteClaim scope key token => call (in_complete scope key (Some token))
  | MarkStarted scope key token => start (scope, key) token (in_mark_started scope key (Some token))
  | FenceQueued origin scope key token => start (scope, key) token (in_fence_queued origin scope key token)
  | Uuid4 => λ w,
      let token := new_token (iw_tokens w) in
      (Ok token, Build_inbound_world (iw_store w) (token :: iw_tokens w) (iw_started w) (iw_native w))
  | SendNative claim _ => λ w,
      (Ok [], Build_inbound_world (iw_store w) (iw_tokens w) (iw_started w) (iw_native w ++ [claim]))
  | Other q => λ w, (question_answer _ q, w)
  end.

Lemma answer_performs X (e : gateway_event X) w : gateway_perform X e w (answer X e w).1 (answer X e w).2.
Proof. destruct e; cbn; try done. eexists. split; [apply new_token_fresh|done]. Qed.

Definition run_tasks (n : nat) (ps : list (gateway_prog unit)) (s : gateway_memory) (w : world)
    : gateway_memory * world := Programs.run_tasks answer n ps s w.

Context `{HL : !InboundStoreLaws R}.
Lemma gateway_tasks_reach c n ps s w :
  Forall (co_entry c) ps →
  ∃ tasks, gateway_runs c s w
    {| lp_memory := (run_tasks n ps s w).1; lp_world := (run_tasks n ps s w).2; lp_tasks := tasks |}.
Proof. apply run_tasks_reach. intros X e w'. left. apply answer_performs. Qed.
End answers.

(** ** A Gateway that starts turns *)

Definition idle : gateway_memory := {|
  gm_accepting_inbound := false; gm_starting := false;
  gm_startup := {| sa_max_pending := 4; sa_entries := []; sa_overflow := false; sa_overflow_count := 0 |};
  gm_leases := [] |}.
Lemma idle_boot : gateway_boot idle.
Proof. eexists 4, _. by split. Qed.

(** An adapter that offers a plan, and sends when it is admitted. *)
Definition plain_adapter (thread_ref : ThreadRef) (input : AgentInput) (preference : InputContinuationPreference)
    : prog unit adapter_event ApplicationInputAcceptance :=
  await (BeforeDispatch (TurnPlan {|
    id_thread_ref := thread_ref; id_client_message_id := ag_client_message_id input;
    id_disposition := STARTED; id_correlation_policy := CREATE_NEW; id_expected_turn_ref := None |})) ;;
  turn ← await (AdapterSends (py "turn/start")) ;
  mret (AcceptedInput {|
    at_turn_ref := {| tn_thread_ref := thread_ref; tn_turn_id := turn |};
    at_client_message_id := ag_client_message_id input;
    at_disposition := STARTED; at_correlation_policy := CREATE_NEW |}).

Definition plain : composition := {|
  co_error_text _ := []; co_float_repr _ := []; co_applications := [(py "app", app)];
  co_send_input := plain_adapter; co_queued_inputs := false; co_controller := None;
  co_coherent_session := false; co_transforms := false; co_continuation := PREFER_ACTIVE_TURN;
  co_presents := false; co_announces_unknown := false |}.
Lemma plain_adapter_contract : adapter_contract plain.
Proof. intros thread_ref input preference. cbn. split; [|done]. split; [done|]. by intros [turn|e]. Qed.
Lemma plain_controller_contract : controller_contract plain.
Proof. done. Qed.

Definition start_task (c : composition) : gateway_prog unit :=
  start_inbound (co_coherent_session c) (co_presents c) (co_announces_unknown c) (co_process c) false 3.
Definition message_task (c : composition) : gateway_prog unit :=
  _handle_message_entry (co_coherent_session c) (co_presents c) (co_announces_unknown c) (co_process c) message.

Lemma tasks_are_entries c : Forall (co_entry c) [start_task c; message_task c; message_task c].
Proof. repeat constructor. Qed.

Definition empty_repository : IdempotencyRepository := {| ir_max_records := 10; ir_records := [] |}.
Definition plain_end : gateway_memory * inbound_world IdempotencyRepository :=
  run_tasks 200 [start_task plain; message_task plain; message_task plain] idle (new_world empty_repository).

(** ** A Gateway that queues inputs, with a Controller that runs a command and declines *)

Definition queue_adapter (thread_ref : ThreadRef) (input : AgentInput) (preference : InputContinuationPreference)
    : prog unit adapter_event ApplicationInputAcceptance :=
  await (BeforeDispatch (QueuePlan {|
    qd_thread_ref := thread_ref; qd_client_message_id := ag_client_message_id input;
    qd_input_fingerprint := hex 2 |})) ;;
  await (AdapterSends (py "queue/add")) ;;
  mraise RuntimeError.

Definition run_command (m : InboundMessage) : prog unit controller_event (option (list OutboundMessage)) :=
  await (EnterEffectfulCommand {|
    ci_conversation_ref := im_conversation_ref m; ci_message_id := im_message_id m;
    ci_actor := im_sender m; ci_created_at := im_created_at m |}) ;;
  await (ControllerAsks (py "effect")) ;;
  mret None.

Definition queueing : composition := {|
  co_error_text _ := []; co_float_repr _ := []; co_applications := [(py "app", app)];
  co_send_input := queue_adapter; co_queued_inputs := true; co_controller := Some run_command;
  co_coherent_session := true; co_transforms := false; co_continuation := QUEUE;
  co_presents := false; co_announces_unknown := true |}.
Lemma queue_adapter_contract : adapter_contract queueing.
Proof. intros thread_ref input preference. cbn. split; [|done]. split; [done|]. by intros [r|e]. Qed.

#[export] Instance session_store : InboundStore session_world := session_inbound_store clock.
#[export] Instance session_laws : InboundStoreLaws session_world := session_inbound_laws clock.
Definition queue_session : session_world :=
  {| sw_session := {| ss_lease := lease; ss_closed := false |}; sw_world := leased |}.
Definition queue_end : gateway_memory * inbound_world session_world :=
  run_tasks 200 [start_task queueing; message_task queueing; message_task queueing] idle (new_world queue_session).
End Inbound.

Section witnesses.
Import Inbound.


(** A process that fences, sends, and fails. *)
Definition failing_process : prog unit process_event unit :=
  await EnterFence ;; await (Base (SendNative (message_key message) (py "turn/start"))) ;;
  mraise (ApplicationInputOutcomeUnknown RuntimeError).


(** C8. A command takes effect twice for one message.  Its Controller enters the fence of
    the command and leaves the message to the Application; the fence of queued input
    is then rejected, since the claim is no longer in flight, and the rejection resets
    [entered] although the command's side effect has begun.  So the claim is released,
    and the message is processed again when it is delivered again. *)
Theorem declined_command_takes_effect_twice :
  adapter_contract queueing ∧ gateway_boot idle ∧
  ∃ p t t', gateway_runs queueing idle (new_world queue_session) p ∧ t ≠ t' ∧
    iw_started (lp_world p) = [(message_key message, t); (message_key message, t')].
Proof.
  split; [exact queue_adapter_contract|]. split; [exact idle_boot|].
  destruct (gateway_tasks_reach queueing 200 [start_task queueing; message_task queueing; message_task queueing] idle
    (new_world queue_session) (tasks_are_entries queueing)) as [tasks Hr].
  do 3 eexists. split; [exact Hr|]. split; [|vm_compute; reflexivity]. discriminate.
Qed.
End witnesses.
