(* ===== verification/RowMapping.v ===== *)
(** The conversion between rows of the tables and the values of the Gateway, of
    [gateway/persistence/row_mapping.py]. *)

From S2P Require Export Sql PyIso JsonText StateContracts.
From Stdlib Require Qcanon.
From stdpp Require Import list.
#[local] Open Scope Z_scope.
#[local] Open Scope stdpp_scope.
#[local] Open Scope string_scope.
#[local] Open Scope list_scope.

(** * Enumerations of texts *)

(** A [StrEnum]: the text of each member, and [Class(text)], which raises for others. *)
Class StrEnum (A : Type) := {
  enum_members : list (A * string);
  enum_value : A → pystr;
  enum_members_all a : ∃ s, (a, s) ∈ enum_members ∧ enum_value a = py s;
  enum_values_distinct : NoDup enum_members.*2;
}.

Fixpoint find_member {A} (value : pystr) (members : list (A * string)) : res A :=
  match members with
  | [] => Err ValueError
  | (a, s) :: members' => if decide (py s = value) then Ok a else find_member value members'
  end.
Definition enum_of {A} `{StrEnum A} (value : pystr) : res A := find_member value enum_members.

Lemma find_member_spec {A} (a : A) (s : string) members :
  NoDup members.*2 → (a, s) ∈ members → find_member (py s) members = Ok a.
Proof.
  induction members as [|[b t] members IH]; [set_solver|]. cbn [fmap list_fmap snd find_member].
  rewrite NoDup_cons. intros [Ht Hnd] [[= -> ->]|Hin]%elem_of_cons; [by rewrite decide_True|].
  rewrite decide_False; [by apply IH|]. intros ->%py_inj. apply Ht. apply list_elem_of_fmap. by exists (a, s).
Qed.

(** The text of a member is read back as that member, and is not empty. *)
Lemma enum_of_value {A} `{StrEnum A} (a : A) : enum_of (enum_value a) = Ok a.
Proof.
  destruct (enum_members_all a) as (s & Hin & ->). apply find_member_spec; [apply enum_values_distinct|done].
Qed.

Ltac solve_enum_members := intros []; eexists; (split; [|reflexivity]); rewrite ?elem_of_cons; tauto.
Ltac solve_enum_distinct := apply (bool_decide_eq_true_1 _); vm_compute; reflexivity.

(** [gateway/persistence/state_contracts.py:44-48] RequestRouteState *)
#[export, refine] Instance RequestRouteState_texts : StrEnum RequestRouteState := {|
  enum_members := [(OPEN, "open"); (RESPONDED, "responded"); (RESOLVED, "resolved"); (STALE, "stale")];
  enum_value s := match s with
    | OPEN => py "open" | RESPONDED => py "responded" | RESOLVED => py "resolved" | STALE => py "stale" end |}.
Proof. all: [>solve_enum_members|solve_enum_distinct]. Defined.

(** [gateway/persistence/state_contracts.py:194-200] DeliverySubmissionState *)
#[export, refine] Instance DeliverySubmissionState_texts : StrEnum DeliverySubmissionState := {|
  enum_members := [(IN_FLIGHT, "in_flight"); (ACCEPTED, "accepted"); (REJECTED, "rejected");
    (RETRYABLE, "retryable"); (PARTIAL, "partial"); (UNKNOWN, "unknown")];
  enum_value s := match s with
    | IN_FLIGHT => py "in_flight" | ACCEPTED => py "accepted" | REJECTED => py "rejected"
    | RETRYABLE => py "retryable" | PARTIAL => py "partial" | UNKNOWN => py "unknown" end |}.
Proof. all: [>solve_enum_members|solve_enum_distinct]. Defined.

(** [gateway/persistence/state_contracts.py:203-205] DeliverySubmissionOrigin *)
#[export, refine] Instance DeliverySubmissionOrigin_texts : StrEnum DeliverySubmissionOrigin := {|
  enum_members := [(EXTERNAL, "external"); (GATEWAY_INTERNAL, "gateway_internal")];
  enum_value s := match s with EXTERNAL => py "external" | GATEWAY_INTERNAL => py "gateway_internal" end |}.
Proof. all: [>solve_enum_members|solve_enum_distinct]. Defined.

(** [interaction/channels/contract.py:190-194] DeliveryReceiptStatus *)
#[export, refine] Instance DeliveryReceiptStatus_texts : StrEnum DeliveryReceiptStatus := {|
  enum_members := [(ACCEPTED_BY_PLATFORM, "accepted_by_platform"); (REJECTED_BY_PLATFORM, "rejected_by_platform");
    (RETRYABLE_FAILURE, "retryable_failure"); (DELIVERY_UNKNOWN, "unknown")];
  enum_value s := match s with
    | ACCEPTED_BY_PLATFORM => py "accepted_by_platform" | REJECTED_BY_PLATFORM => py "rejected_by_platform"
    | RETRYABLE_FAILURE => py "retryable_failure" | DELIVERY_UNKNOWN => py "unknown" end |}.
Proof. all: [>solve_enum_members|solve_enum_distinct]. Defined.

(** [interaction/channels/contract.py:197-202] DeliveryItemStatus *)
#[export, refine] Instance DeliveryItemStatus_texts : StrEnum DeliveryItemStatus := {|
  enum_members := [(ITEM_ACCEPTED, "accepted"); (ITEM_REJECTED, "rejected");
    (ITEM_RETRYABLE_FAILURE, "retryable_failure"); (ITEM_UNKNOWN, "unknown"); (ITEM_SKIPPED, "skipped")];
  enum_value s := match s with
    | ITEM_ACCEPTED => py "accepted" | ITEM_REJECTED => py "rejected"
    | ITEM_RETRYABLE_FAILURE => py "retryable_failure" | ITEM_UNKNOWN => py "unknown" | ITEM_SKIPPED => py "skipped" end |}.
Proof. all: [>solve_enum_members|solve_enum_distinct]. Defined.

(** [interaction/channels/contract.py:205-210] DeliverySegmentStatus *)
#[export, refine] Instance DeliverySegmentStatus_texts : StrEnum DeliverySegmentStatus := {|
  enum_members := [(SEGMENT_ACCEPTED_BY_PLATFORM, "accepted_by_platform");
    (SEGMENT_REJECTED_BY_PLATFORM, "rejected_by_platform"); (SEGMENT_RETRYABLE_FAILURE, "retryable_failure");
    (SEGMENT_UNKNOWN, "unknown"); (SEGMENT_SKIPPED, "skipped")];
  enum_value s := match s with
    | SEGMENT_ACCEPTED_BY_PLATFORM => py "accepted_by_platform"
    | SEGMENT_REJECTED_BY_PLATFORM => py "rejected_by_platform"
    | SEGMENT_RETRYABLE_FAILURE => py "retryable_failure" | SEGMENT_UNKNOWN => py "unknown"
    | SEGMENT_SKIPPED => py "skipped" end |}.
Proof. all: [>solve_enum_members|solve_enum_distinct]. Defined.

(** [applications/contract.py:77-80] InputContinuationPreference *)
#[export, refine] Instance InputContinuationPreference_texts : StrEnum InputContinuationPreference := {|
  enum_members := [(PREFER_ACTIVE_TURN, "prefer_active_turn"); (START_NEW_TURN, "start_new_turn"); (QUEUE, "queue")];
  enum_value s := match s with
    | PREFER_ACTIVE_TURN => py "prefer_active_turn" | START_NEW_TURN => py "start_new_turn"
    | QUEUE => py "queue" end |}.
Proof. all: [>solve_enum_members|solve_enum_distinct]. Defined.

(** [applications/contract.py:333-336] QueuedInputState *)
#[export, refine] Instance QueuedInputState_texts : StrEnum QueuedInputState := {|
  enum_members := [(QUEUED, "queued"); (ADMITTED, "admitted"); (CANCELLED, "cancelled")];
  enum_value s := match s with
    | QUEUED => py "queued" | ADMITTED => py "admitted" | CANCELLED => py "cancelled" end |}.
Proof. all: [>solve_enum_members|solve_enum_distinct]. Defined.

(** * Columns *)

(** [gateway/persistence/row_mapping.py:214-217] required_text *)
Definition required_text (value : sqlvalue) : res pystr :=
  match value with
  | SText s => raise_if (s = []) ValueError ;; Ok s
  | _ => Err ValueError
  end.

(** [gateway/persistence/row_mapping.py:220-223] optional_text *)
Definition optional_text (value : sqlvalue) : res (option pystr) :=
  match value with SNull => Ok None | _ => s ← required_text value; Ok (Some s) end.

(** [gateway/persistence/row_mapping.py:226-229] required_integer *)
Definition required_integer (value : sqlvalue) : res Z :=
  match value with SInt z => Ok z | _ => Err ValueError end.

(** [gateway/persistence/row_mapping.py:232-239] decode_datetime *)
Definition decode_datetime (value : sqlvalue) : res datetime :=
  decoded ← (s ← required_text value; fromisoformat s);
  raise_if (tz_is_none decoded) ValueError ;;
  Ok decoded.

(** [decode_datetime(value) if value is not None else None] *)
Definition optional_datetime (value : sqlvalue) : res (option datetime) :=
  match value with SNull => Ok None | _ => t ← decode_datetime value; Ok (Some t) end.

(** [gateway/persistence/row_mapping.py:646-651] _optional_route_scope_text *)
Definition _optional_route_scope_text (value : sqlvalue) : res (option pystr) :=
  if decide (value = SText []) then Ok None else optional_text value.

(** [value.isoformat() if value is not None else None] *)
Definition opt_time (t : option datetime) : sqlvalue := opt_text (isoformat <$> t).
Definition time (t : datetime) : sqlvalue := SText (isoformat t).

(** A member of an enumeration from a column. *)
Definition enum_column {A} `{StrEnum A} (value : sqlvalue) : res A := s ← required_text value; enum_of s.

(** * Bindings, routes and Turn correlations *)

(** [gateway/persistence/row_mapping.py:57-96] binding_from_row *)
Definition binding_from_row (r : row) : res ConversationBinding :=
  let application_id := column r "application_instance_id" in
  let project_id := column r "project_id" in
  let thread_id := column r "thread_id" in
  raise_if (application_id = SNull ∧ (project_id ≠ SNull ∨ thread_id ≠ SNull)) ValueError ;;
  raise_if (thread_id ≠ SNull ∧ project_id = SNull) ValueError ;;
  application_ref ← match application_id with
    | SNull => Ok None
    | _ => i ← required_text application_id; Ok (Some {| ar_application_instance_id := i |})
    end;
  project_ref ← match application_ref, project_id with
    | None, _ | _, SNull => Ok None
    | Some a, _ =>
        i ← required_text project_id;
        Ok (Some {| pr_application_instance_id := ar_application_instance_id a; pr_project_id := i |})
    end;
  thread_ref ← match project_ref, thread_id with
    | None, _ | _, SNull => Ok None
    | Some p, _ => i ← required_text thread_id; Ok (Some {| th_project_ref := p; th_thread_id := i |})
    end;
  channel ← required_text (column r "channel_instance_id");
  conversation ← required_text (column r "native_conversation_id");
  generation ← required_integer (column r "generation");
  updated_at ← decode_datetime (column r "updated_at");
  let binding := {|
    cb_conversation_ref := {| cv_channel_instance_id := channel; cv_native_conversation_id := conversation |};
    cb_application_ref := application_ref; cb_project_ref := project_ref; cb_thread_ref := thread_ref;
    cb_generation := generation; cb_updated_at := Some updated_at |} in
  validate_binding binding ;;
  Ok binding.

(** [gateway/persistence/row_mapping.py:99-112] binding_to_row *)
Definition binding_to_row (binding : ConversationBinding) : list sqlvalue :=
  [SText (cv_channel_instance_id (cb_conversation_ref binding));
   SText (cv_native_conversation_id (cb_conversation_ref binding));
   opt_text (ar_application_instance_id <$> cb_application_ref binding);
   opt_text (pr_project_id <$> cb_project_ref binding);
   opt_text (th_thread_id <$> cb_thread_ref binding);
   SInt (cb_generation binding);
   opt_time (cb_updated_at binding)].

(** [gateway/persistence/row_mapping.py:115-122] thread_storage_key *)
Definition thread_storage_key (thread_ref : option ThreadRef) : list sqlvalue :=
  match thread_ref with
  | None => [SText []; SText []; SText []]
  | Some t => [SText (pr_application_instance_id (th_project_ref t)); SText (pr_project_id (th_project_ref t));
               SText (th_thread_id t)]
  end.

(** The Thread of the columns every table names it by. *)
Definition thread_from_row (r : row) : res ThreadRef :=
  application_id ← required_text (column r "application_instance_id");
  project_id ← required_text (column r "project_id");
  thread_id ← required_text (column r "thread_id");
  Ok {| th_project_ref := {| pr_application_instance_id := application_id; pr_project_id := project_id |};
        th_thread_id := thread_id |}.
Definition conversation_from_row (r : row) : res ConversationRef :=
  channel ← required_text (column r "channel_instance_id");
  conversation ← required_text (column r "native_conversation_id");
  Ok {| cv_channel_instance_id := channel; cv_native_conversation_id := conversation |}.

(** [gateway/persistence/row_mapping.py:125-153] projection_route_from_row *)
Definition projection_route_from_row (r : row) : res ThreadProjectionRoute :=
  thread_ref ← thread_from_row r;
  route_id ← required_text (column r "route_id");
  conversation_ref ← conversation_from_row r;
  reply ← optional_text (column r "reply_to_message_id");
  item ← optional_text (column r "checkpoint_agent_item_id");
  checkpointed_at ← optional_datetime (column r "checkpointed_at");
  updated_at ← decode_datetime (column r "updated_at");
  let route := {|
    tr_route_id := route_id; tr_thread_ref := thread_ref; tr_conversation_ref := conversation_ref;
    tr_reply_to_message_id := reply; tr_checkpoint_agent_item_id := item;
    tr_checkpointed_at := checkpointed_at; tr_updated_at := Some updated_at |} in
  validate_projection_route route ;;
  Ok route.

(** [gateway/persistence/row_mapping.py:156-171] projection_route_to_row *)
Definition projection_route_to_row (route : ThreadProjectionRoute) (updated_at : option datetime) : list sqlvalue :=
  let effective := match updated_at with Some t => Some t | None => tr_updated_at route end in
  [SText (tr_route_id route)] ++ thread_storage_key (Some (tr_thread_ref route)) ++
  [SText (cv_channel_instance_id (tr_conversation_ref route));
   SText (cv_native_conversation_id (tr_conversation_ref route));
   opt_text (tr_reply_to_message_id route);
   opt_text (tr_checkpoint_agent_item_id route);
   opt_time (tr_checkpointed_at route);
   opt_time effective].

(** [gateway/persistence/row_mapping.py:174-198] turn_reply_correlation_from_row *)
Definition turn_reply_correlation_from_row (r : row) : res TurnReplyCorrelation :=
  correlation_id ← required_text (column r "correlation_id");
  thread_ref ← thread_from_row r;
  turn_id ← required_text (column r "turn_id");
  client_message_id ← required_text (column r "client_message_id");
  conversation_ref ← conversation_from_row r;
  reply ← required_text (column r "reply_to_message_id");
  created_at ← decode_datetime (column r "created_at");
  let correlation := {|
    tc_correlation_id := correlation_id;
    tc_turn_ref := {| tn_thread_ref := thread_ref; tn_turn_id := turn_id |};
    tc_client_message_id := client_message_id; tc_conversation_ref := conversation_ref;
    tc_reply_to_message_id := reply; tc_created_at := created_at |} in
  validate_turn_reply_correlation correlation ;;
  Ok correlation.

(** [gateway/persistence/row_mapping.py:201-211] turn_reply_correlation_to_row *)
Definition turn_reply_correlation_to_row (c : TurnReplyCorrelation) : list sqlvalue :=
  [SText (tc_correlation_id c)] ++ thread_storage_key (Some (tn_thread_ref (tc_turn_ref c))) ++
  [SText (tn_turn_id (tc_turn_ref c));
   SText (tc_client_message_id c);
   SText (cv_channel_instance_id (tc_conversation_ref c));
   SText (cv_native_conversation_id (tc_conversation_ref c));
   SText (tc_reply_to_message_id c);
   time (tc_created_at c)].

(** * JSON columns *)

Section json.
Context {FT : FloatText}.

(** [json.dumps(..., ensure_ascii=False, separators=(",", ":"), sort_keys=True)] of a
    value that has a text. *)
Definition json_text (v : jvalue) : pystr := value_text float_repr (sorted_keys v).

(** [payload[key]] of an object that has the key, and [set(payload) == keys]. *)
Definition field (d : Metadata) (key : string) : jvalue := default VNull (d_get d (py key)).
Definition has_keys (d : Metadata) (keys : list string) : Prop :=
  Forall (λ k, k ∈ py <$> keys) d.*1 ∧ Forall (λ k, k ∈ d.*1) (py <$> keys).
#[export] Instance has_keys_dec d keys : Decision (has_keys d keys).
Proof. unfold has_keys. apply _. Defined.

(** An object with exactly some keys. *)
Definition object_with (v : jvalue) (keys : list string) : res Metadata :=
  match v with
  | VObj d => raise_if (¬ has_keys d keys) ValueError ;; Ok d
  | _ => Err ValueError
  end.
(** [isinstance(value, list)], and a [for] over it. *)
Definition list_of (v : jvalue) : res (list jvalue) := match v with VArr l => Ok l | _ => Err ValueError end.

(** [gateway/persistence/row_mapping.py:615-618] _json_required_text *)
Definition _json_required_text (value : jvalue) : res pystr :=
  match value with VStr s => raise_if (s = []) ValueError ;; Ok s | _ => Err ValueError end.

(** [gateway/persistence/row_mapping.py:621-624] _json_optional_text *)
Definition _json_optional_text (value : jvalue) : res (option pystr) :=
  match value with VNull => Ok None | _ => s ← _json_required_text value; Ok (Some s) end.

(** [gateway/persistence/row_mapping.py:627-630] _json_integer *)
Definition _json_integer (value : jvalue) : res Z :=
  match value with VInt z => Ok z | _ => Err ValueError end.

(** [gateway/persistence/row_mapping.py:633-638] _json_optional_number *)
Definition _json_optional_number (value : jvalue) : res (option pyfloat) :=
  match value with
  | VNull => Ok None
  | VInt z => Ok (Some (seconds z))
  | VFloat f => Ok (Some f)
  | _ => Err ValueError
  end.

(** [gateway/persistence/row_mapping.py:641-643] _require_json_null *)
Definition _require_json_null (value : jvalue) : res unit :=
  match value with VNull => Ok () | _ => Err ValueError end.

Definition json_bool (value : jvalue) : res bool := match value with VBool b => Ok b | _ => Err ValueError end.
(** A [str], which may be empty. *)
Definition json_str (value : jvalue) : res pystr := match value with VStr s => Ok s | _ => Err ValueError end.

(** ** Response shapes *)

Definition encode_question (q : UserInputQuestionShape) : jvalue :=
  VObj [(py "question_id", VStr (qs_question_id q));
        (py "choice_ids", VArr (VStr <$> qs_choice_ids q));
        (py "allows_other", VBool (qs_allows_other q));
        (py "min_answers", VInt (qs_min_answers q));
        (py "max_answers", VInt (qs_max_answers q))].

(** [gateway/persistence/row_mapping.py:298-318] encode_response_shape *)
Definition encode_response_shape (shape : RequestResponseShape) : pystr :=
  json_text match shape with
  | ApprovalResponseShape choice_ids =>
      VObj [(py "kind", VStr (py "approval")); (py "choice_ids", VArr (VStr <$> choice_ids))]
  | UserInputResponseShape questions =>
      VObj [(py "kind", VStr (py "user_input")); (py "questions", VArr (encode_question <$> questions))]
  end.

(** [gateway/persistence/row_mapping.py:349-372] decode_response_shape: the body of the loop
    over the questions of a shape. *)
Definition decode_question (question : jvalue) : res UserInputQuestionShape :=
  d ← object_with question ["question_id"; "choice_ids"; "allows_other"; "min_answers"; "max_answers"];
  question_id ← json_str (field d "question_id");
  ids ← list_of (field d "choice_ids");
  choice_ids ← map_res json_str ids;
  allows_other ← json_bool (field d "allows_other");
  min_answers ← _json_integer (field d "min_answers");
  max_answers ← _json_integer (field d "max_answers");
  Ok {| qs_question_id := question_id; qs_choice_ids := choice_ids; qs_allows_other := allows_other;
        qs_min_answers := min_answers; qs_max_answers := max_answers |}.

(** [gateway/persistence/row_mapping.py:321-373] decode_response_shape *)
Definition decode_response_shape (value : sqlvalue) : res RequestResponseShape :=
  encoded ← required_text value;
  payload ← loads float_of_text encoded;
  match payload with
  | VObj d =>
      let kind := d_get d (py "kind") in
      if decide (kind = Some (VStr (py "approval"))) then
        raise_if (¬ has_keys d ["kind"; "choice_ids"]) ValueError ;;
        ids ← list_of (field d "choice_ids");
        choice_ids ← map_res json_str ids;
        Ok (ApprovalResponseShape choice_ids)
      else
        raise_if (kind ≠ Some (VStr (py "user_input")) ∨ ¬ has_keys d ["kind"; "questions"]) ValueError ;;
        questions ← list_of (field d "questions");
        decoded ← map_res decode_question questions;
        Ok (UserInputResponseShape decoded)
  | _ => Err ValueError
  end.
(** ** Receipts *)

Definition opt_json (x : option pystr) : jvalue := match x with Some s => VStr s | None => VNull end.
Definition opt_number (x : option pyfloat) : jvalue := match x with Some f => VFloat f | None => VNull end.

Definition encode_item (item : DeliveryItemReceipt) : jvalue :=
  VObj [(py "content_index", VInt (di_content_index item));
        (py "status", VStr (enum_value (di_status item)));
        (py "attachment_id", opt_json (di_attachment_id item));
        (py "native_message_id", opt_json (di_native_message_id item));
        (py "detail", VNull)].
Definition encode_segment (segment : DeliverySegmentReceipt) : jvalue :=
  VObj [(py "segment_index", VInt (dg_segment_index segment));
        (py "delivery_id", VStr (dg_delivery_id segment));
        (py "source_content_indexes", VArr (VInt <$> dg_source_content_indexes segment));
        (py "status", VStr (enum_value (dg_status segment)));
        (py "native_message_id", opt_json (dg_native_message_id segment));
        (py "detail", VNull);
        (py "retry_after_seconds", opt_number (dg_retry_after_seconds segment))].

(** [gateway/persistence/row_mapping.py:482-517] encode_receipt *)
Definition encode_receipt (receipt : option DeliveryReceipt) : option pystr :=
  (λ r, json_text (VObj
    [(py "status", VStr (enum_value (dr_status r)));
     (py "native_message_id", opt_json (dr_native_message_id r));
     (py "detail", VNull);
     (py "retry_after_seconds", opt_number (dr_retry_after_seconds r));
     (py "items", VArr (encode_item <$> dr_items r));
     (py "segments", VArr (encode_segment <$> dr_segments r))])) <$> receipt.

(** A member of an enumeration from a document. *)
Definition enum_field {A} `{StrEnum A} (value : jvalue) : res A := s ← _json_required_text value; enum_of s.

(** [gateway/persistence/row_mapping.py:558-577] _decode_item_receipt *)
Definition _decode_item_receipt (value : jvalue) : res DeliveryItemReceipt :=
  d ← object_with value ["content_index"; "status"; "attachment_id"; "native_message_id"; "detail"];
  _require_json_null (field d "detail") ;;
  content_index ← _json_integer (field d "content_index");
  status ← enum_field (field d "status");
  attachment_id ← _json_optional_text (field d "attachment_id");
  native_message_id ← _json_optional_text (field d "native_message_id");
  Ok {| di_content_index := content_index; di_status := status; di_attachment_id := attachment_id;
        di_native_message_id := native_message_id; di_detail := None |}.

(** [gateway/persistence/row_mapping.py:580-612] _decode_segment_receipt *)
Definition _decode_segment_receipt (value : jvalue) : res DeliverySegmentReceipt :=
  d ← object_with value ["segment_index"; "delivery_id"; "source_content_indexes"; "status";
    "native_message_id"; "detail"; "retry_after_seconds"];
  _require_json_null (field d "detail") ;;
  indexes ← list_of (field d "source_content_indexes");
  segment_index ← _json_integer (field d "segment_index");
  delivery_id ← _json_required_text (field d "delivery_id");
  source_content_indexes ← map_res _json_integer indexes;
  status ← enum_field (field d "status");
  native_message_id ← _json_optional_text (field d "native_message_id");
  retry_after_seconds ← _json_optional_number (field d "retry_after_seconds");
  Ok {| dg_segment_index := segment_index; dg_delivery_id := delivery_id;
        dg_source_content_indexes := source_content_indexes; dg_status := status;
        dg_native_message_id := native_message_id; dg_detail := None;
        dg_retry_after_seconds := retry_after_seconds |}.

(** [gateway/persistence/row_mapping.py:520-555] decode_receipt *)
Definition decode_receipt (value : sqlvalue) : res (option DeliveryReceipt) :=
  match value with
  | SNull => Ok None
  | SInt _ => Err ValueError
  | SText text =>
      payload ← loads float_of_text text;
      d ← object_with payload ["status"; "native_message_id"; "detail"; "retry_after_seconds"; "items"; "segments"];
      items ← list_of (field d "items");
      segments ← list_of (field d "segments");
      _require_json_null (field d "detail") ;;
      status ← enum_field (field d "status");
      native_message_id ← _json_optional_text (field d "native_message_id");
      retry_after_seconds ← _json_optional_number (field d "retry_after_seconds");
      items ← map_res _decode_item_receipt items;
      segments ← map_res _decode_segment_receipt segments;
      Ok (Some {| dr_status := status; dr_native_message_id := native_message_id; dr_detail := None;
                  dr_items := items; dr_segments := segments; dr_retry_after_seconds := retry_after_seconds |})
  end.

(** * Request correlations *)

(** [gateway/persistence/row_mapping.py:242-277] request_correlation_from_row *)
Definition request_correlation_from_row (r : row) : res RequestRouteCorrelation :=
  thread_ref ← thread_from_row r;
  correlation_id ← required_text (column r "correlation_id");
  native_request_id ← required_text (column r "native_request_id");
  turn_id ← required_text (column r "turn_id");
  conversation_ref ← conversation_from_row r;
  delivery_id ← required_text (column r "delivery_id");
  response_shape ← decode_response_shape (column r "response_shape_json");
  state ← enum_column (column r "state");
  created_at ← decode_datetime (column r "created_at");
  updated_at ← decode_datetime (column r "updated_at");
  expires_at ← optional_datetime (column r "expires_at");
  let correlation := {|
    rr_correlation_id := correlation_id;
    rr_request_ref := {|
      rq_application_ref := {|
        ar_application_instance_id := pr_application_instance_id (th_project_ref thread_ref) |};
      rq_native_request_id := native_request_id |};
    rr_turn_ref := {| tn_thread_ref := thread_ref; tn_turn_id := turn_id |};
    rr_conversation_ref := conversation_ref; rr_delivery_id := delivery_id;
    rr_response_shape := response_shape; rr_state := state;
    rr_created_at := created_at; rr_updated_at := updated_at; rr_expires_at := expires_at |} in
  validate_request_route_correlation correlation ;;
  Ok correlation.

(** [gateway/persistence/row_mapping.py:280-295] request_correlation_to_row *)
Definition request_correlation_to_row (c : RequestRouteCorrelation) : list sqlvalue :=
  [SText (rr_correlation_id c);
   SText (ar_application_instance_id (rq_application_ref (rr_request_ref c)));
   SText (rq_native_request_id (rr_request_ref c))]
  ++ drop 1 (thread_storage_key (Some (tn_thread_ref (rr_turn_ref c)))) ++
  [SText (tn_turn_id (rr_turn_ref c));
   SText (cv_channel_instance_id (rr_conversation_ref c));
   SText (cv_native_conversation_id (rr_conversation_ref c));
   SText (rr_delivery_id c);
   SText (encode_response_shape (rr_response_shape c));
   SText (enum_value (rr_state c));
   time (rr_created_at c);
   time (rr_updated_at c);
   opt_time (rr_expires_at c)].

(** * Delivery submissions *)

(** [gateway/persistence/row_mapping.py:395-405] delivery_submission_to_row *)
Definition delivery_submission_to_row (record : DeliverySubmissionRecord) : list sqlvalue :=
  [SText (sr_submission_id record); SText (sr_delivery_id record); SText (enum_value (sr_origin record));
   SText (sr_principal_id record); SText (sr_target_fingerprint record); SText (sr_payload_fingerprint record);
   time (sr_created_at record); time (sr_updated_at record)].

(** [gateway/persistence/row_mapping.py:408-429] delivery_destination_to_row *)
Definition delivery_destination_to_row (root_submission_id : pystr) (destination : DestinationDeliveryRecord)
    : list sqlvalue :=
  let snapshot := dd_snapshot destination in
  [SText root_submission_id;
   SText (dd_delivery_id destination);
   SText (cv_channel_instance_id (ds_conversation_ref snapshot));
   SText (cv_native_conversation_id (ds_conversation_ref snapshot))]
  ++ thread_storage_key (ds_thread_ref snapshot) ++
  [SText (or_empty (ds_route_id snapshot));
   opt_time (ds_route_updated_at snapshot);
   opt_text (ds_reply_to_message_id snapshot);
   SText (enum_value (dd_state destination));
   opt_text (encode_receipt (dd_receipt destination));
   SNull;
   time (dd_updated_at destination)].

(** [gateway/persistence/row_mapping.py:432-479] delivery_destination_from_row *)
Definition delivery_destination_from_row (r : row) : res DestinationDeliveryRecord :=
  raise_if (column r "error" ≠ SNull) ValueError ;;
  application_id ← _optional_route_scope_text (column r "application_instance_id");
  project_id ← _optional_route_scope_text (column r "project_id");
  thread_id ← _optional_route_scope_text (column r "thread_id");
  route_id ← _optional_route_scope_text (column r "route_id");
  thread_ref ← match application_id, project_id, thread_id, route_id with
    | None, None, None, None => Ok None
    | Some a, Some p, Some t, Some _ =>
        Ok (Some {| th_project_ref := {| pr_application_instance_id := a; pr_project_id := p |}; th_thread_id := t |})
    | _, _, _, _ => Err ValueError
    end;
  delivery_id ← required_text (column r "destination_delivery_id");
  conversation_ref ← conversation_from_row r;
  route_updated_at ← optional_datetime (column r "route_updated_at");
  reply ← optional_text (column r "reply_to_message_id");
  state ← enum_column (column r "state");
  receipt ← decode_receipt (column r "receipt_json");
  updated_at ← decode_datetime (column r "updated_at");
  Ok {| dd_delivery_id := delivery_id;
        dd_snapshot := {|
          ds_conversation_ref := conversation_ref; ds_thread_ref := thread_ref; ds_route_id := route_id;
          ds_route_updated_at := route_updated_at; ds_reply_to_message_id := reply |};
        dd_state := state; dd_updated_at := updated_at; dd_receipt := receipt |}.

(** [gateway/persistence/row_mapping.py:376-392] delivery_submission_from_rows *)
Definition delivery_submission_from_rows (root : row) (destination_rows : list row) : res DeliverySubmissionRecord :=
  submission_id ← required_text (column root "submission_id");
  delivery_id ← required_text (column root "delivery_id");
  origin ← enum_column (column root "origin");
  principal_id ← required_text (column root "principal_id");
  target_fingerprint ← required_text (column root "target_fingerprint");
  payload_fingerprint ← required_text (column root "payload_fingerprint");
  destinations ← map_res delivery_destination_from_row destination_rows;
  created_at ← decode_datetime (column root "created_at");
  updated_at ← decode_datetime (column root "updated_at");
  let record := {|
    sr_submission_id := submission_id; sr_delivery_id := delivery_id; sr_origin := origin;
    sr_principal_id := principal_id; sr_target_fingerprint := target_fingerprint;
    sr_payload_fingerprint := payload_fingerprint; sr_destinations := destinations;
    sr_created_at := created_at; sr_updated_at := updated_at |} in
  validate_delivery_submission_record record ;;
  Ok record.
End json.

(** * Queued inputs *)

(** [gateway/persistence/row_mapping.py:654-672] queued_input_correlation_to_row *)
Definition queued_input_correlation_to_row (record : QueuedInputCorrelation) : res (list sqlvalue) :=
  validate_queued_input_correlation record ;;
  let origin := qc_origin record in
  let receipt := qc_receipt record in
  Ok ([SText (cv_channel_instance_id (qo_conversation_ref origin));
       SText (cv_native_conversation_id (qo_conversation_ref origin));
       SText (qo_message_id origin);
       SText (qo_actor_fingerprint origin)]
      ++ thread_storage_key (Some (qo_thread_ref origin)) ++
      [SInt (qo_binding_generation origin);
       SText (qo_client_message_id origin);
       SText (qo_input_fingerprint origin);
       SText (enum_value (qo_continuation origin));
       opt_text (enum_value ∘ qr_state <$> receipt);
       opt_text (qr_queued_item_id <$> receipt);
       opt_text (tn_turn_id <$> (receipt ≫= qr_turn_ref));
       time (qc_created_at record);
       time (qc_updated_at record)]).

(** [gateway/persistence/row_mapping.py:675-717] queued_input_correlation_from_row *)
Definition queued_input_correlation_from_row (r : row) : res QueuedInputCorrelation :=
  thread_ref ← thread_from_row r;
  conversation_ref ← conversation_from_row r;
  message_id ← required_text (column r "message_id");
  actor_fingerprint ← required_text (column r "actor_fingerprint");
  binding_generation ← required_integer (column r "binding_generation");
  client_message_id ← required_text (column r "client_message_id");
  input_fingerprint ← required_text (column r "input_fingerprint");
  continuation ← enum_column (column r "continuation");
  let origin := {|
    qo_conversation_ref := conversation_ref; qo_message_id := message_id; qo_actor_fingerprint := actor_fingerprint;
    qo_thread_ref := thread_ref; qo_binding_generation := binding_generation;
    qo_client_message_id := client_message_id; qo_input_fingerprint := input_fingerprint;
    qo_continuation := continuation |} in
  receipt ← match column r "receipt_state" with
    | SNull =>
        raise_if (column r "queued_item_id" ≠ SNull ∨ column r "turn_id" ≠ SNull) ValueError ;;
        Ok None
    | receipt_state =>
        turn_id ← optional_text (column r "turn_id");
        queued_item_id ← required_text (column r "queued_item_id");
        state ← enum_column receipt_state;
        Ok (Some {| qr_thread_ref := thread_ref; qr_client_message_id := client_message_id;
                    qr_queued_item_id := queued_item_id; qr_state := state;
                    qr_turn_ref := (λ t, {| tn_thread_ref := thread_ref; tn_turn_id := t |}) <$> turn_id;
                    qr_input_fingerprint := input_fingerprint |})
    end;
  created_at ← decode_datetime (column r "created_at");
  updated_at ← decode_datetime (column r "updated_at");
  let record := {| qc_origin := origin; qc_receipt := receipt; qc_created_at := created_at;
                   qc_updated_at := updated_at |} in
  validate_queued_input_correlation record ;;
  Ok record.
