(* ===== verification/RowMappingTheorems.v ===== *)
(** Rows are read back as what was written: one lemma per table, for the values the
    validators accept whose times are instants of the calendar. *)

From S2P Require Export RowMapping.
From stdpp Require Import list sorting.
#[local] Open Scope Z_scope.
#[local] Open Scope stdpp_scope.

Arguments isoformat : simpl never.
Arguments fromisoformat : simpl never.
Arguments required_text : simpl never.
Arguments decode_datetime : simpl never.
Arguments json_text : simpl never.
Arguments encode_response_shape : simpl never.
Arguments decode_response_shape : simpl never.
Arguments encode_receipt : simpl never.
Arguments decode_receipt : simpl never.
Arguments enum_column : simpl never.
Arguments enum_value : simpl never.
Arguments _optional_route_scope_text : simpl never.

(** A time with a timezone in the range of the calendar. *)
Definition storable_time (t : datetime) : Prop := ¬ tz_is_none t ∧ in_range t.
Definition storable_opt (t : option datetime) : Prop := ∀ t', t = Some t' → storable_time t'.

Lemma isoformat_ne d : isoformat d ≠ [].
Proof. unfold isoformat. destruct (ymd_of_day _) as [[y m] day]. done. Qed.

Lemma required_text_ok s : s ≠ [] → required_text (SText s) = Ok s.
Proof. intros. unfold required_text, raise_if. by rewrite decide_False. Qed.

Lemma required_identifier s : identifier s → required_text (SText s) = Ok s.
Proof. intros [Hs _]. by apply required_text_ok. Qed.

Lemma decode_time d : storable_time d → decode_datetime (time d) = Ok d.
Proof.
  intros [Htz Hr]. unfold decode_datetime, time. rewrite required_text_ok by apply isoformat_ne.
  cbn [mbind res_bind]. rewrite fromisoformat_isoformat by done. cbn [mbind res_bind].
  unfold raise_if. by rewrite decide_False.
Qed.

Lemma decode_opt_time t : storable_opt t → optional_datetime (opt_time t) = Ok t.
Proof.
  intros Ht. destruct t as [t|]; [|done]. cbn. change (SText (isoformat t)) with (time t).
  by rewrite decode_time by by apply Ht.
Qed.

Lemma optional_identifier x : (∀ s, x = Some s → identifier s) → optional_text (opt_text x) = Ok x.
Proof. intros Hx. destruct x as [s|]; [|done]. cbn. by rewrite required_identifier by by apply Hx. Qed.

(** What a success of a validator says of the identifiers it looks at. *)
Ltac identifiers H :=
  unfold validate_thread_ref, validate_project_ref, validate_turn_ref in H;
  rewrite ?then_ok, ?seq_ok in H; cbn in H;
  repeat match goal with
  | H : _ ∧ _ |- _ => destruct H
  | H : (_ ;; _) = Ok _ |- _ => apply then_ok in H
  | H : require_identifier _ _ = Ok _ |- _ => apply require_identifier_ok in H
  end.

Lemma ok_bind {A B} (a : A) (f : A → res B) : Ok a ≫= f = f a.
Proof. done. Qed.
Lemma no_raise P `{Decision P} e : ¬ P → (raise_if P e : res unit) = Ok ().
Proof. apply raise_if_ok. Qed.

Lemma no_raise_then {A} P `{Decision P} e (m : res A) : ¬ P → (raise_if P e ;; m) = m.
Proof. intros HP. by rewrite no_raise. Qed.

Lemma raise_then {A} P `{Decision P} e (m : res A) : P → (raise_if P e ;; m) = Err e.
Proof. intros HP. unfold raise_if. by rewrite decide_True. Qed.

(** Run a decoder on the texts and times it is given. *)
Ltac decode :=
  repeat first
    [ rewrite ok_bind
    | rewrite required_identifier by assumption
    | rewrite decode_time by assumption
    | rewrite decode_opt_time by assumption
    | rewrite optional_identifier by assumption
    | rewrite no_raise by (by intros ?; destruct_and?; destruct_or?; simplify_eq/=) ]; cbn [mbind res_bind required_integer].

Lemma binding_row_roundtrip b t :
  validate_binding b = Ok () → cb_updated_at b = Some t → storable_time t →
  binding_from_row (make_row (sc_columns conversation_bindings_schema) (binding_to_row b)) = Ok b.
Proof.
  intros Hv Ht Hs. pose proof Hv as Hv'.
  destruct b as [[ch cv] app proj th g u]; cbn in Ht; subst u. unfold validate_binding in Hv'. cbn in Hv'.
  identifiers Hv'.
  unfold binding_from_row, binding_to_row. cbn. change (SText (isoformat t)) with (time t).
  destruct th as [[proj' th]|], proj as [[app' proj]|], app as [[app]|]; cbn in *; identifiers H4; identifiers H3; identifiers H5;
    inv_ok; repeat match goal with H : ¬ (_ ≠ _) |- _ => apply dec_stable in H end;
    try (exfalso; naive_solver); simplify_eq; cbn in *; decode;
    cbn [ar_application_instance_id]; by rewrite Hv.
Qed.

Lemma thread_identifiers t u : validate_thread_ref t = Ok u → 
  identifier (pr_application_instance_id (th_project_ref t)) ∧ identifier (pr_project_id (th_project_ref t)) ∧
  identifier (th_thread_id t).
Proof. intros H. by identifiers H. Qed.

Lemma when_identifier (x : option pystr) n : when_some x (λ i, require_identifier i n) = Ok () →
  ∀ s, x = Some s → identifier s.
Proof. rewrite when_some_ok. intros H s Hs. by eapply require_identifier_ok, H. Qed.

(** The columns of a Thread and of a Conversation are read back. *)
Lemma thread_from_row_ok r t :
  validate_thread_ref t = Ok () →
  column r "application_instance_id" = SText (pr_application_instance_id (th_project_ref t)) →
  column r "project_id" = SText (pr_project_id (th_project_ref t)) →
  column r "thread_id" = SText (th_thread_id t) → thread_from_row r = Ok t.
Proof.
  intros (Ha & Hp & Ht)%thread_identifiers Ea Ep Et. unfold thread_from_row. rewrite Ea, Ep, Et.
  decode. by destruct t as [[]].
Qed.

Lemma conversation_from_row_ok r c :
  identifier (cv_channel_instance_id c) → identifier (cv_native_conversation_id c) →
  column r "channel_instance_id" = SText (cv_channel_instance_id c) →
  column r "native_conversation_id" = SText (cv_native_conversation_id c) → conversation_from_row r = Ok c.
Proof. intros H1 H2 E1 E2. unfold conversation_from_row. rewrite E1, E2. decode. by destruct c. Qed.

Lemma route_row_roundtrip route t :
  validate_projection_route route = Ok () → tr_updated_at route = Some t → storable_time t →
  storable_opt (tr_checkpointed_at route) →
  projection_route_from_row
    (make_row (sc_columns thread_projection_routes_schema) (projection_route_to_row route (Some t))) = Ok route.
Proof.
  intros Hv Ht Hs Hc. pose proof Hv as Hv'. unfold validate_projection_route in Hv'. rewrite !then_ok in Hv'.
  destruct Hv' as (Hid & Hth & Hch & Hcv & Hreply & Hitem & _).
  apply require_identifier_ok in Hid, Hch, Hcv. pose proof (when_identifier _ _ Hreply). pose proof (when_identifier _ _ Hitem).
  unfold projection_route_from_row. rewrite (thread_from_row_ok _ (tr_thread_ref route)) by done.
  rewrite ok_bind, (conversation_from_row_ok _ (tr_conversation_ref route)) by done.
  cbn. change (opt_text (isoformat <$> ?x)) with (opt_time x). change (SText (isoformat t)) with (time t).
  decode. destruct route; cbn in *; subst. by rewrite Hv.
Qed.

Lemma turn_row_roundtrip c :
  validate_turn_reply_correlation c = Ok () → storable_time (tc_created_at c) →
  turn_reply_correlation_from_row
    (make_row (sc_columns turn_reply_correlations_schema) (turn_reply_correlation_to_row c)) = Ok c.
Proof.
  intros Hv Hs. pose proof Hv as Hv'. unfold validate_turn_reply_correlation, validate_turn_ref in Hv'.
  rewrite !then_ok in Hv'. destruct Hv' as (Hid & (Hth & Hturn) & Hclient & Hch & Hcv & Hreply).
  apply require_identifier_ok in Hid, Hturn, Hclient, Hch, Hcv, Hreply.
  unfold turn_reply_correlation_from_row.
  rewrite (thread_from_row_ok _ (tn_thread_ref (tc_turn_ref c))) by done.
  rewrite (conversation_from_row_ok _ (tc_conversation_ref c)) by done. cbn. decode.
  destruct c as [? []]; cbn in *. by rewrite Hv.
Qed.

(** * JSON columns *)

Section json.
Context {FT : FloatText}.

Lemma json_roundtrip v w : sorted_keys v = w → printable w → loads float_of_text (json_text v) = Ok w.
Proof. intros <- Hp. by apply loads_value_text. Qed.

Lemma json_text_ne v w : sorted_keys v = w → printable w → json_text v ≠ [].
Proof.
  intros <- Hp E. destruct (value_text_head _ Hp) as (c & t & Et & _). unfold json_text in E. by rewrite Et in E.
Qed.

Definition all_printable (l : list jvalue) : Prop := foldr (λ v P, printable v ∧ P) True l.
Lemma all_printable_fmap {A} (f : A → jvalue) (l : list A) :
  Forall (λ x, printable (f x)) l → all_printable (f <$> l).
Proof. by induction 1. Qed.

Lemma sorted_keys_fmap {A} (f g : A → jvalue) (l : list A) :
  (∀ x, sorted_keys (f x) = g x) → sorted_keys (VArr (f <$> l)) = VArr (g <$> l).
Proof. intros Hf. cbn. f_equal. induction l as [|x l IH]; [done|]. cbn. by rewrite Hf, IH. Qed.

(** ** Response shapes *)

Definition question_document (q : UserInputQuestionShape) : jvalue :=
  VObj [(py "allows_other", VBool (qs_allows_other q));
        (py "choice_ids", VArr (VStr <$> qs_choice_ids q));
        (py "max_answers", VInt (qs_max_answers q));
        (py "min_answers", VInt (qs_min_answers q));
        (py "question_id", VStr (qs_question_id q))].

Definition shape_document (shape : RequestResponseShape) : jvalue :=
  match shape with
  | ApprovalResponseShape ids => VObj [(py "choice_ids", VArr (VStr <$> ids)); (py "kind", VStr (py "approval"))]
  | UserInputResponseShape qs =>
      VObj [(py "kind", VStr (py "user_input")); (py "questions", VArr (question_document <$> qs))]
  end.

Lemma sorted_question q : sorted_keys (encode_question q) = question_document q.
Proof.
  unfold question_document. rewrite <- (sorted_keys_fmap VStr VStr (qs_choice_ids q)) by done. reflexivity.
Qed.

Lemma printable_texts (l : list pystr) : printable (VArr (VStr <$> l)).
Proof. apply all_printable_fmap. by apply Forall_true. Qed.

Lemma keys_distinct (d : Metadata) : bool_decide (NoDup d.*1) = true → NoDup d.*1.
Proof. apply bool_decide_eq_true. Qed.

Lemma printable_question q : printable (question_document q).
Proof. split; [by apply keys_distinct; vm_compute|]. cbn. split_and!; try done. apply printable_texts. Qed.

Lemma sorted_shape shape :
  sorted_keys (match shape with
    | ApprovalResponseShape ids => VObj [(py "kind", VStr (py "approval")); (py "choice_ids", VArr (VStr <$> ids))]
    | UserInputResponseShape qs =>
        VObj [(py "kind", VStr (py "user_input")); (py "questions", VArr (encode_question <$> qs))] end)
  = shape_document shape.
Proof.
  destruct shape as [ids|qs]; unfold shape_document.
  - rewrite <- (sorted_keys_fmap VStr VStr ids) at 2 by done. reflexivity.
  - rewrite <- (sorted_keys_fmap encode_question question_document qs) by apply sorted_question. reflexivity.
Qed.

Lemma printable_shape shape : printable (shape_document shape).
Proof.
  destruct shape as [ids|qs]; (split; [by apply keys_distinct; vm_compute|]); cbn; split_and!; try done.
  - apply printable_texts.
  - apply all_printable_fmap. apply Forall_true. apply printable_question.
Qed.

Lemma map_texts (l : list pystr) : map_res json_str (VStr <$> l) = Ok l.
Proof. apply map_res_fmap. by apply Forall_true. Qed.

Lemma decode_question_document q : decode_question (question_document q) = Ok q.
Proof.
  change (decode_question (question_document q)) with
    (choice_ids ← map_res json_str (VStr <$> qs_choice_ids q);
     Ok {| qs_question_id := qs_question_id q; qs_choice_ids := choice_ids; qs_allows_other := qs_allows_other q;
           qs_min_answers := qs_min_answers q; qs_max_answers := qs_max_answers q |}).
  rewrite map_texts. by destruct q.
Qed.

Lemma shape_roundtrip shape : decode_response_shape (SText (encode_response_shape shape)) = Ok shape.
Proof.
  unfold decode_response_shape, encode_response_shape.
  pose proof (sorted_shape shape) as Hs. pose proof (printable_shape shape) as Hp.
  rewrite required_text_ok by (by eapply json_text_ne). rewrite ok_bind, (json_roundtrip _ _ Hs Hp), ok_bind.
  destruct shape as [ids|qs].
  - transitivity (choice_ids ← map_res json_str (VStr <$> ids); Ok (ApprovalResponseShape choice_ids));
      [reflexivity|by rewrite map_texts].
  - transitivity (decoded ← map_res decode_question (question_document <$> qs); Ok (UserInputResponseShape decoded));
      [reflexivity|].
    rewrite map_res_fmap; [done|]. apply Forall_true. apply decode_question_document.
Qed.
(** ** Receipts *)

Definition item_document (i : DeliveryItemReceipt) : jvalue :=
  VObj [(py "attachment_id", opt_json (di_attachment_id i));
        (py "content_index", VInt (di_content_index i));
        (py "detail", VNull);
        (py "native_message_id", opt_json (di_native_message_id i));
        (py "status", VStr (enum_value (di_status i)))].
Definition segment_document (g : DeliverySegmentReceipt) : jvalue :=
  VObj [(py "delivery_id", VStr (dg_delivery_id g));
        (py "detail", VNull);
        (py "native_message_id", opt_json (dg_native_message_id g));
        (py "retry_after_seconds", opt_number (dg_retry_after_seconds g));
        (py "segment_index", VInt (dg_segment_index g));
        (py "source_content_indexes", VArr (VInt <$> dg_source_content_indexes g));
        (py "status", VStr (enum_value (dg_status g)))].
Definition receipt_document (r : DeliveryReceipt) : jvalue :=
  VObj [(py "detail", VNull);
        (py "items", VArr (item_document <$> dr_items r));
        (py "native_message_id", opt_json (dr_native_message_id r));
        (py "retry_after_seconds", opt_number (dr_retry_after_seconds r));
        (py "segments", VArr (segment_document <$> dr_segments r));
        (py "status", VStr (enum_value (dr_status r)))].

(** The values of a receipt that a document carries: no detail, texts that are not
    empty, and floats. *)
Definition text_storable (x : option pystr) : Prop := x ≠ Some [].
Definition number_storable (x : option pyfloat) : Prop :=
  match x with Some (Finite q) => is_float q | _ => True end.
Definition item_storable (i : DeliveryItemReceipt) : Prop :=
  di_detail i = None ∧ text_storable (di_attachment_id i) ∧ text_storable (di_native_message_id i).
Definition segment_storable (g : DeliverySegmentReceipt) : Prop :=
  dg_detail g = None ∧ dg_delivery_id g ≠ [] ∧ text_storable (dg_native_message_id g)
  ∧ number_storable (dg_retry_after_seconds g).
Definition receipt_storable (r : DeliveryReceipt) : Prop :=
  dr_detail r = None ∧ text_storable (dr_native_message_id r) ∧ number_storable (dr_retry_after_seconds r)
  ∧ Forall item_storable (dr_items r) ∧ Forall segment_storable (dr_segments r).

Lemma sorted_opt_json x : sorted_keys (opt_json x) = opt_json x.
Proof. by destruct x. Qed.
Lemma sorted_opt_number x : sorted_keys (opt_number x) = opt_number x.
Proof. by destruct x. Qed.
Lemma printable_opt_json x : printable (opt_json x).
Proof. by destruct x. Qed.
Lemma printable_opt_number x : number_storable x → printable (opt_number x).
Proof. by destruct x as [[]|]. Qed.

Lemma sorted_item i : sorted_keys (encode_item i) = item_document i.
Proof. unfold encode_item, item_document. by destruct i as [? ? [] []]. Qed.
Lemma sorted_segment g : sorted_keys (encode_segment g) = segment_document g.
Proof.
  unfold segment_document. rewrite <- (sorted_keys_fmap VInt VInt (dg_source_content_indexes g)) by done.
  by destruct g as [? ? ? ? [] ? []].
Qed.
Lemma sorted_receipt r :
  sorted_keys (VObj
    [(py "status", VStr (enum_value (dr_status r)));
     (py "native_message_id", opt_json (dr_native_message_id r));
     (py "detail", VNull);
     (py "retry_after_seconds", opt_number (dr_retry_after_seconds r));
     (py "items", VArr (encode_item <$> dr_items r));
     (py "segments", VArr (encode_segment <$> dr_segments r))]) = receipt_document r.
Proof.
  unfold receipt_document.
  rewrite <- (sorted_keys_fmap encode_item item_document (dr_items r)) by apply sorted_item.
  rewrite <- (sorted_keys_fmap encode_segment segment_document (dr_segments r)) by apply sorted_segment.
  by destruct r as [? [] ? ? ? []].
Qed.

Lemma printable_item i : printable (item_document i).
Proof. split; [by apply keys_distinct; vm_compute|]. cbn. by split_and!; try apply printable_opt_json. Qed.
Lemma printable_segment g : segment_storable g → printable (segment_document g).
Proof.
  intros (_ & _ & _ & Hn). split; [by apply keys_distinct; vm_compute|]. cbn.
  split_and!; try done; try apply printable_opt_json; [by apply printable_opt_number|].
  apply all_printable_fmap. by apply Forall_true.
Qed.
Lemma printable_receipt r : receipt_storable r → printable (receipt_document r).
Proof.
  intros (_ & _ & Hn & _ & Hg). split; [by apply keys_distinct; vm_compute|]. cbn.
  split_and!; try done; try apply printable_opt_json; try by apply printable_opt_number.
  - apply all_printable_fmap, Forall_true, printable_item.
  - apply all_printable_fmap. eapply Forall_impl; [exact Hg|]. apply printable_segment.
Qed.

Lemma json_text_field s : s ≠ [] → _json_required_text (VStr s) = Ok s.
Proof. intros. cbn. by rewrite no_raise. Qed.
Lemma opt_json_field x : text_storable x → _json_optional_text (opt_json x) = Ok x.
Proof. intros Hx. destruct x as [s|]; [|done]. cbn [opt_json _json_optional_text]. rewrite json_text_field; [done|congruence]. Qed.
Lemma opt_number_field x : _json_optional_number (opt_number x) = Ok x.
Proof. by destruct x. Qed.
Lemma enum_value_ne {A} `{StrEnum A} (a : A) : enum_of (@nil N) = (Err ValueError : res A) → enum_value a ≠ [].
Proof. intros He Ha. pose proof (enum_of_value a) as Hv. rewrite Ha, He in Hv. done. Qed.
Lemma enum_field_ok {A} `{StrEnum A} (a : A) :
  enum_of (@nil N) = (Err ValueError : res A) → enum_field (VStr (enum_value a)) = Ok a.
Proof.
  intros He. unfold enum_field. rewrite json_text_field by by apply enum_value_ne. apply enum_of_value.
Qed.
Lemma map_integers (l : list Z) : map_res _json_integer (VInt <$> l) = Ok l.
Proof. apply map_res_fmap. by apply Forall_true. Qed.

Lemma decode_item_document i : item_storable i → _decode_item_receipt (item_document i) = Ok i.
Proof.
  intros (Hd & Ha & Hm).
  transitivity (status ← enum_field (VStr (enum_value (di_status i)));
    attachment_id ← _json_optional_text (opt_json (di_attachment_id i));
    native_message_id ← _json_optional_text (opt_json (di_native_message_id i));
    Ok {| di_content_index := di_content_index i; di_status := status; di_attachment_id := attachment_id;
          di_native_message_id := native_message_id; di_detail := None |}); [reflexivity|].
  rewrite enum_field_ok by done. rewrite !opt_json_field by done. destruct i; cbn in *. by subst.
Qed.

Lemma decode_segment_document g : segment_storable g → _decode_segment_receipt (segment_document g) = Ok g.
Proof.
  intros (Hd & Hi & Hm & _).
  transitivity (delivery_id ← _json_required_text (VStr (dg_delivery_id g));
    source_content_indexes ← map_res _json_integer (VInt <$> dg_source_content_indexes g);
    status ← enum_field (VStr (enum_value (dg_status g)));
    native_message_id ← _json_optional_text (opt_json (dg_native_message_id g));
    retry_after_seconds ← _json_optional_number (opt_number (dg_retry_after_seconds g));
    Ok {| dg_segment_index := dg_segment_index g; dg_delivery_id := delivery_id;
          dg_source_content_indexes := source_content_indexes; dg_status := status;
          dg_native_message_id := native_message_id; dg_detail := None;
          dg_retry_after_seconds := retry_after_seconds |}); [reflexivity|].
  rewrite json_text_field, ok_bind, map_integers, ok_bind, enum_field_ok by done.
  rewrite ok_bind, opt_json_field, ok_bind, opt_number_field by done. destruct g; cbn in *. by subst.
Qed.

Lemma receipt_roundtrip receipt :
  (∀ r, receipt = Some r → receipt_storable r) → decode_receipt (opt_text (encode_receipt receipt)) = Ok receipt.
Proof.
  intros Hr. destruct receipt as [r|]; [|done]. specialize (Hr r eq_refl).
  unfold decode_receipt, encode_receipt. cbn [opt_text fmap option_fmap option_map].
  rewrite (json_roundtrip _ _ (sorted_receipt r) (printable_receipt r Hr)), ok_bind.
  destruct Hr as (Hd & Hm & _ & Hi & Hg).
  transitivity (status ← enum_field (VStr (enum_value (dr_status r)));
    native_message_id ← _json_optional_text (opt_json (dr_native_message_id r));
    retry_after_seconds ← _json_optional_number (opt_number (dr_retry_after_seconds r));
    items ← map_res _decode_item_receipt (item_document <$> dr_items r);
    segments ← map_res _decode_segment_receipt (segment_document <$> dr_segments r);
    Ok (Some {| dr_status := status; dr_native_message_id := native_message_id; dr_detail := None;
                dr_items := items; dr_segments := segments; dr_retry_after_seconds := retry_after_seconds |}));
    [reflexivity|].
  rewrite enum_field_ok, ok_bind, opt_json_field, ok_bind, opt_number_field, ok_bind by done.
  rewrite (map_res_fmap _decode_item_receipt item_document) by (eapply Forall_impl; [exact Hi|]; apply decode_item_document). rewrite ok_bind.
  rewrite (map_res_fmap _decode_segment_receipt segment_document) by (eapply Forall_impl; [exact Hg|]; apply decode_segment_document). rewrite ok_bind.
  destruct r; cbn in *. by subst.
Qed.
(** A validated receipt without detail is storable, when its numbers are floats. *)
Definition receipt_floats (r : DeliveryReceipt) : Prop :=
  number_storable (dr_retry_after_seconds r) ∧ Forall (λ g, number_storable (dg_retry_after_seconds g)) (dr_segments r).

Lemma when_storable (x : option pystr) n : when_some x (λ i, require_identifier i n) = Ok () → text_storable x.
Proof. intros Hx ->. by destruct (when_identifier _ _ Hx [] eq_refl). Qed.

Lemma valid_items_storable seen items :
  validate_receipt_items seen items = Ok () →
  Forall (λ i, text_storable (di_attachment_id i) ∧ text_storable (di_native_message_id i)) items.
Proof.
  revert seen. induction items as [|i items IH]; intros seen; cbn; [done|]. rewrite !then_ok.
  intros (_ & _ & _ & H1 & H2 & H). constructor; [split; by eapply when_storable|by eapply IH].
Qed.

Lemma valid_segments_storable seen ids segments :
  validate_receipt_segments seen ids segments = Ok () →
  Forall (λ g, dg_delivery_id g ≠ [] ∧ text_storable (dg_native_message_id g)) segments.
Proof.
  revert seen ids. induction segments as [|g segments IH]; intros seen ids; cbn; [done|]. rewrite !then_ok.
  intros (_ & _ & H1 & _ & _ & _ & _ & _ & _ & H2 & H). apply require_identifier_ok in H1 as [H1 _].
  constructor; [split; [done|by eapply when_storable]|by eapply IH].
Qed.

Lemma valid_receipt_storable r :
  validate_delivery_receipt r = Ok () → _validate_durable_delivery_receipt r = Ok () → receipt_floats r →
  receipt_storable r.
Proof.
  unfold validate_delivery_receipt, _validate_durable_delivery_receipt. rewrite !then_ok.
  intros (_ & Hm & Hi & Hg & _) (Hd & Hdi & Hdg%raise_if_ok) [Hf Hfg].
  apply raise_if_ok in Hd, Hdi. apply valid_items_storable in Hi. apply valid_segments_storable in Hg.
  apply List.Forall_Exists_neg in Hdi, Hdg.
  split_and!; [by apply eq_None_not_Some|by eapply when_storable|done| |].
  - eapply Forall_impl; [apply Forall_and; split; [exact Hi|exact Hdi]|].
    intros i [[H1 H2] H3]. split_and!; try done. by apply eq_None_not_Some.
  - eapply Forall_impl; [apply Forall_and; split; [exact Hg|apply Forall_and; split; [exact Hdg|exact Hfg]]|].
    intros g [[H1 H2] [H3 H4]]. split_and!; try done. by apply eq_None_not_Some.
Qed.

(** * Request correlations *)

Lemma enum_column_ok {A} `{StrEnum A} (a : A) :
  enum_of (@nil N) = (Err ValueError : res A) → enum_column (SText (enum_value a)) = Ok a.
Proof.
  intros He. unfold enum_column. rewrite required_text_ok by by apply enum_value_ne. apply enum_of_value.
Qed.

Lemma request_row_roundtrip c :
  validate_request_route_correlation c = Ok () → storable_time (rr_created_at c) →
  storable_time (rr_updated_at c) → storable_opt (rr_expires_at c) →
  request_correlation_from_row
    (make_row (sc_columns request_route_correlations_schema) (request_correlation_to_row c)) = Ok c.
Proof.
  intros Hv Hc Hu He. pose proof Hv as Hv'.
  unfold validate_request_route_correlation, validate_turn_ref, validate_request_ref in Hv'.
  rewrite !then_ok in Hv'.
  destruct Hv' as (Hid & Hreq & (Hth & Hturn) & Happ%raise_if_ok%dec_stable & Hch & Hcv & Hdel & _).
  destruct Hreq as [_ Hreq]. apply require_identifier_ok in Hid, Hreq, Hturn, Hch, Hcv, Hdel.
  unfold turn_application_id in Happ. unfold request_correlation_from_row.
  rewrite (thread_from_row_ok _ (tn_thread_ref (rr_turn_ref c))) by (done || by rewrite Happ).
  rewrite (conversation_from_row_ok _ (rr_conversation_ref c)) by done.
  cbn.
  decode. rewrite shape_roundtrip, ok_bind, enum_column_ok, ok_bind by done.
  change (opt_text (isoformat <$> rr_expires_at c)) with (opt_time (rr_expires_at c)). decode.
  destruct c as [? [[]] [] ? ? ? ? ? ? ?]; cbn in *; subst. by rewrite Hv.
Qed.

(** * Delivery submissions *)

Definition destination_times (d : DestinationDeliveryRecord) : Prop :=
  storable_time (dd_updated_at d) ∧ storable_opt (ds_route_updated_at (dd_snapshot d)).
Definition destination_floats (d : DestinationDeliveryRecord) : Prop :=
  ∀ r, dd_receipt d = Some r → receipt_floats r.

Lemma scope_text s : identifier s → _optional_route_scope_text (SText s) = Ok (Some s).
Proof.
  intros [Hs Hl]. unfold _optional_route_scope_text. rewrite decide_False by congruence.
  cbn. by rewrite required_text_ok.
Qed.

Lemma scope_empty : _optional_route_scope_text (SText []) = Ok None.
Proof. done. Qed.

Lemma destination_row_roundtrip root d :
  identifier (dd_delivery_id d) → validate_delivery_route_snapshot (dd_snapshot d) = Ok () →
  (∀ r, dd_receipt d = Some r → validate_delivery_receipt r = Ok () ∧ _validate_durable_delivery_receipt r = Ok ()) →
  destination_times d → destination_floats d →
  delivery_destination_from_row
    (make_row (sc_columns delivery_submission_destinations_schema) (delivery_destination_to_row root d)) = Ok d.
Proof.
  intros Hid Hv Hr [Ht Hrt] Hf.
  assert (decode_receipt (opt_text (encode_receipt (dd_receipt d))) = Ok (dd_receipt d)) as Hreceipt.
  { apply receipt_roundtrip. intros r Hd. destruct (Hr r Hd). by apply valid_receipt_storable, Hf. }
  destruct d as [id [[ch cv] th route rt reply] st t receipt]; cbn in *.
  unfold validate_delivery_route_snapshot, _validate_conversation_ref in Hv. cbn in Hv.
  apply then_ok in Hv as [[Hch Hcv]%then_ok Hv]. apply require_identifier_ok in Hch, Hcv.
  unfold delivery_destination_from_row, conversation_from_row.
  cbn -[thread_storage_key].
  destruct th as [[[app proj] th]|].
  - apply then_ok in Hv as [Hth [Hroute Hreply]%then_ok]. apply thread_identifiers in Hth as (Ha & Hp & Ht').
    apply require_identifier_ok in Hroute. pose proof (when_identifier _ _ Hreply).
    destruct route as [route|]; [|by destruct Hroute]. cbn in Ha, Hp, Ht', Hroute.
    cbn.
    rewrite no_raise, ok_bind, !scope_text, !ok_bind by (done || naive_solver).
    change (opt_text (isoformat <$> rt)) with (opt_time rt). change (SText (isoformat t)) with (time t).
    decode. rewrite enum_column_ok, ok_bind, Hreceipt, ok_bind by done. by decode.
  - apply raise_if_ok in Hv.
    assert (route = None ∧ rt = None ∧ reply = None) as (-> & -> & ->).
    { rewrite !eq_None_not_Some. tauto. }
    cbn.
    rewrite no_raise, ok_bind by naive_solver.
    change (SText (isoformat t)) with (time t).
    rewrite !scope_empty, !ok_bind. decode. rewrite enum_column_ok, ok_bind, Hreceipt, ok_bind by done. by decode.
Qed.
(** What the validator of a submission says of its destinations. *)
Definition destination_valid (d : DestinationDeliveryRecord) : Prop :=
  identifier (dd_delivery_id d) ∧ validate_delivery_route_snapshot (dd_snapshot d) = Ok () ∧
  ∀ r, dd_receipt d = Some r → validate_delivery_receipt r = Ok () ∧ _validate_durable_delivery_receipt r = Ok ().

Lemma valid_destinations seen l : validate_destinations seen l = Ok () → Forall destination_valid l.
Proof.
  revert seen. induction l as [|d l IH]; intros seen; cbn; [done|]. rewrite !then_ok.
  intros (Hid%require_identifier_ok & _ & _ & Hs & Hr & Hl). constructor; [|by eapply IH]. split_and!; [done|done|].
  rewrite when_some_ok in Hr. intros r Hd. by apply then_ok, Hr.
Qed.

Lemma valid_submission r : validate_delivery_submission_record r = Ok () →
  identifier (sr_submission_id r) ∧ identifier (sr_delivery_id r) ∧ identifier (sr_principal_id r) ∧
  identifier (sr_target_fingerprint r) ∧ identifier (sr_payload_fingerprint r) ∧
  Forall destination_valid (sr_destinations r).
Proof.
  unfold validate_delivery_submission_record. rewrite !then_ok.
  intros (H1 & H2 & H3 & H4 & H5 & _ & _ & _ & _ & Hd). apply require_identifier_ok in H1, H2, H3, H4, H5.
  split_and!; try done. by eapply valid_destinations.
Qed.

Definition submission_times (r : DeliverySubmissionRecord) : Prop :=
  storable_time (sr_created_at r) ∧ storable_time (sr_updated_at r) ∧ Forall destination_times (sr_destinations r).
Definition submission_floats (r : DeliverySubmissionRecord) : Prop := Forall destination_floats (sr_destinations r).

Lemma submission_rows_roundtrip r :
  validate_delivery_submission_record r = Ok () → submission_times r → submission_floats r →
  delivery_submission_from_rows
    (make_row (sc_columns delivery_submissions_schema) (delivery_submission_to_row r))
    ((λ d, make_row (sc_columns delivery_submission_destinations_schema)
             (delivery_destination_to_row (sr_submission_id r) d)) <$> sr_destinations r) = Ok r.
Proof.
  intros Hv (Hc & Hu & Hts) Hfs. destruct (valid_submission r Hv) as (H1 & H2 & H3 & H4 & H5 & Hds).
  unfold delivery_submission_from_rows. cbn. decode. rewrite enum_column_ok by done. decode.
  rewrite map_res_fmap.
  - decode. destruct r; cbn in *. by rewrite Hv.
  - apply Forall_forall. intros d Hd. unfold submission_floats in Hfs. rewrite Forall_forall in Hts, Hfs, Hds.
    destruct (Hds d Hd) as (? & ? & ?). apply destination_row_roundtrip; eauto.
Qed.
End json.

(** * Queued inputs *)

Lemma valid_queued c : validate_queued_input_correlation c = Ok () →
  let o := qc_origin c in
  identifier (cv_channel_instance_id (qo_conversation_ref o)) ∧
  identifier (cv_native_conversation_id (qo_conversation_ref o)) ∧ identifier (qo_message_id o) ∧
  len (qo_actor_fingerprint o) = 64 ∧ validate_thread_ref (qo_thread_ref o) = Ok () ∧
  identifier (qo_client_message_id o) ∧ len (qo_input_fingerprint o) = 64 ∧
  (∀ r, qc_receipt c = Some r → identifier (qr_queued_item_id r) ∧
    (∀ t, qr_turn_ref r = Some t → identifier (tn_turn_id t) ∧ tn_thread_ref t = qr_thread_ref r) ∧
    qr_thread_ref r = qo_thread_ref o ∧ qr_client_message_id r = qo_client_message_id o ∧
    qr_input_fingerprint r = qo_input_fingerprint o).
Proof.
  unfold validate_queued_input_correlation, validate_queued_input_origin, _validate_queued_input_lookup,
    validate_queued_input_dispatch. rewrite !then_ok. cbn zeta.
  intros (((Hch & Hcv & Hm) & _ & Hactor & (Hth & Hclient & Hinput) & _) & _ & _ & Hr).
  unfold _require_queued_identifier in *. apply require_identifier_ok in Hch, Hcv, Hm, Hclient.
  apply raise_if_ok in Hactor, Hinput. cbn in Hth, Hclient, Hinput.
  assert (∀ s : pystr, ¬ (len s ≠ 64 ∨ forallb is_hex_char s = false) → len s = 64) as Hlen
    by (intros s Hs; apply dec_stable; tauto).
  split_and!; auto. intros r E. rewrite when_some_ok in Hr. specialize (Hr r E). rewrite !then_ok in Hr.
  destruct Hr as (Hq%validate_queued_input_receipt_ok & Hitem & Hturn & Hsame%raise_if_ok).
  apply require_identifier_ok in Hitem. rewrite when_some_ok in Hturn.
  split_and!; [done| |by apply dec_stable; tauto..].
  intros t Ht. split; [by eapply require_identifier_ok, Hturn|].
  pose proof (qrv_turn r Hq) as Hqt. rewrite Ht in Hqt. by destruct Hqt as (_ & _ & ?).
Qed.

Lemma required_fingerprint s : len s = 64 → required_text (SText s) = Ok s.
Proof. intros Hs. apply required_text_ok. by intros ->. Qed.

Lemma queued_row_roundtrip c values :
  queued_input_correlation_to_row c = Ok values → storable_time (qc_created_at c) → storable_time (qc_updated_at c) →
  queued_input_correlation_from_row (make_row (sc_columns queued_input_correlations_schema) values) = Ok c.
Proof.
  unfold queued_input_correlation_to_row. rewrite then_ok. intros [Hv <-%(inj Ok)] Hc Hu.
  destruct (valid_queued c Hv) as (Hch & Hcv & Hm & Hactor & Hth & Hclient & Hinput & Hr).
  unfold queued_input_correlation_from_row.
  rewrite (thread_from_row_ok _ (qo_thread_ref (qc_origin c))) by done.
  rewrite (conversation_from_row_ok _ (qo_conversation_ref (qc_origin c))) by done. cbn.
  rewrite (required_identifier (qo_message_id _)), (required_identifier (qo_client_message_id _)) by done.
  rewrite (required_fingerprint (qo_actor_fingerprint _)), (required_fingerprint (qo_input_fingerprint _)) by done.
  rewrite enum_column_ok by done. decode.
  destruct (qc_receipt c) as [[th client item st turn fp]|] eqn:E; cbn.
  - destruct (Hr _ eq_refl) as (Hitem & Hturn & Et & Ec & Ef). cbn in Et, Ec, Ef, Hitem, Hturn. subst th client fp.
    assert (optional_text (opt_text (tn_turn_id <$> turn)) = Ok (tn_turn_id <$> turn)) as ->.
    { apply optional_identifier. intros s. destruct turn as [t|]; [|done]. intros [= <-]. by apply Hturn. }
    decode. rewrite enum_column_ok by done. decode.
    assert ((λ t, {| tn_thread_ref := qo_thread_ref (qc_origin c); tn_turn_id := t |}) <$> (tn_turn_id <$> turn) = turn) as ->.
    { destruct turn as [t|]; [|done]. cbn. destruct (Hturn t eq_refl) as [_ <-]. by destruct t. }
    destruct c as [[] ? ? ?]; cbn in *. subst. by rewrite Hv.
  - decode. destruct c as [[] ? ? ?]; cbn in *. subst. by rewrite Hv.
Qed.
