(* ===== verification/SqliteState.v ===== *)
(** The store of [gateway/persistence/sqlite.py]: every operation as the statements it
    runs on its connection.

    An operation holds the store's lock, so that it is one step.  [guard] is the mutation
    guard of the store, [now] what the clock says; the schema and its migrations, and the
    closing of the connection, are not modelled. *)

From S2P Require Export RowMapping Idempotency RequestCorrelation Bindings ProjectionRoutes Submissions.
From Stdlib Require Qcanon.
From stdpp Require Import list.
#[local] Open Scope Z_scope.
#[local] Open Scope stdpp_scope.
#[local] Open Scope string_scope.
#[local] Open Scope list_scope.
#[local] Open Scope Z_scope.

(** [gateway/persistence/sqlite.py:50-60] _same_turn_reply_correlation *)
Definition sqlite_same_turn_reply_correlation (left right : TurnReplyCorrelation) : Prop :=
  tc_correlation_id left = tc_correlation_id right ∧
  tc_turn_ref left = tc_turn_ref right ∧
  tc_client_message_id left = tc_client_message_id right ∧
  tc_conversation_ref left = tc_conversation_ref right ∧
  tc_reply_to_message_id left = tc_reply_to_message_id right.
#[export] Instance sqlite_same_turn_dec l r : Decision (sqlite_same_turn_reply_correlation l r).
Proof. unfold sqlite_same_turn_reply_correlation. apply _. Defined.

(** [gateway/persistence/sqlite.py:63-92] merge_projection_route *)
Definition merge_projection_route (existing : option ThreadProjectionRoute)
    (replacement : ThreadProjectionRoute) : res ThreadProjectionRoute :=
  match existing with
  | None => Ok replacement
  | Some existing =>
      raise_if (tr_route_id existing ≠ tr_route_id replacement
                ∨ tr_thread_ref existing ≠ tr_thread_ref replacement
                ∨ tr_conversation_ref existing ≠ tr_conversation_ref replacement)
        ProjectionRouteConflict ;;
      if decide (is_Some (tr_checkpoint_agent_item_id replacement)) then
        raise_if (tr_checkpoint_agent_item_id replacement ≠ tr_checkpoint_agent_item_id existing
                  ∨ tr_checkpointed_at replacement ≠ tr_checkpointed_at existing)
          ProjectionCheckpointConflict ;;
        Ok replacement
      else if decide (tr_checkpoint_agent_item_id existing = None) then Ok replacement
      else Ok (with_checkpoint replacement (tr_checkpoint_agent_item_id existing)
                 (tr_checkpointed_at existing))
  end.

(** [timedelta.total_seconds()] of a number of microseconds: the quotient, rounded to a
    float of 53 bits. *)
Definition total_seconds (us : Z) : pyfloat :=
  let n := Z.abs us in let d := 10 ^ 6 in
  if decide (n = 0) then seconds 0
  else
    let e := Z.log2 n - Z.log2 d - 53 in
    let e := if decide (d * 2 ^ (e `max` 0 + 53) ≤ n * 2 ^ (- (e `min` 0))) then e + 1 else e in
    let ratio a b := Qcanon.Q2Qc (QArith_base.Qmake a (Z.to_pos b)) in
    let m := round_half_even (ratio (n * 2 ^ (- (e `min` 0))) (d * 2 ^ (e `max` 0))) in
    let q := ratio (m * 2 ^ (e `max` 0)) (2 ^ (- (e `min` 0))) in
    Finite (if decide (us < 0) then Qcanon.Qcopp q else q).

Example total_seconds_exact : total_seconds 300000000 = seconds 300.
Proof. apply (bool_decide_eq_true_1 _). vm_compute. reflexivity. Qed.
(** [0.1] is the float nearest to a tenth. *)
Example total_seconds_rounds : total_seconds 100000 =
  Finite (Qcanon.Q2Qc (QArith_base.Qmake 3602879701896397 36028797018963968)).
Proof. apply (bool_decide_eq_true_1 _). vm_compute. reflexivity. Qed.

Section store.
Context `{ScanOrder} {FT : FloatText}.
Context (guard : database → res unit).

(** Statements that select by the values of columns. *)
Definition select_eq (name : table_name) (order : list string) (l : list (string * sqlvalue)) : M database (list row) :=
  sql_select name order l.*2 (where_eq l).
Definition select_one_eq (name : table_name) (l : list (string * sqlvalue)) : M database (option row) :=
  sql_select_one name l.*2 (where_eq l).
Definition delete_eq (name : table_name) (l : list (string * sqlvalue)) : M database Z :=
  sql_delete name l.*2 (where_eq l).

(** The columns that name a Conversation and a Thread. *)
Definition conversation_is (c : ConversationRef) : list (string * sqlvalue) :=
  [("channel_instance_id", SText (cv_channel_instance_id c));
   ("native_conversation_id", SText (cv_native_conversation_id c))].
Definition thread_is (t : ThreadRef) : list (string * sqlvalue) :=
  zip ["application_instance_id"; "project_id"; "thread_id"] (thread_storage_key (Some t)).
Definition selected_by {A} (f : A → list (string * sqlvalue)) (x : option A) : list (string * sqlvalue) :=
  match x with Some a => f a | None => [] end.

(** [gateway/persistence/sqlite.py:280-287] SQLiteGatewayState._begin_mutation *)
Definition _begin_mutation : M (connection database) unit :=
  begin_immediate ;;
  or_rollback (query (d ← get_st; lift (guard d))).

(** [self._begin_mutation(); try: ...; commit(); return; except BaseException: rollback(); raise] *)
Definition mutation {A} (m : M database A) : M (connection database) A :=
  _begin_mutation ;;
  or_rollback (a ← execute m; commit ;; mret a).

(** * Bindings *)

(** [SELECT MAX(generation)] of the rows of both tables. *)
Definition integer_column (c : string) (r : row) : option Z :=
  match column r c with SInt z => Some z | _ => None end.
Definition max_integer (c : string) (rows : list row) : option Z :=
  foldr (λ r best, union_with (λ x y, Some (x `max` y)) (integer_column c r) best) None rows.

(** [gateway/persistence/sqlite.py:320-344] SQLiteGatewayState.put: the generation there is *)
Definition current_generation_of (conversation : ConversationRef) : M database Z :=
  bindings ← select_eq conversation_bindings [] (conversation_is conversation);
  generations ← select_eq conversation_binding_generations [] (conversation_is conversation);
  mret (default 0 (max_integer "generation" (bindings ++ generations))).

Definition conversation_key : list string := ["channel_instance_id"; "native_conversation_id"].

(** [gateway/persistence/sqlite.py:293-308] SQLiteGatewayState.get *)
Definition sqlite_get (conversation : ConversationRef) : M (connection database) (option ConversationBinding) :=
  found ← query (select_one_eq conversation_bindings (conversation_is conversation));
  match found with
  | Some r => binding ← lift (binding_from_row r); mret (Some binding)
  | None => mret None
  end.

(** [gateway/persistence/sqlite.py:310-400] SQLiteGatewayState.put *)
Definition sqlite_put (now : datetime) (binding : ConversationBinding) (expected_generation : option Z)
    : M (connection database) ConversationBinding :=
  lift (validate_binding binding) ;;
  lift (_validate_generation expected_generation "expected_generation" true) ;;
  mutation (
    let conversation := cb_conversation_ref binding in
    current ← current_generation_of conversation;
    lift (check_expected_generation expected_generation current) ;;
    let stored := restamp binding (current + 1) now in
    sql_insert conversation_bindings (binding_to_row stored)
      (DoUpdate conversation_key ["application_instance_id"; "project_id"; "thread_id"; "generation"; "updated_at"]) ;;
    sql_insert conversation_binding_generations ((conversation_is conversation).*2 ++ [SInt (cb_generation stored)])
      (DoUpdate conversation_key ["generation"]) ;;
    mret stored).

(** [gateway/persistence/sqlite.py:402-470] SQLiteGatewayState.delete *)
Definition sqlite_delete (conversation : ConversationRef) (expected_generation : option Z)
    : M (connection database) unit :=
  lift (_validate_generation expected_generation "expected_generation" true) ;;
  mutation (
    current ← current_generation_of conversation;
    lift (check_expected_generation expected_generation current) ;;
    delete_eq conversation_bindings (conversation_is conversation) ;;
    sql_insert conversation_binding_generations ((conversation_is conversation).*2 ++ [SInt (current + 1)])
      (DoUpdate conversation_key ["generation"])).

(** * Projection routes *)

(** [tuple(decode(row) for row in rows)] *)
Definition decode_rows {A} (decode : row → res A) (rows : list row) : M (connection database) (list A) :=
  lift (map_res decode rows).

(** [gateway/persistence/sqlite.py:472-492] SQLiteGatewayState.list_projection_routes *)
Definition sqlite_list_projection_routes (thread_ref : option ThreadRef)
    : M (connection database) (list ThreadProjectionRoute) :=
  rows ← query (select_eq thread_projection_routes ["updated_at"] (selected_by thread_is thread_ref));
  decode_rows projection_route_from_row rows.

(** [gateway/persistence/sqlite.py:1052-1076] SQLiteGatewayState._write_projection_route *)
Definition _write_projection_route (now : datetime) (route : ThreadProjectionRoute) : M database unit :=
  let updated_at := default now (tr_updated_at route) in
  sql_insert thread_projection_routes (projection_route_to_row route (Some updated_at))
    (DoUpdate ["route_id"] ["reply_to_message_id"; "checkpoint_agent_item_id"; "checkpointed_at"; "updated_at"]).

(** A route that a statement found. *)
Definition read_route (l : list (string * sqlvalue)) : M database (option ThreadProjectionRoute) :=
  found ← select_one_eq thread_projection_routes l;
  match found with
  | Some r => route ← lift (projection_route_from_row r); mret (Some route)
  | None => mret None
  end.

(** [gateway/persistence/sqlite.py:1078-1086] SQLiteGatewayState._read_projection_route *)
Definition _read_projection_route (route_id : pystr) : M database (option ThreadProjectionRoute) :=
  read_route [("route_id", SText route_id)].

(** [gateway/persistence/sqlite.py:1088-1107] SQLiteGatewayState._read_projection_route_for_endpoints *)
Definition _read_projection_route_for_endpoints (route : ThreadProjectionRoute)
    : M database (option ThreadProjectionRoute) :=
  read_route (thread_is (tr_thread_ref route) ++ conversation_is (tr_conversation_ref route)).

(** [self._read_projection_route(...) or self._read_projection_route_for_endpoints(...)] *)
Definition existing_route (route : ThreadProjectionRoute) : M database (option ThreadProjectionRoute) :=
  by_id ← _read_projection_route (tr_route_id route);
  match by_id with
  | Some found => mret (Some found)
  | None => _read_projection_route_for_endpoints route
  end.

(** [gateway/persistence/sqlite.py:494-511] SQLiteGatewayState.put_projection_route *)
Definition sqlite_put_projection_route (now : datetime) (route : ThreadProjectionRoute)
    : M (connection database) ThreadProjectionRoute :=
  lift (validate_projection_route route) ;;
  mutation (
    existing ← existing_route route;
    stored ← lift (merge_projection_route existing route);
    _write_projection_route now stored ;;
    mret stored).

(** [gateway/persistence/sqlite.py:513-540] SQLiteGatewayState.replace_thread_projection_routes *)
Definition sqlite_replace_thread_projection_routes (now : datetime) (route : ThreadProjectionRoute)
    : M (connection database) ThreadProjectionRoute :=
  lift (validate_projection_route route) ;;
  mutation (
    existing ← existing_route route;
    stored ← lift (merge_projection_route existing route);
    delete_eq thread_projection_routes (thread_is (tr_thread_ref stored)) ;;
    _write_projection_route now stored ;;
    mret stored).

(** [route_id = ? AND (checkpoint_agent_item_id = ? OR (checkpoint_agent_item_id IS NULL AND ? IS NULL))] *)
Definition at_checkpoint (route_id : pystr) (expected : option pystr) (r : row) : Prop :=
  where_eq [("route_id", SText route_id)] r ∧
  (sql_eq (column r "checkpoint_agent_item_id") (opt_text expected)
   ∨ column r "checkpoint_agent_item_id" = SNull ∧ opt_text expected = SNull).
#[export] Instance at_checkpoint_dec i e r : Decision (at_checkpoint i e r).
Proof. unfold at_checkpoint. apply _. Defined.

(** [gateway/persistence/sqlite.py:542-598] SQLiteGatewayState.advance_projection_checkpoint *)
Definition sqlite_advance_projection_checkpoint (route_id : pystr) (expected_agent_item_id : option pystr)
    (agent_item_id : pystr) (checkpointed_at : datetime) : M (connection database) ThreadProjectionRoute :=
  advanced ← mutation (
    existing ← _read_projection_route route_id;
    match existing with
    | None => mraise KeyError
    | Some existing =>
        raise_if (tr_checkpoint_agent_item_id existing ≠ expected_agent_item_id) ProjectionCheckpointConflict ;;
        lift (validate_projection_route (with_checkpoint existing (Some agent_item_id) (Some checkpointed_at))) ;;
        rowcount ← sql_update thread_projection_routes
          [("checkpoint_agent_item_id", SText agent_item_id); ("checkpointed_at", time checkpointed_at)]
          [SText route_id; opt_text expected_agent_item_id; opt_text expected_agent_item_id]
          (at_checkpoint route_id expected_agent_item_id);
        raise_if (rowcount ≠ 1) ProjectionCheckpointConflict ;;
        _read_projection_route route_id
    end);
  match advanced with Some route => mret route | None => mraise KeyError end.

(** [gateway/persistence/sqlite.py:600-626] SQLiteGatewayState.delete_projection_routes *)
Definition sqlite_delete_projection_routes (thread_ref : ThreadRef) (conversation_ref : option ConversationRef)
    : M (connection database) Z :=
  mutation (delete_eq thread_projection_routes (thread_is thread_ref ++ selected_by conversation_is conversation_ref)).

(** * Turn reply correlations *)

Definition turn_is (thread_ref : ThreadRef) (turn_id : pystr) : list (string * sqlvalue) :=
  thread_is thread_ref ++ [("turn_id", SText turn_id)].

(** [gateway/persistence/sqlite.py:628-644] SQLiteGatewayState.get_turn_reply_correlation *)
Definition sqlite_get_turn_reply_correlation (thread_ref : ThreadRef) (turn_id : pystr)
    : M (connection database) (option TurnReplyCorrelation) :=
  found ← query (select_one_eq turn_reply_correlations (turn_is thread_ref turn_id));
  match found with
  | Some r => c ← lift (turn_reply_correlation_from_row r); mret (Some c)
  | None => mret None
  end.

(** [gateway/persistence/sqlite.py:646-666] SQLiteGatewayState.list_turn_reply_correlations *)
Definition sqlite_list_turn_reply_correlations (thread_ref : option ThreadRef)
    : M (connection database) (list TurnReplyCorrelation) :=
  rows ← query (select_eq turn_reply_correlations ["created_at"] (selected_by thread_is thread_ref));
  decode_rows turn_reply_correlation_from_row rows.

(** [gateway/persistence/sqlite.py:668-724] SQLiteGatewayState.put_turn_reply_correlation *)
Definition sqlite_put_turn_reply_correlation (correlation : TurnReplyCorrelation)
    : M (connection database) TurnReplyCorrelation :=
  lift (validate_turn_reply_correlation correlation) ;;
  mutation (
    sql_insert turn_reply_correlations (turn_reply_correlation_to_row correlation)
      (DoUpdate ["application_instance_id"; "project_id"; "thread_id"; "turn_id"] []) ;;
    found ← select_one_eq turn_reply_correlations
      (turn_is (tn_thread_ref (tc_turn_ref correlation)) (tn_turn_id (tc_turn_ref correlation)));
    match found with
    | None => mraise RuntimeError
    | Some r =>
        current ← lift (turn_reply_correlation_from_row r);
        raise_if (¬ sqlite_same_turn_reply_correlation current correlation) TurnReplyCorrelationConflict ;;
        mret current
    end).

(** [gateway/persistence/sqlite.py:726-748] SQLiteGatewayState.delete_turn_reply_correlation *)
Definition sqlite_delete_turn_reply_correlation (thread_ref : ThreadRef) (turn_id : pystr)
    : M (connection database) bool :=
  rowcount ← mutation (delete_eq turn_reply_correlations (turn_is thread_ref turn_id));
  mret (bool_decide (rowcount = 1)).

(** A deletion by columns and, optionally, by the age of a column: [c < ?]. *)
Definition older_row (c : string) (older_than : option datetime) (r : row) : Prop :=
  match older_than with Some limit => sql_lt (column r c) (time limit) | None => True end.
#[export] Instance older_row_dec c older_than r : Decision (older_row c older_than r).
Proof. unfold older_row. destruct older_than; apply _. Defined.
Definition delete_older (name : table_name) (l : list (string * sqlvalue)) (c : string) (older_than : option datetime)
    : M database Z :=
  sql_delete name (l.*2 ++ (time <$> option_list older_than)) (λ r, where_eq l r ∧ older_row c older_than r).

(** [gateway/persistence/sqlite.py:750-798] SQLiteGatewayState.delete_turn_reply_correlations *)
Definition sqlite_delete_turn_reply_correlations (thread_ref : option ThreadRef)
    (conversation_ref : option ConversationRef) (older_than : option datetime) : M (connection database) Z :=
  raise_if (thread_ref = None ∧ conversation_ref = None ∧ older_than = None) ValueError ;;
  mutation (delete_older turn_reply_correlations
    (selected_by thread_is thread_ref ++ selected_by conversation_is conversation_ref) "created_at" older_than).
(** * Request correlations *)

Definition request_is (r : RequestRef) : list (string * sqlvalue) :=
  [("application_instance_id", SText (ar_application_instance_id (rq_application_ref r)));
   ("native_request_id", SText (rq_native_request_id r))].

(** [gateway/persistence/sqlite.py:1437-1479] _append_request_selectors *)
Definition _append_request_selectors (request_ref : option RequestRef) (thread_ref : option ThreadRef)
    (conversation_ref : option ConversationRef) : list (string * sqlvalue) :=
  selected_by request_is request_ref ++ selected_by thread_is thread_ref ++ selected_by conversation_is conversation_ref.

(** [gateway/persistence/sqlite.py:800-823] SQLiteGatewayState.list_request_correlations *)
Definition sqlite_list_request_correlations (request_ref : option RequestRef) (thread_ref : option ThreadRef)
    (conversation_ref : option ConversationRef) : M (connection database) (list RequestRouteCorrelation) :=
  rows ← query (select_eq request_route_correlations ["created_at"; "correlation_id"]
    (_append_request_selectors request_ref thread_ref conversation_ref));
  decode_rows request_correlation_from_row rows.

(** [gateway/persistence/sqlite.py:1482-1513] _write_correlation *)
Definition _write_correlation (correlation : RequestRouteCorrelation) : M database unit :=
  sql_insert request_route_correlations (request_correlation_to_row correlation)
    (DoUpdate ["correlation_id"] ["delivery_id"; "response_shape_json"; "state"; "updated_at"; "expires_at"]).

(** The correlations of a request. *)
Definition correlations_of (request_ref : RequestRef) : M database (list RequestRouteCorrelation) :=
  rows ← select_eq request_route_correlations [] (request_is request_ref);
  lift (map_res request_correlation_from_row rows).

(** [gateway/persistence/sqlite.py:825-886] SQLiteGatewayState.put_request_correlation *)
Definition sqlite_put_request_correlation (correlation : RequestRouteCorrelation)
    : M (connection database) RequestRouteCorrelation :=
  lift (validate_request_route_correlation correlation) ;;
  mutation (
    request_correlations ← correlations_of (rr_request_ref correlation);
    let existing := head (filter (λ c, rr_correlation_id c = rr_correlation_id correlation) request_correlations) in
    stored ← lift (_merge_correlation existing correlation request_correlations);
    let endpoint := request_is (rr_request_ref stored) ++ conversation_is (rr_conversation_ref stored) in
    conflicting ← sql_select_one request_route_correlations (endpoint.*2 ++ [SText (rr_correlation_id stored)])
      (λ r, where_eq endpoint r ∧ column r "correlation_id" ≠ SNull
            ∧ column r "correlation_id" ≠ SText (rr_correlation_id stored));
    raise_if (is_Some conflicting) RequestCorrelationConflict ;;
    _write_correlation stored ;;
    mret stored).

(** [gateway/persistence/sqlite.py:888-923] SQLiteGatewayState.transition_request_correlations *)
Definition sqlite_transition_request_correlations (request_ref : RequestRef)
    (expected_states : list RequestRouteState) (state : RequestRouteState) (updated_at : datetime)
    : M (connection database) (list RequestRouteCorrelation) :=
  mutation (
    selected ← correlations_of request_ref;
    transitioned ← lift (_transition_correlations selected expected_states state updated_at);
    for_each transitioned _write_correlation ;;
    mret transitioned).

(** [gateway/persistence/sqlite.py:925-957] SQLiteGatewayState.delete_request_correlations *)
Definition sqlite_delete_request_correlations (request_ref : option RequestRef) (thread_ref : option ThreadRef)
    (conversation_ref : option ConversationRef) (older_than : option datetime) : M (connection database) Z :=
  lift (_require_delete_selector request_ref thread_ref conversation_ref older_than) ;;
  mutation (delete_older request_route_correlations
    (_append_request_selectors request_ref thread_ref conversation_ref) "updated_at" older_than).

(** * Delivery submissions *)

(** [gateway/persistence/sqlite.py:1516-1534] _read_submission *)
Definition _read_submission (submission_id : pystr) : M database (option DeliverySubmissionRecord) :=
  root ← select_one_eq delivery_submissions [("submission_id", SText submission_id)];
  match root with
  | None => mret None
  | Some root =>
      rows ← select_eq delivery_submission_destinations
        ["channel_instance_id"; "native_conversation_id"; "destination_delivery_id"]
        [("root_submission_id", SText submission_id)];
      record ← lift (delivery_submission_from_rows root rows);
      mret (Some record)
  end.

(** [gateway/persistence/sqlite.py:1564-1596] _write_destination *)
Definition _write_destination (root_submission_id : pystr) (destination : DestinationDeliveryRecord)
    : M database unit :=
  sql_insert delivery_submission_destinations (delivery_destination_to_row root_submission_id destination)
    (DoUpdate ["destination_delivery_id"] ["state"; "receipt_json"; "error"; "updated_at"]).

(** [gateway/persistence/sqlite.py:1537-1561] _write_submission *)
Definition _write_submission (record : DeliverySubmissionRecord) : M database unit :=
  sql_insert delivery_submissions (delivery_submission_to_row record) OrFail ;;
  for_each (sr_destinations record) (_write_destination (sr_submission_id record)).

(** [gateway/persistence/sqlite.py:959-964] SQLiteGatewayState.get_delivery_submission *)
Definition sqlite_get_delivery_submission (submission_id : pystr)
    : M (connection database) (option DeliverySubmissionRecord) :=
  query (_read_submission submission_id).

(** [gateway/persistence/sqlite.py:966-984] SQLiteGatewayState.reserve_delivery_submission *)
Definition sqlite_reserve_delivery_submission (record : DeliverySubmissionRecord)
    : M (connection database) DeliveryReservation :=
  lift (validate_delivery_submission_record record) ;;
  mutation (
    existing ← _read_submission (sr_submission_id record);
    match existing with
    | Some existing =>
        lift (ensure_same_delivery_submission_reservation existing record) ;;
        mret {| rv_acquired := false; rv_record := existing |}
    | None =>
        _write_submission record ;;
        mret {| rv_acquired := true; rv_record := record |}
    end).

(** [replace(current, destinations=..., updated_at=...)]: the destination in the place of
    those with its identity. *)
Definition with_destination (current : DeliverySubmissionRecord) (id : pystr)
    (destination : DestinationDeliveryRecord) (updated_at : datetime) : DeliverySubmissionRecord := {|
  sr_submission_id := sr_submission_id current; sr_delivery_id := sr_delivery_id current;
  sr_origin := sr_origin current; sr_principal_id := sr_principal_id current;
  sr_target_fingerprint := sr_target_fingerprint current; sr_payload_fingerprint := sr_payload_fingerprint current;
  sr_destinations := (λ d, if decide (dd_delivery_id d = id) then destination else d) <$> sr_destinations current;
  sr_created_at := sr_created_at current; sr_updated_at := updated_at |}.

(** [gateway/persistence/sqlite.py:986-1050] SQLiteGatewayState.update_delivery_destination *)
Definition sqlite_update_delivery_destination (submission_id destination_delivery_id : pystr)
    (expected_state : DeliverySubmissionState) (destination : DestinationDeliveryRecord)
    : M (connection database) DeliverySubmissionRecord :=
  raise_if (dd_delivery_id destination ≠ destination_delivery_id) DeliverySubmissionConflict ;;
  mutation (
    found ← _read_submission submission_id;
    match found with
    | None => mraise KeyError
    | Some current =>
        match head (filter (λ d, dd_delivery_id d = destination_delivery_id) (sr_destinations current)) with
        | None => mraise KeyError
        | Some existing =>
            if decide (dd_state existing ≠ expected_state) then
              raise_if (existing ≠ destination) DeliverySubmissionConflict ;;
              mret current
            else
              raise_if (dd_snapshot existing ≠ dd_snapshot destination) DeliverySubmissionConflict ;;
              _write_destination submission_id destination ;;
              updated_at ← lift (dt_max (sr_updated_at current) (dd_updated_at destination));
              sql_update delivery_submissions [("updated_at", time updated_at)] [SText submission_id]
                (where_eq [("submission_id", SText submission_id)]) ;;
              let updated := with_destination current destination_delivery_id destination updated_at in
              lift (validate_delivery_submission_record updated) ;;
              mret updated
        end
    end).

(** * Claims *)

Definition claim_is (scope key : pystr) : list (string * sqlvalue) :=
  [("scope", SText scope); ("record_key", SText key)].

(** [self._connection.rollback()], and a return or a raise. *)
Definition rolled_back {A} (r : res A) : M (connection database) A := rollback ;; lift r.

(** [gateway/persistence/sqlite.py:1109-1172] SQLiteGatewayState.claim: only an
    [IntegrityError] of the [INSERT] is caught. *)
Definition sqlite_claim (stale_claim_after_seconds : pyfloat) (now : datetime) (scope key : pystr)
    (owner_token : option pystr) : M (connection database) IdempotencyClaimStatus :=
  _begin_mutation ;;
  inserted ← mcatch (
    execute (sql_insert idempotency_records
      [SText scope; SText key; SText (py "in_flight"); opt_text owner_token; time now] OrFail) ;;
    commit);
  match inserted with
  | Ok _ => mret ACQUIRED
  | Err IntegrityError =>
      found ← query (select_one_eq idempotency_records (claim_is scope key));
      match found with
      | None => rolled_back (Err RuntimeError)
      | Some r =>
          match column r "status" with
          | SText status =>
              if decide (status = py "completed") then rolled_back (Ok ALREADY_COMPLETED)
              else if decide (status = py "side_effect_started") then rolled_back (Ok CLAIM_IN_FLIGHT)
              else if decide (status ≠ py "in_flight") then rolled_back (Err ValueError)
              else
                match decode_datetime (column r "updated_at") with
                | Err e => rolled_back (Err e)
                | Ok updated_at =>
                    let age := total_seconds (dt_us now - dt_us updated_at) in
                    if decide (float_lt age stale_claim_after_seconds) then rolled_back (Ok CLAIM_IN_FLIGHT)
                    else
                      execute (sql_update idempotency_records
                        [("owner_token", opt_text owner_token); ("updated_at", time now)] (claim_is scope key).*2
                        (where_eq (claim_is scope key))) ;;
                      commit ;;
                      mret ACQUIRED
                end
          | _ => rolled_back (Err ValueError)
          end
      end
  | Err e => mraise e
  end.

(** [... AND status = 'in_flight' AND owner_token IS ?] *)
Definition owned (scope key : pystr) (statuses : list string) (owner_token : option pystr) (r : row) : Prop :=
  where_eq (claim_is scope key) r ∧ column r "status" ∈ (λ s, SText (py s)) <$> statuses
  ∧ column r "owner_token" = opt_text owner_token.
#[export] Instance owned_dec scope key statuses owner r : Decision (owned scope key statuses owner r).
Proof. unfold owned. apply _. Defined.

(** An update of the claim of an owner, which raises unless there is one. *)
Definition update_owned (set : list (string * sqlvalue)) (scope key : pystr) (owner_token : option pystr)
    (p : row → Prop) `{∀ r, Decision (p r)} : M (connection database) unit :=
  mutation (
    rowcount ← sql_update idempotency_records set [SText scope; SText key; opt_text owner_token] p;
    raise_if (rowcount ≠ 1) RuntimeError).

(** [gateway/persistence/sqlite.py:1174-1198] SQLiteGatewayState.mark_side_effect_started *)
Definition sqlite_mark_side_effect_started (now : datetime) (scope key : pystr) (owner_token : option pystr)
    : M (connection database) unit :=
  update_owned [("status", SText (py "side_effect_started")); ("updated_at", time now)] scope key owner_token
    (owned scope key ["in_flight"] owner_token).

(** [gateway/persistence/sqlite.py:1200-1224] SQLiteGatewayState.refresh *)
Definition sqlite_refresh (now : datetime) (scope key : pystr) (owner_token : option pystr)
    : M (connection database) unit :=
  update_owned [("updated_at", time now)] scope key owner_token (owned scope key ["in_flight"] owner_token).

(** [WHERE scope = ? AND record_key = ? AND owner_token IS ?] *)
Definition owned_any (scope key : pystr) (owner_token : option pystr) (r : row) : Prop :=
  where_eq (claim_is scope key) r ∧ column r "owner_token" = opt_text owner_token.
#[export] Instance owned_any_dec scope key owner r : Decision (owned_any scope key owner r).
Proof. unfold owned_any. apply _. Defined.

(** [gateway/persistence/sqlite.py:1226-1249] SQLiteGatewayState.complete *)
Definition sqlite_complete (now : datetime) (scope key : pystr) (owner_token : option pystr)
    : M (connection database) unit :=
  update_owned [("status", SText (py "completed")); ("updated_at", time now)] scope key owner_token
    (owned_any scope key owner_token).

(** [gateway/persistence/sqlite.py:1251-1273] SQLiteGatewayState.release *)
Definition sqlite_release (scope key : pystr) (owner_token : option pystr) : M (connection database) unit :=
  mutation (
    sql_delete idempotency_records [SText scope; SText key; opt_text owner_token]
      (owned scope key ["in_flight"; "side_effect_started"] owner_token) ;;
    mret ()).
End store.
