(* ===== verification/SqlTheorems.v ===== *)
(** What a transaction of the store does, and tables that hold the entries of a
    dictionary: the statements on such a table are the operations of the dictionary. *)

From S2P Require Export SqliteState RowMappingTheorems.
From stdpp Require Import list sorting.
#[local] Open Scope Z_scope.
#[local] Open Scope stdpp_scope.

(** * Transactions *)

Section transactions.
Context (guard : database → res unit).

Lemma begin_idle d :
  _begin_mutation guard (Idle d) =
    match guard d with Ok _ => (Ok (), InTransaction d d) | Err e => (Err e, Idle d) end.
Proof.
  unfold _begin_mutation, or_rollback, query, begin_immediate, mcatch, mbind, M_bind. cbn. unfold lift.
  by destruct (guard d) as [[]|e].
Qed.

(** A mutation is all of its statements or nothing. *)
Lemma mutation_idle {A} (m : M database A) d :
  mutation guard m (Idle d) =
    match guard d with
    | Err e => (Err e, Idle d)
    | Ok _ => match m d with (Ok a, d') => (Ok a, Idle d') | (Err e, _) => (Err e, Idle d) end
    end.
Proof.
  unfold mutation, _begin_mutation, or_rollback, execute, query, mcatch, rollback, commit, mbind, M_bind,
    begin_immediate, modify, lift, get_st, mret, M_ret, mraise, M_raise. cbn.
  destruct (guard d) as [[]|e]; cbn; [|done]. by destruct (m d) as [[a|e] d'].
Qed.

Lemma mutation_in_transaction {A} (m : M database A) c d :
  mutation guard m (InTransaction c d) = (Err OperationalError, InTransaction c d).
Proof. done. Qed.

(** What holds of the statements holds of the mutation. *)
Lemma wp_mutation {A} (m : M database A) (Q : res A → connection database → Prop) d :
  (∀ e, Q (Err e) (Idle d)) → wp m (λ r d', match r with Ok a => Q (Ok a) (Idle d') | Err _ => True end) d →
  wp (mutation guard m) Q (Idle d).
Proof.
  unfold wp. intros He Hm. rewrite mutation_idle. destruct (guard d) as [[]|e]; [|apply He].
  revert Hm. destruct (m d) as [[a|e] d']; cbn; [done|intros _; apply He].
Qed.
End transactions.

(** * Rows *)

Lemma where_eq_nil r : where_eq [] r.
Proof. constructor. Qed.
Lemma where_eq_cons c v l r : where_eq ((c, v) :: l) r ↔ sql_eq (column r c) v ∧ where_eq l r.
Proof. unfold where_eq. by rewrite Forall_cons. Qed.
Lemma where_eq_app l l' r : where_eq (l ++ l') r ↔ where_eq l r ∧ where_eq l' r.
Proof. unfold where_eq. by rewrite Forall_app. Qed.
Lemma sql_eq_text s t : sql_eq (SText s) (SText t) ↔ s = t.
Proof. unfold sql_eq. split; [by intros [_ [= ->]]|by intros ->]. Qed.

Section scans.
Context {SO : ScanOrder}.

Lemma scan_nil : scan [] = [].
Proof. apply Permutation_nil_r. symmetry. by rewrite scan_perm. Qed.
Lemma scan_singleton r : scan [r] = [r].
Proof. apply Permutation_singleton_r. by rewrite scan_perm. Qed.

Lemma select_rows_perm order p `{∀ r, Decision (p r)} t : select_rows order p t ≡ₚ filter p t.
Proof. unfold select_rows. by rewrite merge_sort_Permutation, scan_perm. Qed.

(** The rows of a table that holds at most one of them. *)
Lemma select_rows_option order p `{∀ r, Decision (p r)} t x :
  filter p t = option_list x → select_rows order p t = option_list x.
Proof.
  intros E. unfold select_rows. rewrite E.
  destruct x as [r|]; [change (option_list (Some r)) with [r]|change (option_list (@None row)) with (@nil row)];
    by rewrite ?scan_singleton, ?scan_nil.
Qed.
End scans.

Lemma filter_none {A} (p : A → Prop) `{∀ x, Decision (p x)} (l : list A) : Forall (λ x, ¬ p x) l → filter p l = [].
Proof. induction 1 as [|x l Hx _ IH]; [done|]. by rewrite filter_cons, decide_False. Qed.

Lemma filter_iff_on {A} (p q : A → Prop) `{∀ x, Decision (p x), ∀ x, Decision (q x)} (l : list A) :
  (∀ x, x ∈ l → p x ↔ q x) → filter p l = filter q l.
Proof.
  intros Hpq. induction l as [|x l IH]; [done|]. rewrite !filter_cons, IH by (intros; apply Hpq; set_solver).
  specialize (Hpq x ltac:(set_solver)). repeat case_decide; tauto || done.
Qed.

(** Popping keys is filtering the entries. *)
Lemma d_pop_all_filter {K V} `{EqDecision K} (d : dict K V) ks : d_pop_all d ks = filter (λ kv, kv.1 ∉ ks) d.
Proof.
  unfold d_pop_all. revert d. induction ks as [|k ks IH]; intros d; cbn [foldl].
  - induction d as [|kv d IH]; [done|]. rewrite filter_cons, decide_True by set_solver. by f_equal.
  - rewrite IH. unfold d_pop. rewrite list_filter_filter. apply list_filter_iff. intros kv. set_solver.
Qed.

Lemma d_pop_selected {K V} `{EqDecision K} (Q : K * V → Prop) `{∀ kv, Decision (Q kv)} (d : dict K V) :
  well_formed d → d_pop_all d (d_keys (filter Q d)) = filter (λ kv, ¬ Q kv) d.
Proof.
  intros Hw. rewrite d_pop_all_filter. apply filter_iff_on. intros [k v] Hin. cbn.
  unfold d_keys. rewrite list_elem_of_fmap. split.
  - intros Hk Hq. apply Hk. exists (k, v). split; [done|]. by apply list_elem_of_filter.
  - intros Hq ([k' v'] & E & Hf). cbn in E. subst k'. apply list_elem_of_filter in Hf as [Hq' Hin'].
    pose proof (d_elem_get _ _ _ Hw Hin) as E1. pose proof (d_elem_get _ _ _ Hw Hin') as E2. congruence.
Qed.

Lemma d_keys_filter {K V} (q : K → Prop) `{∀ k, Decision (q k)} (d : dict K V) :
  filter q (d_keys d) = d_keys (filter (λ kv, q kv.1) d).
Proof.
  unfold d_keys. induction d as [|[k v] d IH]; [done|]. rewrite fmap_cons, !filter_cons. cbn [fst].
  case_decide; [|done]. by rewrite IH.
Qed.

(** * Tables of entries *)

Section entries.
Context {K V : Type} `{EqDecision K} (row_of : K → V → row) (P : K → V → Prop).

Definition entries (d : dict K V) : table := (λ kv, row_of kv.1 kv.2) <$> d.

(** A condition on rows that is one on entries. *)
Lemma entries_filter (p : row → Prop) `{∀ r, Decision (p r)} (q : K * V → Prop) `{∀ kv, Decision (q kv)} (d : dict K V) :
  d_all P d → (∀ k v, P k v → p (row_of k v) ↔ q (k, v)) → filter p (entries d) = entries (filter q d).
Proof.
  intros Hd Hpq. unfold entries. induction Hd as [|[k v] d Hkv _ IH]; [done|].
  cbn [fmap list_fmap fst snd] in *. rewrite !filter_cons. specialize (Hpq k v Hkv).
  destruct (decide (p (row_of k v))), (decide (q (k, v))); try tauto; cbn; by rewrite IH.
Qed.

Lemma entries_set_absent (k : K) (v : V) (d : dict K V) :
  d_get d k = None → entries d ++ [row_of k v] = entries (d_set d k v).
Proof. intros Hk%d_get_None. unfold entries. by rewrite d_set_absent, fmap_app. Qed.

(** A condition on rows that selects the entry of one key. *)
Section of_key.
Context (p : row → Prop) `{∀ r, Decision (p r)} (k : K).
Hypothesis Hp : ∀ k' v, P k' v → p (row_of k' v) ↔ k' = k.

Lemma entries_key (d : dict K V) :
  d_all P d → well_formed d → filter p (entries d) = option_list (row_of k <$> d_get d k).
Proof.
  intros Hd Hw. rewrite (entries_filter p (λ kv, kv.1 = k)) by done.
  unfold well_formed, d_keys in Hw. clear Hd. induction d as [|[a v] d IH]; [done|].
  cbn [fmap list_fmap fst] in Hw. apply NoDup_cons in Hw as [Ha Hw]. rewrite filter_cons. cbn [fst d_get].
  destruct (decide (a = k)) as [->|Hne]; [|by apply IH]. cbn. f_equal.
  rewrite filter_none; [done|].
  apply Forall_forall. intros [a v'] Hin E. cbn in E. subst. apply Ha. apply list_elem_of_fmap. by exists (k, v').
Qed.

(** A change of the rows of a key. *)
Lemma entries_update (v : V) (f : row → row) (d : dict K V) :
  d_all P d → well_formed d → (∀ v', d_get d k = Some v' → f (row_of k v') = row_of k v) → is_Some (d_get d k) →
  (λ r, if decide (p r) then f r else r) <$> entries d = entries (d_set d k v).
Proof.
  intros Hd Hw Hf Hk. unfold entries. unfold well_formed, d_keys in Hw.
  induction Hd as [|[a v'] d Hav Hd IH]; [by destruct Hk|].
  cbn [fmap list_fmap fst snd d_get d_set] in *. apply NoDup_cons in Hw as [Ha Hw].
  pose proof (Hp a v' Hav) as Hs. destruct (decide (a = k)) as [->|Hne].
  - rewrite decide_True by tauto. cbn. rewrite (Hf v') by done. f_equal.
    clear -Ha Hd Hp. induction Hd as [|[b v''] d Hb Hd IH]; [done|]. cbn in *.
    rewrite elem_of_cons in Ha. rewrite decide_False by (rewrite (Hp b v'' Hb); naive_solver).
    rewrite IH by tauto. done.
  - rewrite decide_False by tauto. cbn. f_equal. by apply IH.
Qed.

Lemma entries_pop (d : dict K V) : d_all P d → filter (λ r, ¬ p r) (entries d) = entries (d_pop d k).
Proof.
  intros Hd. apply (entries_filter (λ r, ¬ p r) (λ kv, kv.1 ≠ k)); [done|].
  intros k' v Hkv. specialize (Hp k' v Hkv). cbn. tauto.
Qed.

Lemma exists_entries (d : dict K V) : d_all P d → Exists p (entries d) ↔ is_Some (d_get d k).
Proof.
  intros Hd. rewrite d_get_keys. unfold entries, d_keys. rewrite Exists_exists. split.
  - intros (r & Hr & Hpr). apply list_elem_of_fmap in Hr as ([k' v] & -> & Hin). cbn in Hpr.
    unfold d_all in Hd. rewrite Forall_forall in Hd. apply (Hp k' v (Hd _ Hin)) in Hpr as ->.
    apply list_elem_of_fmap. by exists (k, v).
  - intros Hk. apply list_elem_of_fmap in Hk as ([k' v] & E & Hin). cbn in E. subst k'.
    exists (row_of k v). split; [apply list_elem_of_fmap; by exists (k, v)|].
    unfold d_all in Hd. rewrite Forall_forall in Hd. by apply (Hp k v (Hd _ Hin)).
Qed.
End of_key.

(** The keys of a table that an entry does not share with others. *)
Definition no_conflict (keys : list (list string)) (r : row) (t : table) : Prop :=
  Forall (λ key, ¬ Exists (same_key key r) t) keys.

Lemma insert_row_ok sch r t : row_fits sch r = true → no_conflict (sc_keys sch) r t → insert_row sch r t = Ok (t ++ [r]).
Proof.
  intros Hf Hc. unfold insert_row. rewrite Hf.
  rewrite (no_raise_then (true = false)) by done. rewrite no_raise_then; [done|]. by apply List.Forall_Exists_neg.
Qed.

Lemma entries_upsert sch target set (k : K) (v : V) (d : dict K V) :
  d_all P d → well_formed d → row_fits sch (row_of k v) = true →
  (∀ k' v', P k' v' → same_key target (row_of k v) (row_of k' v') ↔ k' = k) →
  (∀ v', d_get d k = Some v' →
    set_columns (row_of k v') ((λ c, (c, column (row_of k v) c)) <$> set) = row_of k v) →
  (d_get d k = None → no_conflict (sc_keys sch) (row_of k v) (entries d)) →
  upsert_row sch target set (row_of k v) (entries d) = Ok (entries (d_set d k v)).
Proof.
  intros Hd Hw Hf Hs Hset Hc. unfold upsert_row. rewrite Hf, (no_raise_then (true = false)) by done.
  pose proof (exists_entries (same_key target (row_of k v)) k Hs d Hd) as Hex.
  case_decide as Hk.
  - f_equal. apply entries_update; tauto.
  - assert (d_get d k = None) as Hn by (apply eq_None_not_Some; tauto).
    rewrite insert_row_ok by auto. by rewrite entries_set_absent.
Qed.

Lemma entries_insert sch (k : K) (v : V) (d : dict K V) :
  d_get d k = None → row_fits sch (row_of k v) = true → no_conflict (sc_keys sch) (row_of k v) (entries d) →
  insert_row sch (row_of k v) (entries d) = Ok (entries (d_set d k v)).
Proof. intros Hn Hf Hc. rewrite insert_row_ok by done. by rewrite entries_set_absent. Qed.
End entries.

(** * Ordered rows *)

#[export] Instance sql_le_total : Total sql_le.
Proof. intros [|x|s] [|y|t]; cbn; auto; [lia|]. apply str_le_total. Qed.
#[export] Instance sql_le_trans : Transitive sql_le.
Proof. intros [|x|s] [|y|t] [|z|u]; cbn; try done; [lia|]. apply str_le_trans. Qed.
#[export] Instance sql_le_antisymm : AntiSymm (=) sql_le.
Proof. intros [|x|s] [|y|t]; cbn; try done; [intros; f_equal; lia|]. intros. f_equal. by apply str_le_antisym. Qed.

#[export] Instance row_le_total cs : Total (row_le cs).
Proof.
  intros a b. induction cs as [|c cs IH]; cbn; [auto|].
  destruct (decide (column a c = column b c)) as [E|Hne]; [rewrite decide_True by done; done|].
  rewrite decide_False by congruence. apply sql_le_total.
Qed.
#[export] Instance row_le_trans cs : Transitive (row_le cs).
Proof.
  intros a b c. induction cs as [|x cs IH]; cbn; [done|].
  destruct (decide (column a x = column b x)) as [E1|H1], (decide (column b x = column c x)) as [E2|H2].
  - rewrite decide_True by congruence. apply IH.
  - rewrite decide_False by congruence. by rewrite E1.
  - rewrite decide_False by congruence. by rewrite <- E2.
  - intros Hab Hbc. rewrite decide_False; [by etrans|]. intros E. apply H1.
    apply (anti_symm sql_le); [done|]. by rewrite E.
Qed.

(** The rows a [SELECT] finds in a table of entries are read back as the selected
    values, in the order of the rows. *)
Lemma select_rows_decoded {K V} (row_of : K → V → row) (P : K → V → Prop) (decode : row → res V) order
    p `{∀ r, Decision (p r)} (q : K * V → Prop) `{∀ kv, Decision (q kv)} (d : dict K V) `{ScanOrder} :
  d_all P d → (∀ k v, P k v → p (row_of k v) ↔ q (k, v)) → (∀ k v, P k v → decode (row_of k v) = Ok v) →
  ∃ kvs, Permutation kvs (filter q d) ∧ map_res decode (select_rows order p (entries row_of d)) = Ok kvs.*2 ∧
    StronglySorted (λ a b, row_le order (row_of a.1 a.2) (row_of b.1 b.2)) kvs.
Proof.
  intros Hd Hpq Hdec. pose proof (select_rows_perm order p (entries row_of d)) as Hperm.
  rewrite (entries_filter row_of P p q) in Hperm by done.
  apply (Permutation_map_inv (λ kv, row_of kv.1 kv.2)) in Hperm as (kvs & E & Hk).
  assert (StronglySorted (row_le order) (select_rows order p (entries row_of d))) as Hs.
  { unfold select_rows. apply StronglySorted_merge_sort; apply _. }
  exists kvs. split; [done|]. rewrite E in Hs |- *. split.
  - clear Hs E. assert (Forall (λ kv, P kv.1 kv.2) kvs) as Hf.
    { rewrite <- Hk. unfold d_all in Hd. rewrite Forall_forall in *. intros kv [_ Hin]%list_elem_of_filter. by apply Hd. }
    clear Hk. induction Hf as [|[k v] kvs Hkv _ IH]; [done|]. cbn. by rewrite (Hdec k v Hkv), IH.
  - clear E Hk. induction kvs as [|kv kvs IH]; [constructor|]. cbn in Hs. inversion_clear Hs as [|? ? Hs' Hf].
    constructor; [by apply IH|]. by rewrite List.Forall_map in Hf.
Qed.

Lemma entries_length {K V} (row_of : K → V → row) (d : dict K V) : len (entries row_of d) = len d.
Proof. unfold entries, len. by rewrite length_fmap. Qed.

(** * Binding *)

(** The values a statement can be given. *)
Definition bindable (v : sqlvalue) : Prop := bind v = Ok ().
Lemma bind_all_ok l : bind_all l = Ok () ↔ Forall bindable l.
Proof. apply for_each_ok. Qed.
#[export] Instance bindable_dec v : Decision (bindable v).
Proof. unfold bindable. apply _. Defined.

Lemma ascii_utf8 (s : pystr) : Forall (λ c, c < 128)%N s → is_ok (utf8 s) = true.
Proof.
  induction 1 as [|c s Hc _ IH]; [done|]. cbn [utf8]. unfold utf8_char. rewrite decide_True by done. cbn.
  by destruct (utf8 s).
Qed.
Lemma bindable_text s : is_ok (utf8 s) = true → bindable (SText s).
Proof. unfold bindable. cbn. by destruct (utf8 s). Qed.

(** The text of a time is one of digits and marks. *)
Lemma digits_ascii k n : 0 ≤ n < 10 ^ Z.of_nat k → Forall (λ c, c < 128)%N (digits k n).
Proof.
  revert n. induction k as [|k IH]; intros n Hn; unfold digits; fold digits; constructor.
  - rewrite Nat2Z.inj_succ, Z.pow_succ_r in Hn by lia.
    assert (n / 10 ^ Z.of_nat k < 10) by (apply Z.div_lt_upper_bound; lia). lia.
  - apply IH. apply Z.mod_pos_bound. lia.
Qed.

Lemma isoformat_ascii d : in_range d → Forall (λ c, c < 128)%N (isoformat d).
Proof.
  intros Hr. unfold in_range, max_datetime_us in Hr. unfold isoformat.
  destruct (div_spec (dt_us d) us_per_day ltac:(done)) as (n & t & -> & -> & Hd & Ht).
  assert (0 ≤ n ≤ 3652058) as Hn by (unfold us_per_day in *; lia).
  pose proof (ymd_of_day_spec n Hn) as Hspec. destruct (ymd_of_day n) as [[y m] day].
  destruct Hspec as [Hv _]. unfold valid_ymd in Hv. apply bool_decide_eq_true in Hv.
  pose proof (days_in_month_le y m ltac:(lia)).
  destruct (clock_parts t Ht) as (_ & Hh & Hmi & Hsec & Hf). cbv zeta.
  repeat (apply Forall_app; split); try (apply digits_ascii; lia); try (by repeat constructor).
  - case_decide; [constructor|]. apply Forall_app; split; [by repeat constructor|]. apply digits_ascii. lia.
  - destruct d; [constructor|by repeat constructor].
Qed.

Lemma time_bindable d : in_range d → bindable (time d).
Proof. intros Hr. by apply bindable_text, ascii_utf8, isoformat_ascii. Qed.

(** The order of two texts is that of their times. *)
Lemma time_le t t' : storable_time t → storable_time t' → sql_le (time t) (time t') ↔ dt_us t ≤ dt_us t'.
Proof.
  intros [H1 Hr] [H2 Hr']. destruct t as [x|x], t' as [y|y]; cbn in H1, H2; try done.
  unfold time, sql_le. rewrite isoformat_le by done. apply bool_decide_eq_true.
Qed.

(** * Statements on known tables *)

Lemma M_bind_ok {S A B} (m : M S A) (k : A → M S B) s a s' : m s = (Ok a, s') → (m ≫= k) s = k a s'.
Proof. unfold mbind, M_bind. by intros ->. Qed.
Lemma M_bind_err {S A B} (m : M S A) (k : A → M S B) s e s' : m s = (Err e, s') → (m ≫= k) s = (Err e, s').
Proof. unfold mbind, M_bind. by intros ->. Qed.
Lemma lift_bind {S A B} (r : res A) (k : A → M S B) s :
  (lift r ≫= k) s = match r with Ok a => k a s | Err e => (Err e, s) end.
Proof. unfold mbind, M_bind, lift. by destruct r. Qed.

Lemma raise_if_bind {S B} P `{Decision P} e (k : unit → M S B) s :
  (raise_if P e ≫= k) s = if decide P then (Err e, s) else k () s.
Proof. unfold raise_if, mbind, M_bind. by case_decide. Qed.
Lemma get_bind {S B} (k : S → M S B) s : (get_st ≫= k) s = k s s.
Proof. done. Qed.

Section statements.
Context {SO : ScanOrder}.

Lemma sql_select_eq name order l p `{∀ r, Decision (p r)} d :
  Forall bindable l → sql_select name order l p d = (Ok (select_rows order p (db_table d name)), d).
Proof. intros Hl. unfold sql_select. by rewrite lift_bind, (proj2 (bind_all_ok l) Hl). Qed.

Lemma select_one_eq_entry name l d x :
  Forall bindable l.*2 → filter (where_eq l) (db_table d name) = option_list x →
  select_one_eq name l d = (Ok x, d).
Proof.
  intros Hl E. unfold select_one_eq, sql_select_one.
  rewrite (M_bind_ok _ _ _ _ _ (sql_select_eq name [] l.*2 (where_eq l) d Hl)).
  rewrite (select_rows_option [] _ _ x E). by destruct x.
Qed.

Lemma select_eq_rows name order l d :
  Forall bindable l.*2 → select_eq name order l d = (Ok (select_rows order (where_eq l) (db_table d name)), d).
Proof. apply sql_select_eq. Qed.

Lemma sql_insert_eq name values clause d t :
  Forall bindable values →
  (match clause with
   | OrFail => insert_row (schema_of name) (make_row (sc_columns (schema_of name)) values) (db_table d name)
   | DoUpdate target set =>
       upsert_row (schema_of name) target set (make_row (sc_columns (schema_of name)) values) (db_table d name)
   end) = Ok t →
  sql_insert name values clause d = (Ok (), set_table name t d).
Proof.
  intros Hv Ht. unfold sql_insert. rewrite lift_bind, (proj2 (bind_all_ok values) Hv).
  rewrite get_bind. cbn zeta. by rewrite lift_bind, Ht.
Qed.

Lemma sql_update_eq name set l p `{∀ r, Decision (p r)} d t n :
  Forall bindable set.*2 → Forall bindable l →
  update_rows (schema_of name) set p (db_table d name) = Ok (t, n) →
  sql_update name set l p d = (Ok n, set_table name t d).
Proof.
  intros Hs Hl Ht. unfold sql_update.
  rewrite lift_bind, (proj2 (bind_all_ok (set.*2 ++ l))) by by apply Forall_app.
  rewrite get_bind. by rewrite lift_bind, Ht.
Qed.

Lemma sql_delete_eq name l p `{∀ r, Decision (p r)} d :
  Forall bindable l →
  sql_delete name l p d =
    (Ok (len (filter p (db_table d name))), set_table name (filter (λ r, ¬ p r) (db_table d name)) d).
Proof. intros Hl. unfold sql_delete. by rewrite lift_bind, (proj2 (bind_all_ok l) Hl). Qed.
End statements.

(** The tables a database keeps. *)
Definition same_tables (names : list table_name) (d d' : database) : Prop :=
  ∀ n, n ∉ names → db_table d' n = db_table d n.
Lemma same_tables_refl names d : same_tables names d d.
Proof. done. Qed.
Lemma same_tables_set names name t d d' :
  name ∈ names → same_tables names d d' → same_tables names d (set_table name t d').
Proof. intros Hn Hd n Hnn. cbn. rewrite decide_False by congruence. by apply Hd. Qed.
Lemma set_table_eq name t d : db_table (set_table name t d) name = t.
Proof. cbn. by rewrite decide_True. Qed.
Lemma set_table_ne name name' t d : name' ≠ name → db_table (set_table name t d) name' = db_table d name'.
Proof. intros. cbn. by rewrite decide_False. Qed.
