(* ===== verification/SqliteBindings.v ===== *)
(** The bindings of the SQLite store are those of the process-local repository: the two
    tables hold the entries of its two dictionaries, and every call does and answers the
    same. *)

From S2P Require Export SqlTheorems.
From stdpp Require Import list.
#[local] Open Scope Z_scope.
#[local] Open Scope stdpp_scope.

Definition binding_row (k : ConversationRef) (b : ConversationBinding) : row :=
  make_row (sc_columns conversation_bindings_schema) (binding_to_row b).
Definition floor_row (k : ConversationRef) (g : Z) : row :=
  make_row (sc_columns conversation_binding_generations_schema) ((conversation_is k).*2 ++ [SInt g]).

(** A binding the table can hold: its time is one of the calendar. *)
Definition binding_entry (k : ConversationRef) (b : ConversationBinding) : Prop :=
  k = cb_conversation_ref b ∧ validate_binding b = Ok () ∧ ∃ t, cb_updated_at b = Some t ∧ storable_time t.

(** The tables of a repository. *)
Record bindings_stored (s : BindingRepository) (d : database) : Prop := {
  bs_inv : binding_inv s;
  bs_entries : d_all binding_entry (br_bindings s);
  bs_bindings : db_table d conversation_bindings = entries binding_row (br_bindings s);
  bs_floors : db_table d conversation_binding_generations = entries floor_row (br_generation_floors s);
}.

Lemma conversation_eq (c c' : ConversationRef) :
  cv_channel_instance_id c = cv_channel_instance_id c' ∧ cv_native_conversation_id c = cv_native_conversation_id c'
  ↔ c = c'.
Proof. split; [by destruct c, c'; cbn; intros [-> ->]|by intros ->]. Qed.

Lemma where_conversation c r k :
  column r "channel_instance_id" = SText (cv_channel_instance_id k) →
  column r "native_conversation_id" = SText (cv_native_conversation_id k) →
  where_eq (conversation_is c) r ↔ k = c.
Proof.
  intros H1 H2. unfold conversation_is. rewrite !where_eq_cons, H1, H2, !sql_eq_text, <- conversation_eq.
  pose proof (where_eq_nil r). tauto.
Qed.

Lemma same_conversation_key r r' k k' :
  column r "channel_instance_id" = SText (cv_channel_instance_id k) →
  column r "native_conversation_id" = SText (cv_native_conversation_id k) →
  column r' "channel_instance_id" = SText (cv_channel_instance_id k') →
  column r' "native_conversation_id" = SText (cv_native_conversation_id k') →
  same_key conversation_key r r' ↔ k' = k.
Proof.
  intros H1 H2 H3 H4. unfold same_key, conversation_key.
  rewrite !Forall_cons, Forall_nil, H1, H2, H3, H4, !sql_eq_text, <- conversation_eq. naive_solver.
Qed.

Lemma where_binding c k b : binding_entry k b → where_eq (conversation_is c) (binding_row k b) ↔ k = c.
Proof. intros [-> _]. by apply where_conversation. Qed.
Lemma where_floor c k g : True → where_eq (conversation_is c) (floor_row k g) ↔ k = c.
Proof. intros _. by apply where_conversation. Qed.

Section bindings.
Context {SO : ScanOrder} (guard : database → res unit).

(** The generation of a Conversation, from both tables. *)
Lemma current_generation_stored c s d :
  bindings_stored s d → Forall bindable (conversation_is c).*2 →
  current_generation_of c d = (Ok (current_generation s c), d).
Proof.
  intros [Hi He Hb Hf] Hc. unfold current_generation_of.
  rewrite (M_bind_ok _ _ _ _ _ (select_eq_rows _ [] _ d Hc)).
  rewrite (M_bind_ok _ _ _ _ _ (select_eq_rows _ [] _ d Hc)).
  rewrite (select_rows_option [] _ _ (binding_row c <$> d_get (br_bindings s) c)).
  2:{ rewrite Hb. apply (entries_key binding_row binding_entry); [by intros; apply where_binding|done|apply Hi]. }
  rewrite (select_rows_option [] _ _ (floor_row c <$> d_get (br_generation_floors s) c)).
  2:{ rewrite Hf. apply (entries_key floor_row (λ _ _, True)); [by intros; apply where_floor| |apply Hi].
      by apply Forall_true. }
  destruct (binding_inv_generation s c Hi) as (_ & _ & Hg). pose proof (bi_bindings s Hi) as Hok.
  pose proof (bi_floors s Hi) as Hpos.
  unfold mret, M_ret. do 2 f_equal. rewrite <- Hg.
  destruct (d_get (br_bindings s) c) as [b|] eqn:Eb; [apply (d_all_get _ _ _ _ Hok) in Eb as (_ & _ & ->)|].
  - cbn. by rewrite Z.max_id.
  - by destruct (d_get (br_generation_floors s) c).
Qed.

(** Writing a binding, and the generation of its Conversation. *)
Lemma write_binding s d b :
  bindings_stored s d → binding_entry (cb_conversation_ref b) b → Forall bindable (binding_to_row b) →
  ∃ d', sql_insert conversation_bindings (binding_to_row b)
      (DoUpdate conversation_key ["application_instance_id"; "project_id"; "thread_id"; "generation"; "updated_at"]%string) d
      = (Ok (), d') ∧
    db_table d' conversation_bindings = entries binding_row (d_set (br_bindings s) (cb_conversation_ref b) b) ∧
    same_tables [conversation_bindings] d d'.
Proof.
  intros [Hi He Hb Hf] Hbe Hv. eexists. split; [|split].
  - apply sql_insert_eq; [done|]. cbn [schema_of]. rewrite Hb.
    apply (entries_upsert binding_row binding_entry _ _ _ (cb_conversation_ref b) b); [done|apply Hi| | | |].
    + destruct Hbe as (_ & _ & t & Ht & _). unfold row_fits, binding_row, binding_to_row. rewrite Ht. done.
    + intros k' b' [-> _]. by apply same_conversation_key.
    + intros b' (E & _)%(d_all_get _ _ _ _ He). unfold binding_row, binding_to_row. rewrite E. done.
    + intros Hn. repeat constructor. intros Hex.
      apply (exists_entries binding_row binding_entry _ (cb_conversation_ref b)) in Hex; [|..|done].
      * rewrite Hn in Hex. by destruct Hex.
      * intros k' b' [-> _]. by apply same_conversation_key.
  - apply set_table_eq.
  - by apply same_tables_set; [set_solver|].
Qed.

Lemma write_floor (floors : dict ConversationRef Z) d c g :
  well_formed floors → db_table d conversation_binding_generations = entries floor_row floors →
  Forall bindable (conversation_is c).*2 → bindable (SInt g) →
  ∃ d', sql_insert conversation_binding_generations ((conversation_is c).*2 ++ [SInt g])
      (DoUpdate conversation_key ["generation"]%string) d = (Ok (), d') ∧
    db_table d' conversation_binding_generations = entries floor_row (d_set floors c g) ∧
    same_tables [conversation_binding_generations] d d'.
Proof.
  intros Hw Hf Hc Hg. eexists. split; [|split].
  - apply sql_insert_eq; [by apply Forall_app; split; [|constructor]|]. cbn [schema_of]. rewrite Hf.
    assert (∀ k' g', True → same_key conversation_key (floor_row c g) (floor_row k' g') ↔ k' = c) as Hs.
    { intros k' g' _. by apply same_conversation_key. }
    assert (d_all (λ _ _, True) floors) as Ha by by apply Forall_true.
    apply (entries_upsert floor_row (λ _ _, True) _ _ _ c g); try done.
    intros Hn. repeat constructor. intros Hex. apply (exists_entries floor_row (λ _ _, True) _ c) in Hex; [|done..].
    rewrite Hn in Hex. by destruct Hex.
  - apply set_table_eq.
  - by apply same_tables_set; [set_solver|].
Qed.

Definition binding_tables : list table_name := [conversation_bindings; conversation_binding_generations].

(** [put] *)
Lemma sqlite_put_stored now b expected s d :
  bindings_stored s d → guard d = Ok () → storable_time now →
  Forall bindable (binding_to_row (restamp b (current_generation s (cb_conversation_ref b) + 1) now)) →
  ∃ d', sqlite_put guard now b expected (Idle d) = ((put_binding now b expected s).1, Idle d') ∧
    bindings_stored (put_binding now b expected s).2 d' ∧ same_tables binding_tables d d'.
Proof.
  intros Hst Hg Hnow Hbind. set (c := cb_conversation_ref b) in *. set (current := current_generation s c) in *.
  assert (Forall bindable (conversation_is c).*2 ∧ bindable (SInt (current + 1))) as [Hc Hgen].
  { unfold binding_to_row in Hbind. cbn in Hbind. rewrite !Forall_cons in Hbind. destruct_and!.
    by repeat constructor. }
  unfold sqlite_put, put_binding. rewrite !lift_bind.
  destruct (validate_binding b) as [[]|e] eqn:Hv; [|by exists d].
  destruct (_validate_generation _ _ _) as [[]|e]; [|by exists d].
  rewrite mutation_idle, Hg. cbn zeta. fold c.
  rewrite (M_bind_ok _ _ _ _ _ (current_generation_stored c s d Hst Hc)), get_bind. fold current.
  rewrite !lift_bind. destruct (check_expected_generation expected current) as [[]|e]; [|by exists d].
  set (stored := restamp b (current + 1) now).
  assert (binding_entry c stored) as Hentry.
  { split_and!; [done|apply validate_binding_restamp; [done|]|by exists now].
    pose proof (binding_inv_generation s c (bs_inv s d Hst)). unfold current. lia. }
  destruct (write_binding s d stored Hst Hentry Hbind) as (d1 & E1 & Hb1 & Hs1).
  destruct (write_floor (br_generation_floors s) d1 c (cb_generation stored)) as (d2 & E2 & Hf2 & Hs2);
    [apply Hst|rewrite Hs1 by set_solver; apply Hst|done|done|].
  rewrite (M_bind_ok _ _ _ _ _ E1), (M_bind_ok _ _ _ _ _ E2). exists d2. split; [done|]. split.
  - split; cbn.
    + apply (binding_inv_store s stored); [apply Hst|apply Hentry|].
      pose proof (binding_inv_generation s c (bs_inv s d Hst)). cbn. unfold current. lia.
    + apply d_all_set; [apply Hst|done].
    + rewrite Hs2 by set_solver. done.
    + done.
  - intros n Hn. unfold binding_tables in Hn. rewrite Hs2, Hs1 by set_solver. done.
Qed.

(** [delete] *)
Lemma sqlite_delete_stored c expected s d :
  bindings_stored s d → guard d = Ok () → Forall bindable (conversation_is c).*2 →
  bindable (SInt (current_generation s c + 1)) →
  ∃ d', sqlite_delete guard c expected (Idle d) = ((delete_binding c expected s).1, Idle d') ∧
    bindings_stored (delete_binding c expected s).2 d' ∧ same_tables binding_tables d d'.
Proof.
  intros Hst Hg Hc Hgen. set (current := current_generation s c) in *.
  unfold sqlite_delete, delete_binding. rewrite !lift_bind.
  destruct (_validate_generation _ _ _) as [[]|e]; [|by exists d].
  rewrite mutation_idle, Hg.
  rewrite (M_bind_ok _ _ _ _ _ (current_generation_stored c s d Hst Hc)), get_bind. fold current. cbn zeta.
  rewrite !lift_bind. destruct (check_expected_generation expected current) as [[]|e]; [|by exists d].
  pose proof (sql_delete_eq conversation_bindings (conversation_is c).*2 (where_eq (conversation_is c)) d Hc) as E1.
  set (d1 := set_table _ _ d) in E1.
  destruct (write_floor (br_generation_floors s) d1 c (current + 1)) as (d2 & E2 & Hf2 & Hs2);
    [apply Hst|unfold d1; rewrite set_table_ne by done; apply Hst|done|done|].
  unfold delete_eq. rewrite (M_bind_ok _ _ _ _ _ E1), E2. exists d2. split; [done|]. split.
  - split; cbn.
    + apply binding_inv_clear; [apply Hst|].
      pose proof (binding_inv_generation s c (bs_inv s d Hst)). unfold current. lia.
    + apply d_all_pop, Hst.
    + rewrite Hs2 by set_solver. unfold d1. rewrite set_table_eq, (bs_bindings s d Hst).
      apply (entries_pop binding_row binding_entry); [|apply Hst]. intros. by apply where_binding.
    + done.
  - intros n Hn. unfold binding_tables in Hn. rewrite Hs2 by set_solver. unfold d1. apply set_table_ne. set_solver.
Qed.

(** [get] *)
Lemma sqlite_get_stored c s d :
  bindings_stored s d → Forall bindable (conversation_is c).*2 →
  sqlite_get c (Idle d) = ((get_binding c s).1, Idle d).
Proof.
  intros Hst Hc. unfold sqlite_get, get_binding, gets. cbn [fst].
  assert (select_one_eq conversation_bindings (conversation_is c) d = (Ok (binding_row c <$> d_get (br_bindings s) c), d)) as E.
  { apply select_one_eq_entry; [done|]. rewrite (bs_bindings s d Hst).
    apply (entries_key binding_row binding_entry); [by intros; apply where_binding|apply Hst|apply Hst]. }
  unfold query at 1. erewrite M_bind_ok by (cbn [cn_working]; by rewrite E).
  destruct (d_get (br_bindings s) c) as [b|] eqn:Eb; [|done]. cbn [fmap option_fmap option_map].
  apply (d_all_get _ _ _ _ (bs_entries s d Hst)) in Eb as (_ & Hv & t & Ht & Htime).
  unfold binding_row. by rewrite lift_bind, (binding_row_roundtrip b t).
Qed.
End bindings.
