(* ===== verification/SqliteRoutes.v ===== *)
(** The projection routes and Turn correlations of the SQLite store are those of the
    process-local repository. *)

From S2P Require Export SqlTheorems SqliteBindings.
From stdpp Require Import list sorting.
#[local] Open Scope Z_scope.
#[local] Open Scope stdpp_scope.

(** * Routes *)

(** The time a route is written with. *)
Definition stamp (now : datetime) (r : ThreadProjectionRoute) : ThreadProjectionRoute := {|
  tr_route_id := tr_route_id r; tr_thread_ref := tr_thread_ref r; tr_conversation_ref := tr_conversation_ref r;
  tr_reply_to_message_id := tr_reply_to_message_id r;
  tr_checkpoint_agent_item_id := tr_checkpoint_agent_item_id r; tr_checkpointed_at := tr_checkpointed_at r;
  tr_updated_at := Some (default now (tr_updated_at r)) |}.
(** The route a call returns carries the time it was given. *)
Definition with_updated_at (t : option datetime) (r : ThreadProjectionRoute) : ThreadProjectionRoute := {|
  tr_route_id := tr_route_id r; tr_thread_ref := tr_thread_ref r; tr_conversation_ref := tr_conversation_ref r;
  tr_reply_to_message_id := tr_reply_to_message_id r;
  tr_checkpoint_agent_item_id := tr_checkpoint_agent_item_id r; tr_checkpointed_at := tr_checkpointed_at r;
  tr_updated_at := t |}.

Definition route_time (r : ThreadProjectionRoute) : datetime := default (Naive 0) (tr_updated_at r).
Definition route_row (k : ThreadRef * ConversationRef) (r : ThreadProjectionRoute) : row :=
  make_row (sc_columns thread_projection_routes_schema) (projection_route_to_row r (Some (route_time r))).

Definition route_entry (k : ThreadRef * ConversationRef) (r : ThreadProjectionRoute) : Prop :=
  k = route_key r ∧ validate_projection_route r = Ok () ∧ storable_opt (tr_checkpointed_at r) ∧
  (∃ t, tr_updated_at r = Some t ∧ storable_time t) ∧
  Forall bindable (projection_route_to_row r (tr_updated_at r)).

Record routes_stored (s : ProjectionRepository) (d : database) : Prop := {
  rs_inv : projection_inv s;
  rs_entries : d_all route_entry (pj_routes s);
  rs_routes : db_table d thread_projection_routes = entries route_row (pj_routes s);
}.

Lemma thread_eq (t t' : ThreadRef) :
  pr_application_instance_id (th_project_ref t) = pr_application_instance_id (th_project_ref t') ∧
  pr_project_id (th_project_ref t) = pr_project_id (th_project_ref t') ∧ th_thread_id t = th_thread_id t' ↔ t = t'.
Proof. split; [by destruct t as [[]], t' as [[]]; cbn; intros (-> & -> & ->)|by intros ->]. Qed.

(** The columns of a Thread. *)
Definition names_thread (r : row) (t : ThreadRef) : Prop :=
  column r "application_instance_id" = SText (pr_application_instance_id (th_project_ref t)) ∧
  column r "project_id" = SText (pr_project_id (th_project_ref t)) ∧
  column r "thread_id" = SText (th_thread_id t).
Definition names_conversation (r : row) (c : ConversationRef) : Prop :=
  column r "channel_instance_id" = SText (cv_channel_instance_id c) ∧
  column r "native_conversation_id" = SText (cv_native_conversation_id c).

Lemma where_thread t r k : names_thread r k → where_eq (thread_is t) r ↔ k = t.
Proof.
  intros (H1 & H2 & H3). unfold thread_is. cbn [thread_storage_key zip zip_with].
  rewrite !where_eq_cons, H1, H2, H3, !sql_eq_text, <- thread_eq. pose proof (where_eq_nil r). tauto.
Qed.
Lemma where_names c r k : names_conversation r k → where_eq (conversation_is c) r ↔ k = c.
Proof. intros [H1 H2]. by apply where_conversation. Qed.

Lemma route_names k r : route_entry k r → names_thread (route_row k r) k.1 ∧ names_conversation (route_row k r) k.2.
Proof. by intros [-> _]. Qed.

Lemma where_route_id i k r : where_eq [("route_id"%string, SText i)] (route_row k r) ↔ tr_route_id r = i.
Proof.
  rewrite where_eq_cons. change (column (route_row k r) "route_id") with (SText (tr_route_id r)).
  pose proof (where_eq_nil (route_row k r)). rewrite sql_eq_text. tauto.
Qed.

(** Finding a route by its identity. *)
Lemma find_route_filter i (routes : dict (ThreadRef * ConversationRef) ThreadProjectionRoute) :
  well_formed routes → (∀ k r k' r', (k, r) ∈ routes → (k', r') ∈ routes → tr_route_id r = tr_route_id r' → k = k') →
  filter (λ kv, tr_route_id kv.2 = i) routes = option_list (find_route i routes).
Proof.
  intros Hw Hu. unfold well_formed, d_keys in Hw. induction routes as [|[k r] routes IH]; [done|].
  cbn [fmap list_fmap fst] in Hw. apply NoDup_cons in Hw as [Hk Hw]. rewrite filter_cons. cbn [snd find_route].
  destruct (decide (tr_route_id r = i)) as [Hi|Hi]; [|apply IH; [done|]; intros; eapply Hu; set_solver].
  cbn. f_equal. apply filter_none. apply Forall_forall. intros [k' r'] Hin Hi'. cbn in Hi'.
  assert (k = k') as <- by (eapply (Hu k r k' r'); [set_solver|set_solver|congruence]).
  apply Hk. apply list_elem_of_fmap. by exists (k, r').
Qed.

Section routes.
Context {SO : ScanOrder} (guard : database → res unit).
Context (s : ProjectionRepository) (d : database) (Hst : routes_stored s d).

Lemma stored_route_id_unique k r k' r' :
  (k, r) ∈ pj_routes s → (k', r') ∈ pj_routes s → tr_route_id r = tr_route_id r' → k = k'.
Proof.
  intros H1 H2 Hi. pose proof (rs_entries s d Hst) as Ha. unfold d_all in Ha. rewrite Forall_forall in Ha.
  destruct (Ha _ H1) as [E1 _], (Ha _ H2) as [E2 _]. cbn in E1, E2. subst.
  apply (pi_route_ids s (rs_inv s d Hst)); [apply list_elem_of_fmap; by eexists (_, r)|
    apply list_elem_of_fmap; by eexists (_, r')|done].
Qed.

(** A row is read back as its route. *)
Lemma route_row_read k r : route_entry k r → projection_route_from_row (route_row k r) = Ok r.
Proof.
  intros (_ & Hv & Hc & (t & Ht & Htime) & _). unfold route_row, route_time. rewrite Ht. cbn [default].
  by apply route_row_roundtrip.
Qed.

Lemma read_route_found l x :
  Forall bindable l.*2 → filter (where_eq l) (db_table d thread_projection_routes) = option_list ((λ kr, route_row kr.1 kr.2) <$> x) →
  (∀ kr, x = Some kr → route_entry kr.1 kr.2) → read_route l d = (Ok (snd <$> x), d).
Proof.
  intros Hl E Hx. unfold read_route. rewrite (M_bind_ok _ _ _ _ _ (select_one_eq_entry _ l d _ Hl E)).
  destruct x as [[k r]|]; [|done]. cbn [fmap option_fmap option_map fst snd].
  by rewrite lift_bind, (route_row_read k r (Hx _ eq_refl)).
Qed.

Lemma stored_entry k r : (k, r) ∈ pj_routes s → route_entry k r.
Proof. intros Hin. pose proof (rs_entries s d Hst) as Ha. unfold d_all in Ha. rewrite Forall_forall in Ha. by apply (Ha (k, r)). Qed.

Lemma read_by_id i : bindable (SText i) → _read_projection_route i d = (Ok (snd <$> find_route i (pj_routes s)), d).
Proof.
  intros Hi. apply read_route_found; [by constructor| |].
  - rewrite (rs_routes s d Hst), (entries_filter route_row route_entry _ (λ kv, tr_route_id kv.2 = i)).
    + rewrite find_route_filter; [|apply (pi_routes_distinct s (rs_inv s d Hst))|apply stored_route_id_unique].
      unfold entries. by destruct (find_route i (pj_routes s)).
    + apply Hst.
    + intros k r _. apply where_route_id.
  - intros [k r] E. by apply stored_entry, (find_route_spec i).
Qed.

Lemma read_by_endpoints route :
  Forall bindable (thread_is (tr_thread_ref route) ++ conversation_is (tr_conversation_ref route)).*2 →
  _read_projection_route_for_endpoints route d = (Ok (d_get (pj_routes s) (route_key route)), d).
Proof.
  intros Hl. unfold _read_projection_route_for_endpoints.
  rewrite (read_route_found _ ((route_key route,.) <$> d_get (pj_routes s) (route_key route))); [|done| |].
  - do 2 f_equal. by destruct (d_get _ _).
  - rewrite (rs_routes s d Hst).
    rewrite (entries_key route_row route_entry _ (route_key route)); [by destruct (d_get _ _)| |apply Hst|apply Hst].
    intros [th cv] r Hr. destruct (route_names _ _ Hr) as [H1 H2].
    rewrite where_eq_app, (where_thread _ _ _ H1), (where_names _ _ _ H2). unfold route_key.
    cbn. split; [by intros [-> ->]|by intros [= -> ->]].
  - intros [k r] E. destruct (d_get (pj_routes s) (route_key route)) as [r'|] eqn:Eg; [|done].
    cbn in E. injection E as <- <-. by apply stored_entry, d_get_elem.
Qed.
(** The route a call finds for another: by its identity, or else by its endpoints. *)
Definition found_route (route : ThreadProjectionRoute) : option ThreadProjectionRoute :=
  match find_route (tr_route_id route) (pj_routes s) with
  | Some (_, r) => Some r
  | None => d_get (pj_routes s) (route_key route)
  end.

Lemma existing_route_found route :
  bindable (SText (tr_route_id route)) →
  Forall bindable (thread_is (tr_thread_ref route) ++ conversation_is (tr_conversation_ref route)).*2 →
  existing_route route d = (Ok (found_route route), d).
Proof.
  intros Hi Hl. unfold existing_route, found_route. rewrite (M_bind_ok _ _ _ _ _ (read_by_id _ Hi)).
  destruct (find_route _ _) as [[k r]|]; [done|]. by apply read_by_endpoints.
Qed.

Lemma find_route_none i routes :
  find_route i routes = None → ∀ r, r ∈ d_values routes → tr_route_id r ≠ i.
Proof.
  induction routes as [|[k r] routes IH]; cbn [find_route]; [set_solver|]. case_decide; [done|].
  intros Hn r' Hr. unfold d_values in Hr. cbn in Hr. apply elem_of_cons in Hr as [->|Hr]; [done|by apply IH].
Qed.

(** Its merge is the check and the merge of the process-local repository. *)
Lemma merge_found route :
  merge_projection_route (found_route route) route =
    (_reject_conflicting_route_id (d_values (pj_routes s)) route ;;
     _merge_projection_route (d_get (pj_routes s) (route_key route)) route).
Proof.
  change (@merge_projection_route) with (@_merge_projection_route). unfold found_route.
  destruct (find_route (tr_route_id route) (pj_routes s)) as [[k r]|] eqn:Ef.
  - apply find_route_spec in Ef as [Hin Hid]. destruct (stored_entry k r Hin) as [-> _].
    destruct (decide (route_key r = route_key route)) as [Hk|Hk].
    + rewrite <- Hk, (d_elem_get _ _ _ (pi_routes_distinct s (rs_inv s d Hst)) Hin).
      assert (_reject_conflicting_route_id (d_values (pj_routes s)) route = Ok ()) as ->; [|done].
      apply for_each_ok, Forall_forall. intros r' Hr'. apply raise_if_ok. intros [Hi' Hne].
      apply list_elem_of_fmap in Hr' as ([k' r''] & -> & Hin'). cbn in *.
      pose proof (stored_route_id_unique _ _ _ _ Hin Hin' ltac:(congruence)) as Ekey.
      destruct (stored_entry k' r'' Hin') as [Ek _]. rewrite Ek, Hk in Ekey. unfold route_key in Ekey.
      injection Ekey as E1 E2. destruct Hne; congruence.
    + assert (∃ e, _reject_conflicting_route_id (d_values (pj_routes s)) route = Err e ∧ e = ProjectionRouteConflict) as (e & -> & ->).
      { unfold _reject_conflicting_route_id.
        assert (r ∈ d_values (pj_routes s)) as Hr by (apply list_elem_of_fmap; by eexists (_, r)).
        induction (d_values (pj_routes s)) as [|r' l IH]; [set_solver|]. cbn [for_each].
        destruct (decide (tr_route_id r' = tr_route_id route
          ∧ (tr_thread_ref r' ≠ tr_thread_ref route ∨ tr_conversation_ref r' ≠ tr_conversation_ref route))) as [Hc|Hc].
        - exists ProjectionRouteConflict. split; [|done]. unfold raise_if. by rewrite decide_True.
        - rewrite no_raise_then by done. apply IH. apply elem_of_cons in Hr as [<-|Hr]; [|done]. exfalso. apply Hc.
          split; [done|]. unfold route_key in Hk. destruct (decide (tr_thread_ref r = tr_thread_ref route)); [right|by left].
          congruence. }
      unfold _merge_projection_route at 1. rewrite raise_then; [done|]. right. unfold route_key in Hk.
      destruct (decide (tr_thread_ref r = tr_thread_ref route)); [right|by left]. congruence.
  - assert (_reject_conflicting_route_id (d_values (pj_routes s)) route = Ok ()) as ->; [|done].
    apply for_each_ok, Forall_forall. intros r' Hr'. apply raise_if_ok. intros [Hi' _].
    by apply (find_route_none _ _ Ef) in Hr'.
Qed.
End routes.

Definition res_map {A B} (f : A → B) (r : res A) : res B := match r with Ok a => Ok (f a) | Err e => Err e end.

(** The merge does not look at the time of the route it stores. *)
Lemma merge_stamp now existing route :
  _merge_projection_route existing (stamp now route) = res_map (stamp now) (_merge_projection_route existing route).
Proof.
  destruct existing as [e|]; [|done]. cbn. unfold raise_if. repeat (case_decide; cbn; try done).
Qed.

Lemma merge_updated_at existing route stored :
  _merge_projection_route existing route = Ok stored → tr_updated_at stored = tr_updated_at route.
Proof.
  destruct existing as [e|]; [|by intros [= ->]]. cbn. unfold raise_if. repeat (case_decide; cbn; try done); by intros [= <-].
Qed.

Lemma reject_stamp now l route : _reject_conflicting_route_id l (stamp now route) = _reject_conflicting_route_id l route.
Proof. done. Qed.

Lemma with_updated_stamp now r : with_updated_at (tr_updated_at r) (stamp now r) = r.
Proof. by destruct r. Qed.

(** * Calls on routes *)

Section calls.
Context {SO : ScanOrder} (guard : database → res unit).

(** Writing a route over the one with its identity, which has its endpoints. *)
Lemma write_route (routes : dict (ThreadRef * ConversationRef) ThreadProjectionRoute) now r d :
  well_formed routes → d_all route_entry routes → db_table d thread_projection_routes = entries route_row routes →
  route_entry (route_key r) (stamp now r) →
  (∀ k' r', (k', r') ∈ routes → tr_route_id r' = tr_route_id r ↔ k' = route_key r) →
  ∃ d', _write_projection_route now r d = (Ok (), d') ∧
    db_table d' thread_projection_routes = entries route_row (d_set routes (route_key r) (stamp now r)) ∧
    same_tables [thread_projection_routes] d d'.
Proof.
  intros Hw He Hd Hr Hid. pose proof Hr as (_ & _ & _ & _ & Hb).
  set (P := λ k v, (k, v) ∈ routes ∧ route_entry k v).
  assert (d_all P routes) as HP.
  { apply Forall_forall. intros [k v] Hin. split; [done|]. unfold d_all in He. rewrite Forall_forall in He. by apply (He (k, v)). }
  assert (∀ k' r', P k' r' → same_key ["route_id"%string] (route_row (route_key r) (stamp now r)) (route_row k' r')
    ↔ k' = route_key r) as Hk.
  { intros k' r' [Hin _]. rewrite <- (Hid k' r' Hin). unfold same_key. rewrite Forall_singleton.
    change (sql_eq (SText (tr_route_id r)) (SText (tr_route_id r')) ↔ tr_route_id r' = tr_route_id r).
    rewrite sql_eq_text. naive_solver. }
  eexists. split; [|split].
  - apply sql_insert_eq; [exact Hb|]. cbn [schema_of]. rewrite Hd.
    change (make_row (sc_columns thread_projection_routes_schema) _) with (route_row (route_key r) (stamp now r)).
    apply (entries_upsert route_row P); [done|done|done|done| |].
    + intros v' Hv'%d_get_elem. pose proof (proj2 (Hid _ _ Hv') eq_refl) as Ei.
      unfold d_all in He. rewrite Forall_forall in He. destruct (He _ Hv') as (Ek & _). cbn in Ek.
      unfold route_key in Ek. injection Ek as Et Ec. unfold route_row, projection_route_to_row. cbn.
      by rewrite Ei, <- Et, <- Ec.
    + intros Hn. apply Forall_cons. split; [|apply Forall_singleton].
      * intros Hex. apply (exists_entries route_row P _ (route_key r)) in Hex; [|done..].
        rewrite Hn in Hex. by destruct Hex.
      * intros Hex. apply (exists_entries route_row P _ (route_key r)) in Hex; [rewrite Hn in Hex; by destruct Hex| |done].
        intros k' r' [_ Hr']. destruct (route_names _ _ Hr') as [(H1 & H2 & H3) [H4 H5]].
        unfold same_key. rewrite !Forall_cons, Forall_nil, H1, H2, H3, H4, H5.
        change (column (route_row (route_key r) (stamp now r)) "application_instance_id") with
          (SText (pr_application_instance_id (th_project_ref (tr_thread_ref r)))).
        change (column (route_row (route_key r) (stamp now r)) "project_id") with
          (SText (pr_project_id (th_project_ref (tr_thread_ref r)))).
        change (column (route_row (route_key r) (stamp now r)) "thread_id") with (SText (th_thread_id (tr_thread_ref r))).
        change (column (route_row (route_key r) (stamp now r)) "channel_instance_id") with
          (SText (cv_channel_instance_id (tr_conversation_ref r))).
        change (column (route_row (route_key r) (stamp now r)) "native_conversation_id") with
          (SText (cv_native_conversation_id (tr_conversation_ref r))).
        rewrite !sql_eq_text. unfold route_key. destruct k' as [th cv]; cbn in *.
        pose proof (thread_eq (tr_thread_ref r) th). pose proof (conversation_eq (tr_conversation_ref r) cv).
        split; [intros (? & ? & ? & ? & ? & _); f_equal; symmetry; tauto|intros [= -> ->]; tauto].
  - apply set_table_eq.
  - by apply same_tables_set; [set_solver|].
Qed.

(** The merge stores the route, or the route with the checkpoint there was. *)
Lemma merge_cases existing r stored :
  _merge_projection_route existing r = Ok stored →
  stored = r ∨ ∃ e, existing = Some e ∧
    stored = with_checkpoint r (tr_checkpoint_agent_item_id e) (tr_checkpointed_at e).
Proof.
  destruct existing as [e|]; [|intros [= ->]; by left]. cbn. unfold raise_if.
  repeat (case_decide; cbn; try done); intros [= <-]; eauto.
Qed.

(** What a table can hold of a route written at a time. *)
Definition storable_route (now : datetime) (r : ThreadProjectionRoute) : Prop :=
  storable_opt (tr_checkpointed_at r) ∧ storable_time (default now (tr_updated_at r)) ∧
  Forall bindable (projection_route_to_row (stamp now r) (Some (default now (tr_updated_at r)))).

Lemma storable_route_values now r :
  storable_route now r → bindable (SText (tr_route_id r)) ∧
  Forall bindable (thread_is (tr_thread_ref r) ++ conversation_is (tr_conversation_ref r)).*2.
Proof. intros (_ & _ & Hb). unfold projection_route_to_row in Hb. cbn in *. rewrite !Forall_cons in *. tauto. Qed.

Lemma stamp_idemp now r : stamp now (stamp now r) = stamp now r.
Proof. by destruct r. Qed.

Lemma accepted_entry s d now r stored :
  routes_stored s d → storable_route now r → accepts_route s (stamp now r) stored → route_entry (route_key r) stored.
Proof.
  intros Hst (Hc & Ht & Hb) Ha. pose proof (accepts_route_spec _ _ _ (rs_inv s d Hst) Ha) as (_ & Hk & Hv & _).
  destruct Ha as (_ & _ & Hm). split; [by rewrite Hk|]. split; [done|].
  destruct (merge_cases _ _ _ Hm) as [->|(e & He & ->)].
  - split; [done|]. split; [by eexists|done].
  - apply (d_all_get _ _ _ _ (rs_entries s d Hst)) in He as (_ & _ & Hce & _ & Hbe).
    split; [done|]. split; [by eexists|].
    unfold projection_route_to_row in *. cbn in *. rewrite !Forall_cons in *. tauto.
Qed.

(** The one route with the identity of the accepted one has its endpoints. *)
Lemma accepted_identity s d now r stored :
  routes_stored s d → accepts_route s (stamp now r) stored →
  ∀ k' r', (k', r') ∈ pj_routes s → tr_route_id r' = tr_route_id stored ↔ k' = route_key stored.
Proof.
  intros Hst Ha k' r' Hin. destruct (accepts_route_spec _ _ _ (rs_inv s d Hst) Ha) as (Hid & Hk & _ & Hx).
  destruct Ha as (_ & Hrej & _). destruct (stored_entry s d Hst k' r' Hin) as [Ek _]. rewrite Hid, Hk. split.
  - intros Hr. rewrite Ek. apply (reject_conflicting_route_id_ok _ _ _ Hrej); [|done].
    apply list_elem_of_fmap. by exists (k', r').
  - intros ->. apply (d_elem_get _ _ _ (pi_routes_distinct s (rs_inv s d Hst))) in Hin. by destruct (Hx _ Hin).
Qed.

(** [put_projection_route] *)
Lemma sqlite_put_route_stored now route s d :
  routes_stored s d → guard d = Ok () → storable_route now route →
  ∃ d', sqlite_put_projection_route guard now route (Idle d) =
      (res_map (with_updated_at (tr_updated_at route)) (put_projection_route (stamp now route) s).1, Idle d') ∧
    routes_stored (put_projection_route (stamp now route) s).2 d' ∧ same_tables [thread_projection_routes] d d'.
Proof.
  intros Hst Hg Hs. destruct (storable_route_values now route Hs) as [Hi Hl].
  pose proof (put_projection_route_spec (stamp now route) s) as Hspec. unfold wp in Hspec. revert Hspec.
  unfold sqlite_put_projection_route, put_projection_route. rewrite !lift_bind.
  change (validate_projection_route (stamp now route)) with (validate_projection_route route).
  destruct (validate_projection_route route) as [[]|e]; [|by exists d].
  rewrite mutation_idle, Hg, (M_bind_ok _ _ _ _ _ (existing_route_found s d Hst route Hi Hl)), get_bind.
  rewrite !lift_bind, (merge_found s d Hst), reject_stamp.
  destruct (_reject_conflicting_route_id _ _) as [[]|e]; [|by exists d].
  change (route_key (stamp now route)) with (route_key route). rewrite merge_stamp.
  cbn [mbind res_bind]. destruct (_merge_projection_route _ route) as [stored|e] eqn:Em; [|by exists d].
  cbn. intros [Ha _]. pose proof (accepted_entry s d now route _ Hst Hs Ha) as He.
  pose proof (accepts_route_spec _ _ _ (rs_inv s d Hst) Ha) as (_ & Hk & _).
  change (route_key stored = route_key route) in Hk. pose proof Ha as (_ & Hrej & _).
  rewrite <- Hk in He.
  destruct (write_route (pj_routes s) now stored d) as (d' & E & Hd' & Hsame);
    [apply (pi_routes_distinct s), Hst|apply Hst|apply Hst|done| |].
  { by apply (accepted_identity s d now route (stamp now stored)). }
  exists d'. rewrite (M_bind_ok _ _ _ _ _ E). split; [|split].
  - rewrite <- (merge_updated_at _ _ _ Em). by destruct stored.
  - rewrite <- Hk. split; cbn; [|by apply d_all_set; [apply Hst|]|done].
    change (route_key stored) with (route_key (stamp now stored)).
    replace (route_key (stamp now stored)) with (route_key (stamp now route)) by done.
    apply (inv_accepts s s (stamp now route)); auto; apply Hst.
  - done.
Qed.

(** The entries a call selects by the columns of its Thread, and of a Conversation. *)
Lemma where_endpoints th cv k r :
  route_entry k r → where_eq (thread_is th ++ selected_by conversation_is cv) (route_row k r) ↔
    k.1 = th ∧ selects cv k.2.
Proof.
  intros Hr. destruct (route_names _ _ Hr) as [H1 H2]. rewrite where_eq_app, (where_thread _ _ _ H1).
  destruct cv as [cv|]; cbn [selected_by selects].
  - rewrite (where_names _ _ _ H2). naive_solver.
  - pose proof (where_eq_nil (route_row k r)). unfold selects. naive_solver.
Qed.

Lemma delete_routes s d th cv :
  routes_stored s d → Forall bindable (thread_is th ++ selected_by conversation_is cv).*2 →
  let keys := filter (λ k, k.1 = th ∧ selects cv k.2) (d_keys (pj_routes s)) in
  ∃ d', delete_eq thread_projection_routes (thread_is th ++ selected_by conversation_is cv) d = (Ok (len keys), d') ∧
    db_table d' thread_projection_routes = entries route_row (d_pop_all (pj_routes s) keys) ∧
    same_tables [thread_projection_routes] d d'.
Proof.
  intros Hst Hb keys. unfold delete_eq. rewrite sql_delete_eq by done. eexists. split; [|split].
  - do 2 f_equal. rewrite (rs_routes s d Hst).
    rewrite (entries_filter route_row route_entry _ (λ kv, kv.1.1 = th ∧ selects cv kv.1.2));
      [|apply Hst|intros; by apply where_endpoints].
    rewrite entries_length. unfold keys. rewrite d_keys_filter. unfold d_keys, len. by rewrite length_fmap.
  - rewrite set_table_eq, (rs_routes s d Hst). unfold keys. rewrite d_keys_filter, d_pop_selected by apply (pi_routes_distinct s), Hst.
    apply (entries_filter route_row route_entry); [apply Hst|]. intros k r Hr. pose proof (where_endpoints th cv k r Hr).
    cbn [fst snd]. tauto.
  - by apply same_tables_set; [set_solver|].
Qed.

(** [delete_projection_routes] *)
Lemma sqlite_delete_routes_stored th cv s d :
  routes_stored s d → guard d = Ok () → Forall bindable (thread_is th ++ selected_by conversation_is cv).*2 →
  ∃ d', sqlite_delete_projection_routes guard th cv (Idle d) = ((delete_projection_routes th cv s).1, Idle d') ∧
    routes_stored (delete_projection_routes th cv s).2 d' ∧ same_tables [thread_projection_routes] d d'.
Proof.
  intros Hst Hg Hb. destruct (delete_routes s d th cv Hst Hb) as (d' & E & Ht & Hs). exists d'.
  unfold sqlite_delete_projection_routes. rewrite mutation_idle, Hg, E. split; [done|]. split; [|done]. cbn. split.
  - apply inv_pop_routes, Hst.
  - apply d_all_pop_all, Hst.
  - done.
Qed.

(** [replace_thread_projection_routes] *)
Lemma sqlite_replace_routes_stored now route s d :
  routes_stored s d → guard d = Ok () → storable_route now route →
  ∃ d', sqlite_replace_thread_projection_routes guard now route (Idle d) =
      (res_map (with_updated_at (tr_updated_at route)) (replace_thread_projection_routes (stamp now route) s).1, Idle d') ∧
    routes_stored (replace_thread_projection_routes (stamp now route) s).2 d' ∧
    same_tables [thread_projection_routes] d d'.
Proof.
  intros Hst Hg Hs. destruct (storable_route_values now route Hs) as [Hi Hl].
  pose proof (replace_thread_projection_routes_spec (stamp now route) s) as Hspec. unfold wp in Hspec. revert Hspec.
  unfold sqlite_replace_thread_projection_routes, replace_thread_projection_routes. rewrite !lift_bind.
  change (validate_projection_route (stamp now route)) with (validate_projection_route route).
  destruct (validate_projection_route route) as [[]|e]; [|by exists d].
  rewrite mutation_idle, Hg, (M_bind_ok _ _ _ _ _ (existing_route_found s d Hst route Hi Hl)), get_bind.
  rewrite !lift_bind, (merge_found s d Hst), reject_stamp.
  destruct (_reject_conflicting_route_id _ _) as [[]|e]; [|by exists d].
  change (route_key (stamp now route)) with (route_key route). rewrite merge_stamp.
  cbn [mbind res_bind]. destruct (_merge_projection_route _ route) as [stored|e] eqn:Em; [|by exists d].
  cbn -[delete_eq _write_projection_route]. intros [Ha _]. pose proof (accepted_entry s d now route _ Hst Hs Ha) as He.
  pose proof (accepts_route_spec _ _ _ (rs_inv s d Hst) Ha) as (_ & Hk & _).
  change (route_key stored = route_key route) in Hk. rewrite <- Hk in He.
  pose proof Hk as [= Hth _].
  destruct (delete_routes s d (tr_thread_ref route) None Hst) as (d1 & E1 & Hd1 & Hs1).
  { cbn [selected_by]. rewrite app_nil_r. rewrite fmap_app, Forall_app in Hl. apply Hl. }
  cbn [selected_by] in E1. rewrite app_nil_r, <- Hth in E1.
  set (reduced := d_pop_all _ _) in Hd1.
  assert (reduced = d_pop_all (pj_routes s) (filter (λ k, k.1 = tr_thread_ref route) (d_keys (pj_routes s)))) as Hred.
  { unfold reduced. f_equal. apply list_filter_iff. intros k. cbn. tauto. }
  destruct (write_route reduced now stored d1) as (d2 & E2 & Hd2 & Hs2); [| |done|done| |].
  { apply well_formed_pop_all, (pi_routes_distinct s), Hst. }
  { apply d_all_pop_all, Hst. }
  { intros k' r' Hin%d_pop_all_elem. by apply (accepted_identity s d now route (stamp now stored)). }
  exists d2. rewrite (M_bind_ok _ _ _ _ _ E1), (M_bind_ok _ _ _ _ _ E2). split; [|split].
  - rewrite <- (merge_updated_at _ _ _ Em). by destruct stored.
  - rewrite <- Hred. split; cbn.
    + apply (inv_accepts s (set_routes reduced s) (stamp now route)); [apply Hst|apply inv_pop_routes, Hst|done|].
      intros r (k & Hr%d_pop_all_elem)%d_values_elem. apply d_values_elem. by exists k.
    + rewrite <- Hk. apply d_all_set; [apply d_all_pop_all, Hst|done].
    + by rewrite <- Hk.
  - intros n Hn. by rewrite Hs2, Hs1.
Qed.

(** The rows of the routes fit the schema. *)
Lemma route_rows_fit routes :
  d_all route_entry routes → forallb (row_fits thread_projection_routes_schema) (entries route_row routes) = true.
Proof. intros He. apply forallb_forall. intros r (kr & <- & _)%in_map_iff. done. Qed.

Lemma where_checkpoint i e k r :
  at_checkpoint i e (route_row k r) ↔ tr_route_id r = i ∧ tr_checkpoint_agent_item_id r = e.
Proof.
  unfold at_checkpoint. rewrite where_route_id.
  change (column (route_row k r) "checkpoint_agent_item_id") with (opt_text (tr_checkpoint_agent_item_id r)).
  destruct (tr_checkpoint_agent_item_id r) as [c|], e as [e|]; cbn [opt_text]; unfold sql_eq; naive_solver.
Qed.

Lemma find_route_set i routes k r v :
  well_formed routes → find_route i routes = Some (k, r) → tr_route_id v = i →
  find_route i (d_set routes k v) = Some (k, v).
Proof.
  intros Hw Hf Hv. unfold well_formed, d_keys in Hw. induction routes as [|[k' r'] routes IH]; [done|].
  cbn [fmap list_fmap fst] in Hw. apply NoDup_cons in Hw as [Hk Hw]. cbn [find_route d_set] in *.
  destruct (decide (tr_route_id r' = i)) as [Hi|Hi].
  - injection Hf as -> ->. rewrite decide_True by done. cbn. by rewrite decide_True.
  - assert (k' ≠ k) as Hne.
    { intros ->. apply Hk. apply find_route_spec in Hf as [Hin _]. apply list_elem_of_fmap. by exists (k, r). }
    rewrite decide_False by done. cbn. rewrite decide_False by done. by apply IH.
Qed.

(** [advance_projection_checkpoint] *)
Lemma sqlite_advance_stored i expected item t s d :
  routes_stored s d → guard d = Ok () → bindable (SText i) → bindable (SText item) → storable_time t →
  ∃ d', sqlite_advance_projection_checkpoint guard i expected item t (Idle d) =
      ((advance_projection_checkpoint i expected item t s).1, Idle d') ∧
    routes_stored (advance_projection_checkpoint i expected item t s).2 d' ∧ same_tables [thread_projection_routes] d d'.
Proof.
  intros Hst Hg Hi Hitem Ht. unfold sqlite_advance_projection_checkpoint, advance_projection_checkpoint.
  rewrite get_bind. unfold mbind at 1, M_bind at 1. rewrite mutation_idle, Hg.
  rewrite (M_bind_ok _ _ _ _ _ (read_by_id s d Hst i Hi)).
  destruct (find_route i (pj_routes s)) as [[k r]|] eqn:Ef; [|by exists d].
  pose proof Ef as [Hin Hid]%find_route_spec. cbn [fmap option_fmap option_map snd].
  destruct (stored_entry s d Hst k r Hin) as (Hk & Hv & Hc & Htime & Hb).
  rewrite !raise_if_bind. destruct (decide _) as [|He%dec_stable]; [by exists d|]. rewrite !lift_bind.
  set (advanced := with_checkpoint r (Some item) (Some t)).
  destruct (validate_projection_route advanced) as [[]|e] eqn:Hva; [|by exists d].
  assert (route_entry k advanced) as Hadv.
  { split; [by subst k|]. split; [done|]. split; [by intros ? [= <-]|]. split; [done|].
    destruct Ht as [_ Hr]. apply time_bindable in Hr. unfold projection_route_to_row in *. cbn in *.
    rewrite !Forall_cons in *. tauto. }
  set (P := λ k v, (k, v) ∈ pj_routes s ∧ route_entry k v).
  assert (d_all P (pj_routes s)) as HP.
  { apply Forall_forall. intros [k' v] Hin'. split; [done|]. by apply (stored_entry s d Hst). }
  assert (∀ k' r', P k' r' → at_checkpoint i expected (route_row k' r') ↔ k' = k) as Hp.
  { intros k' r' [Hin' Hr']. rewrite where_checkpoint. split.
    - intros [Hi' _]. eapply (stored_route_id_unique s d Hst); [exact Hin'|exact Hin|congruence].
    - intros ->. pose proof (pi_routes_distinct s (rs_inv s d Hst)) as Hw.
      apply (d_elem_get _ _ _ Hw) in Hin, Hin'. rewrite Hin in Hin'. by injection Hin' as <-. }
  pose proof (pi_routes_distinct s (rs_inv s d Hst)) as Hw.
  pose proof (d_elem_get _ _ _ Hw Hin) as Hget.
  destruct Hadv as (Hka & Hadv). pose proof (conj Hka Hadv : route_entry k advanced) as Hentry.
  destruct Hadv as (_ & _ & _ & Hba).
  assert (routes_stored (set_routes (d_set (pj_routes s) k advanced) s)
    (set_table thread_projection_routes (entries route_row (d_set (pj_routes s) k advanced)) d)) as Hst'.
  { split; [|by apply d_all_set; [apply Hst|]|by rewrite set_table_eq]. rewrite Hka. apply inv_set_route; [apply Hst|done|].
    intros r' (k' & Hin')%d_values_elem Hid'. rewrite <- Hka. destruct (stored_entry s d Hst k' r' Hin') as [<- _].
    symmetry. eapply (stored_route_id_unique s d Hst); [exact Hin|exact Hin'|done]. }
  assert (update_rows thread_projection_routes_schema
    [("checkpoint_agent_item_id"%string, SText item); ("checkpointed_at"%string, time t)] (at_checkpoint i expected)
    (db_table d thread_projection_routes) = Ok (entries route_row (d_set (pj_routes s) k advanced), 1)) as Hup.
  { unfold update_rows. rewrite (rs_routes s d Hst).
    rewrite (entries_update route_row P (at_checkpoint i expected) k Hp advanced);
      [|done|done| |by rewrite Hget].
    - rewrite route_rows_fit by apply Hst'. rewrite no_raise_then by done.
      rewrite (entries_key route_row P _ k Hp) by done. by rewrite Hget.
    - intros v. rewrite Hget. intros [= <-]. done. }
  erewrite M_bind_ok; [|apply sql_update_eq; [| |exact Hup]].
  - rewrite raise_if_bind, decide_False by tauto. rewrite (read_by_id _ _ Hst' i Hi). cbn [pj_routes set_routes].
    rewrite (find_route_set i _ k r advanced) by done. eexists. split; [done|]. split; [exact Hst'|].
    by apply same_tables_set; [set_solver|].
  - destruct Ht as [_ Hr]. by repeat constructor; [|apply time_bindable].
  - rewrite <- He. unfold projection_route_to_row in Hb. cbn in Hb. rewrite !Forall_cons in Hb.
    destruct Hb as (? & _ & _ & _ & _ & _ & _ & ? & _). by repeat constructor.
Qed.

Lemma values_of_thread th routes :
  d_all route_entry routes →
  (filter (λ kv, selects th kv.1.1) routes).*2 = filter (λ r, selects th (tr_thread_ref r)) (routes.*2).
Proof.
  induction 1 as [|[k r] routes [Hk _] _ IH]; [done|]. cbn in Hk. subst k.
  rewrite fmap_cons, !filter_cons. cbn [fst snd]. unfold route_key. cbn [fst]. case_decide; cbn; by rewrite IH.
Qed.

(** [list_projection_routes]: the same routes, the oldest first. *)
Lemma sqlite_list_routes_stored th s d :
  routes_stored s d → Forall bindable (selected_by thread_is th).*2 →
  ∃ l, sqlite_list_projection_routes th (Idle d) = (Ok l, Idle d) ∧
    Permutation l (filter (λ r, selects th (tr_thread_ref r)) (d_values (pj_routes s))) ∧
    StronglySorted (λ r r', dt_us (route_time r) ≤ dt_us (route_time r')) l.
Proof.
  intros Hst Hb. unfold sqlite_list_projection_routes.
  assert (∀ k r, route_entry k r → where_eq (selected_by thread_is th) (route_row k r) ↔ selects th k.1) as Hsel.
  { intros k r Hr. destruct (route_names _ _ Hr) as [H1 _]. destruct th as [t|]; cbn [selected_by].
    - rewrite (where_thread _ _ _ H1). unfold selects. naive_solver.
    - pose proof (where_eq_nil (route_row k r)). unfold selects. naive_solver. }
  destruct (select_rows_decoded route_row route_entry projection_route_from_row ["updated_at"%string]
    (where_eq (selected_by thread_is th)) (λ kv, selects th kv.1.1) (pj_routes s)) as (kvs & Hp & Hdec & Hsort);
    [apply Hst|apply Hsel|apply route_row_read|].
  exists (d_values kvs). unfold query at 1. erewrite M_bind_ok by (cbn [cn_working]; by rewrite select_eq_rows).
  rewrite (rs_routes s d Hst). unfold decode_rows, lift, d_values. rewrite Hdec. split; [done|].
  assert (Forall (λ kv, route_entry kv.1 kv.2) kvs) as Hall.
  { rewrite Hp. pose proof (rs_entries s d Hst) as Hd. unfold d_all in Hd. rewrite Forall_forall in *.
    intros kv [_ Hin]%list_elem_of_filter. by apply Hd. }
  split.
  - rewrite Hp, values_of_thread; [done|apply Hst].
  - clear Hp Hdec. induction Hsort as [|[k r] kvs Hs IH Hf]; [constructor|].
    apply Forall_cons in Hall as [Hkr Hall]. cbn. constructor; [by apply IH|].
    apply Forall_forall. intros r' ([k' r''] & -> & Hin)%list_elem_of_fmap. rewrite !Forall_forall in *.
    specialize (Hf _ Hin). specialize (Hall _ Hin). destruct Hkr as (_ & _ & _ & (t & E & Ht) & _).
    destruct Hall as (_ & _ & _ & (t' & E' & Ht') & _). cbn [row_le snd fst] in *.
    change (column (route_row k r) "updated_at") with (time (route_time r)) in Hf.
    change (column (route_row k' r'') "updated_at") with (time (route_time r'')) in Hf.
    unfold route_time in *. rewrite E, E' in *. cbn [default] in *. destruct (decide _) as [Et|_].
    + apply time_le; [done..|]. rewrite Et. by destruct (total sql_le (time t') (time t')).
    + by apply time_le.
Qed.
End calls.
