(* ===== verification/SqliteClaims.v ===== *)
(** The claims of the SQLite store are those of the process-local repository, but for two
    things: a claim in flight whose time is too long ago is taken over by the next caller,
    and there is no bound on their number. *)

From S2P Require Export SqlTheorems.
From stdpp Require Import list.
#[local] Open Scope Z_scope.
#[local] Open Scope stdpp_scope.

(** A claim and the time of its last change. *)
Abbreviation stamped_claim := (claim_record * datetime)%type.

Definition status_text (s : ClaimStatus) : pystr :=
  py match s with
     | InFlight => "in_flight"
     | SideEffectStarted => "side_effect_started"
     | Completed => "completed"
     end.
Definition claim_values (k : claim_key) (c : stamped_claim) : list sqlvalue :=
  [SText k.1; SText k.2; SText (status_text c.1.1); opt_text c.1.2; time c.2].
Definition claim_row (k : claim_key) (c : stamped_claim) : row :=
  make_row (sc_columns idempotency_records_schema) (claim_values k c).

Record claims_stored (E : dict claim_key stamped_claim) (d : database) : Prop := {
  cs_distinct : well_formed E;
  cs_times : d_all (λ _ c, storable_time c.2) E;
  cs_rows : db_table d idempotency_records = entries claim_row E;
}.

(** The claims without their times are the records of a repository, with room for one. *)
Definition forget_times (E : dict claim_key stamped_claim) : dict claim_key claim_record :=
  (λ kc, (kc.1, kc.2.1)) <$> E.
Definition as_repository (E : dict claim_key stamped_claim) : IdempotencyRepository :=
  {| ir_max_records := len E + 1; ir_records := forget_times E |}.

Lemma forget_get E k : d_get (forget_times E) k = fst <$> d_get E k.
Proof. induction E as [|[k' c] E IH]; [done|]. cbn. by case_decide. Qed.
Lemma forget_set E k c : forget_times (d_set E k c) = d_set (forget_times E) k c.1.
Proof.
  unfold forget_times. induction E as [|[k' c'] E IH]; [done|]. cbn [d_set]. rewrite fmap_cons. cbn [d_set fst snd].
  case_decide; [done|]. by rewrite fmap_cons, IH.
Qed.
Lemma forget_pop E k : forget_times (d_pop E k) = d_pop (forget_times E) k.
Proof.
  unfold forget_times, d_pop. induction E as [|[k' c'] E IH]; [done|].
  rewrite fmap_cons, !filter_cons. cbn [fst]. case_decide; [|done]. by rewrite fmap_cons, IH.
Qed.

Lemma status_text_inj s s' : SText (status_text s) = SText (status_text s') ↔ s = s'.
Proof. split; [|by intros ->]. intros [= H]. by destruct s, s'. Qed.
Lemma opt_text_inj x y : opt_text x = opt_text y ↔ x = y.
Proof. destruct x, y; cbn; split; intros; simplify_eq; done. Qed.

(** What a call on a claim selects. *)
Lemma where_claim scope key k c : where_eq (claim_is scope key) (claim_row k c) ↔ k = (scope, key).
Proof.
  unfold claim_is. rewrite !where_eq_cons.
  change (column (claim_row k c) "scope") with (SText k.1). change (column (claim_row k c) "record_key") with (SText k.2).
  pose proof (where_eq_nil (claim_row k c)). rewrite !sql_eq_text. destruct k; naive_solver.
Qed.

(** The claim of an owner whose status is among some. *)
Definition owner_in (sts : list ClaimStatus) (owner : option pystr) (c : stamped_claim) : Prop :=
  c.1.1 ∈ sts ∧ c.1.2 = owner.
#[export] Instance owner_in_dec sts owner c : Decision (owner_in sts owner c).
Proof. unfold owner_in. apply _. Defined.

Lemma where_owned scope key sts owner k c :
  owned scope key ((λ s, match s with InFlight => "in_flight" | SideEffectStarted => "side_effect_started"
                                 | Completed => "completed" end%string) <$> sts) owner (claim_row k c)
    ↔ k = (scope, key) ∧ owner_in sts owner c.
Proof.
  unfold owned, owner_in. rewrite where_claim.
  change (column (claim_row k c) "status") with (SText (status_text c.1.1)).
  change (column (claim_row k c) "owner_token") with (opt_text c.1.2). rewrite opt_text_inj.
  rewrite list_elem_of_fmap. split.
  - intros (-> & (s & E & (st & -> & Hst)%list_elem_of_fmap) & ->). split_and!; try done.
    change (SText (status_text c.1.1) = SText (status_text st)) in E. by apply status_text_inj in E as ->.
  - intros (-> & Hst & ->). split_and!; try done. eexists. split; [|by apply list_elem_of_fmap; eexists].
    by destruct c.1.1.
Qed.

Lemma where_owned_any scope key owner k c :
  owned_any scope key owner (claim_row k c) ↔ k = (scope, key) ∧ owner_in [InFlight; SideEffectStarted; Completed] owner c.
Proof.
  unfold owned_any, owner_in. rewrite where_claim. change (column (claim_row k c) "owner_token") with (opt_text c.1.2).
  rewrite opt_text_inj. assert (c.1.1 ∈ [InFlight; SideEffectStarted; Completed]) by (destruct c.1.1; set_solver). tauto.
Qed.

(** An entry a call selects, or nothing it does. *)
Lemma update_claim (E : dict claim_key stamped_claim) (p : row → Prop) `{∀ r, Decision (p r)} sts scope key owner set f :
  well_formed E → (∀ k c, p (claim_row k c) ↔ k = (scope, key) ∧ owner_in sts owner c) →
  (∀ k c, set_columns (claim_row k c) set = claim_row k (f c)) →
  update_rows idempotency_records_schema set p (entries claim_row E) =
    match d_get E (scope, key) with
    | Some c => if decide (owner_in sts owner c) then Ok (entries claim_row (d_set E (scope, key) (f c)), 1)
                else Ok (entries claim_row E, 0)
    | None => Ok (entries claim_row E, 0)
    end.
Proof.
  intros Hw Hp Hf.
  assert (∀ E', forallb (row_fits idempotency_records_schema) (entries claim_row E') = true) as Hfit.
  { intros E'. apply forallb_forall. intros r (kr & <- & _)%in_map_iff. done. }
  assert ((∀ c, d_get E (scope, key) = Some c → ¬ owner_in sts owner c) →
    update_rows idempotency_records_schema set p (entries claim_row E) = Ok (entries claim_row E, 0)) as Hnone.
  { intros Hn. assert (Forall (λ r, ¬ p r) (entries claim_row E)) as Hnp.
    { apply Forall_forall. intros r ([k c] & -> & Hin)%list_elem_of_fmap. change (¬ p (claim_row k c)). rewrite Hp. intros [-> Ho].
      apply (d_elem_get _ _ _ Hw) in Hin. by apply (Hn c). }
    unfold update_rows. rewrite (filter_none p) by done.
    replace ((λ r, if decide (p r) then set_columns r set else r) <$> entries claim_row E) with (entries claim_row E).
    - rewrite Hfit. by rewrite no_raise_then.
    - symmetry. rewrite <- (list_fmap_id (entries claim_row E)) at 2. apply list_fmap_ext. intros i r Hr%list_elem_of_lookup_2.
      rewrite Forall_forall in Hnp. by rewrite decide_False by by apply Hnp. }
  destruct (d_get E (scope, key)) as [c|] eqn:Eg; [|by apply Hnone].
  destruct (decide (owner_in sts owner c)) as [Ho|Ho]; [|apply Hnone; by intros ? [= <-]].
  set (P := λ k c, (k, c) ∈ E).
  assert (∀ k' c', P k' c' → p (claim_row k' c') ↔ k' = (scope, key)) as Hk.
  { intros k' c' Hin. rewrite Hp. split; [tauto|]. intros ->. split; [done|].
    apply (d_elem_get _ _ _ Hw) in Hin. congruence. }
  assert (d_all P E) as HP by (apply Forall_forall; by intros []).
  unfold update_rows. rewrite (entries_update claim_row P p (scope, key) Hk (f c)); [|done|done| |by rewrite Eg].
  - rewrite Hfit, no_raise_then by done. by rewrite (entries_key claim_row P p (scope, key) Hk), Eg.
  - intros c' [= <-]%(eq_trans (eq_sym Eg)). apply Hf.
Qed.

(** * Calls on times and claims *)

(** The times are kept; what a call does with the records. *)
Definition stamped_change (now : datetime) (sts : list ClaimStatus) (f : ClaimStatus → ClaimStatus) (k : claim_key)
    (owner : option pystr) : M (dict claim_key stamped_claim) unit :=
  E ← get_st;
  match d_get E k with
  | Some c =>
      if decide (owner_in sts owner c) then modify (λ E, d_set E k ((f c.1.1, c.1.2), now))
      else mraise RuntimeError
  | None => mraise RuntimeError
  end.

(** A claim of that key is too old to be kept. *)
Definition stale_claim (stale : pyfloat) (now : datetime) (c : option stamped_claim) : Prop :=
  match c with
  | Some ((InFlight, _), t) => ¬ float_lt (total_seconds (dt_us now - dt_us t)) stale
  | _ => False
  end.
#[export] Instance stale_claim_dec stale now c : Decision (stale_claim stale now c).
Proof. destruct c as [[[[] ?] ?]|]; cbn; apply _. Defined.

Definition stamped_claims (stale : pyfloat) (now : datetime) (k : claim_key) (owner : option pystr)
    : M (dict claim_key stamped_claim) IdempotencyClaimStatus :=
  E ← get_st;
  match d_get E k with
  | Some ((Completed, _), _) => mret ALREADY_COMPLETED
  | Some ((SideEffectStarted, _), _) => mret CLAIM_IN_FLIGHT
  | found =>
      if decide (found = None ∨ stale_claim stale now found) then
        modify (λ E, d_set E k ((InFlight, owner), now)) ;; mret ACQUIRED
      else mret CLAIM_IN_FLIGHT
  end.

Definition stamped_release (k : claim_key) (owner : option pystr) : M (dict claim_key stamped_claim) unit :=
  E ← get_st;
  match d_get E k with
  | Some c => if decide (owner_in [InFlight; SideEffectStarted] owner c) then modify (λ E, d_pop E k) else mret ()
  | None => mret ()
  end.

(** The texts a call is given can be stored. *)
Definition claim_bindable (scope key : pystr) (owner : option pystr) : Prop :=
  Forall bindable [SText scope; SText key; opt_text owner].

Section claims.
Context {SO : ScanOrder} (guard : database → res unit) (stale : pyfloat).

(** A call on the connection is one on the stamped claims. *)
Definition claims_call {A} (scope key : pystr) (owner : option pystr) (m : M (connection database) A)
    (m' : M (dict claim_key stamped_claim) A) : Prop :=
  ∀ E d, claims_stored E d → guard d = Ok () → claim_bindable scope key owner →
  ∃ d', m (Idle d) = ((m' E).1, Idle d') ∧ claims_stored (m' E).2 d' ∧ same_tables [idempotency_records] d d'.

Lemma claims_stored_set E d k c :
  claims_stored E d → storable_time c.2 →
  claims_stored (d_set E k c) (set_table idempotency_records (entries claim_row (d_set E k c)) d).
Proof.
  intros [H1 H2 H3] Hc. split; [by apply well_formed_set|by apply d_all_set|by rewrite set_table_eq].
Qed.

Lemma update_owned_stored now sts f scope key owner set (p : row → Prop) `{∀ r, Decision (p r)} :
  storable_time now → Forall bindable set.*2 →
  (∀ k c, p (claim_row k c) ↔ k = (scope, key) ∧ owner_in sts owner c) →
  (∀ k c, set_columns (claim_row k c) set = claim_row k ((f c.1.1, c.1.2), now)) →
  claims_call scope key owner (update_owned guard set scope key owner p) (stamped_change now sts f (scope, key) owner).
Proof.
  intros Hnow Hset Hp Hf E d Hst Hg Hb. unfold update_owned, stamped_change. rewrite mutation_idle, Hg, get_bind.
  pose proof (update_claim E p sts scope key owner set (λ c, ((f c.1.1, c.1.2), now)) (cs_distinct E d Hst) Hp Hf) as Hup.
  rewrite <- (cs_rows E d Hst) in Hup.
  assert (∀ E' n, update_rows idempotency_records_schema set p (db_table d idempotency_records) = Ok (entries claim_row E', n) →
    sql_update idempotency_records set [SText scope; SText key; opt_text owner] p d
      = (Ok n, set_table idempotency_records (entries claim_row E') d)) as Hsql.
  { intros. by apply sql_update_eq. }
  destruct (d_get E (scope, key)) as [c|] eqn:Eg; [destruct (decide (owner_in sts owner c)) as [Ho|Ho]|].
  - rewrite (M_bind_ok _ _ _ _ _ (Hsql _ _ Hup)). eexists. split; [done|]. split; [by apply claims_stored_set|].
    by apply same_tables_set; [set_solver|].
  - rewrite (cs_rows E d Hst) in Hup at 2. rewrite (M_bind_ok _ _ _ _ _ (Hsql _ _ Hup)). by exists d.
  - rewrite (cs_rows E d Hst) in Hup at 2. rewrite (M_bind_ok _ _ _ _ _ (Hsql _ _ Hup)). by exists d.
Qed.

Section update.
Context (now : datetime) (Hnow : storable_time now) (scope key : pystr) (owner : option pystr).

Lemma time_stored : bindable (time now).
Proof. by apply time_bindable, Hnow. Qed.

Lemma mark_stored :
  claims_call scope key owner (sqlite_mark_side_effect_started guard now scope key owner)
    (stamped_change now [InFlight] (λ _, SideEffectStarted) (scope, key) owner).
Proof.
  apply update_owned_stored; [done| |apply (where_owned scope key [InFlight])|done].
  repeat constructor. apply time_stored.
Qed.

Lemma refresh_stored :
  claims_call scope key owner (sqlite_refresh guard now scope key owner)
    (stamped_change now [InFlight] (λ s, s) (scope, key) owner).
Proof.
  apply update_owned_stored; [done| |apply (where_owned scope key [InFlight])|done].
  repeat constructor. apply time_stored.
Qed.

Lemma complete_stored :
  claims_call scope key owner (sqlite_complete guard now scope key owner)
    (stamped_change now [InFlight; SideEffectStarted; Completed] (λ _, Completed) (scope, key) owner).
Proof.
  apply update_owned_stored; [done| |apply where_owned_any|done]. repeat constructor. apply time_stored.
Qed.

Lemma release_entries (E : dict claim_key stamped_claim) :
  well_formed E →
  filter (λ kc, ¬ (kc.1 = (scope, key) ∧ owner_in [InFlight; SideEffectStarted] owner kc.2)) E
    = (stamped_release (scope, key) owner E).2.
Proof.
  intros Hw. unfold stamped_release. rewrite get_bind.
  assert ((∀ c, d_get E (scope, key) = Some c → ¬ owner_in [InFlight; SideEffectStarted] owner c) →
    filter (λ kc, ¬ (kc.1 = (scope, key) ∧ owner_in [InFlight; SideEffectStarted] owner kc.2)) E = E) as Hnone.
  { intros Hn. rewrite (filter_iff_on _ (λ _, True)).
    - clear. induction E as [|kc E IH]; [done|]. rewrite filter_cons, decide_True by done. by f_equal.
    - intros [k c] Hin%(d_elem_get _ _ _ Hw). cbn. split; [done|]. intros _ [-> Ho]. by apply (Hn c). }
  destruct (d_get E (scope, key)) as [c|] eqn:Eg; [|by apply Hnone].
  destruct (decide (owner_in [InFlight; SideEffectStarted] owner c)) as [Ho|Ho]; [|apply Hnone; by intros ? [= <-]].
  cbn [snd modify]. apply filter_iff_on. intros [k c'] Hin%(d_elem_get _ _ _ Hw). cbn. split; [|tauto].
  intros Hn ->. rewrite Eg in Hin. injection Hin as <-. tauto.
Qed.

Lemma release_stored :
  claims_call scope key owner (sqlite_release guard scope key owner) (stamped_release (scope, key) owner).
Proof.
  intros E d Hst Hg Hb. unfold sqlite_release. rewrite mutation_idle, Hg.
  erewrite M_bind_ok by by apply sql_delete_eq.
  rewrite (cs_rows E d Hst), (entries_filter claim_row (λ _ _, True) _
    (λ kc, ¬ (kc.1 = (scope, key) ∧ owner_in [InFlight; SideEffectStarted] owner kc.2))); [|by apply Forall_true|].
  2:{ intros k c _. pose proof (where_owned scope key [InFlight; SideEffectStarted] owner k c). cbn in *. tauto. }
  rewrite release_entries by apply Hst.
  exists (set_table idempotency_records (entries claim_row (stamped_release (scope, key) owner E).2) d). split; [|split].
  - unfold stamped_release. rewrite get_bind. destruct (d_get E _) as [c|]; [|done]. by destruct (decide _).
  - unfold stamped_release. rewrite get_bind.
    destruct (d_get E (scope, key)) as [c|] eqn:Eg; [destruct (decide _)|]; cbn [snd modify mret M_ret];
      (split; rewrite ?set_table_eq; [|..|done]); try apply Hst; [by apply well_formed_pop, Hst|by apply d_all_pop, Hst].
  - by apply same_tables_set; [set_solver|].
Qed.

(** An insertion of a claim there is not. *)
Lemma insert_claim E d owner_token :
  claims_stored E d → claim_bindable scope key owner_token →
  sql_insert idempotency_records [SText scope; SText key; SText (py "in_flight"); opt_text owner_token; time now] OrFail d =
    match d_get E (scope, key) with
    | Some _ => (Err IntegrityError, d)
    | None => (Ok (), set_table idempotency_records
        (entries claim_row (d_set E (scope, key) ((InFlight, owner_token), now))) d)
    end.
Proof.
  intros Hst Hb. unfold sql_insert.
  assert (Forall bindable [SText scope; SText key; SText (py "in_flight"); opt_text owner_token; time now]) as Hall.
  { unfold claim_bindable in Hb. rewrite !Forall_cons in *. destruct Hb as (? & ? & ? & _). split_and!; try done.
    apply time_stored. }
  rewrite lift_bind, (proj2 (bind_all_ok _) Hall), get_bind. cbn zeta. rewrite lift_bind.
  change (make_row _ _) with (claim_row (scope, key) ((InFlight, owner_token), now)).
  change (schema_of idempotency_records) with idempotency_records_schema.
  rewrite (cs_rows E d Hst).
  assert (∀ k c, True → same_key ["scope"; "record_key"]%string (claim_row (scope, key) ((InFlight, owner_token), now))
      (claim_row k c) ↔ k = (scope, key)) as Hk.
  { intros k c _. unfold same_key. rewrite !Forall_cons, Forall_nil.
    change (column (claim_row k c) "scope") with (SText k.1). change (column (claim_row k c) "record_key") with (SText k.2).
    change (column (claim_row (scope, key) _) "scope") with (SText scope).
    change (column (claim_row (scope, key) _) "record_key") with (SText key).
    rewrite !sql_eq_text. destruct k; naive_solver. }
  assert (d_all (λ (_ : claim_key) (_ : stamped_claim), True) E) as Ha by by apply Forall_true.
  destruct (d_get E (scope, key)) as [c|] eqn:Eg.
  - unfold insert_row. rewrite (no_raise_then (_ = false)) by done. rewrite raise_then; [done|].
    apply Exists_cons. left. apply (exists_entries claim_row _ _ _ Hk); [done|]. by rewrite Eg.
  - rewrite (entries_insert claim_row); [done|done|done|]. constructor; [|constructor].
    intros Hex. apply (exists_entries claim_row _ _ _ Hk) in Hex; [|done]. rewrite Eg in Hex. by destruct Hex.
Qed.

Lemma claim_stored :
  claims_call scope key owner (sqlite_claim guard stale now scope key owner)
    (stamped_claims stale now (scope, key) owner).
Proof.
  intros E d Hst Hg Hb. unfold sqlite_claim. pose proof (begin_idle guard d) as Hbegin. rewrite Hg in Hbegin. rewrite (M_bind_ok _ _ _ _ _ Hbegin). clear Hbegin.
  pose proof (insert_claim E d owner Hst Hb) as Hins. unfold stamped_claims. rewrite get_bind.
  destruct (d_get E (scope, key)) as [[[st o] t]|] eqn:Eg.
  2:{ rewrite decide_True by by left. eexists. split; [|split].
      - unfold mcatch, execute, commit, modify, mbind, M_bind. cbn [cn_working]. by rewrite Hins.
      - by apply claims_stored_set.
      - by apply same_tables_set; [set_solver|]. }
  erewrite M_bind_ok; [|unfold mcatch, execute, commit, modify, mbind, M_bind; cbn [cn_working]; by rewrite Hins].
  cbn [cn_committed].
  erewrite M_bind_ok.
  2:{ unfold query. cbn [cn_working]. rewrite (select_one_eq_entry _ _ d (Some (claim_row (scope, key) ((st, o), t)))); [done| |].
      - unfold claim_bindable in Hb. rewrite !Forall_cons in Hb. destruct Hb as (? & ? & _). by repeat constructor.
      - rewrite (cs_rows E d Hst), (entries_key claim_row (λ _ _, True) _ (scope, key)); [by rewrite Eg| | |apply Hst].
        + intros k c _. apply where_claim.
        + by apply Forall_true. }
  pose proof (d_all_get _ _ _ _ (cs_times E d Hst) Eg) as Htime. cbn [snd] in Htime.
  destruct st; [|by exists d..].
  change (column (claim_row (scope, key) (InFlight, o, t)) "status") with (SText (py "in_flight")).
  change (column (claim_row (scope, key) (InFlight, o, t)) "updated_at") with (time t). cbv iota.
  rewrite decide_False by done. rewrite decide_False by done. rewrite decide_False by (intros Hn; by apply Hn).
  rewrite decode_time by done. cbn zeta iota.
  destruct (decide (float_lt (total_seconds (dt_us now - dt_us t)) stale)) as [Hlt|Hge].
  { rewrite decide_False; [by exists d|]. intros [|Hs]; [done|]. by apply Hs. }
  rewrite (decide_True (P := _ ∨ _)) by by right.
  exists (set_table idempotency_records (entries claim_row (d_set E (scope, key) ((InFlight, owner), now))) d).
  split; [|split; [by apply claims_stored_set|by apply same_tables_set; [set_solver|]]].
  rewrite (M_bind_ok (execute _) _ _ 1 (InTransaction d (set_table idempotency_records
    (entries claim_row (d_set E (scope, key) ((InFlight, owner), now))) d))); [done|]. unfold execute. cbn [cn_working cn_committed].
  erewrite sql_update_eq; [done| | |].
  - unfold claim_bindable in Hb. rewrite !Forall_cons in Hb. destruct Hb as (_ & _ & ? & _). by repeat constructor; [|apply time_stored].
  - unfold claim_bindable in Hb. rewrite !Forall_cons in Hb. destruct Hb as (? & ? & _). by repeat constructor.
  - assert (∀ k c, True → where_eq (claim_is scope key) (claim_row k c) ↔ k = (scope, key)) as Hw by (intros; apply where_claim).
    assert (d_all (λ (_ : claim_key) (_ : stamped_claim), True) E) as Ha by by apply Forall_true.
    unfold update_rows. rewrite (cs_rows E d Hst).
    rewrite (entries_update claim_row _ _ _ Hw ((InFlight, owner), now)); [|done|apply Hst| |by rewrite Eg].
    + rewrite (proj2 (forallb_forall _ _)).
      { rewrite no_raise_then by done. rewrite (entries_key claim_row _ _ _ Hw E Ha) by apply Hst. by rewrite Eg. }
      intros r (kr & <- & _)%in_map_iff. done.
    + intros c [= <-]%(eq_trans (eq_sym Eg)). done.
Qed.
End update.
End claims.

(** * The process-local repository *)

(** One call of each kind: on the connection, on the stamped claims and on the repository. *)
Definition answer {S A B} (f : A → B) (m : M S A) : M S B := a ← m; mret (f a).

Definition sqlite_claim_op `{ScanOrder} (guard : database → res unit) (stale : pyfloat) (now : datetime) (op : idem_op)
    (scope key : pystr) (owner : option pystr) : M (connection database) (option IdempotencyClaimStatus) :=
  match op with
  | OpClaim => answer Some (sqlite_claim guard stale now scope key owner)
  | OpComplete => answer (λ _, None) (sqlite_complete guard now scope key owner)
  | OpMarkStarted => answer (λ _, None) (sqlite_mark_side_effect_started guard now scope key owner)
  | OpRefresh => answer (λ _, None) (sqlite_refresh guard now scope key owner)
  | OpRelease => answer (λ _, None) (sqlite_release guard scope key owner)
  end.
Definition memory_claim_op (op : idem_op) (scope key : pystr) (owner : option pystr)
    : M IdempotencyRepository (option IdempotencyClaimStatus) :=
  match op with
  | OpClaim => answer Some (claim scope key owner)
  | OpComplete => answer (λ _, None) (complete scope key owner)
  | OpMarkStarted => answer (λ _, None) (mark_side_effect_started scope key owner)
  | OpRefresh => answer (λ _, None) (refresh scope key owner)
  | OpRelease => answer (λ _, None) (release scope key owner)
  end.
Definition stamped_op (stale : pyfloat) (now : datetime) (op : idem_op) (k : claim_key) (owner : option pystr)
    : M (dict claim_key stamped_claim) (option IdempotencyClaimStatus) :=
  match op with
  | OpClaim => answer Some (stamped_claims stale now k owner)
  | OpComplete => answer (λ _, None) (stamped_change now [InFlight; SideEffectStarted; Completed] (λ _, Completed) k owner)
  | OpMarkStarted => answer (λ _, None) (stamped_change now [InFlight] (λ _, SideEffectStarted) k owner)
  | OpRefresh => answer (λ _, None) (stamped_change now [InFlight] (λ s, s) k owner)
  | OpRelease => answer (λ _, None) (stamped_release k owner)
  end.

Lemma claims_call_answer {A B} (f : A → B) guard scope key owner m m' :
  claims_call guard scope key owner m m' → claims_call guard scope key owner (answer f m) (answer f m').
Proof.
  intros H E d Hst Hg Hb. destruct (H E d Hst Hg Hb) as (d' & E1 & Hst' & Hs). exists d'.
  unfold answer, mbind, M_bind. rewrite E1. destruct (m' E) as [[a|e] E']; by split_and!.
Qed.

Lemma sqlite_claim_op_stored `{ScanOrder} guard stale now op scope key owner :
  storable_time now →
  claims_call guard scope key owner (sqlite_claim_op guard stale now op scope key owner)
    (stamped_op stale now op (scope, key) owner).
Proof.
  intros Hnow. destruct op; apply claims_call_answer;
    [by apply claim_stored|by apply complete_stored|by apply mark_stored|by apply refresh_stored|by apply (release_stored _ now)].
Qed.

(** A claim that is taken over. *)
Definition taken_over (stale : pyfloat) (now : datetime) (op : idem_op) (c : option stamped_claim) : Prop :=
  op = OpClaim ∧ stale_claim stale now c.
#[export] Instance taken_over_dec stale now op c : Decision (taken_over stale now op c).
Proof. unfold taken_over. assert (EqDecision idem_op) by solve_decision. apply _. Defined.

Lemma stamped_op_memory stale now op scope key owner E :
  let '(r, E') := stamped_op stale now op (scope, key) owner E in
  let '(r', s') := memory_claim_op op scope key owner (as_repository E) in
  if decide (taken_over stale now op (d_get E (scope, key))) then
    r = Ok (Some ACQUIRED) ∧ forget_times E' = d_set (forget_times E) (scope, key) (InFlight, owner)
  else r = r' ∧ forget_times E' = ir_records s'.
Proof.
  assert (¬ ir_max_records (as_repository E) ≤ len (ir_records (as_repository E))) as Hroom.
  { cbn. unfold forget_times, len. rewrite length_fmap. lia. }
  pose proof (forget_get E (scope, key)) as Hget.
  destruct op; unfold stamped_op, memory_claim_op, answer, stamped_claims, stamped_change, stamped_release,
    claim, complete, mark_side_effect_started, refresh, release; rewrite ?(M_bind_ok get_st _ _ _ _ eq_refl).
  all: unfold mbind, M_bind, get_st; cbn [ir_records as_repository];
    rewrite Hget; destruct (d_get E (scope, key)) as [[[st o] t]|]; cbn [fmap option_fmap option_map fst snd] in *;
    try destruct st; unfold raise_if, taken_over, owner_in; cbn [fst snd stale_claim];
    repeat case_decide; cbn; rewrite ?forget_set, ?forget_pop; cbn [fst snd].
  all: try (split; [done|]); try done; try (exfalso; set_solver).
  all: try (by destruct_and!; subst).
  by apply d_set_id.
Qed.
