(* ===== verification/SqliteAtomicity.v ===== *)
(** The calls of the SQLite store as one type, and what every one of them leaves behind:
    a connection outside of any transaction, and, when it raises, the database as it was. *)

From S2P Require Export SqlTheorems.
From stdpp Require Import list.
#[local] Open Scope Z_scope.
#[local] Open Scope stdpp_scope.

Inductive sqlite_call : Type :=
| GetBinding (c : ConversationRef)
| PutBindingCall (b : ConversationBinding) (expected : option Z)
| DeleteBindingCall (c : ConversationRef) (expected : option Z)
| ListRoutes (th : option ThreadRef)
| PutRouteCall (r : ThreadProjectionRoute)
| ReplaceRoutesCall (r : ThreadProjectionRoute)
| AdvanceRoute (i : pystr) (expected : option pystr) (item : pystr) (t : datetime)
| DeleteRoutesCall (th : ThreadRef) (cv : option ConversationRef)
| GetTurn (th : ThreadRef) (i : pystr)
| ListTurns (th : option ThreadRef)
| PutTurnCall (c : TurnReplyCorrelation)
| DeleteTurnCall (th : ThreadRef) (i : pystr)
| DeleteTurnsCall (th : option ThreadRef) (cv : option ConversationRef) (older : option datetime)
| ListRequests (rq : option RequestRef) (th : option ThreadRef) (cv : option ConversationRef)
| PutRequest (c : RequestRouteCorrelation)
| TransitionRequest (rq : RequestRef) (expected : list RequestRouteState) (st : RequestRouteState) (t : datetime)
| DeleteRequests (rq : option RequestRef) (th : option ThreadRef) (cv : option ConversationRef) (older : option datetime)
| GetSubmission (i : pystr)
| ReserveSubmission (r : DeliverySubmissionRecord)
| UpdateDestination (i di : pystr) (expected : DeliverySubmissionState) (dest : DestinationDeliveryRecord)
| Claim (scope key : pystr) (owner : option pystr)
| MarkStarted (scope key : pystr) (owner : option pystr)
| Refresh (scope key : pystr) (owner : option pystr)
| Complete (scope key : pystr) (owner : option pystr)
| Release (scope key : pystr) (owner : option pystr).

Section calls.
Context {SO : ScanOrder} {FT : FloatText} (guard : database → res unit) (stale : pyfloat).

Definition run_call (now : datetime) (call : sqlite_call) : M (connection database) unit :=
  match call with
  | GetBinding c => sqlite_get c ;; mret ()
  | PutBindingCall b e => sqlite_put guard now b e ;; mret ()
  | DeleteBindingCall c e => sqlite_delete guard c e
  | ListRoutes th => sqlite_list_projection_routes th ;; mret ()
  | PutRouteCall r => sqlite_put_projection_route guard now r ;; mret ()
  | ReplaceRoutesCall r => sqlite_replace_thread_projection_routes guard now r ;; mret ()
  | AdvanceRoute i e item t => sqlite_advance_projection_checkpoint guard i e item t ;; mret ()
  | DeleteRoutesCall th cv => sqlite_delete_projection_routes guard th cv ;; mret ()
  | GetTurn th i => sqlite_get_turn_reply_correlation th i ;; mret ()
  | ListTurns th => sqlite_list_turn_reply_correlations th ;; mret ()
  | PutTurnCall c => sqlite_put_turn_reply_correlation guard c ;; mret ()
  | DeleteTurnCall th i => sqlite_delete_turn_reply_correlation guard th i ;; mret ()
  | DeleteTurnsCall th cv o => sqlite_delete_turn_reply_correlations guard th cv o ;; mret ()
  | ListRequests rq th cv => sqlite_list_request_correlations rq th cv ;; mret ()
  | PutRequest c => sqlite_put_request_correlation guard c ;; mret ()
  | TransitionRequest rq es st t => sqlite_transition_request_correlations guard rq es st t ;; mret ()
  | DeleteRequests rq th cv o => sqlite_delete_request_correlations guard rq th cv o ;; mret ()
  | GetSubmission i => sqlite_get_delivery_submission i ;; mret ()
  | ReserveSubmission r => sqlite_reserve_delivery_submission guard r ;; mret ()
  | UpdateDestination i di e dest => sqlite_update_delivery_destination guard i di e dest ;; mret ()
  | Claim scope key owner => sqlite_claim guard stale now scope key owner ;; mret ()
  | MarkStarted scope key owner => sqlite_mark_side_effect_started guard now scope key owner
  | Refresh scope key owner => sqlite_refresh guard now scope key owner
  | Complete scope key owner => sqlite_complete guard now scope key owner
  | Release scope key owner => sqlite_release guard scope key owner
  end.

(** * What a call leaves behind *)

(** Nothing is open, and an error has changed nothing. *)
Definition settles {A} (m : M (connection database) A) : Prop :=
  ∀ d, wp m (λ r c, ∃ d', c = Idle d' ∧ (is_ok r = false → d' = d)) (Idle d).

Lemma settles_mutation {A} (m : M database A) : settles (mutation guard m).
Proof.
  intros d. apply wp_mutation; [by eexists|]. unfold wp. destruct (m d) as [[a|e] d']; [|done]. by exists d'.
Qed.

Lemma settles_lift {A B} (r : res A) (m : A → M (connection database) B) :
  (∀ a, settles (m a)) → settles (lift r ≫= m).
Proof. intros Hm d. unfold wp. rewrite lift_bind. destruct r as [a|e]; [apply Hm|by exists d]. Qed.

Lemma settles_raise_if {B} P `{Decision P} e (m : unit → M (connection database) B) :
  settles (m ()) → settles (raise_if P e ≫= m).
Proof. intros Hm d. unfold wp. rewrite raise_if_bind. case_decide; [by exists d|apply Hm]. Qed.

(** A call followed by what only looks at its answer and does not raise. *)
Lemma settles_then {A B} (m : M (connection database) A) (f : A → B) : settles m → settles (a ← m; mret (f a)).
Proof.
  intros Hm d. unfold wp. specialize (Hm d). unfold wp in Hm. unfold mbind, M_bind.
  by destruct (m (Idle d)) as [[a|e] c].
Qed.

(** A call that only reads leaves the connection as it is. *)
Definition reads {A} (m : M (connection database) A) : Prop := ∀ c, (m c).2 = c.
Lemma settles_reads {A} (m : M (connection database) A) : reads m → settles m.
Proof. intros Hm d. unfold wp. specialize (Hm (Idle d)). destruct (m (Idle d)) as [r c]. cbn in Hm. subst. by exists d. Qed.
Lemma reads_query {A} (m : M database A) : reads (query m).
Proof. done. Qed.
Lemma reads_lift {A} (r : res A) : reads (lift r).
Proof. done. Qed.
Lemma reads_ret {A} (a : A) : reads (mret a).
Proof. done. Qed.
Lemma reads_bind {A B} (m : M (connection database) A) (k : A → M (connection database) B) :
  reads m → (∀ a, reads (k a)) → reads (m ≫= k).
Proof.
  intros Hm Hk c. unfold mbind, M_bind. specialize (Hm c). destruct (m c) as [[a|e] c']; cbn in Hm; subst; [apply Hk|done].
Qed.

(** * The checkpoint of a route *)

Lemma column_set_column r c v c' : c ≠ c' → column (set_column r c v) c' = column r c'.
Proof.
  intros Hne. induction r as [|[a w] r IH]; [done|]. cbn. destruct (String.eqb_spec a c) as [->|Hac]; cbn.
  - by rewrite (proj2 (String.eqb_neq c c')).
  - by rewrite IH.
Qed.

(** An update does not lose the rows whose other columns select them. *)
Lemma updated_row_found (i : pystr) set p `{∀ r, Decision (p r)} sch t t' n :
  update_rows sch set p t = Ok (t', n) → n = 1 → Forall (λ cv, cv.1 ≠ "route_id"%string) set →
  (∀ r, p r → where_eq [("route_id"%string, SText i)] r) →
  head (select_rows [] (where_eq [("route_id"%string, SText i)]) t') ≠ None.
Proof.
  unfold update_rows. rewrite then_ok. intros [_ [= <- Hn]] H1 Hset Hp.
  assert (∃ r, r ∈ t ∧ p r) as (r & Hin & Hr).
  { destruct (filter p t) as [|r l] eqn:E; [unfold len in Hn; cbn in Hn; lia|].
    exists r. assert (r ∈ filter p t) as Hr by (rewrite E; set_solver). apply list_elem_of_filter in Hr. tauto. }
  assert (set_columns r set ∈ select_rows [] (where_eq [("route_id"%string, SText i)])
    ((λ r, if decide (p r) then set_columns r set else r) <$> t)) as Hs.
  { rewrite select_rows_perm. apply list_elem_of_filter. split.
    - specialize (Hp r Hr). rewrite where_eq_cons in *. split; [|apply where_eq_nil]. destruct Hp as [Hp _].
      assert (∀ l r', Forall (λ cv : string * sqlvalue, cv.1 ≠ "route_id"%string) l →
        column (set_columns r' l) "route_id" = column r' "route_id") as ->; [|done|done].
      intros l. unfold set_columns. induction l as [|cv l IH]; intros r' Hl; [done|]. cbn.
      apply Forall_cons in Hl as [Hc Hl]. rewrite IH by done. by apply column_set_column.
    - apply list_elem_of_fmap. exists r. by rewrite decide_True. }
  destruct (select_rows _ _ _); [set_solver|done].
Qed.

(** A mutation whose answer is there. *)
Lemma settles_present {A} (m : M database (option A)) :
  (∀ d, wp m (λ r _, r ≠ Ok None) d) →
  settles (x ← mutation guard m; match x with Some a => mret a | None => mraise KeyError end).
Proof.
  intros Hm d. unfold wp. unfold mbind, M_bind. rewrite mutation_idle. specialize (Hm d). unfold wp in Hm.
  destruct (guard d) as [[]|err]; [|by exists d]. destruct (m d) as [[[a|]|err] d']; [by exists d'|done|by exists d].
Qed.

Lemma settles_advance i e item t : settles (sqlite_advance_projection_checkpoint guard i e item t).
Proof.
  apply settles_present. intros d.
  apply wp_bind. unfold wp at 1. destruct (_read_projection_route i d) as [[[r|]|err] d0] eqn:E0; [|done..].
  apply wp_bind, wp_raise_if; [done|]. intros _. apply wp_bind_lift; [|done]. intros [] _.
  apply wp_bind. unfold sql_update. apply wp_bind_lift; [|done]. intros [] _. apply wp_bind, wp_get.
  apply wp_bind_lift; [|done]. intros [t' n] Hup. apply wp_bind, wp_modify, wp_ret.
  apply wp_bind, wp_raise_if; [done|]. intros Hn%dec_stable.
  unfold _read_projection_route, read_route, select_one_eq, sql_select_one, sql_select.
  pose proof (updated_row_found i _ _ _ _ _ _ Hup Hn) as Hfound.
  apply wp_bind, wp_bind, wp_bind_lift; [|done]. intros [] _. apply wp_bind, wp_get, wp_ret, wp_ret.
  rewrite set_table_eq. destruct (head _) eqn:Eh.
  - apply wp_bind_lift; [|done]. intros route _. by apply wp_ret.
  - exfalso. apply Hfound; [by repeat constructor|by intros r' [? _]|done].
Qed.

(** * Claims *)

(** What a claim needs, that the exceptions it does not handle are not raised. *)
Definition claim_safe (now : datetime) (scope key : pystr) (owner : option pystr) (d : database) : Prop :=
  Forall bindable [SText scope; SText key; opt_text owner; time now] ∧
  forallb (row_fits idempotency_records_schema) (db_table d idempotency_records) = true.

Lemma column_set_column_eq r c v : column r c ≠ SNull → column (set_column r c v) c = v.
Proof.
  induction r as [|[a w] r IH]; [done|]. cbn. destruct (String.eqb a c) eqn:E; cbn; rewrite E; [done|apply IH].
Qed.

Lemma claim_update_fits (p : row → Prop) `{∀ r, Decision (p r)} owner now t :
  forallb (row_fits idempotency_records_schema) t = true →
  ∃ t' n, update_rows idempotency_records_schema [("owner_token"%string, owner); ("updated_at"%string, time now)] p t =
    Ok (t', n).
Proof.
  intros Hf. do 2 eexists. unfold update_rows. rewrite (proj2 (forallb_forall _ _)); [by rewrite no_raise_then|].
  intros r' (r & <- & Hin)%in_map_iff. rewrite forallb_forall in Hf. specialize (Hf r Hin). case_decide; [|done].
  revert Hf. unfold row_fits, set_columns. cbn. rewrite !andb_true_iff, !bool_decide_eq_true.
  intros ((H1 & H2 & H3 & H4 & _) & _). rewrite column_set_column_eq; [|by rewrite column_set_column].
  rewrite !column_set_column by done. done.
Qed.

Lemma settles_claim now scope key owner d :
  claim_safe now scope key owner d →
  wp (sqlite_claim guard stale now scope key owner) (λ r c, ∃ d', c = Idle d' ∧ (is_ok r = false → d' = d)) (Idle d).
Proof.
  intros [Hb Hfit]. rewrite !Forall_cons in Hb. destruct Hb as (H1 & H2 & H3 & H4 & _).
  pose proof (begin_idle guard d) as Hbegin. unfold sqlite_claim, wp.
  destruct (guard d) as [[]|err]; [|rewrite (M_bind_err _ _ _ _ _ Hbegin); by exists d].
  rewrite (M_bind_ok _ _ _ _ _ Hbegin). clear Hbegin.
  set (values := [SText scope; SText key; SText (py "in_flight"); opt_text owner; time now]).
  assert (bind_all values = Ok ()) as Hv by (apply bind_all_ok; by repeat constructor).
  assert (mcatch (execute (sql_insert idempotency_records values OrFail) ;; commit) (InTransaction d d) =
    match insert_row idempotency_records_schema (make_row (sc_columns idempotency_records_schema) values)
            (db_table d idempotency_records) with
    | Ok t => (Ok (Ok ()), Idle (set_table idempotency_records t d))
    | Err e => (Ok (Err e), InTransaction d d)
    end) as Hins.
  { unfold mcatch, execute, sql_insert, mbind, M_bind. cbn [cn_working cn_committed]. unfold lift at 1. rewrite Hv. cbn.
    unfold lift. by destruct (insert_row _ _ _). }
  destruct (insert_row _ _ _) as [t|err] eqn:Ei; rewrite (M_bind_ok _ _ _ _ _ Hins).
  { by eexists. }
  assert (err = IntegrityError) as ->.
  { revert Ei. unfold insert_row. unfold raise_if. repeat case_decide; cbn; congruence. }
  assert (Forall bindable (claim_is scope key).*2) as Hk by by repeat constructor.
  clear Hins Ei. erewrite M_bind_ok.
  2:{ unfold query. cbn [cn_working]. unfold select_one_eq, sql_select_one.
      rewrite (M_bind_ok _ _ _ _ _ (sql_select_eq idempotency_records [] (claim_is scope key).*2
        (where_eq (claim_is scope key)) d Hk)). done. }
  cbn [fst]. destruct (head _) as [r|]; [|by exists d].
  destruct (column r "status"); [by exists d|by exists d|].
  repeat (case_decide; [by exists d|]). destruct (decode_datetime _) as [t|err]; [|by exists d].
  case_decide; [by exists d|]. 
  destruct (claim_update_fits (where_eq (claim_is scope key)) (opt_text owner) now _ Hfit) as (t' & n & Hup).
  rewrite (M_bind_ok (execute _) _ _ n (InTransaction d (set_table idempotency_records t' d))); [by eexists|].
  unfold execute. cbn [cn_working cn_committed]. erewrite sql_update_eq; [done| | |exact Hup]; by repeat constructor.
Qed.

(** A claim is safe; every other call is. *)
Definition call_safe (now : datetime) (call : sqlite_call) (d : database) : Prop :=
  match call with Claim scope key owner => claim_safe now scope key owner d | _ => True end.
End calls.

#[export] Hint Resolve settles_advance : gateway.

#[export] Hint Resolve settles_mutation settles_lift settles_raise_if settles_then settles_reads reads_query reads_lift
  reads_ret reads_bind : gateway.

(** What a call does with its answer, and the calls of these shapes. *)
Lemma settle_call {A B} (m : M (connection database) A) (f : A → B) d :
  settles m → wp (a ← m; mret (f a)) (λ r c, ∃ d', c = Idle d' ∧ (is_ok r = false → d' = d)) (Idle d).
Proof. intros Hm. by apply (settles_then m f Hm d). Qed.
Lemma settle_call_unit (m : M (connection database) unit) d :
  settles m → wp m (λ r c, ∃ d', c = Idle d' ∧ (is_ok r = false → d' = d)) (Idle d).
Proof. intros Hm. apply Hm. Qed.

Ltac read :=
  repeat first [apply reads_query | apply reads_lift | apply reads_ret
    | apply reads_bind; [|intros ?] | match goal with |- reads (match ?x with _ => _ end) => destruct x end].
Ltac settle :=
  repeat first [apply settles_mutation | apply settles_advance | apply settles_lift; intros ?
    | apply settles_raise_if | apply settles_then | apply settles_reads; progress read ].

