(* ===== verification/SqliteProperties.v ===== *)
(** The SQLite store in the place of the process-local repositories: a run of calls on
    bindings and projection routes answers the same and keeps the same state, the claims
    are theirs, and every record is read back. *)

From S2P Require Export SqliteBindings SqliteRoutes SqliteClaims SqliteAtomicity.
From stdpp Require Import list.
#[local] Open Scope Z_scope.
#[local] Open Scope stdpp_scope.

(** The repositories, and the calls on them. *)
Record repositories := {
  rp_bindings : BindingRepository;
  rp_routes : ProjectionRepository;
}.
Definition new_repositories : repositories :=
  {| rp_bindings := new_binding_repository; rp_routes := new_projection_repository |}.
Definition on_bindings {A} (m : M BindingRepository A) : M repositories A :=
  zoom rp_bindings (λ b s, {| rp_bindings := b; rp_routes := rp_routes s |}) m.
Definition on_routes {A} (m : M ProjectionRepository A) : M repositories A :=
  zoom rp_routes (λ r s, {| rp_bindings := rp_bindings s; rp_routes := r |}) m.

Inductive repository_call : Type :=
| BindingGet (c : ConversationRef)
| BindingPut (b : ConversationBinding) (expected : option Z)
| BindingDelete (c : ConversationRef) (expected : option Z)
| PutProjectionRoute (r : ThreadProjectionRoute)
| ReplaceThreadProjectionRoutes (r : ThreadProjectionRoute)
| AdvanceProjectionCheckpoint (i : pystr) (expected : option pystr) (item : pystr) (t : datetime)
| DeleteProjectionRoutes (th : ThreadRef) (cv : option ConversationRef).

Inductive repository_answer : Type :=
| Found (b : option ConversationBinding)
| Stored (b : ConversationBinding)
| Done
| Route (r : ThreadProjectionRoute)
| Count (n : Z).

Definition returning {S A B} (f : A → B) (m : M S A) : M S B := a ← m; mret (f a).

(** On the repositories a route is written with its time, or the time of the call, and is
    given back as it was passed. *)
Definition memory_call (now : datetime) (call : repository_call) : M repositories repository_answer :=
  match call with
  | BindingGet c => on_bindings (returning Found (get_binding c))
  | BindingPut b e => on_bindings (returning Stored (put_binding now b e))
  | BindingDelete c e => on_bindings (returning (λ _, Done) (delete_binding c e))
  | PutProjectionRoute r =>
      on_routes (returning (λ s, Route (with_updated_at (tr_updated_at r) s)) (put_projection_route (stamp now r)))
  | ReplaceThreadProjectionRoutes r =>
      on_routes (returning (λ s, Route (with_updated_at (tr_updated_at r) s)) (replace_thread_projection_routes (stamp now r)))
  | AdvanceProjectionCheckpoint i e item t => on_routes (returning Route (advance_projection_checkpoint i e item t))
  | DeleteProjectionRoutes th cv => on_routes (returning Count (delete_projection_routes th cv))
  end.

(** What the tables can hold of the arguments of a call. *)
Definition call_storable (now : datetime) (call : repository_call) (s : repositories) : Prop :=
  match call with
  | BindingGet c => Forall bindable (conversation_is c).*2
  | BindingPut b _ => Forall bindable (binding_to_row
      (restamp b (current_generation (rp_bindings s) (cb_conversation_ref b) + 1) now))
  | BindingDelete c _ => Forall bindable (conversation_is c).*2 ∧ bindable (SInt (current_generation (rp_bindings s) c + 1))
  | PutProjectionRoute r | ReplaceThreadProjectionRoutes r => storable_route now r
  | AdvanceProjectionCheckpoint i _ item t => bindable (SText i) ∧ bindable (SText item) ∧ storable_time t
  | DeleteProjectionRoutes th cv => Forall bindable (thread_is th ++ selected_by conversation_is cv).*2
  end.

(** A run of calls, each at its time: the answers, and what is left. *)
Fixpoint run_calls {S} (f : datetime → repository_call → M S repository_answer) (calls : list (datetime * repository_call))
    (s : S) : list (res repository_answer) * S :=
  match calls with
  | [] => ([], s)
  | (now, call) :: calls' =>
      let '(answer, s1) := f now call s in
      let '(answers, s2) := run_calls f calls' s1 in
      (answer :: answers, s2)
  end.
Fixpoint calls_storable (calls : list (datetime * repository_call)) (s : repositories) : Prop :=
  match calls with
  | [] => True
  | (now, call) :: calls' =>
      storable_time now ∧ call_storable now call s ∧ calls_storable calls' (memory_call now call s).2
  end.

Record stored (s : repositories) (d : database) : Prop := {
  st_bindings : bindings_stored (rp_bindings s) d;
  st_routes : routes_stored (rp_routes s) d;
}.

Lemma stored_new : stored new_repositories new_database.
Proof.
  split; (split; [|constructor|done..]); (split; cbn; try constructor; try done; set_solver).
Qed.

Lemma bindings_stored_same s d d' : bindings_stored s d → same_tables [thread_projection_routes] d d' → bindings_stored s d'.
Proof. intros [H1 H2 H3 H4] Hs. split; [done|done|by rewrite Hs by set_solver|by rewrite Hs by set_solver]. Qed.
Lemma routes_stored_same s d d' : routes_stored s d → same_tables binding_tables d d' → routes_stored s d'.
Proof. intros [H1 H2 H3] Hs. split; [done|done|]. rewrite Hs; [done|]. unfold binding_tables. set_solver. Qed.

Section run.
Context {SO : ScanOrder} (guard : database → res unit) (Hguard : ∀ d, guard d = Ok ()).

Definition sqlite_call (now : datetime) (call : repository_call) : M (connection database) repository_answer :=
  match call with
  | BindingGet c => returning Found (sqlite_get c)
  | BindingPut b e => returning Stored (sqlite_put guard now b e)
  | BindingDelete c e => returning (λ _, Done) (sqlite_delete guard c e)
  | PutProjectionRoute r => returning Route (sqlite_put_projection_route guard now r)
  | ReplaceThreadProjectionRoutes r => returning Route (sqlite_replace_thread_projection_routes guard now r)
  | AdvanceProjectionCheckpoint i e item t => returning Route (sqlite_advance_projection_checkpoint guard i e item t)
  | DeleteProjectionRoutes th cv => returning Count (sqlite_delete_projection_routes guard th cv)
  end.

(** A call whose part of the repositories is stored. *)
Lemma returning_eq {S A B} (f : A → B) (m : M S A) s :
  returning f m s = (res_map f (m s).1, (m s).2).
Proof. unfold returning, mbind, M_bind. by destruct (m s) as [[a|e] s']. Qed.
Lemma res_map_map {A B C} (f : A → B) (g : B → C) (r : res A) : res_map g (res_map f r) = res_map (λ a, g (f a)) r.
Proof. by destruct r. Qed.

Lemma stored_call now call s d :
  stored s d → storable_time now → call_storable now call s →
  ∃ d', sqlite_call now call (Idle d) = ((memory_call now call s).1, Idle d') ∧ stored (memory_call now call s).2 d'.
Proof.
  intros [Hb Hr] Hnow Hc. destruct call; cbn [sqlite_call memory_call call_storable] in *; unfold on_bindings, on_routes, zoom;
    rewrite !returning_eq.
  - exists d. by rewrite (sqlite_get_stored c (rp_bindings s)).
  - destruct (sqlite_put_stored guard now b expected _ d Hb (Hguard d) Hnow Hc) as (d' & -> & Hb' & Hs).
    exists d'. split; [done|]. split; [done|]. by eapply routes_stored_same.
  - destruct Hc as [Hc Hg]. destruct (sqlite_delete_stored guard c expected _ d Hb (Hguard d) Hc Hg) as (d' & -> & Hb' & Hs).
    exists d'. split; [done|]. split; [done|]. by eapply routes_stored_same.
  - destruct (sqlite_put_route_stored guard now r _ d Hr (Hguard d) Hc) as (d' & -> & Hr' & Hs).
    exists d'. cbn [fst snd]. rewrite res_map_map. split; [done|]. split; [by eapply bindings_stored_same|done].
  - destruct (sqlite_replace_routes_stored guard now r _ d Hr (Hguard d) Hc) as (d' & -> & Hr' & Hs).
    exists d'. cbn [fst snd]. rewrite res_map_map. split; [done|]. split; [by eapply bindings_stored_same|done].
  - destruct Hc as (Hi & Hitem & Ht).
    destruct (sqlite_advance_stored guard i expected item t _ d Hr (Hguard d) Hi Hitem Ht) as (d' & -> & Hr' & Hs).
    exists d'. split; [done|]. split; [by eapply bindings_stored_same|done].
  - destruct (sqlite_delete_routes_stored guard th cv _ d Hr (Hguard d) Hc) as (d' & -> & Hr' & Hs).
    exists d'. split; [done|]. split; [by eapply bindings_stored_same|done].
Qed.
End run.


(** The properties of rows and claims of the SQLite store: what is written is read back, and
    the claims are those of the process-local repository. *)

(** * Rows *)

(** A record of the store, and the kinds of them. *)
Inductive stored_record : Type :=
| BindingRecord (b : ConversationBinding)
| RouteRecord (r : ThreadProjectionRoute)
| TurnRecord (c : TurnReplyCorrelation)
| RequestRecord (c : RequestRouteCorrelation)
| SubmissionRecord (r : DeliverySubmissionRecord)
| QueuedRecord (c : QueuedInputCorrelation).
Inductive record_kind : Type := BindingKind | RouteKind | TurnKind | RequestKind | SubmissionKind | QueuedKind.
Definition kind_of (x : stored_record) : record_kind :=
  match x with
  | BindingRecord _ => BindingKind | RouteRecord _ => RouteKind | TurnRecord _ => TurnKind
  | RequestRecord _ => RequestKind | SubmissionRecord _ => SubmissionKind | QueuedRecord _ => QueuedKind
  end.

(** What the store asks of a record before it writes it. *)
Definition validate_record (x : stored_record) : res unit :=
  match x with
  | BindingRecord b => validate_binding b
  | RouteRecord r => validate_projection_route r
  | TurnRecord c => validate_turn_reply_correlation c
  | RequestRecord c => validate_request_route_correlation c
  | SubmissionRecord r => validate_delivery_submission_record r
  | QueuedRecord c => validate_queued_input_correlation c
  end.

(** Its times are instants of the calendar with a timezone, and its numbers floats that
    have a text. *)
Definition record_storable {FT : FloatText} (x : stored_record) : Prop :=
  match x with
  | BindingRecord b => ∃ t, cb_updated_at b = Some t ∧ storable_time t
  | RouteRecord r => storable_opt (tr_checkpointed_at r) ∧ ∃ t, tr_updated_at r = Some t ∧ storable_time t
  | TurnRecord c => storable_time (tc_created_at c)
  | RequestRecord c =>
      storable_time (rr_created_at c) ∧ storable_time (rr_updated_at c) ∧ storable_opt (rr_expires_at c)
  | SubmissionRecord r => submission_times r ∧ submission_floats r
  | QueuedRecord c => storable_time (qc_created_at c) ∧ storable_time (qc_updated_at c)
  end.

(** The row of a record, and the rows of its destinations. *)
Definition rows_of_record {FT : FloatText} (x : stored_record) : res (row * list row) :=
  match x with
  | BindingRecord b => Ok (make_row (sc_columns conversation_bindings_schema) (binding_to_row b), [])
  | RouteRecord r =>
      Ok (make_row (sc_columns thread_projection_routes_schema) (projection_route_to_row r (tr_updated_at r)), [])
  | TurnRecord c => Ok (make_row (sc_columns turn_reply_correlations_schema) (turn_reply_correlation_to_row c), [])
  | RequestRecord c => Ok (make_row (sc_columns request_route_correlations_schema) (request_correlation_to_row c), [])
  | SubmissionRecord r =>
      Ok (make_row (sc_columns delivery_submissions_schema) (delivery_submission_to_row r),
        (λ d, make_row (sc_columns delivery_submission_destinations_schema)
                (delivery_destination_to_row (sr_submission_id r) d)) <$> sr_destinations r)
  | QueuedRecord c =>
      values ← queued_input_correlation_to_row c;
      Ok (make_row (sc_columns queued_input_correlations_schema) values, [])
  end.
Definition record_of_rows {FT : FloatText} (k : record_kind) (rows : row * list row) : res stored_record :=
  match k with
  | BindingKind => b ← binding_from_row rows.1; Ok (BindingRecord b)
  | RouteKind => r ← projection_route_from_row rows.1; Ok (RouteRecord r)
  | TurnKind => c ← turn_reply_correlation_from_row rows.1; Ok (TurnRecord c)
  | RequestKind => c ← request_correlation_from_row rows.1; Ok (RequestRecord c)
  | SubmissionKind => r ← delivery_submission_from_rows rows.1 rows.2; Ok (SubmissionRecord r)
  | QueuedKind => c ← queued_input_correlation_from_row rows.1; Ok (QueuedRecord c)
  end.


(** * Claims *)

(** C14. The claims of the SQLite store are those of the process-local repository: a call
    on a claim answers as the repository does, or raises its exception, and the table
    holds its records afterwards; except that [claim] takes over a claim in flight whose
    last change is as long ago as the threshold, and that their number has no bound. *)
Theorem sqlite_claims_follow_the_repository `{ScanOrder} guard stale now op scope key owner E d :
  claims_stored E d → guard d = Ok () → claim_bindable scope key owner → storable_time now →
  ∃ E' d', (sqlite_claim_op guard stale now op scope key owner (Idle d)).2 = Idle d' ∧
    claims_stored E' d' ∧ same_tables [idempotency_records] d d' ∧
    let answer := (sqlite_claim_op guard stale now op scope key owner (Idle d)).1 in
    let '(answer', s') := memory_claim_op op scope key owner (as_repository E) in
    if decide (taken_over stale now op (d_get E (scope, key))) then
      answer = Ok (Some ACQUIRED) ∧ forget_times E' = d_set (forget_times E) (scope, key) (InFlight, owner)
    else answer = answer' ∧ forget_times E' = ir_records s'.
Proof.
  intros Hst Hg Hb Hnow.
  destruct (sqlite_claim_op_stored guard stale now op scope key owner Hnow E d Hst Hg Hb) as (d' & -> & Hst' & Hs).
  pose proof (stamped_op_memory stale now op scope key owner E) as Hm.
  destruct (stamped_op stale now op (scope, key) owner E) as [r E'] eqn:Er.
  exists E', d'. split; [done|]. split; [done|]. split; [done|]. exact Hm.
Qed.
