(* ===== verification/SqliteExamples.v ===== *)
(** The theorems on the SQLite store applied to concrete databases, and runs in which it
    does not do what it is meant to. *)

From S2P Require Export SqliteProperties Witnesses.
From Stdlib Require Qcanon.
From stdpp Require Import list.
Import Witnesses.Component.
#[local] Open Scope Z_scope.
#[local] Open Scope stdpp_scope.

(** A scan in the order of insertion, and the texts of two floats. *)
#[local] Instance insertion_order : ScanOrder := {| scan t := t; scan_perm t := Permutation_refl t |}.

Definition half : Qcanon.Qc := Qcanon.Q2Qc (QArith_base.Qmake 1 2).
Definition two_floats_repr (q : Qcanon.Qc) : pystr := if decide (q = half) then py "0.5" else py "0.0".
Definition two_floats_of_text (s : pystr) : pyfloat :=
  if decide (s = py "0.5") then Finite half else Finite (Qcanon.Q2Qc (QArith_base.Qmake 0 1)).
Definition is_one_of_two (q : Qcanon.Qc) : Prop := q = half ∨ q = Qcanon.Q2Qc (QArith_base.Qmake 0 1).
#[local] Instance two_floats : FloatText.
Proof.
  refine {| float_repr := two_floats_repr; float_of_text := two_floats_of_text; is_float := is_one_of_two |}.
  - intros q [->| ->]; vm_compute; reflexivity.
  - intros q [->| ->]; vm_compute; reflexivity.
Defined.

Definition no_guard (_ : database) : res unit := Ok ().
Definition stale_after : pyfloat := seconds 300.

(** * Witnesses *)

Definition retryable_receipt : DeliveryReceipt := {|
  dr_status := RETRYABLE_FAILURE; dr_native_message_id := None; dr_detail := None;
  dr_items := [{| di_content_index := 0; di_status := ITEM_RETRYABLE_FAILURE; di_attachment_id := None;
                  di_native_message_id := None; di_detail := None |}];
  dr_segments := []; dr_retry_after_seconds := Some (Finite half) |}.

Definition failed_destination : DestinationDeliveryRecord := {|
  dd_delivery_id := py "d1"; dd_snapshot := dd_snapshot (destination IN_FLIGHT);
  dd_state := RETRYABLE; dd_updated_at := t0; dd_receipt := Some retryable_receipt |}.
Definition failed_submission : DeliverySubmissionRecord := submission [failed_destination].

Lemma calendar_time n : bool_decide (0 ≤ n ≤ max_datetime_us) = true → storable_time (Aware n).
Proof. intros H%bool_decide_eq_true. split; [by intros []|exact H]. Qed.
Lemma t0_storable : storable_time t0.
Proof. apply calendar_time. reflexivity. Qed.
Lemma t1_storable : storable_time t1.
Proof. apply calendar_time. reflexivity. Qed.



Definition some_calls : list (datetime * repository_call) :=
  [(t0, BindingPut a_binding (Some 0)); (t0, PutProjectionRoute checkpointed);
   (t1, AdvanceProjectionCheckpoint (py "r1") (Some (py "item")) (py "item2") t1);
   (t1, BindingDelete example_conversation (Some 0)); (t1, BindingGet example_conversation)].


Definition held : dict claim_key stamped_claim := [((py "s", py "k"), ((InFlight, Some (py "w")), t0))].
Definition with_claim : database := set_table idempotency_records (entries claim_row held) new_database.

Lemma with_claim_stored : claims_stored held with_claim.
Proof.
  split; [by repeat constructor; set_solver|constructor; [apply t0_storable|constructor]|done].
Qed.

(** After five minutes another owner takes the claim over. *)
Lemma sqlite_claims_follow_the_repository_witness :
  let now := Aware 301000000 in
  let run := sqlite_claim_op no_guard stale_after now OpClaim (py "s") (py "k") (Some (py "v")) (Idle with_claim) in
  ∃ E' d', run.2 = Idle d' ∧ claims_stored E' d' ∧ same_tables [idempotency_records] with_claim d' ∧
    run.1 = Ok (Some ACQUIRED) ∧ forget_times E' = [((py "s", py "k"), (InFlight, Some (py "v")))].
Proof.
  intros now run. destruct (sqlite_claims_follow_the_repository no_guard stale_after now OpClaim (py "s") (py "k")
    (Some (py "v")) held with_claim) as (E' & d' & H1 & H2 & H3 & H4).
  - exact with_claim_stored.
  - reflexivity.
  - apply (bool_decide_eq_true_1 _). vm_compute. reflexivity.
  - apply calendar_time. reflexivity.
  - exists E', d'. split; [exact H1|]. split; [exact H2|]. split; [exact H3|].
    destruct (memory_claim_op OpClaim (py "s") (py "k") (Some (py "v")) (as_repository held)) as [a s].
    destruct (decide (taken_over stale_after now OpClaim (d_get held (py "s", py "k")))) as [_|Hn]; [exact H4|].
    exfalso. revert Hn. apply (bool_decide_eq_true_1 (¬ ¬ _)). vm_compute. reflexivity.
Defined.

(** * Findings *)

(** [claim] only handles [IntegrityError]: when its scope cannot be encoded, the
    exception leaves the transaction it began open, and every later mutation on the
    connection, whatever it is, raises [OperationalError], for the transaction never
    ends. *)
Theorem claim_leaves_its_transaction_open `{ScanOrder} guard stale now scope key owner d :
  guard d = Ok () → bind (SText scope) = Err UnicodeEncodeError →
  sqlite_claim guard stale now scope key owner (Idle d) = (Err UnicodeEncodeError, InTransaction d d) ∧
  ∀ A (m : M database A), mutation guard m (InTransaction d d) = (Err OperationalError, InTransaction d d).
Proof.
  intros Hg He. split; [|intros; apply mutation_in_transaction].
  unfold sqlite_claim. pose proof (begin_idle guard d) as Hbegin. rewrite Hg in Hbegin.
  rewrite (M_bind_ok _ _ _ _ _ Hbegin). rewrite (M_bind_ok _ _ _ (Err UnicodeEncodeError) (InTransaction d d)); [reflexivity|].
  unfold mcatch, execute, sql_insert, mbind, M_bind, lift, bind_all. cbn [cn_working cn_committed for_each].
  by rewrite He.
Qed.

Definition lone_surrogate : pystr := [55296]%N.
Lemma claim_leaves_its_transaction_open_witness :
  sqlite_claim no_guard stale_after t0 lone_surrogate (py "k") None (Idle new_database)
    = (Err UnicodeEncodeError, InTransaction new_database new_database) ∧
  ∀ A (m : M database A),
    mutation no_guard m (InTransaction new_database new_database) = (Err OperationalError, InTransaction new_database new_database).
Proof. apply claim_leaves_its_transaction_open; vm_compute; reflexivity. Defined.

(** A correlation of another request, and a submission to another Conversation, with an
    identity that is in use. *)
Definition second_request : RequestRouteCorrelation := {|
  rr_correlation_id := py "c1"; rr_request_ref := {| rq_application_ref := app; rq_native_request_id := py "r2" |};
  rr_turn_ref := turn; rr_conversation_ref := other_conversation; rr_delivery_id := py "d2";
  rr_response_shape := ApprovalResponseShape [py "yes"]; rr_state := OPEN;
  rr_created_at := t0; rr_updated_at := t1; rr_expires_at := None |}.
Definition first_request : RequestRouteCorrelation := correlation "c1" example_conversation RESPONDED.

Definition second_submission : DeliverySubmissionRecord := {|
  sr_submission_id := py "s2"; sr_delivery_id := py "d2"; sr_origin := EXTERNAL;
  sr_principal_id := py "p"; sr_target_fingerprint := py "t"; sr_payload_fingerprint := py "f";
  sr_destinations := [destination IN_FLIGHT]; sr_created_at := t0; sr_updated_at := t0 |}.

Definition two_requests : M (connection database) RequestRouteCorrelation :=
  sqlite_put_request_correlation no_guard first_request ;;
  sqlite_put_request_correlation no_guard second_request.
Definition two_submissions : M (connection database) DeliveryReservation :=
  sqlite_reserve_delivery_submission no_guard failed_submission ;;
  sqlite_reserve_delivery_submission no_guard second_submission.

(** C37. The upserts of the SQLite store match an identity, and not what it belongs to.
    Putting a correlation whose identity is that of another request, which the
    process-local repository refuses as a conflict, succeeds: the answered request is
    open again and has the delivery of the other, which is not stored at all.  Reserving
    a submission one of whose destinations has the identity of one of another submission
    succeeds: the failed destination of that submission is in flight again, and the
    reserved submission cannot be read. *)
Theorem sqlite_upserts_cross_identities :
  ((put_request_correlation first_request ;; put_request_correlation second_request) []).1
    = Err RequestCorrelationConflict ∧
  (two_requests (Idle new_database)).1 = Ok second_request ∧
  ((two_requests ;; sqlite_list_request_correlations None None None) (Idle new_database)).1
    = Ok [{| rr_correlation_id := py "c1"; rr_request_ref := rr_request_ref first_request; rr_turn_ref := turn;
             rr_conversation_ref := rr_conversation_ref first_request; rr_delivery_id := rr_delivery_id second_request;
             rr_response_shape := rr_response_shape second_request; rr_state := OPEN; rr_created_at := t0;
             rr_updated_at := t1; rr_expires_at := None |}] ∧
  (two_submissions (Idle new_database)).1 = Ok {| rv_acquired := true; rv_record := second_submission |} ∧
  ((two_submissions ;; sqlite_get_delivery_submission (py "s1")) (Idle new_database)).1
    = Ok (Some (submission [destination IN_FLIGHT])) ∧
  ((two_submissions ;; sqlite_get_delivery_submission (py "s2")) (Idle new_database)).1
    = Err (ContractViolation "delivery submission requires at least one destination").
Proof. vm_compute. repeat split. Qed.
