(* ===== verification/ProjectionRecovery.v ===== *)
(** The bounded reading of what a route has missed, what it gives, and the backoff of its retries:
    [gateway/projection/recovery.py].

    An Application is any [execute_application] that answers in the state [W] of the
    program; the clock is read by [utc_now]. *)

From S2P Require Export Applications Identities.
From Stdlib Require Qcanon.
From stdpp Require Import pretty list.
#[local] Open Scope Z_scope.
#[local] Open Scope stdpp_scope.

(** [gateway/projection/recovery.py:55-62] ProjectedAgentMessage *)
Record ProjectedAgentMessage := {
  pm_message : AgentMessage;
  pm_turn_id : option pystr;
  pm_event_id : option pystr;
  pm_checkpoint : bool;
}.
Definition item_id (m : ProjectedAgentMessage) : pystr := am_agent_item_id (pm_message m).

(** [gateway/projection/recovery.py:65-72] AuthoritativeProjectionSlice *)
Record AuthoritativeProjectionSlice := {
  ps_messages : list ProjectedAgentMessage;
  ps_pages_read : Z;
  ps_checkpoint_found : bool;
  ps_gap : option string;
}.

(** * Reading *)

(** [gateway/projection/recovery.py:527-534] read_bounded_authoritative_projection: the
    messages of a page *)
Definition page_messages (history : ThreadHistory) : list ProjectedAgentMessage :=
  turn ← hi_turns history;
  (λ message, {| pm_message := message; pm_turn_id := Some (tn_turn_id (he_turn_ref turn));
                 pm_event_id := None; pm_checkpoint := true |}) <$> he_agent_messages turn.
(** [gateway/projection/recovery.py:566-576] read_bounded_authoritative_projection: the
    messages of the catch-up *)
Definition catchup_messages (catchup : TurnCatchup) : list ProjectedAgentMessage :=
  (λ message, {| pm_message := message; pm_turn_id := tn_turn_id <$> ct_turn_ref catchup;
                 pm_event_id := None; pm_checkpoint := true |}) <$> ct_messages catchup.

(** [gateway/projection/recovery.py:579-585] read_bounded_authoritative_projection: the
    first of the messages of every item *)
Fixpoint deduplicate (seen : list pystr) (messages : list ProjectedAgentMessage) : list ProjectedAgentMessage :=
  match messages with
  | [] => []
  | item :: rest =>
      if decide (item_id item ∈ seen) then deduplicate seen rest
      else item :: deduplicate (item_id item :: seen) rest
  end.

(** [messages[checkpoint_index + 1:]] of the first message of an item. *)
Fixpoint after_item (i : pystr) (messages : list ProjectedAgentMessage) : list ProjectedAgentMessage :=
  match messages with
  | [] => []
  | item :: rest => if decide (item_id item = i) then rest else after_item i rest
  end.

(** [l[:n]] and [l[-n:]]. *)
Definition first_items {A} (n : Z) (l : list A) : list A := take (Z.to_nat n) l.
Definition last_items {A} (n : Z) (l : list A) : list A := drop (length l - Z.to_nat n) l.

Definition gap_or (gap : option string) (other : string) : option string :=
  match gap with Some g => Some g | None => Some other end.

Section read.
Context {W : Type}.
Variable execute_application : ApplicationOperation → M W ApplicationOperationResult.
Variable utc_now : M W datetime.

(** An operation of the recovery. *)
Definition recovery_operation (application : ApplicationSummary) (scope : pystr) (suffix : string)
    (request : operation_request) : M W ApplicationOperationResult :=
  now ← utc_now;
  execute_application {| ao_operation_id := scope ++ py suffix; ao_application_ref := as_ref application;
    ao_created_at := now; ao_request := request |}.

(** [gateway/projection/recovery.py:514-549] read_bounded_authoritative_projection: the loop
    over the pages, newest first, until the checkpoint *)
Fixpoint read_pages (fuel : nat) (application : ApplicationSummary) (scope : pystr) (thread_ref : ThreadRef)
    (checkpoint : option pystr) (history_limit max_pages : Z) (gap : option string) (page : Z)
    (history_pages : list (list ProjectedAgentMessage))
    : M W (list (list ProjectedAgentMessage) * bool * option string) :=
  match fuel with
  | O => mret (history_pages, false, gap)
  | S fuel' =>
      result ← recovery_operation application scope (":thread.history:" +:+ pretty page)
        (GetThreadHistory thread_ref history_limit page);
      match result with
      | ApplicationOperationSucceeded _ _ (ThreadHistoryRead history) =>
          let messages := page_messages history in
          let history_pages := history_pages ++ [messages] in
          match checkpoint with
          | None => mret (history_pages, false, gap)
          | Some c =>
              if decide (Exists (λ m, item_id m = c) messages) then mret (history_pages, true, gap)
              else if hi_has_older history then
                if decide (page = max_pages) then mret (history_pages, false, Some "checkpoint_out_of_window"%string)
                else read_pages fuel' application scope thread_ref checkpoint history_limit max_pages gap (page + 1)
                       history_pages
              else mret (history_pages, false, Some "checkpoint_missing"%string)
          end
      | _ => mraise ProjectionRecoveryUnavailable
      end
  end.

(** [gateway/projection/recovery.py:487-600] read_bounded_authoritative_projection *)
Definition read_bounded_authoritative_projection (application : ApplicationSummary) (route : ThreadProjectionRoute)
    (baseline_history_limit recovery_history_page_size recovery_max_pages catchup_limit projection_item_limit : Z)
    (require_checkpoint : bool) : M W AuthoritativeProjectionSlice :=
  raise_if (projection_item_limit < 1) ValueError ;;
  let thread_ref := tr_thread_ref route in
  let checkpoint := tr_checkpoint_agent_item_id route in
  recovery_scope ← lift (derive_projection_route_id thread_ref
    {| cv_channel_instance_id := py "gateway"; cv_native_conversation_id := py "authoritative-recovery" |});
  let history_limit := if decide (checkpoint = None) then baseline_history_limit else recovery_history_page_size in
  let max_pages := if decide (checkpoint = None) then 1 else recovery_max_pages in
  let gap := if decide (checkpoint = None ∧ require_checkpoint = true) then Some "checkpoint_missing"%string else None in
  '(history_pages, checkpoint_found, gap) ←
    read_pages (Z.to_nat max_pages) application recovery_scope thread_ref checkpoint history_limit max_pages gap 1 [];
  result ← recovery_operation application recovery_scope ":turn.catchup" (GetTurnCatchup thread_ref catchup_limit);
  let messages := concat (rev history_pages) in
  let messages :=
    match checkpoint with
    | Some c => if (checkpoint_found : bool) then after_item c messages else messages
    | None => messages
    end in
  match result with
  | ApplicationOperationSucceeded _ _ (TurnCatchupRead catchup) =>
      let deduplicated := deduplicate [] (messages ++ catchup_messages catchup) in
      let truncated := bool_decide (projection_item_limit < len deduplicated) in
      mret {|
        ps_messages :=
          if truncated then
            if checkpoint_found then first_items projection_item_limit deduplicated
            else last_items projection_item_limit deduplicated
          else deduplicated;
        ps_pages_read := len history_pages;
        ps_checkpoint_found := checkpoint_found;
        ps_gap := if truncated then gap_or gap "projection_window_truncated" else gap |}
  | _ => mraise ProjectionRecoveryUnavailable
  end.
End read.

(** * The supervisor: limits, attempts and failures *)

(** [gateway/projection/recovery.py:124-130] _finite_non_negative_number *)
Definition _finite_non_negative_number (value : pyfloat) : Prop := isfinite value ∧ ¬ float_neg value.
#[export] Instance _finite_non_negative_number_dec value : Decision (_finite_non_negative_number value).
Proof. unfold _finite_non_negative_number. apply _. Defined.

(** [gateway/projection/recovery.py:133-141] _RecoveryLimits *)
Record _RecoveryLimits := {
  lm_baseline_history_limit : Z;
  lm_recovery_history_page_size : Z;
  lm_recovery_max_pages : Z;
  lm_catchup_limit : Z;
  lm_projection_item_limit : Z;
  lm_retry_initial_seconds : pyfloat;
  lm_retry_max_seconds : pyfloat;
}.

(** [gateway/projection/recovery.py:143-162] _RecoveryLimits.__post_init__ *)
Definition validate_recovery_limits (limits : _RecoveryLimits) : res unit :=
  for_each [lm_baseline_history_limit limits; lm_recovery_history_page_size limits; lm_recovery_max_pages limits;
            lm_catchup_limit limits; lm_projection_item_limit limits] (λ value, raise_if (value < 1) ValueError) ;;
  raise_if (¬ _finite_non_negative_number (lm_retry_initial_seconds limits)) ValueError ;;
  raise_if (¬ _finite_non_negative_number (lm_retry_max_seconds limits)) ValueError ;;
  raise_if (float_lt (lm_retry_max_seconds limits) (lm_retry_initial_seconds limits)) ValueError.

(** [gateway/projection/recovery.py:165-170] _RecoveryAttempt *)
Record _RecoveryAttempt := {
  ra_restart_count : Z;
  ra_needs_reconciliation : bool;
  ra_require_checkpoint : bool;
  ra_reconcile_requests : bool;
}.

(** [gateway/projection/recovery.py:236-246] _RecoverySupervisor.start_attempt *)
Definition start_attempt (reconcile_existing require_checkpoint : bool) : _RecoveryAttempt :=
  {| ra_restart_count := 0; ra_needs_reconciliation := reconcile_existing;
     ra_require_checkpoint := require_checkpoint; ra_reconcile_requests := false |}.

(** [gateway/projection/recovery.py:173-180] _RecoveryHealthSnapshot *)
Record _RecoveryHealthSnapshot := {
  hs_event_overflow_count : Z;
  hs_last_subscription_error : option pystr;
  hs_last_recovery_error : option pystr;
  hs_last_gap : option pystr;
  hs_last_event_gap : option pystr;
  hs_last_event_overflow : option pystr;
}.
Definition no_health : _RecoveryHealthSnapshot :=
  {| hs_event_overflow_count := 0; hs_last_subscription_error := None; hs_last_recovery_error := None;
     hs_last_gap := None; hs_last_event_gap := None; hs_last_event_overflow := None |}.

(** [gateway/projection/recovery.py:183-193] _RecoveryFailure *)
Record _RecoveryFailure := {
  rf_restart_count : Z;
  rf_retry_delay_seconds : pyfloat;
  rf_health : _RecoveryHealthSnapshot;
  rf_interactive_request_recovery_degraded : bool;
}.

(** [gateway/projection/recovery.py:603-610] _request_recovery_is_degraded *)
Definition _request_recovery_is_degraded (application : ApplicationSummary) : bool :=
  let runtime := ca_runtime (as_capabilities application) in
  bool_decide (uc_interactive_requests runtime ≠ UNSUPPORTED ∧ uc_pending_request_snapshot runtime ≠ NATIVE).

(** [gateway/projection/recovery.py:356-385] _RecoverySupervisor.record_failure: what the
    health says of the error *)
Definition health_after (error_text : exn → pystr) (error : exn) (h : _RecoveryHealthSnapshot) : _RecoveryHealthSnapshot :=
  let gap code overflow := {|
    hs_event_overflow_count := if overflow : bool then hs_event_overflow_count h + 1 else hs_event_overflow_count h;
    hs_last_subscription_error := None; hs_last_recovery_error := hs_last_recovery_error h;
    hs_last_gap := Some (py code); hs_last_event_gap := Some (py code);
    hs_last_event_overflow := if overflow then Some (py code) else hs_last_event_overflow h |} in
  match error with
  | ProjectionRecoveryUnavailable => {|
      hs_event_overflow_count := hs_event_overflow_count h; hs_last_subscription_error := None;
      hs_last_recovery_error := Some (error_text error); hs_last_gap := hs_last_gap h;
      hs_last_event_gap := hs_last_event_gap h; hs_last_event_overflow := hs_last_event_overflow h |}
  | EventStreamGap code => gap code false
  | EventBufferOverflow code => gap code true
  | _ => {|
      hs_event_overflow_count := hs_event_overflow_count h; hs_last_subscription_error := Some (error_text error);
      hs_last_recovery_error := hs_last_recovery_error h; hs_last_gap := hs_last_gap h;
      hs_last_event_gap := hs_last_event_gap h; hs_last_event_overflow := hs_last_event_overflow h |}
  end.

(** [gateway/projection/recovery.py:344-402] _RecoverySupervisor.record_failure *)
Definition record_failure (error_text : exn → pystr) (limits : _RecoveryLimits) (attempt : _RecoveryAttempt) (error : exn)
    (application : option ApplicationSummary) (current_health : option _RecoveryHealthSnapshot)
    : _RecoveryAttempt * _RecoveryFailure :=
  let restart_count := ra_restart_count attempt + 1 in
  let exponent := Z.min (restart_count - 1) 30 in
  ({| ra_restart_count := restart_count; ra_needs_reconciliation := true; ra_require_checkpoint := true;
      ra_reconcile_requests := true |},
   {| rf_restart_count := restart_count;
      rf_retry_delay_seconds :=
        float_min (float_scale (lm_retry_initial_seconds limits) (2 ^ exponent)) (lm_retry_max_seconds limits);
      rf_health := health_after error_text error (default no_health current_health);
      rf_interactive_request_recovery_degraded := 
        match application with Some a => _request_recovery_is_degraded a | None => false end |}).

(** Reading back what a route has missed: pages that overlap are read as the history
    they are windows of, so that what follows the checkpoint is complete. *)

(** * The first message of every item *)

(** Lists that have the same first messages, whatever was seen before. *)
Definition same_firsts (l l' : list ProjectedAgentMessage) : Prop :=
  ∀ seen, deduplicate seen l = deduplicate seen l'.
#[export] Instance same_firsts_equiv : Equivalence same_firsts.
Proof. split; [done|by intros l l' H seen|intros l1 l2 l3 H H' seen; by rewrite H]. Qed.

Lemma deduplicate_seen seen seen' l :
  (∀ i, i ∈ seen ↔ i ∈ seen') → deduplicate seen l = deduplicate seen' l.
Proof.
  revert seen seen'. induction l as [|m l IH]; intros seen seen' Hs; [done|]. cbn [deduplicate].
  destruct (decide (item_id m ∈ seen)), (decide (item_id m ∈ seen')); try (exfalso; naive_solver); [by apply IH|].
  f_equal. apply IH. intros i. rewrite !elem_of_cons. naive_solver.
Qed.

Lemma deduplicate_app seen l l' :
  deduplicate seen (l ++ l') = deduplicate seen l ++ deduplicate (seen ++ (item_id <$> l)) l'.
Proof.
  revert seen. induction l as [|m l IH]; intros seen; cbn [app fmap list_fmap deduplicate]; [by rewrite app_nil_r|].
  case_decide as Hm; rewrite IH; cbn [app]; f_equal; [|f_equal]; apply deduplicate_seen; set_solver.
Qed.

#[export] Instance app_same_firsts : Proper (same_firsts ==> same_firsts ==> same_firsts) (++).
Proof.
  assert (∀ l seen m, m ∈ seen ++ (item_id <$> l) ↔ m ∈ seen ++ (item_id <$> deduplicate seen l)) as Hids.
  { intros l. induction l as [|x l IH]; intros seen i; [done|]. cbn [deduplicate fmap list_fmap]. case_decide as Hx.
    - rewrite <- IH. set_solver.
    - cbn [fmap list_fmap]. specialize (IH (item_id x :: seen) i). set_solver. }
  intros l1 l1' H1 l2 l2' H2 seen. rewrite !deduplicate_app, H1, H2. f_equal. apply deduplicate_seen. intros i.
  by rewrite Hids, H1, <- Hids.
Qed.

(** A message of an item that was there before is no first one. *)
Lemma same_firsts_again (l m : list ProjectedAgentMessage) :
  (∀ x, x ∈ m → item_id x ∈ item_id <$> l) → same_firsts (l ++ m) l.
Proof.
  intros Hm seen. rewrite deduplicate_app. rewrite <- (app_nil_r (deduplicate seen l)) at 2. f_equal.
  induction m as [|x m IH]; [done|]. cbn [deduplicate]. rewrite decide_True by (specialize (Hm x); set_solver).
  apply IH. intros y Hy. apply Hm. by right.
Qed.

Lemma deduplicate_elem seen l m : m ∈ deduplicate seen l → m ∈ l ∧ item_id m ∉ seen.
Proof.
  revert seen. induction l as [|x l IH]; intros seen; cbn [deduplicate]; [set_solver|]. case_decide; [set_solver|].
  rewrite !elem_of_cons. intros [->|Hm]; [by split; [left|]|]. apply IH in Hm. set_solver.
Qed.

Lemma deduplicate_distinct seen l : NoDup (item_id <$> deduplicate seen l).
Proof.
  revert seen. induction l as [|x l IH]; intros seen; cbn [deduplicate]; [constructor|]. case_decide; [apply IH|].
  cbn. constructor; [|apply IH]. intros (y & E & [_ Hy]%deduplicate_elem)%list_elem_of_fmap. set_solver.
Qed.

(** Every item has its message. *)
Lemma deduplicate_complete seen l m : m ∈ l → item_id m ∉ seen → item_id m ∈ item_id <$> deduplicate seen l.
Proof.
  revert seen. induction l as [|x l IH]; intros seen; [set_solver|]. cbn [deduplicate].
  rewrite elem_of_cons. intros Hm Hseen. case_decide as Hx.
  - destruct Hm as [->|Hm]; [done|by apply IH].
  - cbn. destruct (decide (item_id m = item_id x)) as [E|Hne]; [rewrite E; by left|right].
    destruct Hm as [->|Hm]; [done|]. apply IH; set_solver.
Qed.

(** * Windows of a history *)

(** [history[a:b]] *)
Definition window (a b : nat) (H : list ProjectedAgentMessage) : list ProjectedAgentMessage := take (b - a) (drop a H).

Lemma window_split a b c H : (a ≤ b ≤ c)%nat → window a c H = window a b H ++ window b c H.
Proof.
  intros Hab. unfold window. replace (c - a)%nat with ((b - a) + (c - b))%nat by lia.
  rewrite <- take_take_drop, drop_drop. by replace (a + (b - a))%nat with b by lia.
Qed.
Lemma window_end a H : window a (length H) H = drop a H.
Proof. unfold window. apply take_ge. rewrite length_drop. lia. Qed.

(** Two windows that overlap or touch are one. *)
Lemma windows_join a b a' b' H :
  (a ≤ a' ≤ b)%nat → (a' ≤ b')%nat → same_firsts (window a b H ++ window a' b' H) (window a (b `max` b') H).
Proof.
  intros Ha Hb. destruct (decide (b' ≤ b)%nat) as [Hle|Hgt].
  - replace (b `max` b')%nat with b by lia. apply same_firsts_again. intros x Hx. apply list_elem_of_fmap_2.
    rewrite (window_split a a' b), (window_split a' b' b) by lia. set_solver.
  - replace (b `max` b')%nat with b' by lia. rewrite (window_split a' b b' H) by lia. rewrite app_assoc.
    rewrite (same_firsts_again (window a b H) (window a' b H)); [by rewrite <- window_split by lia|].
    intros x Hx. apply list_elem_of_fmap_2. rewrite (window_split a a' b) by lia. set_solver.
Qed.

(** Pages, the newest first: each reaches from where it starts at least to where the
    one read before starts, the first to the end of the history. *)
Inductive paged (H : list ProjectedAgentMessage) : list (list ProjectedAgentMessage) → nat → Prop :=
| paged_none : paged H [] (length H)
| paged_older pages a a' b : paged H pages a → (a' ≤ a ≤ b)%nat → (b ≤ length H)%nat →
    paged H (pages ++ [window a' b H]) a'.

Lemma paged_bound H pages a : paged H pages a → (a ≤ length H)%nat.
Proof. induction 1; lia. Qed.

(** A window that reaches to where the pages start, before them, is the rest of the
    history. *)
Lemma paged_rest H pages a s b :
  paged H pages a → (s ≤ a ≤ b)%nat → (b ≤ length H)%nat →
  same_firsts (window s b H ++ concat (rev pages)) (drop s H).
Proof.
  intros Hp. revert s b. induction Hp as [|pages a a' b' Hp IH Ha Hb']; intros s b Hs Hb.
  - cbn [rev concat]. rewrite app_nil_r. replace b with (length H) by lia. by rewrite window_end.
  - rewrite rev_unit. cbn [concat]. rewrite app_assoc, windows_join by lia. apply IH; lia.
Qed.

Lemma paged_messages H pages a : paged H pages a → same_firsts (concat (rev pages)) (drop a H).
Proof.
  intros Hp. pose proof (paged_bound _ _ _ Hp). pose proof (paged_rest H pages a a a Hp ltac:(lia) ltac:(lia)) as Hr.
  unfold window in Hr. by rewrite Nat.sub_diag in Hr.
Qed.

(** * What follows a message *)

Lemma after_item_at c p l m :
  NoDup (item_id <$> l) → l !! p = Some m → item_id m = c → after_item c l = drop (S p) l.
Proof.
  revert p. induction l as [|x l IH]; intros p Hd Hp Hm; [done|]. cbn in Hd. apply NoDup_cons in Hd as [Hx Hd].
  destruct p as [|p]; cbn in *; [injection Hp as ->; by rewrite decide_True|].
  rewrite decide_False; [by apply IH|]. intros E. apply Hx. rewrite E, <- Hm.
  apply list_elem_of_fmap_2. by eapply list_elem_of_lookup_2.
Qed.

Lemma after_item_app c l l' : c ∈ item_id <$> l → after_item c (l ++ l') = after_item c l ++ l'.
Proof.
  induction l as [|x l IH]; cbn; [set_solver|]. case_decide as Hx; [done|].
  rewrite elem_of_cons. intros [?|?]; [congruence|auto].
Qed.

Lemma window_lookup a b H p m : window a b H !! p = Some m → H !! (a + p)%nat = Some m ∧ (a + p < b)%nat.
Proof. unfold window. intros [Hl Hp]%lookup_take_Some. rewrite lookup_drop in Hl. split; [done|lia]. Qed.
Lemma window_sub a b H : (item_id <$> window a b H) `sublist_of` (item_id <$> H).
Proof.
  unfold window. apply fmap_sublist. etrans; [apply sublist_take|apply sublist_drop].
Qed.

(** The messages after the checkpoint, from the oldest page read to the newest. *)
Lemma after_checkpoint H pages a0 a b c :
  NoDup (item_id <$> H) → paged H pages a0 → (a ≤ a0 ≤ b)%nat → (b ≤ length H)%nat →
  c ∈ item_id <$> window a b H → c ∉ item_id <$> drop a0 H →
  same_firsts (after_item c (concat (rev (pages ++ [window a b H])))) (after_item c H).
Proof.
  intros Hd Hp Ha Hb Hin Hout. rewrite rev_unit. cbn [concat]. rewrite after_item_app by done.
  apply list_elem_of_fmap in Hin as (m & Hc & [p Hm]%list_elem_of_lookup). symmetry in Hc.
  destruct (window_lookup _ _ _ _ _ Hm) as [HH Hlt].
  assert (a + p < a0)%nat.
  { apply Nat.nle_gt. intros Hle. apply Hout. rewrite <- Hc. apply list_elem_of_fmap_2.
    apply (list_elem_of_lookup_2 _ (a + p - a0)). rewrite lookup_drop. by replace (a0 + (a + p - a0))%nat with (a + p)%nat by lia. }
  rewrite (after_item_at c p (window a b H) m), (after_item_at c (a + p) H m); try done;
    [|by eapply sublist_NoDup; [|apply window_sub]].
  replace (drop (S p) (window a b H)) with (window (S (a + p)) b H); [eapply paged_rest; [done|lia..]|].
  unfold window. rewrite skipn_firstn_comm, drop_drop. f_equal; [lia|f_equal; lia].
Qed.

(** * The reading *)

Section reading.
Context {W : Type}.
Context (execute_application : ApplicationOperation → M W ApplicationOperationResult) (utc_now : M W datetime).

(** An Application answers the pages of a thread from the history [H], and its catch-up
    with [C]: page [k] of [H] starts at [first k] and ends at [past k].  Pages may
    overlap, as they do when the history grows while it is read, but leave no hole. *)
Record answers_from (thread_ref : ThreadRef) (H C : list ProjectedAgentMessage) (first past : Z → nat) : Prop := {
  answers_page operation limit page w i at_ history w' :
    ao_request operation = GetThreadHistory thread_ref limit page →
    execute_application operation w = (Ok (ApplicationOperationSucceeded i at_ (ThreadHistoryRead history)), w') →
    page_messages history = window (first page) (past page) H;
  answers_catchup operation limit w i at_ catchup w' :
    ao_request operation = GetTurnCatchup thread_ref limit →
    execute_application operation w = (Ok (ApplicationOperationSucceeded i at_ (TurnCatchupRead catchup)), w') →
    catchup_messages catchup = C;
  answers_newest : (first 1%Z ≤ past 1%Z)%nat ∧ past 1 = length H;
  answers_joined page : 1 ≤ page → (first (page + 1)%Z ≤ first page ≤ past (page + 1)%Z)%nat ∧ (past (page + 1)%Z ≤ length H)%nat;
}.

Context (application : ApplicationSummary) (scope : pystr) (thread_ref : ThreadRef).
Context (H C : list ProjectedAgentMessage) (first past : Z → nat).
Hypothesis Hanswers : answers_from thread_ref H C first past.

(** What an operation of the recovery answers is what the Application does. *)
Lemma recovery_operation_answers suffix request (Q : res ApplicationOperationResult → W → Prop) w :
  (∀ operation w1 r w2, ao_request operation = request → execute_application operation w1 = (r, w2) → Q r w2) →
  (∀ e w1, Q (Err e) w1) →
  wp (recovery_operation execute_application utc_now application scope suffix request) Q w.
Proof.
  intros HQ He. unfold recovery_operation. apply wp_bind. unfold wp at 1. destruct (utc_now w) as [[now|e] w1]; [|apply He].
  eapply HQ; [|apply surjective_pairing]. done.
Qed.

(** Where the pages before a page start. *)
Definition started (page : Z) : nat := if decide (page = 1) then length H else first (page - 1).

Lemma started_next page pages :
  1 ≤ page → paged H pages (started page) →
  (first page ≤ started page ≤ past page)%nat ∧ (past page ≤ length H)%nat ∧
  paged H (pages ++ [window (first page) (past page) H]) (started (page + 1)).
Proof.
  intros Hpage Hp. assert ((first page ≤ started page ≤ past page)%nat ∧ (past page ≤ length H)%nat) as [Hs Hl].
  { unfold started. case_decide as E.
    - subst. destruct (answers_newest _ _ _ _ _ Hanswers) as [? ?]. lia.
    - assert (1 ≤ page - 1) as Hp1 by lia. pose proof (answers_joined _ _ _ _ _ Hanswers (page - 1) Hp1) as Hj.
      replace (page - 1 + 1) with page in Hj by lia. lia. }
  split_and!; [lia..|]. unfold started at 1. rewrite decide_False by lia. replace (page + 1 - 1) with page by lia.
  eapply paged_older; [exact Hp|lia..].
Qed.

(** The pages that were read are the history from where the last starts; the checkpoint is
    in the last, and in no newer one, if it was found, and is missed with a gap. *)
Definition pages_read_of (checkpoint : option pystr) (gap : option string)
    (out : list (list ProjectedAgentMessage) * bool * option string) : Prop :=
  let '(pages, found, gap') := out in
  ∃ a, paged H pages a ∧
    match checkpoint with
    | None => found = false ∧ gap' = gap
    | Some c =>
        if (found : bool) then gap' = gap ∧
          ∃ newer a0 b, pages = newer ++ [window a b H] ∧ paged H newer a0 ∧ (a ≤ a0 ≤ b)%nat ∧ (b ≤ length H)%nat ∧
            c ∈ item_id <$> window a b H ∧ c ∉ item_id <$> drop a0 H
        else gap' ≠ None
    end.

Lemma read_pages_reads fuel checkpoint limit max_pages gap page pages w :
  1 ≤ page → (Z.to_nat max_pages + 1 = fuel + Z.to_nat page)%nat → page ≤ max_pages →
  paged H pages (started page) →
  (∀ c, checkpoint = Some c → c ∉ item_id <$> drop (started page) H) →
  wp (read_pages execute_application utc_now fuel application scope thread_ref checkpoint limit max_pages gap page pages)
    (λ r _, ∀ out, r = Ok out → pages_read_of checkpoint gap out) w.
Proof.
  revert page pages w. induction fuel as [|fuel IH]; intros page pages w Hpage Hfuel Hmax Hp Hc; [lia|].
  cbn [read_pages]. apply wp_bind. apply recovery_operation_answers; [|by intros e w1 out].
  intros operation w1 [[i at_ answer|i t e at_]|e] w2 Hop Hexec; [|by intros out|by intros out].
  destruct answer; try by intros out.
  rewrite (answers_page _ _ _ _ _ Hanswers _ _ _ _ _ _ _ _ Hop Hexec).
  destruct (started_next page pages Hpage Hp) as (Hs & Hl & Hp').
  assert (first page = started (page + 1)) as Hfirst.
  { unfold started. rewrite decide_False by lia. f_equal. lia. }
  destruct checkpoint as [c|]; [|by apply wp_ret; intros out [= <-]; exists (started (page + 1))].
  apply wp_if; intros Hin.
  { apply wp_ret. intros out [= <-]. exists (started (page + 1)). split; [done|]. split; [done|].
    exists pages, (started page), (past page). rewrite <- Hfirst. split_and!; try done; try lia; [|by apply Hc].
    apply Exists_exists in Hin as (m & Hm & <-). by apply list_elem_of_fmap_2. }
  destruct (hi_has_older _); [|by apply wp_ret; intros out [= <-]; exists (started (page + 1))].
  apply wp_if; intros Hlast; [by apply wp_ret; intros out [= <-]; exists (started (page + 1))|].
  apply IH; [lia|lia|lia|done|]. intros c' [= <-] Hin'.
  rewrite <- Hfirst, <- window_end, (window_split (first page) (started page) (length H)), fmap_app, elem_of_app, window_end in Hin'
    by (pose proof (paged_bound _ _ _ Hp); lia).
  destruct Hin' as [Hin'|Hin']; [|by eapply Hc].
  apply Hin. apply list_elem_of_fmap in Hin' as (m & Hm & Hin'). apply Exists_exists. exists m. split; [|done].
  rewrite (window_split _ (started page) _) by lia. apply elem_of_app. by left.
Qed.

(** What a route misses: what follows its checkpoint, each item once. *)
Definition missed (c : pystr) : list ProjectedAgentMessage := deduplicate [] (after_item c H ++ C).

Lemma first_items_all {A} n (l : list A) : len l ≤ n → first_items n l = l.
Proof. intros. unfold first_items. apply take_ge. unfold len in *. lia. Qed.
Lemma last_items_all {A} n (l : list A) : len l ≤ n → last_items n l = l.
Proof. intros. unfold last_items, len in *. replace (length l - Z.to_nat n)%nat with O by lia. done. Qed.

(** What a slice may say, of all the messages from where it starts. *)
Definition truncates (limit : Z) (found : bool) (all : list ProjectedAgentMessage) (gap : option string)
    (slice : AuthoritativeProjectionSlice) : Prop :=
  ps_messages slice = (if found then first_items limit all else last_items limit all) ∧
  ps_checkpoint_found slice = found ∧
  (gap ≠ None → ps_gap slice ≠ None) ∧ (ps_gap slice = None → ps_messages slice = all).

Lemma truncates_bounded limit found l gap slice :
  0 ≤ limit → truncates limit found (deduplicate [] l) gap slice →
  NoDup (item_id <$> ps_messages slice) ∧ len (ps_messages slice) ≤ limit.
Proof.
  intros Hlimit (-> & _). unfold first_items, last_items, len. split.
  - eapply sublist_NoDup; [apply (deduplicate_distinct [] l)|]. apply fmap_sublist.
    destruct found; [apply sublist_take|apply sublist_drop].
  - destruct found; [rewrite length_take|rewrite length_drop]; lia.
Qed.

Lemma slice_truncates limit pages (found : bool) gap l :
  1 ≤ limit →
  let truncated := bool_decide (limit < len l) in
  truncates limit found l gap {|
    ps_messages := if truncated then if found then first_items limit l else last_items limit l else l;
    ps_pages_read := pages; ps_checkpoint_found := found;
    ps_gap := if truncated then gap_or gap "projection_window_truncated" else gap |}.
Proof.
  intros Hlimit truncated. unfold truncated, truncates. cbn. case_bool_decide.
  - split_and!; [by destruct found|done|by destruct gap|by destruct gap].
  - split_and!; [|done..]. destruct found; [rewrite first_items_all|rewrite last_items_all]; done || lia.
Qed.

End reading.


(** What is read of a route. *)
Lemma projection_is_read {W} (execute_application : ApplicationOperation → M W ApplicationOperationResult)
    (utc_now : M W datetime) application route baseline_history_limit recovery_history_page_size recovery_max_pages
    catchup_limit projection_item_limit require_checkpoint H C first past w :
  answers_from execute_application (tr_thread_ref route) H C first past → NoDup (item_id <$> H) → 1 ≤ recovery_max_pages →
  wp (read_bounded_authoritative_projection execute_application utc_now application route baseline_history_limit
        recovery_history_page_size recovery_max_pages catchup_limit projection_item_limit require_checkpoint)
    (λ r _, ∀ slice, r = Ok slice → 1 ≤ projection_item_limit ∧ ∃ a l found gap,
       truncates projection_item_limit found (deduplicate [] l) gap slice ∧
       if (found : bool) then ∃ c, tr_checkpoint_agent_item_id route = Some c ∧ same_firsts l (after_item c H ++ C)
       else same_firsts l (drop a H ++ C) ∧
         (tr_checkpoint_agent_item_id route ≠ None ∨ require_checkpoint = true → gap ≠ None)) w.
Proof.
  intros Hanswers Hdistinct Hpages. unfold read_bounded_authoritative_projection.
  apply wp_bind. apply wp_raise_if; intros Hlimit; [done|]. apply wp_bind_lift; [|done]. intros scope _.
  set (checkpoint := tr_checkpoint_agent_item_id route).
  set (max_pages := if decide (checkpoint = None) then 1 else recovery_max_pages).
  assert (1 ≤ max_pages) by (unfold max_pages; case_decide; lia).
  apply wp_bind. eapply wp_mono.
  { eapply (read_pages_reads _ _ _ _ _ H C first past Hanswers); [lia|lia|done|apply paged_none|].
    intros c _. unfold started. rewrite decide_True, drop_all by done. set_solver. }
  intros [[[pages found] gap]|e] w1 Hread; [|done]. specialize (Hread _ eq_refl) as (a & Hp & Hread).
  apply wp_bind. eapply recovery_operation_answers; [|done].
  intros operation w2 [[i at_ answer|i t e at_]|e] w3 Hop Hexec; [|by intros slice|by intros slice].
  destruct answer; try by intros slice.
  rewrite (answers_catchup _ _ _ _ _ _ Hanswers _ _ _ _ _ _ _ Hop Hexec).
  apply wp_ret. intros slice [= <-]. split; [lia|].
  exists a. eexists _, found, gap. split; [apply slice_truncates; lia|].
  destruct checkpoint as [c|]; [destruct found|].
  - destruct Hread as (_ & newer & a0 & b & -> & Hnewer & Ha & Hb & Hin & Hout). exists c. split; [done|].
    apply app_same_firsts; [|done]. by eapply after_checkpoint.
  - split; [|done]. apply app_same_firsts; [|done]. by apply paged_messages.
  - destruct Hread as [-> ->]. split; [apply app_same_firsts; [|done]; by apply paged_messages|].
    intros [?| ->]; [done|]. by rewrite decide_True.
Qed.
(** C17. A recovery that reports no gap has lost nothing: of the messages that follow the
    checkpoint in a history whose pages overlap or touch, and of the catch-up, the slice
    is the first ones, each item once and at most the limit, so that a later recovery goes
    on from its last; without a gap it is all of them.  A checkpoint that is not found, or
    that a recovery needs and the route has not, is always a gap. *)
Theorem recovery_without_gap_loses_nothing {W} (execute_application : ApplicationOperation → M W ApplicationOperationResult)
    (utc_now : M W datetime) application route baseline_history_limit recovery_history_page_size recovery_max_pages
    catchup_limit projection_item_limit require_checkpoint H C first past w slice w' :
  answers_from execute_application (tr_thread_ref route) H C first past → NoDup (item_id <$> H) → 1 ≤ recovery_max_pages →
  read_bounded_authoritative_projection execute_application utc_now application route baseline_history_limit
    recovery_history_page_size recovery_max_pages catchup_limit projection_item_limit require_checkpoint w
    = (Ok slice, w') →
  NoDup (item_id <$> ps_messages slice) ∧ len (ps_messages slice) ≤ projection_item_limit ∧
  match tr_checkpoint_agent_item_id route with
  | Some c =>
      if ps_checkpoint_found slice then
        ps_messages slice = first_items projection_item_limit (missed H C c) ∧
        (ps_gap slice = None → ps_messages slice = missed H C c)
      else
        ps_gap slice ≠ None ∧ ∃ a, ps_messages slice = last_items projection_item_limit (deduplicate [] (drop a H ++ C))
  | None =>
      ps_checkpoint_found slice = false ∧
      (require_checkpoint = true → ps_gap slice ≠ None) ∧
      ∃ a, ps_messages slice = last_items projection_item_limit (deduplicate [] (drop a H ++ C)) ∧
        (ps_gap slice = None → ps_messages slice = deduplicate [] (drop a H ++ C))
  end.
Proof.
  intros Hanswers Hdistinct Hpages Hrun.
  destruct (wp_intro _ _ _ _ _ Hrun (projection_is_read _ _ _ _ _ _ _ _ _ _ H C first past w Hanswers Hdistinct Hpages)
              _ eq_refl) as (Hlimit & a & l & found & gap & Hslice & Hl).
  assert (0 ≤ projection_item_limit) as Hl0 by lia.
  destruct (truncates_bounded _ _ _ _ _ Hl0 Hslice) as [? ?]. split_and!; [done..|].
  destruct Hslice as (Hmessages & -> & Hgap & Hall). destruct found.
  - destruct Hl as (c & -> & Hl). unfold missed. rewrite <- (Hl []). by split.
  - destruct Hl as [Hl Hneeds]. rewrite (Hl []) in *.
    destruct (tr_checkpoint_agent_item_id route) as [c|]; [|split; [done|]]; split; eauto.
Qed.
