(* ===== verification/ProjectionDelivery.v ===== *)
(** The delivery of what an Application says to the destinations of a Thread:
    [gateway/projection/observation.py] ([_ProjectionRouteCoordinator] and
    [deliver_projected_message]) and [gateway/projection/checkpoints.py].

    The objects the coordinator makes are places of a store that only grows, and who
    refers to one holds its place: a number for an [asyncio.Event] and for a lease, and
    for an [asyncio.Lock] also the kind and the route it was made for.  A coroutine is a
    program whose operations are steps on the coordinator without a pause, the wait for a
    lock or a barrier, and the calls of others. *)

From S2P Require Export ProjectionRecovery ProjectionRoutes Programs Idempotency DeliveryPlanning.
From stdpp Require Import gmap.
From stdpp Require Import list.
#[local] Open Scope Z_scope.
#[local] Open Scope stdpp_scope.

(** * One message *)

(** [gateway/projection/observation.py:66-66] _PROJECTION_METADATA_MAX_ITEMS *)
Definition _PROJECTION_METADATA_MAX_ITEMS : Z := 16.
(** [gateway/projection/observation.py:67-67] _PROJECTION_METADATA_MAX_KEY_LENGTH *)
Definition _PROJECTION_METADATA_MAX_KEY_LENGTH : Z := 64.
(** [gateway/projection/observation.py:68-68] _PROJECTION_METADATA_MAX_TEXT_LENGTH *)
Definition _PROJECTION_METADATA_MAX_TEXT_LENGTH : Z := 256.
(** [gateway/projection/observation.py:69-69] _PROJECTION_METADATA_MIN_INTEGER *)
Definition _PROJECTION_METADATA_MIN_INTEGER : Z := - 2 ^ 63.
(** [gateway/projection/observation.py:70-70] _PROJECTION_METADATA_MAX_INTEGER *)
Definition _PROJECTION_METADATA_MAX_INTEGER : Z := 2 ^ 63 - 1.

(** [gateway/projection/observation.py:152-163] immutable_projection_metadata: the scalars *)
Definition projection_scalar (value : jvalue) : Prop :=
  match value with
  | VStr s => len s ≤ _PROJECTION_METADATA_MAX_TEXT_LENGTH
  | VNull | VBool _ => True
  | VInt i => _PROJECTION_METADATA_MIN_INTEGER ≤ i ≤ _PROJECTION_METADATA_MAX_INTEGER
  | VFloat (Finite _) => True
  | _ => False
  end.
#[export] Instance projection_scalar_dec value : Decision (projection_scalar value).
Proof. destruct value as [| | |[]| | | |]; cbn; apply _. Defined.

(** [gateway/projection/observation.py:137-166] immutable_projection_metadata *)
Definition immutable_projection_metadata (metadata : Metadata) : res Metadata :=
  raise_if (_PROJECTION_METADATA_MAX_ITEMS < len metadata) ValueError ;;
  for_each metadata (λ kv,
    raise_if (kv.1 = [] ∨ _PROJECTION_METADATA_MAX_KEY_LENGTH < len kv.1) ValueError ;;
    raise_if (¬ projection_scalar kv.2) ValueError) ;;
  Ok metadata.

(** [gateway/projection/observation.py:73-82] _DestinationDecisionError, RetryableDeliveryError *)
Definition is_destination_decision_error (e : exn) : bool :=
  match e with DestinationDecisionError | RetryableDeliveryError => true | _ => false end.

(** [gateway/routing/projection_routes.py:90-101] get_projection_route *)
Definition get_projection_route (route_id : pystr) : M ProjectionRepository (option ThreadProjectionRoute) :=
  routes ← list_projection_routes None ;
  mret (head (filter (λ route, tr_route_id route = route_id) routes)).

(** * The coordinator *)

(** A lock object: for actions or for deliveries, the route it was made for, its number. *)
Abbreviation lock_ref := (bool * pystr * nat)%type.

(** [gateway/projection/observation.py:1294-1300] _ActionRouteBootstrapLease *)
Record _ActionRouteBootstrapLease := {
  al_route_id : pystr;
  al_barrier : nat;
  al_action_lock : lock_ref;
  al_completed : bool;
}.
Definition with_completed (l : _ActionRouteBootstrapLease) : _ActionRouteBootstrapLease :=
  {| al_route_id := al_route_id l; al_barrier := al_barrier l; al_action_lock := al_action_lock l; al_completed := true |}.

(** [gateway/projection/observation.py:1340-1352] _ProjectionRouteCoordinator.__init__: the objects it
    made, and what it keeps of each route *)
Record coordinator := {
  co_events : list bool;
  co_mutexes : gmap lock_ref bool;
  co_leases : list _ActionRouteBootstrapLease;
  co_bootstrap : gmap pystr nat;
  co_bootstrap_pending : gset pystr;
  co_action_bootstrap_users : gmap pystr (list nat);
  co_action_bootstrap_retained : gmap pystr nat;
  co_action_locks : gmap pystr lock_ref;
  co_action_lock_waiters : gmap pystr Z;
  co_locks : gmap pystr lock_ref;
  co_blocked_routes : gset pystr;
}.
Definition new_coordinator : coordinator := {|
  co_events := []; co_mutexes := ∅; co_leases := []; co_bootstrap := ∅; co_bootstrap_pending := ∅;
  co_action_bootstrap_users := ∅; co_action_bootstrap_retained := ∅; co_action_locks := ∅;
  co_action_lock_waiters := ∅; co_locks := ∅; co_blocked_routes := ∅ |}.

Definition on_events f (c : coordinator) : coordinator := Build_coordinator
  (f (co_events c)) (co_mutexes c) (co_leases c) (co_bootstrap c) (co_bootstrap_pending c)
  (co_action_bootstrap_users c) (co_action_bootstrap_retained c) (co_action_locks c)
  (co_action_lock_waiters c) (co_locks c) (co_blocked_routes c).
Definition on_mutexes f (c : coordinator) : coordinator := Build_coordinator
  (co_events c) (f (co_mutexes c)) (co_leases c) (co_bootstrap c) (co_bootstrap_pending c)
  (co_action_bootstrap_users c) (co_action_bootstrap_retained c) (co_action_locks c)
  (co_action_lock_waiters c) (co_locks c) (co_blocked_routes c).
Definition on_leases f (c : coordinator) : coordinator := Build_coordinator
  (co_events c) (co_mutexes c) (f (co_leases c)) (co_bootstrap c) (co_bootstrap_pending c)
  (co_action_bootstrap_users c) (co_action_bootstrap_retained c) (co_action_locks c)
  (co_action_lock_waiters c) (co_locks c) (co_blocked_routes c).
Definition on_bootstrap f (c : coordinator) : coordinator := Build_coordinator
  (co_events c) (co_mutexes c) (co_leases c) (f (co_bootstrap c)) (co_bootstrap_pending c)
  (co_action_bootstrap_users c) (co_action_bootstrap_retained c) (co_action_locks c)
  (co_action_lock_waiters c) (co_locks c) (co_blocked_routes c).
Definition on_pending f (c : coordinator) : coordinator := Build_coordinator
  (co_events c) (co_mutexes c) (co_leases c) (co_bootstrap c) (f (co_bootstrap_pending c))
  (co_action_bootstrap_users c) (co_action_bootstrap_retained c) (co_action_locks c)
  (co_action_lock_waiters c) (co_locks c) (co_blocked_routes c).
Definition on_users f (c : coordinator) : coordinator := Build_coordinator
  (co_events c) (co_mutexes c) (co_leases c) (co_bootstrap c) (co_bootstrap_pending c)
  (f (co_action_bootstrap_users c)) (co_action_bootstrap_retained c) (co_action_locks c)
  (co_action_lock_waiters c) (co_locks c) (co_blocked_routes c).
Definition on_retained f (c : coordinator) : coordinator := Build_coordinator
  (co_events c) (co_mutexes c) (co_leases c) (co_bootstrap c) (co_bootstrap_pending c)
  (co_action_bootstrap_users c) (f (co_action_bootstrap_retained c)) (co_action_locks c)
  (co_action_lock_waiters c) (co_locks c) (co_blocked_routes c).
Definition on_action_locks f (c : coordinator) : coordinator := Build_coordinator
  (co_events c) (co_mutexes c) (co_leases c) (co_bootstrap c) (co_bootstrap_pending c)
  (co_action_bootstrap_users c) (co_action_bootstrap_retained c) (f (co_action_locks c))
  (co_action_lock_waiters c) (co_locks c) (co_blocked_routes c).
Definition on_waiters f (c : coordinator) : coordinator := Build_coordinator
  (co_events c) (co_mutexes c) (co_leases c) (co_bootstrap c) (co_bootstrap_pending c)
  (co_action_bootstrap_users c) (co_action_bootstrap_retained c) (co_action_locks c)
  (f (co_action_lock_waiters c)) (co_locks c) (co_blocked_routes c).
Definition on_locks f (c : coordinator) : coordinator := Build_coordinator
  (co_events c) (co_mutexes c) (co_leases c) (co_bootstrap c) (co_bootstrap_pending c)
  (co_action_bootstrap_users c) (co_action_bootstrap_retained c) (co_action_locks c)
  (co_action_lock_waiters c) (f (co_locks c)) (co_blocked_routes c).
Definition on_blocked f (c : coordinator) : coordinator := Build_coordinator
  (co_events c) (co_mutexes c) (co_leases c) (co_bootstrap c) (co_bootstrap_pending c)
  (co_action_bootstrap_users c) (co_action_bootstrap_retained c) (co_action_locks c)
  (co_action_lock_waiters c) (co_locks c) (f (co_blocked_routes c)).

(** [event.is_set()], [lock.locked()] *)
Definition is_set (b : nat) (c : coordinator) : bool := default false (co_events c !! b).
Definition locked (l : lock_ref) (c : coordinator) : bool := default false (co_mutexes c !! l).
(** [current is None or current.is_set()] *)
Definition open_barrier (current : option nat) (c : coordinator) : bool :=
  match current with Some b => is_set b c | None => true end.

Abbreviation CM := (M coordinator).

(** [asyncio.Event()], [event.set()], [asyncio.Lock()] *)
Definition new_event : CM nat :=
  c ← get_st ; modify (on_events (λ l, l ++ [false])) ;; mret (length (co_events c)).
Definition set_event (b : nat) : CM unit := modify (on_events <[b := true]>).
Definition new_mutex (action : bool) (route_id : pystr) : CM lock_ref :=
  c ← get_st ;
  let l := (action, route_id, size (co_mutexes c)) in
  modify (on_mutexes <[l := false]>) ;; mret l.
(** [lock.release()], which raises unless it is locked. *)
Definition release_lock (l : lock_ref) : CM unit :=
  c ← get_st ;
  raise_if (locked l c = false) RuntimeError ;;
  modify (on_mutexes <[l := false]>).

(** [self._locks.setdefault(route_id, asyncio.Lock())] *)
Definition route_lock (route_id : pystr) : CM lock_ref :=
  c ← get_st ;
  match co_locks c !! route_id with
  | Some l => mret l
  | None => l ← new_mutex false route_id ; modify (on_locks <[route_id := l]>) ;; mret l
  end.
(** [self._action_locks.setdefault(route_id, asyncio.Lock())] *)
Definition action_lock_of (route_id : pystr) : CM lock_ref :=
  c ← get_st ;
  match co_action_locks c !! route_id with
  | Some l => mret l
  | None => l ← new_mutex true route_id ; modify (on_action_locks <[route_id := l]>) ;; mret l
  end.

Definition users_of (route_id : pystr) (c : coordinator) : list nat :=
  default [] (co_action_bootstrap_users c !! route_id).

(** [gateway/projection/observation.py:1482-1488] _ProjectionRouteCoordinator.validate_action_bootstrap *)
Definition validate_action_bootstrap (route_id : pystr) (lease : nat) : CM unit :=
  c ← get_st ;
  match co_leases c !! lease with
  | Some l =>
      raise_if (al_route_id l ≠ route_id) ValueError ;;
      raise_if (lease ∉ users_of route_id c) RuntimeError
  | None => mraise TypeError
  end.

(** [gateway/projection/observation.py:1490-1500] _ProjectionRouteCoordinator._cleanup_action_lock *)
Definition _cleanup_action_lock (route_id : pystr) (action_lock : lock_ref) : CM unit :=
  c ← get_st ;
  if decide (co_bootstrap c !! route_id ≠ None ∨ users_of route_id c ≠ [] ∨
             default 0 (co_action_lock_waiters c !! route_id) ≠ 0 ∨ locked action_lock c = true) then mret ()
  else if decide (co_action_locks c !! route_id = Some action_lock) then modify (on_action_locks (delete route_id))
  else mret ().

(** [gateway/projection/observation.py:1502-1514] _ProjectionRouteCoordinator._complete_bootstrap_if_unowned *)
Definition _complete_bootstrap_if_unowned (route_id : pystr) : CM unit :=
  c ← get_st ;
  match co_bootstrap c !! route_id with
  | None => mret ()
  | Some current =>
      if decide (Exists (λ lease, al_barrier <$> co_leases c !! lease = Some current) (users_of route_id c)) then mret ()
      else if decide (route_id ∈ co_bootstrap_pending c) then mret ()
      else if decide (co_action_bootstrap_retained c !! route_id = Some current) then mret ()
      else set_event current
  end.

(** [gateway/projection/observation.py:1354-1366] _ProjectionRouteCoordinator.reset: with no
    retry of a request at work *)
Definition reset : CM unit :=
  c ← get_st ;
  modify (on_events (λ events, imap (λ b set, bool_decide (b ∈ (map_to_list (co_bootstrap c)).*2) || set) events)) ;;
  modify (on_bootstrap (λ _, ∅)) ;; modify (on_pending (λ _, ∅)) ;; modify (on_users (λ _, ∅)) ;;
  modify (on_retained (λ _, ∅)) ;; modify (on_action_locks (λ _, ∅)) ;; modify (on_waiters (λ _, ∅)) ;;
  modify (on_locks (λ _, ∅)) ;; modify (on_blocked (λ _, ∅)).

(** * Operations *)

Inductive route_event : Type → Type :=
(* a step on the coordinator, with no pause *)
| Coordinate {X : Type} (m : CM X) : route_event X
(* [await lock.acquire()], [await barrier.wait()] *)
| AcquireLock (l : lock_ref) : route_event unit
| WaitBarrier (b : nat) : route_event unit
(* the repository *)
| GetProjectionRoute (route_id : pystr) : route_event (option ThreadProjectionRoute)
| GetTurnReplyCorrelation (thread_ref : ThreadRef) (turn_id : pystr) : route_event (option TurnReplyCorrelation)
| AdvanceCheckpoint (route_id : pystr) (expected_agent_item_id : option pystr) (agent_item_id : pystr)
    : route_event ThreadProjectionRoute
(* the callbacks; the delivery, with the route and the kind of what it delivers *)
| ReadProjection (route : ThreadProjectionRoute) : route_event AuthoritativeProjectionSlice
| WaitForAcceptance (thread_ref : ThreadRef) : route_event unit
| EnsureTurnCorrelation (thread_ref : ThreadRef) (turn_id : pystr) : route_event unit
| DeliverProjected (route_id : pystr) (authoritative : bool) (message : OutboundMessage) (checkpointable : bool)
    : route_event IdempotencyClaimStatus
| ValidateLifecycle : route_event unit
| RecordDeliveryFailure (route : ThreadProjectionRoute) (error : exn) : route_event unit.

Abbreviation rprog := (prog unit route_event).
Definition coordinate {X} (m : CM X) : rprog X := await (Coordinate m).

(** [async with lock: body] *)
Definition with_lock {X} (l : lock_ref) (body : rprog X) : rprog X :=
  await (AcquireLock l) ;;
  r ← try body ;
  coordinate (release_lock l) ;;
  returns r.

(** [if callback is not None: callback()] *)
Definition when (given : bool) (p : rprog unit) : rprog unit := if given then p else mret ().

(** [gateway/projection/observation.py:1375-1382] _ProjectionRouteCoordinator.begin_bootstrap:
    under the lock *)
Definition install_bootstrap (route_id : pystr) (action_lease : option nat) : CM unit :=
  when_some action_lease (validate_action_bootstrap route_id) ;;
  c ← get_st ;
  (if open_barrier (co_bootstrap c !! route_id) c then
     event ← new_event ;
     modify (on_bootstrap <[route_id := event]>) ;;
     modify (on_retained (delete route_id))
   else mret ()) ;;
  modify (on_pending (λ pending, {[route_id]} ∪ pending)).

(** [gateway/projection/observation.py:1368-1382] _ProjectionRouteCoordinator.begin_bootstrap *)
Definition begin_bootstrap (route_id : pystr) (action_lease : option nat) : rprog unit :=
  lock ← coordinate (route_lock route_id) ;
  with_lock lock (coordinate (install_bootstrap route_id action_lease)).

(** [gateway/projection/observation.py:1384-1387] _ProjectionRouteCoordinator.complete_bootstrap *)
Definition complete_bootstrap (route_id : pystr) : CM unit :=
  c ← get_st ;
  (match co_bootstrap c !! route_id with
   | Some _ => mret ()
   | None => event ← new_event ; modify (on_bootstrap <[route_id := event]>)
   end) ;;
  modify (on_pending (λ pending, pending ∖ {[route_id]})) ;;
  _complete_bootstrap_if_unowned route_id.

(** [gateway/projection/observation.py:1392-1393] _ProjectionRouteCoordinator.begin_action_bootstrap:
    before it waits *)
Definition queue_action (route_id : pystr) : CM lock_ref :=
  action_lock ← action_lock_of route_id ;
  c ← get_st ;
  modify (on_waiters <[route_id := default 0 (co_action_lock_waiters c !! route_id) + 1]>) ;;
  mret action_lock.

(** [gateway/projection/observation.py:1397-1404] _ProjectionRouteCoordinator.begin_action_bootstrap:
    after it waited *)
Definition leave_action_queue (route_id : pystr) (action_lock : lock_ref) : CM unit :=
  c ← get_st ;
  (match co_action_lock_waiters c !! route_id with
   | None => mret ()
   | Some waiters =>
       if decide (waiters = 1) then modify (on_waiters (delete route_id))
       else modify (on_waiters <[route_id := waiters - 1]>)
   end) ;;
  c ← get_st ;
  if locked action_lock c then mret () else _cleanup_action_lock route_id action_lock.

(** [gateway/projection/observation.py:1408-1416] _ProjectionRouteCoordinator.begin_action_bootstrap:
    under the lock of the route *)
Definition install_action_bootstrap (route_id : pystr) (action_lock : lock_ref) : CM nat :=
  c ← get_st ;
  current ← (if open_barrier (co_bootstrap c !! route_id) c then
       event ← new_event ;
       modify (on_bootstrap <[route_id := event]>) ;;
       modify (on_pending (λ pending, pending ∖ {[route_id]})) ;;
       modify (on_retained (delete route_id)) ;;
       mret event
     else mret (default O (co_bootstrap c !! route_id))) ;
  c ← get_st ;
  let lease := length (co_leases c) in
  modify (on_leases (λ l, l ++ [{| al_route_id := route_id; al_barrier := current;
    al_action_lock := action_lock; al_completed := false |}])) ;;
  modify (on_users <[route_id := users_of route_id c ++ [lease]]>) ;;
  mret lease.

(** [gateway/projection/observation.py:1389-1420] _ProjectionRouteCoordinator.begin_action_bootstrap *)
Definition begin_action_bootstrap (route_id : pystr) : rprog nat :=
  action_lock ← coordinate (queue_action route_id) ;
  acquired ← try (await (AcquireLock action_lock)) ;
  coordinate (leave_action_queue route_id action_lock) ;;
  returns acquired ;;
  lock ← coordinate (route_lock route_id) ;
  begun ← try (with_lock lock (coordinate (install_action_bootstrap route_id action_lock))) ;
  match begun with
  | Ok lease => mret lease
  | Err e =>
      coordinate (release_lock action_lock ;; _cleanup_action_lock route_id action_lock) ;;
      mraise e
  end.

(** [gateway/projection/observation.py:1422-1455] _ProjectionRouteCoordinator.complete_action_bootstrap *)
Definition complete_action_bootstrap (lease : nat) (reconciled : option bool) : CM unit :=
  c ← get_st ;
  match co_leases c !! lease with
  | None => mraise TypeError
  | Some l =>
      if al_completed l then mret ()
      else
        modify (on_leases <[lease := with_completed l]>) ;;
        let route_id := al_route_id l in
        if decide (lease ∉ users_of route_id c) then
          (if locked (al_action_lock l) c then release_lock (al_action_lock l) else mret ()) ;;
          _cleanup_action_lock route_id (al_action_lock l)
        else
          let users := filter (λ other, other ≠ lease) (users_of route_id c) in
          modify (on_users (if decide (users = []) then delete route_id else <[route_id := users]>)) ;;
          (if decide (co_bootstrap c !! route_id ≠ Some (al_barrier l)) then mret ()
           else
             match reconciled with
             | Some true => modify (on_retained (delete route_id))
             | Some false => modify (on_retained <[route_id := al_barrier l]>)
             | None => mret ()
             end ;;
             _complete_bootstrap_if_unowned route_id) ;;
          release_lock (al_action_lock l) ;;
          _cleanup_action_lock route_id (al_action_lock l)
  end.

(** [gateway/projection/observation.py:1465-1480] _ProjectionRouteCoordinator.abort_action_bootstrap:
    under the lock of the route *)
Definition retire_action_bootstrap (l : _ActionRouteBootstrapLease) (lock : lock_ref) : CM unit :=
  let route_id := al_route_id l in
  c ← get_st ;
  if decide (co_bootstrap c !! route_id ≠ Some (al_barrier l) ∨ users_of route_id c ≠ []) then mret ()
  else
    set_event (al_barrier l) ;;
    modify (on_bootstrap (delete route_id)) ;;
    modify (on_pending (λ pending, pending ∖ {[route_id]})) ;;
    (if decide (co_action_bootstrap_retained c !! route_id = Some (al_barrier l))
     then modify (on_retained (delete route_id)) else mret ()) ;;
    (if decide (co_locks c !! route_id = Some lock) then modify (on_locks (delete route_id)) else mret ()) ;;
    modify (on_blocked (λ blocked, blocked ∖ {[route_id]})) ;;
    _cleanup_action_lock route_id (al_action_lock l).

(** [gateway/projection/observation.py:1457-1480] _ProjectionRouteCoordinator.abort_action_bootstrap *)
Definition abort_action_bootstrap (lease : nat) : rprog unit :=
  coordinate (complete_action_bootstrap lease None) ;;
  c ← coordinate get_st ;
  match co_leases c !! lease with
  | None => mraise TypeError
  | Some l =>
      match co_locks c !! al_route_id l with
      | None => mret ()
      | Some lock => with_lock lock (coordinate (retire_action_bootstrap l lock))
      end
  end.

(** [gateway/projection/observation.py:1534-1543] _ProjectionRouteCoordinator.forget_route_ids:
    for one route, besides the retries of its requests *)
Definition forget_route_id (route_id : pystr) : CM unit :=
  c ← get_st ;
  when_some (co_bootstrap c !! route_id) set_event ;;
  modify (on_bootstrap (delete route_id)) ;;
  modify (on_pending (λ pending, pending ∖ {[route_id]})) ;;
  modify (on_retained (delete route_id)) ;;
  modify (on_locks (delete route_id)) ;;
  modify (on_blocked (λ blocked, blocked ∖ {[route_id]})) ;;
  when_some (co_action_locks c !! route_id) (_cleanup_action_lock route_id).

(** [gateway/projection/observation.py:1864-1870] _ProjectionRouteCoordinator._block_route *)
Definition _block_route (route : ThreadProjectionRoute) (error : exn) : rprog unit :=
  coordinate (modify (on_blocked (λ blocked, {[tr_route_id route]} ∪ blocked))) ;;
  await (RecordDeliveryFailure route error).

(** * Delivery *)

(** [gateway/projection/checkpoints.py:53-83] _ProjectionCheckpointAuthority.apply_delivery_outcome *)
Definition apply_delivery_outcome (route : ThreadProjectionRoute) (agent_item_id : pystr) (checkpointable : bool)
    (delivery_outcome : IdempotencyClaimStatus) (authoritative : bool) : rprog ThreadProjectionRoute :=
  if decide (delivery_outcome = CLAIM_IN_FLIGHT) then mraise RuntimeError
  else if checkpointable then
    if decide (delivery_outcome = ALREADY_COMPLETED ∧ authoritative = false) then mret route
    else if decide (tr_checkpoint_agent_item_id route = Some agent_item_id) then mret route
    else await (AdvanceCheckpoint (tr_route_id route) (tr_checkpoint_agent_item_id route) agent_item_id)
  else mret route.

(** [gateway/projection/observation.py:178-194] deliver_projected_message: the identity of
    the delivery *)
Definition projected_delivery_id (route : ThreadProjectionRoute) (projected : ProjectedAgentMessage) : res pystr :=
  let message := pm_message projected in
  if pm_checkpoint projected then
    derive_projection_delivery_id (tr_conversation_ref route) (am_thread_ref message) (am_agent_item_id message) 0
  else
    match pm_event_id projected with
    | None | Some [] => Err ValueError
    | Some event_id => derive_live_projection_delivery_id (tr_conversation_ref route) (am_thread_ref message) event_id
    end.

Section deliver.
(** Whether the callbacks were given. *)
Context (ensures : bool).

(** [gateway/projection/observation.py:195-207] deliver_projected_message: what it replies to *)
Definition projected_reply_to (validates : bool) (route : ThreadProjectionRoute) (projected : ProjectedAgentMessage)
    : rprog (option pystr) :=
  match pm_turn_id projected with
  | None => mret (tr_reply_to_message_id route)
  | Some turn_id =>
      when ensures (await (EnsureTurnCorrelation (tr_thread_ref route) turn_id)) ;;
      correlation ← await (GetTurnReplyCorrelation (tr_thread_ref route) turn_id) ;
      when validates (await ValidateLifecycle) ;;
      mret (match correlation with
        | Some c =>
            if decide (tc_conversation_ref c = tr_conversation_ref route) then Some (tc_reply_to_message_id c)
            else tr_reply_to_message_id route
        | None => tr_reply_to_message_id route
        end)
  end.

(** [gateway/projection/observation.py:169-242] deliver_projected_message *)
Definition deliver_projected_message (validates : bool) (route : ThreadProjectionRoute)
    (projected : ProjectedAgentMessage) (authoritative : bool) : rprog ThreadProjectionRoute :=
  when validates (await ValidateLifecycle) ;;
  let agent_message := pm_message projected in
  delivery_id ← returns (projected_delivery_id route projected) ;
  reply_to ← projected_reply_to validates route projected ;
  metadata ← returns (immutable_projection_metadata (am_metadata agent_message)) ;
  claim ← await (DeliverProjected (tr_route_id route) authoritative {|
    om_delivery_id := delivery_id;
    om_conversation_ref := tr_conversation_ref route;
    om_content := (λ item, match item with TextContent text _ => TextContent text MARKDOWN | _ => item end) <$>
      am_content agent_message;
    om_created_at := am_created_at agent_message;
    om_reply_to := reply_to;
    om_metadata := metadata |} (pm_checkpoint projected)) ;
  when validates (await ValidateLifecycle) ;;
  if decide (claim = CLAIM_IN_FLIGHT) then mraise DestinationDecisionError
  else
    current ← apply_delivery_outcome route (am_agent_item_id agent_message) (pm_checkpoint projected) claim authoritative ;
    when validates (await ValidateLifecycle) ;;
    mret current.

(** [gateway/projection/observation.py:1825-1862] _ProjectionRouteCoordinator._deliver_messages *)
Fixpoint _deliver_messages (validates : bool) (route : ThreadProjectionRoute) (seen : list pystr)
    (current : ThreadProjectionRoute) (messages : list ProjectedAgentMessage) (authoritative : bool) : rprog unit :=
  match messages with
  | [] => mret ()
  | projected :: messages =>
      when validates (await ValidateLifecycle) ;;
      if decide (item_id projected ∈ seen) then _deliver_messages validates route seen current messages authoritative
      else
        c ← coordinate get_st ;
        if decide (tr_route_id route ∈ co_blocked_routes c) then
          if validates then mraise DestinationDecisionError else mret ()
        else
          delivered ← try (deliver_projected_message validates current projected authoritative) ;
          match delivered with
          | Ok current =>
              _deliver_messages validates route (item_id projected :: seen) current messages authoritative
          | Err e =>
              if is_destination_decision_error e then
                _block_route current e ;;
                (if validates then mraise e else mret ())
              else mraise e
          end
  end.

(** [gateway/projection/observation.py:1586-1629] _ProjectionRouteCoordinator.deliver_authoritative *)
Definition deliver_authoritative (validates retain_barrier_on_failure : bool) (route : ThreadProjectionRoute)
    : rprog unit :=
  when validates (await ValidateLifecycle) ;;
  lock ← coordinate (route_lock (tr_route_id route)) ;
  result ← try (with_lock lock (
    current ← await (GetProjectionRoute (tr_route_id route)) ;
    when validates (await ValidateLifecycle) ;;
    match current with
    | None => mret false
    | Some current =>
        projection ← await (ReadProjection current) ;
        when validates (await ValidateLifecycle) ;;
        await (WaitForAcceptance (tr_thread_ref route)) ;;
        when validates (await ValidateLifecycle) ;;
        _deliver_messages validates current [] current (ps_messages projection) true ;;
        when validates (await ValidateLifecycle) ;;
        mret true
    end)) ;
  (if decide (result = Ok true ∨ retain_barrier_on_failure = false)
   then coordinate (complete_bootstrap (tr_route_id route)) else mret ()) ;;
  match result with Ok _ => mret () | Err e => mraise e end.

(** [gateway/projection/observation.py:1787-1792] _ProjectionRouteCoordinator._deliver_to_route:
    the barrier *)
Definition barrier_of (route_id : pystr) : CM (nat * bool) :=
  c ← get_st ;
  match co_bootstrap c !! route_id with
  | Some barrier => mret (barrier, is_set barrier c)
  | None =>
      event ← new_event ;
      set_event event ;;
      modify (on_bootstrap <[route_id := event]>) ;;
      mret (event, true)
  end.

(** [gateway/projection/observation.py:1781-1823] _ProjectionRouteCoordinator._deliver_to_route:
    at most so many rounds of [while True] *)
Fixpoint _deliver_to_route (rounds : nat) (route : ThreadProjectionRoute) (projected : ProjectedAgentMessage)
    : rprog unit :=
  match rounds with
  | O => mret ()
  | S rounds =>
      '(barrier, is_open) ← coordinate (barrier_of (tr_route_id route)) ;
      when (negb is_open) (await (WaitBarrier barrier)) ;;
      lock ← coordinate (route_lock (tr_route_id route)) ;
      again ← with_lock lock (
        c ← coordinate get_st ;
        if decide (co_bootstrap c !! tr_route_id route ≠ Some barrier ∨ is_set barrier c = false) then mret true
        else if decide (tr_route_id route ∈ co_blocked_routes c) then mret false
        else
          current ← await (GetProjectionRoute (tr_route_id route)) ;
          match current with
          | None => mret false
          | Some current =>
              delivered ← try (deliver_projected_message false current projected false) ;
              match delivered with
              | Ok _ => mret false
              | Err e => if is_destination_decision_error e then _block_route current e ;; mret false else mraise e
              end
          end) ;
      if (again : bool) then _deliver_to_route rounds route projected else mret ()
  end.
End deliver.
