(* ===== verification/ProjectionOrder.v ===== *)
(** The order of an authoritative delivery: the messages of a slice are handed out in
    order, none after one that did not complete, and the checkpoint follows. *)

From S2P Require Export ProjectionDelivery.
From stdpp Require Import list.
#[local] Open Scope Z_scope.
#[local] Open Scope stdpp_scope.

(** What has been handed out, whether the last call failed, and the checkpoint. *)
Record walk := { wk_tried : list pystr; wk_failed : bool; wk_checkpoint : option pystr }.

(** A route that was advanced. *)
Definition advanced_from (i : pystr) (conversation_ref : ConversationRef) (item : pystr) (route : ThreadProjectionRoute) : Prop :=
  tr_route_id route = i ∧ tr_conversation_ref route = conversation_ref ∧ tr_checkpoint_agent_item_id route = Some item.

Section order.
Context (i : pystr) (conversation_ref : ConversationRef).

Definition walk_rule (X : Type) (e : route_event X) (c : walk) : (res X → walk → Prop) → Prop :=
  match e with
  | DeliverProjected i' authoritative message checkpointable => λ Post,
      i' = i ∧ authoritative = true ∧ om_conversation_ref message = conversation_ref ∧ wk_failed c = false ∧
      ∀ r, Post r {| wk_tried := wk_tried c ++ [om_delivery_id message];
        wk_failed := negb (bool_decide (r = Ok ACQUIRED ∨ r = Ok ALREADY_COMPLETED)); wk_checkpoint := wk_checkpoint c |}
  | AdvanceCheckpoint i' expected item => λ Post,
      i' = i ∧ expected = wk_checkpoint c ∧ wk_failed c = false ∧
      (∀ route, advanced_from i conversation_ref item route →
         Post (Ok route) {| wk_tried := wk_tried c; wk_failed := false; wk_checkpoint := Some item |}) ∧
      ∀ x, Post (Err x) {| wk_tried := wk_tried c; wk_failed := true; wk_checkpoint := wk_checkpoint c |}
  | _ => λ Post, ∀ r, Post r c
  end.
Lemma walk_rule_mono : monotone_rule walk_rule.
Proof. intros X e c P Q. destruct e; cbn; naive_solver. Qed.
#[local] Hint Resolve walk_rule_mono : core.
Abbreviation walks := (keeps (S := unit) walk_rule).

(** What does not concern the walk. *)
Definition aside {A : Type} (p : rprog A) : Prop := ∀ c Q, (∀ r, Q r c) → walks c p Q.
Lemma aside_await {X : Type} (e : route_event X) :
  match e with AdvanceCheckpoint _ _ _ | DeliverProjected _ _ _ _ => False | _ => True end → aside (await e).
Proof. intros He c Q HQ. by destruct e. Qed.
Lemma aside_when given (p : rprog unit) : aside p → aside (when given p).
Proof. destruct given; [done|]. intros _ c Q HQ. apply HQ. Qed.
Lemma aside_returns {A : Type} (r : res A) : aside (returns r).
Proof. intros c Q HQ. apply HQ. Qed.
Lemma aside_bind {A B : Type} (p : rprog A) (f : A → rprog B) c (Q : res B → walk → Prop) :
  aside p → (∀ e, Q (Err e) c) → (∀ a, walks c (f a) Q) → walks c (p ≫= f) Q.
Proof. intros Hp He Hf. apply keeps_bind; [done|]. apply Hp. intros [a|e]; auto. Qed.
Lemma aside_seq {A B : Type} (p : rprog A) (f : A → rprog B) : aside p → (∀ a, aside (f a)) → aside (p ≫= f).
Proof. intros Hp Hf c Q HQ. apply aside_bind; [done|auto|]. intros a. by apply Hf. Qed.
Ltac aside := first [by apply aside_await | by apply aside_when, aside_await | apply aside_returns].

(** ** One message *)

Definition route_at (checkpoint : option pystr) (route : ThreadProjectionRoute) : Prop :=
  tr_route_id route = i ∧ tr_conversation_ref route = conversation_ref ∧ tr_checkpoint_agent_item_id route = checkpoint.

Lemma deliver_projected_message_walks ensures validates route projected tried checkpoint :
  route_at checkpoint route → pm_checkpoint projected = true →
  walks {| wk_tried := tried; wk_failed := false; wk_checkpoint := checkpoint |}
    (deliver_projected_message ensures validates route projected true)
    (λ r c, match r with
      | Ok route' => route_at (Some (item_id projected)) route' ∧
          ∃ d, projected_delivery_id route projected = Ok d ∧
            c = {| wk_tried := tried ++ [d]; wk_failed := false; wk_checkpoint := Some (item_id projected) |}
      | Err _ =>
          wk_tried c = tried ∧ wk_checkpoint c = checkpoint ∨
          ∃ d, projected_delivery_id route projected = Ok d ∧ wk_tried c = tried ++ [d] ∧
            (wk_checkpoint c = checkpoint ∨ wk_checkpoint c = Some (item_id projected))
      end).
Proof.
  intros (Hi & Hconv & Hcheck) Hpm. unfold deliver_projected_message.
  apply aside_bind; [aside|by left|intros _]. apply keeps_bind; [done|]. cbn [returns keeps].
  destruct (projected_delivery_id route projected) as [d|x] eqn:Hd; [|by left].
  apply aside_bind; [|by left|intros reply_to].
  { unfold projected_reply_to. destruct (pm_turn_id projected); [|intros c Q HQ; apply HQ].
    do 3 (apply aside_seq; [aside|intros ?]). intros c Q HQ. apply HQ. }
  apply keeps_bind; [done|]. cbn [returns keeps].
  destruct (immutable_projection_metadata _) as [metadata|x]; [|by left].
  apply keeps_bind; [done|]. cbn [await keeps walk_rule]. split_and!; [done..|]. intros [claim|x]; [|by right; exists d; auto].
  apply aside_bind; [aside|by right; exists d; auto|intros _]. cbn [wk_tried wk_checkpoint].
  case_decide as Hflight; [by right; exists d; auto|].
  rewrite bool_decide_true by (destruct claim; auto; done). cbn [negb].
  apply keeps_bind; [done|]. unfold apply_delivery_outcome. rewrite decide_False, Hpm, decide_False by naive_solver.
  assert (∀ route', route_at (Some (item_id projected)) route' →
    walks {| wk_tried := tried ++ [d]; wk_failed := false; wk_checkpoint := Some (item_id projected) |}
      (when validates (await ValidateLifecycle) ;; mret route')
      (λ r c, match r with
        | Ok route' => route_at (Some (item_id projected)) route' ∧ ∃ d', Ok d = Ok d' ∧
            c = {| wk_tried := tried ++ [d']; wk_failed := false; wk_checkpoint := Some (item_id projected) |}
        | Err _ => wk_tried c = tried ∧ wk_checkpoint c = checkpoint ∨ ∃ d', Ok d = Ok d' ∧ wk_tried c = tried ++ [d'] ∧
            (wk_checkpoint c = checkpoint ∨ wk_checkpoint c = Some (item_id projected))
        end)) as Hend.
  { intros route' Hroute'. apply aside_bind; [aside|by right; exists d; auto|intros _]. cbn. eauto. }
  case_decide as Hsame; cbn [keeps await walk_rule mret prog_ret].
  - assert (checkpoint = Some (item_id projected)) as -> by (unfold item_id; congruence). apply Hend. by split_and!.
  - split_and!; [done..| |].
    + intros route' (? & ? & ?). apply Hend. by split_and!.
    + intros x. by right; exists d; auto.
Qed.

(** ** All messages of a slice *)

(** The checkpoint after so many messages. *)
Definition checkpoint_after (checkpoint : option pystr) (items : list pystr) (n : nat) : option pystr :=
  match n with O => checkpoint | S n => items !! n end.

(** [n] messages were handed out, and the checkpoint is at the [j]th. *)
Definition walked (route : ThreadProjectionRoute) (messages : list ProjectedAgentMessage) (checkpoint : option pystr)
    (tried : list pystr) (c : walk) (n j : nat) : Prop :=
  (n ≤ length messages)%nat ∧ (j ≤ n ≤ S j)%nat ∧
  (∃ ids, wk_tried c = tried ++ ids ∧ Ok <$> ids = take n (projected_delivery_id route <$> messages)) ∧
  wk_checkpoint c = checkpoint_after checkpoint (item_id <$> messages) j.

Lemma walked_next route m messages checkpoint tried d c n j :
  projected_delivery_id route m = Ok d → walked route messages (Some (item_id m)) (tried ++ [d]) c n j →
  walked route (m :: messages) checkpoint tried c (S n) (S j).
Proof.
  intros Hd (Hn & Hj & (ids & Htried & Hids) & Hc). split_and!; [cbn; lia|lia|lia| |].
  - exists (d :: ids). rewrite Htried, <- app_assoc. split; [done|]. cbn. by rewrite Hd, Hids.
  - rewrite Hc. by destruct j.
Qed.
Lemma walked_same_id route route' messages checkpoint tried c n j :
  tr_conversation_ref route = tr_conversation_ref route' →
  walked route messages checkpoint tried c n j → walked route' messages checkpoint tried c n j.
Proof.
  intros Hconv (? & ? & (ids & Htried & Hids) & ?). split_and!; [lia|lia|lia| |done]. exists ids. split; [done|]. rewrite Hids.
  f_equal. apply list_fmap_ext. intros k m _. unfold projected_delivery_id. by rewrite Hconv.
Qed.

Lemma deliver_messages_walks ensures validates route seen current messages tried checkpoint :
  route_at checkpoint current → Forall (λ m, pm_checkpoint m = true) messages →
  walks {| wk_tried := tried; wk_failed := false; wk_checkpoint := checkpoint |}
    (_deliver_messages ensures validates route seen current messages true)
    (λ r c, ∃ n j, walked current (deduplicate seen messages) checkpoint tried c n j ∧
       (validates = true → r = Ok () → n = length (deduplicate seen messages) ∧ j = n)).
Proof.
  intros Hcurrent Hall. revert seen current tried checkpoint Hcurrent.
  induction Hall as [|m messages Hm Hall IH]; intros seen current tried checkpoint Hcurrent; cbn [_deliver_messages deduplicate].
  { exists 0%nat, 0%nat. split; [|done]. split_and!; [cbn; lia|lia|lia| |done]. exists []. by rewrite app_nil_r. }
  assert (∀ (r : res unit) c l, wk_tried c = tried → wk_checkpoint c = checkpoint → (validates = true → r ≠ Ok ()) →
    ∃ n j, walked current l checkpoint tried c n j ∧ (validates = true → r = Ok () → n = length l ∧ j = n)) as Hstop.
  { intros r c l Htried Hc Hr. exists 0%nat, 0%nat. split; [|intros Hv Hok; by destruct (Hr Hv)].
    split_and!; [lia|lia|lia| |done]. exists []. by rewrite app_nil_r. }
  apply aside_bind; [aside|by intros; apply Hstop|intros _]. case_decide as Hseen; [by apply IH|].
  apply aside_bind; [aside|by intros; apply Hstop|intros c]. case_decide as Hblocked; [destruct validates; by apply Hstop|].
  apply keeps_bind; [done|]. apply keeps_try; [done|].
  eapply keeps_mono; [done|by apply deliver_projected_message_walks|]. intros [route'|e] c'.
  - intros (Hroute' & d & Hd & ->). eapply keeps_mono; [done|by apply IH|]. intros r c2 (n & j & Hwalk & Hdone).
    exists (S n), (S j). split.
    + eapply walked_next; [exact Hd|]. eapply walked_same_id; [|exact Hwalk]. unfold route_at in *. intuition congruence.
    + intros Hv Hr. destruct (Hdone Hv Hr) as [-> ->]. done.
  - intros Hfail. assert (∀ (r : res unit) c2, c2 = c' → (validates = true → r ≠ Ok ()) →
      ∃ n j, walked current (m :: deduplicate (item_id m :: seen) messages) checkpoint tried c2 n j ∧
        (validates = true → r = Ok () → n = length (m :: deduplicate (item_id m :: seen) messages) ∧ j = n)) as Hend.
    { intros r c2 -> Hr. destruct Hfail as [[Htried Hc]|(d & Hd & Htried & Hc)]; [by apply Hstop|].
      destruct Hc as [Hc|Hc]; [exists 1%nat, 0%nat|exists 1%nat, 1%nat]; (split; [|intros Hv Hok; by destruct (Hr Hv)]);
        (split_and!; [cbn; lia|lia|lia|exists [d]; cbn; rewrite Hd; by rewrite take_0|exact Hc]). }
    destruct (is_destination_decision_error e); [|by apply Hend].
    apply aside_bind; [by apply aside_seq; [aside|intros; aside]|by intros; apply Hend|intros _].
    destruct validates; by apply Hend.
Qed.
End order.

(** * What is left after an interruption *)

Lemma deduplicate_id seen l :
  NoDup (item_id <$> l) → (∀ i, i ∈ item_id <$> l → i ∉ seen) → deduplicate seen l = l.
Proof.
  revert seen. induction l as [|m l IH]; intros seen Hd Hseen; [done|]. cbn in *. apply NoDup_cons in Hd as [Hm Hd].
  rewrite decide_False by (apply Hseen; by left). f_equal. apply IH; [done|]. intros i Hi.
  rewrite not_elem_of_cons. split; [by intros ->|]. apply Hseen. by right.
Qed.

Lemma after_item_sublist c l : after_item c l `sublist_of` l.
Proof.
  induction l as [|m l IH]; cbn; [done|]. case_decide; [by apply sublist_cons|by apply sublist_cons].
Qed.

(** What follows the item at a place of what follows an item. *)
Lemma after_item_again c x j H m :
  NoDup (item_id <$> H) → after_item c H !! j = Some m → item_id m = x → after_item x H = drop (S j) (after_item c H).
Proof.
  induction H as [|y H IH]; intros Hd Hj Hx; [done|]. cbn in *. apply NoDup_cons in Hd as [Hy Hd].
  assert (item_id m ∈ item_id <$> H) as Hm.
  { apply list_elem_of_fmap_2. case_decide; [by eapply list_elem_of_lookup_2|].
    eapply elem_of_sublist; [by eapply list_elem_of_lookup_2|apply after_item_sublist]. }
  rewrite (decide_False (P := item_id y = x)) by (intros E; apply Hy; congruence).
  case_decide; [|by apply IH]. by eapply after_item_at.
Qed.

Lemma missed_split H C c :
  NoDup (item_id <$> H) → missed H C c = after_item c H ++ deduplicate (item_id <$> after_item c H) C.
Proof.
  intros Hd. unfold missed. rewrite deduplicate_app, deduplicate_id; [done| |set_solver].
  eapply sublist_NoDup; [exact Hd|]. apply fmap_sublist, after_item_sublist.
Qed.

Lemma missed_rest H C c x j m :
  NoDup (item_id <$> H) → (item_id <$> missed H C c) !! j = Some x → m ∈ drop (S j) (missed H C c) →
  item_id m ∈ item_id <$> missed H C x.
Proof.
  intros Hd Hj Hm. assert (∀ m, m ∈ after_item x H ++ C → item_id m ∈ item_id <$> missed H C x) as Hall.
  { intros m' Hm'. apply deduplicate_complete; [done|set_solver]. }
  rewrite missed_split, list_lookup_fmap in Hj by done. rewrite missed_split in Hm by done. apply Hall, elem_of_app.
  destruct (decide (j < length (after_item c H))%nat) as [Hlt|Hge].
  - rewrite lookup_app_l in Hj by done. destruct (after_item c H !! j) as [y|] eqn:Hy; [|done]. injection Hj as Hx.
    rewrite drop_app, (after_item_again c x j H y) in * by done. apply elem_of_app in Hm as [?|Hm]; [by left|right].
    apply (λ Hm, elem_of_sublist _ _ _ Hm (sublist_drop _ _)) in Hm. by apply deduplicate_elem in Hm as [? _].
  - right. rewrite drop_app, drop_ge in Hm by lia. apply elem_of_app in Hm as [Hm|Hm]; [set_solver|].
    apply (λ Hm, elem_of_sublist _ _ _ Hm (sublist_drop _ _)) in Hm. by apply deduplicate_elem in Hm as [? _].
Qed.

(** C20. An interrupted recovery is resumed.  The messages a route misses are handed to its
    destination in order, under their identities, the next only after the one before was
    complete and the checkpoint moved to it, by an advance from the checkpoint before; so
    wherever the delivery stops, because a destination fails, the lifecycle changes or the
    task is cancelled, the checkpoint is at the last message handed out or the one before,
    and every message of the rest is among those that are missed from there.  When an
    action is told that it succeeded, all were delivered. *)
Theorem interrupted_recovery_is_resumed ensures validates route H C c limit :
  NoDup (item_id <$> H) → tr_checkpoint_agent_item_id route = Some c →
  Forall (λ m, pm_checkpoint m = true) (missed H C c) →
  let messages := first_items limit (missed H C c) in
  keeps (walk_rule (tr_route_id route) (tr_conversation_ref route))
    {| wk_tried := []; wk_failed := false; wk_checkpoint := Some c |}
    (_deliver_messages ensures validates route [] route messages true)
    (λ r w, ∃ n j, walked route messages (Some c) [] w n j ∧
       (validates = true → r = Ok () → n = length messages ∧ j = n) ∧
       ∀ x m, wk_checkpoint w = Some x → m ∈ drop j (missed H C c) → item_id m ∈ item_id <$> missed H C x).
Proof.
  intros Hd Hroute Hall messages. assert (NoDup (item_id <$> missed H C c)) as Hdistinct by apply deduplicate_distinct.
  assert (deduplicate [] messages = messages) as Hid.
  { apply deduplicate_id; [|set_solver]. eapply sublist_NoDup; [exact Hdistinct|]. apply fmap_sublist, sublist_take. }
  eapply keeps_mono; [apply walk_rule_mono|apply deliver_messages_walks|].
  - by split_and!.
  - by apply Forall_take.
  - rewrite Hid. intros r w (n & j & Hwalk & Hdone). exists n, j. split_and!; [done..|].
    intros x m Hx Hm. destruct Hwalk as (_ & _ & _ & Hcheck). rewrite Hcheck in Hx. destruct j as [|j]; cbn in Hx.
    + injection Hx as ->. by apply list_elem_of_fmap_2.
    + eapply missed_rest; [done| |exact Hm]. unfold messages, first_items in Hx.
      rewrite list_lookup_fmap in *. destruct (_ !! j) as [y|] eqn:Hy; [|done]. apply lookup_take_Some in Hy as [-> _]. done.
Qed.
