(* ===== verification/ProjectionLoop.v ===== *)
(** The coordinator at work on an event loop: its world, its coroutines in any order and
    cancelled anywhere, and why live output never crosses a closed barrier. *)

From S2P Require Export ProjectionDelivery.
From stdpp Require Import gmap.
From stdpp Require Import list.
#[local] Open Scope Z_scope.
#[local] Open Scope stdpp_scope.

(** * The world *)

(** A delivery that was asked for: whether it was live output at an open barrier, and what
    came of it. *)
Record attempt := {
  at_route_id : pystr;
  at_authoritative : bool;
  at_barrier_open : bool;
  at_delivery_id : pystr;
  at_outcome : res IdempotencyClaimStatus;
}.

Record route_world := {
  rw_coordinator : coordinator;
  rw_projections : ProjectionRepository;
  rw_attempts : list attempt;
}.
Definition on_coordinator c (w : route_world) : route_world :=
  {| rw_coordinator := c; rw_projections := rw_projections w; rw_attempts := rw_attempts w |}.
Definition on_projections p (w : route_world) : route_world :=
  {| rw_coordinator := rw_coordinator w; rw_projections := p; rw_attempts := rw_attempts w |}.
Definition on_attempts a (w : route_world) : route_world :=
  {| rw_coordinator := rw_coordinator w; rw_projections := rw_projections w; rw_attempts := a |}.

(** The barrier of a route is open: there is one, it is set, and no baseline is awaited. *)
Definition route_open (r : pystr) (c : coordinator) : Prop :=
  ∃ b, co_bootstrap c !! r = Some b ∧ is_set b c = true ∧ r ∉ co_bootstrap_pending c.
#[export] Instance route_open_dec r c : Decision (route_open r c).
Proof.
  refine (match co_bootstrap c !! r as o return co_bootstrap c !! r = o → _ with
    | Some b => λ E, cast_if (decide (is_set b c = true ∧ r ∉ co_bootstrap_pending c))
    | None => λ E, right _ end eq_refl); abstract (unfold route_open; naive_solver).
Defined.

(** A call of the repository: it answers as the process-local one, or raises and has done
    nothing. *)
Definition repository_call {X} (m : M ProjectionRepository X) (w : route_world) (r : res X) (w' : route_world) : Prop :=
  r = (m (rw_projections w)).1 ∧ w' = on_projections (m (rw_projections w)).2 w ∨ ∃ e, r = Err e ∧ w' = w.

Definition route_perform (X : Type) (e : route_event X) : route_world → res X → route_world → Prop :=
  match e with
  | Coordinate m => λ w r w', r = (m (rw_coordinator w)).1 ∧ w' = on_coordinator (m (rw_coordinator w)).2 w
  | AcquireLock l => λ w r w', co_mutexes (rw_coordinator w) !! l = Some false ∧ r = Ok () ∧
      w' = on_coordinator (on_mutexes <[l := true]> (rw_coordinator w)) w
  | WaitBarrier b => λ w r w', is_set b (rw_coordinator w) = true ∧ r = Ok () ∧ w' = w
  | GetProjectionRoute i => repository_call (get_projection_route i)
  | GetTurnReplyCorrelation t i => repository_call (get_turn_reply_correlation t i)
  | AdvanceCheckpoint i expected item => λ w r w',
      ∃ now, repository_call (advance_projection_checkpoint i expected item now) w r w'
  | DeliverProjected i authoritative message checkpointable => λ w r w',
      w' = on_attempts (rw_attempts w ++ [{|
        at_route_id := i; at_authoritative := authoritative;
        at_barrier_open := bool_decide (route_open i (rw_coordinator w));
        at_delivery_id := om_delivery_id message; at_outcome := r |}]) w
  (* the messages of a Thread are its own *)
  | ReadProjection route => λ w r w', w' = w ∧ ∀ slice, r = Ok slice →
      Forall (λ m, am_thread_ref (pm_message m) = tr_thread_ref route) (ps_messages slice)
  | WaitForAcceptance _ | EnsureTurnCorrelation _ _ | ValidateLifecycle
  | RecordDeliveryFailure _ _ => λ w r w', w' = w
  end.

Definition route_immediate (X : Type) (e : route_event X) : bool :=
  match e with Coordinate _ | ValidateLifecycle | RecordDeliveryFailure _ _ => true | _ => false end.

(** The Thread and the Conversation a route ID stands for, [derive_projection_route_id]. *)
Abbreviation naming := (pystr → ThreadRef * ConversationRef).
Definition route_named (named : naming) (route : ThreadProjectionRoute) : Prop :=
  named (tr_route_id route) = (tr_thread_ref route, tr_conversation_ref route).

(** Others refresh, replace and delete routes; none but the coordinator moves a checkpoint. *)
Definition route_others (named : naming) (w w' : route_world) : Prop :=
  ∃ p, w' = on_projections p w ∧ ∀ route', route' ∈ d_values (pj_routes p) → route_named named route' ∧
    (tr_checkpoint_agent_item_id route' = None ∨
     ∃ route, route ∈ d_values (pj_routes (rw_projections w)) ∧ tr_route_id route' = tr_route_id route ∧
       tr_checkpoint_agent_item_id route' = tr_checkpoint_agent_item_id route).

(** The coroutines; those that retire a route on demand. *)
Inductive route_entry (named : naming) (retires : bool) : rprog unit → Prop :=
| enters_begin route_id lease : route_entry named retires (begin_bootstrap route_id lease)
| enters_complete route_id : route_entry named retires (coordinate (complete_bootstrap route_id))
| enters_begin_action route_id : route_entry named retires (begin_action_bootstrap route_id ;; mret ())
| enters_complete_action lease reconciled : route_entry named retires (coordinate (complete_action_bootstrap lease reconciled))
| enters_authoritative ensures validates retain route :
    route_entry named retires (deliver_authoritative ensures validates retain route)
| enters_live ensures rounds route projected :
    am_thread_ref (pm_message projected) = (named (tr_route_id route)).1 →
    route_entry named retires (_deliver_to_route ensures rounds route projected)
| enters_abort lease : retires = true → route_entry named retires (abort_action_bootstrap lease)
| enters_forget route_id : retires = true → route_entry named retires (coordinate (forget_route_id route_id))
| enters_reset : retires = true → route_entry named retires (coordinate reset).

Definition route_step (named : naming) (retires : bool) : relation (loop (S := unit) (W := route_world) (E := route_event)) :=
  loop_step route_perform route_immediate (route_others named) (route_entry named retires) (λ _, False).
Definition new_route_world (p : ProjectionRepository) : route_world :=
  {| rw_coordinator := new_coordinator; rw_projections := p; rw_attempts := [] |}.
Definition route_runs (named : naming) (retires : bool) (p : ProjectionRepository)
    (q : loop (S := unit) (W := route_world) (E := route_event)) : Prop :=
  rtc (route_step named retires) {| lp_memory := (); lp_world := new_route_world p; lp_tasks := [] |} q.

(** * The barriers *)

(** What holds of the coordinator when no route is retired. *)
Record coordinator_inv (c : coordinator) : Prop := {
  ci_barrier r b : co_bootstrap c !! r = Some b → (b < length (co_events c))%nat;
  ci_distinct r r' b : co_bootstrap c !! r = Some b → co_bootstrap c !! r' = Some b → r = r';
  ci_pending r : r ∈ co_bootstrap_pending c → ∃ b, co_bootstrap c !! r = Some b ∧ is_set b c = false;
  ci_lock r n : is_Some (co_mutexes c !! (false, r, n)) → co_locks c !! r = Some (false, r, n);
  ci_kind r l : co_locks c !! r = Some l → ∃ n, l = (false, r, n);
  ci_action r l : co_action_locks c !! r = Some l → l.1.1 = true;
  ci_lease i l : co_leases c !! i = Some l → (al_action_lock l).1.1 = true;
}.

(** The lock of a route is held. *)
Definition lock_held (r : pystr) (c : coordinator) : Prop :=
  ∃ l, co_locks c !! r = Some l ∧ co_mutexes c !! l = Some true.

(** What a task may have: the lock of a route, and that it saw its barrier open. *)
Abbreviation route_tokens := (gmap pystr bool).
Definition token_holds (c : coordinator) (r : pystr) (seen_open : bool) : Prop :=
  lock_held r c ∧ (seen_open = true → route_open r c).
Definition barriers_ok (w : route_world) (m : route_tokens) : Prop :=
  coordinator_inv (rw_coordinator w) ∧
  (∀ r v, m !! r = Some v → token_holds (rw_coordinator w) r v) ∧
  ∀ a, a ∈ rw_attempts w → at_authoritative a = false → at_barrier_open a = true.

(** A step on the coordinator keeps what holds of it and what tasks have, besides of one route. *)
Definition evolves (x : option pystr) (c c' : coordinator) : Prop :=
  coordinator_inv c → coordinator_inv c' ∧ ∀ r v, x ≠ Some r → token_holds c r v → token_holds c' r v.
#[export] Instance evolves_preorder x : PreOrder (evolves x).
Proof.
  split; [by intros c|]. intros c1 c2 c3 H12 H23 Hc. destruct (H12 Hc) as [H2 Ht2], (H23 H2) as [H3 Ht3]. auto.
Qed.

Section steps.
Context (x : option pystr) (c : coordinator).

Lemma evolves_users f : evolves x c (on_users f c).
Proof. intros []. by split. Qed.
Lemma evolves_retained f : evolves x c (on_retained f c).
Proof. intros []. by split. Qed.
Lemma evolves_waiters f : evolves x c (on_waiters f c).
Proof. intros []. by split. Qed.
Lemma evolves_blocked f : evolves x c (on_blocked f c).
Proof. intros []. by split. Qed.

Lemma evolves_action_locks r l : l.1.1 = true → evolves x c (on_action_locks <[r:=l]> c).
Proof.
  intros Hl []. split; [|done]. split; try done. intros r' l' Hr. cbn in Hr.
  apply lookup_insert_Some in Hr as [[_ <-]|[_ ?]]; eauto.
Qed.
Lemma evolves_drop_action_lock r : evolves x c (on_action_locks (delete r) c).
Proof. intros []. split; [|done]. split; try done. intros r' l' Hr. cbn in Hr. apply lookup_delete_Some in Hr as [_ Hr]. eauto. Qed.

Lemma evolves_lease l : (al_action_lock l).1.1 = true → evolves x c (on_leases (λ ls, ls ++ [l]) c).
Proof.
  intros Hl []. split; [|done]. split; try done. intros i l'. cbn.
  intros [?|[_ [_ <-]%list_lookup_singleton_Some]]%lookup_app_Some; eauto.
Qed.
Lemma evolves_completed i l : co_leases c !! i = Some l → evolves x c (on_leases <[i:=with_completed l]> c).
Proof.
  intros Hi []. split; [|done]. split; try done. intros i' l'. cbn.
  intros [(_ & <- & _)|[_ ?]]%list_lookup_insert_Some; cbn; eauto.
Qed.

(** Locks of actions are not those of deliveries. *)
Lemma evolves_action_mutex l v : l.1.1 = true → evolves x c (on_mutexes <[l:=v]> c).
Proof.
  intros Hl [? ? ? Hlock Hkind ? ?]. split.
  - split; try done. intros r n. cbn. rewrite lookup_insert_ne by (intros ->; done). apply Hlock.
  - intros r w _ [(l' & Hr & Hl') Hopen]. split; [|done]. exists l'. split; [done|]. cbn.
    destruct (Hkind _ _ Hr) as [n ->]. by rewrite lookup_insert_ne by (intros ->; done).
Qed.

Lemma evolves_release r n : locked (false, r, n) c = true → evolves (Some r) c (on_mutexes <[(false, r, n):=false]> c).
Proof.
  unfold locked. destruct (co_mutexes c !! _) as [v|] eqn:Hv; [intros _|done]. intros [? ? ? Hlock Hkind ? ?]. split.
  - split; try done. intros r' n'. cbn. rewrite lookup_insert_is_Some. intros [[= <- <-]|[_ Hr]]; apply Hlock; eauto.
  - intros r' w Hne [(l' & Hr & Hl') Hopen]. split; [|done]. exists l'. split; [done|]. cbn.
    destruct (Hkind _ _ Hr) as [n' ->]. by rewrite lookup_insert_ne by congruence.
Qed.

(** The lock of a route that has none is a new one. *)
Lemma evolves_new_lock r n :
  co_locks c !! r = None → evolves x c (on_locks <[r:=(false, r, n)]> (on_mutexes <[(false, r, n):=false]> c)).
Proof.
  intros Hr [? ? ? Hlock Hkind ? ?]. split.
  - split; try done.
    + intros r' n'. cbn. rewrite lookup_insert_is_Some. intros [[= <- <-]|[Hne Hr']]; [by rewrite lookup_insert_eq|].
      apply Hlock in Hr'. rewrite lookup_insert_ne; [done|]. intros ->. congruence.
    + intros r' l. cbn. intros [[<- <-]|[_ ?]]%lookup_insert_Some; eauto.
  - intros r' v _ [(l' & Hr' & Hl') Hopen]. split; [|done]. exists l'. cbn. assert (r ≠ r') by (intros ->; congruence).
    rewrite lookup_insert_ne by done. split; [done|].
    destruct (Hkind _ _ Hr') as [n' ->]. by rewrite lookup_insert_ne by congruence.
Qed.

(** A new barrier is not set, and no route has it. *)
Lemma evolves_new_event v : evolves x c (on_events (λ l, l ++ [v]) c).
Proof.
  assert (∀ b, (b < length (co_events c))%nat → is_set b (on_events (λ l, l ++ [v]) c) = is_set b c) as Hset.
  { intros b Hb. unfold is_set. cbn. by rewrite lookup_app_l. }
  intros [Hbar Hd Hpend ? ? ? ?]. split.
  - split; try done; cbn.
    + intros r b Hr. rewrite length_app. specialize (Hbar r b Hr). lia.
    + intros r Hr. destruct (Hpend r Hr) as (b & Hb & Hns). exists b. rewrite Hset; eauto.
  - intros r w _ [Hheld Hopen]. split; [done|]. intros Hw. destruct (Hopen Hw) as (b & Hb & Hs & Hp).
    exists b. split; [done|]. rewrite Hset; eauto.
Qed.

(** A barrier is opened. *)
Lemma evolves_set_event b :
  (∀ r, co_bootstrap c !! r = Some b → r ∉ co_bootstrap_pending c) → evolves x c (on_events <[b:=true]> c).
Proof.
  intros Hb. assert (∀ b', is_set b' (on_events <[b:=true]> c) = is_set b' c ∨ b' = b) as Hset.
  { intros b'. unfold is_set. cbn. destruct (decide (b' = b)); [by right|left]. by rewrite list_lookup_insert_ne. }
  intros [Hbar Hd Hpend ? ? ? ?]. split.
  - split; try done; cbn.
    + intros r b' Hr. rewrite length_insert. eauto.
    + intros r Hr. destruct (Hpend r Hr) as (b' & Hb' & Hns). exists b'. split; [done|].
      destruct (Hset b') as [-> | ->]; [done|]. by apply Hb in Hb'.
  - intros r w _ [Hheld Hopen]. split; [done|]. intros Hw. destruct (Hopen Hw) as (b' & Hb' & Hs & Hp).
    exists b'. split_and!; [done| |done]. destruct (Hset b') as [-> | ->]; [done|].
    unfold is_set. cbn. rewrite list_lookup_insert_eq by eauto. done.
Qed.

(** A route is given a new barrier: it had none, or it is the one that may change. *)
Lemma evolves_bootstrap r b :
  (b < length (co_events c))%nat → (∀ r', co_bootstrap c !! r' ≠ Some b) →
  (r ∈ co_bootstrap_pending c → is_set b c = false) → x = Some r ∨ co_bootstrap c !! r = None →
  evolves x c (on_bootstrap <[r:=b]> c).
Proof.
  intros Hlen Hfresh Hclosed Hr [Hbar Hd Hpend ? ? ? ?]. split.
  - split; try done; cbn.
    + intros r' b' [[<- <-]|[_ ?]]%lookup_insert_Some; eauto.
    + intros r1 r2 b' [[<- <-]|[_ H1]]%lookup_insert_Some [[<- H2]|[_ H2]]%lookup_insert_Some; try done;
        [by apply Hfresh in H2|by subst; apply Hfresh in H1|eauto].
    + intros r' Hr'. destruct (decide (r' = r)) as [->|Hne]; [exists b; rewrite lookup_insert_eq; eauto|].
      rewrite lookup_insert_ne by done. eauto.
  - intros r' w Hne [Hheld Hopen]. split; [done|]. intros Hw. destruct (Hopen Hw) as (b' & Hb' & Hs & Hp).
    exists b'. cbn. rewrite lookup_insert_ne; [done|]. intros ->. destruct Hr; [by subst|congruence].
Qed.

Lemma evolves_pending r b :
  co_bootstrap c !! r = Some b → is_set b c = false → evolves x c (on_pending (λ p, {[r]} ∪ p) c).
Proof.
  intros Hb Hset [? ? Hpend ? ? ? ?]. split.
  - split; try done. cbn. intros r'. rewrite elem_of_union, elem_of_singleton. intros [->|Hr']; eauto.
  - intros r' w _ [Hheld Hopen]. split; [done|]. intros Hw. destruct (Hopen Hw) as (b' & Hb' & Hs & Hp).
    exists b'. split_and!; [done..|]. cbn. intros [->%elem_of_singleton|?]%elem_of_union; [|done].
    congruence.
Qed.
Lemma evolves_not_pending r : evolves x c (on_pending (λ p, p ∖ {[r]}) c).
Proof.
  intros [? ? Hpend ? ? ? ?]. split.
  - split; try done. cbn. intros r' [? _]%elem_of_difference. eauto.
  - intros r' w _ [Hheld Hopen]. split; [done|]. intros Hw. destruct (Hopen Hw) as (b' & Hb' & Hs & Hp).
    exists b'. split_and!; [done..|]. cbn. set_solver.
Qed.
End steps.

(** ** The operations *)

Definition gentle {A} (x : option pystr) (m : CM A) : Prop := ∀ c, wp m (λ _ c', evolves x c c') c.

Lemma gentle_ret {A} x (a : A) : gentle x (mret a).
Proof. intros c. by apply wp_ret. Qed.
Lemma gentle_bind {A B} x (m : CM A) (k : A → CM B) : gentle x m → (∀ a, gentle x (k a)) → gentle x (m ≫= k).
Proof.
  intros Hm Hk c. apply wp_bind. eapply wp_mono; [apply Hm|]. intros [a|e] c1 H1; [|done].
  eapply wp_mono; [apply Hk|]. intros r c2 H2. by etrans.
Qed.
Lemma gentle_get {A} x (k : coordinator → CM A) :
  (∀ c, wp (k c) (λ _ c', evolves x c c') c) → gentle x (c ← get_st; k c).
Proof. intros Hk c. apply wp_bind, wp_get, Hk. Qed.
Lemma gentle_modify x f : (∀ c, evolves x c (f c)) → gentle x (modify f).
Proof. intros Hf c. by apply wp_modify. Qed.

Lemma wp_with_inv {A} x c (m : CM A) :
  (coordinator_inv c → wp m (λ _ c', evolves x c c') c) → wp m (λ _ c', evolves x c c') c.
Proof. unfold wp, evolves. auto. Qed.

Lemma release_route_lock r n : gentle (Some r) (release_lock (false, r, n)).
Proof. apply gentle_get. intros c. wp_run; [done|]. apply evolves_release. by destruct (locked _ c). Qed.
Lemma release_action_lock x l : l.1.1 = true → gentle x (release_lock l).
Proof. intros Hl. apply gentle_get. intros c. wp_run; [done|]. by apply evolves_action_mutex. Qed.
Lemma cleanup_gentle x r l : gentle x (_cleanup_action_lock r l).
Proof. apply gentle_get. intros c. wp_run; try done. apply evolves_drop_action_lock. Qed.

Lemma complete_if_unowned_gentle x r : gentle x (_complete_bootstrap_if_unowned r).
Proof.
  apply gentle_get. intros c. wp_run; try done. intros Hc. apply evolves_set_event; [|done].
  intros r' Hr'. by replace r' with r by by eapply ci_distinct.
Qed.

Lemma route_lock_is r c : wp (route_lock r) (λ res c', evolves None c c' ∧
  (coordinator_inv c → ∃ n, res = Ok (false, r, n))) c.
Proof.
  unfold route_lock, new_mutex. wp_run.
  - split; [done|]. intros Hc. eapply ci_kind in Hc as [n ->]; eauto.
  - split; [by apply evolves_new_lock|eauto].
Qed.
Lemma action_lock_is r c : wp (action_lock_of r) (λ res c', evolves None c c' ∧
  (coordinator_inv c → ∃ l, res = Ok l ∧ l.1.1 = true)) c.
Proof.
  unfold action_lock_of, new_mutex. wp_run.
  - split; [done|]. intros Hc. eexists. split; [done|]. by eapply ci_action.
  - split; [|eauto]. etrans; [by apply (evolves_action_mutex None _ (true, r, size (co_mutexes c)) false)|by apply evolves_action_locks].
Qed.

Lemma complete_bootstrap_gentle x r : gentle x (complete_bootstrap r).
Proof.
  apply gentle_get. intros c. apply wp_bind. eapply (wp_mono _ (λ _ c1, evolves x c c1)).
  - unfold new_event. wp_run; [done|]. intros Hc.
    refine (transitivity (evolves_new_event x c false) _ Hc). apply evolves_bootstrap; cbn.
    + rewrite length_app. cbn. lia.
    + intros r' Hr'. eapply ci_barrier in Hr'; [lia|done].
    + intros _. unfold is_set. cbn. rewrite lookup_app_r, Nat.sub_diag by lia. done.
    + by right.
  - intros [[]|e] c1 H1; [|done]. eapply wp_mono.
    + apply (gentle_bind x); [apply gentle_modify; intros; apply evolves_not_pending|intros; apply complete_if_unowned_gentle].
    + intros res c2 H2. by etrans.
Qed.

(** A new barrier that is closed. *)
Lemma evolves_close r c :
  r ∉ co_bootstrap_pending c →
  evolves (Some r) c (on_bootstrap <[r:=length (co_events c)]> (on_events (λ l, l ++ [false]) c)).
Proof.
  intros Hr Hc. refine (transitivity (evolves_new_event _ c false) _ Hc). apply evolves_bootstrap; cbn.
  - rewrite length_app. cbn. lia.
  - intros r' Hr'. eapply ci_barrier in Hr'; [lia|done].
  - done.
  - by left.
Qed.
Lemma open_not_pending r c : coordinator_inv c → open_barrier (co_bootstrap c !! r) c = true → r ∉ co_bootstrap_pending c.
Proof. intros Hc Ho Hp. destruct (ci_pending _ Hc r Hp) as (b & Hb & Hs). rewrite Hb in Ho. cbn in Ho. congruence. Qed.

Lemma validate_gentle x r lease : gentle x (validate_action_bootstrap r lease).
Proof. apply gentle_get. intros c. wp_run; done. Qed.

Lemma install_bootstrap_gentle r lease : gentle (Some r) (install_bootstrap r lease).
Proof.
  apply gentle_bind; [destruct lease; [apply validate_gentle|apply gentle_ret]|intros []]. apply gentle_get. intros c.
  unfold new_event. wp_run; intros Hc.
  - refine (transitivity (transitivity (evolves_close r c _) (evolves_retained _ _ (delete r))) _ Hc).
    { by apply open_not_pending. }
    apply (evolves_pending _ _ _ (length (co_events c))); cbn; [by rewrite lookup_insert_eq|].
    unfold is_set. cbn. by rewrite lookup_app_r, Nat.sub_diag by lia.
  - unfold open_barrier in *. destruct (co_bootstrap c !! r) as [b|] eqn:Hb; [|done]. by apply (evolves_pending _ _ _ b).
Qed.

Lemma queue_action_is r c : wp (queue_action r) (λ res c', evolves None c c' ∧
  (coordinator_inv c → ∃ l, res = Ok l ∧ l.1.1 = true)) c.
Proof.
  unfold queue_action. apply wp_bind. eapply wp_mono; [apply action_lock_is|]. intros [l|e] c1 [H1 Hl].
  - wp_run. split; [|done]. etrans; [exact H1|apply evolves_waiters].
  - split; [done|]. intros Hc. by destruct (Hl Hc) as (? & ? & ?).
Qed.
Lemma leave_action_queue_gentle x r l : gentle x (leave_action_queue r l).
Proof.
  apply gentle_get. intros c. apply (gentle_bind x).
  - intros c'. wp_run; try done; apply evolves_waiters.
  - intros _. apply gentle_get. intros c'. wp_run; [done|]. apply cleanup_gentle.
Qed.

Lemma install_action_bootstrap_gentle r l : l.1.1 = true → gentle (Some r) (install_action_bootstrap r l).
Proof.
  intros Hl. apply gentle_get. intros c. unfold new_event. wp_run.
  - intros Hc. assert (r ∉ co_bootstrap_pending c) as Hr by by apply open_not_pending.
    refine (transitivity (evolves_close r c Hr) _ Hc).
    etrans; [apply (evolves_not_pending _ _ r)|]. etrans; [apply (evolves_retained _ _ (delete r))|].
    etrans; [|apply evolves_users]. by apply evolves_lease.
  - etrans; [|apply evolves_users]. by apply evolves_lease.
Qed.

Lemma complete_action_bootstrap_gentle x lease reconciled : gentle x (complete_action_bootstrap lease reconciled).
Proof.
  apply gentle_get. intros c. destruct (co_leases c !! lease) as [l|] eqn:Hlease; [|by apply wp_raise].
  destruct (al_completed l); [by apply wp_ret|].
  apply wp_with_inv. intros Hc. assert ((al_action_lock l).1.1 = true) as Hkind by by eapply ci_lease.
  apply wp_bind, wp_modify. cbn zeta. eapply (wp_mono _ (λ _ c', evolves x _ c')).
  - case_decide.
    + apply (gentle_bind x); [|intros; apply cleanup_gentle].
      destruct (locked _ _); [by apply release_action_lock|apply gentle_ret].
    + apply (gentle_bind x); [apply gentle_modify; intros; apply evolves_users|intros _].
      apply (gentle_bind x); [|intros _; apply (gentle_bind x); [by apply release_action_lock|intros _; apply cleanup_gentle]].
      case_decide; [apply gentle_ret|]. apply (gentle_bind x); [|intros _; apply complete_if_unowned_gentle].
      destruct reconciled as [[]|]; [apply gentle_modify; intros; apply evolves_retained..|apply gentle_ret].
  - intros res c' H1. etrans; [by eapply evolves_completed|exact H1].
Qed.

Lemma barrier_of_gentle x r : gentle x (barrier_of r).
Proof.
  apply gentle_get. intros c. unfold new_event, set_event. wp_run; [done|]. intros Hc.
  refine (transitivity (evolves_new_event _ c false) (transitivity (evolves_set_event _ _ (length (co_events c)) _) _) Hc).
  - cbn. intros r' Hr'. eapply ci_barrier in Hr'; [lia|done].
  - apply evolves_bootstrap; cbn.
    + rewrite length_insert, length_app. cbn. lia.
    + intros r' Hr'. eapply ci_barrier in Hr'; [lia|done].
    + intros Hr. destruct (ci_pending _ Hc r Hr) as (b & Hb & _). congruence.
    + by right.
Qed.

(** ** The discipline *)

Abbreviation route_follows own p Q :=
  (follows route_perform route_immediate (λ _ : unit, ∅) (λ _, True) barriers_ok own p Q).
Abbreviation route_performs own e Q := (performs route_perform route_immediate barriers_ok own e Q).

Lemma barriers_ok_evolves x w c' own rest :
  barriers_ok w (own ∪ rest) → own ##ₘ rest → evolves x (rw_coordinator w) c' → (∀ r, x = Some r → is_Some (own !! r)) →
  ∀ own', (∀ r v, own' !! r = Some v → token_holds c' r v) → own' ##ₘ rest → barriers_ok (on_coordinator c' w) (own' ∪ rest).
Proof.
  intros (Hc & Htok & Hatt) Hd Hev Hx own' Hown' Hd'. destruct (Hev Hc) as [Hc' Hkeep]. split_and!; [done| |done].
  intros r v. rewrite lookup_union_Some by done. intros [Hr|Hr]; [by apply Hown'|]. apply Hkeep; [|apply Htok].
  - intros Hxr. destruct (Hx r Hxr) as [v' Hv']. rewrite map_disjoint_spec in Hd. by eapply Hd.
  - apply lookup_union_Some; [done|]. by right.
Qed.

(** A step that leaves the tokens of all as they are. *)
Lemma performs_gentle {X : Type} (own : route_tokens) (m : CM X) Q :
  (∀ c, coordinator_inv c → wp m (λ res c', evolves None c c' ∧ Q own res) c) → route_performs own (Coordinate m) Q.
Proof.
  intros Hm w r w' rest Hd Hw [[-> ->]|[? _]]; [|done]. pose proof Hw as (Hc & Htok & _).
  destruct (Hm _ Hc) as [Hev HQ]. exists own. split_and!; [done| |done].
  eapply barriers_ok_evolves; [done..|naive_solver| |done]. intros r v Hr.
  apply (proj2 (Hev Hc)); [done|]. apply Htok, lookup_union_Some; auto.
Qed.
(** A step of a task on the route whose lock it has. *)
Lemma performs_own {X : Type} (i : pystr) (v : bool) (m : CM X) (Q : route_tokens → res X → Prop) :
  (∀ c, coordinator_inv c → lock_held i c →
     wp m (λ res c', evolves (Some i) c c' ∧ ∃ own', (∀ r v, own' !! r = Some v → token_holds c' r v) ∧
       ((∃ v', own' = {[i := v']}) ∨ own' = ∅) ∧ Q own' res) c) →
  route_performs {[i := v]} (Coordinate m) Q.
Proof.
  intros Hm w r w' rest Hd Hw [[-> ->]|[? _]]; [|done]. pose proof Hw as (Hc & Htok & _).
  destruct (Hm _ Hc) as [Hev (own' & Hown' & Hcases & HQ)].
  { apply (Htok i v), lookup_union_Some; [done|]. left. by rewrite lookup_singleton_eq. }
  assert (own' ##ₘ rest) as Hd'.
  { destruct Hcases as [[v' ->] | ->]; [|apply map_disjoint_empty_l]. rewrite map_disjoint_singleton_l in *. done. }
  exists own'. split_and!; [done| |done]. eapply barriers_ok_evolves; [done..| |done|done].
  intros r [= ->]. by rewrite lookup_singleton_eq.
Qed.

(** Any other operation than the wait for a lock leaves the coordinator as it is. *)
Definition asks {X} (e : route_event X) : Prop :=
  match e with Coordinate _ | AcquireLock _ | DeliverProjected _ _ _ _ => False | _ => True end.
Lemma performs_asks {X : Type} (own : route_tokens) (e : route_event X) (Q : route_tokens → res X → Prop) :
  asks e → (∀ w r w', route_perform X e w r w' → Q own r) → Q own (Err CancelledError) → route_performs own e Q.
Proof.
  intros He HQ Hcancel w r w' rest Hd (Hc & Htok & Hatt) Ho. exists own. split; [done|].
  assert (∀ r, route_perform X e w r w' → barriers_ok w' (own ∪ rest)) as Hw.
  { intros r'. unfold barriers_ok. destruct e; cbn; unfold repository_call; try done;
      first [by intros (now & [[_ ->]|(x & _ & ->)])|naive_solver]. }
  destruct Ho as [Ho|(_ & -> & [-> | [r0 Ho]])].
  - split; [by eapply Hw|]. by eapply HQ.
  - done.
  - split; [by eapply Hw|done].
Qed.

(** Live output is delivered by who saw the barrier open. *)
Lemma performs_deliver (own : route_tokens) (i : pystr) (authoritative : bool) (message : OutboundMessage)
    (checkpointable : bool) (Q : route_tokens → res IdempotencyClaimStatus → Prop) :
  (authoritative = false → own !! i = Some true) → (∀ r, Q own r) →
  route_performs own (DeliverProjected i authoritative message checkpointable) Q.
Proof.
  intros Hlive HQ w r w' rest Hd Hw Ho. exists own. split; [done|]. split; [|done].
  assert (∀ r, barriers_ok (on_attempts (rw_attempts w ++ [{|
        at_route_id := i; at_authoritative := authoritative;
        at_barrier_open := bool_decide (route_open i (rw_coordinator w));
        at_delivery_id := om_delivery_id message; at_outcome := r |}]) w) (own ∪ rest)) as Hall.
  { intros r'. destruct Hw as (Hc & Htok & Hatt). split_and!; [done..|]. cbn. intros a.
    rewrite elem_of_app, list_elem_of_singleton. intros [Ha| ->] Hauth; [by apply Hatt|]. cbn in *.
    apply bool_decide_eq_true. apply (Htok i true); [|done]. apply lookup_union_Some; [done|]. left. by apply Hlive. }
  destruct Ho as [-> | (_ & -> & [-> | [r0 ->]])]; [apply Hall|done|apply Hall].
Qed.

(** The wait for the lock of a route, and for one of actions. *)
Lemma performs_acquire (i : pystr) (n : nat) (Q : route_tokens → res unit → Prop) :
  Q {[i := false]} (Ok ()) → Q ∅ (Err CancelledError) → route_performs ∅ (AcquireLock (false, i, n)) Q.
Proof.
  intros HQ Hcancel w r w' rest _ Hw Ho. pose proof Hw as (Hc & Htok & Hatt). rewrite (left_id_L ∅ (∪)) in Htok.
  assert (∀ r0 w0, route_perform unit (AcquireLock (false, i, n)) w r0 w0 →
    r0 = Ok () ∧ rest !! i = None ∧ barriers_ok w0 rest ∧ token_holds (rw_coordinator w0) i false) as Hgot.
  { intros r0 w0 (Hfree & -> & ->). split; [done|].
    assert (co_locks (rw_coordinator w) !! i = Some (false, i, n)) as Hlock by (eapply ci_lock; eauto).
    assert (evolves None (rw_coordinator w) (on_mutexes <[(false, i, n):=true]> (rw_coordinator w))) as Hev.
    { intros [? ? ? Hl Hk ? ?]. split.
      - split; try done. intros r' n'. cbn. rewrite lookup_insert_is_Some. intros [[= <- <-]|[_ ?]]; auto.
      - intros r' v _ [(l' & Hr & Hl') Hopen]. split; [|done]. exists l'. split; [done|]. cbn.
        destruct (decide (l' = (false, i, n))) as [->|]; [by rewrite lookup_insert_eq|by rewrite lookup_insert_ne]. }
    split_and!.
    - destruct (rest !! i) as [v|] eqn:Hi; [|done]. destruct (Htok i v Hi) as [(l & Hl & Hheld) _]. congruence.
    - destruct (Hev Hc) as [? Hkeep]. split_and!; [done| |done]. eauto.
    - split; [|done]. exists (false, i, n). split; [done|]. cbn. by rewrite lookup_insert_eq. }
  destruct Ho as [Ho|(_ & -> & [-> | [r0 Ho]])].
  - destruct (Hgot _ _ Ho) as (-> & Hi & (Hc' & Htok' & Hatt') & Hown). exists {[i := false]}.
    assert (({[i := false]} : route_tokens) ##ₘ rest) by by apply map_disjoint_singleton_l.
    split_and!; [done|..|done]. split_and!; [done| |done]. intros r' v'. rewrite lookup_union_Some by done.
    intros [[<- <-]%lookup_singleton_Some|?]; [done|by apply Htok'].
  - exists ∅. rewrite (left_id_L ∅ (∪)) in *. split_and!; [apply map_disjoint_empty_l|done..].
  - destruct (Hgot _ _ Ho) as (_ & _ & Hok & _). exists ∅. rewrite (left_id_L ∅ (∪)).
    split_and!; [apply map_disjoint_empty_l|done..].
Qed.
Lemma performs_acquire_action (own : route_tokens) (l : lock_ref) (Q : route_tokens → res unit → Prop) :
  l.1.1 = true → (∀ r, Q own r) → route_performs own (AcquireLock l) Q.
Proof.
  intros Hl HQ w r w' rest Hd Hw Ho. exists own. split; [done|]. split; [|done].
  assert (∀ r0 w0, route_perform unit (AcquireLock l) w r0 w0 → barriers_ok w0 (own ∪ rest)) as Hgot.
  { intros r0 w0 (_ & _ & ->). destruct Hw as (Hc & Htok & Hatt).
    destruct (evolves_action_mutex None _ l true Hl Hc) as [? Hkeep]. split_and!; [done| |done]. eauto. }
  destruct Ho as [Ho|(_ & _ & [-> | [r0 Ho]])]; eauto.
Qed.
