(* ===== verification/ProjectionTheorems.v ===== *)
(** The routes of a Thread: live output waits for the baseline of its route, in any run in
    which no route is retired. *)

From S2P Require Export ProjectionLoop.
From stdpp Require Import gmap.
From stdpp Require Import list.
#[local] Open Scope Z_scope.
#[local] Open Scope stdpp_scope.

(** A program that gives back the tokens it was started with. *)
Definition neutral {A : Type} (own : route_tokens) (p : rprog A) : Prop := route_follows own p (λ own' _, own' = own).

Lemma neutral_done {A : Type} (own : route_tokens) (r : res A) : neutral own (Done r).
Proof. done. Qed.
Lemma neutral_bind {A B : Type} (own : route_tokens) (p : rprog A) (f : A → rprog B) :
  neutral own p → (∀ a, neutral own (f a)) → neutral own (p ≫= f).
Proof.
  intros Hp Hf. apply follows_bind. eapply follows_mono; [exact Hp|]. intros own' [a|e]; intros ->; [apply Hf|done].
Qed.
Lemma neutral_try {A : Type} (own : route_tokens) (p : rprog A) : neutral own p → neutral own (try p).
Proof. intros Hp. by apply follows_try. Qed.
Lemma neutral_ask {X : Type} (own : route_tokens) (e : route_event X) : asks e → neutral own (await e).
Proof. intros He. by apply performs_asks. Qed.
Lemma neutral_gentle {X : Type} (own : route_tokens) (m : CM X) : gentle None m → neutral own (coordinate m).
Proof.
  intros Hm. apply performs_gentle. intros c _. eapply wp_mono; [apply Hm|]. intros r c' Hev. by split.
Qed.
Lemma neutral_when (own : route_tokens) given (p : rprog unit) : neutral own p → neutral own (when given p).
Proof. by destruct given. Qed.
Lemma gentle_get_st : gentle None get_st.
Proof. intros c. by apply wp_get. Qed.
Create HintDb routes.
#[export] Hint Resolve neutral_done neutral_bind neutral_try neutral_ask neutral_gentle neutral_when gentle_get_st
  complete_bootstrap_gentle complete_action_bootstrap_gentle cleanup_gentle barrier_of_gentle leave_action_queue_gentle : routes.

Ltac neutral := repeat first
  [ apply neutral_bind; [|intros ?] | apply neutral_try | apply neutral_when | apply neutral_done
  | apply neutral_ask; exact I | apply neutral_gentle; eauto with routes | case_match ].

Lemma block_route_neutral own route e : neutral own (_block_route route e).
Proof.
  apply neutral_bind; [apply neutral_gentle, gentle_modify; intros; apply evolves_blocked|intros _].
  by apply neutral_ask.
Qed.

Lemma deliver_projected_message_neutral own ensures validates route projected authoritative :
  (authoritative = false → own !! tr_route_id route = Some true) →
  neutral own (deliver_projected_message ensures validates route projected authoritative).
Proof.
  intros Hlive. unfold deliver_projected_message, projected_reply_to, apply_delivery_outcome, returns.
  unfold mret, prog_ret, mraise, prog_raise. neutral. by apply performs_deliver.
Qed.

Lemma deliver_messages_neutral own ensures validates route seen current messages :
  neutral own (_deliver_messages ensures validates route seen current messages true).
Proof.
  revert seen current. induction messages as [|m messages IH]; intros seen current; cbn [_deliver_messages]; [done|].
  apply neutral_bind; [by apply neutral_when, neutral_ask|intros _]. case_decide; [apply IH|].
  apply neutral_bind; [by apply neutral_gentle, gentle_get_st|intros c]. case_decide; [by destruct validates|].
  apply neutral_bind; [by apply neutral_try, deliver_projected_message_neutral|intros [r|e]]; [apply IH|].
  destruct (is_destination_decision_error e); [|done].
  apply neutral_bind; [apply block_route_neutral|intros _]. by destruct validates.
Qed.

(** * Under the lock of a route *)

(** A part that is started with the lock, and ends with it. *)
Definition under_lock {A : Type} (i : pystr) (p : rprog A) : Prop :=
  route_follows {[i := false]} p (λ own' _, ∃ v, own' = {[i := v]}).

Lemma neutral_under_lock {A : Type} i (p : rprog A) : neutral {[i := false]} p → under_lock i p.
Proof. intros Hp. eapply follows_mono; [exact Hp|]. intros own' r ->. by exists false. Qed.

Lemma follows_with_lock {A : Type} i n (body : rprog A) : under_lock i body → neutral ∅ (with_lock (false, i, n) body).
Proof.
  intros Hbody. apply follows_bind. apply performs_acquire; [|done].
  apply follows_bind. apply follows_try. eapply follows_mono; [exact Hbody|]. intros own' res [v ->].
  apply follows_bind. apply (performs_own i v). intros c Hc Hheld. eapply wp_mono; [apply release_route_lock|].
  intros r c' Hev. split; [done|]. exists ∅. split_and!; [set_solver|by right|]. by destruct r, res.
Qed.

Lemma follows_route_lock {A : Type} i (f : lock_ref → rprog A) :
  (∀ n, neutral ∅ (f (false, i, n))) → neutral ∅ (lock ← coordinate (route_lock i); f lock).
Proof.
  intros Hf. apply follows_bind. apply performs_gentle. intros c Hc. eapply wp_mono; [apply route_lock_is|].
  intros res c' [Hev Hres]. split; [done|]. destruct (Hres Hc) as [n ->]. apply Hf.
Qed.

(** A step of a task that may close the barrier of the route whose lock it has. *)
Lemma under_lock_step {X : Type} i (m : CM X) :
  gentle (Some i) m → (∀ c, lock_held i c → wp m (λ _ c', lock_held i c') c) → under_lock i (coordinate m).
Proof.
  intros Hm Hheld. apply (performs_own i false). intros c Hc Hl. unfold wp. split; [apply Hm|].
  exists {[i := false]}. split_and!; [|by left; exists false|by exists false].
  intros r v [<- <-]%lookup_singleton_Some. split; [|done]. by apply Hheld.
Qed.

Lemma install_bootstrap_keeps_lock i lease c : lock_held i c → wp (install_bootstrap i lease) (λ _ c', lock_held i c') c.
Proof.
  intros Hl. unfold install_bootstrap, validate_action_bootstrap, new_event, when_some.
  destruct lease; wp_run; exact Hl.
Qed.
Lemma install_action_bootstrap_keeps_lock i l c :
  lock_held i c → wp (install_action_bootstrap i l) (λ _ c', lock_held i c') c.
Proof. intros Hl. unfold install_action_bootstrap, new_event. wp_run; exact Hl. Qed.

(** * The coroutines *)

Lemma begin_bootstrap_neutral i lease : neutral ∅ (begin_bootstrap i lease).
Proof.
  apply follows_route_lock. intros n. apply follows_with_lock, under_lock_step.
  - apply install_bootstrap_gentle.
  - intros c. apply install_bootstrap_keeps_lock.
Qed.

Lemma begin_action_bootstrap_neutral i : neutral ∅ (begin_action_bootstrap i).
Proof.
  unfold begin_action_bootstrap. apply follows_bind. apply performs_gentle. intros c Hc.
  eapply wp_mono; [apply queue_action_is|]. intros res c' [Hev Hres]. split; [done|].
  destruct (Hres Hc) as (l & -> & Hl). clear c c' Hc Hev Hres.
  apply neutral_bind; [by apply neutral_try, performs_acquire_action|intros acquired].
  apply neutral_bind; [apply neutral_gentle, leave_action_queue_gentle|intros _].
  apply neutral_bind; [apply neutral_done|intros _]. apply follows_route_lock. intros n.
  apply neutral_bind; [apply neutral_try, follows_with_lock, under_lock_step|intros [lease|e]].
  - by apply install_action_bootstrap_gentle.
  - intros c. apply install_action_bootstrap_keeps_lock.
  - apply neutral_done.
  - apply neutral_bind; [|intros; apply neutral_done].
    apply neutral_gentle, gentle_bind; [by apply release_action_lock|intros _; apply cleanup_gentle].
Qed.

Lemma deliver_authoritative_neutral ensures validates retain route : neutral ∅ (deliver_authoritative ensures validates retain route).
Proof.
  unfold deliver_authoritative. apply neutral_bind; [by apply neutral_when, neutral_ask|intros _].
  apply follows_route_lock. intros n. apply neutral_bind.
  - apply neutral_try, follows_with_lock, neutral_under_lock.
    apply neutral_bind; [by apply neutral_ask|intros current].
    apply neutral_bind; [by apply neutral_when, neutral_ask|intros _]. destruct current as [current|]; [|apply neutral_done].
    apply neutral_bind; [by apply neutral_ask|intros projection].
    do 3 (apply neutral_bind; [by (apply neutral_ask || apply neutral_when, neutral_ask)|intros _]).
    apply neutral_bind; [apply deliver_messages_neutral|intros _].
    apply neutral_bind; [by apply neutral_when, neutral_ask|intros _]. apply neutral_done.
  - intros result. apply neutral_bind; [case_decide; [apply neutral_gentle, complete_bootstrap_gentle|apply neutral_done]|].
    intros _. destruct result; apply neutral_done.
Qed.

(** Under the lock of the route, live output is delivered only if the barrier is open. *)
Lemma deliver_live_under_lock ensures route projected barrier i :
  i = tr_route_id route →
  under_lock i (
    c ← coordinate get_st ;
    if decide (co_bootstrap c !! tr_route_id route ≠ Some barrier ∨ is_set barrier c = false) then mret true
    else if decide (tr_route_id route ∈ co_blocked_routes c) then mret false
    else
      current ← await (GetProjectionRoute (tr_route_id route)) ;
      match current with
      | None => mret false
      | Some current =>
          delivered ← try (deliver_projected_message ensures false current projected false) ;
          match delivered with
          | Ok _ => mret false
          | Err e => if is_destination_decision_error e then _block_route current e ;; mret false else mraise e
          end
      end).
Proof.
  intros ->. apply follows_bind. apply (performs_own _ false). intros c Hc Hheld. apply wp_get. split; [done|].
  case_decide as Hclosed.
  { exists {[tr_route_id route := false]}. split_and!; [|by left; exists false|by exists false].
    intros r v [<- <-]%lookup_singleton_Some. by split. }
  apply Decidable.not_or in Hclosed as [Hb%dec_stable Hset%not_false_is_true].
  exists {[tr_route_id route := true]}. split_and!; [|by left; exists true|].
  - intros r v [<- <-]%lookup_singleton_Some. split; [done|]. intros _. exists barrier. split_and!; [done..|].
    intros Hp. destruct (ci_pending _ Hc _ Hp) as (b & Hb' & Hns). congruence.
  - case_decide; [by exists true|]. apply follows_bind.
    apply performs_asks; [done| |by exists true]. intros w res w' Hget.
    destruct res as [[current|]|e]; [|by exists true..].
    assert (tr_route_id current = tr_route_id route) as Hid.
    { destruct Hget as [[Hget _]|(x & [=] & _)]. unfold get_projection_route, list_projection_routes in Hget.
      unfold gets, mret, M_ret, mbind, M_bind in Hget. cbn in Hget. injection Hget as Hget. symmetry in Hget.
      apply head_Some_elem_of in Hget. apply list_elem_of_filter in Hget as [? _]. done. }
    match goal with |- follows _ _ _ _ _ _ ?p _ => assert (neutral {[tr_route_id route := true]} p) as Hp end.
    { apply neutral_bind.
      + apply neutral_try, deliver_projected_message_neutral. intros _. rewrite Hid. apply lookup_singleton_eq.
      + intros [r|e]; [apply neutral_done|]. destruct (is_destination_decision_error e); [|apply neutral_done].
        apply neutral_bind; [apply block_route_neutral|intros; apply neutral_done]. }
    eapply follows_mono; [exact Hp|]. intros own' r ->. by exists true.
Qed.

Lemma deliver_to_route_neutral ensures rounds route projected : neutral ∅ (_deliver_to_route ensures rounds route projected).
Proof.
  induction rounds as [|rounds IH]; [done|]. cbn [_deliver_to_route].
  apply neutral_bind; [apply neutral_gentle, barrier_of_gentle|intros [barrier is_open]].
  apply neutral_bind; [by apply neutral_when, neutral_ask|intros _]. apply follows_route_lock. intros n.
  apply neutral_bind; [by apply follows_with_lock, deliver_live_under_lock|intros [|]]; [exact IH|done].
Qed.

Lemma route_entry_follows named p : route_entry named false p → route_follows ∅ p (λ _ _, True).
Proof.
  intros Hp. assert (neutral ∅ p) as Hn; [|eapply follows_mono; [exact Hn|done]]. destruct Hp; try done.
  - apply begin_bootstrap_neutral.
  - apply neutral_gentle, complete_bootstrap_gentle.
  - apply neutral_bind; [apply begin_action_bootstrap_neutral|intros; apply neutral_done].
  - apply neutral_gentle, complete_action_bootstrap_gentle.
  - apply deliver_authoritative_neutral.
  - apply deliver_to_route_neutral.
Qed.

(** * Live output waits *)

Lemma new_routes_inv : coordinator_inv new_coordinator.
Proof. split; cbn; intros; try done. match goal with H : is_Some _ |- _ => by apply lookup_empty_is_Some in H end. Qed.

