(* ===== verification/ProjectionCheckpoints.v ===== *)
(** The checkpoints of routes: in any run, also one in which routes are retired, a
    checkpoint is moved only to a message that was delivered. *)

From S2P Require Export ProjectionLoop.
From stdpp Require Import gmap fin_map_dom.
From stdpp Require Import list.
#[local] Open Scope Z_scope.
#[local] Open Scope stdpp_scope.

Section checkpoints.
Context (named : naming) (initial : ProjectionRepository).

(** A delivery of a route was asked for, and is known to be complete. *)
Definition completed (w : route_world) (d : pystr * pystr) : Prop :=
  ∃ a, a ∈ rw_attempts w ∧ at_route_id a = d.1 ∧ at_delivery_id a = d.2 ∧
    (at_outcome a = Ok ACQUIRED ∨ at_outcome a = Ok ALREADY_COMPLETED).
Definition item_delivered (w : route_world) (i item : pystr) : Prop :=
  ∃ delivery_id, derive_projection_delivery_id (named i).2 (named i).1 item 0 = Ok delivery_id ∧
    completed w (i, delivery_id).

(** What a task has: deliveries it knows to be complete. *)
Abbreviation evidence := (gmap nat (pystr * pystr)).
Definition checkpoints_ok (w : route_world) (m : evidence) : Prop :=
  (∀ k d, m !! k = Some d → completed w d) ∧
  ∀ route, route ∈ d_values (pj_routes (rw_projections w)) → route_named named route ∧
    ∀ item, tr_checkpoint_agent_item_id route = Some item →
      item_delivered w (tr_route_id route) item ∨
      ∃ route0, route0 ∈ d_values (pj_routes initial) ∧ tr_route_id route0 = tr_route_id route ∧
        tr_checkpoint_agent_item_id route0 = Some item.

Abbreviation evident own p Q :=
  (follows route_perform route_immediate (λ _ : unit, ∅) (λ _, True) checkpoints_ok own p Q).
Abbreviation evidently own e Q := (performs route_perform route_immediate checkpoints_ok own e Q).

(** A program that is safe, and what it returns. *)
Definition safe {A : Type} (P : A → Prop) (own : evidence) (p : rprog A) : Prop :=
  evident own p (λ _ r, ∀ a, r = Ok a → P a).
Definition always {A : Type} (P : A → Prop) (p : rprog A) : Prop := ∀ own, safe P own p.

Lemma safe_bind {A B : Type} (P : A → Prop) (P' : B → Prop) own (p : rprog A) (f : A → rprog B) :
  safe P own p → (∀ a, P a → always P' (f a)) → safe P' own (p ≫= f).
Proof.
  intros Hp Hf. apply follows_bind. eapply follows_mono; [exact Hp|]. intros own' [a|e] Ha; [|done]. by apply Hf, Ha.
Qed.
Lemma always_bind {A B : Type} (P : A → Prop) (P' : B → Prop) (p : rprog A) (f : A → rprog B) :
  always P p → (∀ a, P a → always P' (f a)) → always P' (p ≫= f).
Proof. intros Hp Hf own. eapply safe_bind; [apply Hp|done]. Qed.
Lemma always_ret {A : Type} (P : A → Prop) a : P a → always P (mret a).
Proof. by intros ? own ? [= ->]. Qed.
Lemma always_raise {A : Type} (P : A → Prop) e : always P (mraise e).
Proof. intros own a [=]. Qed.
Lemma always_returns {A : Type} (P : A → Prop) (r : res A) : (∀ a, r = Ok a → P a) → always P (returns r).
Proof. by intros ? own. Qed.
Lemma always_try {A : Type} (P : A → Prop) (p : rprog A) :
  always P p → always (λ r, ∀ a, r = Ok a → P a) (try p).
Proof. intros Hp own. apply follows_try. eapply follows_mono; [apply Hp|]. by intros own' r Hr a [= ->]. Qed.
Lemma always_weaken {A : Type} (P P' : A → Prop) (p : rprog A) : (∀ a, P a → P' a) → always P p → always P' p.
Proof. intros HP Hp own. eapply follows_mono; [apply Hp|]. naive_solver. Qed.
Lemma always_when given (p : rprog unit) : always (λ _, True) p → always (λ _, True) (when given p).
Proof. destruct given; [done|]. intros _. by apply always_ret. Qed.

(** An operation that writes no route and delivers nothing. *)
Lemma quiet_performs {X : Type} (own : evidence) (e : route_event X) (Q : evidence → res X → Prop) :
  (∀ w r w', route_perform X e w r w' → rw_projections w' = rw_projections w ∧ rw_attempts w' = rw_attempts w) →
  (∀ w r w', checkpoints_ok w own → route_perform X e w r w' → Q own r) → Q own (Err CancelledError) → evidently own e Q.
Proof.
  intros Hquiet HQ Hcancel w r w' rest Hd Hw Ho. exists own. split; [done|].
  assert (∀ r0, route_perform X e w r0 w' → checkpoints_ok w' (own ∪ rest)) as Hw'.
  { intros r0 Hr0. destruct (Hquiet _ _ _ Hr0) as [Hp Ha]. unfold checkpoints_ok, item_delivered, completed in *.
    rewrite Hp, Ha. exact Hw. }
  assert (checkpoints_ok w own) as Hown.
  { destruct Hw as [Htok ?]. split; [|done]. intros k d Hk. apply (Htok k), lookup_union_Some; auto. }
  destruct Ho as [Ho|(_ & -> & [-> | [r0 Ho]])]; eauto.
Qed.
Lemma always_coordinate {X : Type} (m : CM X) : always (λ _, True) (coordinate m).
Proof. intros own. apply quiet_performs; [|done..]. by intros w r w' [_ ->]. Qed.
Definition quiet {X : Type} (e : route_event X) : Prop :=
  match e with AdvanceCheckpoint _ _ _ | DeliverProjected _ _ _ _ => False | _ => True end.
Lemma quiet_operation_keeps {X : Type} (own : evidence) (e : route_event X) :
  quiet e → evident own (await e) (λ own' _, own' = own).
Proof.
  intros He. apply quiet_performs; [|done..]. intros w r w' Hr. destruct e; try done; cbn in Hr;
    unfold repository_call in Hr; try naive_solver.
Qed.
Lemma always_quiet {X : Type} (e : route_event X) : quiet e → always (λ _, True) (await e).
Proof. intros He own. eapply follows_mono; [by apply quiet_operation_keeps|]. done. Qed.
Lemma safe_when {A : Type} (P : A → Prop) own given (e : route_event unit) (f : unit → rprog A) :
  quiet e → (∀ a, safe P own (f a)) → safe P own (when given (await e) ≫= f).
Proof.
  intros He Hf. destruct given; [|apply Hf]. apply follows_bind. eapply follows_mono; [by apply quiet_operation_keeps|].
  intros own' [a|x] ->; [apply Hf|done].
Qed.

Definition route_is (i : pystr) (route : ThreadProjectionRoute) : Prop := route_named named route ∧ tr_route_id route = i.

Lemma get_route_named i : always (λ o, ∀ route, o = Some route → route_is i route) (await (GetProjectionRoute i)).
Proof.
  intros own. apply quiet_performs; [|intros w r w' [_ Hroutes] Hr|done].
  { intros w r w' [[_ ->]|(x & _ & ->)]; done. }
  intros o Ho route ->. subst r. destruct Hr as [[Hr _]|(x & [=] & _)].
  unfold get_projection_route, list_projection_routes, gets, mret, M_ret, mbind, M_bind in Hr. cbn in Hr.
  injection Hr as Hr. symmetry in Hr. apply head_Some_elem_of in Hr. apply list_elem_of_filter in Hr as [Hid Hr].
  apply list_elem_of_filter in Hr as [_ Hr]. split; [|done]. by apply Hroutes.
Qed.
Lemma read_projection_own route :
  always (λ slice, Forall (λ m, am_thread_ref (pm_message m) = tr_thread_ref route) (ps_messages slice)) (await (ReadProjection route)).
Proof.
  intros own. apply quiet_performs; [by intros w r w' [-> _]|by intros w r w' _ [_ Hr]|done].
Qed.

(** What the log knows grows. *)
Lemma checkpoints_ok_attempt w m a : checkpoints_ok w m → checkpoints_ok (on_attempts (rw_attempts w ++ [a]) w) m.
Proof.
  assert (∀ d, completed w d → completed (on_attempts (rw_attempts w ++ [a]) w) d) as Hgrow.
  { intros d (a' & Ha' & ?). exists a'. split; [|done]. cbn. apply elem_of_app. by left. }
  intros [Htok Hroutes]. split; [eauto|]. intros route Hr. destruct (Hroutes route Hr) as [? Hc]. split; [done|].
  intros item Hi. destruct (Hc item Hi) as [(d & ? & ?)|?]; [left; exists d; eauto|by right].
Qed.
Lemma checkpoints_ok_insert w (own rest : evidence) k d :
  own !! k = None → rest !! k = None → own ##ₘ rest → checkpoints_ok w (own ∪ rest) → completed w d →
  <[k:=d]> own ##ₘ rest ∧ checkpoints_ok w (<[k:=d]> own ∪ rest).
Proof.
  intros Hk Hk' Hd [Htok Hroutes] Hc. split; [by apply map_disjoint_insert_l|]. split; [|done].
  intros k' d'. rewrite <- insert_union_l, lookup_insert_Some. naive_solver.
Qed.

(** A delivery that is reported complete is evidence. *)
Lemma deliver_evident own i authoritative message checkpointable (Q : evidence → res IdempotencyClaimStatus → Prop) :
  (∀ own' k claim, own ⊆ own' → (claim = CLAIM_IN_FLIGHT ∨ own' !! k = Some (i, om_delivery_id message)) → Q own' (Ok claim)) →
  (∀ own' e, Q own' (Err e)) → evidently own (DeliverProjected i authoritative message checkpointable) Q.
Proof.
  intros Hok Herr w r w' rest Hd Hw Ho.
  assert (∀ r0 (w0 : route_world), w0 = w' → route_perform _ (DeliverProjected i authoritative message checkpointable) w r0 w0 →
    checkpoints_ok w' (own ∪ rest) ∧
    ((r0 = Ok ACQUIRED ∨ r0 = Ok ALREADY_COMPLETED) → completed w' (i, om_delivery_id message))) as Hdel.
  { intros r0 w0 <- ->. split; [by apply checkpoints_ok_attempt|]. intros Hr0. eexists. split; [cbn; apply elem_of_app; right; by apply list_elem_of_singleton|].
    done. }
  destruct Ho as [Ho|(_ & -> & [-> | [r0 Ho]])].
  - destruct (Hdel _ _ eq_refl Ho) as [Hw' Hc]. destruct r as [claim|e]; [|by exists own].
    destruct (decide (claim = CLAIM_IN_FLIGHT)) as [->|Hne]; [exists own; split_and!; [done..|]; apply (Hok _ 0%nat); auto|].
    set (k := fresh (dom own ∪ dom rest)). assert (k ∉ dom own ∪ dom rest) as Hk by apply is_fresh.
    rewrite not_elem_of_union, !not_elem_of_dom in Hk. destruct Hk as [Hk Hk'].
    destruct (checkpoints_ok_insert w' own rest k (i, om_delivery_id message) Hk Hk' Hd Hw') as [? ?].
    { apply Hc. destruct claim; auto; done. }
    exists (<[k:=(i, om_delivery_id message)]> own). split_and!; [done..|].
    apply (Hok _ k); [by apply insert_subseteq|right; by rewrite lookup_insert_eq].
  - by exists own.
  - destruct (Hdel _ _ eq_refl Ho) as [Hw' _]. by exists own.
Qed.

(** A checkpoint is moved by who has evidence of the delivery. *)
Lemma advance_safe (own : evidence) k i expected item delivery_id :
  derive_projection_delivery_id (named i).2 (named i).1 item 0 = Ok delivery_id →
  own !! k = Some (i, delivery_id) → safe (route_is i) own (await (AdvanceCheckpoint i expected item)).
Proof.
  intros Hid Hk w r w' rest Hd Hw Ho. exists own. split; [done|].
  assert (∀ r0 w0, route_perform _ (AdvanceCheckpoint i expected item) w r0 w0 →
    checkpoints_ok w0 (own ∪ rest) ∧ ∀ a, r0 = Ok a → route_is i a) as Hadv.
  { intros r0 w0 (now & [[-> ->]|(x & -> & ->)]); [|by split]. destruct Hw as [Htok Hroutes].
    pose proof (advance_projection_checkpoint_spec i expected item now (rw_projections w)) as Hspec. unfold wp in Hspec.
    destruct (advance_projection_checkpoint _ _ _ _ _) as [[advanced|e] s']; cbn [fst snd] in *; [|by subst].
    destruct Hspec as (key & route & Hfind & _ & -> & _ & ->). apply find_route_spec in Hfind as [Hin Hi].
    assert (route ∈ d_values (pj_routes (rw_projections w))) as Hin' by (apply list_elem_of_fmap; by exists (key, route)).
    destruct (Hroutes route Hin') as [Hnamed _].
    split; [|intros a [= <-]; by split]. split; [done|]. intros route' [->|Hr']%d_values_set; [|by apply Hroutes].
    split; [done|]. intros item' [= <-]. left. cbn. rewrite Hi. exists delivery_id. split; [done|].
    apply (Htok k), lookup_union_Some; auto. }
  destruct Ho as [Ho|(_ & -> & [-> | [r0 Ho]])]; [by apply Hadv|by split|]. split; [by eapply Hadv|done].
Qed.

(** ** The programs *)

Ltac quietly := first [by apply always_quiet | by apply always_when, always_quiet | apply always_coordinate].

Lemma deliver_projected_message_safe ensures validates i route projected authoritative :
  route_is i route → am_thread_ref (pm_message projected) = (named i).1 →
  always (route_is i) (deliver_projected_message ensures validates route projected authoritative).
Proof.
  intros [Hnamed Hi] Hthread. unfold deliver_projected_message.
  apply (always_bind (λ _, True)); [quietly|intros _ _].
  apply (always_bind (λ d, projected_delivery_id route projected = Ok d)); [by apply always_returns|intros d Hd].
  apply (always_bind (λ _, True)).
  { unfold projected_reply_to. destruct (pm_turn_id projected); [|by apply always_ret].
    do 3 (apply (always_bind (λ _, True)); [quietly|intros ? _]). by apply always_ret. }
  intros reply_to _. apply (always_bind (λ _, True)); [by apply always_returns|intros metadata _].
  intros own. apply follows_bind. apply deliver_evident; [|done]. intros own' k claim _ Hclaim.
  apply safe_when; [done|intros _]. case_decide as Hflight; [by intros a [=]|].
  destruct Hclaim as [?|Hk]; [done|].
  eapply (safe_bind (route_is i)); [|intros current Hcurrent].
  - unfold apply_delivery_outcome. rewrite decide_False by done. unfold projected_delivery_id in Hd.
    destruct (pm_checkpoint projected); [|by intros a [= <-]].
    case_decide; [by intros a [= <-]|]. case_decide; [by intros a [= <-]|]. rewrite Hi in *. cbn in Hk.
    unfold route_named in Hnamed. rewrite Hi in Hnamed.
    eapply (advance_safe own' k i _ _ d); [|exact Hk]. by rewrite Hnamed in *; cbn in *; rewrite Hthread in Hd.
  - apply (always_bind (λ _, True)); [quietly|intros _ _]. by apply always_ret.
Qed.

Lemma block_route_always route e : always (λ _, True) (_block_route route e).
Proof. apply (always_bind (λ _, True)); [quietly|intros _ _]. quietly. Qed.

Lemma deliver_messages_safe ensures validates i route seen current messages authoritative :
  route_is i current → Forall (λ m, am_thread_ref (pm_message m) = (named i).1) messages →
  always (λ _, True) (_deliver_messages ensures validates route seen current messages authoritative).
Proof.
  intros Hcurrent Hthread. revert seen current Hcurrent.
  induction Hthread as [|m messages Hm Hthread IH]; intros seen current Hcurrent; cbn [_deliver_messages]; [by apply always_ret|].
  apply (always_bind (λ _, True)); [quietly|intros _ _]. case_decide; [by apply IH|].
  apply (always_bind (λ _, True)); [quietly|intros c _].
  case_decide; [destruct validates; [apply always_raise|by apply always_ret]|].
  eapply always_bind; [by eapply always_try, deliver_projected_message_safe|]. intros [r|e] Hr; [by apply IH, Hr|].
  destruct (is_destination_decision_error e); [|apply always_raise].
  apply (always_bind (λ _, True)); [apply block_route_always|intros _ _].
  destruct validates; [apply always_raise|by apply always_ret].
Qed.

Lemma with_lock_always {A : Type} (P : A → Prop) l (body : rprog A) : always P body → always P (with_lock l body).
Proof.
  intros Hbody. apply (always_bind (λ _, True)); [quietly|intros _ _].
  eapply always_bind; [by apply always_try|]. intros r Hr.
  apply (always_bind (λ _, True)); [quietly|intros _ _]. by apply always_returns.
Qed.

Lemma deliver_authoritative_always ensures validates retain route :
  always (λ _, True) (deliver_authoritative ensures validates retain route).
Proof.
  apply (always_bind (λ _, True)); [quietly|intros _ _]. apply (always_bind (λ _, True)); [quietly|intros lock _].
  eapply always_bind; [eapply always_try, (with_lock_always (λ _, True))|].
  - eapply always_bind; [apply get_route_named|]. intros current Hcurrent.
    apply (always_bind (λ _, True)); [quietly|intros _ _]. destruct current as [current|]; [|by apply always_ret].
    specialize (Hcurrent _ eq_refl). eapply always_bind; [apply read_projection_own|]. intros projection Hown.
    do 3 (apply (always_bind (λ _, True)); [quietly|intros _ _]).
    apply (always_bind (λ _, True)); [|intros _ _].
    + eapply deliver_messages_safe; [exact Hcurrent|]. destruct Hcurrent as [Hnamed <-]. by rewrite Hnamed.
    + apply (always_bind (λ _, True)); [quietly|intros _ _]. by apply always_ret.
  - intros result _. apply (always_bind (λ _, True)); [case_decide; [quietly|by apply always_ret]|intros _ _].
    destruct result; [by apply always_ret|apply always_raise].
Qed.

Lemma deliver_to_route_always ensures rounds route projected :
  am_thread_ref (pm_message projected) = (named (tr_route_id route)).1 →
  always (λ _, True) (_deliver_to_route ensures rounds route projected).
Proof.
  intros Hthread. induction rounds as [|rounds IH]; [by apply always_ret|]. cbn [_deliver_to_route].
  apply (always_bind (λ _, True)); [quietly|intros [barrier is_open] _].
  do 2 (apply (always_bind (λ _, True)); [quietly|intros ? _]).
  apply (always_bind (λ _, True)); [apply with_lock_always|intros [|] _; [exact IH|by apply always_ret]].
  apply (always_bind (λ _, True)); [quietly|intros c _]. do 2 (case_decide; [by apply always_ret|]).
  eapply always_bind; [apply get_route_named|]. intros [current|] Hcurrent; [|by apply always_ret].
  specialize (Hcurrent _ eq_refl).
  eapply always_bind; [by eapply always_try, deliver_projected_message_safe|]. intros [r|e] _; [by apply always_ret|].
  destruct (is_destination_decision_error e); [|apply always_raise].
  apply (always_bind (λ _, True)); [apply block_route_always|intros _ _]. by apply always_ret.
Qed.

Lemma begin_action_bootstrap_always i : always (λ _, True) (begin_action_bootstrap i).
Proof.
  apply (always_bind (λ _, True)); [quietly|intros action_lock _].
  eapply always_bind; [by apply always_try, (always_quiet (AcquireLock action_lock))|intros acquired _].
  apply (always_bind (λ _, True)); [quietly|intros _ _]. apply (always_bind (λ _, True)); [by apply always_returns|intros _ _].
  apply (always_bind (λ _, True)); [quietly|intros lock _].
  eapply always_bind; [apply always_try, (with_lock_always (λ _, True)); quietly|intros [lease|e] _]; [by apply always_ret|].
  apply (always_bind (λ _, True)); [quietly|intros _ _]. apply always_raise.
Qed.

Lemma abort_action_bootstrap_always lease : always (λ _, True) (abort_action_bootstrap lease).
Proof.
  do 2 (apply (always_bind (λ _, True)); [quietly|intros ? _]).
  destruct (co_leases _ !! lease) as [l|]; [|apply always_raise].
  destruct (co_locks _ !! _) as [lock|]; [|by apply always_ret]. apply with_lock_always. quietly.
Qed.

Lemma route_entry_evident retires p : route_entry named retires p → evident ∅ p (λ _ _, True).
Proof.
  intros Hp. assert (always (λ _, True) p) as Ha; [|eapply follows_mono; [apply Ha|done]]. destruct Hp.
  - apply (always_bind (λ _, True)); [quietly|intros lock _]. apply with_lock_always. quietly.
  - quietly.
  - apply (always_bind (λ _, True)); [apply begin_action_bootstrap_always|intros _ _]. by apply always_ret.
  - quietly.
  - apply deliver_authoritative_always.
  - by apply deliver_to_route_always.
  - apply abort_action_bootstrap_always.
  - quietly.
  - quietly.
Qed.
End checkpoints.

(** C19. A checkpoint names a message that was delivered.  In every run of the coordinator,
    with its operations in any order, interleaved, and cancelled anywhere, also when routes
    are retired, the checkpoint of a stored route is the one it had at the start, or names
    an item whose delivery to the Conversation of the route was asked for, under the one
    identity that delivery has, and was reported complete. *)
Theorem checkpoint_names_a_delivered_message named retires p q route item :
  (∀ route, route ∈ d_values (pj_routes p) → route_named named route) →
  route_runs named retires p q →
  route ∈ d_values (pj_routes (rw_projections (lp_world q))) → tr_checkpoint_agent_item_id route = Some item →
  item_delivered named (lp_world q) (tr_route_id route) item ∨
  ∃ route0, route0 ∈ d_values (pj_routes p) ∧ tr_route_id route0 = tr_route_id route ∧
    tr_checkpoint_agent_item_id route0 = Some item.
Proof.
  intros Hnamed Hrun Hroute Hitem.
  enough (disciplined route_perform route_immediate (λ _ : unit, ∅) (λ _, True) (checkpoints_ok named p) q)
    as (_ & hold & _ & [_ Hw] & _) by by eapply Hw.
  eapply loop_steps_disciplined; [..|exact Hrun].
  - intros w m m' [Htok ?] Hm. split; [|done]. intros k d Hk. eapply Htok, lookup_weaken; eauto.
  - intros w w' m [Htok Hroutes] (p' & -> & Hothers). split; [done|]. intros route' Hr'.
    destruct (Hothers route' Hr') as [? Hc]. split; [done|]. intros item' Hi'.
    destruct Hc as [?|(route0 & Hr0 & Hid & Hc)]; [congruence|]. rewrite Hid. apply Hroutes; [done|congruence].
  - apply route_entry_evident.
  - done.
  - apply disciplined_start; [done..|]. split; [by intros k d ?%lookup_empty_Some|]. intros route0 Hr0. cbn in Hr0.
    split; [by apply Hnamed|]. eauto.
Qed.
