(* ===== verification/ProjectionExamples.v ===== *)
(** Concrete routes and runs of the coordinator: the theorems on projections applied, and
    runs in which an action that is aborted opens a barrier others rely on, or lets a route
    go on past a message that failed. *)

From S2P Require Export ProjectionTheorems ProjectionCheckpoints ProjectionOrder.
From stdpp Require Import gmap.
From stdpp Require Import list.
#[local] Open Scope Z_scope.
#[local] Open Scope stdpp_scope.

Module Projection.
Definition route_id : pystr := py "route".
Definition route : ThreadProjectionRoute := {|
  tr_route_id := route_id; tr_thread_ref := example_thread; tr_conversation_ref := example_conversation;
  tr_reply_to_message_id := None; tr_checkpoint_agent_item_id := None; tr_checkpointed_at := None;
  tr_updated_at := Some (Aware 0) |}.
Definition named : naming := λ _, (example_thread, example_conversation).
Definition repository : ProjectionRepository :=
  {| pj_routes := [(route_key route, route)]; pj_turn_correlations := [] |}.

Definition agent_message (item : string) : AgentMessage := {|
  am_agent_item_id := py item; am_thread_ref := example_thread; am_role := ROLE_ASSISTANT;
  am_content := [TextContent (py item) PLAIN]; am_created_at := Aware 0; am_client_message_id := None;
  am_metadata := [] |}.
Definition message (item : string) : ProjectedAgentMessage := {|
  pm_message := agent_message item; pm_turn_id := None; pm_event_id := None; pm_checkpoint := true |}.
Definition delivery_id (item : string) : pystr :=
  match derive_projection_delivery_id example_conversation example_thread (py item) 0 with Ok d => d | Err _ => [] end.

(** The world answers at once: a wait that would not end is cancelled, and the delivery of
    one message fails. *)
Definition answer (failing : pystr) (X : Type) (e : route_event X) : route_world → res X * route_world :=
  match e with
  | Coordinate m => λ w, ((m (rw_coordinator w)).1, on_coordinator (m (rw_coordinator w)).2 w)
  | AcquireLock l => λ w,
      if decide (co_mutexes (rw_coordinator w) !! l = Some false)
      then (Ok (), on_coordinator (on_mutexes <[l := true]> (rw_coordinator w)) w) else (Err CancelledError, w)
  | WaitBarrier b => λ w, if is_set b (rw_coordinator w) then (Ok (), w) else (Err CancelledError, w)
  | GetProjectionRoute i => λ w, ((get_projection_route i (rw_projections w)).1, on_projections (get_projection_route i (rw_projections w)).2 w)
  | GetTurnReplyCorrelation t i => λ w,
      ((get_turn_reply_correlation t i (rw_projections w)).1, on_projections (get_turn_reply_correlation t i (rw_projections w)).2 w)
  | AdvanceCheckpoint i expected item => λ w,
      let '(r, p) := advance_projection_checkpoint i expected item (Aware 1) (rw_projections w) in (r, on_projections p w)
  | ReadProjection _ => λ w, (Err ProjectionRecoveryUnavailable, w)
  | DeliverProjected i authoritative message _ => λ w,
      let r := if decide (om_delivery_id message = failing) then Err DestinationDecisionError else Ok ACQUIRED in
      (r, on_attempts (rw_attempts w ++ [{| at_route_id := i; at_authoritative := authoritative;
            at_barrier_open := bool_decide (route_open i (rw_coordinator w));
            at_delivery_id := om_delivery_id message; at_outcome := r |}]) w)
  | WaitForAcceptance _ | EnsureTurnCorrelation _ _ | ValidateLifecycle | RecordDeliveryFailure _ _ => λ w, (Ok (), w)
  end.
Lemma answer_outcome failing X (e : route_event X) w :
  outcome route_perform route_immediate e w (answer failing X e w).1 (answer failing X e w).2.
Proof.
  destruct e; cbn; try (by left); unfold outcome; cbn; unfold repository_call.
  - case_decide; [by left|right]. by repeat split; left.
  - destruct (is_set b _) eqn:E; [by left|right]. by repeat split; left.
  - left. by left.
  - left. by left.
  - left. exists (Aware 1). left. by destruct (advance_projection_checkpoint _ _ _ _ _).
Qed.

Definition begins_action : rprog unit := begin_action_bootstrap route_id ;; mret ().
Definition delivers_live (item : string) : rprog unit := _deliver_to_route false 1 route (message item).

(** The world after these tasks, each run to its end. *)
Definition after (failing : pystr) (tasks : list (rprog unit)) : route_world :=
  (run_tasks (answer failing) 60 tasks () (new_route_world repository)).2.
Lemma after_reached failing retires tasks :
  Forall (route_entry named retires) tasks →
  ∃ q, route_runs named retires repository q ∧ lp_world q = after failing tasks.
Proof.
  intros Htasks.
  destruct (run_tasks_reach route_perform route_immediate (route_others named) (route_entry named retires) (λ _, False)
    (answer failing) 60 tasks () (new_route_world repository) [] (answer_outcome failing) Htasks) as [rest Hr].
  eexists. split; [exact Hr|done].
Qed.
Lemma begins_action_entry retires : route_entry named retires begins_action.
Proof. apply enters_begin_action. Qed.
Lemma delivers_live_entry retires item : route_entry named retires (delivers_live item).
Proof. by apply enters_live. Qed.
#[export] Hint Resolve begins_action_entry delivers_live_entry : routes.
#[export] Hint Constructors route_entry : routes.

(** What was handed out, and to where the checkpoint is. *)
Definition handed_out (w : route_world) : list (pystr * bool) :=
  (λ a, (at_delivery_id a, is_ok (at_outcome a))) <$> rw_attempts w.
Definition checkpoint (w : route_world) : option pystr :=
  head (d_values (pj_routes (rw_projections w))) ≫= tr_checkpoint_agent_item_id.

(** An Application with a history of four items on two pages, of which the newest is also
    in its catch-up, with one more. *)
Definition turn : TurnRef := {| tn_thread_ref := example_thread; tn_turn_id := py "turn" |}.
Definition no_support := Applications.UNSUPPORTED.
Definition application : ApplicationSummary := {|
  as_ref := {| ar_application_instance_id := py "app" |}; as_kind := py "app"; as_display_name := py "App";
  as_capabilities := {|
    ca_projects := {| pc_mode := FLAT; pc_discovery := Applications.FALLBACK; pc_reading := Applications.FALLBACK;
      pc_creation := no_support; pc_deletion := no_support |};
    ca_threads := {| tc_listing := no_support; tc_creation := no_support; tc_reading := no_support;
      tc_deletion := DELETION_UNSUPPORTED; tc_creation_profiles := [] |};
    ca_runtime := {| uc_history := Applications.NATIVE; uc_streaming := no_support; uc_replay_from_cursor := no_support;
      uc_interruption := no_support; uc_interactive_requests := no_support; uc_pending_request_snapshot := no_support;
      uc_native_thread_activation := no_support; uc_gap_detection := no_support; uc_event_sequence_scope := SCOPE_NONE |};
    ca_attachment_sources := [] |};
  as_workspace_identity := None |}.
Definition page (items : list string) (number : Z) (has_older : bool) : operation_answer := ThreadHistoryRead {|
  hi_thread_ref := example_thread; hi_page := number; hi_has_older := has_older;
  hi_turns := [{| he_turn_ref := turn; he_status := TURN_COMPLETED; he_user_message := None;
    he_agent_messages := agent_message <$> items; he_error := None; he_had_compaction := false |}] |}.
Definition execute_application (operation : ApplicationOperation) : M unit ApplicationOperationResult :=
  let answers answer := mret (ApplicationOperationSucceeded (ao_operation_id operation) (Aware 0) answer) in
  match ao_request operation with
  | GetThreadHistory _ _ number =>
      if decide (number = 1) then answers (page ["c"; "d"]%string 1 true)
      else if decide (number = 2) then answers (page ["a"; "b"]%string 2 false)
      else mraise RuntimeError
  | GetTurnCatchup _ _ => answers (TurnCatchupRead {| ct_thread_ref := example_thread; ct_turn_ref := Some turn;
      ct_status := TURN_RUNNING; ct_messages := agent_message <$> ["d"; "e"]%string; ct_updated_at := None |})
  | _ => mraise NotImplementedError
  end.
Definition recovered (item : string) : ProjectedAgentMessage := {|
  pm_message := agent_message item; pm_turn_id := Some (py "turn"); pm_event_id := None; pm_checkpoint := true |}.
Definition history : list ProjectedAgentMessage := recovered <$> ["a"; "b"; "c"; "d"]%string.
Definition caught_up : list ProjectedAgentMessage := recovered <$> ["d"; "e"]%string.
Definition first (number : Z) : nat := if decide (number = 1) then 2%nat else 0%nat.
Definition past (number : Z) : nat := if decide (number = 1) then 4%nat else 2%nat.
Definition checkpointed : ThreadProjectionRoute := with_checkpoint route (Some (py "a")) (Some (Aware 0)).

Lemma execute_answers : answers_from execute_application example_thread history caught_up first past.
Proof.
  split.
  - intros operation limit number w i at_ h w' Hop. unfold execute_application. rewrite Hop. unfold first, past.
    case_decide as H1; [by intros [= <- <- <- <-]|]. case_decide as H2; [|by intros [=]]. by intros [= <- <- <- <-].
  - intros operation limit w i at_ h w' Hop. unfold execute_application. rewrite Hop. by intros [= <- <- <- <-].
  - by split; [vm_compute; lia|].
  - intros number Hn. unfold first, past. repeat case_decide; cbn; lia.
Qed.

(** Tasks after which live output of the route has to wait: a baseline is awaited; one
    failed, and an action is to try again. *)
Definition awaiting_baseline : list (rprog unit) := [begins_action; begin_bootstrap route_id None].
Definition fenced : list (rprog unit) :=
  [begins_action; coordinate (complete_action_bootstrap 0 (Some false)); begins_action].
(** It waits, but not when the lease is aborted. *)
Definition opens (tasks : list (rprog unit)) (lease : nat) : Prop :=
  handed_out (after [] (tasks ++ [delivers_live "a"])) = [] ∧
  ∃ q, route_runs named true repository q ∧
    lp_world q = after [] (tasks ++ [abort_action_bootstrap lease; delivers_live "a"]) ∧
    handed_out (lp_world q) = [(delivery_id "a", true)].
Lemma opens_run tasks lease :
  Forall (route_entry named true) tasks →
  handed_out (after [] (tasks ++ [delivers_live "a"])) = [] →
  handed_out (after [] (tasks ++ [abort_action_bootstrap lease; delivers_live "a"])) = [(delivery_id "a", true)] →
  opens tasks lease.
Proof.
  intros Htasks Hwaits Hopens. split; [done|].
  destruct (after_reached [] true (tasks ++ [abort_action_bootstrap lease; delivers_live "a"])) as (q & Hr & Hq).
  - apply Forall_app. split; [done|]. repeat constructor; auto with routes.
  - exists q. by rewrite Hq.
Qed.
End Projection.

Section examples.
Import Projection.

Lemma history_distinct : NoDup (item_id <$> history).
Proof. apply (bool_decide_eq_true_1 _). vm_compute. reflexivity. Qed.

Lemma recovery_without_gap_loses_nothing_witness :
  ∃ slice, read_bounded_authoritative_projection execute_application (mret (Aware 0)) application checkpointed
      20 10 5 10 20 true () = (Ok slice, ()) ∧
    ps_messages slice = recovered <$> ["b"; "c"; "d"; "e"]%string ∧ ps_gap slice = None ∧
    ps_messages slice = missed history caught_up (py "a").
Proof.
  destruct (read_bounded_authoritative_projection execute_application (mret (Aware 0)) application checkpointed
    20 10 5 10 20 true ()) as [r []] eqn:Hrun. pose proof Hrun as Heq. vm_compute in Heq. injection Heq as <-.
  eexists. split; [reflexivity|]. split; [reflexivity|]. split; [reflexivity|].
  assert (1 ≤ 5) as H5 by lia.
  destruct (recovery_without_gap_loses_nothing execute_application (mret (Aware 0)) application checkpointed
    20 10 5 10 20 true history caught_up first past () _ () execute_answers history_distinct H5 Hrun) as (_ & _ & Hall).
  cbn in Hall. destruct Hall as [_ Hall]. by apply Hall.
Defined.

Lemma interrupted_recovery_is_resumed_witness :
  missed history caught_up (py "a") = recovered <$> ["b"; "c"; "d"; "e"]%string ∧
  keeps (walk_rule route_id example_conversation)
    {| wk_tried := []; wk_failed := false; wk_checkpoint := Some (py "a") |}
    (_deliver_messages true true checkpointed [] checkpointed (first_items 3 (missed history caught_up (py "a"))) true)
    (λ r w, ∃ n j, walked checkpointed (first_items 3 (missed history caught_up (py "a"))) (Some (py "a")) [] w n j ∧
       (true = true → r = Ok () → n = length (first_items 3 (missed history caught_up (py "a"))) ∧ j = n) ∧
       ∀ x m, wk_checkpoint w = Some x → m ∈ drop j (missed history caught_up (py "a")) →
         item_id m ∈ item_id <$> missed history caught_up x).
Proof.
  split; [vm_compute; reflexivity|].
  apply (interrupted_recovery_is_resumed true true checkpointed history caught_up (py "a") 3 history_distinct eq_refl).
  apply (bool_decide_eq_true_1 _). vm_compute. reflexivity.
Defined.


Lemma checkpoint_names_a_delivered_message_witness :
  ∃ q route', route_runs named false repository q ∧ route' ∈ d_values (pj_routes (rw_projections (lp_world q))) ∧
    tr_checkpoint_agent_item_id route' = Some (py "a") ∧ item_delivered named (lp_world q) (tr_route_id route') (py "a").
Proof.
  destruct (after_reached [] false [delivers_live "a"]) as (q & Hr & Hq); [repeat constructor; auto with routes|].
  assert (d_values (pj_routes (rw_projections (lp_world q))) = [with_checkpoint route (Some (py "a")) (Some (Aware 1))]) as Hroutes
    by (rewrite Hq; vm_compute; reflexivity).
  exists q, (with_checkpoint route (Some (py "a")) (Some (Aware 1))). rewrite Hroutes.
  assert (with_checkpoint route (Some (py "a")) (Some (Aware 1)) ∈ [with_checkpoint route (Some (py "a")) (Some (Aware 1))]) as Hin
    by by apply list_elem_of_singleton.
  split; [exact Hr|]. split; [exact Hin|]. split; [reflexivity|].
  rewrite <- Hroutes in Hin.
  destruct (checkpoint_names_a_delivered_message named false repository q _ (py "a")
    ltac:(intros ? ->%list_elem_of_singleton; reflexivity) Hr Hin eq_refl) as [?|(route0 & H0 & _ & Hc)]; [done|].
  exfalso. apply list_elem_of_singleton in H0 as ->. discriminate.
Defined.

(** C35. An action that is aborted undoes what others rely on.  While a baseline of the route
    is awaited, [begin_bootstrap], or after one that failed and left the route fenced,
    [complete_action_bootstrap] with [False], live output waits.  But an action that found
    the barrier closed shares it, and when it is aborted [abort_action_bootstrap] sets the
    barrier, drops the mark of the baseline and the fence, and the live output is handed out
    before the baseline.  It unblocks the route as well, where a delivery that fails blocks
    its route so that no later message is handed out and the checkpoint stays before it: the
    next live message is delivered, and the checkpoint moves past the one that failed. *)
Theorem aborted_action_undoes_what_others_rely_on :
  opens awaiting_baseline 0 ∧ opens fenced 1 ∧
  (let w := after (delivery_id "a") [delivers_live "a"; delivers_live "b"] in
   handed_out w = [(delivery_id "a", false)] ∧ checkpoint w = None) ∧
  ∃ q, route_runs named true repository q ∧
    lp_world q = after (delivery_id "a") [delivers_live "a"; begins_action; abort_action_bootstrap 0; delivers_live "b"] ∧
    handed_out (lp_world q) = [(delivery_id "a", false); (delivery_id "b", true)] ∧
    checkpoint (lp_world q) = Some (py "b").
Proof.
  split; [apply opens_run; [repeat constructor; auto with routes|vm_compute; reflexivity..]|].
  split; [apply opens_run; [repeat constructor; auto with routes|vm_compute; reflexivity..]|].
  split; [split; vm_compute; reflexivity|].
  destruct (after_reached (delivery_id "a") true [delivers_live "a"; begins_action; abort_action_bootstrap 0; delivers_live "b"])
    as (q & Hr & Hq); [repeat constructor; auto with routes|].
  exists q. split_and!; [exact Hr|exact Hq|rewrite Hq; vm_compute; reflexivity..].
Qed.
End examples.
