(* ===== verification/Routing.v ===== *)
(** Operations on Conversations: [gateway/routing/operations.py], [bindings.py] and
    [projection_routes.py], with the delegates of [gateway/orchestration.py] that read an
    Application, write the binding and prepare the route of the new Thread.

    An operation runs under the lock of its Conversation.  The repository of bindings, the
    Applications and the runtime of projections are what it awaits. *)

From S2P Require Export InputDispatch Bindings ProjectionRoutes Requests.
From stdpp Require Import list.
#[local] Open Scope Z_scope.
#[local] Open Scope stdpp_scope.

(** * Operations and results *)

(** [gateway/routing/operations.py:52-62] GatewayOperationType *)
Inductive GatewayOperationType : Type :=
| APPLICATION_LIST | APPLICATION_SELECT
| CONVERSATION_BIND_PROJECT | CONVERSATION_BIND_THREAD | CONVERSATION_CLEAR_THREAD
| CONVERSATION_CLEAR_PROJECT | CONVERSATION_CLEAR_APPLICATION | CONVERSATION_RESPOND_REQUEST
| THREAD_OBSERVE | THREAD_CLEAR_OBSERVATION.
#[export] Instance GatewayOperationType_eq_dec : EqDecision GatewayOperationType.
Proof. solve_decision. Defined.
(** [gateway/routing/operations.py:53-62] GatewayOperationType: the values *)
Definition gateway_operation_type_value (type : GatewayOperationType) : string :=
  match type with
  | APPLICATION_LIST => "application.list"
  | APPLICATION_SELECT => "application.select"
  | CONVERSATION_BIND_PROJECT => "conversation.bind_project"
  | CONVERSATION_BIND_THREAD => "conversation.bind_thread"
  | CONVERSATION_CLEAR_THREAD => "conversation.clear_thread"
  | CONVERSATION_CLEAR_PROJECT => "conversation.clear_project"
  | CONVERSATION_CLEAR_APPLICATION => "conversation.clear_application"
  | CONVERSATION_RESPOND_REQUEST => "conversation.respond_request"
  | THREAD_OBSERVE => "thread.observe"
  | THREAD_CLEAR_OBSERVATION => "thread.clear_observation"
  end.

(** [gateway/routing/operations.py:132-143] GatewayOperation: what each class adds to the
    common fields *)
Inductive gateway_request : Type :=
| ListApplications
| SelectApplication (application_ref : ApplicationRef) (expected_generation : option Z)
| BindConversationToProject (project_ref : ProjectRef) (expected_generation : option Z)
| BindConversationToThread (thread_ref : ThreadRef) (expected_generation : option Z)
| ClearConversationThread (expected_generation : option Z)
| ClearConversationProject (expected_generation : option Z)
| ClearConversationApplication (expected_generation : option Z)
| ObserveThread (thread_ref : ThreadRef) (reply_to_message_id : option pystr)
| ClearThreadObservation (thread_ref : ThreadRef)
| RespondToRequest (request_ref : RequestRef) (response : RequestResponse).

(** [gateway/routing/operations.py:66-70] _GatewayOperation *)
Record GatewayOperation := {
  go_operation_id : pystr;
  go_conversation_ref : ConversationRef;
  go_actor : pystr;
  go_created_at : datetime;
  go_request : gateway_request;
}.

Definition go_type (operation : GatewayOperation) : GatewayOperationType :=
  match go_request operation with
  | ListApplications => APPLICATION_LIST
  | SelectApplication _ _ => APPLICATION_SELECT
  | BindConversationToProject _ _ => CONVERSATION_BIND_PROJECT
  | BindConversationToThread _ _ => CONVERSATION_BIND_THREAD
  | ClearConversationThread _ => CONVERSATION_CLEAR_THREAD
  | ClearConversationProject _ => CONVERSATION_CLEAR_PROJECT
  | ClearConversationApplication _ => CONVERSATION_CLEAR_APPLICATION
  | ObserveThread _ _ => THREAD_OBSERVE
  | ClearThreadObservation _ => THREAD_CLEAR_OBSERVATION
  | RespondToRequest _ _ => CONVERSATION_RESPOND_REQUEST
  end.
(** [getattr(operation, "expected_generation", None)] *)
Definition go_expected_generation (operation : GatewayOperation) : option Z :=
  match go_request operation with
  | SelectApplication _ expected | BindConversationToProject _ expected | BindConversationToThread _ expected
  | ClearConversationThread expected | ClearConversationProject expected
  | ClearConversationApplication expected => expected
  | _ => None
  end.

(** [gateway/routing/operations.py:144-151] GatewayOperationResult *)
Inductive GatewayOperationResult : Type :=
| ApplicationsListed (operation_id : pystr) (completed_at : datetime) (applications : list ApplicationSummary)
| ConversationBound (operation_id : pystr) (completed_at : datetime) (type : GatewayOperationType)
    (binding : ConversationBinding)
| ThreadObserved (operation_id : pystr) (completed_at : datetime) (route : ThreadProjectionRoute)
| ThreadObservationCleared (operation_id : pystr) (completed_at : datetime) (thread_ref : ThreadRef)
| RequestResponseRouted (operation_id : pystr) (completed_at : datetime) (request_ref : RequestRef)
| GatewayOperationFailed (operation_id : pystr) (type : GatewayOperationType) (error : ContractError)
    (completed_at : datetime).

Definition gr_operation_id (result : GatewayOperationResult) : pystr :=
  match result with
  | ApplicationsListed i _ _ | ConversationBound i _ _ _ | ThreadObserved i _ _ | ThreadObservationCleared i _ _
  | RequestResponseRouted i _ _ | GatewayOperationFailed i _ _ _ => i
  end.
Definition gr_type (result : GatewayOperationResult) : GatewayOperationType :=
  match result with
  | ApplicationsListed _ _ _ => APPLICATION_LIST
  | ConversationBound _ _ type _ | GatewayOperationFailed _ type _ _ => type
  | ThreadObserved _ _ _ => THREAD_OBSERVE
  | ThreadObservationCleared _ _ _ => THREAD_CLEAR_OBSERVATION
  | RequestResponseRouted _ _ _ => CONVERSATION_RESPOND_REQUEST
  end.

(** * Validation *)

(** [gateway/routing/bindings.py:268-277] _validate_binding_operation *)
Definition _validate_binding_operation (request : gateway_request) : res unit :=
  match request with
  | BindConversationToProject project_ref _ =>
      require_identifier (pr_application_instance_id project_ref) "application_instance_id" ;;
      require_identifier (pr_project_id project_ref) "project_id"
  | BindConversationToThread thread_ref _ => validate_thread_ref thread_ref
  | _ => Ok ()
  end.

(** [gateway/routing/projection_routes.py:104-107] _validate_observe_operation *)
Definition _validate_observe_operation (request : gateway_request) : res unit :=
  match request with
  | ObserveThread thread_ref reply_to_message_id =>
      validate_thread_ref thread_ref ;;
      when_some reply_to_message_id (λ i, require_identifier i "reply_to_message_id")
  | ClearThreadObservation thread_ref => validate_thread_ref thread_ref
  | _ => Ok ()
  end.

(** [gateway/projection/request_correlation.py:128-130] _validate_respond_operation *)
Definition _validate_respond_operation (request_ref : RequestRef) (response : RequestResponse) : res unit :=
  validate_request_ref request_ref ;; validate_request_response_admission response.

(** [gateway/routing/operations.py:317-355] validate_gateway_operation *)
Definition validate_gateway_operation (operation : GatewayOperation) : res unit :=
  require_identifier (go_operation_id operation) "operation_id" ;;
  require_identifier (go_actor operation) "actor" ;;
  require_identifier (cv_channel_instance_id (go_conversation_ref operation)) "channel_instance_id" ;;
  require_identifier (cv_native_conversation_id (go_conversation_ref operation)) "native_conversation_id" ;;
  when_some (go_expected_generation operation) (λ expected_generation,
    raise_if (expected_generation < 0) (ContractViolation "expected_generation cannot be negative")) ;;
  match go_request operation with
  | SelectApplication application_ref _ =>
      require_identifier (ar_application_instance_id application_ref) "application_instance_id"
  | ObserveThread _ _ | ClearThreadObservation _ => _validate_observe_operation (go_request operation)
  | RespondToRequest request_ref response => _validate_respond_operation request_ref response
  | request => _validate_binding_operation request
  end.

(** [gateway/routing/operations.py:49-49] _MAX_APPLICATION_LIST_ITEMS *)
Definition _MAX_APPLICATION_LIST_ITEMS : Z := 1000.

(** [gateway/routing/operations.py:420-441] _validate_application_selection_result *)
Definition _validate_application_selection_result (conversation_ref : ConversationRef)
    (application_ref : ApplicationRef) (result : GatewayOperationResult) : res unit :=
  match result with
  | ConversationBound _ _ _ binding =>
      raise_if (cb_conversation_ref binding ≠ conversation_ref)
        (ContractViolation "Gateway result belongs to a different Conversation") ;;
      validate_binding binding ;;
      raise_if (cb_application_ref binding ≠ Some application_ref ∨ cb_project_ref binding ≠ None
                ∨ cb_thread_ref binding ≠ None)
        (ContractViolation "application.select returned an incompatible binding")
  | _ => Err (ContractViolation "application.select must return ConversationBound")
  end.

(** [gateway/routing/bindings.py:280-320] _validate_binding_operation_result *)
Definition _validate_binding_operation_result (operation : GatewayOperation) (result : GatewayOperationResult)
    : res unit :=
  match result with
  | ConversationBound _ _ _ binding =>
      raise_if (cb_conversation_ref binding ≠ go_conversation_ref operation)
        (ContractViolation "Gateway result belongs to a different Conversation") ;;
      validate_binding binding ;;
      match go_request operation with
      | BindConversationToProject project_ref _ =>
          raise_if (cb_project_ref binding ≠ Some project_ref ∨ cb_thread_ref binding ≠ None)
            (ContractViolation "conversation.bind_project returned an incompatible binding")
      | BindConversationToThread thread_ref _ =>
          raise_if (cb_thread_ref binding ≠ Some thread_ref)
            (ContractViolation "conversation.bind_thread returned a different thread")
      | ClearConversationProject _ =>
          raise_if (cb_application_ref binding = None ∨ cb_project_ref binding ≠ None
                    ∨ cb_thread_ref binding ≠ None)
            (ContractViolation "conversation.clear_project returned an incompatible binding")
      | ClearConversationApplication _ =>
          raise_if (cb_application_ref binding ≠ None ∨ cb_project_ref binding ≠ None
                    ∨ cb_thread_ref binding ≠ None)
            (ContractViolation "conversation.clear_application returned an incompatible binding")
      | _ =>
          raise_if (cb_thread_ref binding ≠ None)
            (ContractViolation "conversation.clear_thread did not clear the thread")
      end
  | _ => Err (ContractViolation (gateway_operation_type_value (go_type operation) +:+ " must return ConversationBound"))
  end.

(** [gateway/routing/projection_routes.py:110-129] _validate_observe_operation_result *)
Definition _validate_observe_operation_result (operation : GatewayOperation) (result : GatewayOperationResult)
    : res unit :=
  match go_request operation with
  | ClearThreadObservation thread_ref =>
      match result with
      | ThreadObservationCleared _ _ cleared =>
          validate_thread_ref cleared ;;
          raise_if (cleared ≠ thread_ref)
            (ContractViolation "thread.clear_observation returned a different Thread")
      | _ => Err (ContractViolation "thread.clear_observation must return ThreadObservationCleared")
      end
  | ObserveThread thread_ref reply_to_message_id =>
      match result with
      | ThreadObserved _ _ route =>
          validate_projection_route route ;;
          raise_if (tr_thread_ref route ≠ thread_ref)
            (ContractViolation "thread.observe returned a different Thread") ;;
          raise_if (tr_conversation_ref route ≠ go_conversation_ref operation)
            (ContractViolation "thread.observe returned a different Conversation") ;;
          raise_if (tr_reply_to_message_id route ≠ reply_to_message_id)
            (ContractViolation "thread.observe returned different reply correlation")
      | _ => Err (ContractViolation "thread.observe must return ThreadObserved")
      end
  | _ => Ok ()
  end.

(** [gateway/projection/request_correlation.py:133-140] _validate_respond_operation_result *)
Definition _validate_respond_operation_result (request_ref : RequestRef) (result : GatewayOperationResult)
    : res unit :=
  match result with
  | RequestResponseRouted _ _ routed =>
      raise_if (routed ≠ request_ref) (ContractViolation "Gateway response routed a different request")
  | _ => Err (ContractViolation "conversation.respond_request must return RequestResponseRouted")
  end.

(** [gateway/routing/operations.py:364-417] validate_gateway_operation_result *)
Definition validate_gateway_operation_result (operation : GatewayOperation) (result : GatewayOperationResult)
    : res unit :=
  require_identifier (gr_operation_id result) "operation_id" ;;
  raise_if (gr_operation_id result ≠ go_operation_id operation)
    (ContractViolation "Gateway result ID does not match the request") ;;
  raise_if (gr_type result ≠ go_type operation)
    (ContractViolation "Gateway result type does not match the request") ;;
  match result with
  | GatewayOperationFailed _ _ error _ => _validate_error error
  | _ =>
      match go_request operation with
      | ListApplications =>
          match result with
          | ApplicationsListed _ _ applications =>
              raise_if (_MAX_APPLICATION_LIST_ITEMS < len applications)
                (ContractViolation "application.list returned more than 1000 applications") ;;
              for_each applications validate_application_summary
          | _ => Err (ContractViolation "application.list must return ApplicationsListed")
          end
      | SelectApplication application_ref _ =>
          _validate_application_selection_result (go_conversation_ref operation) application_ref result
      | ObserveThread _ _ | ClearThreadObservation _ => _validate_observe_operation_result operation result
      | RespondToRequest request_ref _ => _validate_respond_operation_result request_ref result
      | _ => _validate_binding_operation_result operation result
      end
  end.

(** * What is awaited *)

Inductive routing_event : Type → Type :=
(* the lock of the Conversation of an operation, [async with hold(conversation_ref)] *)
| HoldConversationOf (operation : GatewayOperation) : routing_event unit
| LeaveConversationOf (operation : GatewayOperation) : routing_event unit
(* the repository of bindings *)
| GetBinding (conversation_ref : ConversationRef) : routing_event (option ConversationBinding)
| PutBinding (binding : ConversationBinding) (expected_generation : option Z) : routing_event ConversationBinding
(* an Application, the clock *)
| RunApplication (operation : ApplicationOperation) : routing_event ApplicationOperationResult
| ReadClock : routing_event datetime
(* the runtime of projections: the route whose barrier is released is told by its ID *)
| HandleBindingChange (previous : option ConversationBinding) (current : ConversationBinding)
    (require_checkpoint : bool) : routing_event unit
| PrepareForegroundBindingRoute (thread_ref : ThreadRef) (conversation_ref : ConversationRef)
    : routing_event (ThreadProjectionRoute * bool)
| CompleteForegroundBindingRoute (route : ThreadProjectionRoute) (complete_bootstrap : bool) : routing_event unit
| ObserveRoute (thread_ref : ThreadRef) (conversation_ref : ConversationRef)
    (reply_to_message_id : option pystr) : routing_event ThreadProjectionRoute
(* the runtime of requests *)
| RouteResponse (operation : GatewayOperation) (completed_at : datetime) : routing_event GatewayOperationResult
(* the caller takes what it was answered *)
| TakeAnswer (operation : GatewayOperation) (answer : res GatewayOperationResult) : routing_event unit.

Abbreviation nprog := (prog unit routing_event).

(** * Bindings *)

(** [gateway/routing/bindings.py:27-29] _BindingChange *)
Record _BindingChange := {
  bc_previous : option ConversationBinding;
  bc_binding : ConversationBinding;
}.

(** [gateway/routing/bindings.py:33-37] _PreparedThreadBinding *)
Record _PreparedThreadBinding := {
  pb_previous : option ConversationBinding;
  pb_desired : ConversationBinding;
  pb_expected_generation : option Z;
  pb_converge_without_write : bool;
}.

(** [ConversationBinding(conversation_ref=.., application_ref=.., ..)] with the defaults. *)
Definition binding_to (conversation_ref : ConversationRef) (application_ref : option ApplicationRef)
    (project_ref : option ProjectRef) (thread_ref : option ThreadRef) : ConversationBinding := {|
  cb_conversation_ref := conversation_ref; cb_application_ref := application_ref; cb_project_ref := project_ref;
  cb_thread_ref := thread_ref; cb_generation := 0; cb_updated_at := None |}.

(** [gateway/routing/bindings.py:189-198] _has_same_target *)
Definition _has_same_target (current : option ConversationBinding) (desired : ConversationBinding) : bool :=
  match current with
  | Some current => bool_decide (cb_application_ref current = cb_application_ref desired
      ∧ cb_project_ref current = cb_project_ref desired ∧ cb_thread_ref current = cb_thread_ref desired)
  | None => false
  end.

(** [gateway/routing/bindings.py:46-50] _BindingRuntime.current *)
Definition current (conversation_ref : ConversationRef) : nprog (option ConversationBinding) :=
  await (GetBinding conversation_ref).

(** [gateway/routing/bindings.py:175-186] _BindingRuntime._replace *)
Definition _replace (desired : ConversationBinding) (expected_generation : option Z) : nprog _BindingChange :=
  previous ← await (GetBinding (cb_conversation_ref desired)) ;
  binding ← await (PutBinding desired expected_generation) ;
  mret {| bc_previous := previous; bc_binding := binding |}.

(** [gateway/routing/bindings.py:52-65] _BindingRuntime.select_application *)
Definition select_application (conversation_ref : ConversationRef) (application_ref : ApplicationRef)
    (expected_generation : option Z) : nprog _BindingChange :=
  _replace (binding_to conversation_ref (Some application_ref) None None) expected_generation.

(** [gateway/routing/bindings.py:67-82] _BindingRuntime.bind_project *)
Definition bind_project (conversation_ref : ConversationRef) (application_ref : ApplicationRef)
    (project_ref : ProjectRef) (expected_generation : option Z) : nprog _BindingChange :=
  _replace (binding_to conversation_ref (Some application_ref) (Some project_ref) None) expected_generation.

(** [gateway/routing/bindings.py:84-118] _BindingRuntime.prepare_thread_binding *)
Definition prepare_thread_binding (conversation_ref : ConversationRef) (application_ref : ApplicationRef)
    (thread_ref : ThreadRef) (expected_generation : option Z) (converge_same_target : bool)
    : nprog _PreparedThreadBinding :=
  previous ← await (GetBinding conversation_ref) ;
  let desired := binding_to conversation_ref (Some application_ref) (Some (th_project_ref thread_ref)) (Some thread_ref) in
  let converge_without_write := converge_same_target && _has_same_target previous desired in
  (match previous with
   | Some p => raise_if (converge_without_write = true ∧ expected_generation ∉
       [None; Some (cb_generation p); Some (cb_generation p - 1)]) BindingConflict
   | None => mret ()
   end) ;;
  mret {| pb_previous := previous; pb_desired := desired; pb_expected_generation := expected_generation;
          pb_converge_without_write := converge_without_write |}.

(** [gateway/routing/bindings.py:120-133] _BindingRuntime.commit_thread_binding *)
Definition commit_thread_binding (prepared : _PreparedThreadBinding) : nprog _BindingChange :=
  if pb_converge_without_write prepared then
    match pb_previous prepared with
    | None => mraise RuntimeError
    | Some previous => mret {| bc_previous := Some previous; bc_binding := previous |}
    end
  else
    binding ← await (PutBinding (pb_desired prepared) (pb_expected_generation prepared)) ;
    mret {| bc_previous := pb_previous prepared; bc_binding := binding |}.

(** [gateway/routing/bindings.py:135-154] _BindingRuntime.binding_write_may_have_committed *)
Definition binding_write_may_have_committed (prepared : _PreparedThreadBinding) : nprog bool :=
  current ← try (await (GetBinding (cb_conversation_ref (pb_desired prepared)))) ;
  match current with
  | Err _ => mret true
  | Ok current => mret (_has_same_target current (pb_desired prepared))
  end.

(** [gateway/routing/bindings.py:156-173] _BindingRuntime.clear_thread *)
Definition clear_thread (conversation_ref : ConversationRef) (expected_generation : option Z) : nprog _BindingChange :=
  current ← await (GetBinding conversation_ref) ;
  match current with
  | None => mraise ValueError
  | Some current =>
      binding ← await (PutBinding (binding_to (cb_conversation_ref current) (cb_application_ref current)
        (cb_project_ref current) None) expected_generation) ;
      mret {| bc_previous := Some current; bc_binding := binding |}
  end.

(** * The delegates *)

(** [gateway/routing/projection_routes.py:26-29] ProjectionPolicy *)
Inductive ProjectionPolicy : Type := FOREGROUND_ONLY | REMEMBERED_LAST_RECIPIENT | ALL_OBSERVERS.
#[export] Instance ProjectionPolicy_eq_dec : EqDecision ProjectionPolicy.
Proof. solve_decision. Defined.

Section delegates.
(** [str(error)] and [float.__repr__]; the Applications by ID, and the policy. *)
Context (error_text : exn → pystr) (float_repr : Qcanon.Qc → pystr).
Context (applications : dict pystr ApplicationSummary) (projection_policy : ProjectionPolicy).

(** [gateway/orchestration.py:1436-1445] _GatewayRuntime._require_application *)
Definition _require_application (application_instance_id : pystr) : nprog ApplicationSummary :=
  match d_get applications application_instance_id with
  | Some application => mret application
  | None => mraise KeyError
  end.

(** [gateway/orchestration.py:697-713] _GatewayRuntime.execute_application *)
Definition execute_application (operation : ApplicationOperation) : nprog ApplicationOperationResult :=
  match ao_request operation with
  | DeleteProject _ =>
      now ← await ReadClock ;
      mret (ApplicationOperationFailed (ao_operation_id operation) (ao_type operation)
        (_contract_error error_text NotImplementedError) now)
  | _ => _execute_scoped_application error_text float_repr (λ operation, await (RunApplication operation))
           (await ReadClock) applications operation
  end.

(** [raise _GatewayActionError(error)] *)
Definition action_error (error : ContractError) : exn :=
  GatewayActionError (ce_code error) (ce_message error) (ce_retryable error).

(** [gateway/orchestration.py:849-860] _GatewayRuntime._bind_conversation_to_project: the
    reading of a resource of the Application, as what it is read *)
Definition read_resource {A} (operation : GatewayOperation) (suffix : string) (application : ApplicationSummary)
    (request : operation_request) (resource : operation_answer → option A) : nprog A :=
  read ← execute_application {|
    ao_operation_id := go_operation_id operation ++ py suffix;
    ao_application_ref := as_ref application;
    ao_created_at := go_created_at operation;
    ao_request := request |} ;
  match read with
  | ApplicationOperationFailed _ _ error _ => mraise (action_error error)
  | ApplicationOperationSucceeded _ _ answer =>
      match resource answer with Some a => mret a | None => mraise RuntimeError end
  end.
Definition read_thread (operation : GatewayOperation) (application : ApplicationSummary) (thread_ref : ThreadRef)
    : nprog ThreadSummary :=
  read_resource operation ":validate-thread" application (GetThread thread_ref)
    (λ answer, match answer with ThreadRead thread => Some thread | _ => None end).

(** [ConversationBound(operation_id=operation.operation_id, type=operation.type, ..)] *)
Definition bound (operation : GatewayOperation) (completed_at : datetime) (binding : ConversationBinding)
    : GatewayOperationResult :=
  ConversationBound (go_operation_id operation) completed_at (go_type operation) binding.

(** [gateway/orchestration.py:817-838] _GatewayRuntime._select_application *)
Definition _select_application (operation : GatewayOperation) (completed_at : datetime)
    (application_ref : ApplicationRef) (expected_generation : option Z) : nprog GatewayOperationResult :=
  _require_application (ar_application_instance_id application_ref) ;;
  change ← select_application (go_conversation_ref operation) application_ref expected_generation ;
  await (HandleBindingChange (bc_previous change) (bc_binding change) true) ;;
  mret (bound operation completed_at (bc_binding change)).

(** [gateway/orchestration.py:840-876] _GatewayRuntime._bind_conversation_to_project *)
Definition _bind_conversation_to_project (operation : GatewayOperation) (completed_at : datetime)
    (project_ref : ProjectRef) (expected_generation : option Z) : nprog GatewayOperationResult :=
  application ← _require_application (pr_application_instance_id project_ref) ;
  project ← read_resource operation ":validate-project" application (GetProject project_ref)
    (λ answer, match answer with ProjectRead project => Some project | _ => None end) ;
  change ← bind_project (go_conversation_ref operation) (as_ref application) (ps_ref project) expected_generation ;
  await (HandleBindingChange (bc_previous change) (bc_binding change) true) ;;
  mret (bound operation completed_at (bc_binding change)).

(** [gateway/orchestration.py:919-957] _GatewayRuntime._bind_conversation_to_thread: between
    the preparation of the route and its completion, with [retain_prepared_barrier] *)
Definition bind_prepared (operation : GatewayOperation) (completed_at : datetime) (prepared : _PreparedThreadBinding)
    (require_checkpoint : bool) : nprog (res GatewayOperationResult * bool) :=
  committed ← try (commit_thread_binding prepared) ;
  match committed with
  | Ok change =>
      let previous := if pb_converge_without_write prepared then None else bc_previous change in
      handled ← try (await (HandleBindingChange previous (bc_binding change) require_checkpoint)) ;
      mret (match handled with Ok _ => Ok (bound operation completed_at (bc_binding change)) | Err e => Err e end, true)
  | Err e =>
      if pb_converge_without_write prepared then mret (Err e, false)
      else
        retain_prepared_barrier ← binding_write_may_have_committed prepared ;
        mret (Err e, retain_prepared_barrier)
  end.

(** [gateway/orchestration.py:878-975] _GatewayRuntime._bind_conversation_to_thread *)
Definition _bind_conversation_to_thread (operation : GatewayOperation) (completed_at : datetime)
    (thread_ref : ThreadRef) (expected_generation : option Z) : nprog GatewayOperationResult :=
  application ← _require_application (pr_application_instance_id (th_project_ref thread_ref)) ;
  thread ← read_thread operation application thread_ref ;
  let foreground_only := bool_decide (projection_policy = FOREGROUND_ONLY) in
  prepared_binding ← prepare_thread_binding (go_conversation_ref operation) (as_ref application) (ts_ref thread)
    expected_generation foreground_only ;
  if foreground_only then
    '(prepared_route, route_was_created) ←
      await (PrepareForegroundBindingRoute (ts_ref thread) (go_conversation_ref operation)) ;
    '(result, retain_prepared_barrier) ← bind_prepared operation completed_at prepared_binding (negb route_was_created) ;
    await (CompleteForegroundBindingRoute prepared_route (negb retain_prepared_barrier)) ;;
    returns result
  else
    change ← commit_thread_binding prepared_binding ;
    await (HandleBindingChange (bc_previous change) (bc_binding change) true) ;;
    mret (bound operation completed_at (bc_binding change)).

(** [gateway/orchestration.py:977-996] _GatewayRuntime._clear_conversation_thread *)
Definition _clear_conversation_thread (operation : GatewayOperation) (completed_at : datetime)
    (expected_generation : option Z) : nprog GatewayOperationResult :=
  change ← clear_thread (go_conversation_ref operation) expected_generation ;
  await (HandleBindingChange (bc_previous change) (bc_binding change) true) ;;
  mret (bound operation completed_at (bc_binding change)).

(** [gateway/orchestration.py:998-1031] _GatewayRuntime._observe_thread *)
Definition _observe_thread (operation : GatewayOperation) (completed_at : datetime) (thread_ref : ThreadRef)
    (reply_to_message_id : option pystr) : nprog GatewayOperationResult :=
  application ← _require_application (pr_application_instance_id (th_project_ref thread_ref)) ;
  thread ← read_thread operation application thread_ref ;
  route ← await (ObserveRoute (ts_ref thread) (go_conversation_ref operation) reply_to_message_id) ;
  mret (ThreadObserved (go_operation_id operation) completed_at route).

(** * Execution *)

(** [gateway/routing/operations.py:502-546] _GatewayOperationRuntime._dispatch *)
Definition _dispatch (operation : GatewayOperation) : nprog GatewayOperationResult :=
  completed_at ← await ReadClock ;
  match go_request operation with
  | ListApplications => mret (ApplicationsListed (go_operation_id operation) completed_at (d_values applications))
  | SelectApplication application_ref expected => _select_application operation completed_at application_ref expected
  | BindConversationToProject project_ref expected =>
      _bind_conversation_to_project operation completed_at project_ref expected
  | BindConversationToThread thread_ref expected =>
      _bind_conversation_to_thread operation completed_at thread_ref expected
  | ClearConversationThread expected => _clear_conversation_thread operation completed_at expected
  | ObserveThread thread_ref reply_to_message_id =>
      _observe_thread operation completed_at thread_ref reply_to_message_id
  | RespondToRequest _ _ => await (RouteResponse operation completed_at)
  | _ => mraise NotImplementedError
  end.

Definition failed (operation : GatewayOperation) (error : ContractError) : nprog GatewayOperationResult :=
  now ← await ReadClock ;
  mret (GatewayOperationFailed (go_operation_id operation) (go_type operation) error now).

(** [gateway/routing/operations.py:482-500] _GatewayOperationRuntime.execute_locked *)
Definition execute_locked (operation : GatewayOperation) : nprog GatewayOperationResult :=
  r ← try (
    returns (validate_gateway_operation operation) ;;
    result ← _dispatch operation ;
    returns (validate_gateway_operation_result operation result) ;;
    mret result) ;
  match r with
  | Ok result => mret result
  | Err (GatewayActionError code message retryable) =>
      failed operation {| ce_code := code; ce_message := message; ce_retryable := retryable |}
  | Err e => if is_exception e then failed operation (_contract_error error_text e) else mraise e
  end.

(** [gateway/routing/operations.py:470-480] _GatewayOperationRuntime.execute *)
Definition execute (operation : GatewayOperation) : nprog GatewayOperationResult :=
  r ← try (
    await (HoldConversationOf operation) ;;
    r ← try (execute_locked operation) ;
    await (LeaveConversationOf operation) ;;
    returns r) ;
  match r with
  | Err KeyedLockCapacityError => failed operation (_contract_error error_text KeyedLockCapacityError)
  | r => returns r
  end.
End delegates.
