(* ===== verification/RoutingLoop.v ===== *)
(** Operations on Conversations at work: tasks that execute them in any order, interleaved
    and cancelled, among others that bind the Conversations whose lock they hold.  What an
    operation may rely on between two of its awaits, as a token of its Conversation. *)

From S2P Require Export Routing.
From stdpp Require Import gmap.
From stdpp Require Import list.
#[local] Open Scope Z_scope.
#[local] Open Scope stdpp_scope.

#[export] Instance ConversationRef_countable : Countable ConversationRef.
Proof.
  apply (inj_countable' (λ c, (cv_channel_instance_id c, cv_native_conversation_id c))
    (λ p, {| cv_channel_instance_id := p.1; cv_native_conversation_id := p.2 |})). by intros [].
Defined.

(** * The world *)

(** What a Conversation is bound to, and at what generation. *)
Record view := { vw_binding : option ConversationBinding; vw_generation : Z }.
Definition view_of (s : BindingRepository) (conversation_ref : ConversationRef) : view := {|
  vw_binding := d_get (br_bindings s) conversation_ref;
  vw_generation := current_generation s conversation_ref |}.

(** What became of an operation: under its lock, the view it began with and the one it ended
    with; or nothing, when it did not get the lock. *)
Record session := { ss_operation : GatewayOperation; ss_views : option (view * view) }.

(** The locks in use, each with the view its holder found; what became of operations; the
    barriers that were opened, each with the view at that time; the answers taken. *)
Record routing_world := {
  nw_bindings : BindingRepository;
  nw_locks : gmap ConversationRef view;
  nw_sessions : list session;
  nw_opened : list (ThreadProjectionRoute * view);
  nw_answers : list (GatewayOperation * res GatewayOperationResult);
}.
Definition at_bindings s (w : routing_world) : routing_world := {| nw_bindings := s; nw_locks := nw_locks w;
  nw_sessions := nw_sessions w; nw_opened := nw_opened w; nw_answers := nw_answers w |}.
Definition on_lock_table l (w : routing_world) : routing_world := {| nw_bindings := nw_bindings w; nw_locks := l;
  nw_sessions := nw_sessions w; nw_opened := nw_opened w; nw_answers := nw_answers w |}.
Definition on_sessions l (w : routing_world) : routing_world := {| nw_bindings := nw_bindings w; nw_locks := nw_locks w;
  nw_sessions := l; nw_opened := nw_opened w; nw_answers := nw_answers w |}.
Definition on_opened l (w : routing_world) : routing_world := {| nw_bindings := nw_bindings w; nw_locks := nw_locks w;
  nw_sessions := nw_sessions w; nw_opened := l; nw_answers := nw_answers w |}.
Definition on_answers l (w : routing_world) : routing_world := {| nw_bindings := nw_bindings w; nw_locks := nw_locks w;
  nw_sessions := nw_sessions w; nw_opened := nw_opened w; nw_answers := l |}.
Definition view_in (w : routing_world) : ConversationRef → view := view_of (nw_bindings w).

Definition routing_perform (X : Type) (e : routing_event X) : routing_world → res X → routing_world → Prop :=
  match e with
  (* a lock nobody holds is taken, or the registry is full, or the wait is cancelled *)
  | HoldConversationOf operation => λ w r w',
      nw_locks w !! go_conversation_ref operation = None ∧ r = Ok () ∧
        w' = on_lock_table (<[go_conversation_ref operation := view_in w (go_conversation_ref operation)]> (nw_locks w)) w
      ∨ (r = Err KeyedLockCapacityError ∨ r = Err CancelledError) ∧
        w' = on_sessions (nw_sessions w ++ [{| ss_operation := operation; ss_views := None |}]) w
  | LeaveConversationOf operation => λ w r w', r = Ok () ∧ w' = match nw_locks w !! go_conversation_ref operation with
      | Some before => on_lock_table (delete (go_conversation_ref operation) (nw_locks w)) (on_sessions (nw_sessions w ++ [{|
          ss_operation := operation; ss_views := Some (before, view_in w (go_conversation_ref operation)) |}]) w)
      | None => w
      end
  (* the repository answers, or raises; a write that raises may have been made *)
  | GetBinding c => λ w r w', w' = w ∧ (r = Ok (vw_binding (view_in w c)) ∨ ∃ e, r = Err e)
  | PutBinding b expected => λ w r w', ∃ now,
      let '(r0, s) := put_binding now b expected (nw_bindings w) in
      r = r0 ∧ w' = at_bindings s w ∨ ∃ e, r = Err e ∧ (w' = w ∨ w' = at_bindings s w)
  | ReadClock => λ w r w', w' = w ∧ is_ok r = true
  (* a route is prepared for its Thread and Conversation *)
  | PrepareForegroundBindingRoute thread_ref conversation_ref => λ w r w', w' = w ∧
      ∀ route created, r = Ok (route, created) →
        tr_thread_ref route = thread_ref ∧ tr_conversation_ref route = conversation_ref
  | CompleteForegroundBindingRoute route complete_bootstrap => λ w r w',
      w' = if complete_bootstrap
           then on_opened (nw_opened w ++ [(route, view_in w (tr_conversation_ref route))]) w else w
  | TakeAnswer operation answer => λ w r w', r = Ok () ∧ w' = on_answers (nw_answers w ++ [(operation, answer)]) w
  (* what other owners do does not touch bindings *)
  | RunApplication _ | HandleBindingChange _ _ _ | ObserveRoute _ _ _ | RouteResponse _ _ => λ w r w', w' = w
  end.

Definition routing_immediate (X : Type) (e : routing_event X) : bool :=
  match e with
  | HoldConversationOf _ | LeaveConversationOf _ | ReadClock | CompleteForegroundBindingRoute _ _ | TakeAnswer _ _ => true
  | _ => false
  end.

(** Others put and delete the bindings of Conversations whose lock nobody of these tasks
    holds: they hold it themselves. *)
Definition routing_others (w w' : routing_world) : Prop :=
  ∃ op, nw_locks w !! binding_op_target op = None ∧ w' = at_bindings (run_binding_op op (nw_bindings w)).2 w.

Section runs.
Context (error_text : exn → pystr) (float_repr : Qcanon.Qc → pystr).
Context (applications : dict pystr ApplicationSummary) (policy : ProjectionPolicy).

(** A caller executes an operation and takes the answer. *)
Definition execution (operation : GatewayOperation) : nprog unit :=
  answer ← try (execute error_text float_repr applications policy operation) ;
  await (TakeAnswer operation answer).

Definition routing_step : relation (loop (S := unit) (W := routing_world) (E := routing_event)) :=
  loop_step routing_perform routing_immediate routing_others (λ p, ∃ operation, p = execution operation) (λ _, False).
Definition new_routing_world (s : BindingRepository) : routing_world :=
  {| nw_bindings := s; nw_locks := ∅; nw_sessions := []; nw_opened := []; nw_answers := [] |}.
Definition routing_runs (s : BindingRepository) (q : loop (S := unit) (W := routing_world) (E := routing_event)) : Prop :=
  rtc routing_step {| lp_memory := (); lp_world := new_routing_world s; lp_tasks := [] |} q.
End runs.

(** * What an operation may do *)

(** The binding an operation asks for, in place of the one there was. *)
Definition asked (operation : GatewayOperation) (before : view) (b : ConversationBinding) : Prop :=
  cb_conversation_ref b = go_conversation_ref operation ∧
  match go_request operation with
  | SelectApplication application_ref _ =>
      cb_application_ref b = Some application_ref ∧ cb_project_ref b = None ∧ cb_thread_ref b = None
  | BindConversationToProject project_ref _ => cb_project_ref b = Some project_ref ∧ cb_thread_ref b = None
  | BindConversationToThread thread_ref _ => cb_thread_ref b = Some thread_ref
  | ClearConversationThread _ => ∃ previous, vw_binding before = Some previous ∧
      cb_application_ref b = cb_application_ref previous ∧ cb_project_ref b = cb_project_ref previous ∧
      cb_thread_ref b = None
  | _ => False
  end.

(** It was written, at the generation expected. *)
Definition written (operation : GatewayOperation) (before after : view) : Prop :=
  ∃ b, vw_binding after = Some b ∧ asked operation before b ∧
    vw_generation after = vw_generation before + 1 ∧ cb_generation b = vw_generation after ∧
    (go_expected_generation operation = None ∨ go_expected_generation operation = Some (vw_generation before)).

(** It was there already: an operation that was repeated. *)
Definition repeated (operation : GatewayOperation) (before : view) : Prop :=
  (∃ thread_ref expected, go_request operation = BindConversationToThread thread_ref expected) ∧
  go_expected_generation operation ∈ [None; Some (vw_generation before); Some (vw_generation before - 1)].

(** The answer tells what was done. *)
Definition answered (operation : GatewayOperation) (before after : view) (answer : res GatewayOperationResult) : Prop :=
  match answer with
  | Ok (ConversationBound _ _ _ b) =>
      vw_binding after = Some b ∧ asked operation before b ∧
      (written operation before after ∨ after = before ∧ repeated operation before)
  | Ok (GatewayOperationFailed _ _ _ _) | Err _ => after = before ∨ written operation before after
  | Ok _ => after = before
  end.

(** The lock was not had. *)
Definition refused (answer : res GatewayOperationResult) : Prop :=
  match answer with
  | Err e => e = CancelledError
  | Ok (GatewayOperationFailed _ _ error _) => ce_code error = py "capacity_exhausted"
  | Ok _ => False
  end.

(** It is an answer to the operation, or the exit of the task. *)
Definition answers_operation (operation : GatewayOperation) (answer : res GatewayOperationResult) : Prop :=
  match answer with
  | Ok result => gr_operation_id result = go_operation_id operation ∧ gr_type result = go_type operation
  | Err e => is_exception e = false
  end.

Definition answer_ok (sessions : list session) (a : GatewayOperation * res GatewayOperationResult) : Prop :=
  answers_operation a.1 a.2 ∧
  ∃ views, {| ss_operation := a.1; ss_views := views |} ∈ sessions ∧
    match views with Some (before, after) => answered a.1 before after a.2 | None => refused a.2 end.
Definition bound_to (thread_ref : ThreadRef) (v : view) : Prop :=
  ∃ b, vw_binding v = Some b ∧ cb_thread_ref b = Some thread_ref.

(** What a task has: of the Conversation whose lock it holds, the view it found and the view
    there is; and what became of an operation. *)
Abbreviation routing_tokens := (gmap (ConversationRef + nat) session).
Record routing_ok (w : routing_world) (m : routing_tokens) : Prop := {
  ro_inv : binding_inv (nw_bindings w);
  ro_tokens c s : m !! inl c = Some s → ∃ v0, nw_locks w !! c = Some v0 ∧ ss_views s = Some (v0, view_in w c);
  ro_ended n s : m !! inr n = Some s → nw_sessions w !! n = Some s;
  ro_answers a : a ∈ nw_answers w → answer_ok (nw_sessions w) a;
  ro_opened route v : (route, v) ∈ nw_opened w → ¬ bound_to (tr_thread_ref route) v;
}.

(** * Programs that hold a lock *)

(** What is stored is valid. *)
Definition view_valid (c : ConversationRef) (v : view) : Prop :=
  ∀ b, vw_binding v = Some b →
    cb_conversation_ref b = c ∧ cb_generation b = vw_generation v ∧ validate_binding b = Ok ().
Lemma view_of_valid s c : binding_inv s → view_valid c (view_of s c).
Proof. intros Hi b Hb. by apply (binding_inv_generation s c Hi). Qed.

(** A write replaces the view of its Conversation and of no other. *)
Lemma view_of_put s c b expected now stored s' :
  put_binding now b expected s = (Ok stored, s') →
  (expected = None ∨ expected = Some (current_generation s (cb_conversation_ref b))) ∧
  stored = restamp b (current_generation s (cb_conversation_ref b) + 1) now ∧
  view_of s' c = if decide (cb_conversation_ref b = c)
    then {| vw_binding := Some stored; vw_generation := cb_generation stored |} else view_of s c.
Proof.
  intros Hput. pose proof (put_binding_spec now b expected s) as Hs. unfold wp in Hs. rewrite Hput in Hs. cbn in Hs.
  destruct Hs as (_ & He & -> & ->). split; [done|]. split; [done|]. unfold view_of, current_generation; cbn.
  case_decide as Hc; [subst c; rewrite !d_get_set_eq; cbn; f_equal; lia|by rewrite !d_get_set_ne].
Qed.
Lemma put_raises s b expected now e s' : put_binding now b expected s = (Err e, s') → s' = s.
Proof.
  intros Hput. pose proof (put_binding_spec now b expected s) as Hs. unfold wp in Hs. rewrite Hput in Hs. exact Hs.
Qed.

(** Others do not change the view of a Conversation but their own. *)
Lemma view_of_op s c op : binding_inv s → binding_op_target op ≠ c → view_of (run_binding_op op s).2 c = view_of s c.
Proof.
  intros Hi Hc. pose proof (run_binding_op_spec op s Hi) as Hs. unfold wp in Hs.
  destruct (run_binding_op op s) as [[[]|e] s']; cbn in *; [|by rewrite Hs].
  destruct Hs as [[_ Ho] _]. destruct (Ho c) as [H1 H2]; [done|]. unfold view_of. by rewrite H1, H2.
Qed.

Definition runs_with {A : Type} (own : routing_tokens) (p : nprog A) (Q : routing_tokens → res A → Prop) : Prop :=
  follows routing_perform routing_immediate (λ _ : unit, ∅) (λ _, True) routing_ok own p Q.
(** The token of a lock. *)
Definition held (operation : GatewayOperation) (c : ConversationRef) (v0 v : view) : routing_tokens :=
  {[inl c := {| ss_operation := operation; ss_views := Some (v0, v) |}]}.
Definition holds {A : Type} (c : ConversationRef) (v0 v : view) (p : nprog A) (Q : res A → view → Prop) : Prop :=
  ∀ operation, runs_with (held operation c v0 v) p (λ own r, ∃ v', own = held operation c v0 v' ∧ Q r v').

Section holds.
Context (c : ConversationRef) (v0 : view).

Lemma holds_done {A} v (r : res A) Q : Q r v → holds c v0 v (Done r) Q.
Proof. intros HQ o. exists v. done. Qed.
Lemma holds_mono {A} v (p : nprog A) (P Q : res A → view → Prop) :
  holds c v0 v p P → (∀ r v', P r v' → Q r v') → holds c v0 v p Q.
Proof. intros Hp HPQ o. eapply follows_mono; [exact (Hp o)|]. intros own r (v' & -> & HP). eauto. Qed.
Lemma holds_bind {A B} v (p : nprog A) (f : A → nprog B) Q :
  holds c v0 v p (λ r v', match r with Ok a => holds c v0 v' (f a) Q | Err e => Q (Err e) v' end) →
  holds c v0 v (p ≫= f) Q.
Proof.
  intros Hp o. apply follows_bind. eapply follows_mono; [exact (Hp o)|].
  intros own [a|e] (v' & -> & HQ); [exact (HQ o)|eauto].
Qed.
Lemma holds_try {A} v (p : nprog A) Q : holds c v0 v p (λ r v', Q (Ok r) v') → holds c v0 v (try p) Q.
Proof. intros Hp o. apply follows_try. eapply follows_mono; [exact (Hp o)|]. intros own r (v' & -> & HQ). eauto. Qed.
Lemma holds_if {A} v (b : bool) (p q : nprog A) Q :
  (b = true → holds c v0 v p Q) → (b = false → holds c v0 v q Q) → holds c v0 v (if b then p else q) Q.
Proof. destruct b; auto. Qed.

(** What a token says of the world. *)
Lemma token_view o w rest v : routing_ok w (held o c v0 v ∪ rest) →
  nw_locks w !! c = Some v0 ∧ view_in w c = v ∧ view_valid c v.
Proof.
  intros Hok. destruct (ro_tokens _ _ Hok c {| ss_operation := o; ss_views := Some (v0, v) |}) as (v1 & Hl & Hv);
    [apply lookup_union_Some_l, lookup_singleton_eq|].
  injection Hv as <- ->. split_and!; [done..|]. apply view_of_valid, Hok.
Qed.

(** An operation that leaves the world as it is. *)
Lemma holds_quiet {X} v (e : routing_event X) (Q : res X → view → Prop) :
  (∀ w r w', routing_perform X e w r w' → w' = w) →
  (view_valid c v → ∀ w r, view_in w c = v → outcome routing_perform routing_immediate e w r w → Q r v) →
  holds c v0 v (await e) Q.
Proof.
  intros Hquiet HQ o w r w' rest Hd Hok Ho. destruct (token_view _ _ _ _ Hok) as (_ & Hv & Hvalid).
  assert (w' = w) as ->.
  { destruct Ho as [Hp|(_ & _ & [-> | [r0 Hp]])]; [by eapply Hquiet|done|by eapply Hquiet]. }
  exists (held o c v0 v). split_and!; [done..|]. exists v. eauto.
Qed.

(** The clock does not raise. *)
Lemma holds_clock v (Q : res datetime → view → Prop) : (∀ now, Q (Ok now) v) → holds c v0 v (await ReadClock) Q.
Proof.
  intros HQ. apply holds_quiet; [by intros w r w' [-> _]|].
  intros _ w r _ [[_ Hr]|[? _]]; [|done]. destruct r; [apply HQ|done].
Qed.

Lemma holds_get v (Q : res (option ConversationBinding) → view → Prop) :
  (view_valid c v → Q (Ok (vw_binding v)) v) → (∀ e, Q (Err e) v) → holds c v0 v (await (GetBinding c)) Q.
Proof.
  intros HQ Herr. apply holds_quiet; [by intros w r w' [-> _]|].
  intros Hvalid w r Hv [[_ [-> | [e ->]]]|(_ & -> & _)]; [rewrite Hv; auto|auto..].
Qed.

(** What a write leaves: the Conversation bound as desired, at the next generation. *)
Definition put_view (b : ConversationBinding) (now : datetime) (v : view) : view := {|
  vw_binding := Some (restamp b (vw_generation v + 1) now); vw_generation := vw_generation v + 1 |}.
Lemma holds_put v b expected (Q : res ConversationBinding → view → Prop) :
  cb_conversation_ref b = c →
  (∀ now, expected = None ∨ expected = Some (vw_generation v) → view_valid c (put_view b now v) →
    Q (Ok (restamp b (vw_generation v + 1) now)) (put_view b now v) ∧ ∀ e, Q (Err e) (put_view b now v)) →
  (∀ e, Q (Err e) v) →
  holds c v0 v (await (PutBinding b expected)) Q.
Proof.
  intros Hb Hwrite Herr o w r w' rest Hd Hok Ho. destruct (token_view _ _ _ _ Hok) as (Hl & Hv & _).
  assert (w' = w ∧ (∃ e, r = Err e) ∨ ∃ now stored s, put_binding now b expected (nw_bindings w) = (Ok stored, s) ∧
    w' = at_bindings s w ∧ (r = Ok stored ∨ ∃ e, r = Err e)) as [[-> [e ->]]|(now & stored & s & Hput & -> & Hr)].
  { assert (∀ r1 w1, routing_perform _ (PutBinding b expected) w r1 w1 → w1 = w ∧ (∃ e, r1 = Err e) ∨
      ∃ now stored s, put_binding now b expected (nw_bindings w) = (Ok stored, s) ∧ w1 = at_bindings s w ∧
        (r1 = Ok stored ∨ ∃ e, r1 = Err e)) as Hcases.
    { intros r1 w1 [now Hp]. destruct (put_binding now b expected (nw_bindings w)) as [[stored|e] s] eqn:Hput; cbn in Hp.
      - destruct Hp as [[-> ->]|(e & -> & [-> | ->])]; [right|left|right]; eauto 8.
      - apply put_raises in Hput as ->. left. destruct w; cbn in *. naive_solver. }
    destruct Ho as [Hp|(_ & -> & [-> | [r0 Hp]])]; [by apply Hcases|left; eauto|].
    destruct (Hcases _ _ Hp) as [[-> _]|(now & stored & s & ? & -> & _)]; [left; eauto|right; eauto 10]. }
  - exists (held o c v0 v). split_and!; [done..|]. exists v. auto.
  - assert (∀ c', view_of s c' = if decide (cb_conversation_ref b = c')
      then {| vw_binding := Some stored; vw_generation := cb_generation stored |} else view_of (nw_bindings w) c') as Hviews
      by (intros c'; by apply (view_of_put _ c' _ _ _ _ _ Hput)).
    destruct (view_of_put _ c _ _ _ _ _ Hput) as (He & Hstored & _).
    assert (vw_generation v = current_generation (nw_bindings w) (cb_conversation_ref b)) as Hg by by rewrite <- Hv, Hb.
    rewrite <- Hg in He, Hstored.
    assert (binding_inv s) as Hi.
    { replace s with (put_binding now b expected (nw_bindings w)).2 by by rewrite Hput.
      apply put_keeps_binding_inv, Hok. }
    assert (view_of s c = put_view b now v) as Hvs by (rewrite Hviews, decide_True, Hstored by done; done).
    exists (held o c v0 (put_view b now v)). unfold held in Hd. apply map_disjoint_singleton_l in Hd.
    split_and!.
    + unfold held. by apply map_disjoint_singleton_l.
    + split; cbn; [done| | |apply Hok|apply Hok].
      * intros c' t Hc'. destruct (decide (c' = c)) as [->|Hne].
        -- rewrite (lookup_union_Some_l _ _ _ {| ss_operation := o; ss_views := Some (v0, put_view b now v) |})
             in Hc' by apply lookup_singleton_eq.
           injection Hc' as <-. exists v0. cbn. by unfold view_in; cbn; rewrite Hvs.
        -- rewrite lookup_union_r in Hc' by (apply lookup_singleton_ne; congruence).
           destruct (ro_tokens _ _ Hok c' t) as (v1 & ? & Hv2); [by rewrite lookup_union_r by (apply lookup_singleton_ne; congruence)|].
           exists v1. split; [done|]. unfold view_in. cbn. rewrite Hviews, decide_False by congruence. exact Hv2.
      * intros n t Hn. apply (ro_ended _ _ Hok). by rewrite lookup_union_r in Hn |- * by by apply lookup_singleton_ne.
    + exists (put_view b now v). split; [done|]. destruct (Hwrite now He) as [H1 H2].
      { rewrite <- Hvs. by apply view_of_valid. }
      destruct Hr as [-> | [e ->]]; [by rewrite Hstored|done].
Qed.

(** A barrier is opened when the Conversation is not bound to its Thread. *)
Lemma holds_complete v route complete (Q : res unit → view → Prop) :
  tr_conversation_ref route = c → (complete = true → ¬ bound_to (tr_thread_ref route) v) →
  (∀ r, Q r v) → holds c v0 v (await (CompleteForegroundBindingRoute route complete)) Q.
Proof.
  intros Hc Hopen HQ o w r w' rest Hd Hok [Hp|[? _]]; [|done]. destruct (token_view _ _ _ _ Hok) as (_ & Hv & _).
  exists (held o c v0 v). split_and!; [done| |by apply holds_done]. cbn in Hp. subst w'. destruct complete; [|done].
  split; cbn; [apply Hok|apply (ro_tokens _ _ Hok)|apply (ro_ended _ _ Hok)|apply Hok|].
  intros route' v' [Hin|Hin%list_elem_of_singleton]%elem_of_app; [by apply (ro_opened _ _ Hok)|].
  injection Hin as -> ->. rewrite Hc, Hv. by apply Hopen.
Qed.
End holds.
