(* ===== verification/RoutingProperties.v ===== *)
(** What the executions of operations do to a Conversation, one delegate after the other,
    and what they promise in every run: their answers tell what was done, and a barrier is
    opened only while its Thread is not bound. *)

From S2P Require Export RoutingLoop.
From stdpp Require Import gmap.
From stdpp Require Import list.
#[local] Open Scope Z_scope.
#[local] Open Scope stdpp_scope.

Section operations.
Context (error_text : exn → pystr) (float_repr : Qcanon.Qc → pystr).
Context (applications : dict pystr ApplicationSummary) (policy : ProjectionPolicy).
(** [Gateway.__init__] registers an Application under the ID of its own reference. *)
Context (registered : ∀ key application, d_get applications key = Some application →
  ar_application_instance_id (as_ref application) = key).
Context (c : ConversationRef).

Abbreviation run := (execute_application error_text float_repr applications).

(** * Reading a resource *)

(** A program that leaves the view as it is: what it may return. *)
Definition reads {A} (p : nprog A) (P : A → Prop) : Prop :=
  ∀ v0 v Q, (∀ a, P a → Q (Ok a) v) → (∀ e, Q (Err e) v) → holds c v0 v p Q.

Lemma reads_done {A} (a : A) (P : A → Prop) : P a → reads (mret a) P.
Proof. intros HP v0 v Q HQ _. apply holds_done. auto. Qed.
Lemma reads_returns {A} (r : res A) (P : A → Prop) : (∀ a, r = Ok a → P a) → reads (returns r) P.
Proof. intros HP v0 v Q HQ He. apply holds_done. destruct r; auto. Qed.
Lemma reads_raise {A} e (P : A → Prop) : reads (mraise e) P.
Proof. intros v0 v Q _ He. apply holds_done, He. Qed.
Lemma reads_sequence {A B} (p : nprog A) (f : A → nprog B) (P : A → Prop) (R : B → Prop) :
  reads p P → (∀ a, P a → reads (f a) R) → reads (p ≫= f) R.
Proof. intros Hp Hf v0 v Q HQ He. apply holds_bind, Hp; [|auto]. intros a Ha. by apply (Hf a Ha). Qed.
Lemma reads_try {A} (p : nprog A) (P : A → Prop) :
  reads p P → reads (try p) (λ r, ∀ a, r = Ok a → P a).
Proof.
  intros Hp v0 v Q HQ _. apply holds_try, Hp; [intros a Ha|intros e]; apply HQ; naive_solver.
Qed.
Lemma reads_clock : reads (await ReadClock) (λ _, True).
Proof. intros v0 v Q HQ _. apply holds_clock. auto. Qed.
Lemma reads_application operation : reads (await (RunApplication operation)) (λ _, True).
Proof.
  intros v0 v Q HQ He. apply holds_quiet; [done|]. intros _ w r _ _. destruct r; auto.
Qed.

Lemma reads_executed operation :
  reads (run operation) (λ result, ∀ i at_ answer, result = ApplicationOperationSucceeded i at_ answer →
    answers (ao_request operation) answer).
Proof.
  assert (reads (_execute_scoped_application error_text float_repr (λ operation, await (RunApplication operation))
    (await ReadClock) applications operation) (λ result, ∀ i at_ answer,
      result = ApplicationOperationSucceeded i at_ answer → answers (ao_request operation) answer)) as Hscoped.
  { unfold _execute_scoped_application. eapply reads_sequence; [eapply reads_try, reads_sequence; [by apply (reads_returns _ (λ _, True))|]|].
    - intros [] _. case_match; [|apply reads_raise].
      eapply reads_sequence; [apply reads_application|]. intros result _.
      eapply reads_sequence; [apply (reads_returns _ (λ _, validate_application_operation_result operation result = Ok ()))|].
      { by intros [] ->. }
      intros [] Hvalid. apply (reads_done _ (λ result, validate_application_operation_result operation result = Ok ())), Hvalid.
    - intros [result|e] Hr.
      + apply reads_done. intros i at_ answer ->. specialize (Hr _ eq_refl).
        unfold validate_application_operation_result in Hr. rewrite !seq_ok in Hr.
        destruct Hr as (_ & _ & _ & Hr). destruct (answer_refs _ _) as [refs|] eqn:Hrefs; [|done].
        by eapply checked_answers.
      + case_match; [|apply reads_raise]. eapply reads_sequence; [apply reads_clock|]. intros now _. by apply reads_done. }
  unfold execute_application. case_match; try exact Hscoped.
  eapply reads_sequence; [apply reads_clock|]. intros now _. by apply reads_done.
Qed.

Lemma reads_resource {A} operation suffix application request (resource : operation_answer → option A) (P : A → Prop) :
  (∀ answer a, answers request answer → resource answer = Some a → P a) →
  reads (read_resource error_text float_repr applications operation suffix application request resource) P.
Proof.
  intros HP. unfold read_resource. eapply reads_sequence; [apply reads_executed|].
  intros [i at_ answer|i type error at_] Ha; [|apply reads_raise].
  destruct (resource answer) as [a|] eqn:Hr; [|apply reads_raise]. apply reads_done. eapply HP; [by eapply Ha|done].
Qed.
Lemma reads_thread operation application thread_ref :
  reads (read_thread error_text float_repr applications operation application thread_ref) (λ thread, ts_ref thread = thread_ref).
Proof. apply reads_resource. intros answer thread Ha. inversion Ha; subst. by intros [= <-]. Qed.
Lemma reads_require key :
  reads (_require_application applications key) (λ application, ar_application_instance_id (as_ref application) = key).
Proof.
  unfold _require_application. destruct (d_get applications key) eqn:E; [|apply reads_raise].
  apply reads_done. by apply registered.
Qed.

(** * Binding *)

Context (operation : GatewayOperation) (Hconversation : go_conversation_ref operation = c).
Context (v : view).

(** What an execution makes of the view it begins with. *)
Definition concludes (r : res GatewayOperationResult) (v' : view) : Prop := answered operation v v' r.
Definition binds (v' : view) (b : ConversationBinding) : Prop :=
  vw_binding v' = Some b ∧ asked operation v b ∧ (written operation v v' ∨ v' = v ∧ repeated operation v).
Definition unfinished (v' : view) : Prop := v' = v ∨ written operation v v'.

Lemma concludes_bound i at_ type v' b : binds v' b → concludes (Ok (ConversationBound i at_ type b)) v'.
Proof. done. Qed.
Lemma concludes_raised e v' : unfinished v' → concludes (Err e) v'.
Proof. done. Qed.
Lemma binds_unfinished v' b : binds v' b → unfinished v'.
Proof. intros (_ & _ & [Hw|[-> _]]); [by right|by left]. Qed.
Lemma unfinished_before : unfinished v.
Proof. by left. Qed.
Lemma concludes_unfinished r v' : concludes r v' → unfinished v'.
Proof.
  destruct r as [[]|]; cbn; [by left|intros (_ & _ & [?|[-> _]]); [by right|by left]|by left..|done|done].
Qed.
#[local] Hint Resolve concludes_bound concludes_raised binds_unfinished unfinished_before : core.

Lemma asked_restamp b generation now : asked operation v (restamp b generation now) ↔ asked operation v b.
Proof. unfold asked, restamp. cbn. done. Qed.
Lemma put_binds b expected now :
  asked operation v b → expected = None ∨ expected = Some (vw_generation v) →
  go_expected_generation operation = expected →
  binds (put_view b now v) (restamp b (vw_generation v + 1) now).
Proof.
  intros Ha He <-. split; [done|]. rewrite asked_restamp. split; [done|]. left. eexists. split; [done|].
  by rewrite asked_restamp.
Qed.

(** A write of what was asked, and the change of the projection that follows. *)
Lemma holds_write b (Q : res ConversationBinding → view → Prop) :
  asked operation v b →
  (∀ b' v', binds v' b' → view_valid c v' → Q (Ok b') v') → (∀ e v', unfinished v' → Q (Err e) v') →
  holds c v v (await (PutBinding b (go_expected_generation operation))) Q.
Proof.
  intros Ha HQ He. apply holds_put; [by rewrite <- Hconversation; apply Ha| |auto].
  intros now Hexp Hv. assert (binds (put_view b now v) (restamp b (vw_generation v + 1) now)) by by eapply put_binds.
  split; [auto|]. eauto.
Qed.

Lemma holds_handle v' previous current checkpoint (Q : res unit → view → Prop) :
  (∀ r, Q r v') → holds c v v' (await (HandleBindingChange previous current checkpoint)) Q.
Proof. intros HQ. by apply holds_quiet. Qed.

Lemma holds_notify previous current checkpoint completed_at v' :
  binds v' current →
  holds c v v' (await (HandleBindingChange previous current checkpoint) ;; mret (bound operation completed_at current)) concludes.
Proof. intros Hb. apply holds_bind, holds_handle. intros [[]|e]; [apply holds_done|]; eauto. Qed.

Lemma holds_replace completed_at b :
  asked operation v b →
  holds c v v (change ← _replace b (go_expected_generation operation) ;
    await (HandleBindingChange (bc_previous change) (bc_binding change) true) ;;
    mret (bound operation completed_at (bc_binding change))) concludes.
Proof.
  intros Ha. unfold _replace. replace (cb_conversation_ref b) with c by by rewrite <- Hconversation; symmetry; apply Ha.
  apply holds_bind, holds_bind, holds_get; [intros _|auto].
  apply holds_bind, holds_write; [done| |auto]. intros b' v' Hb _. apply holds_done. by apply holds_notify.
Qed.

(** A reading before it. *)
Lemma holds_after_reading {A B} (p : nprog A) (P : A → Prop) (f : A → nprog B) v' (Q : res B → view → Prop) :
  reads p P → (∀ a, P a → holds c v v' (f a) Q) → (∀ e, Q (Err e) v') → holds c v v' (p ≫= f) Q.
Proof. intros Hp Hf He. apply holds_bind, Hp; auto. Qed.

Lemma select_concludes completed_at application_ref expected :
  go_request operation = SelectApplication application_ref expected →
  holds c v v (_select_application applications operation completed_at application_ref expected) concludes.
Proof.
  intros Hreq. assert (expected = go_expected_generation operation) as -> by (unfold go_expected_generation; by rewrite Hreq).
  eapply holds_after_reading; [apply reads_require| |auto]. intros application _.
  apply holds_replace. split; [done|]. by rewrite Hreq.
Qed.

Lemma bind_project_concludes completed_at project_ref expected :
  go_request operation = BindConversationToProject project_ref expected →
  holds c v v (_bind_conversation_to_project error_text float_repr applications operation completed_at project_ref expected)
    concludes.
Proof.
  intros Hreq. assert (expected = go_expected_generation operation) as -> by (unfold go_expected_generation; by rewrite Hreq).
  eapply holds_after_reading; [apply reads_require| |auto]. intros application _.
  eapply holds_after_reading; [apply (reads_resource _ _ _ _ _ (λ p, ps_ref p = project_ref))| |auto].
  { intros answer project Ha. inversion Ha; subst. by intros [= <-]. }
  intros project ->. apply holds_replace. split; [done|]. by rewrite Hreq.
Qed.

Lemma clear_thread_concludes completed_at expected :
  go_request operation = ClearConversationThread expected →
  holds c v v (_clear_conversation_thread operation completed_at expected) concludes.
Proof.
  intros Hreq. assert (expected = go_expected_generation operation) as -> by (unfold go_expected_generation; by rewrite Hreq).
  unfold _clear_conversation_thread, clear_thread. apply holds_bind, holds_bind. rewrite Hconversation.
  apply holds_get; [intros Hvalid|auto]. destruct (vw_binding v) as [previous|] eqn:Hp; [|apply holds_done; auto].
  destruct (Hvalid _ Hp) as (Hc & _ & _).
  apply holds_bind, holds_write; [|intros b' v' Hb _; apply holds_done; by apply holds_notify|auto].
  split; [by rewrite Hconversation|]. rewrite Hreq. by exists previous.
Qed.

(** ** A Thread *)

Section thread.
Context (completed_at : datetime) (thread_ref : ThreadRef) (application : ApplicationSummary).
Hypothesis Hrequest : go_request operation = BindConversationToThread thread_ref (go_expected_generation operation).
Hypothesis Happlication : ar_application_instance_id (as_ref application) = pr_application_instance_id (th_project_ref thread_ref).

Abbreviation desired := (binding_to c (Some (as_ref application)) (Some (th_project_ref thread_ref)) (Some thread_ref)).

Lemma same_target_spec current :
  _has_same_target current desired = true ↔ ∃ b, current = Some b ∧ cb_application_ref b = Some (as_ref application) ∧
    cb_project_ref b = Some (th_project_ref thread_ref) ∧ cb_thread_ref b = Some thread_ref.
Proof. unfold _has_same_target. destruct current; [rewrite bool_decide_eq_true; cbn|]; naive_solver. Qed.

(** A valid binding to the Thread has the target desired. *)
Lemma bound_same_target v' : view_valid c v' → bound_to thread_ref v' → _has_same_target (vw_binding v') desired = true.
Proof.
  intros Hvalid (b & Hb & Ht). apply same_target_spec. exists b. split; [done|].
  destruct (Hvalid b Hb) as (_ & _ & Hv). unfold validate_binding in Hv. rewrite !seq_ok, !when_some_ok in Hv.
  destruct_and! Hv. repeat match goal with H : ∀ t, cb_thread_ref b = Some t → _ |- _ => specialize (H _ Ht) end.
  rewrite ?seq_ok, ?raise_if_ok in *. destruct_and?.
  assert (cb_project_ref b = Some (th_project_ref thread_ref)) as Hp by by apply dec_stable.
  split_and!; [|done..].
  assert (application_id_of (cb_application_ref b) = Some (pr_application_instance_id (th_project_ref thread_ref))) as Ha
    by by apply dec_stable.
  unfold application_id_of in Ha. destruct (cb_application_ref b) as [[id]|]; [|done]. injection Ha as ->.
  f_equal. destruct (as_ref application). cbn in *. by rewrite Happlication.
Qed.

Lemma asked_desired b : cb_conversation_ref b = c → cb_thread_ref b = Some thread_ref → asked operation v b.
Proof. intros Hc Ht. split; [by rewrite Hconversation|]. by rewrite Hrequest. Qed.

Definition prepares (prepared : _PreparedThreadBinding) : Prop :=
  pb_desired prepared = desired ∧ pb_expected_generation prepared = go_expected_generation operation ∧
  pb_previous prepared = vw_binding v ∧
  (pb_converge_without_write prepared = true → ∃ b, pb_previous prepared = Some b ∧ binds v b).

Lemma holds_prepare foreground (Q : res _PreparedThreadBinding → view → Prop) :
  (∀ prepared, prepares prepared → Q (Ok prepared) v) → (∀ e, Q (Err e) v) →
  holds c v v (prepare_thread_binding c (as_ref application) thread_ref (go_expected_generation operation) foreground) Q.
Proof.
  intros HQ He. apply holds_bind, holds_get; [intros Hvalid|auto]. apply holds_bind.
  assert (pb_ok : ∀ previous, vw_binding v = previous →
    (∀ p, previous = Some p → ¬ (foreground && _has_same_target previous desired = true ∧
      go_expected_generation operation ∉ [None; Some (cb_generation p); Some (cb_generation p - 1)])) →
    holds c v v (mret {| pb_previous := previous; pb_desired := desired;
      pb_expected_generation := go_expected_generation operation;
      pb_converge_without_write := foreground && _has_same_target previous desired |}) Q).
  { intros previous Hp Hexp. apply holds_done, HQ. split_and!; [done..|]. cbn. intros Hconv.
    apply andb_prop in Hconv as [Hf Hsame]. pose proof Hsame as (b & -> & _ & _ & Ht)%same_target_spec.
    exists b. split; [done|]. destruct (Hvalid b Hp) as (Hc & Hg & _). split; [done|].
    split; [by apply asked_desired|]. right. split; [done|]. split; [eauto|].
    rewrite <- Hg. apply dec_stable. intros Hn. apply (Hexp b eq_refl). rewrite Hf, Hsame. done. }
  destruct (vw_binding v) as [p|] eqn:Hp.
  - unfold raise_if. case_decide as Hd; apply holds_done; [apply He|]. apply pb_ok; [done|]. by intros ? [= <-].
  - apply holds_done. apply pb_ok; [done|]. by intros ? [=].
Qed.

Lemma holds_commit prepared (Q : res _BindingChange → view → Prop) :
  prepares prepared →
  (∀ change v', binds v' (bc_binding change) → Q (Ok change) v') →
  (∀ e v', pb_converge_without_write prepared = false → unfinished v' → Q (Err e) v') →
  holds c v v (commit_thread_binding prepared) Q.
Proof.
  intros (Hd & He & Hp & Hconv) HQ Herr. unfold commit_thread_binding.
  destruct (pb_converge_without_write prepared) eqn:E.
  - destruct (Hconv eq_refl) as (b & -> & Hb). by apply holds_done, HQ.
  - rewrite Hd, He. apply holds_bind, holds_write; [by apply asked_desired| |auto].
    intros b' v' Hb _. by apply holds_done, HQ.
Qed.

Lemma holds_bind_prepared prepared checkpoint (Q : res (res GatewayOperationResult * bool) → view → Prop) :
  prepares prepared →
  (∀ r retain v', concludes r v' → (retain = false → ¬ bound_to thread_ref v') → Q (Ok (r, retain)) v') →
  holds c v v (bind_prepared operation completed_at prepared checkpoint) Q.
Proof.
  intros Hprep HQ. apply holds_bind, holds_try, holds_commit; [done|..].
  - intros change v' Hb. apply holds_bind, holds_try, holds_handle. intros [[]|e]; apply holds_done, HQ; eauto; done.
  - intros e v' -> Hun. destruct Hprep as (Hd & _). unfold binding_write_may_have_committed. rewrite Hd.
    apply holds_bind, holds_bind, holds_try. apply holds_get.
    + intros Hvalid. apply holds_done, holds_done, HQ; [auto|]. intros Hr Hbound.
      by rewrite (bound_same_target v' Hvalid Hbound) in Hr.
    + intros e'. apply holds_done, holds_done, HQ; [auto|done].
Qed.
End thread.

Lemma bind_thread_concludes completed_at thread_ref expected :
  go_request operation = BindConversationToThread thread_ref expected →
  holds c v v (_bind_conversation_to_thread error_text float_repr applications policy operation completed_at thread_ref expected)
    concludes.
Proof.
  intros Hreq. assert (expected = go_expected_generation operation) as -> by (unfold go_expected_generation; by rewrite Hreq).
  eapply holds_after_reading; [apply reads_require| |auto]. intros application Happ.
  eapply holds_after_reading; [apply reads_thread| |auto]. intros thread ->. rewrite Hconversation.
  apply holds_bind. apply (holds_prepare thread_ref application Hreq); [intros prepared Hprep|auto]. apply holds_if; intros _.
  - apply holds_bind, holds_quiet; [by intros w r w' [-> _]|]. intros _ w [[route created]|e] _ Ho; [|auto].
    assert (tr_thread_ref route = thread_ref ∧ tr_conversation_ref route = c) as [Ht Hc].
    { destruct Ho as [[_ Hr]|(_ & [=] & _)]. by apply (Hr _ _ eq_refl). }
    apply holds_bind. apply (holds_bind_prepared completed_at thread_ref application Hreq Happ prepared); [done|]. intros r retain v' Hr Hretain.
    apply holds_bind, holds_complete; [done|rewrite Ht; destruct retain; auto|].
    intros [[]|e]; [by apply holds_done|]. by apply concludes_raised, (concludes_unfinished r).
  - apply holds_bind. apply (holds_commit thread_ref application Hreq prepared); [done| |auto]. intros change v' Hb. by apply holds_notify.
Qed.

(** * Dispatch *)

(** Before it is validated, a response routed by the runtime of requests may be any. *)
Definition dispatched (r : res GatewayOperationResult) (v' : view) : Prop :=
  concludes r v' ∨ v' = v ∧ ∃ request_ref response, go_request operation = RespondToRequest request_ref response.

Lemma dispatch_concludes :
  holds c v v (_dispatch error_text float_repr applications policy operation) dispatched.
Proof.
  assert (∀ p, holds c v v p concludes → holds c v v p dispatched) as Hweak
    by (intros p Hp; eapply holds_mono; [exact Hp|]; by left).
  apply holds_bind, holds_clock. intros completed_at. destruct (go_request operation) as [| | | | | | | | |] eqn:Hreq.
  - apply holds_done. by left.
  - by apply Hweak, select_concludes.
  - by apply Hweak, bind_project_concludes.
  - by apply Hweak, bind_thread_concludes.
  - by apply Hweak, clear_thread_concludes.
  - apply holds_done. left. auto.
  - apply holds_done. left. auto.
  - apply Hweak. eapply holds_after_reading; [apply reads_require| |auto]. intros application _.
    eapply holds_after_reading; [apply reads_thread| |auto]. intros thread _.
    apply holds_bind, holds_quiet; [done|]. intros _ w [route|e] _ _; [by apply holds_done|auto].
  - apply holds_done. left. auto.
  - apply holds_quiet; [done|]. intros _ w r _ _. right. eauto.
Qed.

(** A result that was accepted answers the operation. *)
Lemma accepted_result result v' :
  dispatched (Ok result) v' → validate_gateway_operation_result operation result = Ok () →
  concludes (Ok result) v' ∧ answers_operation operation (Ok result).
Proof.
  intros Hd Hv. unfold validate_gateway_operation_result in Hv. rewrite !seq_ok, !raise_if_ok in Hv.
  destruct Hv as (_ & Hid%dec_stable & Htype%dec_stable & Hv). split; [|done].
  destruct Hd as [?|(-> & request_ref & response & Hreq)]; [done|].
  rewrite Hreq in Hv. destruct result; try done. by left.
Qed.

Definition executed (r : res GatewayOperationResult) (v' : view) : Prop :=
  concludes r v' ∧ answers_operation operation r.

Lemma failed_executed error v' : unfinished v' → holds c v v' (failed operation error) executed.
Proof. intros Hu. apply holds_bind, holds_clock. intros now. by apply holds_done. Qed.

Lemma execute_locked_executed :
  holds c v v (execute_locked error_text float_repr applications policy operation) executed.
Proof.
  apply holds_bind, holds_try. apply (holds_mono _ _ _ _ (λ r v', match r with
    | Ok _ => executed r v' | Err _ => unfinished v' end)).
  { apply holds_bind, holds_done. destruct (validate_gateway_operation operation) as [[]|e]; [|auto].
    apply holds_bind. eapply holds_mono; [apply dispatch_concludes|]. intros [result|e] v' Hd.
    - apply holds_bind, holds_done. destruct (validate_gateway_operation_result operation result) as [[]|e] eqn:Hv.
      + apply holds_done. by apply accepted_result.
      + destruct Hd as [Hd|[-> _]]; [by apply concludes_unfinished in Hd|auto].
    - destruct Hd as [Hd|[-> _]]; [exact Hd|auto]. }
  intros [result|e] v' Hr; [by apply holds_done|].
  destruct e; try by apply failed_executed. all: by apply holds_done.
Qed.
End operations.

(** What the operations on Conversations promise in every run: their answers tell what was
    done, and a barrier is opened only while its Thread is not bound. *)

(** * The lock *)

(** What became of an operation is recorded. *)
Lemma session_recorded (w : routing_world) (m rest : routing_tokens) (s : session) :
  routing_ok w m → rest ⊆ m →
  let n := length (nw_sessions w) in
  {[inr n := s]} ##ₘ rest ∧ routing_ok (on_sessions (nw_sessions w ++ [s]) w) ({[inr n := s]} ∪ rest).
Proof.
  intros Hok Hsub n.
  assert (rest !! inr n = None) as Hn.
  { destruct (rest !! inr n) as [t|] eqn:E; [|done].
    assert (nw_sessions w !! n = Some t) as Ht by (apply (ro_ended _ _ Hok); by eapply lookup_weaken).
    apply lookup_lt_Some in Ht. lia. }
  split; [by apply map_disjoint_singleton_l|]. split; cbn; [apply Hok| | | |apply Hok].
  - intros c t Ht. rewrite lookup_union_r in Ht by by apply lookup_singleton_ne.
    apply (ro_tokens _ _ Hok c t). by eapply lookup_weaken.
  - intros n' t Ht. destruct (decide (n' = n)) as [->|Hne].
    + rewrite (lookup_union_Some_l _ _ _ s) in Ht by apply lookup_singleton_eq.
      injection Ht as <-. by rewrite lookup_app_r, Nat.sub_diag by done.
    + rewrite lookup_union_r in Ht by (apply lookup_singleton_ne; congruence).
      by apply lookup_app_l_Some, (ro_ended _ _ Hok), (lookup_weaken rest).
  - intros a Ha. destruct (ro_answers _ _ Hok a Ha) as [? (views & Hin & ?)]. split; [done|].
    exists views. split; [|done]. apply elem_of_app. by left.
Qed.

(** A lock nobody has a token of is released. *)
Lemma lock_released (w : routing_world) (m : routing_tokens) (c : ConversationRef) :
  routing_ok w m → m !! inl c = None → routing_ok (on_lock_table (delete c (nw_locks w)) w) m.
Proof.
  intros Hok Hc. split; cbn; [apply Hok| |apply (ro_ended _ _ Hok)|apply Hok|apply Hok].
  intros c' s Hs. destruct (ro_tokens _ _ Hok c' s Hs) as (v0 & ? & ?). exists v0.
  rewrite lookup_delete_ne; [done|]. intros <-. congruence.
Qed.

Section lock.
Context (operation : GatewayOperation).
Abbreviation c := (go_conversation_ref operation).
Definition became (views : option (view * view)) : session := {| ss_operation := operation; ss_views := views |}.

Lemma runs_hold (Q : routing_tokens → res unit → Prop) :
  (∀ v : view, Q (held operation c v v) (Ok ())) →
  (∀ n : nat, Q {[inr n := became None]} (Err KeyedLockCapacityError)) →
  (∀ n : nat, Q {[inr n := became None]} (Err CancelledError)) →
  runs_with ∅ (await (HoldConversationOf operation)) Q.
Proof.
  intros HQ Hfull Hcancelled w r w' rest _ Hok [Hp|[[=] _]]. rewrite map_empty_union in Hok.
  destruct Hp as [(Hl & -> & ->)|[Hr ->]].
  - set (v := view_in w c). exists (held operation c v v).
    assert (rest !! inl c = None) as Hnone.
    { destruct (rest !! inl c) as [s|] eqn:E; [|done]. destruct (ro_tokens _ _ Hok c s E) as (v0 & Hs & _). congruence. }
    split_and!; [by apply map_disjoint_singleton_l| |apply HQ].
    split; cbn; [apply Hok| | |apply Hok|apply Hok].
    + intros c' s Hs. destruct (decide (c' = c)) as [->|Hne].
      * rewrite (lookup_union_Some_l _ _ _ (became (Some (v, v)))) in Hs by apply lookup_singleton_eq.
        injection Hs as <-. exists v. cbn. by rewrite lookup_insert_eq.
      * rewrite lookup_union_r in Hs by (apply lookup_singleton_ne; congruence).
        destruct (ro_tokens _ _ Hok c' s Hs) as (v0 & ? & ?). exists v0. by rewrite lookup_insert_ne.
    + intros n s Hs. rewrite lookup_union_r in Hs by by apply lookup_singleton_ne. by apply (ro_ended _ _ Hok).
  - destruct (session_recorded w rest rest (became None) Hok) as [Hd Hok']; [done|].
    eexists. split; [exact Hd|]. split; [exact Hok'|]. destruct Hr as [-> | ->]; [apply Hfull|apply Hcancelled].
Qed.

Lemma runs_leave (v0 v : view) (Q : routing_tokens → res unit → Prop) :
  (∀ n : nat, Q {[inr n := became (Some (v0, v))]} (Ok ())) →
  runs_with (held operation c v0 v) (await (LeaveConversationOf operation)) Q.
Proof.
  intros HQ w r w' rest Hd Hok [Hp|[[=] _]]. destruct (token_view _ _ _ _ _ _ Hok) as (Hl & Hv & _).
  destruct Hp as (-> & ->). rewrite Hl. subst v.
  assert (rest !! inl c = None) as Hc by (unfold held in Hd; by apply map_disjoint_singleton_l in Hd).
  destruct (session_recorded w _ rest (became (Some (v0, view_in w c))) Hok) as [Hd' Hok'];
    [by apply map_union_subseteq_r|].
  eexists. split; [exact Hd'|]. split; [|apply HQ].
  apply (lock_released _ _ c Hok'). by rewrite lookup_union_r by by apply lookup_singleton_ne.
Qed.

Lemma runs_answer (n : nat) (views : option (view * view)) (answer : res GatewayOperationResult) :
  answers_operation operation answer →
  match views with Some (v0, v) => answered operation v0 v answer | None => refused answer end →
  runs_with {[inr n := became views]} (await (TakeAnswer operation answer)) (λ _ _, True).
Proof.
  intros Ha Hviews w r w' rest Hd Hok [[-> ->]|[[=] _]]. exists {[inr n := became views]}. split_and!; [done| |done].
  split; cbn; [apply Hok|apply (ro_tokens _ _ Hok)|apply (ro_ended _ _ Hok)| |apply Hok].
  intros a [Hin|Hin%list_elem_of_singleton]%elem_of_app; [by apply (ro_answers _ _ Hok)|]. subst a.
  split; [done|]. exists views. split; [|done].
  eapply list_elem_of_lookup_2, (ro_ended _ _ Hok n). apply lookup_union_Some_l, lookup_singleton_eq.
Qed.
End lock.

(** * Every run *)

Section runs.
Context (error_text : exn → pystr) (float_repr : Qcanon.Qc → pystr).
Context (applications : dict pystr ApplicationSummary) (policy : ProjectionPolicy).
Context (registered : ∀ key application, d_get applications key = Some application →
  ar_application_instance_id (as_ref application) = key).

Lemma execution_runs operation : runs_with ∅ (execution error_text float_repr applications policy operation) (λ _ _, True).
Proof.
  apply follows_bind, follows_try. unfold execute. apply follows_bind, follows_try, follows_bind.
  apply runs_hold.
  - intros v. apply follows_bind, follows_try.
    eapply follows_mono; [by apply (execute_locked_executed error_text float_repr applications policy registered)|].
    intros own r (v' & -> & Hr & Hid). apply follows_bind, runs_leave. intros n.
    assert (∀ r', r' = r → runs_with {[inr n := became operation (Some (v, v'))]} (await (TakeAnswer operation r')) (λ _ _, True))
      as Htake by by intros r' ->; apply runs_answer.
    destruct r as [result|e]; [by apply Htake|]. destruct e; try by apply Htake. done.
  - intros n. apply follows_bind. intros w r w' rest Hd Hok [[-> Hr]|[[=] _]]. eexists. split_and!; [exact Hd|exact Hok|].
    destruct r as [now|]; [|done]. by apply runs_answer.
  - intros n. by apply runs_answer.
Qed.

Lemma routing_runs_ok s q :
  binding_inv s → routing_runs error_text float_repr applications policy s q → routing_ok (lp_world q) ∅.
Proof.
  intros Hi Hrun.
  assert (∀ w m m', routing_ok w m → m' ⊆ m → routing_ok w m') as Hdrop.
  { intros w m m' Hok Hm. split; [apply Hok| | |apply Hok|apply Hok]; intros k t Ht.
    - by apply (ro_tokens _ _ Hok), (lookup_weaken m').
    - by apply (ro_ended _ _ Hok), (lookup_weaken m'). }
  enough (disciplined routing_perform routing_immediate (λ _ : unit, ∅) (λ _, True) routing_ok q) as (_ & hold & _ & Hw & _).
  { eapply Hdrop; [exact Hw|]. apply map_empty_subseteq. }
  eapply loop_steps_disciplined; [..|exact Hrun].
  - exact Hdrop.
  - intros w w' m Hok (op & Hl & ->). split; cbn; [by apply run_binding_op_keeps_inv, Hok| |apply (ro_ended _ _ Hok)|apply Hok|apply Hok].
    intros c t Ht. destruct (ro_tokens _ _ Hok c t Ht) as (v0 & Hc & Hviews). exists v0. split; [done|].
    rewrite Hviews. do 2 f_equal. symmetry. apply view_of_op; [apply Hok|]. intros <-. congruence.
  - intros p (operation & ->). apply execution_runs.
  - done.
  - apply disciplined_start; [done..|]. split; cbn; [done|by intros ? ? ?%lookup_empty_Some..| |];
      intros ? *; rewrite ?elem_of_nil; try done.
Qed.


End runs.
