(* ===== verification/RouteAuthority.v ===== *)
(** [_ProjectionRouteAuthority] of [gateway/routing/projection_routes.py]: which routes of a
    Thread are active under a policy, and how a route is refreshed. *)

From S2P Require Export Routing.
From stdpp Require Import list.
#[local] Open Scope Z_scope.
#[local] Open Scope stdpp_scope.

(** What it awaits: the repositories of bindings and of routes, and the clock. *)
Inductive authority_event : Type → Type :=
| BindingOf (conversation_ref : ConversationRef) : authority_event (option ConversationBinding)
| ListRoutes (thread_ref : option ThreadRef) : authority_event (list ThreadProjectionRoute)
| PutRoute (route : ThreadProjectionRoute) : authority_event ThreadProjectionRoute
| ReplaceRoutes (route : ThreadProjectionRoute) : authority_event ThreadProjectionRoute
| RouteClock : authority_event datetime.
Abbreviation aprog := (prog unit authority_event).

(** [gateway/routing/projection_routes.py:133-136] _RouteRefresh *)
Record _RouteRefresh := {
  rr_route : ThreadProjectionRoute;
  rr_created : bool;
  rr_removed_routes : list ThreadProjectionRoute;
}.

Section authority.
Context (policy : ProjectionPolicy).

(** [gateway/routing/projection_routes.py:172-177] _ProjectionRouteAuthority._filter_active_routes:
    the loop *)
Fixpoint foreground_routes (routes : list ThreadProjectionRoute) : aprog (list ThreadProjectionRoute) :=
  match routes with
  | [] => mret []
  | route :: routes =>
      binding ← await (BindingOf (tr_conversation_ref route)) ;
      active ← foreground_routes routes ;
      match binding with
      | Some b => if decide (cb_thread_ref b = Some (tr_thread_ref route)) then mret (route :: active) else mret active
      | None => mret active
      end
  end.

(** [gateway/routing/projection_routes.py:166-177] _ProjectionRouteAuthority._filter_active_routes *)
Definition _filter_active_routes (routes : list ThreadProjectionRoute) : aprog (list ThreadProjectionRoute) :=
  if decide (policy ≠ FOREGROUND_ONLY) then mret routes else foreground_routes routes.

(** [gateway/routing/projection_routes.py:153-160] _ProjectionRouteAuthority.active_routes *)
Definition active_routes (thread_ref : option ThreadRef) : aprog (list ThreadProjectionRoute) :=
  match thread_ref with
  | None => mret []
  | Some thread_ref => routes ← await (ListRoutes (Some thread_ref)) ; _filter_active_routes routes
  end.

(** [gateway/routing/projection_routes.py:162-164] _ProjectionRouteAuthority.active_persisted_routes *)
Definition active_persisted_routes : aprog (list ThreadProjectionRoute) :=
  routes ← await (ListRoutes None) ; _filter_active_routes routes.

(** [gateway/routing/projection_routes.py:179-183] _ProjectionRouteAuthority.route_is_active *)
Definition route_is_active (route : ThreadProjectionRoute) : aprog bool :=
  active ← active_routes (Some (tr_thread_ref route)) ;
  mret (bool_decide (Exists (λ candidate, tr_route_id candidate = tr_route_id route) active)).

(** [gateway/routing/projection_routes.py:185-224] _ProjectionRouteAuthority.refresh_route *)
Definition refresh_route (thread_ref : ThreadRef) (conversation_ref : ConversationRef)
    (reply_to_message_id : option pystr) : aprog _RouteRefresh :=
  existing ← await (ListRoutes (Some thread_ref)) ;
  let current := head (filter (λ route, tr_conversation_ref route = conversation_ref) existing) in
  route_id ← returns (derive_projection_route_id thread_ref conversation_ref) ;
  now ← await RouteClock ;
  let route := {|
    tr_route_id := route_id; tr_thread_ref := thread_ref; tr_conversation_ref := conversation_ref;
    tr_reply_to_message_id := match reply_to_message_id, current with
      | Some i, _ => Some i
      | None, Some current => tr_reply_to_message_id current
      | None, None => None
      end;
    tr_checkpoint_agent_item_id := None; tr_checkpointed_at := None; tr_updated_at := Some now |} in
  if decide (policy = REMEMBERED_LAST_RECIPIENT) then
    stored ← await (ReplaceRoutes route) ;
    mret {| rr_route := stored; rr_created := bool_decide (current = None);
      rr_removed_routes := filter (λ removed, tr_conversation_ref removed ≠ tr_conversation_ref stored) existing |}
  else
    stored ← await (PutRoute route) ;
    mret {| rr_route := stored; rr_created := bool_decide (current = None); rr_removed_routes := [] |}.
End authority.

(** * What it answers *)

(** The authority alone with the repositories. *)
Record authority_state := { as_bindings : BindingRepository; as_routes : ProjectionRepository }.
Definition at_routes (p : ProjectionRepository) (s : authority_state) : authority_state :=
  {| as_bindings := as_bindings s; as_routes := p |}.
Definition authority_rule (X : Type) (e : authority_event X) : authority_state → (res X → authority_state → Prop) → Prop :=
  match e with
  | BindingOf c => λ s Q, Q (Ok (d_get (br_bindings (as_bindings s)) c)) s
  | ListRoutes t => λ s Q, Q (list_projection_routes t (as_routes s)).1 s
  | PutRoute route => λ s Q,
      Q (put_projection_route route (as_routes s)).1 (at_routes (put_projection_route route (as_routes s)).2 s)
  | ReplaceRoutes route => λ s Q,
      Q (replace_thread_projection_routes route (as_routes s)).1
        (at_routes (replace_thread_projection_routes route (as_routes s)).2 s)
  | RouteClock => λ s Q, ∀ now, Q (Ok now) s
  end.
Lemma authority_rule_mono : monotone_rule authority_rule.
Proof. intros X [] s P Q; cbn; eauto. Qed.
#[export] Hint Resolve authority_rule_mono : routing.
Abbreviation alone := (keeps authority_rule).
Lemma alone_bind {X A} (e : authority_event X) (f : X → aprog A) s (Q : res A → authority_state → Prop) :
  authority_rule X e s (λ r s', match r with Ok a => alone s' (f a) Q | Err e => Q (Err e) s' end) →
  alone s (await e ≫= f) Q.
Proof. intros He. by apply keeps_bind; [auto with routing|]. Qed.

(** A route is in the foreground when its Conversation is bound to its Thread. *)
Definition foreground (s : authority_state) (route : ThreadProjectionRoute) : Prop :=
  (d_get (br_bindings (as_bindings s)) (tr_conversation_ref route) ≫= cb_thread_ref) = Some (tr_thread_ref route).
#[export] Instance foreground_dec s route : Decision (foreground s route).
Proof. unfold foreground. apply _. Defined.

Lemma foreground_routes_spec routes s (Q : res (list ThreadProjectionRoute) → authority_state → Prop) :
  Q (Ok (filter (foreground s) routes)) s → alone s (foreground_routes routes) Q.
Proof.
  revert Q. induction routes as [|route routes IH]; intros Q HQ; [exact HQ|]. cbn [foreground_routes].
  apply keeps_bind; [auto with routing|]. cbn. apply keeps_bind; [auto with routing|]. apply IH.
  rewrite filter_cons in HQ. case_decide as Hf; unfold foreground in Hf;
    destruct (d_get _ (tr_conversation_ref route)) as [b|]; cbn in *; try done; by case_decide.
Qed.

(** The active routes of a Thread are all of its routes, or under [FOREGROUND_ONLY] those in
    the foreground. *)
Lemma active_routes_spec policy thread_ref s (Q : res (list ThreadProjectionRoute) → authority_state → Prop) :
  Q (Ok (filter (λ route, tr_thread_ref route = thread_ref ∧ (policy = FOREGROUND_ONLY → foreground s route))
      (d_values (pj_routes (as_routes s))))) s →
  alone s (active_routes policy (Some thread_ref)) Q.
Proof.
  intros HQ. apply keeps_bind; [auto with routing|]. cbn. unfold _filter_active_routes.
  assert (∀ l, l = filter (λ route, tr_thread_ref route = thread_ref ∧ (policy = FOREGROUND_ONLY → foreground s route))
    (d_values (pj_routes (as_routes s))) → Q (Ok l) s) as HQ' by by intros l ->.
  destruct (decide (policy ≠ FOREGROUND_ONLY)) as [Hp|Hp%dec_stable].
  - apply HQ', list_filter_iff. intros route. cbn. naive_solver.
  - apply foreground_routes_spec, HQ'. rewrite list_filter_filter. apply list_filter_iff. intros route. cbn. naive_solver.
Qed.

(** The route of a Thread and a Conversation, as it is stored. *)
Lemma current_route (routes : dict (ThreadRef * ConversationRef) ThreadProjectionRoute) thread_ref conversation_ref :
  d_all route_ok routes →
  head (filter (λ route, tr_conversation_ref route = conversation_ref)
    (filter (λ r, selects (Some thread_ref) (tr_thread_ref r)) (d_values routes))) =
  d_get routes (thread_ref, conversation_ref).
Proof.
  induction 1 as [|[k r] routes [Hk _] _ IH]; [done|]. cbn in Hk. subst k. cbn [d_get].
  change (d_values ((route_key r, r) :: routes)) with (r :: d_values routes).
  rewrite filter_cons. destruct (decide (selects _ _)) as [Ht|Ht]; cbn in Ht.
  - rewrite filter_cons. destruct (decide (tr_conversation_ref r = conversation_ref)) as [Hc|Hc].
    + rewrite decide_True by (unfold route_key; congruence). done.
    + rewrite decide_False by (unfold route_key; congruence). done.
  - rewrite decide_False by (unfold route_key; congruence). done.
Qed.

Lemma merge_keeps_reply existing r stored :
  _merge_projection_route existing r = Ok stored → tr_reply_to_message_id stored = tr_reply_to_message_id r.
Proof.
  unfold _merge_projection_route. destruct existing as [e|]; [|by intros [= <-]].
  intros H. apply res_bind_ok in H as ([] & _ & H). repeat case_decide; inv_ok; by subst stored.
Qed.

(** What a refresh leaves of the routes of its Thread. *)
Definition refreshed (policy : ProjectionPolicy) (thread_ref : ThreadRef) (conversation_ref : ConversationRef)
    (reply_to_message_id : option pystr) (before after : ProjectionRepository) (refresh : _RouteRefresh) : Prop :=
  let previous := d_get (pj_routes before) (thread_ref, conversation_ref) in
  let route := rr_route refresh in
  d_get (pj_routes after) (thread_ref, conversation_ref) = Some route ∧
  tr_reply_to_message_id route =
    match reply_to_message_id with Some i => Some i | None => previous ≫= tr_reply_to_message_id end ∧
  (∀ e, previous = Some e → tr_route_id e = tr_route_id route ∧ checkpoint_of route = checkpoint_of e) ∧
  (rr_created refresh = true ↔ previous = None) ∧
  (∀ removed, removed ∈ rr_removed_routes refresh ↔ policy = REMEMBERED_LAST_RECIPIENT ∧
    removed ∈ d_values (pj_routes before) ∧ tr_thread_ref removed = thread_ref ∧
    tr_conversation_ref removed ≠ conversation_ref) ∧
  ∀ k, k ≠ (thread_ref, conversation_ref) → d_get (pj_routes after) k =
    if decide (policy = REMEMBERED_LAST_RECIPIENT ∧ k.1 = thread_ref) then None else d_get (pj_routes before) k.

(** A refresh stores the route of its Thread and Conversation, with the reply it is given or
    the one it had and with its checkpoint; under [REMEMBERED_LAST_RECIPIENT] it is then the
    only route of the Thread, and the others are reported as removed. *)
Lemma refresh_route_spec policy thread_ref conversation_ref reply_to_message_id s :
  projection_inv (as_routes s) →
  alone s (refresh_route policy thread_ref conversation_ref reply_to_message_id) (λ r s', match r with
    | Ok refresh => refreshed policy thread_ref conversation_ref reply_to_message_id (as_routes s) (as_routes s') refresh
    | Err _ => s' = s
    end).
Proof.
  intros Hi. apply alone_bind. cbn [authority_rule list_projection_routes gets fst].
  rewrite current_route by apply Hi. set (previous := d_get _ (thread_ref, conversation_ref)).
  apply keeps_bind; [auto with routing|]. cbn [returns keeps].
  destruct (derive_projection_route_id thread_ref conversation_ref) as [route_id|e]; [|done].
  apply alone_bind. intros now. set (route := Build_ThreadProjectionRoute _ _ _ _ _ _ _).
  assert (∀ stored, accepts_route (as_routes s) route stored → tr_conversation_ref stored = conversation_ref ∧
    tr_reply_to_message_id stored = match reply_to_message_id with Some i => Some i | None => previous ≫= tr_reply_to_message_id end ∧
    ∀ e, previous = Some e → tr_route_id e = tr_route_id stored ∧ checkpoint_of stored = checkpoint_of e) as Hstored.
  { intros stored Ha. destruct (accepts_route_spec _ _ _ Hi Ha) as (Hid & Hkey & _ & Hold).
    split; [by injection Hkey|]. split; [|intros e He; by rewrite Hid; apply Hold].
    destruct Ha as (_ & _ & Hm). apply merge_keeps_reply in Hm as ->. cbn. by destruct reply_to_message_id, previous. }
  assert (∀ k, k ≠ (thread_ref, conversation_ref) → (thread_ref, conversation_ref) ≠ k) as Hsym by auto.
  destruct (decide (policy = REMEMBERED_LAST_RECIPIENT)) as [Hp|Hp]; apply alone_bind; cbn [authority_rule].
  - pose proof (replace_thread_projection_routes_spec route (as_routes s)) as Hs. unfold wp in Hs.
    destruct (replace_thread_projection_routes route (as_routes s)) as [[stored|e] p]; cbn in *; [|subst p; by destruct s].
    destruct Hs as (Ha & ->). destruct (Hstored _ Ha) as (Hc & Hr & He). unfold refreshed; cbn. fold previous.
    split_and!; [apply d_get_set_eq|done|done|apply bool_decide_eq_true| |].
    + intros removed. rewrite Hc. rewrite !list_elem_of_filter. cbn. tauto.
    + intros k Hk. rewrite d_get_set_ne by auto. rewrite d_get_pop_all. unfold routes_of_thread. cbn.
      destruct (decide (k.1 = thread_ref)) as [Ht|Ht]; [rewrite (decide_True (P := _ ∧ _)) by done|rewrite (decide_False (P := _ ∧ _)) by tauto].
      * destruct (d_get (pj_routes (as_routes s)) k) as [r|] eqn:Hk'; [|by case_decide].
        rewrite decide_True; [done|]. apply list_elem_of_filter. split; [done|]. apply d_get_keys. eauto.
      * rewrite decide_False; [done|]. rewrite list_elem_of_filter. tauto.
  - pose proof (put_projection_route_spec route (as_routes s)) as Hs. unfold wp in Hs.
    destruct (put_projection_route route (as_routes s)) as [[stored|e] p]; cbn in *; [|subst p; by destruct s].
    destruct Hs as (Ha & ->). destruct (Hstored _ Ha) as (Hc & Hr & He). unfold refreshed; cbn. fold previous.
    split_and!; [apply d_get_set_eq|done|done|apply bool_decide_eq_true|set_solver|].
    intros k Hk. rewrite d_get_set_ne by auto. by rewrite decide_False by tauto.
Qed.
