(* ===== verification/RoutingExamples.v ===== *)
(** Concrete operations on a Conversation: bound, bound again, refused at a stale
    generation, cleared; and the theorems on routing applied to them. *)

From S2P Require Export RoutingProperties RouteAuthority.
From S2P Require Import ProjectionExamples.
From stdpp Require Import gmap.
From stdpp Require Import list.
#[local] Open Scope Z_scope.
#[local] Open Scope stdpp_scope.

Module Routed.
Definition conversation_ref : ConversationRef := example_conversation.
Definition thread_ref : ThreadRef := {|
  th_project_ref := {| pr_application_instance_id := py "app"; pr_project_id := py "project" |};
  th_thread_id := py "thread" |}.
Definition applications : dict pystr ApplicationSummary := [(py "app", Projection.application)].
Definition error_text (e : exn) : pystr := py "refused".
Definition float_repr (q : Qcanon.Qc) : pystr := [].
Abbreviation executes := (execution error_text float_repr applications FOREGROUND_ONLY).
Abbreviation routed := (routing_runs error_text float_repr applications FOREGROUND_ONLY new_binding_repository).

Lemma registered key application : d_get applications key = Some application →
  ar_application_instance_id (as_ref application) = key.
Proof. unfold applications. cbn [d_get]. case_decide as Hk; [|done]. intros [= <-]. exact Hk. Qed.

Definition operation (id : string) (request : gateway_request) : GatewayOperation := {|
  go_operation_id := py id; go_conversation_ref := conversation_ref; go_actor := py "actor";
  go_created_at := Aware 0; go_request := request |}.
Definition binds_thread (id : string) (expected : option Z) : GatewayOperation :=
  operation id (BindConversationToThread thread_ref expected).
Definition prepared_route : ThreadProjectionRoute := {|
  tr_route_id := py "route"; tr_thread_ref := thread_ref; tr_conversation_ref := conversation_ref;
  tr_reply_to_message_id := None; tr_checkpoint_agent_item_id := None; tr_checkpointed_at := None;
  tr_updated_at := None |}.

(** The world answers at once, or a wait is cancelled; the Application has what it is asked for. *)
Definition answer (X : Type) (e : routing_event X) : routing_world → res X * routing_world :=
  match e with
  | HoldConversationOf o => λ w, match nw_locks w !! go_conversation_ref o with
      | None => (Ok (), on_lock_table (<[go_conversation_ref o := view_in w (go_conversation_ref o)]> (nw_locks w)) w)
      | Some _ => (Err CancelledError, on_sessions (nw_sessions w ++ [{| ss_operation := o; ss_views := None |}]) w)
      end
  | LeaveConversationOf o => λ w, match nw_locks w !! go_conversation_ref o with
      | Some before => (Ok (), on_lock_table (delete (go_conversation_ref o) (nw_locks w))
          (on_sessions (nw_sessions w ++ [{| ss_operation := o;
            ss_views := Some (before, view_in w (go_conversation_ref o)) |}]) w))
      | None => (Ok (), w)
      end
  | GetBinding c => λ w, (Ok (vw_binding (view_in w c)), w)
  | PutBinding b expected => λ w,
      let '(r, s) := put_binding (Aware 1) b expected (nw_bindings w) in (r, at_bindings s w)
  | RunApplication o => λ w, (Ok (ApplicationOperationSucceeded (ao_operation_id o) (Aware 0)
      match ao_request o with
      | GetThread t => ThreadRead {| ts_ref := t; ts_status := TS_IDLE; ts_title := None; ts_updated_at := None |}
      | GetProject p => ProjectRead {| ps_ref := p; ps_display_name := py "Project"; ps_root_path := None;
          ps_repo_url := None; ps_workspace_root_fingerprint := None |}
      | _ => ProjectDeleted (th_project_ref thread_ref)
      end), w)
  | ReadClock => λ w, (Ok (Aware 0), w)
  | HandleBindingChange _ _ _ => λ w, (Ok (), w)
  | PrepareForegroundBindingRoute t c => λ w,
      if decide (t = thread_ref ∧ c = conversation_ref) then (Ok (prepared_route, true), w) else (Err RuntimeError, w)
  | CompleteForegroundBindingRoute route complete => λ w, (Ok (),
      if complete then on_opened (nw_opened w ++ [(route, view_in w (tr_conversation_ref route))]) w else w)
  | ObserveRoute _ _ _ => λ w, (Ok prepared_route, w)
  | RouteResponse _ _ => λ w, (Err RuntimeError, w)
  | TakeAnswer o a => λ w, (Ok (), on_answers (nw_answers w ++ [(o, a)]) w)
  end.

Definition begins : routing_world := new_routing_world new_binding_repository.
Definition after (operations : list GatewayOperation) : routing_world :=
  (run_tasks answer 60 (executes <$> operations) () begins).2.

(** What was answered: the Thread and the generation bound to, or the error. *)
Definition told (w : routing_world) : list (option (option ThreadRef * Z) + pystr) :=
  (λ a, match a.2 with
   | Ok (ConversationBound _ _ _ b) => inl (Some (cb_thread_ref b, cb_generation b))
   | Ok (GatewayOperationFailed _ _ error _) => inr (ce_code error)
   | _ => inl None
   end) <$> nw_answers w.
Definition operations : list GatewayOperation := [
  operation "select" (SelectApplication {| ar_application_instance_id := py "app" |} None);
  binds_thread "bind" (Some 1);
  binds_thread "bind again" (Some 1);
  binds_thread "stale" (Some 7);
  operation "clear" (ClearConversationThread (Some 2));
  binds_thread "stale too" (Some 2)].

(** The bind that is repeated converges; a stale one conflicts, and when the Thread is no
    longer bound it opens the barrier of the route it prepared. *)
Example operations_told : told (after operations) =
  [inl (Some (None, 1)); inl (Some (Some thread_ref, 2)); inl (Some (Some thread_ref, 2));
   inr (py "conflict"); inl (Some (None, 3)); inr (py "conflict")].
Proof. vm_compute. reflexivity. Qed.
Example barrier_opened_once : length (nw_opened (after operations)) = 1%nat.
Proof. vm_compute. reflexivity. Qed.

Lemma routed_answer_outcome X (e : routing_event X) w :
  outcome routing_perform routing_immediate e w (answer X e w).1 (answer X e w).2.
Proof.
  left. destruct e as [o|o|c|b expected|o| |previous current checkpoint|t c|route complete|t c i|o at_|o a]; cbn; try done.
  - destruct (nw_locks w !! go_conversation_ref o); cbn; [right|left]; auto.
  - by destruct (nw_locks w !! go_conversation_ref o).
  - auto.
  - exists (Aware 1). destruct (put_binding _ _ _ _) as [r s]. by left.
  - case_decide as H; cbn; (split; [done|]); [|done]. destruct H as [-> ->]. by intros ? ? [= <- <-].
Qed.

Lemma routed_after os : ∃ q, routed q ∧ lp_world q = after os.
Proof.
  destruct (run_tasks_reach routing_perform routing_immediate routing_others
    (λ p, ∃ o, p = executes o) (λ _, False) answer 60 (executes <$> os) () begins [] routed_answer_outcome) as [rest Hr].
  { apply Forall_forall. intros p (o & -> & _)%list_elem_of_fmap. by exists o. }
  eexists. split; [exact Hr|done].
Qed.
End Routed.

Section examples.
Import Routed.

Lemma new_bindings_inv : binding_inv new_binding_repository.
Proof. split; [constructor..|apply d_all_nil|apply d_all_nil]. Qed.

(** The bind that is repeated, at the generation before the one there is. *)
Definition repeated_bind : GatewayOperation := binds_thread "bind again" (Some 1).
Definition bound_binding : ConversationBinding :=
  restamp (binding_to conversation_ref (Some (as_ref Projection.application)) (Some (th_project_ref thread_ref)) (Some thread_ref))
    2 (Aware 1).
Definition bound_answer : res GatewayOperationResult :=
  Ok (ConversationBound (py "bind again") (Aware 0) CONVERSATION_BIND_THREAD bound_binding).


End examples.
